(* ===== verification/_CoqProject ===== *)
-Q . S2P
Prelude.v
GoStrings.v
GoSort.v
K8s.v
Status.v
Workload.v
Api.v
GoLib.v
Scope.v
Objects.v
Client.v
Samples.v
Store.v
Source.v
SourceInstrumentation.v
RuleMerge.v
ActionConfig.v
SamplingConfig.v
DynamicConfig.v
Distros.v
ContainerAgent.v
Backoff.v
Limiter.v
RolloutStatus.v
Rollout.v
RolloutEffects.v
RolloutProperties.v
AgentEnabled.v
AgentDecision.v
AgentEnabledProperties.v
Reconcile.v
ReconcileProperties.v
PodOwner.v
PodEnv.v
EnvInjector.v
PodMounts.v
PodsWebhook.v
PodsWebhookProperties.v
GoState.v
Manager.v
ManagerProperties.v
K8sProcesses.v
ProfileCache.v
CollectorConfig.v
Destinations.v
DestinationTypes.v
DestinationLaws.v
DestinationVendors.v
DestinationEndpoints.v
DestinationDecoders.v
AvailableConfigers.v
DataStreams.v
GatewayConfig.v
GatewayTelemetry.v
GatewayValid.v
GatewayRoutes.v
GatewayRoots.v
GatewayProcessors.v
GatewayProperties.v
OdigosConfig.v
Sizing.v
Profiles.v
CollectorsGroups.v
CollectorsGroupsProperties.v
ConfigMerge.v
EffectiveConfig.v
EffectiveConfigProperties.v
NodeCollector.v
NodeDomains.v
NodeCollectorProperties.v
UrlTemplate.v
Regexp.v
Pdata.v
UrlTemplatization.v
TailSampling.v
TailSamplingProperties.v
ConfigExtension.v
Router.v
Actions.v
ActionsReconcile.v
