(* ===== verification/Prelude.v ===== *)
(** * Odigos: a verification of its control plane

    Odigos watches [Source] objects that mark workloads and namespaces of a
    Kubernetes cluster, keeps one [InstrumentationConfig] per marked workload,
    decides which agent each container runs and how it is configured, restarts
    the workload so that its pods pick the agent up, and runs collectors that
    bring the telemetry to the destinations.  This library models that path:
    the instrumentor (src/instrumentor), the pods webhook, the instrumentation
    manager of odiglet (src/instrumentation, src/odiglet/pkg/ebpf), the
    effective configuration with its profiles and presets, and the
    configurations that the autoscaler writes for the collectors (src/common,
    src/autoscaler), and the collectors' own extension and processors that
    act on the configurations of containers (src/collector).

    ** How the parts interact

<<
    helm values, overlays, profiles        odigosconfiguration: Reconcile
        |
        v
    effective configuration ----------------------------.
        |                                               |
    Source, Namespace, workload objects                 | clustercollectorsgroup,
        |  sourceinstrumentation: syncWorkload          | nodecollectorsgroup: sync
        v                                               v
    InstrumentationConfig (spec, status)          CollectorsGroup objects
        |  agentenabled: reconcileWorkload              |  Destination, Processor objects
        |     updateInstrumentationConfigSpec           |  autoscaler: CalculateGatewayConfig,
        |        distroresolver, distros                |     calculateCollectorConfigDomains
        |        distroparams, dynamicconfig            v
        |     rollout.Do                          configurations of the collectors
        v
    workload restarted; pods admitted (pods webhook)
        |
        v
    odiglet: the manager instruments processes and applies their configuration
        |  telemetry
        v
    collectors: the configuration extension follows InstrumentationConfigs and
    feeds the URL templating and tail sampling processors
>>

    The controllers share the cluster's state and the rollout limiter; a
    reconciliation is a sequence of reads and writes that other controllers
    interleave with.  In the agents' controllers the reads and writes are the
    operations of the abstract class [Client] (file Client), in the smaller
    controllers they are a record of replies: either way a theorem that
    quantifies over them covers every reply, errors included.

    ** Files and what they model

    Values and libraries: Prelude (panics, maps, generic lemmas, hints),
    GoStrings (package strings), GoSort
    ([slices.SortFunc] as a class with its documented contract, and the
    insertion sort it runs on short slices), GoLib (strconv, time, float64, map
    iteration order, hashing), GoState (a state monad with panics), K8s
    (errors, object metadata, conditions, reconcile results).

    Data: Api (src/api/odigos/v1alpha1, src/common, src/common/api,
    src/distros/distro), Status (src/status, conditions and reasons), Objects
    (pods and workload objects), Workload (src/k8sutils/pkg/workload: kinds,
    runtime object names), Client (the API server, the clock, the monad [M]),
    Store (an in-memory cluster for concrete runs), Samples (values for them),
    OdigosConfig (src/common/odigos_config.go in full, and the slices of it
    that the other components read).

    Sources: Source (GetSources, IsObjectInstrumentedBySource, data streams),
    SourceInstrumentation (syncWorkload and the namespace and regular
    expression syncs of sourceinstrumentation/common.go and conditions.go).

    Decision per container: Scope (scope.go, signals.go), Distros
    (oteldistributions.go, distroresolver.go), ContainerAgent (distroparams.go
    and the decisions of sync.go), RuleMerge (mergeconfig and the rule merges
    of dynamicconfig), ActionConfig (settings from actions), SamplingConfig
    (sampling.go), DynamicConfig (config.go and the metrics settings).

    Reconciliation: AgentEnabled (resources.go, updateInstrumentationConfigSpec,
    hash.go), AgentDecision and AgentEnabledProperties (its theory), Reconcile
    (reconcileWorkload, reconcileAll) and ReconcileProperties.

    Rollout: RolloutStatus (k8sutils/pkg/utils/rollout.go), Backoff
    (rollout_backoff_helpers.go), Limiter (rollout_concurrency_limiter.go),
    Rollout (rollout.go), RolloutEffects (the relation [do_effect] that lists
    what a call may write, and the proof that [Do] refines it),
    RolloutProperties.

    Pods webhook: PodOwner (ownerreference.go), PodEnv (podswebhook/env.go,
    otelresource.go), EnvInjector (webhook_env_injector.go), PodMounts
    (mount.go, device.go, internal/pod/pod.go), PodsWebhook (pods_webhook.go)
    and PodsWebhookProperties.

    Instrumentation on the node: Manager (src/instrumentation/manager.go, the
    event loop), ManagerProperties (its theory), K8sProcesses
    (src/odiglet/pkg/ebpf: groups, distributions and settings of a process),
    ProfileCache (src/common/profilecache, as interleaved critical sections).

    Effective configuration: Sizing (k8sutils/pkg/sizing and the resource
    settings of both collectors groups), Profiles (src/profiles,
    profileutils.go), ConfigMerge ([mergeConfigs]),
    EffectiveConfig and EffectiveConfigProperties (the rest of
    odigosconfiguration), CollectorsGroups and CollectorsGroupsProperties
    (clustercollectorsgroup, nodecollectorsgroup).

    Gateway configuration: CollectorConfig (src/common/config: the
    configuration, its merge, processors of custom resources), Destinations
    (the interface of a destination's configurer and the laws it promises),
    DestinationTypes, DestinationVendors, DestinationEndpoints and
    DestinationDecoders (the 69 configurers) with DestinationLaws
    and AvailableConfigers (root.go: each keeps the promise), DataStreams (the streams and their routers),
    GatewayConfig (src/common/pipelinegen), GatewayTelemetry (the options that
    the autoscaler adds: own metrics, profiling, insights); GatewayValid (what
    the collector accepts), GatewayRoutes, GatewayRoots,
    GatewayProcessors (the steps keep it) and GatewayProperties.

    Node collector configuration: NodeCollector (the domains of
    src/autoscaler/controllers/nodecollector/collectorconfig and their
    composition in configmap.go),
    NodeDomains (the names of each domain and the table of pipelines),
    NodeCollectorProperties (the result is accepted).

    Actions: Actions (src/autoscaler/controllers/actions: the kinds of actions,
    the webhook, the conversion to processors) and ActionsReconcile (the
    reconcilers, on a store whose calls may fail).

    Collector processors: UrlTemplate (src/common/urltemplate: path rules),
    Regexp (regular expressions with a matcher that is proved to decide their
    language), Pdata (spans and attributes), UrlTemplatization
    (odigosurltemplateprocessor), TailSampling and TailSamplingProperties
    (odigostailsamplingprocessor), ConfigExtension (odigosconfigk8sextension:
    the cache of configurations, its informer, and the interface
    [ConfigCallback] through which the two processors follow it), Router
    (odigosrouterconnector, composed with the extension and the gateway's
    pipelines).

    Definitions keep the names of the Go functions; a method of a struct is a
    function of its record, a helper without a Go counterpart has a lower case
    name that says what part of the function it is.

    ** What the theorems show

    - The spec of a config: every outcome of its update for every reply of
      the cluster; when the containers are decided, flags, hash, collector
      configurations and condition are consistent (AgentEnabledProperties); a
      whole reconciliation keeps the flag so in the stored object whichever
      write fails (ReconcileProperties).  An Argo Rollout without a selector
      and a ready config that lists no container panic: the theorems say so.
    - Rollouts: each call of [Do] returns and is one of the effects of an
      abstract relation with its justification, in terms of the clock readings
      of that call; a due restart is patched once; exactly when a rollback is
      decided; disabled rollout never restarts; recovery is processed once;
      the number of granted rollouts is bounded in every interleaving and is
      what the limiter has recorded.
    - Sources: precedence, uniqueness, what a sync establishes, and that a
      second sync writes nothing.
    - Containers: when an agent is enabled and how it is injected; the
      resolved distribution exists and serves the container; the fallback walk
      terminates on acyclic fallbacks and its answer is characterised.
    - Configuration of agents: which rules reach a container (scopes,
      sampling, URL templates, masking, renaming), that none is lost or
      applied twice between agent and collector, and which results do not
      depend on orders.
    - Pods: a mutated pod keeps its containers and is only mutated for a
      workload whose injection is on; its mounts have a volume and, where it
      is copied, an init container; the variable that starts the agent has
      the documented value; the webhook always answers.
    - Processes: the manager's indices agree with the processes it tracks in
      every reachable state, every instrumentation is closed exactly once
      (what stays open when the clean-up's deadline passes is stated), a
      request closes exactly its group; the resource attributes that the
      webhook writes reach a process' instrumentation unless its container
      sets them itself; the profile cache stays within its memory in every
      interleaving.
    - Effective configuration: a reconciliation always returns and what it
      persists is resolved and is what Helm's configuration, the overlays and
      the profiles ask for, field by field; overlays win field by field and
      merging them is associative; the objects of the profiles converge to
      those in effect, whatever failed before, and no other object is touched;
      the order of profiles does not matter; sizes are the user's or the
      preset's, and the memory limits are consistent where the memory is left
      to the preset or derived from a request and a limit.
    - Collectors groups: what a reconciliation applies, and its error, for
      every reply; the metrics asked for are those of a reference specification.
    - Gateway: for destinations that are served as most are, with names of
      their own, the configuration is one that the collector accepts
      (components defined, connectors used at both ends with signals
      they connect, no cycle, processors once); a data stream's pipeline
      exports to exactly its destinations, so a resource that passes the router
      reaches exactly those of its workload's streams; the streams do not
      depend on orders.
    - Node collectors: their configuration is accepted as well, when no
      processor lists a role twice, and cannot be
      built only when a processor has no configuration or takes a name of the
      collector; the signals read back are those that agents can send.
    - Collector processors: a path rule matches segment by segment; the
      template of a span matches its path and a second pass changes nothing;
      tail sampling decides as a reference over the enabled rules says and
      changes sampling attributes only; the extension holds exactly the last
      configuration of each container, every registered processor follows it
      in every interleaving, and a resource's key is that of its container.
    - Actions: the configuration of a rename does what it says in every
      context; the shared processors have what the enabled actions ask for; a
      reconciliation that ends quietly left conditions that are true, for
      every sequence of failed calls.
    - Observations: lemmas on concrete inputs show where the code departs
      from its comments (aliasing of merged rules, a cycle that hangs, a slot
      that is never released, a limiter above the container's memory).

    ** Choices and bounds

    A nil pointer is [None]; a nil dereference, an index out of range and an
    unbounded loop are the outcomes [Panic] and [Hang] of [go], and theorems
    of totality exclude them.  The loops without a structural bound run with
    fuel, and running out of it is excluded by proof: the walk along
    [fallbackDistro] has [resolve_fuel], one step more than there are
    distributions, and running out of it is proved to mean that the loop does
    not return; the eviction of a cache runs once per slot at most; the
    dependencies of profiles are followed with [profiles_fuel] = 2, enough as
    they are one level deep ([shipped_effective_profiles]); the repair of a
    dynatrace URL calls itself once ([parsetheDTurl], fuel 2).  Rule payloads
    that the code writes through a shared pointer are addresses in a [Heap]
    that one reconciliation threads through all containers.  Map iteration is
    the class [GoMapOrder], so a theorem covers every order, and time stamps
    are readings of an abstract clock.  Durations and instants are unbounded
    integers of nanoseconds, and replica counts integers: the code only
    compares and subtracts them, far from the limits of their widths; where it
    does saturate ([time.Sub]) the saturation is written out, and a product of
    sizes wraps at 64 bits ([percent]).  Scaling an integer through float64 is
    exact below 2^46 ([float_scale]), a hypothesis where it matters.  Hash
    functions, version parsing, URL parsing, YAML and the regular expressions
    that users supply belong to libraries and are class operations or
    arguments; the patterns that the code fixes are matched ([Regexp]).

    ** Not modelled

    The wiring to controller-runtime (watches, predicates, managers), logging
    and tracing, deep copies; the reconcilers of tokens, instrumented nodes and
    manifest injection status; the deployments, services and autoscaling that
    the autoscaler writes; the collector components not named above; odiglet
    apart from its manager; the OpAMP server, the frontend and the CLI.
    The rounding of a trace's percentage in float64 is computed as written;
    that it never exceeds 100 is not proved. *)

From stdpp Require Export base tactics list gmap strings fin_maps sorting.

(** ** Go values

    A Go pointer that may be nil is an [option]; [p != nil && *p] on a
    [*bool] is [deref_bool p].  A nil map and an empty map are the same
    [gmap], except where the code compares a map with nil: every write of
    the modelled code to a map that may be nil is guarded by a [make], or the
    record says whether the map is there. *)
Definition deref_bool (p : option bool) : bool := default false p.

(** A computation that may panic (nil dereference, index out of range) or
    not return. *)
Inductive go (A : Type) := Done (a : A) | Panic | Hang.
Arguments Done {A} a.
Arguments Panic {A}.
Arguments Hang {A}.

Definition go_bind {A B} (m : go A) (f : A -> go B) : go B :=
  match m with Done a => f a | Panic => Panic | Hang => Hang end.

(** Dereference of a pointer that may be nil. *)
Definition go_deref {A} (p : option A) : go A :=
  match p with Some a => Done a | None => Panic end.

(** Lookup in a [map[string]string]: a missing key reads as the zero value. *)
Definition map_get (m : gmap string string) (k : string) : string :=
  default "" (m !! k).

(** A Go [switch] on a string: the first case that equals the subject. *)
Fixpoint switch {A} (s : string) (cases : list (string * A)) (dflt : A) : A :=
  match cases with
  | [] => dflt
  | (c, a) :: rest => if decide (s = c) then a else switch s rest dflt
  end.

(** [for ... { if p(x) { return &x } } return nil]. *)
Fixpoint first_match {A} (p : A -> bool) (l : list A) : option A :=
  match l with
  | [] => None
  | x :: l => if p x then Some x else first_match p l
  end.

(** [len(l) > 0]. *)
Definition nonempty {A} (l : list A) : bool := match l with [] => false | _ => true end.

Lemma nonempty_app {A} (l l' : list A) : nonempty (l ++ l') = nonempty l || nonempty l'.
Proof. by destruct l. Qed.
Lemma nonempty_true {A} (l : list A) : nonempty l = true <-> l <> [].
Proof. by destruct l. Qed.
Lemma nonempty_permuted {A} (l l' : list A) : l ≡ₚ l' -> nonempty l = nonempty l'.
Proof.
  intros Hl. destruct l; [by apply Permutation_nil_l in Hl as <-|].
  destruct l'; [by apply Permutation_nil_r in Hl|done].
Qed.

Lemma existsb_permuted {A} (f : A -> bool) l l' : l ≡ₚ l' -> existsb f l = existsb f l'.
Proof. induction 1; simpl; try congruence. by destruct (f x), (f y). Qed.

Lemma forallb_permuted {A} (f : A -> bool) l l' : l ≡ₚ l' -> forallb f l = forallb f l'.
Proof. induction 1; simpl; try congruence. by destruct (f x), (f y). Qed.

(** ** Tactics *)

(** Split every [match]/[if] of the goal, closing contradictory branches. *)
Ltac split_cases := repeat (case_match; simplify_eq/=; try done).

(** Split the hypotheses' and the goal's matches, then simplify. *)
Ltac crush_cases :=
  repeat (progress simplify_eq/= || case_match || case_decide); try done.

Create HintDb odigos discriminated.

(** ** Generic lemmas *)

Lemma first_match_Some {A} (p : A -> bool) l x :
  first_match p l = Some x -> x ∈ l ∧ p x = true.
Proof.
  induction l as [|y l IH]; simpl; [done|].
  destruct (p y) eqn:E; intros H; simplify_eq.
  - split; [left|done].
  - destruct (IH H). split; [by right|done].
Qed.

Lemma first_match_None {A} (p : A -> bool) l :
  first_match p l = None <-> forall x, x ∈ l -> p x = false.
Proof.
  induction l as [|y l IH]; simpl; [set_solver|].
  destruct (p y) eqn:E; split.
  - done.
  - intros H. rewrite (H y) in E; [done|left].
  - intros H x [->|Hx]%elem_of_cons; [done|]. by apply IH.
  - intros H. apply IH. intros x Hx. apply H. by right.
Qed.

Lemma first_match_is_Some {A} (p : A -> bool) l :
  is_Some (first_match p l) <-> exists x, x ∈ l ∧ p x = true.
Proof.
  destruct (first_match p l) as [x|] eqn:E; split; intros H.
  - exists x. by apply first_match_Some.
  - done.
  - by destruct H.
  - destruct H as (x & Hx & Hp). rewrite first_match_None in E.
    by rewrite (E x Hx) in Hp.
Qed.

Lemma first_match_ext {A} (p q : A -> bool) l :
  (forall x, x ∈ l -> p x = q x) -> first_match p l = first_match q l.
Proof.
  induction l as [|y l IH]; simpl; [done|]. intros H.
  rewrite (H y); [|left]. destruct (q y); [done|]. apply IH. set_solver.
Qed.

(** In a list without duplicate keys, at most one entry satisfies a test on
    the key, so the order does not matter. *)
Lemma first_match_keyed {A B} (key : A -> B) (p : A -> bool) l l' :
  l ≡ₚ l' -> NoDup (key <$> l) ->
  (forall x y, x ∈ l -> y ∈ l -> p x = true -> p y = true -> key x = key y) ->
  first_match p l = first_match p l'.
Proof.
  intros Hl Hnd Hkey. destruct (first_match p l) as [x|] eqn:E.
  - apply first_match_Some in E as [Hx Hp].
    destruct (first_match p l') as [y|] eqn:E'.
    + apply first_match_Some in E' as [Hy Hq]. rewrite <-Hl in Hy. f_equal.
      apply list_elem_of_lookup in Hx as [i Hi]. apply list_elem_of_lookup in Hy as [j Hj].
      assert (i = j) as ->; [|congruence].
      apply (NoDup_lookup (key <$> l) i j (key x)); [done|by rewrite list_lookup_fmap, Hi|].
      rewrite list_lookup_fmap, Hj. simpl. f_equal.
      apply Hkey; eauto using list_elem_of_lookup_2.
    + rewrite first_match_None in E'. rewrite E' in Hp; [done|by rewrite <-Hl].
  - symmetry. rewrite first_match_None in *. intros x Hx. apply E. by rewrite Hl.
Qed.

Lemma switch_elem {A} s (cases : list (string * A)) d a :
  switch s cases d = a -> a = d ∨ (s, a) ∈ cases.
Proof.
  induction cases as [|[c b] rest IH]; simpl; [by left|].
  destruct (decide (s = c)) as [->|]; intros Heq.
  - subst. right. left.
  - destruct (IH Heq); [by left|right; by right].
Qed.

Lemma switch_in {A} s (cases : list (string * A)) d :
  switch s cases d = d ∨ switch s cases d ∈ cases.*2.
Proof.
  destruct (switch_elem s cases d _ eq_refl) as [->|Hin]; [by left|right].
  rewrite list_elem_of_fmap. by eexists (_, _).
Qed.

(** Key lookup by first match respects keys: an association list with
    distinct keys is a finite map. *)
Lemma switch_notin {A} s (cases : list (string * A)) d :
  s ∉ cases.*1 -> switch s cases d = d.
Proof.
  induction cases as [|[c b] rest IH]; simpl; [done|].
  intros H. rewrite decide_False by set_solver. apply IH. set_solver.
Qed.

(** Folding two permuted lists gives equivalent results when swapping two
    steps does. *)
Lemma foldl_permuted {A B} (R : B -> B -> Prop) `{!PreOrder R} (f : B -> A -> B) :
  (forall b b' x, R b b' -> R (f b x) (f b' x)) ->
  (forall b x y, R (f (f b x) y) (f (f b y) x)) ->
  forall l l', l ≡ₚ l' -> forall b b', R b b' -> R (foldl f b l) (foldl f b' l').
Proof.
  intros Hp Hc l l' Hl. induction Hl as [|x l l' _ IH|x y l|l1 l2 l3 _ IH1 _ IH2]; intros b b' Hb; simpl.
  - done.
  - auto.
  - assert (Hm : forall c c', R c c' -> R (foldl f c l) (foldl f c' l)).
    { induction l as [|z l IH]; simpl; auto. }
    apply Hm. transitivity (f (f b x) y); auto.
  - transitivity (foldl f b l2); [by apply IH1|by apply IH2].
Qed.

(** [for x in l { if seen[key(x)] { continue }; seen[key(x)] = true; append(x) }]. *)
Fixpoint dedupe_by {A B} `{EqDecision B} (key : A -> B) (seen : list B) (l : list A) : list A :=
  match l with
  | [] => []
  | x :: l => if decide (key x ∈ seen) then dedupe_by key seen l
              else x :: dedupe_by key (key x :: seen) l
  end.

Lemma dedupe_by_keys {A B} `{EqDecision B} (key : A -> B) seen l b :
  b ∈ key <$> dedupe_by key seen l <-> b ∈ key <$> l ∧ b ∉ seen.
Proof.
  revert seen. induction l as [|x l IH]; intros seen; simpl; [set_solver|].
  case_decide; rewrite ?fmap_cons, ?elem_of_cons, ?IH; [set_solver|].
  destruct (decide (b = key x)); set_solver.
Qed.

Lemma dedupe_by_NoDup {A B} `{EqDecision B} (key : A -> B) seen l :
  NoDup (key <$> dedupe_by key seen l).
Proof.
  revert seen. induction l as [|x l IH]; intros seen; simpl; [constructor|].
  case_decide; [done|]. rewrite fmap_cons. constructor; [|done].
  rewrite dedupe_by_keys. set_solver.
Qed.

Lemma dedupe_by_elem {A B} `{EqDecision B} (key : A -> B) seen l x :
  x ∈ dedupe_by key seen l -> x ∈ l.
Proof.
  revert seen. induction l as [|y l IH]; intros seen; simpl; [done|].
  case_decide; [intros ?; right; by eapply IH|]. intros [->|?]%elem_of_cons; [left|right; by eapply IH].
Qed.

(** Only the set of seen keys matters. *)
Lemma dedupe_by_seen {A B} `{EqDecision B} (key : A -> B) seen seen' l :
  (forall b, b ∈ seen <-> b ∈ seen') -> dedupe_by key seen l = dedupe_by key seen' l.
Proof.
  revert seen seen'. induction l as [|x l IH]; intros seen seen' Hs; simpl; [done|].
  pose proof (Hs (key x)). repeat case_decide; try tauto; [by apply IH|]. f_equal. apply IH. set_solver.
Qed.

Lemma dedupe_by_app {A B} `{EqDecision B} (key : A -> B) seen l1 l2 :
  dedupe_by key seen (l1 ++ l2)
  = dedupe_by key seen l1 ++ dedupe_by key ((key <$> l1) ++ seen) l2.
Proof.
  revert seen. induction l1 as [|x l1 IH]; intros seen; simpl; [done|].
  case_decide.
  - rewrite IH. f_equal. apply dedupe_by_seen. set_solver.
  - rewrite IH. simpl. f_equal. f_equal. apply dedupe_by_seen. set_solver.
Qed.

Lemma dedupe_id_elem {A} `{EqDecision A} (l : list A) x : x ∈ dedupe_by id [] l <-> x ∈ l.
Proof.
  pose proof (dedupe_by_keys id [] l x) as H. rewrite !list_fmap_id in H. rewrite H. set_solver.
Qed.

Lemma dedupe_id_NoDup {A} `{EqDecision A} (l : list A) : NoDup (dedupe_by id [] l).
Proof. pose proof (dedupe_by_NoDup id [] l) as H. by rewrite list_fmap_id in H. Qed.

Lemma dedupe_id_permuted {A} `{EqDecision A} (l l' : list A) :
  l ≡ₚ l' -> dedupe_by id [] l ≡ₚ dedupe_by id [] l'.
Proof.
  intros Hl. apply NoDup_Permutation; [apply dedupe_id_NoDup..|].
  intros x. by rewrite !dedupe_id_elem, Hl.
Qed.

(** ** Machine integers

    A signed [w]-bit Go integer is a [Z]; [wrap w] is the value an
    arithmetic result has after overflow. *)
Definition wrap (w : Z) (x : Z) : Z := ((x + 2 ^ (w - 1)) `mod` 2 ^ w - 2 ^ (w - 1))%Z.

Definition in_range (w : Z) (x : Z) : Prop := (- 2 ^ (w - 1) <= x < 2 ^ (w - 1))%Z.

Lemma wrap_in_range w x : (0 < w)%Z -> in_range w (wrap w x).
Proof.
  unfold in_range, wrap. intros Hw.
  assert (2 ^ w = 2 * 2 ^ (w - 1))%Z as E.
  { rewrite <- Z.pow_succ_r by lia. f_equal. lia. }
  pose proof (Z.mod_pos_bound (x + 2 ^ (w - 1)) (2 ^ w)) as B.
  assert (0 < 2 ^ (w - 1))%Z by (apply Z.pow_pos_nonneg; lia). lia.
Qed.

Lemma wrap_id w x : (0 < w)%Z -> in_range w x -> wrap w x = x.
Proof.
  unfold in_range, wrap. intros Hw Hx.
  assert (2 ^ w = 2 * 2 ^ (w - 1))%Z as E.
  { rewrite <- Z.pow_succ_r by lia. f_equal. lia. }
  rewrite Z.mod_small; lia.
Qed.

(** [time.Duration] arithmetic: [time.Time.Sub] saturates at the 64-bit
    bounds. *)
Definition max_duration : Z := (2 ^ 63 - 1)%Z.
Definition min_duration : Z := (- 2 ^ 63)%Z.
Definition time_sub (t u : Z) : Z := Z.max min_duration (Z.min max_duration (t - u)).
Definition Second : Z := 1000000000.
Definition Minute : Z := (60 * Second)%Z.
Definition Hour : Z := (60 * Minute)%Z.

(** ** Guards: [if c { return false }; ...] returns true only past [c]. *)
Lemma guard_decide (P : Prop) `{!Decision P} (b : bool) :
  (if decide P then false else b) = true <-> ~ P ∧ b = true.
Proof. case_decide; naive_solver. Qed.

Lemma guard_bool (c b : bool) : (if c then false else b) = true <-> c = false ∧ b = true.
Proof. destruct c; naive_solver. Qed.

Lemma guard_skip (c b : bool) : (if c then true else b) = true <-> c = true ∨ b = true.
Proof. destruct c; naive_solver. Qed.

Create Rewrite HintDb guards.
#[export] Hint Rewrite guard_bool guard_skip negb_true_iff negb_false_iff andb_true_iff
  orb_true_iff orb_false_iff andb_false_iff bool_decide_eq_true bool_decide_eq_false : guards.
#[export] Hint Rewrite @guard_decide : guards.
