(* ===== verification/GoStrings.v ===== *)
(** * Go's [strings] functions the instrumentor uses

    Strings are byte strings ([String.string]).  Case mapping is the ASCII
    one: every string the code lowers is a Kubernetes object name or kind,
    which are ASCII. *)

From Stdlib Require Import Ascii.
From S2P Require Import Prelude.

(** [strings.ToLower] on one byte. *)
Definition lower_byte (c : ascii) : ascii :=
  let n := Ascii.nat_of_ascii c in
  if decide (65 ≤ n ∧ n ≤ 90) then Ascii.ascii_of_nat (n + 32) else c.

Fixpoint to_lower (s : string) : string :=
  match s with
  | EmptyString => EmptyString
  | String c s => String (lower_byte c) (to_lower s)
  end.

(** [strings.SplitN(s, sep, 2)] for a one-byte separator: the parts before
    and after the first separator, or [None] when there is only one part. *)
Fixpoint split2 (sep : ascii) (s : string) : option (string * string) :=
  match s with
  | EmptyString => None
  | String c s =>
      if decide (c = sep) then Some (EmptyString, s)
      else match split2 sep s with
           | Some (a, b) => Some (String c a, b)
           | None => None
           end
  end.

(** [strings.HasPrefix(s, p)]. *)
Fixpoint has_prefix (p s : string) : bool :=
  match p, s with
  | EmptyString, _ => true
  | String a p, String b s => bool_decide (a = b) && has_prefix p s
  | _, _ => false
  end.

(** [strings.Contains(s, sub)]. *)
Fixpoint contains (sub s : string) : bool :=
  has_prefix sub s ||
  match s with
  | EmptyString => false
  | String _ s => contains sub s
  end.

(** [strings.Join(l, sep)]. *)
Fixpoint join (sep : string) (l : list string) : string :=
  match l with
  | [] => ""
  | [x] => x
  | x :: l => x +:+ sep +:+ join sep l
  end.

Fixpoint drop_space (s : string) : string :=
  match s with
  | String c s' => if decide (c ∈ [" "; "009"; "010"; "011"; "012"; "013"]%char)
                   then drop_space s' else s
  | EmptyString => EmptyString
  end.

Fixpoint str_rev_app (s acc : string) : string :=
  match s with
  | EmptyString => acc
  | String c s => str_rev_app s (String c acc)
  end.
Definition str_rev (s : string) : string := str_rev_app s "".

(** [strings.TrimSpace(s)] (ASCII white space). *)
Definition trim_space (s : string) : string :=
  str_rev (drop_space (str_rev (drop_space s))).

(** The byte occurs in the string. *)
Fixpoint has_byte (c : ascii) (s : string) : bool :=
  match s with
  | EmptyString => false
  | String d s => bool_decide (d = c) || has_byte c s
  end.

(** [strings.ReplaceAll(s, old, new)] for a non-empty [old]: [skip] bytes of
    an occurrence are still to be passed over. *)
Fixpoint replace_from (old new s : string) (skip : nat) : string :=
  match s with
  | EmptyString => EmptyString
  | String c s' =>
      match skip with
      | S skip => replace_from old new s' skip
      | 0 => if has_prefix old s then new +:+ replace_from old new s' (String.length old - 1)
             else String c (replace_from old new s' 0)
      end
  end.
Definition replace_all (old new s : string) : string := replace_from old new s 0.

(** [strings.TrimLeft(s, cutset)]. *)
Fixpoint trim_left (cutset s : string) : string :=
  match s with
  | String c s' => if has_byte c cutset then trim_left cutset s' else s
  | EmptyString => EmptyString
  end.

(** [strings.LastIndex] and the cut before it: the part before the last [sep] ([s[:LastIndex(s, sep)]]) and the part
    after it; [None] when [sep] does not occur. *)
Fixpoint split_last (sep : ascii) (s : string) : option (string * string) :=
  match s with
  | EmptyString => None
  | String c s =>
      match split_last sep s with
      | Some (a, b) => Some (String c a, b)
      | None => if decide (c = sep) then Some (EmptyString, s) else None
      end
  end.

(** [filepath.Base(path)]: trailing slashes dropped, then the part after the
    last slash. *)
Definition filepath_Base (path : string) : string :=
  if decide (path = "") then "."
  else let s := str_rev (trim_left "/" (str_rev path)) in
       if decide (s = "") then "/"
       else match split_last "/"%char s with Some (_, base) => base | None => s end.

(** A string that [to_lower] leaves unchanged. *)
Definition is_lower (s : string) : Prop := to_lower s = s.

(** ** Lemmas *)

Lemma str_app_cons c s t : String c s +:+ t = String c (s +:+ t).
Proof. done. Qed.

Lemma str_app_assoc (s t u : string) : (s +:+ t) +:+ u = s +:+ (t +:+ u).
Proof.
  induction s as [|c s IH]; [done|].
  by rewrite !str_app_cons, IH.
Qed.
Lemma str_app_nil_r (s : string) : s +:+ "" = s.
Proof. induction s as [|c s IH]; [done|]. by rewrite str_app_cons, IH. Qed.
Lemma str_length_app s t : String.length (s +:+ t) = String.length s + String.length t.
Proof. induction s as [|c s IH]; [done|]. rewrite str_app_cons. simpl. by rewrite IH. Qed.

Lemma to_lower_app s t : to_lower (s +:+ t) = to_lower s +:+ to_lower t.
Proof.
  induction s as [|c s IH]; [done|].
  rewrite str_app_cons. simpl. by rewrite IH, str_app_cons.
Qed.

Lemma split2_app sep a b :
  has_byte sep a = false -> split2 sep (a +:+ String sep b) = Some (a, b).
Proof.
  induction a as [|c a IH].
  - intros _. simpl. by rewrite decide_True.
  - rewrite str_app_cons. simpl. rewrite orb_false_iff, bool_decide_eq_false. intros [Hc Ha].
    by rewrite decide_False, IH.
Qed.

Lemma split2_Some sep s a b :
  split2 sep s = Some (a, b) ->
  s = a +:+ String sep b ∧ has_byte sep a = false.
Proof.
  revert a. induction s as [|c s IH]; intros a; simpl; [done|].
  destruct (decide (c = sep)) as [->|Hc]; intros Heq; simplify_eq; [done|].
  destruct (split2 sep s) as [[a' b']|]; simplify_eq.
  destruct (IH a') as [-> Hb]; [done|].
  rewrite str_app_cons. simpl. split; [done|].
  by rewrite Hb, bool_decide_eq_false_2.
Qed.

Lemma split2_None sep s : split2 sep s = None <-> has_byte sep s = false.
Proof.
  induction s as [|c s IH]; simpl; [done|].
  destruct (decide (c = sep)) as [->|Hc].
  - rewrite bool_decide_eq_true_2 by done. naive_solver.
  - rewrite bool_decide_eq_false_2 by done. simpl.
    rewrite <- IH. destruct (split2 sep s) as [[? ?]|]; naive_solver.
Qed.

Lemma has_byte_app c s t : has_byte c (s +:+ t) = has_byte c s || has_byte c t.
Proof.
  induction s as [|d s IH]; [done|].
  rewrite str_app_cons. simpl. by rewrite IH, orb_assoc.
Qed.

Lemma str_app_inj_sep sep a1 b1 a2 b2 :
  has_byte sep a1 = false -> has_byte sep a2 = false ->
  a1 +:+ String sep b1 = a2 +:+ String sep b2 -> a1 = a2 ∧ b1 = b2.
Proof.
  intros H1 H2 Heq. pose proof (split2_app sep a1 b1 H1) as E1.
  rewrite Heq, split2_app in E1 by done. by simplify_eq.
Qed.

Lemma has_prefix_spec p s : has_prefix p s = true <-> exists t, s = p +:+ t.
Proof.
  revert s. induction p as [|a p IH]; intros s; simpl.
  { split; [by exists s|done]. }
  destruct s as [|b s]; simpl.
  { split; [done|]. intros [t Ht]. by rewrite str_app_cons in Ht. }
  rewrite andb_true_iff, bool_decide_eq_true, IH.
  setoid_rewrite str_app_cons. naive_solver.
Qed.

Create Rewrite HintDb odigos_str.
#[export] Hint Rewrite to_lower_app str_app_cons str_app_assoc has_byte_app : odigos_str.

(** ** Decimal integers: [strconv.ParseInt(s, 10, 64)] *)

Definition digit_of (c : ascii) : option Z :=
  let n := Ascii.nat_of_ascii c in
  if decide (48 ≤ n ∧ n ≤ 57) then Some (Z.of_nat (n - 48)) else None.

Fixpoint parse_digits (s : string) (acc : Z) : option Z :=
  match s with
  | EmptyString => Some acc
  | String c s =>
      match digit_of c with
      | Some d => parse_digits s (acc * 10 + d)%Z
      | None => None
      end
  end.

(** [None] is a syntax or range error. *)
Definition parse_int64 (s : string) : option Z :=
  let '(neg, ds) :=
    match s with
    | String "-"%char r => (true, r)
    | String "+"%char r => (false, r)
    | _ => (false, s)
    end in
  if decide (ds = "") then None
  else match parse_digits ds 0 with
       | None => None
       | Some n =>
           let v := if (neg : bool) then (- n)%Z else n in
           if decide (- 2 ^ 63 <= v < 2 ^ 63)%Z then Some v else None
       end.

Example parse_int64_ex :
  parse_int64 "42" = Some 42%Z ∧ parse_int64 "-7" = Some (-7)%Z ∧ parse_int64 "" = None
  ∧ parse_int64 "4x" = None ∧ parse_int64 "9223372036854775808" = None.
Proof. by vm_compute. Qed.

(** ** [split_last] *)

Lemma split_last_None sep s : split_last sep s = None <-> has_byte sep s = false.
Proof.
  induction s as [|c s IH]; simpl; [done|].
  rewrite orb_false_iff, bool_decide_eq_false, <- IH.
  destruct (split_last sep s) as [[a b]|]; [naive_solver|].
  case_decide; naive_solver.
Qed.

Lemma split_last_app sep a b :
  has_byte sep b = false -> split_last sep (a +:+ String sep b) = Some (a, b).
Proof.
  intros Hb. induction a as [|c a IH].
  - simpl. apply split_last_None in Hb. by rewrite Hb, decide_True.
  - rewrite str_app_cons. simpl. by rewrite IH.
Qed.

Lemma split_last_Some sep s a b :
  split_last sep s = Some (a, b) -> s = a +:+ String sep b ∧ has_byte sep b = false.
Proof.
  revert a. induction s as [|c s IH]; intros a; simpl; [done|].
  destruct (split_last sep s) as [[a' b']|] eqn:E.
  - intros [= <- <-]. destruct (IH a') as [-> ?]; [done|]. by rewrite str_app_cons.
  - destruct (decide (c = sep)) as [->|]; [|done]. intros [= <- <-].
    by rewrite split_last_None in E.
Qed.

(** ** [contains] and [replace_all] *)

Lemma contains_spec sub s : contains sub s = true <-> exists a b, s = a +:+ (sub +:+ b).
Proof.
  split.
  - induction s as [|c s IH]; simpl; rewrite orb_true_iff, has_prefix_spec.
    + intros [[t ->]|?]; [by exists "", t|done].
    + intros [[t ->]|Hs]; [by exists "", t|]. destruct (IH Hs) as (a & b & ->). by exists (String c a), b.
  - intros (a & b & ->). induction a as [|c a IH].
    + assert (Hp : has_prefix sub (sub +:+ b) = true) by (apply has_prefix_spec; eauto).
      change ("" +:+ (sub +:+ b)) with (sub +:+ b).
      destruct (sub +:+ b); simpl in *; by rewrite Hp.
    + rewrite str_app_cons. simpl. by rewrite IH, orb_true_r.
Qed.

Lemma contains_app_l sub s t : contains sub s = true -> contains sub (s +:+ t) = true.
Proof. rewrite !contains_spec. intros (a & b & ->). exists a, (b +:+ t). by rewrite !str_app_assoc. Qed.

Lemma contains_app_r sub s t : contains sub t = true -> contains sub (s +:+ t) = true.
Proof. rewrite !contains_spec. intros (a & b & ->). exists (s +:+ a), b. by rewrite !str_app_assoc. Qed.

Example replace_all_ex :
  replace_all "{{D}}" "/v" "{{D}}/a {{D}}/b{{" = "/v/a /v/b{{"
  ∧ filepath_Base "/var/odigos/java" = "java" ∧ filepath_Base "a//" = "a" ∧ filepath_Base "//" = "/"
  ∧ trim_left " :" " ::x " = "x ".
Proof. by vm_compute. Qed.

(** * Splitting strings

    [strings.Split] for a one-byte separator, with its round trips. *)

(** [strings.Split(s, sep)]: there is always a part. *)
Fixpoint split (sep : ascii) (s : string) : list string :=
  match s with
  | EmptyString => [EmptyString]
  | String c s =>
      if decide (c = sep) then EmptyString :: split sep s
      else match split sep s with
           | [] => [String c EmptyString]
           | x :: l => String c x :: l
           end
  end.

Lemma split_nonempty sep s : split sep s <> [].
Proof. destruct s as [|c s]; simpl; [done|]. case_decide; [done|]. by destruct (split sep s). Qed.

(** Joining the parts gives the string back. *)
Lemma join_split sep s : join (String sep "") (split sep s) = s.
Proof.
  induction s as [|c s IH]; simpl; [done|]. pose proof (split_nonempty sep s) as Hn. case_decide as Hc.
  - subst. simpl. destruct (split sep s) eqn:E; [done|]. by rewrite IH.
  - destruct (split sep s) as [|x [|y l]]; [done| |]; simpl in *; by rewrite <- IH.
Qed.

Lemma split_part sep s x : x ∈ split sep s -> has_byte sep x = false.
Proof.
  revert x. induction s as [|c s IH]; simpl; intros x; [by intros ->%list_elem_of_singleton|].
  case_decide as Hc; [intros [->|?]%elem_of_cons; auto|].
  destruct (split sep s) as [|y l]; intros [->|Hx]%elem_of_cons; simpl.
  - by rewrite bool_decide_eq_false_2.
  - by apply not_elem_of_nil in Hx.
  - rewrite bool_decide_eq_false_2 by done. apply IH. left.
  - apply IH. by right.
Qed.

Lemma split_single sep s : has_byte sep s = false -> split sep s = [s].
Proof.
  induction s as [|c s IH]; simpl; [done|]. intros [Hc Hs]%orb_false_iff. apply bool_decide_eq_false in Hc.
  by rewrite decide_False, IH.
Qed.

Lemma split_cons sep x s : has_byte sep x = false -> split sep (x +:+ String sep s) = x :: split sep s.
Proof.
  induction x as [|c x IH]; simpl; intros Hx.
  - by rewrite decide_True.
  - apply orb_false_iff in Hx as [Hc Hx]. apply bool_decide_eq_false in Hc. by rewrite decide_False, IH.
Qed.

(** Splitting what was joined gives the parts back. *)
Lemma split_join sep l :
  l <> [] -> (forall x, x ∈ l -> has_byte sep x = false) -> split sep (join (String sep "") l) = l.
Proof.
  induction l as [|x l IH]; intros Hne Hl; [done|]. destruct l as [|y l].
  - apply split_single, Hl. left.
  - change (join (String sep "") (x :: y :: l)) with (x +:+ String sep (join (String sep "") (y :: l))).
    rewrite split_cons by (apply Hl; left). f_equal. apply IH; [done|]. intros z Hz. apply Hl. by right.
Qed.
