(* ===== verification/GoSort.v ===== *)
(** * Go's [slices.SortFunc] and its comparison functions

    The sorting algorithm is the standard library's; the code relies on its
    documented behaviour only: the result is a permutation, and it is sorted
    when the comparison is a strict weak order.  The class [GoSort] is that
    contract.  [insertion_sort] is the algorithm the standard library runs on
    at most twelve elements; it is the instance used in concrete runs. *)

From S2P Require Import Prelude.

(** A comparison returns a negative number, zero, or a positive number. *)
Definition comparer (A : Type) := A -> A -> Z.

Definition not_less {A} (cmp : comparer A) (a b : A) : Prop := ~ (cmp b a < 0)%Z.

(** Strict weak order: the precondition of [slices.SortFunc]. *)
Class WeakOrder {A} (cmp : comparer A) : Prop := {
  weak_asym a b : (cmp a b < 0)%Z -> not_less cmp a b;
  weak_trans a b c : not_less cmp a b -> not_less cmp b c -> not_less cmp a c
}.

Class GoSort := { SortFunc : forall {A : Type}, comparer A -> list A -> list A }.

Class GoSortLaws `{GoSort} : Prop := {
  SortFunc_perm {A} (cmp : comparer A) l : SortFunc cmp l ≡ₚ l;
  (** only the elements of the list are compared *)
  SortFunc_ext {A} (cmp cmp' : comparer A) l :
    (forall x y, x ∈ l -> y ∈ l -> cmp x y = cmp' x y) -> SortFunc cmp l = SortFunc cmp' l;
  SortFunc_sorted {A} (cmp : comparer A) `{!WeakOrder cmp} l :
    StronglySorted (not_less cmp) (SortFunc cmp l)
}.

(** ** The insertion sort of the standard library

    [for i := 1; i < n; i++ { for j := i; j > 0 && cmp(d[j], d[j-1]) < 0; j-- { swap } }];
    the sorted prefix is kept in reverse. *)
Section Insertion.
Context {A : Type} (cmp : comparer A).

Fixpoint sift (x : A) (rev_prefix : list A) : list A :=
  match rev_prefix with
  | [] => [x]
  | y :: rest => if decide (cmp x y < 0)%Z then y :: sift x rest else x :: y :: rest
  end.

Definition insertion_sort (l : list A) : list A := reverse (foldl (fun acc x => sift x acc) [] l).

Lemma sift_perm x l : sift x l ≡ₚ x :: l.
Proof.
  induction l as [|y l IH]; simpl; [done|]. case_decide; [|done].
  rewrite IH. by constructor.
Qed.

Lemma foldl_sift_perm l acc : foldl (fun acc x => sift x acc) acc l ≡ₚ acc ++ l.
Proof.
  revert acc. induction l as [|x l IH]; intros acc; simpl; [by rewrite app_nil_r|].
  rewrite IH, sift_perm. by rewrite <- Permutation_middle.
Qed.

Lemma insertion_sort_perm l : insertion_sort l ≡ₚ l.
Proof. unfold insertion_sort. rewrite reverse_Permutation. apply (foldl_sift_perm l []). Qed.

Context `{!WeakOrder cmp}.
Local Abbreviation R := (fun a b => not_less cmp b a).

Lemma sift_sorted x l : StronglySorted R l -> StronglySorted R (sift x l).
Proof.
  induction 1 as [|y l Hs IH Hy]; simpl; [by repeat constructor|].
  case_decide as Hc.
  - constructor; [done|]. rewrite Forall_forall in Hy |- *.
    intros z. rewrite sift_perm. intros [->|Hz]%elem_of_cons; [by apply weak_asym|auto].
  - constructor; [by constructor|]. constructor; [done|].
    rewrite Forall_forall in Hy |- *. intros z Hz. eapply weak_trans; [by apply Hy|done].
Qed.

Lemma foldl_sift_sorted l acc :
  StronglySorted R acc -> StronglySorted R (foldl (fun acc x => sift x acc) acc l).
Proof. revert acc. induction l; simpl; auto using sift_sorted. Qed.

Lemma sorted_snoc (S : A -> A -> Prop) l x :
  StronglySorted S l -> Forall (fun y => S y x) l -> StronglySorted S (l ++ [x]).
Proof.
  induction 1 as [|y l Hs IH Hy]; intros Hx; simpl; [by repeat constructor|].
  inversion Hx; subst. constructor; [by apply IH|].
  apply Forall_app. split; [done|]. by constructor.
Qed.

Lemma sorted_reverse l : StronglySorted R l -> StronglySorted (not_less cmp) (reverse l).
Proof.
  induction 1 as [|y l Hs IH Hy]; [constructor|]. rewrite reverse_cons.
  apply sorted_snoc; [done|]. by rewrite reverse_Permutation.
Qed.
End Insertion.

Lemma sift_ext {A} (cmp cmp' : comparer A) x l :
  (forall y, y ∈ l -> cmp x y = cmp' x y) -> sift cmp x l = sift cmp' x l.
Proof.
  induction l as [|y l IH]; intros Hc; simpl; [done|].
  rewrite Hc by left. case_decide; [|done]. f_equal. apply IH. set_solver.
Qed.

Lemma insertion_sort_ext {A} (cmp cmp' : comparer A) l :
  (forall x y, x ∈ l -> y ∈ l -> cmp x y = cmp' x y) -> insertion_sort cmp l = insertion_sort cmp' l.
Proof.
  intros Hc. unfold insertion_sort. f_equal.
  assert (H : forall l' acc, (forall x, x ∈ acc -> x ∈ l) -> (forall x, x ∈ l' -> x ∈ l) ->
    foldl (fun acc x => sift cmp x acc) acc l' = foldl (fun acc x => sift cmp' x acc) acc l').
  { induction l' as [|x l' IH]; intros acc Ha Hl; simpl; [done|].
    rewrite (sift_ext cmp cmp') by (intros y Hy; apply Hc; [apply Hl; left|by apply Ha]).
    apply IH; [|set_solver]. intros y. rewrite sift_perm.
    intros [->|Hy]%elem_of_cons; [apply Hl; left|by apply Ha]. }
  apply H; set_solver.
Qed.

#[export] Instance go_insertion_sort : GoSort | 10 := {| SortFunc := @insertion_sort |}.
#[export] Instance go_insertion_sort_laws : @GoSortLaws go_insertion_sort | 10.
Proof.
  split; intros; simpl; [apply insertion_sort_perm|by apply insertion_sort_ext|].
  apply sorted_reverse. apply foldl_sift_sorted; [done|constructor].
Qed.

(** ** Facts for the clients of the contract *)
Section SortFacts.
Context `{GoSortLaws} {A : Type} (cmp : comparer A) `{!WeakOrder cmp}.

Lemma SortFunc_elem x l : x ∈ SortFunc cmp l <-> x ∈ l.
Proof. by rewrite SortFunc_perm. Qed.

(** When the comparison tells the elements of the list apart, the result
    does not depend on the order of the input. *)
Lemma SortFunc_canonical l l' :
  (forall x y, x ∈ l -> y ∈ l -> not_less cmp x y -> not_less cmp y x -> x = y) ->
  l ≡ₚ l' -> SortFunc cmp l = SortFunc cmp l'.
Proof.
  intros Hinj Hp. apply (StronglySorted_unique_strong (not_less cmp)).
  - intros x y Hx Hy. rewrite !SortFunc_perm in Hx, Hy. rewrite <- Hp in Hy. by apply Hinj.
  - by apply SortFunc_sorted.
  - by apply SortFunc_sorted.
  - by rewrite !SortFunc_perm.
Qed.
End SortFacts.

(** ** [strings.Compare] and lexicographic comparison *)
Definition string_compare (a b : string) : Z :=
  match String.compare a b with Lt => -1 | Eq => 0 | Gt => 1 end.

(** [if c := ...; c != 0 { return c }; return d]. *)
Definition compare_then (c d : Z) : Z := if decide (c = 0%Z) then d else c.

Lemma ascii_compare_trans_lt a b c :
  Ascii.compare a b = Lt -> Ascii.compare b c = Lt -> Ascii.compare a c = Lt.
Proof. unfold Ascii.compare. rewrite !N.compare_lt_iff. lia. Qed.

Lemma string_compare_trans_lt a b c :
  String.compare a b = Lt -> String.compare b c = Lt -> String.compare a c = Lt.
Proof.
  revert b c. induction a as [|x a IH]; intros [|y b] [|z c]; simpl; try done.
  destruct (Ascii.compare x y) eqn:E1; destruct (Ascii.compare y z) eqn:E2; try done; intros H1 H2.
  - apply Ascii.compare_eq_iff in E1, E2. subst.
    rewrite (proj2 (N.compare_eq_iff _ _) eq_refl : Ascii.compare z z = Eq). by eapply IH.
  - apply Ascii.compare_eq_iff in E1. subst. by rewrite E2.
  - apply Ascii.compare_eq_iff in E2. subst. by rewrite E1.
  - by rewrite (ascii_compare_trans_lt x y z).
Qed.

Lemma string_compare_eq a b : string_compare a b = 0%Z <-> a = b.
Proof.
  unfold string_compare. split.
  - destruct (String.compare a b) eqn:E; try done. by apply String.compare_eq_iff in E.
  - intros ->. induction b as [|c b IH]; [done|]. simpl.
    by rewrite (proj2 (N.compare_eq_iff _ _) eq_refl : Ascii.compare c c = Eq).
Qed.

(** A comparison that is a total preorder, in the form the lexicographic
    combination preserves. *)
Class TotalCmp {A} (cmp : comparer A) : Prop := {
  total_opp a b : (cmp a b < 0)%Z <-> (0 < cmp b a)%Z;
  total_trans a b c : (cmp a b <= 0)%Z -> (cmp b c <= 0)%Z -> (cmp a c <= 0)%Z
}.

#[export] Instance total_weak {A} (cmp : comparer A) `{!TotalCmp cmp} : WeakOrder cmp.
Proof.
  split; unfold not_less.
  - intros a b Hab. pose proof (total_opp a b). lia.
  - intros a b c H1 H2. rewrite total_opp in *.
    pose proof (total_trans a b c). lia.
Qed.

#[export] Instance string_compare_total : TotalCmp string_compare.
Proof.
  assert (Hopp : forall a b, (string_compare a b < 0)%Z <-> (0 < string_compare b a)%Z).
  { intros a b. unfold string_compare. rewrite (String.compare_antisym b a).
    by destruct (String.compare a b). }
  split; [done|]. intros a b c H1 H2.
  destruct (decide (a = b)) as [->|Hab]; [done|].
  destruct (decide (b = c)) as [->|Hbc]; [done|].
  revert H1 H2 Hab Hbc. rewrite <- string_compare_eq, <- (string_compare_eq b c).
  unfold string_compare.
  destruct (String.compare a b) eqn:E1; destruct (String.compare b c) eqn:E2; try done; intros.
  by rewrite (string_compare_trans_lt a b c).
Qed.

Definition compare_on {A B} (f : A -> B) (cmp : comparer B) : comparer A := fun a b => cmp (f a) (f b).
Definition compare_lex {A} (c1 c2 : comparer A) : comparer A := fun a b => compare_then (c1 a b) (c2 a b).

#[export] Instance compare_on_total {A B} (f : A -> B) cmp `{!TotalCmp cmp} : TotalCmp (compare_on f cmp).
Proof. split; unfold compare_on; intros; [apply total_opp|by eapply total_trans]. Qed.

#[export] Instance compare_lex_total {A} (c1 c2 : comparer A) `{!TotalCmp c1, !TotalCmp c2} :
  TotalCmp (compare_lex c1 c2).
Proof.
  assert (Hz : forall a b, c1 a b = 0%Z <-> c1 b a = 0%Z).
  { intros a b. pose proof (total_opp (cmp:=c1) a b). pose proof (total_opp (cmp:=c1) b a). lia. }
  split; unfold compare_lex, compare_then.
  - intros a b. pose proof (Hz a b). pose proof (total_opp (cmp:=c1) a b).
    pose proof (total_opp (cmp:=c2) a b). repeat case_decide; lia.
  - intros a b c. pose proof (total_trans (cmp:=c1) a b c). pose proof (total_trans (cmp:=c2) a b c).
    pose proof (total_trans (cmp:=c1) b c a). pose proof (total_trans (cmp:=c1) c a b).
    pose proof (total_opp (cmp:=c1) a b). pose proof (total_opp (cmp:=c1) b c).
    pose proof (total_opp (cmp:=c1) a c).
    pose proof (total_opp (cmp:=c1) b a). pose proof (total_opp (cmp:=c1) c b).
    pose proof (total_opp (cmp:=c1) c a).
    repeat case_decide; lia.
Qed.

(** [slices.Sort] on integers and on strings. *)
Definition int_compare (a b : Z) : Z := if decide (a < b)%Z then -1 else if decide (b < a)%Z then 1 else 0.

#[export] Instance int_compare_total : TotalCmp int_compare.
Proof. split; unfold int_compare; intros; repeat case_decide; lia. Qed.

Lemma int_compare_eq a b : not_less int_compare a b -> not_less int_compare b a -> a = b.
Proof. unfold not_less, int_compare. repeat case_decide; lia. Qed.

Lemma string_compare_antisym a b : not_less string_compare a b -> not_less string_compare b a -> a = b.
Proof.
  unfold not_less. rewrite !total_opp. intros H1 H2. apply string_compare_eq.
  pose proof (total_opp (cmp:=string_compare) a b). pose proof (total_opp (cmp:=string_compare) b a). lia.
Qed.
