(* ===== verification/K8s.v ===== *)
(** * The Kubernetes API as the controllers see it

    API errors, reconcile results, object metadata and status conditions.
    The API server and its client library are not part of the repository:
    their replies are arguments of the definitions that use them, and the
    helpers for status conditions are the class [StatusConditions], whose
    documented behaviour is [StatusConditionsLaws]. *)

From Stdlib Require Import Ascii.
From S2P Require Import Prelude.
From S2P Require Import GoStrings.

(** ** Errors *)

(** Reasons of an API status error, as far as the code tells them apart. *)
Inductive StatusReason :=
| ReasonNotFound | ReasonConflict | ReasonAlreadyExists | ReasonForbidden
| ReasonOther.

Inductive error :=
| EStatus (r : StatusReason) (msg : string)  (** reply of the API server *)
| ENoMatch (msg : string)                    (** [meta.NoKindMatchError] *)
| ENew (msg : string)                        (** [errors.New], [fmt.Errorf] *)
| EOtherAgentRun                             (** [utils.ErrOtherAgentRun] *)
| EKindNotSupported                          (** [workload.ErrKindNotSupported] *)
| ETooManySources                            (** [v1alpha1.ErrorTooManySources] *)
| EWrap (prefix : string) (e : error)        (** [fmt.Errorf("prefix: %w", e)] *)
| ETerminal (e : error)                      (** [reconcile.TerminalError(e)] *)
| EJoin (e1 e2 : error).                     (** [errors.Join(e1, e2)] *)

#[export] Instance StatusReason_eq_dec : EqDecision StatusReason.
Proof. solve_decision. Defined.
#[export] Instance error_eq_dec : EqDecision error.
Proof. solve_decision. Defined.

(** [err.Error()]. *)
Fixpoint Error (e : error) : string :=
  match e with
  | EStatus _ m | ENoMatch m | ENew m => m
  | EOtherAgentRun =>
      "device not added to any container due to the presence of another agent"
  | EKindNotSupported => "workload kind not supported"
  | ETooManySources => "too many Sources found for workload"
  | EWrap p e => p +:+ ": " +:+ Error e
  | ETerminal e => "terminal error: " +:+ Error e
  | EJoin e1 e2 => Error e1 +:+ String "010"%char (Error e2)
  end.

(** [apierrors.ReasonForError]: the first API status in the error's tree. *)
Fixpoint ReasonForError (e : error) : option StatusReason :=
  match e with
  | EStatus r _ => Some r
  | EWrap _ e | ETerminal e => ReasonForError e
  | EJoin e1 e2 =>
      match ReasonForError e1 with Some r => Some r | None => ReasonForError e2 end
  | _ => None
  end.

Definition IsNotFound (e : error) : bool := bool_decide (ReasonForError e = Some ReasonNotFound).
Definition IsConflict (e : error) : bool := bool_decide (ReasonForError e = Some ReasonConflict).
Definition IsAlreadyExists (e : error) : bool := bool_decide (ReasonForError e = Some ReasonAlreadyExists).
Definition IsForbidden (e : error) : bool := bool_decide (ReasonForError e = Some ReasonForbidden).

Fixpoint IsNoMatchError (e : error) : bool :=
  match e with
  | ENoMatch _ => true
  | EWrap _ e | ETerminal e => IsNoMatchError e
  | EJoin e1 e2 => IsNoMatchError e1 || IsNoMatchError e2
  | _ => false
  end.

(** [errors.Is(err, ErrOtherAgentRun)]. *)
Fixpoint is_other_agent_run (e : error) : bool :=
  match e with
  | EOtherAgentRun => true
  | EWrap _ e | ETerminal e => is_other_agent_run e
  | EJoin e1 e2 => is_other_agent_run e1 || is_other_agent_run e2
  | _ => false
  end.

(** [client.IgnoreNotFound]. *)
Definition IgnoreNotFound (e : error) : option error :=
  if IsNotFound e then None else Some e.

(** [errors.Join] of two errors that may be nil. *)
Definition errors_join (e1 e2 : option error) : option error :=
  match e1, e2 with
  | None, None => None
  | Some e, None | None, Some e => Some e
  | Some e1, Some e2 => Some (EJoin e1 e2)
  end.

(** ** Reconcile results *)

(** [ctrl.Result]; [RequeueAfter] is a [time.Duration] in nanoseconds. *)
Record Result := mkResult { Requeue : bool; RequeueAfter : Z }.
Definition no_result : Result := mkResult false 0.
Definition requeue_now : Result := mkResult true 0.
Definition requeue_after (d : Z) : Result := mkResult false d.
Definition result_IsZero (r : Result) : bool :=
  negb (Requeue r) && bool_decide (RequeueAfter r = 0%Z).

#[export] Instance Result_eq_dec : EqDecision Result.
Proof. solve_decision. Defined.

(** [utils.K8SUpdateErrorHandler] (k8sutils/pkg/utils/retryonconflict.go):
    a conflict asks for a requeue, a missing object and [ErrOtherAgentRun]
    are ignored, any other error is returned. *)
Definition K8SUpdateErrorHandler (err : error) : Result * option error :=
  if IsConflict err then (requeue_now, None)
  else if IsNotFound err then (no_result, None)
  else if is_other_agent_run err then (no_result, None)
  else (no_result, Some err).

(** ** Object metadata *)

Record OwnerReference := mkOwnerReference
  { or_kind : string; or_name : string; or_uid : string; or_controller : option bool }.

(** [metav1.TypeMeta.Kind] and [metav1.ObjectMeta], the fields the code
    reads.  [DeletionTimestamp] is a time; the zero time counts as not set. *)
Record ObjectMeta := mkObjectMeta
  { om_type_kind : string;
    om_name : string;
    om_namespace : string;
    om_labels : gmap string string;
    om_annotations : gmap string string;
    om_owners : list OwnerReference;
    om_generation : Z;
    om_deletion : option Z }.

(** [utils.IsTerminating] (k8sutils/pkg/utils/object.go). *)
Definition IsTerminating (m : ObjectMeta) : bool :=
  match om_deletion m with
  | Some t => negb (bool_decide (t = 0%Z))
  | None => false
  end.

(** ** Status conditions *)

Inductive ConditionStatus := ConditionTrue | ConditionFalse | ConditionUnknown.

(** [metav1.Condition] without the transition time, which the code never
    reads. *)
Record Condition := mkCondition
  { cond_type : string;
    cond_status : ConditionStatus;
    cond_reason : string;
    cond_message : string }.

#[export] Instance ConditionStatus_eq_dec : EqDecision ConditionStatus.
Proof. solve_decision. Defined.
#[export] Instance Condition_eq_dec : EqDecision Condition.
Proof. solve_decision. Defined.

(** [meta.SetStatusCondition] and [meta.FindStatusCondition] of
    k8s.io/apimachinery. *)
Class StatusConditions := {
  SetStatusCondition : list Condition -> Condition -> list Condition * bool;
  FindStatusCondition : list Condition -> string -> option Condition
}.

(** Their documented behaviour: find returns the first condition of the
    type; set makes the given condition the one of its type, leaves the
    other types alone, and reports whether anything changed. *)
Class StatusConditionsLaws `{StatusConditions} : Prop := {
  find_first l t :
    FindStatusCondition l t = first_match (fun c => bool_decide (cond_type c = t)) l;
  find_set_same l c :
    FindStatusCondition (SetStatusCondition l c).1 (cond_type c) = Some c;
  find_set_other l c t :
    t <> cond_type c ->
    FindStatusCondition (SetStatusCondition l c).1 t = FindStatusCondition l t;
  set_unchanged l c :
    (SetStatusCondition l c).2 = false <-> FindStatusCondition l (cond_type c) = Some c;
  set_unchanged_eq l c :
    (SetStatusCondition l c).2 = false -> (SetStatusCondition l c).1 = l;
  set_keyed l c :
    NoDup (cond_type <$> l) -> NoDup (cond_type <$> (SetStatusCondition l c).1)
}.

(** An implementation with these laws, for concrete runs. *)
Module ConcreteConditions.
Definition find (l : list Condition) (t : string) : option Condition :=
  first_match (fun c => bool_decide (cond_type c = t)) l.

Fixpoint replace (l : list Condition) (c : Condition) : list Condition :=
  match l with
  | [] => [c]
  | d :: l => if decide (cond_type d = cond_type c) then c :: l else d :: replace l c
  end.

Definition set (l : list Condition) (c : Condition) : list Condition * bool :=
  if decide (find l (cond_type c) = Some c) then (l, false) else (replace l c, true).

Lemma find_replace_same l c : find (replace l c) (cond_type c) = Some c.
Proof.
  unfold find. induction l as [|d l IH]; simpl.
  - by rewrite bool_decide_eq_true_2.
  - destruct (decide _); simpl.
    + by rewrite bool_decide_eq_true_2.
    + by rewrite bool_decide_eq_false_2.
Qed.

Lemma find_replace_other l c t :
  t <> cond_type c -> find (replace l c) t = find l t.
Proof.
  unfold find. intros Ht. induction l as [|d l IH]; simpl.
  - by rewrite bool_decide_eq_false_2.
  - destruct (decide _) as [E|]; simpl.
    + rewrite E. by rewrite bool_decide_eq_false_2.
    + by rewrite IH.
Qed.

Lemma replace_types l c t :
  t ∈ cond_type <$> replace l c -> t = cond_type c ∨ t ∈ cond_type <$> l.
Proof.
  induction l as [|d l IH]; simpl; [set_solver|].
  case_decide as E; rewrite !fmap_cons, !elem_of_cons; [|set_solver]. rewrite E. tauto.
Qed.

Lemma replace_keyed l c : NoDup (cond_type <$> l) -> NoDup (cond_type <$> replace l c).
Proof.
  induction l as [|d l IH]; simpl; [intros; apply NoDup_singleton|].
  rewrite NoDup_cons. intros [Hd Hl]. case_decide as E; rewrite fmap_cons, NoDup_cons.
  - by rewrite <-E.
  - split; [|by apply IH]. intros [?|?]%replace_types; [done|done].
Qed.
End ConcreteConditions.

#[export] Instance concrete_conditions : StatusConditions | 10 := {|
  SetStatusCondition := ConcreteConditions.set;
  FindStatusCondition := ConcreteConditions.find
|}.

#[export] Instance concrete_conditions_laws :
  @StatusConditionsLaws concrete_conditions | 10.
Proof.
  split; simpl; unfold ConcreteConditions.set.
  - done.
  - intros l c. case_decide; [done|]. apply ConcreteConditions.find_replace_same.
  - intros l c t Ht. case_decide; [done|]. by apply ConcreteConditions.find_replace_other.
  - intros l c. by case_decide.
  - intros l c. by case_decide.
  - intros l c Hl. case_decide; [done|]. by apply ConcreteConditions.replace_keyed.
Qed.

(** [set] alone, for the code that ignores the boolean. *)
Definition set_cond `{StatusConditions} (l : list Condition) (c : Condition) :=
  (SetStatusCondition l c).1.

Section ConditionFacts.
Context `{StatusConditionsLaws}.

Lemma find_set l c t :
  FindStatusCondition (set_cond l c) t =
    if decide (t = cond_type c) then Some c else FindStatusCondition l t.
Proof.
  unfold set_cond. case_decide; [subst; apply find_set_same|by apply find_set_other].
Qed.

(** Setting a condition twice changes nothing the second time. *)
Lemma set_idempotent l c : SetStatusCondition (set_cond l c) c = (set_cond l c, false).
Proof.
  assert (Hf : (SetStatusCondition (set_cond l c) c).2 = false).
  { apply set_unchanged. rewrite find_set. by case_decide. }
  pose proof (set_unchanged_eq _ _ Hf). by destruct (SetStatusCondition _ _); simplify_eq/=.
Qed.

(** A list keyed by type is read the same in every order. *)
Lemma find_permuted l l' t :
  l ≡ₚ l' -> NoDup (cond_type <$> l) -> FindStatusCondition l t = FindStatusCondition l' t.
Proof.
  intros Hl Hnd. rewrite !find_first. apply (first_match_keyed cond_type); [done|done|].
  intros x y _ _ Hx Hy. by case_bool_decide; case_bool_decide; subst.
Qed.

Lemma find_type l t c : FindStatusCondition l t = Some c -> cond_type c = t.
Proof.
  rewrite find_first. intros [_ Hc]%first_match_Some. by case_bool_decide.
Qed.
End ConditionFacts.

(** ** Early returns: [x, err := m; if err != nil { return err }]. *)
Definition err_bind {A B} (m : error + A) (f : A -> error + B) : error + B :=
  match m with inl e => inl e | inr a => f a end.

Lemma err_bind_inr {A B} (m : error + A) (f : A -> error + B) b :
  err_bind m f = inr b -> exists a, m = inr a ∧ f a = inr b.
Proof. destruct m as [e|a]; simpl; [done|]. eauto. Qed.
