(* ===== verification/Status.v ===== *)
(** * Condition types and reasons

    The constants of api/odigos/v1alpha1/instrumentationconfig_types.go, the
    priority that aggregates per-container reasons, and the generated table of
    AgentEnabled reasons (status/instrumentationconfig/generated), of which the
    controllers use the message and the condition status. *)

From S2P Require Import Prelude.
From S2P Require Import K8s.

Definition MarkedForInstrumentationStatusConditionType := "MarkedForInstrumentation".
Definition RuntimeDetectionStatusConditionType := "RuntimeDetection".
Definition WorkloadRolloutStatusConditionType := "WorkloadRollout".
Definition AgentEnabledType := "AgentEnabled".

(** ** MarkedForInstrumentationReason *)
Definition MarkedForInstrumentationReasonWorkloadSource := "WorkloadSource".
Definition MarkedForInstrumentationReasonNamespaceSource := "NamespaceSource".
Definition MarkedForInstrumentationReasonWorkloadSourceDisabled := "WorkloadSourceDisabled".
Definition MarkedForInstrumentationReasonNoSource := "NoSource".
Definition MarkedForInstrumentationReasonError := "RetirableError".

(** ** RuntimeDetectionReason *)
Definition RuntimeDetectionReasonDetectedSuccessfully := "DetectedSuccessfully".
Definition RuntimeDetectionReasonWaitingForDetection := "WaitingForDetection".
Definition RuntimeDetectionReasonNoRunningPods := "NoRunningPods".
Definition RuntimeDetectionReasonError := "Error".

(** ** AgentEnabledReason, a Go string type *)
Definition AgentEnabledReason := string.
Definition EnabledSuccessfully : AgentEnabledReason := "EnabledSuccessfully".
Definition EnabledWithOtherAgents : AgentEnabledReason := "EnabledWithOtherAgents".
Definition WaitingForRuntimeInspection : AgentEnabledReason := "WaitingForRuntimeInspection".
Definition WaitingForNodeCollector : AgentEnabledReason := "WaitingForNodeCollector".
Definition IgnoredContainer : AgentEnabledReason := "IgnoredContainer".
Definition NoCollectedSignals : AgentEnabledReason := "NoCollectedSignals".
Definition UnsupportedProgrammingLanguage : AgentEnabledReason := "UnsupportedProgrammingLanguage".
Definition NoAvailableAgent : AgentEnabledReason := "NoAvailableAgent".
Definition InjectionConflict : AgentEnabledReason := "InjectionConflict".
Definition UnsupportedRuntimeVersion : AgentEnabledReason := "UnsupportedRuntimeVersion".
Definition MissingDistroParameter : AgentEnabledReason := "MissingDistroParameter".
Definition OtherAgentDetected : AgentEnabledReason := "OtherAgentDetected".
Definition RuntimeDetailsUnavailable : AgentEnabledReason := "RuntimeDetailsUnavailable".
Definition CrashLoopBackOff : AgentEnabledReason := "CrashLoopBackOff".
Definition ImagePullBackOff : AgentEnabledReason := "ImagePullBackOff".

Record AgentDisabledInfo := mkDisabled
  { di_reason : AgentEnabledReason; di_message : string }.

(** ** WorkloadRolloutReason *)
Definition WorkloadRolloutReasonTriggeredSuccessfully := "RolloutTriggeredSuccessfully".
Definition WorkloadRolloutReasonFailedToPatch := "FailedToPatch".
Definition WorkloadRolloutReasonPreviousRolloutOngoing := "PreviousRolloutOngoing".
Definition WorkloadRolloutReasonRolloutFinished := "RolloutFinished".
Definition WorkloadRolloutReasonDisabled := "Disabled".
Definition WorkloadRolloutReasonNotRequired := "NotRequired".
Definition WorkloadRolloutReasonWaitingForRestart := "WaitingForRestart".
Definition WorkloadRolloutReasonWorkloadNotSupporting := "WorkloadNotSupporting".
Definition WorkloadRolloutReasonWaitingInQueue := "WaitingInQueue".

(** ** Priorities: the larger, the more specific *)
Definition AgentInjectionReasonPriority (reason : AgentEnabledReason) : Z :=
  switch reason
    [(EnabledSuccessfully, 0%Z); (EnabledWithOtherAgents, 5%Z); (RuntimeDetailsUnavailable, 10%Z);
     (WaitingForRuntimeInspection, 20%Z); (WaitingForNodeCollector, 30%Z); (IgnoredContainer, 40%Z);
     (NoCollectedSignals, 45%Z); (InjectionConflict, 48%Z); (UnsupportedProgrammingLanguage, 50%Z);
     (UnsupportedRuntimeVersion, 60%Z); (NoAvailableAgent, 70%Z); (MissingDistroParameter, 80%Z);
     (OtherAgentDetected, 90%Z); (CrashLoopBackOff, 95%Z); (ImagePullBackOff, 95%Z)]
    100%Z.

(** ** The table of reasons *)
Record Reason := mkReason
  { r_name : string; r_message : string; r_status : ConditionStatus }.

Definition AgentEnabledEnabledSuccessfully :=
  mkReason EnabledSuccessfully "agent injection enabled successfully" ConditionTrue.
Definition AgentEnabledEnabledWithOtherAgents :=
  mkReason EnabledWithOtherAgents "agent enabled alongside other instrumentation agent(s)" ConditionTrue.
Definition AgentEnabledWaitingForRuntimeInspection :=
  mkReason WaitingForRuntimeInspection "waiting for runtime inspection to complete" ConditionUnknown.
Definition AgentEnabledWaitingForNodeCollector :=
  mkReason WaitingForNodeCollector "waiting for OpenTelemetry Collector to be created" ConditionUnknown.
Definition AgentEnabledIgnoredContainer :=
  mkReason IgnoredContainer "container is ignored" ConditionFalse.
Definition AgentEnabledNoCollectedSignals :=
  mkReason NoCollectedSignals "all signals are disabled, no agent will be injected" ConditionFalse.
Definition AgentEnabledUnsupportedProgrammingLanguage :=
  mkReason UnsupportedProgrammingLanguage "unknown programming language" ConditionFalse.
Definition AgentEnabledNoAvailableAgent :=
  mkReason NoAvailableAgent "no instrumentation agent is available" ConditionFalse.
Definition AgentEnabledInjectionConflict :=
  mkReason InjectionConflict "agent injection conflicts with the current container environment" ConditionFalse.
Definition AgentEnabledUnsupportedRuntimeVersion :=
  mkReason UnsupportedRuntimeVersion "runtime version is not supported by the instrumentation agent" ConditionFalse.
Definition AgentEnabledMissingDistroParameter :=
  mkReason MissingDistroParameter "required distro parameter is missing" ConditionFalse.
Definition AgentEnabledOtherAgentDetected :=
  mkReason OtherAgentDetected
    "odigos agent not enabled due to other instrumentation agent(s) detected running in the container" ConditionFalse.
Definition AgentEnabledRuntimeDetailsUnavailable :=
  mkReason RuntimeDetailsUnavailable "runtime details are unavailable" ConditionUnknown.
Definition AgentEnabledCrashLoopBackOff :=
  mkReason CrashLoopBackOff "pods entered CrashLoopBackOff; instrumentation disabled" ConditionFalse.
Definition AgentEnabledImagePullBackOff :=
  mkReason ImagePullBackOff "pods entered ImagePullBackOff; instrumentation disabled" ConditionFalse.

Definition AgentEnabledByReason : list (string * Reason) :=
  [(EnabledSuccessfully, AgentEnabledEnabledSuccessfully);
   (EnabledWithOtherAgents, AgentEnabledEnabledWithOtherAgents);
   (WaitingForRuntimeInspection, AgentEnabledWaitingForRuntimeInspection);
   (WaitingForNodeCollector, AgentEnabledWaitingForNodeCollector);
   (IgnoredContainer, AgentEnabledIgnoredContainer);
   (NoCollectedSignals, AgentEnabledNoCollectedSignals);
   (UnsupportedProgrammingLanguage, AgentEnabledUnsupportedProgrammingLanguage);
   (NoAvailableAgent, AgentEnabledNoAvailableAgent);
   (InjectionConflict, AgentEnabledInjectionConflict);
   (UnsupportedRuntimeVersion, AgentEnabledUnsupportedRuntimeVersion);
   (MissingDistroParameter, AgentEnabledMissingDistroParameter);
   (OtherAgentDetected, AgentEnabledOtherAgentDetected);
   (RuntimeDetailsUnavailable, AgentEnabledRuntimeDetailsUnavailable);
   (CrashLoopBackOff, AgentEnabledCrashLoopBackOff);
   (ImagePullBackOff, AgentEnabledImagePullBackOff)].

Definition AgentEnabledReasonByName (reason : string) : option Reason :=
  switch reason (prod_map id Some <$> AgentEnabledByReason) None.

(** ** The condition of the pods' manifests (status/instrumentationconfig) *)
Definition PodsManifestInjectionType := "PodsManifestInjection".
Definition PodsManifestInjectionNotYetReconciled :=
  mkReason "NotYetReconciled" "Checking agent status on pods; should update shortly" ConditionUnknown.

(** The status a condition with this reason gets. *)
Definition reason_status (dflt : ConditionStatus) (reason : string) : ConditionStatus :=
  match AgentEnabledReasonByName reason with Some r => r_status r | None => dflt end.

(** ** Facts *)

(** The table is keyed by the reasons' own names. *)
Lemma reason_by_name_name n r : AgentEnabledReasonByName n = Some r -> r_name r = n.
Proof.
  unfold AgentEnabledReasonByName. simpl. intros H.
  repeat (case_decide; [by simplify_eq|]). done.
Qed.

(** A reason other than the two success reasons never reads as success. *)
Lemma reason_status_true d n :
  d <> ConditionTrue -> reason_status d n = ConditionTrue ->
  n = EnabledSuccessfully ∨ n = EnabledWithOtherAgents.
Proof.
  unfold reason_status, AgentEnabledReasonByName. simpl. intros Hd H.
  repeat (case_decide; [by auto|]). done.
Qed.

Lemma priority_enabled reason :
  (AgentInjectionReasonPriority reason <= 5)%Z ->
  reason = EnabledSuccessfully ∨ reason = EnabledWithOtherAgents.
Proof.
  unfold AgentInjectionReasonPriority. simpl. intros H.
  repeat (case_decide; [by auto || lia|]). lia.
Qed.
