(* ===== verification/Workload.v ===== *)
(** * Workloads: kinds, names, objects (k8sutils/pkg/workload, api/k8sconsts)

    A [WorkloadKind] is a Go string type, so it is a string here; the
    constants and conversions are those of the source. *)

From Stdlib Require Import Ascii.
From S2P Require Import Prelude.
From S2P Require Import GoStrings.
From S2P Require Import K8s.

(** ** Kinds *)
Definition WorkloadKindDeployment := "Deployment".
Definition WorkloadKindDaemonSet := "DaemonSet".
Definition WorkloadKindStatefulSet := "StatefulSet".
Definition WorkloadKindNamespace := "Namespace".
Definition WorkloadKindStaticPod := "StaticPod".
Definition WorkloadKindCronJob := "CronJob".
Definition WorkloadKindJob := "Job".
Definition WorkloadKindDeploymentConfig := "DeploymentConfig".
Definition WorkloadKindArgoRollout := "Rollout".

Definition WorkloadKindLowerCaseDeployment := "deployment".
Definition WorkloadKindLowerCaseDaemonSet := "daemonset".
Definition WorkloadKindLowerCaseStatefulSet := "statefulset".
Definition WorkloadKindLowerCaseNamespace := "namespace".
Definition WorkloadKindLowerCaseStaticPod := "staticpod".
Definition WorkloadKindLowerCaseCronJob := "cronjob".
Definition WorkloadKindLowerCaseJob := "job".
Definition WorkloadKindLowerCaseDeploymentConfig := "deploymentconfig".
Definition WorkloadKindLowerCaseArgoRollout := "rollout".

(** The kinds named by a constant of the source. *)
Definition all_kinds : list string :=
  [WorkloadKindDeployment; WorkloadKindDaemonSet; WorkloadKindStatefulSet;
   WorkloadKindNamespace; WorkloadKindStaticPod; WorkloadKindCronJob;
   WorkloadKindJob; WorkloadKindDeploymentConfig; WorkloadKindArgoRollout].

Record PodWorkload := mkPodWorkload { pw_name : string; pw_namespace : string; pw_kind : string }.

#[export] Instance PodWorkload_eq_dec : EqDecision PodWorkload.
Proof. solve_decision. Defined.
#[export] Instance PodWorkload_countable : Countable PodWorkload.
Proof.
  apply (inj_countable' (fun w => (pw_name w, pw_namespace w, pw_kind w))
           (fun t => mkPodWorkload t.1.1 t.1.2 t.2)). by intros [].
Defined.

Definition IsValidWorkloadKind (kind : string) : bool :=
  switch kind
    [(WorkloadKindDeployment, true); (WorkloadKindDaemonSet, true);
     (WorkloadKindStatefulSet, true); (WorkloadKindNamespace, true);
     (WorkloadKindCronJob, true); (WorkloadKindStaticPod, true);
     (WorkloadKindDeploymentConfig, true); (WorkloadKindArgoRollout, true)]
    false.

Definition WorkloadKindLowerCaseFromKind (pascalCase : string) : string :=
  switch pascalCase
    [(WorkloadKindDeployment, WorkloadKindLowerCaseDeployment);
     (WorkloadKindDaemonSet, WorkloadKindLowerCaseDaemonSet);
     (WorkloadKindStatefulSet, WorkloadKindLowerCaseStatefulSet);
     (WorkloadKindNamespace, WorkloadKindLowerCaseNamespace);
     (WorkloadKindStaticPod, WorkloadKindLowerCaseStaticPod);
     (WorkloadKindCronJob, WorkloadKindLowerCaseCronJob);
     (WorkloadKindJob, WorkloadKindLowerCaseJob);
     (WorkloadKindDeploymentConfig, WorkloadKindLowerCaseDeploymentConfig);
     (WorkloadKindArgoRollout, WorkloadKindLowerCaseArgoRollout)]
    "".

Definition WorkloadKindFromLowerCase (lowerCase : string) : string :=
  switch lowerCase
    [(WorkloadKindLowerCaseDeployment, WorkloadKindDeployment);
     (WorkloadKindLowerCaseDaemonSet, WorkloadKindDaemonSet);
     (WorkloadKindLowerCaseStatefulSet, WorkloadKindStatefulSet);
     (WorkloadKindLowerCaseNamespace, WorkloadKindNamespace);
     (WorkloadKindLowerCaseStaticPod, WorkloadKindStaticPod);
     (WorkloadKindLowerCaseCronJob, WorkloadKindCronJob);
     (WorkloadKindLowerCaseJob, WorkloadKindJob);
     (WorkloadKindLowerCaseDeploymentConfig, WorkloadKindDeploymentConfig);
     (WorkloadKindLowerCaseArgoRollout, WorkloadKindArgoRollout)]
    "".

Definition WorkloadKindFromString (kind : string) : string :=
  switch (to_lower kind)
    [(WorkloadKindLowerCaseDeployment, WorkloadKindDeployment);
     (WorkloadKindLowerCaseDaemonSet, WorkloadKindDaemonSet);
     (WorkloadKindLowerCaseStatefulSet, WorkloadKindStatefulSet);
     (WorkloadKindLowerCaseNamespace, WorkloadKindNamespace);
     (WorkloadKindLowerCaseStaticPod, WorkloadKindStaticPod);
     (WorkloadKindLowerCaseCronJob, WorkloadKindCronJob);
     (WorkloadKindLowerCaseJob, WorkloadKindJob);
     (WorkloadKindLowerCaseDeploymentConfig, WorkloadKindDeploymentConfig);
     (WorkloadKindLowerCaseArgoRollout, WorkloadKindArgoRollout)]
    "".

(** ** Runtime object names (runtimeobjects.go): <lower-case kind>-<name> *)

Definition CalculateWorkloadRuntimeObjectName (workloadName workloadKind : string) : string :=
  to_lower (workloadKind +:+ "-" +:+ workloadName).

Definition ExtractWorkloadInfoFromRuntimeObjectName
    (runtimeObjectName ns : string) : error + PodWorkload :=
  match split2 "-"%char runtimeObjectName with
  | None => inl (ENew "invalid workload runtime object name, missing hyphen")
  | Some (kindPart, namePart) =>
      let workloadKind := WorkloadKindFromLowerCase kindPart in
      if decide (workloadKind = "") then inl EKindNotSupported
      else inr (mkPodWorkload namePart ns workloadKind)
  end.

(** [rollout.WorkloadKey]: the key a workload holds its rollout slot under. *)
Definition WorkloadKey (pw : PodWorkload) : string :=
  pw_namespace pw +:+ "/" +:+ pw_kind pw +:+ "/" +:+ pw_name pw.

(** ** Properties *)

(** The lower-case conversion only yields the source's kinds. *)
Lemma from_lower_in k : WorkloadKindFromLowerCase k = "" ∨ WorkloadKindFromLowerCase k ∈ all_kinds.
Proof.
  unfold WorkloadKindFromLowerCase.
  match goal with |- switch k ?cs ?d = _ ∨ _ => exact (switch_in k cs d) end.
Qed.

Lemma kind_cases (P : string -> Prop) :
  Forall P all_kinds -> forall k, k ∈ all_kinds -> P k.
Proof. by rewrite Forall_forall. Qed.

(** Lowering a known kind is what the two conversion tables say, and the
    tables are inverse to each other. *)
Lemma kind_lower k :
  k ∈ all_kinds ->
  WorkloadKindFromLowerCase (to_lower k) = k
  ∧ WorkloadKindLowerCaseFromKind k = to_lower k
  ∧ has_byte "-"%char (to_lower k) = false
  ∧ k <> "".
Proof. revert k. apply kind_cases. repeat constructor; by vm_compute. Qed.

Lemma kind_from_lower_inv s :
  WorkloadKindFromLowerCase s <> "" -> to_lower (WorkloadKindFromLowerCase s) = s.
Proof.
  unfold WorkloadKindFromLowerCase. simpl. intros H.
  repeat (case_decide; [by subst|]). done.
Qed.

(** Parsing a runtime object name gives back the workload it was made from,
    for every kind of the source and every lower-case name (a Kubernetes
    name is lower-case). *)
Theorem runtime_name_roundtrip (pw : PodWorkload) :
  pw_kind pw ∈ all_kinds -> is_lower (pw_name pw) ->
  ExtractWorkloadInfoFromRuntimeObjectName
    (CalculateWorkloadRuntimeObjectName (pw_name pw) (pw_kind pw)) (pw_namespace pw) = inr pw.
Proof.
  destruct pw as [name ns kind]. simpl. intros Hk Hn.
  destruct (kind_lower kind Hk) as (Hfrom & _ & Hb & Hne).
  unfold CalculateWorkloadRuntimeObjectName, ExtractWorkloadInfoFromRuntimeObjectName.
  rewrite !to_lower_app, Hn. change (to_lower "-" +:+ name) with (String "-"%char name).
  rewrite split2_app by done. rewrite Hfrom. by rewrite decide_False.
Qed.

(** Exactly the names <known lower-case kind>-<anything> parse, and a name
    that parses is the runtime object name of the parsed workload. *)
Theorem runtime_name_parse (s ns : string) (pw : PodWorkload) :
  ExtractWorkloadInfoFromRuntimeObjectName s ns = inr pw <->
  pw_namespace pw = ns ∧ pw_kind pw ∈ all_kinds ∧
  s = to_lower (pw_kind pw) +:+ "-" +:+ pw_name pw.
Proof.
  destruct pw as [name ns' kind]. unfold ExtractWorkloadInfoFromRuntimeObjectName. simpl. split.
  - destruct (split2 _ s) as [[a b]|] eqn:E; [|done].
    case_decide as Hk; [done|]. intros H. simplify_eq.
    apply split2_Some in E as [-> _]. rewrite kind_from_lower_inv by done.
    destruct (from_lower_in a); naive_solver.
  - intros (-> & Hk & ->). destruct (kind_lower kind Hk) as (Hfrom & _ & Hb & Hne).
    change ("-" +:+ name) with (String "-"%char name).
    rewrite split2_app, Hfrom by done. by rewrite decide_False.
Qed.

(** The rollout slot key tells workloads apart: Kubernetes namespaces and
    kinds hold no slash. *)
Theorem WorkloadKey_inj (pw1 pw2 : PodWorkload) :
  has_byte "/"%char (pw_namespace pw1) = false -> has_byte "/"%char (pw_kind pw1) = false ->
  has_byte "/"%char (pw_namespace pw2) = false -> has_byte "/"%char (pw_kind pw2) = false ->
  WorkloadKey pw1 = WorkloadKey pw2 -> pw1 = pw2.
Proof.
  destruct pw1 as [n1 ns1 k1], pw2 as [n2 ns2 k2]. unfold WorkloadKey. simpl.
  intros ? ? ? ? H.
  apply (str_app_inj_sep "/"%char ns1 (k1 +:+ String "/"%char n1) ns2) in H as [-> H]; [|done..].
  apply (str_app_inj_sep "/"%char k1 n1 k2) in H as [-> ->]; done.
Qed.

(** ** Witnesses *)

Lemma runtime_name_roundtrip_witness :
  ExtractWorkloadInfoFromRuntimeObjectName
    (CalculateWorkloadRuntimeObjectName "my-cart" "StatefulSet") "shop"
  = inr (mkPodWorkload "my-cart" "shop" "StatefulSet").
Proof.
  apply (runtime_name_roundtrip (mkPodWorkload "my-cart" "shop" "StatefulSet")).
  - simpl. unfold all_kinds. set_solver.
  - reflexivity.
Defined.

Lemma WorkloadKey_inj_witness :
  WorkloadKey (mkPodWorkload "a/b" "shop" "Deployment") <> WorkloadKey (mkPodWorkload "b" "shop" "DaemonSet").
Proof.
  intros E.
  assert (Heq : mkPodWorkload "a/b" "shop" "Deployment" = mkPodWorkload "b" "shop" "DaemonSet")
    by (apply WorkloadKey_inj; [reflexivity|reflexivity|reflexivity|reflexivity|exact E]).
  discriminate Heq.
Defined.
