(* ===== verification/Api.v ===== *)
(** * The data the instrumentor works on

    The API types of api/odigos/v1alpha1, common/, common/api and
    distros/distro, each as a record with the fields the modelled code reads
    or writes.  A Go slice is a list, a pointer that may be nil an [option], a
    string type a string; a float64 is the standard library's binary64
    ([spec_float]).

    Two kinds of rule payload are mutated through shared pointers by the
    modelled code (the payload collection and the eBPF log capture of an
    instrumentation rule): for them the pointer is an address [ptr] into a
    [Heap], so that aliasing is visible. *)

From Stdlib Require Import SpecFloat.
From S2P Require Import Prelude.
From S2P Require Import K8s.
From S2P Require Import Workload.
From S2P Require Import Status.

Definition float64 := spec_float.
Definition ptr := nat.

(** ** Languages and small string types *)
Definition ProgrammingLanguageWildcard := "*".
Definition JavaProgrammingLanguage := "java".
Definition PythonProgrammingLanguage := "python".
Definition GoProgrammingLanguage := "go".
Definition DotNetProgrammingLanguage := "dotnet".
Definition JavascriptProgrammingLanguage := "javascript".
Definition PhpProgrammingLanguage := "php".
Definition RubyProgrammingLanguage := "ruby".
Definition UnknownProgrammingLanguage := "unknown".

Definition LogsObservabilitySignal := "LOGS".
Definition TracesObservabilitySignal := "TRACES".
Definition MetricsObservabilitySignal := "METRICS".

Definition LoaderEnvInjectionMethod := "loader".
Definition PodManifestEnvInjectionMethod := "pod-manifest".
Definition LoaderFallbackToPodManifestInjectionMethod := "loader-fallback-to-pod-manifest".
Definition EnvInjectionDecisionLoader := LoaderEnvInjectionMethod.
Definition EnvInjectionDecisionPodManifest := PodManifestEnvInjectionMethod.

Definition LibcTypeDistroParameterName := "LIBC_TYPE".
Definition RuntimeVersionMajorMinorDistroParameterName := "RUNTIME_VERSION_MAJOR_MINOR".

Definition SpanMetricsModeSampledSpansOnly := "sampled-spans-only".
Definition SpanMetricsModeAllSpans := "all-spans".

(** ** Scopes (api/k8sconsts/sources_scope.go) *)
Record SourcesScopes := mkScopes
  { sc_sources : list PodWorkload; sc_namespaces : list string; sc_languages : list string }.

(** ** Instrumentation rule payloads (common/api/instrumentationrules) *)
Record HttpPayloadCollection := mkHttpPayload
  { hp_mime_types : option (list string);
    hp_max_length : option Z;
    hp_drop_partial : option bool }.
Record DbQueryPayloadCollection := mkDbPayload
  { dbp_max_length : option Z;
    dbp_drop_partial : option bool;
    dbp_sanitization : option string }.
Record MessagingPayloadCollection := mkMessagingPayload
  { mp_max_length : option Z; mp_drop_partial : option bool }.
Record PayloadCollection := mkPayloadCollection
  { pc_http_request : option HttpPayloadCollection;
    pc_http_response : option HttpPayloadCollection;
    pc_db_query : option DbQueryPayloadCollection;
    pc_messaging : option MessagingPayloadCollection }.
Definition empty_payload : PayloadCollection := mkPayloadCollection None None None None.

Record EbpfLogCapture := mkEbpfLogCapture { elc_enabled : option bool }.

Record CodeAttributes := mkCodeAttributes
  { ca_column : option bool; ca_file_path : option bool; ca_function : option bool;
    ca_line_number : option bool; ca_namespace : option bool; ca_stacktrace : option bool }.

Record GolangCustomProbe := mkGolangProbe
  { gp_package : string; gp_function : string; gp_receiver : string; gp_receiver_method : string }.
Record JavaCustomProbe := mkJavaProbe { jp_class : string; jp_method : string }.
Record CppCustomProbe := mkCppProbe { cp_signature : string }.
Record PhpCustomProbe := mkPhpProbe { pp_class : string; pp_function : string }.
Record CustomInstrumentations := mkCustomInstrumentations
  { ci_golang : list GolangCustomProbe; ci_java : list JavaCustomProbe;
    ci_cpp : list CppCustomProbe; ci_php : list PhpCustomProbe }.

Record InstrumentationLibrary := mkLibrary { il_language : string; il_library_name : string }.
Record TraceVerbosity := mkTraceVerbosity
  { tv_disabled : list InstrumentationLibrary; tv_enabled : list InstrumentationLibrary }.

Record AgentDiagnostics := mkAgentDiagnostics
  { ad_odigos_log_level : option string; ad_otel_components_log_level : option string }.

Record InstrumentationLibraryGlobalId := mkLibraryId
  { gid_name : string; gid_span_kind : string; gid_language : string }.

(** ** InstrumentationRule *)
Record InstrumentationRule := mkRule
  { ir_name : string;
    ir_namespace : string;
    ir_disabled : bool;
    ir_scopes : option SourcesScopes;
    ir_libraries : option (list InstrumentationLibraryGlobalId);
    ir_payload_collection : option ptr;
    ir_otel_distros : option (list string);
    ir_code_attributes : option CodeAttributes;
    ir_headers_collection : option (list string);
    ir_trace_config : option (option bool);  (** [TraceConfig], its [Disabled] *)
    ir_custom_instrumentations : option CustomInstrumentations;
    ir_ebpf_log_capture : option ptr;
    ir_network_metrics : option unit;
    ir_trace_verbosity : option TraceVerbosity;
    ir_agent_diagnostics : option AgentDiagnostics }.

(** The rule payloads that are shared by pointer. *)
Record Heap := mkHeap
  { h_payload : gmap ptr PayloadCollection; h_ebpf : gmap ptr EbpfLogCapture }.

Definition get_payload (h : Heap) (p : ptr) : PayloadCollection := default empty_payload (h_payload h !! p).
Definition get_ebpf (h : Heap) (p : ptr) : EbpfLogCapture :=
  default (mkEbpfLogCapture None) (h_ebpf h !! p).
Definition set_payload (h : Heap) (p : ptr) (v : PayloadCollection) : Heap :=
  mkHeap (<[p := v]> (h_payload h)) (h_ebpf h).
Definition set_ebpf (h : Heap) (p : ptr) (v : EbpfLogCapture) : Heap :=
  mkHeap (h_payload h) (<[p := v]> (h_ebpf h)).

(** ** Actions (api/odigos/v1alpha1/actions, common/api/actions) *)
Record SkipPolicyConfig := mkSkipPolicy
  { sp_non_success : bool; sp_status_codes : list Z }.
Record DefaultTemplatizationConfig := mkDefaultTemplatization
  { dt_disabled : bool; dt_skip_policy : option SkipPolicyConfig }.
Record UrlTemplatizationConfig := mkUrlTemplatization
  { ut_templates : list string; ut_default : option DefaultTemplatizationConfig }.
Record UrlTemplatizationRule := mkUrlRule
  { ur_scopes : option SourcesScopes; ur_templates : list string }.
Record UrlTemplatizationDefaultGroup := mkUrlDefault
  { ud_scopes : option SourcesScopes; ud_config : DefaultTemplatizationConfig }.
Record UrlTemplatizationAction := mkUrlAction
  { ua_rules : list UrlTemplatizationRule; ua_default : list UrlTemplatizationDefaultGroup }.

Record DbQueryTemplatizationConfig := mkDbQueryTemplatization
  { dq_templatize_literals : bool; dq_remove_cast : bool }.
Record DbQueryTemplatizationAction := mkDbQueryAction
  { da_scopes : option SourcesScopes; da_config : DbQueryTemplatizationConfig }.

Record CustomFormatMasking := mkFormatMasking { fm_lookup_key : string; fm_data_format : string }.
Record PiiMaskingConfig := mkPiiMasking
  { pii_categories : list string;
    pii_format_maskings : list CustomFormatMasking;
    pii_regex_maskings : list string }.
Record PiiMaskingAction := mkPiiAction
  { pa_scopes : option SourcesScopes; pa_config : PiiMaskingConfig }.

Record SpanRenamerRegexReplacement := mkReplacement
  { rr_template_text : string; rr_regex_pattern : string }.
Record SpanRenamerScopeRules := mkScopeRules
  { ssr_scope_name : string; ssr_replacements : list SpanRenamerRegexReplacement }.
Record SpanRenamerAction := mkSpanRenamerAction
  { sra_language : string; sra_scope_name : string; sra_replacements : list SpanRenamerRegexReplacement }.

Record Action := mkAction
  { ac_disabled : bool;
    ac_url_templatization : option UrlTemplatizationAction;
    ac_span_renamer : option SpanRenamerAction;
    ac_db_query : option DbQueryTemplatizationAction;
    ac_infer_db : option (option SourcesScopes);  (** [InferDbAttributes], its scopes *)
    ac_pii : option PiiMaskingAction }.

(** ** Sampling rules (api/odigos/v1alpha1/sampling_types.go, common/api/sampling) *)
Record QueryParamMatcher := mkQueryParam { qp_name : string; qp_value_exact : option string }.
Record HeadSamplingHttpServerMatcher := mkHeadHttpServer
  { hs_route : string; hs_route_prefix : string; hs_method : string;
    hs_query_params : list QueryParamMatcher }.
Record HeadSamplingHttpClientMatcher := mkHeadHttpClient
  { hc_server_address : string; hc_templated_path : string;
    hc_templated_path_prefix : string; hc_method : string }.
Record HeadSamplingGrpcServerMatcher := mkHeadGrpcServer { gs_method : string; gs_service : string }.
Record HeadSamplingGrpcClientMatcher := mkHeadGrpcClient
  { gc_method : string; gc_service : string; gc_server_address : string }.
Record HeadSamplingOperationMatcher := mkHeadMatcher
  { hm_http_server : option HeadSamplingHttpServerMatcher;
    hm_http_client : option HeadSamplingHttpClientMatcher;
    hm_grpc_server : option HeadSamplingGrpcServerMatcher;
    hm_grpc_client : option HeadSamplingGrpcClientMatcher }.
Record TailSamplingHttpServerMatcher := mkTailHttpServer
  { ts_route : string; ts_route_prefix : string; ts_method : string }.
Record TailSamplingOperationMatcher := mkTailMatcher
  { tm_http_server : option TailSamplingHttpServerMatcher;
    tm_kafka_consumer : option string; tm_kafka_producer : option string }.

(** The rules as users write them. *)
Record NoisyOperationRule := mkNoisyRule
  { nr_name : string; nr_disabled : bool; nr_scopes : option SourcesScopes;
    nr_operation : option HeadSamplingOperationMatcher; nr_percentage : option float64 }.
Record HighlyRelevantRule := mkRelevantRule
  { hr_name : string; hr_disabled : bool; hr_scopes : option SourcesScopes; hr_error : bool;
    hr_duration : option Z; hr_operation : option TailSamplingOperationMatcher;
    hr_percentage : option float64 }.
Record CostReductionSourceRule := mkCostRule
  { cr_name : string; cr_disabled : bool; cr_scopes : option SourcesScopes;
    cr_operation : option TailSamplingOperationMatcher; cr_percentage : float64 }.
Record Sampling := mkSampling
  { sa_noisy : list NoisyOperationRule;
    sa_relevant : list HighlyRelevantRule;
    sa_cost : list CostReductionSourceRule }.

(** The rules as the instrumentation config carries them. *)
Record NoisyOperation := mkNoisy
  { no_id : string; no_name : string; no_disabled : bool;
    no_operation : option HeadSamplingOperationMatcher; no_percentage : option float64 }.
Record HighlyRelevantOperation := mkRelevant
  { ho_id : string; ho_name : string; ho_disabled : bool; ho_error : bool;
    ho_duration : option Z; ho_operation : option TailSamplingOperationMatcher;
    ho_percentage : option float64 }.
Record CostReductionRule := mkCost
  { co_id : string; co_name : string; co_disabled : bool;
    co_operation : option TailSamplingOperationMatcher; co_percentage : float64 }.
Record HeadSamplingConfig := mkHeadSampling
  { hsc_dry_run : bool; hsc_span_metrics_mode : string; hsc_noisy : list NoisyOperation }.
Record TailSamplingSourceConfig := mkTailSampling
  { tsc_noisy : list NoisyOperation;
    tsc_relevant : list HighlyRelevantOperation;
    tsc_cost : list CostReductionRule }.

(** ** Collector configuration of a container *)
Record ContainerCollectorConfig := mkCollectorConfig
  { cc_container_name : string;
    cc_tail_sampling : option TailSamplingSourceConfig;
    cc_url_templatization : option UrlTemplatizationConfig;
    cc_db_query : option DbQueryTemplatizationConfig;
    cc_infer_db : option unit;
    cc_pii : option PiiMaskingConfig }.
Definition empty_collector_config : ContainerCollectorConfig :=
  mkCollectorConfig "" None None None None None.

(** ** Agent configuration of a container (common/api/agentsignalconfig) *)
Record AgentSpanMetricsConfig := mkAgentSpanMetrics
  { asm_dimensions : list string; asm_interval_ms : Z; asm_buckets_ms : list Z }.
Record RuntimeMetricsConfiguration := mkRuntimeMetrics
  { rm_java : option (option bool * list (string * option bool)) }.

Record AgentTracesConfig := mkTraces
  { at_id_generator : option Z;  (** the timed-wall source id; [None] is the random generator *)
    at_url_templatization : option UrlTemplatizationConfig;
    at_headers_collection : option (list string);
    at_head_sampling : option HeadSamplingConfig;
    at_span_renamer : option (list SpanRenamerScopeRules);
    at_payload_collection : option ptr;
    at_code_attributes : option CodeAttributes;
    at_trace_verbosity : option TraceVerbosity;
    at_custom_instrumentations : option CustomInstrumentations }.
Record AgentMetricsConfig := mkMetrics
  { am_span_metrics : option AgentSpanMetricsConfig;
    am_runtime_metrics : option RuntimeMetricsConfiguration;
    am_network_metrics : option unit }.
Record AgentLogsConfig := mkLogs { al_ebpf_log_capture : option ptr }.

(** ** InstrumentationConfig (api/odigos/v1alpha1/instrumentationconfig_types.go) *)
Record EnvVar := mkEnvVar { ev_name : string; ev_value : string }.

Record RuntimeDetailsByContainer := mkRuntimeDetails
  { rd_container_name : string;
    rd_language : string;
    rd_runtime_version : string;
    rd_env_vars : list EnvVar;
    rd_other_agents : list string;  (** [OtherAgents], by name *)
    rd_libc_type : option string;
    rd_secure_execution_mode : option bool;
    rd_cri_error : option string;
    rd_env_from_runtime : list EnvVar }.

Record ContainerAgentConfig := mkContainerAgentConfig
  { cac_name : string;
    cac_enabled : bool;
    cac_reason : AgentEnabledReason;
    cac_message : string;
    cac_manifest_optional : bool;
    cac_distro : string;
    cac_params : gmap string string;
    cac_env_method : option string;
    cac_traces : option AgentTracesConfig;
    cac_metrics : option AgentMetricsConfig;
    cac_logs : option AgentLogsConfig;
    cac_diagnostics : option AgentDiagnostics }.

(** The literal [ContainerAgentConfig{ContainerName, AgentEnabled: false,
    AgentEnabledReason, AgentEnabledMessage}]. *)
Definition disabled_container (name : string) (i : AgentDisabledInfo) : ContainerAgentConfig :=
  mkContainerAgentConfig name false (di_reason i) (di_message i) false "" ∅ None None None None None.

Record ContainerOverride := mkOverride
  { co_container_name : string;
    co_runtime_info : option RuntimeDetailsByContainer;
    co_otel_distro_name : option string;
    co_allow_concurrent_agents : option bool }.

Record InstrumentationConfigSpec := mkSpec
  { spec_service_name : string;
    spec_injection_enabled : bool;
    spec_manifest_optional : bool;
    spec_containers : list ContainerAgentConfig;
    spec_collector_config : list ContainerCollectorConfig;
    spec_overrides : list ContainerOverride;
    spec_overrides_hash : string;
    spec_agents_meta_hash : string;
    spec_hash_changed_time : option Z }.

Record InstrumentationConfigStatus := mkStatus
  { st_runtime_details : list RuntimeDetailsByContainer;
    st_conditions : list Condition;
    st_rollout_hash : string;
    st_rollback_occurred : bool;
    st_instrumentation_time : option Z }.

Record InstrumentationConfig := mkIC
  { ic_meta : ObjectMeta;
    ic_spec : InstrumentationConfigSpec;
    ic_status : InstrumentationConfigStatus }.

(** The request for a recovery (api/k8sconsts/resources.go). *)
Definition RollbackRecoveryAtAnnotation := "odigos.io/rollback-recovery".

(** *** Field updates *)
Definition with_spec (ic : InstrumentationConfig) (s : InstrumentationConfigSpec) :=
  mkIC (ic_meta ic) s (ic_status ic).
Definition with_status (ic : InstrumentationConfig) (s : InstrumentationConfigStatus) :=
  mkIC (ic_meta ic) (ic_spec ic) s.

Definition with_conditions (ic : InstrumentationConfig) (l : list Condition) :=
  with_status ic (mkStatus (st_runtime_details (ic_status ic)) l (st_rollout_hash (ic_status ic))
                    (st_rollback_occurred (ic_status ic)) (st_instrumentation_time (ic_status ic))).
Definition with_rollout_hash (ic : InstrumentationConfig) (h : string) :=
  with_status ic (mkStatus (st_runtime_details (ic_status ic)) (st_conditions (ic_status ic)) h
                    (st_rollback_occurred (ic_status ic)) (st_instrumentation_time (ic_status ic))).
Definition with_rollback (ic : InstrumentationConfig) (b : bool) :=
  with_status ic (mkStatus (st_runtime_details (ic_status ic)) (st_conditions (ic_status ic))
                    (st_rollout_hash (ic_status ic)) b (st_instrumentation_time (ic_status ic))).
Definition with_instrumentation_time (ic : InstrumentationConfig) (t : option Z) :=
  with_status ic (mkStatus (st_runtime_details (ic_status ic)) (st_conditions (ic_status ic))
                    (st_rollout_hash (ic_status ic)) (st_rollback_occurred (ic_status ic)) t).

Definition with_injection (s : InstrumentationConfigSpec) (enabled : bool) :=
  mkSpec (spec_service_name s) enabled (spec_manifest_optional s) (spec_containers s)
    (spec_collector_config s) (spec_overrides s) (spec_overrides_hash s)
    (spec_agents_meta_hash s) (spec_hash_changed_time s).
Definition with_manifest_optional (s : InstrumentationConfigSpec) (b : bool) :=
  mkSpec (spec_service_name s) (spec_injection_enabled s) b (spec_containers s)
    (spec_collector_config s) (spec_overrides s) (spec_overrides_hash s)
    (spec_agents_meta_hash s) (spec_hash_changed_time s).
Definition with_containers (s : InstrumentationConfigSpec) (l : list ContainerAgentConfig) :=
  mkSpec (spec_service_name s) (spec_injection_enabled s) (spec_manifest_optional s) l
    (spec_collector_config s) (spec_overrides s) (spec_overrides_hash s)
    (spec_agents_meta_hash s) (spec_hash_changed_time s).
Definition with_collector_config (s : InstrumentationConfigSpec) (l : list ContainerCollectorConfig) :=
  mkSpec (spec_service_name s) (spec_injection_enabled s) (spec_manifest_optional s) (spec_containers s)
    l (spec_overrides s) (spec_overrides_hash s) (spec_agents_meta_hash s) (spec_hash_changed_time s).
Definition with_meta_hash (s : InstrumentationConfigSpec) (h : string) (t : option Z) :=
  mkSpec (spec_service_name s) (spec_injection_enabled s) (spec_manifest_optional s) (spec_containers s)
    (spec_collector_config s) (spec_overrides s) (spec_overrides_hash s) h t.
Definition with_service_name (s : InstrumentationConfigSpec) (n : string) :=
  mkSpec n (spec_injection_enabled s) (spec_manifest_optional s) (spec_containers s)
    (spec_collector_config s) (spec_overrides s) (spec_overrides_hash s)
    (spec_agents_meta_hash s) (spec_hash_changed_time s).
Definition with_overrides (s : InstrumentationConfigSpec) (l : list ContainerOverride) (h : string) :=
  mkSpec (spec_service_name s) (spec_injection_enabled s) (spec_manifest_optional s) (spec_containers s)
    (spec_collector_config s) l h (spec_agents_meta_hash s) (spec_hash_changed_time s).

(** *** Lookups *)
Definition GetContainerAgentConfig (s : InstrumentationConfigSpec) (containerName : string)
    : option ContainerAgentConfig :=
  first_match (fun c => bool_decide (cac_name c = containerName)) (spec_containers s).

Definition GetRuntimeDetailsForContainer (s : InstrumentationConfigStatus) (containerName : string)
    : option RuntimeDetailsByContainer :=
  first_match (fun d => bool_decide (rd_container_name d = containerName)) (st_runtime_details s).

(** A map: of two overrides with the same container name, the later one
    counts. *)
Definition ic_RuntimeDetailsByContainer (ic : InstrumentationConfig)
    : gmap string (option RuntimeDetailsByContainer) :=
  foldl (fun m o =>
    let containerName := co_container_name o in
    let details :=
      match co_runtime_info o with
      | Some d => Some d
      | None => first_match (fun d => bool_decide (rd_container_name d = containerName))
                            (st_runtime_details (ic_status ic))
      end in
    <[containerName := details]> m) ∅ (spec_overrides (ic_spec ic)).

Definition GetOverridesForContainer (ic : InstrumentationConfig) (containerName : string)
    : option ContainerOverride :=
  first_match (fun o => bool_decide (co_container_name o = containerName)) (spec_overrides (ic_spec ic)).

(** ** Source (api/odigos/v1alpha1/source_types.go) *)
Record Source := mkSource
  { src_meta : ObjectMeta;
    src_workload : PodWorkload;
    src_disable_instrumentation : bool;
    src_otel_service_name : string;
    src_container_overrides : list ContainerOverride;
    src_match_name_as_regex : bool }.

Record WorkloadSources := mkSources { ws_workload : option Source; ws_namespace : option Source }.

Definition IsDisabledSource (source : Source) : bool := src_disable_instrumentation source.

(** ** OdigosConfiguration (common/odigos_config.go), the fields the instrumentor reads *)
Record SpanMetricsConfiguration := mkSpanMetricsConf
  { smc_disabled : option bool;
    smc_interval : string;
    smc_additional_dimensions : option (list string);
    smc_buckets : list string;
    smc_mode : option string }.
Record AgentMetricsConfiguration := mkAgentMetricsConf
  { amc_span_metrics : option bool;  (** [SpanMetrics], its [Enabled] *)
    amc_runtime_metrics : option RuntimeMetricsConfiguration }.
Record MetricsSourceConfiguration := mkMetricsSource
  { ms_span_metrics : option SpanMetricsConfiguration;
    ms_agent_metrics : option AgentMetricsConfiguration }.
Record HealthProbesSamplingConfiguration := mkHealthProbes
  { hps_enabled : option bool; hps_keep_percentage : option float64 }.
Record SamplingConfiguration := mkSamplingConf
  { smp_dry_run : option bool; smp_health_probes : option HealthProbesSamplingConfiguration }.
Record RolloutConfiguration := mkRolloutConf
  { rc_automatic_disabled : option bool; rc_max_concurrent : Z }.

(** Settings per language of the variables users ask for. *)
Record LanguageConfig := mkLanguageConfig { lc_enabled : bool; lc_env_vars : gmap string string }.
Record AgentsInitContainerResources := mkInitResources
  { air_request_cpu : Z; air_limit_cpu : Z; air_request_memory : Z; air_limit_memory : Z }.
(** The fields of the configuration that only the pods webhook reads. *)
Record PodsConfiguration := mkPodsConf
  { pc_mount_method : option string;
    pc_karpenter_enabled : option bool;
    pc_check_device_health : option bool;
    pc_image_prefix : string;
    pc_image_pull_secrets : list string;
    pc_user_envs : option (gmap string LanguageConfig);
    pc_init_resources : option AgentsInitContainerResources }.
Definition no_webhook_conf : PodsConfiguration := mkPodsConf None None None "" [] None None.

Record OdigosConfiguration := mkConf
  { conf_ignored_containers : list string;
    conf_allow_concurrent_agents : option bool;
    conf_env_injection : option string;
    conf_rollout : option RolloutConfiguration;
    conf_rollback_disabled : option bool;
    conf_rollback_grace_time : string;
    conf_rollback_stability_window : string;
    conf_metrics_sources : option MetricsSourceConfiguration;
    conf_trace_id_suffix : string;
    conf_sampling : option SamplingConfiguration;
    conf_pods : PodsConfiguration }.

(** ** CollectorsGroup *)
Record CollectorsGroup := mkCollectorsGroup
  { cg_metrics : option (option SpanMetricsConfiguration);  (** [Spec.Metrics], its [SpanMetrics] *)
    cg_ready : bool;
    cg_receiver_signals : list string }.

(** ** OtelDistro (distros/distro/oteldistribution.go); [*T] with only a
    [Supported] field is an [option bool] *)
Record RuntimeEnvironment := mkRuntimeEnv { re_name : string; re_supported_versions : string }.
Record RuntimeAgent := mkRuntimeAgent
  { ra_directory_names : list string;
    ra_options : list (string * string);
    ra_k8s_attrs_via_env_vars : bool;
    ra_device : option string;
    ra_ld_preload_supported : bool;
    ra_no_restart_required : bool;
    ra_opamp_transports : list string }.

(** [StaticEnvironmentVariable]: the template is there when the value has
    parameters. *)
Record StaticEnvironmentVariable := mkStaticEnv
  { sev_name : string; sev_value : string; sev_template : option string }.
Record EnvironmentVariables := mkDistroEnv
  { dev_opamp_client : bool;
    dev_otlp_http_local_node : bool;
    dev_signals_as_static_env : bool;
    dev_static : list StaticEnvironmentVariable;
    dev_append : list (string * string) }.  (** name, replace pattern *)
Definition no_distro_env : EnvironmentVariables := mkDistroEnv false false false [] [].

Record DistroHeadSampling := mkDistroHeadSampling
  { dhs_supported : bool; dhs_query_params_supported : bool }.
Record DistroTraces := mkDistroTraces
  { dtr_head_sampling : option DistroHeadSampling;
    dtr_headers_collection : option bool;
    dtr_url_templatization : option bool;
    dtr_span_renamer : option bool;
    dtr_payload_collection : option bool;
    dtr_code_attributes : option bool;
    dtr_custom_instrumentations : option bool;
    dtr_trace_verbosity : option (bool * bool) }.
Record DistroAgentMetrics := mkDistroAgentMetrics
  { dam_span_metrics : option bool; dam_runtime_metrics : option bool }.
Record DistroOwnDiagnostics := mkDistroDiagnostics
  { dod_own_logger : bool; dod_otel_logger : bool }.

Record OtelDistro := mkDistro
  { d_name : string;
    d_language : string;
    d_require_parameters : list string;
    d_runtime_environments : list RuntimeEnvironment;
    d_fallback : option string;
    d_env : EnvironmentVariables;
    d_runtime_agent : option RuntimeAgent;
    d_config_as_env_vars : bool;
    d_agent_metrics : option DistroAgentMetrics;
    d_traces : option DistroTraces;
    d_own_diagnostics : option DistroOwnDiagnostics }.
Definition d_append_env_vars (d : OtelDistro) : list (string * string) := dev_append (d_env d).

(** ** Facts *)

Lemma runtime_details_keys_foldl f (l : list ContainerOverride) (m : gmap string (option RuntimeDetailsByContainer)) n :
  is_Some (foldl (fun m o => <[co_container_name o := f o]> m) m l !! n) <->
  is_Some (m !! n) ∨ n ∈ co_container_name <$> l.
Proof.
  revert m. induction l as [|o l IH]; intros m; simpl; [set_solver|].
  rewrite IH, lookup_insert_is_Some, elem_of_cons.
  destruct (decide (co_container_name o = n)); naive_solver.
Qed.

(** The map's keys are the containers the overrides list. *)
Lemma runtime_details_keys ic n :
  is_Some (ic_RuntimeDetailsByContainer ic !! n) <->
  n ∈ co_container_name <$> spec_overrides (ic_spec ic).
Proof.
  unfold ic_RuntimeDetailsByContainer. rewrite runtime_details_keys_foldl, lookup_empty.
  split; [intros [[? ?]|?]; [done|done]|by right].
Qed.
