(* ===== verification/GoLib.v ===== *)
(** * The Go runtime and library functions the model takes as given

    Functions of the standard library that the model does not define are
    operations of the class [GoLibrary]; the order in which a Go program
    visits a map is the class [GoMapOrder].  The rest of this file defines
    the parts of strconv, time and the float64 type the code uses. *)

From Stdlib Require Import Ascii SpecFloat.
From S2P Require Import Prelude.
From S2P Require Import GoStrings.
From S2P Require Import Api.

(** The fields of a sampling rule that make its id. *)
Inductive RuleFields :=
| NoisyFields (scopes : option SourcesScopes) (operation : option HeadSamplingOperationMatcher)
| RelevantFields (scopes : option SourcesScopes) (error : bool) (duration : option Z)
    (operation : option TailSamplingOperationMatcher)
| CostFields (scopes : option SourcesScopes) (operation : option TailSamplingOperationMatcher).

Record ParsedUrl := mkUrl
  { url_path : string; url_raw_query : string; url_query : list (string * list string) }.

Class GoLibrary := {
  (** [regexp.MatchString(pattern, s)]: [None] for an invalid pattern. *)
  regexp_match : string -> string -> option bool;
  (** The text of the error that compiling an invalid pattern gives. *)
  regexp_error : string -> string;
  (** [time.ParseDuration(s)]: nanoseconds, or the error's text. *)
  ParseDuration : string -> string + Z;
  (** [strconv.Quote(s)], the verb %q. *)
  strconv_Quote : string -> string;
  (** [url.Parse(s)], with the entries of [Query()] in iteration order. *)
  url_Parse : string -> option ParsedUrl;
  (** sha256 of the JSON encoding, in hex: 8 bytes of a sampling rule's
      fields, 16 bytes of the container overrides. *)
  rule_digest : RuleFields -> string;
  overrides_digest : list ContainerOverride -> string;
  (** sha256 of the gob encoding of the (name, enabled, distro) entries, in
      order, 8 bytes in hex. *)
  agents_digest : list (string * bool * string) -> string
}.

(** Iterating over a map visits its entries in an unspecified order; the
    argument lists the entries. *)
Class GoMapOrder := { map_order : forall {A : Type}, list A -> list A }.
Class GoMapOrderLaws `{GoMapOrder} : Prop := {
  map_order_perm {A} (l : list A) : map_order l ≡ₚ l
}.

(** Two orders for concrete runs. *)
Definition order_forward : GoMapOrder := {| map_order := fun _ l => l |}.
Definition order_backward : GoMapOrder := {| map_order := fun _ l => reverse l |}.
Lemma order_forward_laws : @GoMapOrderLaws order_forward.
Proof. by split. Qed.
Lemma order_backward_laws : @GoMapOrderLaws order_backward.
Proof. split. intros A l. apply reverse_Permutation. Qed.

(** A library for concrete runs: exact-match regular expressions, no query
    strings, durations such as "5m" and "1h", digests that print nothing. *)
Definition sample_library : GoLibrary := {|
  regexp_match p s := Some (bool_decide (p = s));
  regexp_error p := "error parsing regexp";
  ParseDuration s :=
    switch s [("5m", inr (5 * Minute)%Z); ("1h", inr Hour); ("15s", inr (15 * Second)%Z)]
      (inl "time: invalid duration");
  strconv_Quote s := s;
  url_Parse s := Some (mkUrl s "" []);
  rule_digest _ := "0011223344556677";
  overrides_digest l := join "," (co_container_name <$> l);
  agents_digest l := join "," ((fun x => x.1.1 +:+ "=" +:+ x.2) <$> l)
|}.

(** ** [strconv.ParseUint(s, 16, 8)] *)
Definition hex_digit (c : ascii) : option Z :=
  let n := Ascii.nat_of_ascii c in
  if decide (48 ≤ n ∧ n ≤ 57) then Some (Z.of_nat (n - 48))
  else if decide (97 ≤ n ∧ n ≤ 102) then Some (Z.of_nat (n - 87))
  else if decide (65 ≤ n ∧ n ≤ 70) then Some (Z.of_nat (n - 55))
  else None.

Inductive NumError := ErrSyntax | ErrRange.

(** The value is bounded digit by digit: the range error comes before a
    syntax error further right. *)
Fixpoint parse_hex8_loop (s : string) (n : Z) : NumError + Z :=
  match s with
  | EmptyString => inr n
  | String c s =>
      match hex_digit c with
      | None => inl ErrSyntax
      | Some d => if decide (n * 16 + d > 255)%Z then inl ErrRange else parse_hex8_loop s (n * 16 + d)
      end
  end.

Definition parse_hex8 (s : string) : NumError + Z :=
  if decide (s = "") then inl ErrSyntax else parse_hex8_loop s 0.

Lemma parse_hex8_range s n : parse_hex8 s = inr n -> (0 <= n < 256)%Z.
Proof.
  assert (H : forall s m, (0 <= m < 256)%Z -> parse_hex8_loop s m = inr n -> (0 <= n < 256)%Z).
  { clear s. induction s as [|c s IH]; intros m Hm; simpl; [naive_solver|].
    destruct (hex_digit c) as [d|] eqn:Hd; [|done]. case_decide; [done|]. apply IH.
    unfold hex_digit in Hd. split; [|lia].
    repeat case_decide; simplify_eq; lia. }
  unfold parse_hex8. case_decide; [done|]. by apply H.
Qed.

(** ** float64 *)
Definition float_sub : float64 -> float64 -> float64 := SFsub 53 1024.
Definition float_eqb : float64 -> float64 -> bool := SFeqb.
Definition float_zero : float64 := S754_zero false.
(** The float64 nearest to [m * 2^e]. *)
Definition float_of (m e : Z) : float64 := binary_normalize 53 1024 m e false.

(** [int(x)]: truncation; what is not a number in range converts to the
    smallest integer (amd64). *)
Definition float_to_int (x : float64) : Z :=
  match x with
  | S754_zero _ => 0
  | S754_finite s m e =>
      let v := if decide (0 <= e)%Z then (Z.pos m * 2 ^ e)%Z else (Z.pos m / 2 ^ (- e))%Z in
      if decide (v < 2 ^ 63)%Z then (if s then - v else v)%Z else (- 2 ^ 63)%Z
  | _ => (- 2 ^ 63)%Z
  end.

Example float_ex : float_to_int (float_sub (float_of 21 (-1)) (float_of 10 0)) = 0%Z
  ∧ float_to_int (float_sub (float_of 10 0) (float_of 23 (-1))) = (-1)%Z.
Proof. by vm_compute. Qed.
