(* ===== verification/Scope.v ===== *)
(** * Scopes of rules and the signals of a container

    k8sutils/pkg/scope/scope.go and
    instrumentor/controllers/agentenabled/signals/signals.go. *)

From S2P Require Import Prelude.
From S2P Require Import Status.
From S2P Require Import Workload.
From S2P Require Import Api.

Definition sourceMatchScopeSources (source : PodWorkload) (scopes : SourcesScopes) : bool :=
  if decide (sc_sources scopes = []) then true
  else existsb (fun scope => bool_decide (scope = source)) (sc_sources scopes).

Definition sourceMatchScopeNamespaces (namespace : string) (scopes : SourcesScopes) : bool :=
  if decide (sc_namespaces scopes = []) then true
  else existsb (fun scope => bool_decide (scope = namespace)) (sc_namespaces scopes).

Definition sourceMatchScopeLanguages (language : string) (scopes : SourcesScopes) : bool :=
  if decide (sc_languages scopes = []) then true
  else existsb (fun scope => bool_decide (scope = language)) (sc_languages scopes).

Definition SourceScopeMatchesContainer
    (scopes : option SourcesScopes) (pw : PodWorkload) (language : string) : bool :=
  match scopes with
  | None => true
  | Some scopes =>
      if negb (sourceMatchScopeSources pw scopes) then false
      else if negb (sourceMatchScopeNamespaces (pw_namespace pw) scopes) then false
      else if negb (sourceMatchScopeLanguages language scopes) then false
      else true
  end.

(** ** Enabled signals *)
Record EnabledSignals := mkSignals
  { TracesEnabled : bool; MetricsEnabled : bool; LogsEnabled : bool }.

Definition contains_signal (l : list string) (s : string) : bool :=
  existsb (fun x => bool_decide (x = s)) l.

(** The rule switches traces off for the whole container: it has no list of
    instrumentation libraries, and its trace config is disabled. *)
Definition rule_disables_traces (irl : InstrumentationRule) : bool :=
  match ir_libraries irl with
  | Some _ => false
  | None =>
      match ir_trace_config irl with
      | Some (Some true) => true
      | _ => false
      end
  end.

Definition GetEnabledSignalsForContainer
    (nodeCollectorsGroup : option CollectorsGroup) (irls : list InstrumentationRule)
    : EnabledSignals * option AgentDisabledInfo :=
  match nodeCollectorsGroup with
  | None =>
      (mkSignals false false false,
       Some (mkDisabled WaitingForNodeCollector (r_message AgentEnabledWaitingForNodeCollector)))
  | Some cg =>
      let traces := contains_signal (cg_receiver_signals cg) TracesObservabilitySignal in
      let metrics := contains_signal (cg_receiver_signals cg) MetricsObservabilitySignal in
      let logs := contains_signal (cg_receiver_signals cg) LogsObservabilitySignal in
      let traces := foldl (fun t irl => if rule_disables_traces irl then false else t) traces irls in
      let enabledSignals := mkSignals traces metrics logs in
      if negb traces && negb metrics && negb logs then
        (enabledSignals,
         Some (mkDisabled NoCollectedSignals (r_message AgentEnabledNoCollectedSignals)))
      else (enabledSignals, None)
  end.

(** ** What scopes and signals mean *)

Lemma existsb_elem {A} `{EqDecision A} (x : A) l :
  existsb (fun y => bool_decide (y = x)) l = true <-> x ∈ l.
Proof.
  rewrite existsb_exists. split.
  - intros (y & Hy & Heq). case_bool_decide; [subst|done]. by apply list_elem_of_In.
  - intros Hx. exists x. split; [by apply list_elem_of_In|by case_bool_decide].
Qed.

Lemma wildcard_elem {A} `{EqDecision A} (x : A) l :
  (if decide (l = []) then true else existsb (fun y => bool_decide (y = x)) l) = true <->
  l = [] ∨ x ∈ l.
Proof. case_decide; [naive_solver|]. rewrite existsb_elem. naive_solver. Qed.

(** A scope selects exactly the containers that satisfy each of its
    non-empty criteria; no scope selects every container. *)
Theorem scope_matches_iff (scopes : option SourcesScopes) (pw : PodWorkload) (language : string) :
  SourceScopeMatchesContainer scopes pw language = true <->
  forall s, scopes = Some s ->
    (sc_sources s = [] ∨ pw ∈ sc_sources s)
    ∧ (sc_namespaces s = [] ∨ pw_namespace pw ∈ sc_namespaces s)
    ∧ (sc_languages s = [] ∨ language ∈ sc_languages s).
Proof.
  destruct scopes as [s|]; simpl; [|naive_solver].
  unfold sourceMatchScopeSources, sourceMatchScopeNamespaces, sourceMatchScopeLanguages.
  rewrite !guard_bool, !negb_false_iff, !wildcard_elem. naive_solver.
Qed.

Lemma traces_fold t irls :
  foldl (fun t irl => if rule_disables_traces irl then false else t) t irls
  = t && forallb (fun irl => negb (rule_disables_traces irl)) irls.
Proof.
  revert t. induction irls as [|irl irls IH]; intros t; simpl; [by rewrite andb_true_r|].
  rewrite IH. destruct (rule_disables_traces irl), t; done.
Qed.

Lemma signals_enabled cg irls s :
  GetEnabledSignalsForContainer cg irls = (s, None) ->
  exists g, cg = Some g
    ∧ TracesEnabled s = contains_signal (cg_receiver_signals g) TracesObservabilitySignal
        && forallb (fun irl => negb (rule_disables_traces irl)) irls
    ∧ MetricsEnabled s = contains_signal (cg_receiver_signals g) MetricsObservabilitySignal
    ∧ LogsEnabled s = contains_signal (cg_receiver_signals g) LogsObservabilitySignal
    ∧ TracesEnabled s || MetricsEnabled s || LogsEnabled s = true.
Proof.
  unfold GetEnabledSignalsForContainer. destruct cg as [g|]; [|done].
  rewrite traces_fold. intros H. exists g. split; [done|].
  revert H.
  generalize (contains_signal (cg_receiver_signals g) TracesObservabilitySignal
              && forallb (fun irl => negb (rule_disables_traces irl)) irls).
  intros [];
  destruct (contains_signal _ MetricsObservabilitySignal),
    (contains_signal _ LogsObservabilitySignal); intros ?; simplify_eq/=; done.
Qed.
