(* ===== verification/Objects.v ===== *)
(** * Kubernetes objects and their readiness

    The fields of pods and workload objects that the code reads, the static
    pod test (k8sutils/pkg/workload/pods.go), container readiness and back-off
    (k8sutils/pkg/pod, k8sutils/pkg/container), and the views of
    k8sutils/pkg/workload/workload.go. *)

From S2P Require Import Prelude.
From S2P Require Import GoStrings.
From S2P Require Import K8s.
From S2P Require Import Workload.

(** ** Label selectors *)
Inductive SelectorOp := OpIn | OpNotIn | OpExists | OpDoesNotExist.
Record Requirement := mkRequirement { req_key : string; req_op : SelectorOp; req_values : list string }.
(** [MatchLabels] may be a nil map, which the code tells from an empty one. *)
Record LabelSelector := mkLabelSelector
  { MatchLabels : option (gmap string string); MatchExpressions : list Requirement }.

#[export] Instance SelectorOp_eq_dec : EqDecision SelectorOp.
Proof. solve_decision. Defined.
#[export] Instance Requirement_eq_dec : EqDecision Requirement.
Proof. solve_decision. Defined.
#[export] Instance LabelSelector_eq_dec : EqDecision LabelSelector.
Proof. solve_decision. Defined.

(** ** Containers of a pod template

    A variable of the manifest: its value, or where it comes from. *)
Inductive EnvVarSource :=
| FieldRef (fieldPath : string)
| OtherSource (ref : string).  (** a config map, secret or resource *)
Record PodEnvVar := mkPodEnv
  { pe_name : string; pe_value : string; pe_value_from : option EnvVarSource }.
Record VolumeMount := mkMount
  { vm_name : string; vm_sub_path : string; vm_mount_path : string; vm_read_only : bool }.
(** [Privileged] and [AllowPrivilegeEscalation]. *)
Record SecurityContext := mkSecurityContext
  { sec_privileged : option bool; sec_allow_escalation : option bool }.

(** The HTTP path of a probe is [None] when the container has no such probe
    or the probe is not an HTTP one.  A resource quantity is its text. *)
Record Container := mkContainer
  { c_name : string;
    c_startup_http : option string;
    c_liveness_http : option string;
    c_readiness_http : option string;
    c_env : list PodEnvVar;
    c_mounts : list VolumeMount;
    c_limits : gmap string string;
    c_requests : gmap string string;
    c_image : string;
    c_pull_policy : string;
    c_command : list string;
    c_security : option SecurityContext }.

Definition bare_container (name : string) : Container :=
  mkContainer name None None None [] [] ∅ ∅ "" "" [] None.
Definition with_probes (c : Container) (startup liveness readiness : option string) : Container :=
  mkContainer (c_name c) startup liveness readiness (c_env c) (c_mounts c) (c_limits c) (c_requests c)
    (c_image c) (c_pull_policy c) (c_command c) (c_security c).
Definition with_env (c : Container) (env : list PodEnvVar) : Container :=
  mkContainer (c_name c) (c_startup_http c) (c_liveness_http c) (c_readiness_http c) env (c_mounts c)
    (c_limits c) (c_requests c) (c_image c) (c_pull_policy c) (c_command c) (c_security c).
Definition with_mounts (c : Container) (mounts : list VolumeMount) : Container :=
  mkContainer (c_name c) (c_startup_http c) (c_liveness_http c) (c_readiness_http c) (c_env c) mounts
    (c_limits c) (c_requests c) (c_image c) (c_pull_policy c) (c_command c) (c_security c).
Definition with_resources (c : Container) (limits requests : gmap string string) : Container :=
  mkContainer (c_name c) (c_startup_http c) (c_liveness_http c) (c_readiness_http c) (c_env c) (c_mounts c)
    limits requests (c_image c) (c_pull_policy c) (c_command c) (c_security c).

#[export] Instance EnvVarSource_eq_dec : EqDecision EnvVarSource.
Proof. solve_decision. Defined.
#[export] Instance PodEnvVar_eq_dec : EqDecision PodEnvVar.
Proof. solve_decision. Defined.
#[export] Instance VolumeMount_eq_dec : EqDecision VolumeMount.
Proof. solve_decision. Defined.

(** ** The rest of a pod's spec *)
Inductive VolumeSource :=
| HostPath (path : string)
| EmptyDir
| CSI (driver : string) (attributes : gmap string string)
| OtherVolume (ref : string).
Record Volume := mkVolume { vol_name : string; vol_source : VolumeSource }.

Record NodeSelectorRequirement := mkNodeRequirement
  { nr_key : string; nr_operator : string; nr_values : list string }.
(** [MatchExpressions]; [MatchFields] is the rest of a term. *)
Record NodeSelectorTerm := mkTerm
  { nt_expressions : list NodeSelectorRequirement; nt_fields : list NodeSelectorRequirement }.
(** [Affinity.NodeAffinity.RequiredDuringSchedulingIgnoredDuringExecution],
    each a pointer; other parts of an affinity are not touched. *)
Record NodeAffinity := mkNodeAffinity { na_required : option (list NodeSelectorTerm) }.
Record Affinity := mkAffinity { af_node : option NodeAffinity }.

Record PodSpec := mkPodSpec
  { ps_containers : list Container;
    ps_init_containers : list Container;
    ps_volumes : list Volume;
    ps_pull_secrets : list string;  (** [ImagePullSecrets], by name *)
    ps_affinity : option Affinity }.

(** ** Pods *)
Record ContainerStatus := mkContainerStatus
  { cs_name : string;
    cs_waiting_reason : option string;  (** [State.Waiting], its reason *)
    cs_ready : bool;
    cs_started : option bool;
    cs_restart_count : Z }.

Record Pod := mkPod
  { pod_meta : ObjectMeta;
    pod_uid : string;
    pod_node_name : string;
    pod_spec : PodSpec;
    pod_labels_allocated : bool;  (** the label map is not nil *)
    pod_phase : string;
    pod_start_time : option Z;
    pod_init_statuses : list ContainerStatus;
    pod_statuses : list ContainerStatus }.

Definition pod_containers (p : Pod) : list Container := ps_containers (pod_spec p).

Definition PodRunning := "Running".

(** The annotation of a static pod is "file" or "http", and a node owns it. *)
Definition IsStaticPod (p : Pod) : bool :=
  match first_match (fun o => bool_decide (or_kind o = "Node")) (om_owners (pod_meta p)) with
  | None => false
  | Some _ =>
      match om_annotations (pod_meta p) !! "kubernetes.io/config.source" with
      | None => false
      | Some configSource => bool_decide (configSource = "file") || bool_decide (configSource = "http")
      end
  end.

Definition PodUID (p : Pod) : string :=
  if IsStaticPod p then map_get (om_annotations (pod_meta p)) "kubernetes.io/config.hash"
  else pod_uid p.

Definition IsContainerInCrashLoopBackOff (cs : ContainerStatus) : bool :=
  bool_decide (cs_waiting_reason cs = Some "CrashLoopBackOff").
Definition IsContainerInImagePullBackOff (cs : ContainerStatus) : bool :=
  bool_decide (cs_waiting_reason cs = Some "ImagePullBackOff").
Definition IsContainerInBackOff (cs : ContainerStatus) : bool :=
  IsContainerInCrashLoopBackOff cs || IsContainerInImagePullBackOff cs.

Definition isCronJobPod (p : Pod) : bool :=
  existsb (fun ref => deref_bool (or_controller ref)
                      && (bool_decide (or_kind ref = "Job") || bool_decide (or_kind ref = "CronJob")))
          (om_owners (pod_meta p)).

Definition AllContainersReady (p : Pod) : bool :=
  if decide (pod_statuses p = []) then false
  else if negb (bool_decide (pod_phase p = PodRunning)) then false
  else
    let skipStarted := isCronJobPod p in
    forallb (fun cs => cs_ready cs && (skipStarted || deref_bool (cs_started cs))) (pod_statuses p).

(** ** Workload objects *)
Record DeploymentCondition := mkDeploymentCondition { dcond_type : string; dcond_reason : string }.

Record Deployment := mkDeployment
  { dep_meta : ObjectMeta;
    dep_paused : bool;
    dep_spec_replicas : option Z;
    dep_selector : option LabelSelector;
    dep_containers : list Container;
    dep_observed_generation : Z;
    dep_replicas : Z;
    dep_updated_replicas : Z;
    dep_available_replicas : Z;
    dep_conditions : list DeploymentCondition }.

Record StatefulSet := mkStatefulSet
  { sts_meta : ObjectMeta;
    sts_strategy : string;
    sts_rolling_update : option (option Z);  (** [RollingUpdate], its partition *)
    sts_spec_replicas : option Z;
    sts_selector : option LabelSelector;
    sts_containers : list Container;
    sts_observed_generation : Z;
    sts_ready_replicas : Z;
    sts_updated_replicas : Z;
    sts_update_revision : string;
    sts_current_revision : string }.

Record DaemonSet := mkDaemonSet
  { ds_meta : ObjectMeta;
    ds_strategy : string;
    ds_selector : option LabelSelector;
    ds_containers : list Container;
    ds_observed_generation : Z;
    ds_updated_scheduled : Z;
    ds_desired_scheduled : Z;
    ds_number_available : Z;
    ds_number_ready : Z }.

Record DeploymentConfig := mkDeploymentConfig
  { dc_meta : ObjectMeta;
    dc_selector : option (gmap string string);
    dc_containers : list Container;
    dc_observed_generation : Z;
    dc_replicas : Z;
    dc_updated_replicas : Z;
    dc_available_replicas : Z;
    dc_unavailable_replicas : Z }.

Record ArgoRollout := mkArgoRollout
  { ar_meta : ObjectMeta;
    ar_selector : option LabelSelector;
    ar_containers : list Container;
    ar_observed_generation : string;
    ar_phase : string;
    ar_available_replicas : Z }.

Record CronJob := mkCronJob
  { cj_meta : ObjectMeta; cj_active : nat; cj_containers : list Container }.

Record Job := mkJob { job_meta : ObjectMeta }.
Record NamespaceObj := mkNamespaceObj { ns_meta : ObjectMeta }.

(** [client.Object]: the concrete types the code's type switches name. *)
Inductive Object :=
| ODeployment (d : Deployment)
| OStatefulSet (s : StatefulSet)
| ODaemonSet (d : DaemonSet)
| ODeploymentConfig (d : DeploymentConfig)
| OArgoRollout (r : ArgoRollout)
| OPod (p : Pod)
| OCronJob (c : CronJob)
| OJob (j : Job)
| ONamespace (n : NamespaceObj).

Definition object_meta (o : Object) : ObjectMeta :=
  match o with
  | ODeployment d => dep_meta d
  | OStatefulSet s => sts_meta s
  | ODaemonSet d => ds_meta d
  | ODeploymentConfig d => dc_meta d
  | OArgoRollout r => ar_meta r
  | OPod p => pod_meta p
  | OCronJob c => cj_meta c
  | OJob j => job_meta j
  | ONamespace n => ns_meta n
  end.

(** The type of an object, which [ClientObjectFromWorkloadKind] picks. *)
Inductive ObjectType :=
| TDeployment | TDaemonSet | TStatefulSet | TNamespace | TPod | TCronJob | TJob
| TDeploymentConfig | TArgoRollout.

#[export] Instance ObjectType_eq_dec : EqDecision ObjectType.
Proof. solve_decision. Defined.

Definition object_type (o : Object) : ObjectType :=
  match o with
  | ODeployment _ => TDeployment
  | OStatefulSet _ => TStatefulSet
  | ODaemonSet _ => TDaemonSet
  | ODeploymentConfig _ => TDeploymentConfig
  | OArgoRollout _ => TArgoRollout
  | OPod _ => TPod
  | OCronJob _ => TCronJob
  | OJob _ => TJob
  | ONamespace _ => TNamespace
  end.

(** Nil for an unknown kind. *)
Definition ClientObjectFromWorkloadKind (kind : string) : option ObjectType :=
  switch kind
    [(WorkloadKindDeployment, Some TDeployment);
     (WorkloadKindDaemonSet, Some TDaemonSet);
     (WorkloadKindStatefulSet, Some TStatefulSet);
     (WorkloadKindNamespace, Some TNamespace);
     (WorkloadKindStaticPod, Some TPod);
     (WorkloadKindCronJob, Some TCronJob);
     (WorkloadKindJob, Some TJob);
     (WorkloadKindDeploymentConfig, Some TDeploymentConfig);
     (WorkloadKindArgoRollout, Some TArgoRollout)]
    None.

(** No list type for a namespace. *)
Definition ClientListObjectFromWorkloadKind (kind : string) : option ObjectType :=
  switch kind
    [(WorkloadKindDeployment, Some TDeployment);
     (WorkloadKindDaemonSet, Some TDaemonSet);
     (WorkloadKindStatefulSet, Some TStatefulSet);
     (WorkloadKindStaticPod, Some TPod);
     (WorkloadKindCronJob, Some TCronJob);
     (WorkloadKindJob, Some TJob);
     (WorkloadKindDeploymentConfig, Some TDeploymentConfig);
     (WorkloadKindArgoRollout, Some TArgoRollout)]
    None.

(** The view of an object as a [Workload]: the objects for which
    [ObjectToWorkload] succeeds, with the interface's methods. *)
Inductive WorkloadView :=
| DeploymentWorkload (d : Deployment)
| DaemonSetWorkload (d : DaemonSet)
| StatefulSetWorkload (s : StatefulSet)
| StaticPodWorkload (p : Pod)
| CronJobWorkloadV1 (c : CronJob)
| DeploymentConfigWorkload (d : DeploymentConfig)
| ArgoRolloutWorkload (r : ArgoRollout).

Definition AvailableReplicas (w : WorkloadView) : Z :=
  match w with
  | DeploymentWorkload d => dep_available_replicas d
  | DaemonSetWorkload d => ds_number_ready d
  | StatefulSetWorkload s => sts_ready_replicas s
  | StaticPodWorkload p => if decide (pod_phase p = PodRunning) then 1 else 0
  | CronJobWorkloadV1 c => wrap 32 (Z.of_nat (cj_active c))
  | DeploymentConfigWorkload d => dc_available_replicas d
  | ArgoRolloutWorkload r => ar_available_replicas r
  end.

(** [PodSpec().Containers]. *)
Definition PodSpecContainers (w : WorkloadView) : list Container :=
  match w with
  | DeploymentWorkload d => dep_containers d
  | DaemonSetWorkload d => ds_containers d
  | StatefulSetWorkload s => sts_containers s
  | StaticPodWorkload p => pod_containers p
  | CronJobWorkloadV1 c => cj_containers c
  | DeploymentConfigWorkload d => dc_containers d
  | ArgoRolloutWorkload r => ar_containers r
  end.

Definition workload_meta (w : WorkloadView) : ObjectMeta :=
  match w with
  | DeploymentWorkload d => dep_meta d
  | DaemonSetWorkload d => ds_meta d
  | StatefulSetWorkload s => sts_meta s
  | StaticPodWorkload p => pod_meta p
  | CronJobWorkloadV1 c => cj_meta c
  | DeploymentConfigWorkload d => dc_meta d
  | ArgoRolloutWorkload r => ar_meta r
  end.

Definition ObjectToWorkload (obj : Object) : error + WorkloadView :=
  match obj with
  | ODeployment t => inr (DeploymentWorkload t)
  | ODaemonSet t => inr (DaemonSetWorkload t)
  | OStatefulSet t => inr (StatefulSetWorkload t)
  | OPod t =>
      if IsStaticPod t then inr (StaticPodWorkload t)
      else inl (ENew "currently not supporting standalone pods which are not static as workloads")
  | OCronJob t => inr (CronJobWorkloadV1 t)
  | ODeploymentConfig t => inr (DeploymentConfigWorkload t)
  | OArgoRollout t => inr (ArgoRolloutWorkload t)
  | _ => inl (ENew "unknown kind")
  end.

(** [Workload.LabelSelector()]. *)
Definition view_LabelSelector (w : WorkloadView) : option LabelSelector :=
  match w with
  | DeploymentWorkload d => dep_selector d
  | DaemonSetWorkload d => ds_selector d
  | StatefulSetWorkload s => sts_selector s
  | StaticPodWorkload _ | CronJobWorkloadV1 _ => None
  | DeploymentConfigWorkload d => Some (mkLabelSelector (dc_selector d) [])
  | ArgoRolloutWorkload r => ar_selector r
  end.
