(* ===== verification/Client.v ===== *)
(** * The cluster as the controllers see it

    The API server, its client library and the clock are not part of the
    repository: their replies are the operations of the class [Client], over
    an abstract type of cluster states.  A read looks at the state, a write
    also moves it on.  [ClientLaws] states the documented behaviour of the
    writes to an instrumentation config (the status is a subresource: an
    update of the object keeps the stored status, an update of the status
    keeps the stored object) and of the helper that sets an owner.

    A controller runs in the monad [M]: it threads the cluster, the rollout
    limiter's slots and the number of clock readings, and may panic. *)

From S2P Require Import Prelude.
From S2P Require Import GoStrings.
From S2P Require Import K8s.
From S2P Require Import Status.
From S2P Require Import Workload.
From S2P Require Import Api.
From S2P Require Import GoLib.
From S2P Require Import Objects.

(** The merge patch that restarts a workload, with the time it carries, in
    whole seconds as RFC 3339 prints it (rollout.go,
    [rolloutRestartWorkload]). *)
Inductive RestartPatch :=
| PatchRestartedAt (t : Z)  (** the annotation kubectl.kubernetes.io/restartedAt of the pod template *)
| PatchRestartAt (t : Z).   (** spec.restartAt of an Argo rollout *)

Class Client := {
  Cluster : Type;
  (** [c.Get] and [c.List] of a typed object: the type is what
      [ClientObjectFromWorkloadKind] picked, nil for an unknown kind. *)
  GetObject : Cluster -> option ObjectType -> string -> string -> error + Object;
  ListObjects : Cluster -> option ObjectType -> string -> error + list Object;
  (** Pods of a namespace that a valid selector selects. *)
  ListPods : Cluster -> string -> LabelSelector -> error + list Pod;
  (** Daemon sets of a namespace with these labels. *)
  ListDaemonSets : Cluster -> string -> gmap string string -> error + list DaemonSet;
  (** [metav1.LabelSelectorAsSelector]: the error of an invalid selector. *)
  LabelSelectorAsSelector : LabelSelector -> option error;
  (** Sources of a namespace with these labels. *)
  ListSources : Cluster -> gmap string string -> string -> error + list Source;
  GetIC : Cluster -> string -> string -> error + InstrumentationConfig;
  ListICs : Cluster -> error + list InstrumentationConfig;
  (** Instrumentation rules, with the payloads they point to. *)
  ListRules : Cluster -> error + list InstrumentationRule * Heap;
  ListActions : Cluster -> string -> error + list Action;
  ListSamplings : Cluster -> string -> error + list Sampling;
  GetCollectorsGroup : Cluster -> string -> string -> error + CollectorsGroup;
  (** The config map of the effective configuration: its entry for the
      configuration file, and the YAML decoder. *)
  GetConfigMap : Cluster -> string -> error + option string;
  yaml_Unmarshal : string -> error + OdigosConfiguration;
  (** [os.LookupEnv], of the process. *)
  LookupEnv : string -> option string;
  CreateIC : Cluster -> InstrumentationConfig -> (error + InstrumentationConfig) * Cluster;
  UpdateIC : Cluster -> InstrumentationConfig -> (error + InstrumentationConfig) * Cluster;
  UpdateICStatus : Cluster -> InstrumentationConfig -> (error + InstrumentationConfig) * Cluster;
  DeleteIC : Cluster -> string -> string -> option error * Cluster;
  PatchWorkload : Cluster -> Object -> RestartPatch -> option error * Cluster;
  (** [ctrl.SetControllerReference(obj, ic, scheme)]. *)
  SetControllerReference : Object -> InstrumentationConfig -> error + InstrumentationConfig;
  (** The clock's readings, in nanoseconds; nothing is assumed of them. *)
  Clock : nat -> Z
}.

(** ** The process environment (k8sutils/pkg/env/env.go) *)

Definition GetEnvVarOrDefault `{Client} (envKey defaultVal : string) : string :=
  default defaultVal (LookupEnv envKey).
Definition GetCurrentNamespace `{Client} : string := GetEnvVarOrDefault "CURRENT_NS" "odigos-system".

(** ** Documented behaviour *)

(** The parts of the metadata that the caller owns. *)
Definition same_meta (m m' : ObjectMeta) : Prop :=
  om_name m = om_name m' ∧ om_namespace m = om_namespace m' ∧ om_labels m = om_labels m'
  ∧ om_annotations m = om_annotations m' ∧ om_owners m = om_owners m'.

#[export] Instance same_meta_equivalence : Equivalence same_meta.
Proof. unfold same_meta. split; intros ?; naive_solver congruence. Qed.

Definition zero_status : InstrumentationConfigStatus := mkStatus [] [] "" false None.

Definition ic_name (ic : InstrumentationConfig) : string := om_name (ic_meta ic).
Definition ic_namespace (ic : InstrumentationConfig) : string := om_namespace (ic_meta ic).

Section Laws.
Context `{Client}.

(** What a write to an instrumentation config leaves alone. *)
Definition same_inputs (c c' : Cluster) : Prop :=
  GetObject c = GetObject c' ∧ ListSources c = ListSources c'.

(** The stored object after a successful write. *)
Definition stored (c : Cluster) (ic : InstrumentationConfig) : Prop :=
  GetIC c (ic_namespace ic) (ic_name ic) = inr ic.

(** A write of the object, or of its status, as the server makes it. *)
Definition updated (c : Cluster) (ic ic' : InstrumentationConfig) (c' : Cluster) : Prop :=
  exists old, GetIC c (ic_namespace ic) (ic_name ic) = inr old
  ∧ same_meta (ic_meta ic) (ic_meta ic') ∧ ic_spec ic' = ic_spec ic ∧ ic_status ic' = ic_status old
  ∧ stored c' ic' ∧ same_inputs c c'.
Definition status_updated (c : Cluster) (ic ic' : InstrumentationConfig) (c' : Cluster) : Prop :=
  exists old, GetIC c (ic_namespace ic) (ic_name ic) = inr old
  ∧ same_meta (ic_meta old) (ic_meta ic') ∧ ic_spec ic' = ic_spec old ∧ ic_status ic' = ic_status ic
  ∧ stored c' ic' ∧ same_inputs c c'.
Definition unwritten (c c' : Cluster) : Prop := GetIC c' = GetIC c ∧ same_inputs c c'.

(** A failed write was not made, or it was made and the reply was lost. *)
Class ClientLaws : Prop := {
  get_ic_name c ns n ic : GetIC c ns n = inr ic -> ic_namespace ic = ns ∧ ic_name ic = n;
  create_ok c ic ic' c' :
    CreateIC c ic = (inr ic', c') ->
    same_meta (ic_meta ic) (ic_meta ic') ∧ ic_spec ic' = ic_spec ic ∧ ic_status ic' = zero_status
    ∧ stored c' ic' ∧ same_inputs c c';
  update_ok c ic ic' c' : UpdateIC c ic = (inr ic', c') -> updated c ic ic' c';
  update_failed c ic e c' :
    UpdateIC c ic = (inl e, c') -> unwritten c c' ∨ exists ic', updated c ic ic' c';
  update_status_ok c ic ic' c' : UpdateICStatus c ic = (inr ic', c') -> status_updated c ic ic' c';
  update_status_failed c ic e c' :
    UpdateICStatus c ic = (inl e, c') -> unwritten c c' ∨ exists ic', status_updated c ic ic' c';
  patch_configs c o p err c' : PatchWorkload c o p = (err, c') -> GetIC c' = GetIC c;
  delete_ok c ns n c' :
    DeleteIC c ns n = (None, c') ->
    (exists e, GetIC c' ns n = inl e ∧ IsNotFound e = true) ∧ same_inputs c c';
  delete_missing c ns n e :
    GetIC c ns n = inl e -> IsNotFound e = true ->
    exists e', DeleteIC c ns n = (Some e', c) ∧ IsNotFound e' = true;
  delete_not_found c ns n e c' :
    DeleteIC c ns n = (Some e, c') -> IsNotFound e = true ->
    c' = c ∧ exists e', GetIC c ns n = inl e' ∧ IsNotFound e' = true;
  set_reference_ok o ic ic' :
    SetControllerReference o ic = inr ic' ->
    ic_spec ic' = ic_spec ic ∧ ic_status ic' = ic_status ic
    ∧ ic_name ic' = ic_name ic ∧ ic_namespace ic' = ic_namespace ic
    ∧ om_labels (ic_meta ic') = om_labels (ic_meta ic)
    ∧ om_annotations (ic_meta ic') = om_annotations (ic_meta ic)
}.
End Laws.
Arguments ClientLaws _ : clear implicits.

(** ** Controller steps *)

Section Monad.
Context `{Client}.

(** The cluster, the limiter's in-flight set (nil limiter: [None]) and the
    number of clock readings so far. *)
Record St := mkSt
  { st_cluster : Cluster; st_limiter : option (gset string); st_ticks : nat }.

Definition M (A : Type) : Type := St -> go (A * St).
#[export] Instance M_ret : MRet M := fun A a s => Done (a, s).
#[export] Instance M_bind : MBind M := fun A B f m s => go_bind (m s) (fun r => f r.1 r.2).

Definition read {A} (f : Cluster -> A) : M A := fun s => Done (f (st_cluster s), s).
Definition write {A} (f : Cluster -> A * Cluster) : M A := fun s =>
  Done ((f (st_cluster s)).1, mkSt (f (st_cluster s)).2 (st_limiter s) (st_ticks s)).
Definition time_Now : M Z := fun s =>
  Done (Clock (st_ticks s), mkSt (st_cluster s) (st_limiter s) (S (st_ticks s))).
(** [time.Since(t)]. *)
Definition time_Since (t : Z) : M Z := now ← time_Now; mret (time_sub now t).
(** A step on the limiter. *)
Definition limit {A} (f : option (gset string) -> A * option (gset string)) : M A := fun s =>
  Done ((f (st_limiter s)).1, mkSt (st_cluster s) (f (st_limiter s)).2 (st_ticks s)).
Definition lift {A} (g : go A) : M A := fun s => go_bind g (fun a => Done (a, s)).

(** *** Total correctness: the step returns, in a state that satisfies [Q]. *)
Definition wp {A} (m : M A) (Q : A -> St -> Prop) (s : St) : Prop :=
  exists a s', m s = Done (a, s') ∧ Q a s'.

Lemma wp_run {A} (m : M A) Q s a s' : wp m Q s -> m s = Done (a, s') -> Q a s'.
Proof. intros (? & ? & E & HQ) E'. congruence. Qed.

Lemma wp_ret {A} (a : A) (Q : A -> St -> Prop) s : Q a s -> wp (mret a) Q s.
Proof. by exists a, s. Qed.

Lemma wp_bind {A B} (m : M A) (f : A -> M B) Q s :
  wp m (fun a => wp (f a) Q) s -> wp (m ≫= f) Q s.
Proof.
  intros (a & s1 & Hm & b & s2 & Hf & HQ). exists b, s2. split; [|done].
  unfold mbind, M_bind. by rewrite Hm.
Qed.

Lemma wp_read {A} (f : Cluster -> A) (Q : A -> St -> Prop) s :
  Q (f (st_cluster s)) s -> wp (read f) Q s.
Proof. by eexists _, _. Qed.

Lemma wp_write {A} (f : Cluster -> A * Cluster) (Q : A -> St -> Prop) s :
  (forall a c, f (st_cluster s) = (a, c) -> Q a (mkSt c (st_limiter s) (st_ticks s))) ->
  wp (write f) Q s.
Proof. intros HQ. eexists _, _. split; [done|]. apply HQ. by destruct (f _). Qed.

Lemma wp_now (Q : Z -> St -> Prop) s :
  Q (Clock (st_ticks s)) (mkSt (st_cluster s) (st_limiter s) (S (st_ticks s))) -> wp time_Now Q s.
Proof. by eexists _, _. Qed.

Lemma wp_since t (Q : Z -> St -> Prop) s :
  (forall d, Q d (mkSt (st_cluster s) (st_limiter s) (S (st_ticks s)))) -> wp (time_Since t) Q s.
Proof. intros HQ. apply wp_bind, wp_now, wp_ret, HQ. Qed.

Lemma wp_limit {A} (f : option (gset string) -> A * option (gset string)) (Q : A -> St -> Prop) s :
  Q (f (st_limiter s)).1 (mkSt (st_cluster s) (f (st_limiter s)).2 (st_ticks s)) -> wp (limit f) Q s.
Proof. by eexists _, _. Qed.

Lemma wp_lift {A} (g : go A) a (Q : A -> St -> Prop) s : g = Done a -> Q a s -> wp (lift g) Q s.
Proof. intros -> HQ. by exists a, s. Qed.

Lemma wp_mono {A} (m : M A) (P Q : A -> St -> Prop) s :
  wp m P s -> (forall a s', P a s' -> Q a s') -> wp m Q s.
Proof. intros (a & s' & ? & ?) HPQ. exists a, s'. auto. Qed.

(** A concrete run, by evaluating its result alone. *)
Lemma run_result {A} (m : M A) s (P : A -> Prop) :
  match m s with Done r => P r.1 | _ => False end -> exists a s', m s = Done (a, s') ∧ P a.
Proof. destruct (m s) as [[a s']| |]; simpl; [eauto|done..]. Qed.

(** *** Partial correctness: steps that keep a relation on states *)
Definition keeps (R : St -> St -> Prop) {A} (m : M A) : Prop :=
  forall s a s', m s = Done (a, s') -> R s s'.

Section Keeps.
Context (R : St -> St -> Prop) `{!PreOrder R}.

Lemma keeps_ret {A} (a : A) : keeps R (mret a).
Proof. intros s ? ? [= <- <-]. done. Qed.
Lemma keeps_bind {A B} (m : M A) (f : A -> M B) :
  keeps R m -> (forall a, keeps R (f a)) -> keeps R (m ≫= f).
Proof.
  intros Hm Hf s b s'. unfold mbind, M_bind. destruct (m s) as [[a s1]| |] eqn:E; simpl; [|done..].
  intros E'. transitivity s1; [by eapply Hm|by eapply Hf].
Qed.
Lemma keeps_read {A} (f : Cluster -> A) : keeps R (read f).
Proof. intros s ? ? [= <- <-]. done. Qed.
Lemma keeps_lift {A} (g : go A) : keeps R (lift g).
Proof. intros s a s'. destruct g; simpl; [|done..]. intros [= <- <-]. done. Qed.
End Keeps.
End Monad.

(** One step of a run, for the operations above. *)
Ltac wp_step :=
  lazymatch goal with
  | |- wp (mret _) _ _ => apply wp_ret
  | |- wp (_ ≫= _) _ _ => apply wp_bind
  | |- wp (read _) _ _ => apply wp_read; cbn [st_cluster st_limiter st_ticks fst snd]
  | |- wp (write _) _ _ =>
      let reply := fresh "reply" in let c := fresh "c" in let Hreply := fresh "Hreply" in
      apply wp_write; cbn [st_cluster st_limiter st_ticks fst snd]; intros reply c Hreply
  | |- wp time_Now _ _ => apply wp_now; cbn [st_cluster st_limiter st_ticks fst snd]
  | |- wp (time_Since _) _ _ => apply wp_since; cbn [st_cluster st_limiter st_ticks fst snd]; intros ?
  | |- wp (limit _) _ _ => apply wp_limit; cbn [st_cluster st_limiter st_ticks fst snd]
  end.

#[export] Hint Resolve keeps_ret keeps_bind keeps_read keeps_lift : odigos.
