(* ===== verification/Samples.v ===== *)
(** * Concrete values for the witnesses

    Each property with hypotheses is followed by a lemma that applies it to a
    concrete input; the inputs are built from these values. *)

From S2P Require Import Prelude.
From S2P Require Import K8s.
From S2P Require Import Status.
From S2P Require Import Workload.
From S2P Require Import Api.
From S2P Require Import GoLib.
From S2P Require Import Objects.

Definition sample_meta (ns name : string) : ObjectMeta := mkObjectMeta "" name ns ∅ ∅ [] 1 None.

(** A rule that sets nothing. *)
Definition sample_rule (name : string) : InstrumentationRule :=
  mkRule name "odigos-system" false None None None None None None None None None None None None.

Definition rule_with_payload (name : string) (scopes : option SourcesScopes) (p : ptr) : InstrumentationRule :=
  mkRule name "odigos-system" false scopes None (Some p) None None None None None None None None None.

Definition sample_traces : DistroTraces :=
  mkDistroTraces (Some (mkDistroHeadSampling true false)) (Some true) (Some true) (Some true) (Some true)
    (Some true) (Some true) (Some (true, true)).

(** A Java distribution with a runtime agent that the loader can inject. *)
Definition sample_distro : OtelDistro :=
  mkDistro "java-community" "java" [] [mkRuntimeEnv "JVM" ">=8"] None
    (mkDistroEnv false false false [] [("JAVA_TOOL_OPTIONS", "{{ORIGINAL_ENV_VALUE}} -javaagent:{{ODIGOS_AGENTS_DIR}}/java/javaagent.jar")]) (Some (mkRuntimeAgent ["{{ODIGOS_AGENTS_DIR}}/java"] [] false None true false []))
    false None (Some sample_traces) None.

Definition sample_details (name : string) : RuntimeDetailsByContainer :=
  mkRuntimeDetails name "java" "17.0.1" [] [] (Some "glibc") (Some false) None [].

(** Agents are copied by an init container. *)
Definition sample_pods_conf : PodsConfiguration :=
  mkPodsConf (Some "k8s-init-container") None None "registry.odigos.io" ["pull"] None (Some (mkInitResources 300 300 300 300)).

Definition sample_conf : OdigosConfiguration :=
  mkConf [] None (Some LoaderEnvInjectionMethod) None None "" "" None "" None sample_pods_conf.

Definition sample_group : CollectorsGroup :=
  mkCollectorsGroup None true [TracesObservabilitySignal; MetricsObservabilitySignal].

Definition sample_override (name : string) : ContainerOverride := mkOverride name None None None.

Definition sample_ic (conds : list Condition) (containers : list string) : InstrumentationConfig :=
  mkIC (sample_meta "shop" "deployment-cart")
    (mkSpec "cart" false false [] [] (sample_override <$> containers) "" "" None)
    (mkStatus (sample_details <$> containers) conds "" false None).

Definition sample_container (name : string) : Container := bare_container name.

Definition sample_selector : LabelSelector := mkLabelSelector (Some {[ "app" := "cart" ]}) [].

Definition sample_deployment : Deployment :=
  mkDeployment (sample_meta "shop" "cart") false (Some 2%Z) (Some sample_selector)
    [sample_container "cart"] 1 2 2 2 [].

Definition sample_pw : PodWorkload := mkPodWorkload "cart" "shop" WorkloadKindDeployment.

(** Two payload configurations, as two rules of the cluster have them. *)
Definition sample_payload (limit : Z) : PayloadCollection :=
  mkPayloadCollection (Some (mkHttpPayload None (Some limit) None)) None None None.
Definition sample_heap : Heap :=
  mkHeap {[ 0 := sample_payload 1024; 1 := sample_payload 64 ]} ∅.
