(* ===== verification/Store.v ===== *)
(** * A cluster for concrete runs

    An in-memory cluster that satisfies [ClientLaws]: objects are looked up by
    type, namespace and name, sources by namespace and labels, instrumentation
    configs in a map, with the status as a subresource.  The witnesses run the
    controllers on it; no theorem is proved about it alone. *)

From S2P Require Import Prelude.
From S2P Require Import GoStrings.
From S2P Require Import K8s.
From S2P Require Import Status.
From S2P Require Import Workload.
From S2P Require Import Api.
From S2P Require Import GoLib.
From S2P Require Import Objects.
From S2P Require Import Client.
From S2P Require Import Samples.

Record Store := mkStore
  { store_objects : list (ObjectType * Object);
    store_pods : list Pod;
    store_sources : list Source;
    store_ics : gmap (string * string) InstrumentationConfig;
    store_rules : list InstrumentationRule * Heap;
    store_groups : gmap string CollectorsGroup;
    store_conf : OdigosConfiguration;
    store_patches : list (string * RestartPatch) }.

Definition set_ic (c : Store) (ns n : string) (ic : option InstrumentationConfig) : Store :=
  mkStore (store_objects c) (store_pods c) (store_sources c)
    (partial_alter (fun _ => ic) (ns, n) (store_ics c)) (store_rules c) (store_groups c)
    (store_conf c) (store_patches c).

Definition not_found : error := EStatus ReasonNotFound "not found".

Definition store_get_ic (c : Store) (ns n : string) : error + InstrumentationConfig :=
  match store_ics c !! (ns, n) with
  | Some ic => if decide (ic_namespace ic = ns ∧ ic_name ic = n) then inr ic else inl (ENew "corrupt store")
  | None => inl not_found
  end.

Definition store_create (c : Store) (ic : InstrumentationConfig) : (error + InstrumentationConfig) * Store :=
  match store_ics c !! (ic_namespace ic, ic_name ic) with
  | Some _ => (inl (EStatus ReasonAlreadyExists "already exists"), c)
  | None =>
      let ic' := with_status ic zero_status in
      (inr ic', set_ic c (ic_namespace ic) (ic_name ic) (Some ic'))
  end.

Definition store_update (c : Store) (ic : InstrumentationConfig) : (error + InstrumentationConfig) * Store :=
  match store_get_ic c (ic_namespace ic) (ic_name ic) with
  | inl err => (inl err, c)
  | inr old =>
      let ic' := with_status ic (ic_status old) in
      (inr ic', set_ic c (ic_namespace ic) (ic_name ic) (Some ic'))
  end.

Definition store_update_status (c : Store) (ic : InstrumentationConfig)
    : (error + InstrumentationConfig) * Store :=
  match store_get_ic c (ic_namespace ic) (ic_name ic) with
  | inl err => (inl err, c)
  | inr old =>
      let ic' := with_status old (ic_status ic) in
      (inr ic', set_ic c (ic_namespace ic) (ic_name ic) (Some ic'))
  end.

Definition store_delete (c : Store) (ns n : string) : option error * Store :=
  match store_get_ic c ns n with
  | inl err => (Some err, c)
  | inr _ => (None, set_ic c ns n None)
  end.

(** The owner of a config: the object, as its controller. *)
Definition object_kind (o : Object) : string :=
  match o with
  | ODeployment _ => "Deployment" | OStatefulSet _ => "StatefulSet" | ODaemonSet _ => "DaemonSet"
  | ODeploymentConfig _ => "DeploymentConfig" | OArgoRollout _ => "Rollout" | OPod _ => "Pod"
  | OCronJob _ => "CronJob" | OJob _ => "Job" | ONamespace _ => "Namespace"
  end.

Definition store_set_owner (o : Object) (ic : InstrumentationConfig) : error + InstrumentationConfig :=
  let m := ic_meta ic in
  inr (mkIC (mkObjectMeta (om_type_kind m) (om_name m) (om_namespace m) (om_labels m) (om_annotations m)
               [mkOwnerReference (object_kind o) (om_name (object_meta o)) "" (Some true)]
               (om_generation m) (om_deletion m)) (ic_spec ic) (ic_status ic)).

(** A pod carries the selector's labels; "exists" requirements are the only
    ones looked at. *)
Definition store_selects (sel : LabelSelector) (p : Pod) : bool :=
  forallb (fun kv => bool_decide (om_labels (pod_meta p) !! kv.1 = Some kv.2))
    (map_to_list (default ∅ (MatchLabels sel)))
  && forallb (fun r => match req_op r with
                       | OpExists => bool_decide (is_Some (om_labels (pod_meta p) !! req_key r))
                       | OpDoesNotExist => negb (bool_decide (is_Some (om_labels (pod_meta p) !! req_key r)))
                       | _ => false
                       end) (MatchExpressions sel).

#[export] Instance store_client : Client | 10 := {|
  Cluster := Store;
  GetObject c t ns n :=
    match t with
    | None => inl (ENew "no type")
    | Some t =>
        match first_match (fun o => bool_decide (o.1 = t) && bool_decide (om_namespace (object_meta o.2) = ns)
                                    && bool_decide (om_name (object_meta o.2) = n)) (store_objects c) with
        | Some o => inr o.2
        | None => inl not_found
        end
    end;
  ListObjects c t ns :=
    match t with
    | None => inl (ENew "no type")
    | Some t =>
        inr (snd <$> filter (fun o => o.1 = t ∧ om_namespace (object_meta o.2) = ns) (store_objects c))
    end;
  ListPods c ns sel :=
    inr (filter (fun p => om_namespace (pod_meta p) = ns ∧ store_selects sel p = true) (store_pods c));
  ListDaemonSets c ns labels :=
    inr (omap (fun o => match o.2 with
                        | ODaemonSet d => if decide (om_namespace (ds_meta d) = ns ∧ labels ⊆ om_labels (ds_meta d))
                                          then Some d else None
                        | _ => None
                        end) (store_objects c));
  LabelSelectorAsSelector _ := None;
  ListSources c labels ns :=
    inr (filter (fun s => om_namespace (src_meta s) = ns ∧ labels ⊆ om_labels (src_meta s)) (store_sources c));
  GetIC := store_get_ic;
  ListICs c := inr (snd <$> map_to_list (store_ics c));
  ListRules c := inr (store_rules c);
  ListActions c _ := inr [];
  ListSamplings c _ := inr [];
  GetCollectorsGroup c _ n := match store_groups c !! n with Some g => inr g | None => inl not_found end;
  GetConfigMap c _ := inr (Some "conf");
  yaml_Unmarshal _ := inr sample_conf;
  LookupEnv _ := None;
  CreateIC := store_create;
  UpdateIC := store_update;
  UpdateICStatus := store_update_status;
  DeleteIC := store_delete;
  PatchWorkload c o p :=
    (None, mkStore (store_objects c) (store_pods c) (store_sources c) (store_ics c) (store_rules c)
             (store_groups c) (store_conf c) (store_patches c ++ [(om_name (object_meta o), p)]));
  SetControllerReference := store_set_owner;
  Clock n := (Hour + Z.of_nat n * Second)%Z
|}.

Lemma store_set_same c ns n ic :
  ic_namespace ic = ns -> ic_name ic = n -> store_get_ic (set_ic c ns n (Some ic)) ns n = inr ic.
Proof.
  intros Hns Hn. unfold store_get_ic, set_ic. simpl. rewrite lookup_partial_alter_eq.
  by rewrite decide_True.
Qed.

#[export] Instance store_laws : ClientLaws store_client.
Proof.
  split; unfold stored; simpl.
  - intros c ns n ic. unfold store_get_ic. case_match; [|done]. case_decide; naive_solver.
  - intros c ic ic' c'. unfold store_create. case_match; [done|]. intros [= <- <-].
    split_and!; [done..| |done]. by apply store_set_same.
  - intros c ic ic' c'. unfold updated, stored. simpl. unfold store_update. destruct (store_get_ic _ _ _) as [|old] eqn:E; [done|].
    intros [= <- <-]. exists old. split_and!; [done..| |done]. by apply store_set_same.
  - intros c ic e c'. unfold store_update. case_match; [|done]. intros [= <- <-]. by left.
  - intros c ic ic' c'. unfold status_updated, stored. simpl. unfold store_update_status. destruct (store_get_ic _ _ _) as [|old] eqn:E; [done|].
    intros [= <- <-]. exists old. split_and!; [done..| |done].
    assert (ic_namespace old = ic_namespace ic ∧ ic_name old = ic_name ic) as [Hns Hn].
    { revert E. unfold store_get_ic. case_match; [|done]. case_decide; naive_solver. }
    change (ic_namespace (with_status old (ic_status ic))) with (ic_namespace old).
    change (ic_name (with_status old (ic_status ic))) with (ic_name old). rewrite Hns, Hn.
    by apply store_set_same.
  - intros c ic e c'. unfold store_update_status. case_match; [|done]. intros [= <- <-]. by left.
  - intros c o p err c'. by intros [= <- <-].
  - intros c ns n c'. unfold store_delete. case_match; [done|]. intros [= <-]. split; [|done].
    exists not_found. unfold store_get_ic, set_ic. simpl. by rewrite lookup_partial_alter_eq.
  - intros c ns n e He Hn. unfold store_delete. rewrite He. eauto.
  - intros c ns n e c'. unfold store_delete. case_match; [|done]. intros [= <- <-]. eauto.
  - intros o ic ic'. unfold store_set_owner. intros [= <-]. done.
Qed.

(** ** A sample cluster: one deployment, with a source of its own *)

Definition sample_source : Source :=
  mkSource
    (mkObjectMeta "Source" "cart-source" "shop"
       {[ "odigos.io/workload-name" := "cart"; "odigos.io/workload-namespace" := "shop";
          "odigos.io/workload-kind" := "Deployment"; "odigos.io/data-stream-prod" := "true" ]}
       ∅ [] 1 None)
    sample_pw false "checkout" [] false.

Definition sample_store : Store :=
  mkStore [(TDeployment, ODeployment sample_deployment)] [] [sample_source] ∅ ([], mkHeap ∅ ∅)
    {[ "odigos-data-collection" := sample_group ]} sample_conf [].

Definition with_ic (c : Store) (ic : InstrumentationConfig) : Store :=
  set_ic c (ic_namespace ic) (ic_name ic) (Some ic).

Definition sample_state : @St store_client := mkSt sample_store (Some ∅) 0.
