(* ===== verification/Source.v ===== *)
(** * Which source applies to a workload (api/odigos/v1alpha1/source_types.go,
    k8sutils/pkg/source/source.go)

    The sources that apply to a workload, whether they mark it for
    instrumentation, and the data streams they put it in. *)

From S2P Require Import Prelude.
From S2P Require Import GoStrings.
From S2P Require Import K8s.
From S2P Require Import Status.
From S2P Require Import Workload.
From S2P Require Import Api.
From S2P Require Import GoLib.
From S2P Require Import Objects.
From S2P Require Import Client.
From S2P Require Import Samples.
From S2P Require Import Store.

Definition WorkloadNameLabel := "odigos.io/workload-name".
Definition WorkloadNamespaceLabel := "odigos.io/workload-namespace".
Definition WorkloadKindLabel := "odigos.io/workload-kind".
Definition SourceDataStreamLabelPrefix := "odigos.io/data-stream-".

(** The name of a source is a regular expression if it says so; an invalid
    expression matches nothing. *)
Definition source_matches `{GoLibrary} (pw : PodWorkload) (source : Source) : bool :=
  if src_match_name_as_regex source
  then deref_bool (regexp_match (pw_name (src_workload source)) (pw_name pw))
  else bool_decide (pw_name (src_workload source) = pw_name pw).

(** The namespace whose sources apply. *)
Definition sources_namespace (pw : PodWorkload) : string :=
  if bool_decide (pw_namespace pw = "") && bool_decide (pw_kind pw = WorkloadKindNamespace)
  then pw_name pw else pw_namespace pw.

Definition workload_selector (namespace kind : string) : gmap string string :=
  {[ WorkloadNamespaceLabel := namespace; WorkloadKindLabel := kind ]}.
Definition namespace_selector (namespace : string) : gmap string string :=
  {[ WorkloadNameLabel := namespace; WorkloadNamespaceLabel := namespace;
     WorkloadKindLabel := WorkloadKindNamespace ]}.

Definition at_most_one (l : list Source) : error + option Source :=
  match l with [] => inr None | [s] => inr (Some s) | _ => inl ETooManySources end.

Definition GetSources `{GoLibrary} `{Client} (c : Cluster) (pw : PodWorkload) : error + WorkloadSources :=
  let namespace := sources_namespace pw in
  let workload_source :=
    if decide (pw_kind pw = WorkloadKindNamespace) then inr None
    else match ListSources c (workload_selector namespace (pw_kind pw)) namespace with
         | inl err => inl err
         | inr items => at_most_one (filter (fun s => source_matches pw s = true) items)
         end in
  match workload_source with
  | inl err => inl err
  | inr w =>
      match ListSources c (namespace_selector namespace) namespace with
      | inl err => inl err
      | inr items =>
          match at_most_one items with
          | inl err => inl err
          | inr n => inr (mkSources w n)
          end
      end
  end.

(** ** IsObjectInstrumentedBySource *)

Definition marked_condition (status : ConditionStatus) (reason message : string) : Condition :=
  mkCondition MarkedForInstrumentationStatusConditionType status reason message.

(** "... by <what> source CR '<name>' in namespace '<namespace>'". *)
Definition source_message (verb what : string) (s : Source) : string :=
  "workload marked " +:+ verb +:+ " by " +:+ what +:+ " source CR '" +:+ om_name (src_meta s)
  +:+ "' in namespace '" +:+ om_namespace (src_meta s) +:+ "'".

Definition active (s : Source) : bool := negb (IsTerminating (src_meta s)).

Definition instrumented_by_namespace (n : option Source) : bool * Condition :=
  match n with
  | Some n =>
      if negb (IsDisabledSource n) && active n
      then (true, marked_condition ConditionTrue MarkedForInstrumentationReasonNamespaceSource
                    (source_message "for automatic instrumentation" "namespace" n))
      else (false, marked_condition ConditionFalse MarkedForInstrumentationReasonNoSource
                     "workload not marked for automatic instrumentation by any source CR")
  | None => (false, marked_condition ConditionFalse MarkedForInstrumentationReasonNoSource
                      "workload not marked for automatic instrumentation by any source CR")
  end.

(** The argument is the reply of [GetSources]. *)
Definition IsObjectInstrumentedBySource (sources : error + WorkloadSources)
    : bool * Condition * option error :=
  match sources with
  | inl err =>
      (false, marked_condition ConditionUnknown MarkedForInstrumentationReasonError
                ("cannot determine if workload is marked for instrumentation due to error: " +:+ Error err),
       Some err)
  | inr ws =>
      match ws_workload ws with
      | Some w =>
          if negb (IsDisabledSource w) && active w then
            (true, marked_condition ConditionTrue MarkedForInstrumentationReasonWorkloadSource
                     (source_message "for automatic instrumentation" "workload" w), None)
          else if IsDisabledSource w && active w then
            (false, marked_condition ConditionFalse MarkedForInstrumentationReasonWorkloadSourceDisabled
                      (source_message "to disable instrumentation" "workload" w), None)
          else (instrumented_by_namespace (ws_namespace ws), None)
      | None => (instrumented_by_namespace (ws_namespace ws), None)
      end
  end.

(** ** Data streams *)

Definition IsDataStreamLabel (labelKey : string) : bool :=
  has_prefix SourceDataStreamLabelPrefix labelKey.

Definition getSourceDataStreamsLabels (source : option Source) : gmap string string :=
  match source with
  | None => ∅
  | Some s => filter (fun kv => IsDataStreamLabel kv.1 = true) (om_labels (src_meta s))
  end.

(** The workload's labels win over the namespace's. *)
Definition CalculateDataStreamsLabels (ws : WorkloadSources) : gmap string string :=
  getSourceDataStreamsLabels (ws_workload ws) ∪ getSourceDataStreamsLabels (ws_namespace ws).

(** ** Facts *)

Lemma at_most_one_inr l o : at_most_one l = inr o <-> l = option_list o.
Proof. destruct l as [|s [|s' l]], o as [s0|]; simpl; split; intros; by simplify_eq. Qed.

Lemma at_most_one_inl l e : at_most_one l = inl e -> e = ETooManySources ∧ 1 < length l.
Proof. destruct l as [|s [|s' l]]; simpl; [done..|]. intros [= <-]. split; [done|lia]. Qed.

Section Precedence.
Context `{GoLibrary} `{Client}.

(** [GetSources] answers exactly when at most one source of the workload
    (by name or by regular expression) and at most one source of its
    namespace exist, and then returns these two; with more of either it
    fails with [ErrorTooManySources]. *)
Theorem get_sources_unique (c : Cluster) (pw : PodWorkload) (items ns_items : list Source) :
  pw_kind pw <> WorkloadKindNamespace ->
  ListSources c (workload_selector (pw_namespace pw) (pw_kind pw)) (pw_namespace pw) = inr items ->
  ListSources c (namespace_selector (pw_namespace pw)) (pw_namespace pw) = inr ns_items ->
  (forall ws, GetSources c pw = inr ws <->
     filter (fun s => source_matches pw s = true) items = option_list (ws_workload ws)
     ∧ ns_items = option_list (ws_namespace ws))
  ∧ (forall e, GetSources c pw = inl e -> e = ETooManySources).
Proof.
  intros Hk Hw Hn. unfold GetSources, sources_namespace. rewrite (bool_decide_eq_false_2 (pw_kind pw = _)) by done.
  rewrite andb_false_r, decide_False, Hw, Hn by done.
  destruct (at_most_one (filter _ items)) as [e|w] eqn:Ew.
  - destruct (at_most_one_inl _ _ Ew) as [-> _]. split; [|by intros ? [= <-]].
    intros ws. split; [done|]. intros [E _]. apply at_most_one_inr in E. congruence.
  - destruct (at_most_one ns_items) as [e|n] eqn:En.
    + destruct (at_most_one_inl _ _ En) as [-> _]. split; [|by intros ? [= <-]].
      intros ws. split; [done|]. intros [_ E]. apply at_most_one_inr in E. congruence.
    + split; [|done]. intros [w' n']. rewrite <-!at_most_one_inr. simpl. rewrite Ew, En. naive_solver.
Qed.

(** The source is active and does not disable. *)
Definition marks (o : option Source) : Prop :=
  exists s, o = Some s ∧ active s = true ∧ IsDisabledSource s = false.

Definition own_source_active (ws : WorkloadSources) : bool :=
  match ws_workload ws with Some w => active w | None => false end.

Lemma namespace_decision n :
  exists enabled cond, instrumented_by_namespace n = (enabled, cond)
  ∧ (enabled = true <-> marks n)
  ∧ cond_status cond = (if enabled then ConditionTrue else ConditionFalse)
  ∧ cond_type cond = MarkedForInstrumentationStatusConditionType
  ∧ cond_reason cond <> MarkedForInstrumentationReasonWorkloadSourceDisabled.
Proof.
  unfold instrumented_by_namespace, marks. destruct n as [n|].
  - destruct (IsDisabledSource n) eqn:Hn, (active n) eqn:An; simpl;
      eexists _, _; (split; [reflexivity|]); (split; [|done]); (split; [intros|intros (? & [= <-] & ? & ?)]);
      (done || congruence || eauto).
  - eexists _, _. split; [reflexivity|]. split; [|done]. by split; [|intros (? & ? & _)].
Qed.

(** C37: a workload is instrumented exactly when its own source is active and
    not disabling, or it has no active source of its own and its namespace's
    source is active and not disabling; the condition is true exactly then,
    and a disabling source of its own beats the namespace. *)
Theorem source_precedence (ws : WorkloadSources) :
  exists enabled cond,
    IsObjectInstrumentedBySource (inr ws) = (enabled, cond, None)
    ∧ (enabled = true <->
         if own_source_active ws then marks (ws_workload ws) else marks (ws_namespace ws))
    ∧ cond_status cond = (if enabled then ConditionTrue else ConditionFalse)
    ∧ cond_type cond = MarkedForInstrumentationStatusConditionType
    ∧ (cond_reason cond = MarkedForInstrumentationReasonWorkloadSourceDisabled <->
         exists w, ws_workload ws = Some w ∧ active w = true ∧ IsDisabledSource w = true).
Proof.
  destruct (namespace_decision (ws_namespace ws)) as (b & c & E & Hb & Hs & Ht & Hr).
  unfold IsObjectInstrumentedBySource, own_source_active. rewrite E.
  destruct (ws_workload ws) as [w|].
  - destruct (active w) eqn:Aw.
    + destruct (IsDisabledSource w) eqn:Dw; simpl; eexists _, _; (split; [reflexivity|]);
        unfold marks; split_and!; try done; split; intros; try done;
        [by destruct H1 as (? & [= <-] & ? & ?); congruence|by exists w|by exists w|].
      by destruct H1 as (? & [= <-] & ? & ?); congruence.
    + rewrite !andb_false_r. exists b, c. split_and!; try done.
      split; [done|]. intros (? & [= <-] & ? & _). congruence.
  - exists b, c. split_and!; try done. split; [done|]. by intros (? & ? & _).
Qed.

(** The data streams of a workload: a label counts only under the data
    stream prefix, and the workload's own source decides where both say
    something. *)
Theorem data_streams_merge (ws : WorkloadSources) (k : string) :
  CalculateDataStreamsLabels ws !! k =
    if IsDataStreamLabel k then
      match ws_workload ws ≫= (fun w => om_labels (src_meta w) !! k) with
      | Some v => Some v
      | None => ws_namespace ws ≫= (fun n => om_labels (src_meta n) !! k)
      end
    else None.
Proof.
  assert (Hget : forall o, getSourceDataStreamsLabels o !! k =
            if IsDataStreamLabel k then o ≫= (fun s : Source => om_labels (src_meta s) !! k) else None).
  { intros [s|]; simpl; [|by rewrite lookup_empty; destruct (IsDataStreamLabel k)].
    rewrite map_lookup_filter. destruct (om_labels _ !! k) as [v|]; simpl; [|by destruct (IsDataStreamLabel k)].
    case_match; case_guard; simpl in *; congruence. }
  unfold CalculateDataStreamsLabels. rewrite lookup_union, !Hget.
  destruct (IsDataStreamLabel k); [|done].
  destruct (ws_workload ws ≫= _); simpl; [by destruct (ws_namespace ws ≫= _)|].
  by destruct (ws_namespace ws ≫= _).
Qed.
End Precedence.

Section Witnesses.
#[local] Existing Instance sample_library.

Lemma get_sources_unique_witness :
  @GetSources sample_library store_client sample_store sample_pw = inr (mkSources (Some sample_source) None).
Proof.
  apply (proj1 (@get_sources_unique sample_library store_client sample_store sample_pw [sample_source] []
    ltac:(by vm_compute) ltac:(by vm_compute) ltac:(by vm_compute))).
  by vm_compute.
Defined.
End Witnesses.
