(* ===== verification/SourceInstrumentation.v ===== *)
(** * Keeping one InstrumentationConfig per instrumented workload
    (instrumentor/controllers/sourceinstrumentation)

    [syncWorkload] creates, updates or deletes the InstrumentationConfig of a
    workload from the sources that apply to it, and initiates the conditions
    other controllers continue.  The namespace and regular-expression syncs
    run it on every workload they find. *)

From S2P Require Import Prelude.
From S2P Require Import GoStrings.
From S2P Require Import GoSort.
From S2P Require Import K8s.
From S2P Require Import Status.
From S2P Require Import Workload.
From S2P Require Import Api.
From S2P Require Import GoLib.
From S2P Require Import Objects.
From S2P Require Import Client.
From S2P Require Import Samples.
From S2P Require Import Store.
From S2P Require Import Source.

(** ** Conditions (conditions.go) *)

Section Conditions.
Context `{StatusConditions}.

Definition runtime_condition (status : ConditionStatus) (reason message : string) : Condition :=
  mkCondition RuntimeDetectionStatusConditionType status reason message.

Definition ic_conditions (ic : InstrumentationConfig) : list Condition := st_conditions (ic_status ic).

(** A cron job's config is owned by the cron job. *)
Definition is_cron_job (ic : InstrumentationConfig) : bool :=
  existsb (fun ref => deref_bool (or_controller ref) && bool_decide (or_kind ref = "CronJob"))
          (om_owners (ic_meta ic)).

Definition initial_runtime_condition (ic : InstrumentationConfig) (workloadObj : WorkloadView) : Condition :=
  if nonempty (st_runtime_details (ic_status ic)) then
    runtime_condition ConditionTrue RuntimeDetectionReasonWaitingForDetection
      "runtime detection completed successfully"
  else if bool_decide (AvailableReplicas workloadObj = 0%Z)
          && negb (bool_decide (om_type_kind (workload_meta workloadObj) = WorkloadKindCronJob)) then
    runtime_condition ConditionFalse RuntimeDetectionReasonNoRunningPods
      "No running pods available to detect source runtime"
  else if is_cron_job ic then
    runtime_condition ConditionUnknown RuntimeDetectionReasonWaitingForDetection
      "Runtime detection pending Job to start"
  else
    runtime_condition ConditionUnknown RuntimeDetectionReasonWaitingForDetection
      "Waiting for odiglet to initiate runtime detection in a node with running pod".

Definition initiateRuntimeDetailsConditionIfMissing (ic : InstrumentationConfig) (workloadObj : WorkloadView)
    : InstrumentationConfig * bool :=
  match FindStatusCondition (ic_conditions ic) RuntimeDetectionStatusConditionType with
  | Some _ => (ic, false)
  | None => (with_conditions ic (set_cond (ic_conditions ic) (initial_runtime_condition ic workloadObj)), true)
  end.

Definition agent_condition (r : Reason) : Condition :=
  mkCondition AgentEnabledType (r_status r) (r_name r) (r_message r).

(** The runtime detection condition is dereferenced without a check. *)
Definition initiateAgentEnabledConditionIfMissing (ic : InstrumentationConfig)
    : go (InstrumentationConfig * bool) :=
  match FindStatusCondition (ic_conditions ic) AgentEnabledType with
  | Some _ => Done (ic, false)
  | None =>
      go_bind (go_deref (FindStatusCondition (ic_conditions ic) RuntimeDetectionStatusConditionType))
        (fun detection =>
          let r := if decide (cond_reason detection = RuntimeDetectionReasonNoRunningPods)
                   then AgentEnabledRuntimeDetailsUnavailable
                   else AgentEnabledWaitingForRuntimeInspection in
          Done (with_conditions ic (set_cond (ic_conditions ic) (agent_condition r)), true))
  end.

Definition initiatePodsManifestInjectionConditionIfMissing (ic : InstrumentationConfig)
    : InstrumentationConfig * bool :=
  match FindStatusCondition (ic_conditions ic) PodsManifestInjectionType with
  | Some _ => (ic, false)
  | None =>
      let r := PodsManifestInjectionNotYetReconciled in
      (with_conditions ic (set_cond (ic_conditions ic)
         (mkCondition PodsManifestInjectionType (r_status r) (r_name r) (r_message r))), true)
  end.
End Conditions.

Definition statusConditionTypeLogicalOrder (condType : string) : Z :=
  switch condType
    [(MarkedForInstrumentationStatusConditionType, 1%Z); (RuntimeDetectionStatusConditionType, 2%Z);
     (AgentEnabledType, 3%Z); (WorkloadRolloutStatusConditionType, 4%Z); (PodsManifestInjectionType, 5%Z)]
    6%Z.

Definition logical_order (i j : Condition) : Z :=
  (statusConditionTypeLogicalOrder (cond_type i) - statusConditionTypeLogicalOrder (cond_type j))%Z.

Definition sortIcConditionsByLogicalOrder `{GoSort} (conditions : list Condition) : list Condition :=
  SortFunc logical_order conditions.

(** ** The pieces of the config that come from the sources (common.go) *)

Definition with_meta (ic : InstrumentationConfig) (m : ObjectMeta) : InstrumentationConfig :=
  mkIC m (ic_spec ic) (ic_status ic).
Definition with_labels (m : ObjectMeta) (labels : gmap string string) : ObjectMeta :=
  mkObjectMeta (om_type_kind m) (om_name m) (om_namespace m) labels (om_annotations m) (om_owners m)
    (om_generation m) (om_deletion m).
Definition with_annotations (m : ObjectMeta) (annotations : gmap string string) : ObjectMeta :=
  mkObjectMeta (om_type_kind m) (om_name m) (om_namespace m) (om_labels m) annotations (om_owners m)
    (om_generation m) (om_deletion m).

(** The workload's source, unless it is being deleted. *)
Definition own_source (sources : WorkloadSources) : option Source :=
  match ws_workload sources with
  | Some w => if IsTerminating (src_meta w) then None else Some w
  | None => None
  end.

(** The override of a container; an empty one when the source has none. *)
Definition desired_override (sources : WorkloadSources) (container : Container) : ContainerOverride :=
  let found := own_source sources ≫= (fun w =>
    first_match (fun o => bool_decide (co_container_name o = c_name container)) (src_container_overrides w)) in
  default (mkOverride (c_name container) None None None) found.

Definition calculateDesiredServiceName (pw : PodWorkload) (sources : WorkloadSources) : string :=
  match own_source sources with
  | None => pw_name pw
  | Some w => if decide (src_otel_service_name w = "") then pw_name pw else src_otel_service_name w
  end.

Definition rollback_recovery (sources : WorkloadSources) : string :=
  match own_source sources with
  | Some w => map_get (om_annotations (src_meta w)) RollbackRecoveryAtAnnotation
  | None => ""
  end.

Definition updateContainerOverride (ic : InstrumentationConfig) (desired : list ContainerOverride)
    (hash : string) : InstrumentationConfig * bool :=
  if decide (spec_overrides_hash (ic_spec ic) = hash) then (ic, false)
  else (with_spec ic (with_overrides (ic_spec ic) desired hash), true).

Definition add_label (st : gmap string string * bool) (kv : string * string) : gmap string string * bool :=
  if decide (map_get st.1 kv.1 = kv.2) then st else (<[kv.1 := kv.2]> st.1, true).

Definition remove_label (desired : gmap string string) (st : gmap string string * bool)
    (kv : string * string) : gmap string string * bool :=
  if bool_decide (desired !! kv.1 = None) && IsDataStreamLabel kv.1
  then (delete kv.1 st.1, true) else st.

Definition updateDatastreamLabels `{GoMapOrder} (ic : InstrumentationConfig)
    (desired : gmap string string) : InstrumentationConfig * bool :=
  let added := foldl add_label (om_labels (ic_meta ic), false) (map_order (map_to_list desired)) in
  let st := foldl (remove_label desired) added (map_order (map_to_list added.1)) in
  (with_meta ic (with_labels (ic_meta ic) st.1), st.2).

Definition updateServiceName (ic : InstrumentationConfig) (desired : string) : InstrumentationConfig * bool :=
  if decide (desired = spec_service_name (ic_spec ic)) then (ic, false)
  else (with_spec ic (with_service_name (ic_spec ic) desired), true).

Definition updateRecoveredFromRollbackAt (ic : InstrumentationConfig) (desired : string)
    : InstrumentationConfig * bool :=
  let annotations := om_annotations (ic_meta ic) in
  if decide (map_get annotations RollbackRecoveryAtAnnotation = desired) then (ic, false)
  else
    let annotations' :=
      if decide (desired = "") then delete RollbackRecoveryAtAnnotation annotations
      else <[RollbackRecoveryAtAnnotation := desired]> annotations in
    (with_meta ic (with_annotations (ic_meta ic) annotations'), true).

(** ** The sync of one workload *)

Section Sync.
Context `{StatusConditions} `{GoSort} `{GoMapOrder} `{GoLibrary} `{Client}.

(** The config a workload gets when it has none. *)
Definition new_config (instConfigName namespace serviceName : string) (containers : list ContainerOverride)
    (hash : string) (labels : gmap string string) (recoveryAt : string) : InstrumentationConfig :=
  let annotations := if decide (recoveryAt = "") then ∅ else {[RollbackRecoveryAtAnnotation := recoveryAt]} in
  mkIC (mkObjectMeta "InstrumentationConfig" instConfigName namespace labels annotations [] 0 None)
    (mkSpec serviceName false false [] [] containers hash "" None) zero_status.

Definition createInstrumentationConfigForWorkload (obj : Object) (instConfig : InstrumentationConfig)
    : M (error + InstrumentationConfig) :=
  match SetControllerReference obj instConfig with
  | inl err => mret (inl err)
  | inr instConfig => write (fun c => CreateIC c instConfig)
  end.

Definition deleteWorkloadInstrumentationConfig (pw : PodWorkload) : M (option error) :=
  err ← write (fun c => DeleteIC c (pw_namespace pw)
                          (CalculateWorkloadRuntimeObjectName (pw_name pw) (pw_kind pw)));
  mret (match err with Some err => IgnoreNotFound err | None => None end).

(** The update branch: every piece is brought up to date, and the object is
    written if one of them changed. *)
Definition update_config (ic : InstrumentationConfig) (pw : PodWorkload) (sources : WorkloadSources)
    (containers : list ContainerOverride) (hash : string) : InstrumentationConfig * bool :=
  let r1 := updateDatastreamLabels ic (CalculateDataStreamsLabels sources) in
  let r2 := updateContainerOverride r1.1 containers hash in
  let r3 := updateServiceName r2.1 (calculateDesiredServiceName pw sources) in
  let r4 := updateRecoveredFromRollbackAt r3.1 (rollback_recovery sources) in
  (r4.1, r2.2 || r1.2 || r3.2 || r4.2).

(** The conditions, and whether one of them changed. *)
Definition update_conditions (ic : InstrumentationConfig) (marked : Condition) (workloadObj : WorkloadView)
    : go (InstrumentationConfig * bool) :=
  let r1 := SetStatusCondition (ic_conditions ic) marked in
  let r2 := initiateRuntimeDetailsConditionIfMissing (with_conditions ic r1.1) workloadObj in
  go_bind (initiateAgentEnabledConditionIfMissing r2.1) (fun r3 =>
    let r4 := initiatePodsManifestInjectionConditionIfMissing r3.1 in
    Done (r4.1, r1.2 || r2.2 || r3.2 || r4.2)).

(** What happens to the status once the object is in place. *)
Definition sync_status (ic : InstrumentationConfig) (marked : Condition) (workloadObj : WorkloadView)
    : M (Result * option error) :=
  r ← lift (update_conditions ic marked workloadObj);
  if r.2 : bool then
    let ic := with_conditions r.1 (sortIcConditionsByLogicalOrder (ic_conditions r.1)) in
    reply ← write (fun c => UpdateICStatus c ic);
    match reply with
    | inl err => mret (K8SUpdateErrorHandler err)
    | inr _ => mret (no_result, None)
    end
  else mret (no_result, None).

(** The workload is marked: its config is created or updated. *)
Definition sync_enabled (pw : PodWorkload) (obj : Object) (sources : WorkloadSources) (marked : Condition)
    (workloadObj : WorkloadView) : M (Result * option error) :=
  let containers := desired_override sources <$> PodSpecContainers workloadObj in
  let hash := overrides_digest containers in
  let instConfigName := CalculateWorkloadRuntimeObjectName (pw_name pw) (pw_kind pw) in
  found ← read (fun c => GetIC c (pw_namespace pw) instConfigName);
  match found with
  | inl err =>
      if IsNotFound err then
        created ← createInstrumentationConfigForWorkload obj
          (new_config instConfigName (pw_namespace pw) (calculateDesiredServiceName pw sources)
             containers hash (CalculateDataStreamsLabels sources) (rollback_recovery sources));
        match created with
        | inl err => mret (if IsAlreadyExists err then (requeue_now, None) else (no_result, Some err))
        | inr ic => sync_status ic marked workloadObj
        end
      else mret (no_result, Some err)
  | inr ic =>
      let r := update_config ic pw sources containers hash in
      if r.2 then
        updated ← write (fun c => UpdateIC c r.1);
        match updated with
        | inl err => mret (K8SUpdateErrorHandler err)
        | inr ic => sync_status ic marked workloadObj
        end
      else sync_status r.1 marked workloadObj
  end.

Definition syncWorkload (pw : PodWorkload) : M (Result * option error) :=
  got ← read (fun c => GetObject c (ClientObjectFromWorkloadKind (pw_kind pw)) (pw_namespace pw) (pw_name pw));
  match got with
  | inl err => mret (no_result, IgnoreNotFound err)
  | inr obj =>
      sources ← read (fun c => GetSources c pw);
      match IsObjectInstrumentedBySource sources with
      | (_, _, Some err) => mret (no_result, Some err)
      | (false, _, None) =>
          err ← deleteWorkloadInstrumentationConfig pw;
          mret (no_result, err)
      | (true, marked, None) =>
          match sources, ObjectToWorkload obj with
          | inl err, _ | _, inl err => mret (no_result, Some err)
          | inr sources, inr workloadObj => sync_enabled pw obj sources marked workloadObj
          end
      end
  end.

(** ** Syncing every workload of a namespace *)

(** The kind of the objects of a typed list, for the lists that the code
    tells apart. *)
Definition list_kind (t : option ObjectType) : option string :=
  match t with
  | Some TDeployment => Some WorkloadKindDeployment
  | Some TDaemonSet => Some WorkloadKindDaemonSet
  | Some TStatefulSet => Some WorkloadKindStatefulSet
  | Some TCronJob => Some WorkloadKindCronJob
  | Some TDeploymentConfig => Some WorkloadKindDeploymentConfig
  | Some TArgoRollout => Some WorkloadKindArgoRollout
  | _ => None
  end.

Definition object_workload (kind : string) (o : Object) : PodWorkload :=
  mkPodWorkload (om_name (object_meta o)) (om_namespace (object_meta o)) kind.

(** [for _, pw := range workloadsToSync]: errors are joined, the last result
    that is not zero is kept. *)
Fixpoint sync_all (workloads : list PodWorkload) (collectiveRes : Result) (errs : option error)
    : M (Result * option error) :=
  match workloads with
  | [] => mret (collectiveRes, errs)
  | pw :: workloads =>
      r ← syncWorkload pw;
      sync_all workloads (if result_IsZero r.1 then collectiveRes else r.1) (errors_join errs r.2)
  end.

Definition synced_kinds : list string :=
  [WorkloadKindDaemonSet; WorkloadKindDeployment; WorkloadKindStatefulSet; WorkloadKindCronJob;
   WorkloadKindDeploymentConfig; WorkloadKindArgoRollout].

(** The kinds whose API may be missing in the cluster. *)
Definition ignored_list_error (kind : string) (err : error) : bool :=
  (bool_decide (kind = WorkloadKindDeploymentConfig) && (IsNoMatchError err || IsForbidden err))
  || (bool_decide (kind = WorkloadKindArgoRollout) && (IsNoMatchError err || IsForbidden err))
  || IsNoMatchError err.

Definition list_step (c : Cluster) (namespace : string) (st : list PodWorkload * option error)
    (kind : string) : list PodWorkload * option error :=
  match ListObjects c (ClientListObjectFromWorkloadKind kind) namespace with
  | inl err => if ignored_list_error kind err then st else (st.1, errors_join st.2 (Some err))
  | inr items =>
      match list_kind (ClientListObjectFromWorkloadKind kind) with
      | Some k => (st.1 ++ (object_workload k <$> items), st.2)
      | None => st
      end
  end.

(** Pods that are workloads themselves: the static ones. *)
Definition list_static_pods (c : Cluster) (namespace : string) (st : list PodWorkload * option error)
    : list PodWorkload * option error :=
  match ListObjects c (Some TPod) namespace with
  | inl err => (st.1, errors_join st.2 (Some err))
  | inr items =>
      (st.1 ++ omap (fun o => match o with
                              | OPod p => if IsStaticPod p then Some (object_workload WorkloadKindStaticPod o) else None
                              | _ => None
                              end) items, st.2)
  end.

Definition syncNamespaceWorkloads (namespace : string) : M (Result * option error) :=
  st ← read (fun c => list_static_pods c namespace (foldl (list_step c namespace) ([], None) synced_kinds));
  sync_all st.1 no_result st.2.

(** An invalid pattern is a terminal error: the reconcile is not retried. *)
Definition syncRegexSourceWorkloads (source : Source) : M (Result * option error) :=
  let pattern := pw_name (src_workload source) in
  match regexp_match pattern "" with
  | None => mret (no_result, Some (ETerminal (ENew (regexp_error pattern))))
  | Some _ =>
      let kind := pw_kind (src_workload source) in
      listed ← read (fun c => ListObjects c (ClientListObjectFromWorkloadKind kind)
                                (pw_namespace (src_workload source)));
      match listed with
      | inl err => mret (no_result, Some err)
      | inr items =>
          let workloads :=
            match list_kind (ClientListObjectFromWorkloadKind kind) with
            | Some k =>
                object_workload k <$>
                  filter (fun o => deref_bool (regexp_match pattern (om_name (object_meta o))) = true) items
            | None => []
            end in
          sync_all workloads no_result None
      end
  end.
End Sync.

(** ** Facts about the pieces *)

Section Labels.
Context `{GoMapOrderLaws}.

Lemma map_get_insert (m : gmap string string) k v j :
  map_get (<[k:=v]> m) j = if decide (j = k) then v else map_get m j.
Proof. unfold map_get. rewrite lookup_insert. repeat case_decide; by subst. Qed.

(** Adding labels: what the list says holds afterwards, the other keys keep
    their value, and nothing changes when it held before. *)
Lemma add_labels_spec l st :
  NoDup l.*1 ->
  let st' := foldl add_label st l in
  (forall kv, kv ∈ l -> map_get st'.1 kv.1 = kv.2)
  ∧ (forall k, k ∉ l.*1 -> st'.1 !! k = st.1 !! k)
  ∧ (st'.2 = false <-> st.2 = false ∧ forall kv, kv ∈ l -> map_get st.1 kv.1 = kv.2)
  ∧ (st'.2 = false -> st'.1 = st.1).
Proof.
  revert st. induction l as [|[k v] l IH]; intros st; simpl.
  { intros _. split_and!; try done; [set_solver|]. split; [|tauto]. intros ->. split; [done|set_solver]. }
  rewrite NoDup_cons. intros [Hk Hl]. destruct (IH (add_label st (k, v)) Hl) as (H1 & H2 & H3 & H4). clear IH.
  assert (Hkey : map_get (add_label st (k, v)).1 k = v).
  { unfold add_label. simpl. case_decide; [done|]. simpl. rewrite map_get_insert. by case_decide. }
  assert (Hother : forall j, j <> k -> (add_label st (k, v)).1 !! j = st.1 !! j).
  { intros j Hj. unfold add_label. simpl. case_decide; [done|]. simpl. by rewrite lookup_insert_ne. }
  split_and!.
  - intros kv [->|Hin]%elem_of_cons; [|by apply H1]. simpl.
    unfold map_get. rewrite H2 by done. exact Hkey.
  - intros j Hj. apply not_elem_of_cons in Hj as [??]. rewrite H2, Hother; done.
  - rewrite H3. unfold add_label at 1. simpl. split.
    + intros [Hs Hin]. case_decide as E; [|done]. split; [done|].
      intros kv [->|Hkv]%elem_of_cons; [done|]. specialize (Hin kv Hkv).
      unfold map_get in *. rewrite Hother in Hin; [done|]. intros E'. apply Hk. rewrite <-E'.
      apply list_elem_of_fmap. eauto.
    + intros [Hs Hin]. assert (map_get st.1 k = v) as E by (apply (Hin (k, v)); left).
      rewrite decide_True by done. split; [done|]. intros kv Hkv.
      unfold map_get. rewrite Hother; [apply Hin; by right|]. intros E'. apply Hk. rewrite <-E'.
      apply list_elem_of_fmap. eauto.
  - intros Hf. rewrite (H4 Hf). apply H3 in Hf as [Hs _]. unfold add_label in *. simpl in *. by case_decide.
Qed.

Definition removable (desired : gmap string string) (k : string) : bool :=
  bool_decide (desired !! k = None) && IsDataStreamLabel k.

Lemma remove_labels_spec desired l st :
  let st' := foldl (remove_label desired) st l in
  (forall k, st'.1 !! k = if bool_decide (k ∈ l.*1) && removable desired k then None else st.1 !! k)
  ∧ (st'.2 = false <-> st.2 = false ∧ forall k, k ∈ l.*1 -> removable desired k = false)
  ∧ (st'.2 = false -> st'.1 = st.1).
Proof.
  revert st. induction l as [|[k v] l IH]; intros st; simpl.
  { split_and!; try done. split; [|tauto]. intros ->. split; [done|set_solver]. }
  destruct (IH (remove_label desired st (k, v))) as (H1 & H2 & H3). clear IH.
  assert (E : remove_label desired st (k, v) =
            if removable desired k then (delete k st.1, true) else st) by done.
  split_and!.
  - intros j. rewrite H1, E. destruct (removable desired j) eqn:Rj; rewrite ?andb_true_r, ?andb_false_r.
    + repeat case_bool_decide; set_unfold; try tauto.
      * assert (j = k) as -> by tauto. rewrite Rj. apply lookup_delete_eq.
      * destruct (removable desired k); simpl; [|done]. rewrite lookup_delete_ne; [done|]. intros ->. tauto.
    + destruct (removable desired k) eqn:Rk; simpl; [|done]. rewrite lookup_delete_ne; [done|]. congruence.
  - rewrite H2, E. destruct (removable desired k) eqn:R; simpl.
    + split; [by intros [? _]|]. intros [_ Hl]. rewrite Hl in R; [done|left].
    + split; intros [Hs Hl]; (split; [done|]); intros j; [intros [->|?]%elem_of_cons; auto|].
      intros Hj. apply Hl. by right.
  - intros Hf. rewrite (H3 Hf). apply H2 in Hf as [Hs _]. rewrite E in *.
    by destruct (removable desired k).
Qed.

(** The labels say what is desired: every desired stream, and no other. *)
Definition labels_current (labels desired : gmap string string) : Prop :=
  (forall k v, desired !! k = Some v -> map_get labels k = v)
  ∧ (forall k, is_Some (labels !! k) -> removable desired k = false).

Lemma ordered_map (m : gmap string string) :
  NoDup (map_order (map_to_list m)).*1
  ∧ (forall kv, kv ∈ map_order (map_to_list m) <-> m !! kv.1 = Some kv.2)
  ∧ (forall k, k ∈ (map_order (map_to_list m)).*1 <-> is_Some (m !! k)).
Proof.
  pose proof (map_order_perm (map_to_list m)) as Hp. split_and!.
  - rewrite Hp. apply NoDup_fst_map_to_list.
  - intros [k v]. rewrite Hp. apply elem_of_map_to_list.
  - intros k. rewrite Hp, list_elem_of_fmap. split.
    + intros ([k' v] & -> & Hkv%elem_of_map_to_list). by exists v.
    + intros [v Hv]. exists (k, v). split; [done|]. by apply elem_of_map_to_list.
Qed.

Lemma datastream_update ic desired :
  let r := updateDatastreamLabels ic desired in
  labels_current (om_labels (ic_meta r.1)) desired
  ∧ (forall k, desired !! k = None -> IsDataStreamLabel k = false ->
       om_labels (ic_meta r.1) !! k = om_labels (ic_meta ic) !! k)
  ∧ (r.2 = false <-> labels_current (om_labels (ic_meta ic)) desired)
  ∧ (r.2 = false -> r.1 = ic)
  ∧ ic_spec r.1 = ic_spec ic ∧ ic_status r.1 = ic_status ic
  ∧ ic_name r.1 = ic_name ic ∧ ic_namespace r.1 = ic_namespace ic
  ∧ om_annotations (ic_meta r.1) = om_annotations (ic_meta ic).
Proof.
  destruct (ordered_map desired) as (Hnd & Hin & Hkeys).
  destruct (add_labels_spec (map_order (map_to_list desired)) (om_labels (ic_meta ic), false) Hnd)
    as (A1 & A2 & A3 & A4).
  unfold updateDatastreamLabels.
  set (added := foldl add_label _ _) in *.
  destruct (ordered_map added.1) as (_ & _ & Hkeys').
  destruct (remove_labels_spec desired (map_order (map_to_list added.1)) added) as (R1 & R2 & R3).
  set (st := foldl (remove_label desired) _ _) in *. simpl.
  assert (Hflag : st.2 = false <-> labels_current (om_labels (ic_meta ic)) desired).
  { rewrite R2, A3. simpl. split.
    - intros [[_ Ha] Hr]. split; [intros k v Hk; by apply (Ha (k, v)), Hin|].
      intros k Hk. apply Hr, Hkeys'. assert (E : added.2 = false) by by apply A3. by rewrite (A4 E).
    - intros [Ha Hr]. assert (E : added.2 = false).
      { apply A3. split; [done|]. intros [k v] Hkv%Hin. by apply Ha. }
      split; [split; [done|]; intros [k v] Hkv%Hin; by apply Ha|].
      intros k Hk%Hkeys'. rewrite (A4 E) in Hk. by apply Hr. }
  split_and!; try done.
  - split.
    + intros k v Hk. unfold map_get. rewrite R1.
      assert (removable desired k = false) as -> by (unfold removable; by rewrite Hk).
      rewrite andb_false_r. apply (A1 (k, v)), Hin. done.
    + intros k. rewrite R1. destruct (removable desired k) eqn:Hk; [|done].
      rewrite andb_true_r. case_bool_decide as Hin'; [by intros [? ?]|].
      rewrite Hkeys' in Hin'. tauto.
  - intros k Hd Hk. rewrite R1. unfold removable. rewrite Hk, !andb_false_r. apply A2.
    rewrite Hkeys, Hd. by intros [? ?].
  - intros E. rewrite (R3 E), (A4 (proj1 (proj1 R2 E))). by destruct ic as [[] ? ?].
Qed.
End Labels.

Section ConfigFacts.
Context `{GoMapOrderLaws} `{GoLibrary}.

(** The object says what the sources want. *)
Definition config_current (ic : InstrumentationConfig) (pw : PodWorkload) (sources : WorkloadSources)
    (hash : string) : Prop :=
  labels_current (om_labels (ic_meta ic)) (CalculateDataStreamsLabels sources)
  ∧ spec_overrides_hash (ic_spec ic) = hash
  ∧ spec_service_name (ic_spec ic) = calculateDesiredServiceName pw sources
  ∧ map_get (om_annotations (ic_meta ic)) RollbackRecoveryAtAnnotation = rollback_recovery sources.

Lemma config_current_same ic ic' pw sources hash :
  same_meta (ic_meta ic) (ic_meta ic') -> ic_spec ic' = ic_spec ic ->
  config_current ic pw sources hash -> config_current ic' pw sources hash.
Proof.
  unfold config_current. intros (_ & _ & -> & -> & _) ->. done.
Qed.

Lemma overrides_update ic desired hash :
  let r := updateContainerOverride ic desired hash in
  spec_overrides_hash (ic_spec r.1) = hash ∧ ic_meta r.1 = ic_meta ic ∧ ic_status r.1 = ic_status ic
  ∧ spec_service_name (ic_spec r.1) = spec_service_name (ic_spec ic)
  ∧ (r.2 = false <-> spec_overrides_hash (ic_spec ic) = hash) ∧ (r.2 = false -> r.1 = ic)
  ∧ (r.2 = true -> spec_overrides (ic_spec r.1) = desired).
Proof. unfold updateContainerOverride. by case_decide. Qed.

Lemma service_name_update ic desired :
  let r := updateServiceName ic desired in
  spec_service_name (ic_spec r.1) = desired ∧ ic_meta r.1 = ic_meta ic ∧ ic_status r.1 = ic_status ic
  ∧ spec_overrides_hash (ic_spec r.1) = spec_overrides_hash (ic_spec ic)
  ∧ spec_overrides (ic_spec r.1) = spec_overrides (ic_spec ic)
  ∧ (r.2 = false <-> spec_service_name (ic_spec ic) = desired) ∧ (r.2 = false -> r.1 = ic).
Proof. unfold updateServiceName. case_decide; simpl; split_and!; try done; naive_solver. Qed.

Lemma recovery_update ic desired :
  let r := updateRecoveredFromRollbackAt ic desired in
  map_get (om_annotations (ic_meta r.1)) RollbackRecoveryAtAnnotation = desired
  ∧ ic_spec r.1 = ic_spec ic ∧ ic_status r.1 = ic_status ic
  ∧ om_labels (ic_meta r.1) = om_labels (ic_meta ic)
  ∧ ic_name r.1 = ic_name ic ∧ ic_namespace r.1 = ic_namespace ic
  ∧ (r.2 = false <-> map_get (om_annotations (ic_meta ic)) RollbackRecoveryAtAnnotation = desired)
  ∧ (r.2 = false -> r.1 = ic).
Proof.
  unfold updateRecoveredFromRollbackAt. case_decide as E; simpl; [done|]. split_and!; try done.
  unfold map_get. case_decide as E'; [by rewrite lookup_delete_eq|by rewrite lookup_insert_eq].
Qed.

(** The update branch leaves the object current, and reports a change
    exactly when it was not. *)
Lemma config_update ic pw sources containers hash :
  let r := update_config ic pw sources containers hash in
  config_current r.1 pw sources hash
  ∧ (r.2 = false <-> config_current ic pw sources hash) ∧ (r.2 = false -> r.1 = ic)
  ∧ ic_status r.1 = ic_status ic ∧ ic_name r.1 = ic_name ic ∧ ic_namespace r.1 = ic_namespace ic.
Proof.
  unfold update_config. cbv zeta. cbn [fst snd].
  destruct (datastream_update ic (CalculateDataStreamsLabels sources))
    as (L1 & _ & L2 & L3 & L4 & L5 & L6 & L7 & L8).
  set (r1 := updateDatastreamLabels _ _) in *. clearbody r1.
  destruct (overrides_update r1.1 containers hash) as (O1 & O2 & O3 & O4 & O5 & O6 & _).
  set (r2 := updateContainerOverride _ _ _) in *. clearbody r2.
  destruct (service_name_update r2.1 (calculateDesiredServiceName pw sources)) as (S1 & S2 & S3 & S4 & _ & S5 & S6).
  set (r3 := updateServiceName _ _) in *. clearbody r3.
  destruct (recovery_update r3.1 (rollback_recovery sources)) as (A1 & A2 & A3 & A4 & A5 & A6 & A7 & A8).
  set (r4 := updateRecoveredFromRollbackAt _ _) in *. clearbody r4.
  unfold config_current, ic_name, ic_namespace in *.
  assert (Hl : labels_current (om_labels (ic_meta r4.1)) (CalculateDataStreamsLabels sources))
    by (rewrite A4, S2, O2; done).
  split; [split; [done|split_and!]|split_and!].
  - by rewrite A2, S4.
  - by rewrite A2.
  - done.
  - rewrite !orb_false_iff, L2, O5, S5, A7, S2, O4, O2, L4, L8. tauto.
  - rewrite !orb_false_iff. intros (((E2 & E1) & E3) & E4).
    by rewrite (A8 E4), (S6 E3), (O6 E2), (L3 E1).
  - by rewrite A3, S3, O3, L5.
  - by rewrite A5, S2, O2, L6.
  - by rewrite A6, S2, O2, L7.
Qed.

(** The overrides are the given ones, unless the hash was theirs already. *)
Lemma config_update_overrides ic pw sources containers hash :
  let r := update_config ic pw sources containers hash in
  spec_overrides (ic_spec r.1) = containers
  ∨ spec_overrides_hash (ic_spec ic) = hash ∧ spec_overrides (ic_spec r.1) = spec_overrides (ic_spec ic).
Proof.
  unfold update_config. cbv zeta. cbn [fst snd].
  destruct (datastream_update ic (CalculateDataStreamsLabels sources)) as (_ & _ & _ & _ & L4 & _).
  set (r1 := updateDatastreamLabels _ _) in *. clearbody r1.
  destruct (overrides_update r1.1 containers hash) as (_ & _ & _ & _ & O5 & O6 & O7).
  set (r2 := updateContainerOverride _ _ _) in *. clearbody r2.
  destruct (service_name_update r2.1 (calculateDesiredServiceName pw sources)) as (_ & _ & _ & _ & S4 & _).
  set (r3 := updateServiceName _ _) in *. clearbody r3.
  destruct (recovery_update r3.1 (rollback_recovery sources)) as (_ & A2 & _).
  rewrite A2, S4. destruct (r2.2) eqn:E; [left; by apply O7|right].
  rewrite (O6 eq_refl), <-L4. split; [by apply O5|done].
Qed.

Lemma new_config_current name pw sources containers hash ic' :
  let ic := new_config name (pw_namespace pw) (calculateDesiredServiceName pw sources) containers hash
              (CalculateDataStreamsLabels sources) (rollback_recovery sources) in
  om_labels (ic_meta ic') = om_labels (ic_meta ic) ->
  om_annotations (ic_meta ic') = om_annotations (ic_meta ic) -> ic_spec ic' = ic_spec ic ->
  config_current ic' pw sources hash.
Proof.
  unfold new_config, config_current. simpl. intros -> -> ->. split; [|split_and!; try done].
  - split; [intros k v Hk; unfold map_get; by rewrite Hk|]. intros k [v Hk]. unfold removable. by rewrite Hk.
  - unfold map_get. case_decide as E; [by rewrite E|]. by rewrite lookup_singleton_eq.
Qed.
End ConfigFacts.

Section StatusFacts.
Context `{StatusConditionsLaws}.

(** Every condition is there, and the marking is the given one. *)
Definition settled (ic : InstrumentationConfig) (marked : Condition) : Prop :=
  FindStatusCondition (ic_conditions ic) MarkedForInstrumentationStatusConditionType = Some marked
  ∧ is_Some (FindStatusCondition (ic_conditions ic) RuntimeDetectionStatusConditionType)
  ∧ is_Some (FindStatusCondition (ic_conditions ic) AgentEnabledType)
  ∧ is_Some (FindStatusCondition (ic_conditions ic) PodsManifestInjectionType).

Lemma with_conditions_id ic : with_conditions ic (ic_conditions ic) = ic.
Proof. by destruct ic as [? ? []]. Qed.

Lemma settled_stable ic marked w :
  settled ic marked -> cond_type marked = MarkedForInstrumentationStatusConditionType ->
  update_conditions ic marked w = Done (ic, false).
Proof.
  intros (Hm & [r Hr] & [a Ha] & [p Hp]) Ht. unfold update_conditions.
  assert (E : (SetStatusCondition (ic_conditions ic) marked).2 = false) by (apply set_unchanged; by rewrite Ht).
  rewrite (set_unchanged_eq _ _ E), with_conditions_id, E.
  unfold initiateRuntimeDetailsConditionIfMissing. rewrite Hr. simpl.
  unfold initiateAgentEnabledConditionIfMissing. rewrite Ha. simpl.
  unfold initiatePodsManifestInjectionConditionIfMissing. rewrite Hp. done.
Qed.

(** Adding a condition of a type that is missing. *)
Definition set_if_missing (ic : InstrumentationConfig) (c : Condition) : InstrumentationConfig * bool :=
  match FindStatusCondition (ic_conditions ic) (cond_type c) with
  | Some _ => (ic, false)
  | None => (with_conditions ic (set_cond (ic_conditions ic) c), true)
  end.

Lemma set_if_missing_spec ic c :
  let r := set_if_missing ic c in
  (forall t, FindStatusCondition (ic_conditions r.1) t =
     if decide (t = cond_type c) then Some (default c (FindStatusCondition (ic_conditions ic) t))
     else FindStatusCondition (ic_conditions ic) t)
  ∧ ic_meta r.1 = ic_meta ic ∧ ic_spec r.1 = ic_spec ic
  ∧ (NoDup (cond_type <$> ic_conditions ic) -> NoDup (cond_type <$> ic_conditions r.1))
  ∧ (r.2 = false -> r.1 = ic).
Proof.
  unfold set_if_missing. destruct (FindStatusCondition _ _) as [d|] eqn:E; simpl; split_and!; try done.
  - intros t. case_decide as Ht; [by rewrite Ht, E|done].
  - intros t. change (ic_conditions (with_conditions ic ?l)) with l. rewrite find_set.
    case_decide as Ht; [by rewrite Ht, E|done].
  - apply set_keyed.
Qed.

Lemma initiate_runtime ic w :
  initiateRuntimeDetailsConditionIfMissing ic w = set_if_missing ic (initial_runtime_condition ic w).
Proof.
  unfold initiateRuntimeDetailsConditionIfMissing, set_if_missing.
  assert (cond_type (initial_runtime_condition ic w) = RuntimeDetectionStatusConditionType) as ->.
  { unfold initial_runtime_condition. by repeat case_match. }
  done.
Qed.

Lemma initiate_agent ic :
  is_Some (FindStatusCondition (ic_conditions ic) RuntimeDetectionStatusConditionType) ->
  exists r, initiateAgentEnabledConditionIfMissing ic = Done (set_if_missing ic (agent_condition r)).
Proof.
  intros [d Hd]. unfold initiateAgentEnabledConditionIfMissing, set_if_missing. rewrite Hd. simpl.
  eexists (if decide (cond_reason d = RuntimeDetectionReasonNoRunningPods)
           then AgentEnabledRuntimeDetailsUnavailable else AgentEnabledWaitingForRuntimeInspection).
  by destruct (FindStatusCondition (ic_conditions ic) AgentEnabledType).
Qed.

(** The conditions are always completed, without a nil dereference. *)
Lemma update_conditions_settles ic marked w :
  cond_type marked = MarkedForInstrumentationStatusConditionType ->
  exists ic' b, update_conditions ic marked w = Done (ic', b)
  ∧ settled ic' marked ∧ ic_meta ic' = ic_meta ic ∧ ic_spec ic' = ic_spec ic
  ∧ (NoDup (cond_type <$> ic_conditions ic) -> NoDup (cond_type <$> ic_conditions ic'))
  ∧ (b = false -> ic' = ic).
Proof.
  intros Ht. unfold update_conditions. rewrite initiate_runtime.
  change (SetStatusCondition (ic_conditions ic) marked).1 with (set_cond (ic_conditions ic) marked).
  set (b1 := (SetStatusCondition (ic_conditions ic) marked).2).
  set (ic1 := with_conditions ic (set_cond (ic_conditions ic) marked)).
  assert (Hsame : b1 = false -> ic1 = ic).
  { intros E. unfold ic1, set_cond. rewrite (set_unchanged_eq _ _ E). apply with_conditions_id. }
  assert (Hn1 : NoDup (cond_type <$> ic_conditions ic) -> NoDup (cond_type <$> ic_conditions ic1))
    by apply set_keyed.
  assert (Hf1 : forall t, FindStatusCondition (ic_conditions ic1) t =
                if decide (t = cond_type marked) then Some marked else FindStatusCondition (ic_conditions ic) t)
    by (intros t; apply find_set).
  assert (Hm1 : ic_meta ic1 = ic_meta ic ∧ ic_spec ic1 = ic_spec ic) by done. destruct Hm1 as [Hm1 Hs1].
  assert (Htr : cond_type (initial_runtime_condition ic1 w) = RuntimeDetectionStatusConditionType).
  { unfold initial_runtime_condition. by repeat case_match. }
  destruct (set_if_missing_spec ic1 (initial_runtime_condition ic1 w)) as (Hf2 & Hm2 & Hs2 & Hn2 & He2).
  rewrite Htr in Hf2. set (r2 := set_if_missing ic1 _) in *. clearbody r2.
  destruct (initiate_agent r2.1) as [r Hr]; [rewrite Hf2; by eexists|].
  rewrite Hr. simpl.
  destruct (set_if_missing_spec r2.1 (agent_condition r)) as (Hf3 & Hm3 & Hs3 & Hn3 & He3).
  set (r3 := set_if_missing r2.1 _) in *. clearbody r3. cbn [cond_type agent_condition] in Hf3.
  set (pods := mkCondition PodsManifestInjectionType (r_status PodsManifestInjectionNotYetReconciled)
                 (r_name PodsManifestInjectionNotYetReconciled) (r_message PodsManifestInjectionNotYetReconciled)).
  change (initiatePodsManifestInjectionConditionIfMissing r3.1) with (set_if_missing r3.1 pods).
  destruct (set_if_missing_spec r3.1 pods) as (Hf4 & Hm4 & Hs4 & Hn4 & He4).
  set (r4 := set_if_missing r3.1 _) in *. clearbody r4. cbn [cond_type pods] in Hf4.
  exists r4.1, (b1 || r2.2 || r3.2 || r4.2). split; [done|]. split; [|split_and!; [congruence..|tauto|]].
  - unfold settled. rewrite !Hf4, !Hf3, !Hf2, !Hf1, Ht. simpl. by split_and!; eexists.
  - rewrite !orb_false_iff. intros (((E1 & E2) & E3) & E4).
    by rewrite (He4 E4), (He3 E3), (He2 E2), (Hsame E1).
Qed.

Lemma sort_settled `{!GoSort} `{!GoSortLaws} ic marked :
  NoDup (cond_type <$> ic_conditions ic) -> settled ic marked ->
  settled (with_conditions ic (sortIcConditionsByLogicalOrder (ic_conditions ic))) marked.
Proof.
  intros Hnd. unfold settled. change (ic_conditions (with_conditions ic ?l)) with l.
  assert (Hf : forall t, FindStatusCondition (sortIcConditionsByLogicalOrder (ic_conditions ic)) t
                         = FindStatusCondition (ic_conditions ic) t).
  { intros t. symmetry. apply find_permuted; [|done]. symmetry. apply SortFunc_perm. }
  by rewrite !Hf.
Qed.
End StatusFacts.

(** ** The sync *)

Section SyncFacts.
Context `{StatusConditionsLaws} `{GoSortLaws} `{GoMapOrderLaws} `{GoLibrary} `{!Client} `{!ClientLaws _}.

Definition config_key (pw : PodWorkload) : string :=
  CalculateWorkloadRuntimeObjectName (pw_name pw) (pw_kind pw).

(** A failed write to a config that exists is reported, as an error or as a
    request to come back. *)
Definition failures_reported : Prop :=
  forall c ic old e c', GetIC c (ic_namespace ic) (ic_name ic) = inr old ->
    UpdateIC c ic = (inl e, c') ∨ UpdateICStatus c ic = (inl e, c') ->
    K8SUpdateErrorHandler e <> (no_result, None).

(** The stored config is what the sources want, and its conditions are set. *)
Definition in_sync (c : Cluster) (pw : PodWorkload) (sources : WorkloadSources) (hash : string)
    (marked : Condition) : Prop :=
  exists ic, GetIC c (pw_namespace pw) (config_key pw) = inr ic
  ∧ config_current ic pw sources hash ∧ settled ic marked.

(** A stored hash that is the digest of some overrides is that of the stored
    ones. *)
Definition overrides_hashed (c : Cluster) (pw : PodWorkload) : Prop :=
  forall ic l, GetIC c (pw_namespace pw) (config_key pw) = inr ic ->
    spec_overrides_hash (ic_spec ic) = overrides_digest l ->
    overrides_digest (spec_overrides (ic_spec ic)) = overrides_digest l.

(** The stored overrides have this digest. *)
Definition stored_digest (c : Cluster) (pw : PodWorkload) (hash : string) : Prop :=
  forall ic, GetIC c (pw_namespace pw) (config_key pw) = inr ic ->
    overrides_digest (spec_overrides (ic_spec ic)) = hash.

Lemma same_inputs_trans c1 c2 c3 : same_inputs c1 c2 -> same_inputs c2 c3 -> same_inputs c1 c3.
Proof. unfold same_inputs. intros [-> ->] [-> ->]. done. Qed.

Context (pw : PodWorkload) (sources : WorkloadSources) (marked : Condition) (w : WorkloadView).
Hypothesis Hmarked : cond_type marked = MarkedForInstrumentationStatusConditionType.
Hypothesis Hreported : failures_reported.

Definition quiet_post (hashed : Prop) (s : St) (hash : string) (r : Result * option error) (s' : St) : Prop :=
  r = (no_result, None) ->
  in_sync (st_cluster s') pw sources hash marked ∧ same_inputs (st_cluster s) (st_cluster s')
  ∧ (hashed -> stored_digest (st_cluster s') pw hash).

Lemma sync_status_quiet (hashed : Prop) ic hash s :
  (hashed -> overrides_digest (spec_overrides (ic_spec ic)) = hash) ->
  GetIC (st_cluster s) (pw_namespace pw) (config_key pw) = inr ic ->
  NoDup (cond_type <$> ic_conditions ic) -> config_current ic pw sources hash ->
  wp (sync_status ic marked w) (quiet_post hashed s hash) s.
Proof.
  intros Hhash Hget Hnd Hcur. destruct (get_ic_name _ _ _ _ Hget) as [Hns Hn].
  destruct (update_conditions_settles ic marked w Hmarked) as (ic1 & b & Hu & Hset & Hm & Hs & Hnd1 & Hsame).
  unfold sync_status. wp_step. apply (wp_lift _ (ic1, b)); [done|]. simpl. destruct b.
  - wp_step. wp_step.
    set (ic2 := with_conditions ic1 (sortIcConditionsByLogicalOrder (ic_conditions ic1))) in *.
    assert (ic_namespace ic2 = ic_namespace ic ∧ ic_name ic2 = ic_name ic) as [Hns2 Hn2].
    { unfold ic2, ic_namespace, ic_name. simpl. by rewrite Hm. }
    destruct reply as [e|ic3]; wp_step; unfold quiet_post; simpl.
    + intros E. exfalso. apply (Hreported (st_cluster s) ic2 ic e c); [by rewrite Hns2, Hn2, Hns, Hn|by right|done].
    + intros _. destruct (update_status_ok _ _ _ _ Hreply) as (old & Hold & Hm3 & Hs3 & Hst3 & Hstored & Hin).
      rewrite Hns2, Hn2, Hns, Hn, Hget in Hold. injection Hold as <-.
      assert (Hget3 : GetIC c (pw_namespace pw) (config_key pw) = inr ic3).
      { unfold stored in Hstored. destruct Hm3 as (Hn3 & Hns3 & _).
        unfold ic_namespace, ic_name in *. by rewrite <-Hn3, <-Hns3, Hns, Hn in Hstored. }
      split; [|split; [done|]].
      2: { intros Hh ic' Hic'. simpl in Hic'. rewrite Hget3 in Hic'. injection Hic' as <-. rewrite Hs3. by apply Hhash. }
      exists ic3. split; [done|]. split; [by apply (config_current_same ic)|].
      assert (Hc : ic_conditions ic3 = ic_conditions ic2) by (unfold ic_conditions; by rewrite Hst3).
      unfold settled. rewrite Hc. apply sort_settled; auto.
  - wp_step. intros _. split; [|split; [done|]].
    + exists ic. rewrite (Hsame eq_refl) in Hset. done.
    + intros Hh ic' Hic'. rewrite Hget in Hic'. injection Hic' as <-. by apply Hhash.
Qed.

Lemma sync_enabled_quiet obj s :
  (forall ic, GetIC (st_cluster s) (pw_namespace pw) (config_key pw) = inr ic ->
     NoDup (cond_type <$> ic_conditions ic)) ->
  wp (sync_enabled pw obj sources marked w)
     (quiet_post (overrides_hashed (st_cluster s) pw) s
        (overrides_digest (desired_override sources <$> PodSpecContainers w))) s.
Proof.
  intros Hnd. unfold sync_enabled. set (containers := desired_override sources <$> _).
  set (hash := overrides_digest containers). wp_step. wp_step. fold (config_key pw).
  destruct (GetIC (st_cluster s) (pw_namespace pw) (config_key pw)) as [err|ic] eqn:Hget.
  - destruct (IsNotFound err); [|wp_step; by intros [=]].
    set (ic := new_config _ _ _ _ _ _ _). wp_step. unfold createInstrumentationConfigForWorkload.
    destruct (SetControllerReference obj ic) as [e|ic1] eqn:Href.
    + wp_step. wp_step. intros E. destruct (IsAlreadyExists e); discriminate.
    + destruct (set_reference_ok _ _ _ Href) as (Hs1 & _ & Hn1 & Hns1 & Hl1 & Ha1).
      wp_step. destruct reply as [e|ic2]; [wp_step; intros E; destruct (IsAlreadyExists e); discriminate|].
      destruct (create_ok _ _ _ _ Hreply) as ((Hn2 & Hns2 & Hl2 & Ha2 & _) & Hs2 & Hst2 & Hstored & Hin).
      eapply wp_mono; [apply (sync_status_quiet True ic2 hash)|]; simpl.
      * intros _. by rewrite Hs2, Hs1.
      * unfold stored, ic_namespace, ic_name in *. rewrite <-Hns2, <-Hn2, Hns1, Hn1 in Hstored. done.
      * unfold ic_conditions. rewrite Hst2. constructor.
      * eapply (new_config_current (config_key pw) pw sources containers hash);
          unfold ic in *; congruence.
      * intros r s' Hq E. destruct (Hq E) as (? & ? & ?). split; [done|]. split; [by eapply same_inputs_trans|auto].
  - destruct (get_ic_name _ _ _ _ Hget) as [Hns Hn].
    destruct (config_update ic pw sources containers hash) as (Hcur & Hflag & Hsame & Hst & Hn1 & Hns1).
    pose proof (config_update_overrides ic pw sources containers hash) as Hover. cbv zeta in Hover.
    assert (Hdigest : overrides_hashed (st_cluster s) pw ->
      overrides_digest (spec_overrides (ic_spec (update_config ic pw sources containers hash).1)) = hash).
    { intros Hh. destruct Hover as [->|[Hhash ->]]; [done|]. by apply (Hh ic). }
    clear Hover. set (r := update_config ic pw sources containers hash) in *. clearbody r.
    destruct (r.2) eqn:Hr.
    + wp_step. wp_step.
      assert (Hget1 : GetIC (st_cluster s) (ic_namespace r.1) (ic_name r.1) = inr ic) by (rewrite Hns1, Hn1; congruence).
      destruct reply as [e|ic2].
      * wp_step. intros E. exfalso. by eapply (Hreported (st_cluster s) r.1 ic e c); [|left|].
      * destruct (update_ok _ _ _ _ Hreply) as (old & Hold & Hm2 & Hs2 & Hst2 & Hstored & Hin).
        assert (old = ic) as -> by congruence.
        eapply wp_mono; [apply (sync_status_quiet (overrides_hashed (st_cluster s) pw) ic2 hash)|]; simpl.
        -- by rewrite Hs2.
        -- destruct Hm2 as (Hn2 & Hns2 & _). unfold stored, ic_namespace, ic_name in *. congruence.
        -- unfold ic_conditions. rewrite Hst2. by apply Hnd.
        -- by eapply config_current_same.
        -- intros r' s' Hq E. destruct (Hq E) as (? & ? & ?). split; [done|]. split; [by eapply same_inputs_trans|done].
    + rewrite (Hsame eq_refl) in *. apply sync_status_quiet; [done|done|by apply Hnd|by apply Hflag].
Qed.

Lemma sync_enabled_noop obj s :
  in_sync (st_cluster s) pw sources (overrides_digest (desired_override sources <$> PodSpecContainers w)) marked ->
  sync_enabled pw obj sources marked w s = Done ((no_result, None), s).
Proof.
  intros (ic & Hget & Hcur & Hset). unfold sync_enabled, mbind, M_bind, read. cbn [go_bind fst snd].
  fold (config_key pw). rewrite Hget. set (containers := desired_override sources <$> _) in *.
  destruct (config_update ic pw sources containers (overrides_digest containers)) as (_ & Hflag & Hsame & _).
  set (r := update_config ic pw sources containers _) in *. clearbody r.
  rewrite (proj2 Hflag Hcur), (Hsame (proj2 Hflag Hcur)).
  unfold sync_status, mbind, M_bind, lift. by rewrite (settled_stable ic marked w Hset Hmarked).
Qed.
End SyncFacts.

Section SyncProperties.
Context `{StatusConditionsLaws} `{GoSortLaws} `{GoMapOrderLaws} `{GoLibrary} `{!Client} `{!ClientLaws _}.

Lemma get_sources_same c c' pw : same_inputs c c' -> GetSources c pw = GetSources c' pw.
Proof. intros [_ E]. unfold GetSources. by rewrite E. Qed.

Lemma marked_type sources b cond :
  IsObjectInstrumentedBySource sources = (b, cond, None) ->
  cond_type cond = MarkedForInstrumentationStatusConditionType ∧ exists ws, sources = inr ws.
Proof.
  unfold IsObjectInstrumentedBySource, instrumented_by_namespace. intros E.
  repeat case_match; simplify_eq; simpl; eauto.
Qed.

(** What the cluster looks like once a workload is in sync. *)
Definition synced (c : Cluster) (pw : PodWorkload) (obj : Object) : Prop :=
  match GetSources c pw with
  | inl _ => False
  | inr sources =>
      match IsObjectInstrumentedBySource (inr sources) with
      | (_, _, Some _) => False
      | (false, _, None) => exists e, GetIC c (pw_namespace pw) (config_key pw) = inl e ∧ IsNotFound e = true
      | (true, marked, None) =>
          exists w, ObjectToWorkload obj = inr w
          ∧ in_sync c pw sources (overrides_digest (desired_override sources <$> PodSpecContainers w)) marked
      end
  end.

(** The overrides of its containers are stored with it. *)
Definition overrides_stored (c : Cluster) (pw : PodWorkload) (obj : Object) : Prop :=
  forall sources w, GetSources c pw = inr sources -> ObjectToWorkload obj = inr w ->
    stored_digest c pw (overrides_digest (desired_override sources <$> PodSpecContainers w)).

Definition keyed_conditions (c : Cluster) (pw : PodWorkload) : Prop :=
  forall ic, GetIC c (pw_namespace pw) (config_key pw) = inr ic -> NoDup (cond_type <$> ic_conditions ic).

(** The sync returns, and when it reports nothing the workload is in sync. *)
Lemma sync_wp pw s :
  failures_reported -> keyed_conditions (st_cluster s) pw ->
  wp (syncWorkload pw) (fun r s' => r = (no_result, None) ->
    match GetObject (st_cluster s) (ClientObjectFromWorkloadKind (pw_kind pw)) (pw_namespace pw) (pw_name pw) with
    | inl _ => s' = s
    | inr obj => same_inputs (st_cluster s) (st_cluster s') ∧ synced (st_cluster s') pw obj
                 ∧ (overrides_hashed (st_cluster s) pw -> overrides_stored (st_cluster s') pw obj)
    end) s.
Proof.
  intros Hrep Hkeys. unfold syncWorkload. wp_step. wp_step.
  destruct (GetObject _ _ _ _) as [err|obj]; [by wp_step|]. wp_step. wp_step.
  destruct (IsObjectInstrumentedBySource (GetSources (st_cluster s) pw)) as [[enabled marked] [err|]] eqn:Hi.
  { destruct enabled; wp_step; by intros [=]. }
  destruct (marked_type _ _ _ Hi) as [Ht [ws Hws]]. rewrite Hws in *.
  destruct enabled.
  - destruct (ObjectToWorkload obj) as [e|w] eqn:Hw; [wp_step; by intros [=]|].
    eapply wp_mono; [by apply sync_enabled_quiet|]. intros r s' Hq E. destruct (Hq E) as (Hin & Hsame & Hdig).
    split; [done|]. split.
    + unfold synced. rewrite <-(get_sources_same _ _ _ Hsame), Hws, Hi. eauto.
    + intros Hh sources w'. rewrite <-(get_sources_same _ _ _ Hsame), Hws, Hw. intros [= <-] [= <-]. by apply Hdig.
  - wp_step. unfold deleteWorkloadInstrumentationConfig. wp_step. wp_step. wp_step. wp_step.
    fold (config_key pw) in Hreply.
    assert (Hgone : reply = None ∨ (exists e, reply = Some e ∧ IsNotFound e = true) ->
              same_inputs (st_cluster s) c ∧
              exists e, GetIC c (pw_namespace pw) (config_key pw) = inl e ∧ IsNotFound e = true).
    { intros [->|(e & -> & He)].
      - destruct (delete_ok _ _ _ _ Hreply) as [? ?]. done.
      - destruct (delete_not_found _ _ _ _ _ Hreply He) as [-> ?]. done. }
    intros E. destruct Hgone as [Hsame Hgone].
    { destruct reply as [e|]; [|by left]. right. exists e. unfold IgnoreNotFound in E.
      destruct (IsNotFound e); [done|discriminate]. }
    split; [done|]. split.
    + unfold synced. by rewrite <-(get_sources_same _ _ _ Hsame), Hws, Hi.
    + intros _ sources w _ _ ic Hic. destruct Hgone as (e & He & _). simpl in Hic. congruence.
Qed.

(** C4: a sync of a workload always returns, never panics, and when it
    reports neither an error nor a requeue it has established what the
    sources ask for: no config when the workload is not marked; otherwise one
    config with the overrides of its containers (those stored have the digest
    of those that are asked for), their hash, the service name, the data
    stream labels and the recovery request of its sources, marked by the
    source that applies and with every condition initiated.  The API server
    reports a failed write, stores conditions once per type, and the hash
    stored before was that of the overrides stored with it. *)
Theorem sync_establishes (pw : PodWorkload) (s : St) :
  failures_reported -> keyed_conditions (st_cluster s) pw -> overrides_hashed (st_cluster s) pw ->
  exists r s', syncWorkload pw s = Done (r, s')
  ∧ (r = (no_result, None) ->
     forall obj, GetObject (st_cluster s) (ClientObjectFromWorkloadKind (pw_kind pw))
                   (pw_namespace pw) (pw_name pw) = inr obj ->
     synced (st_cluster s') pw obj ∧ overrides_stored (st_cluster s') pw obj).
Proof.
  intros Hrep Hkeys Hhash. destruct (sync_wp pw s Hrep Hkeys) as (r & s' & Hrun & Hpost).
  exists r, s'. split; [done|]. intros E obj Hobj. specialize (Hpost E). rewrite Hobj in Hpost. tauto.
Qed.

(** C5: the sync converges in one step: run again on the state it left, it
    writes nothing and reports nothing. *)
Theorem sync_converges (pw : PodWorkload) (s s' : St) :
  failures_reported -> keyed_conditions (st_cluster s) pw ->
  syncWorkload pw s = Done ((no_result, None), s') ->
  syncWorkload pw s' = Done ((no_result, None), s').
Proof.
  intros Hrep Hkeys Hrun. pose proof (wp_run _ _ _ _ _ (sync_wp pw s Hrep Hkeys) Hrun eq_refl) as Hpost.
  simpl in Hpost.
  destruct (GetObject (st_cluster s) _ _ _) as [err|obj] eqn:Hobj; [by subst|].
  destruct Hpost as (Hsame & Hsync & _).
  unfold syncWorkload, mbind, M_bind, read. cbn [go_bind fst snd].
  rewrite <-(proj1 Hsame), Hobj. unfold synced in Hsync.
  destruct (GetSources (st_cluster s') pw) as [e|ws]; [done|].
  destruct (IsObjectInstrumentedBySource (inr ws)) as [[[] marked] [e|]] eqn:Hi; [done| |done|].
  - destruct Hsync as (w & -> & Hin). destruct (marked_type _ _ _ Hi) as [Ht _]. by apply sync_enabled_noop.
  - destruct Hsync as (e & He & Hnf). unfold deleteWorkloadInstrumentationConfig, mbind, M_bind, write.
    fold (config_key pw). destruct (delete_missing _ _ _ _ He Hnf) as (e' & Hd & Hnf').
    rewrite Hd. simpl. unfold IgnoreNotFound. rewrite Hnf'. by destruct s'.
Qed.
End SyncProperties.

(** ** Witnesses *)

Lemma store_failures_reported : @failures_reported store_client.
Proof.
  intros c ic old e c' Hget. simpl in *. unfold store_update, store_update_status. rewrite Hget.
  by intros [|].
Qed.

Section Witnesses.
#[local] Existing Instances sample_library order_forward order_forward_laws.

Lemma sample_keyed : @keyed_conditions store_client sample_store sample_pw.
Proof. intros ic. simpl. unfold store_get_ic. vm_compute. discriminate. Qed.

Lemma sample_hashed : @overrides_hashed sample_library store_client sample_store sample_pw.
Proof. intros ic l. simpl. unfold store_get_ic. vm_compute. discriminate. Qed.

Lemma sample_sync : exists s', syncWorkload sample_pw sample_state = Done ((no_result, None), s').
Proof.
  destruct (run_result (syncWorkload sample_pw) sample_state (fun r => r = (no_result, None)))
    as (r & s' & E & ->); [by vm_compute|eauto].
Qed.

Lemma sync_establishes_witness :
  exists s', syncWorkload sample_pw sample_state = Done ((no_result, None), s')
  ∧ synced (st_cluster s') sample_pw (ODeployment sample_deployment)
  ∧ overrides_stored (st_cluster s') sample_pw (ODeployment sample_deployment).
Proof.
  destruct sample_sync as [s' Hs].
  destruct (sync_establishes sample_pw sample_state store_failures_reported sample_keyed sample_hashed)
    as (r & s1 & Hrun & Hpost).
  assert (r = (no_result, None) ∧ s1 = s') as [-> ->] by (split; congruence).
  exists s'. split; [done|]. apply Hpost; [done|]. reflexivity.
Defined.

Lemma sync_converges_witness :
  exists s', syncWorkload sample_pw sample_state = Done ((no_result, None), s')
  ∧ syncWorkload sample_pw s' = Done ((no_result, None), s').
Proof.
  destruct sample_sync as [s' Hs]. exists s'. split; [done|].
  by apply (sync_converges sample_pw sample_state s' store_failures_reported sample_keyed).
Defined.
End Witnesses.
