(* ===== verification/RuleMerge.v ===== *)
(** * Merging the instrumentation rules of a container

    common/mergeconfig/utils.go and the per-feature merges of
    instrumentor/controllers/agentenabled/dynamicconfig: payload collection,
    eBPF log capture, code attributes, agent diagnostics, headers, custom
    instrumentations, trace verbosity, network metrics.

    The payload collection and the log capture are merged in place, through
    the pointer of the first rule that has one: these two thread the [Heap]. *)

From S2P Require Import Prelude.
From S2P Require Import GoLib.
From S2P Require Import Api.
From S2P Require Import Status.
From S2P Require Import Workload.
From S2P Require Import Samples.

(** ** mergeconfig *)
Section MergeConfig.
Context `{GoMapOrder}.

Definition MergeStringArrays (a1 a2 : option (list string)) : option (list string) :=
  match a1, a2 with
  | None, _ => a2
  | _, None => a1
  | Some a1, Some a2 => Some (map_order (elements (list_to_set a1 ∪ list_to_set a2 : gset string)))
  end.

Definition MergeOptionalIntChooseLower (p1 p2 : option Z) : option Z :=
  match p1, p2 with
  | None, _ => p2
  | _, None => p1
  | Some a, Some b => if decide (a < b)%Z then p1 else p2
  end.

Definition MergeOptionalBools (p1 p2 : option bool) : option bool :=
  match p1, p2 with
  | None, _ => p2
  | _, None => p1
  | Some a, Some b => if a then p1 else if b then p2 else Some false
  end.

(** ** Payload collection *)

Definition DbQuerySanitizationPolicyPriority (policy : string) : Z :=
  switch policy [("sanitized", 3%Z); ("sanitized-or-full", 2%Z); ("full", 1%Z)] 0%Z.

Definition mergeDbQuerySanitizationPolicy (p1 p2 : option string) : option string :=
  match p1, p2 with
  | None, None => None
  | None, _ => p2
  | _, None => p1
  | Some a, Some b =>
      if decide (DbQuerySanitizationPolicyPriority a >= DbQuerySanitizationPolicyPriority b)%Z
      then p1 else p2
  end.

Definition mergeHttpPayloadCollectionRules (p1 p2 : option HttpPayloadCollection)
    : option HttpPayloadCollection :=
  match p1, p2 with
  | None, _ => p2
  | _, None => p1
  | Some p1, Some p2 =>
      Some (mkHttpPayload (MergeStringArrays (hp_mime_types p1) (hp_mime_types p2))
              (MergeOptionalIntChooseLower (hp_max_length p1) (hp_max_length p2))
              (MergeOptionalBools (hp_drop_partial p1) (hp_drop_partial p2)))
  end.

Definition mergeDbPayloadCollectionRules (p1 p2 : option DbQueryPayloadCollection)
    : option DbQueryPayloadCollection :=
  match p1, p2 with
  | None, _ => p2
  | _, None => p1
  | Some p1, Some p2 =>
      Some (mkDbPayload (MergeOptionalIntChooseLower (dbp_max_length p1) (dbp_max_length p2))
              (MergeOptionalBools (dbp_drop_partial p1) (dbp_drop_partial p2))
              (mergeDbQuerySanitizationPolicy (dbp_sanitization p1) (dbp_sanitization p2)))
  end.

Definition mergeMessagingPayloadCollectionRules (p1 p2 : option MessagingPayloadCollection)
    : option MessagingPayloadCollection :=
  match p1, p2 with
  | None, _ => p2
  | _, None => p1
  | Some p1, Some p2 =>
      Some (mkMessagingPayload (MergeOptionalIntChooseLower (mp_max_length p1) (mp_max_length p2))
              (MergeOptionalBools (mp_drop_partial p1) (mp_drop_partial p2)))
  end.

(** The fields of [*p1] after [mergePayloadCollectionConfigs(p1, p2)]. *)
Definition merge_payload (v1 v2 : PayloadCollection) : PayloadCollection :=
  mkPayloadCollection
    (match pc_http_request v2 with
     | Some _ => mergeHttpPayloadCollectionRules (pc_http_request v1) (pc_http_request v2)
     | None => pc_http_request v1 end)
    (match pc_http_response v2 with
     | Some _ => mergeHttpPayloadCollectionRules (pc_http_response v1) (pc_http_response v2)
     | None => pc_http_response v1 end)
    (match pc_db_query v2 with
     | Some _ => mergeDbPayloadCollectionRules (pc_db_query v1) (pc_db_query v2)
     | None => pc_db_query v1 end)
    (match pc_messaging v2 with
     | Some _ => mergeMessagingPayloadCollectionRules (pc_messaging v1) (pc_messaging v2)
     | None => pc_messaging v1 end).

(** In place: [p1] points to the merged configuration afterwards. *)
Definition mergePayloadCollectionConfigs (h : Heap) (p1 p2 : option ptr) : Heap * option ptr :=
  match p1, p2 with
  | None, _ => (h, p2)
  | _, None => (h, p1)
  | Some a, Some b => (set_payload h a (merge_payload (get_payload h a) (get_payload h b)), p1)
  end.

Definition DistroSupportsTracesPayloadCollection (d : OtelDistro) : bool :=
  match d_traces d with Some t => deref_bool (dtr_payload_collection t) | None => false end.

Definition CalculatePayloadCollectionConfig (h : Heap) (d : OtelDistro)
    (irls : list InstrumentationRule) : Heap * option ptr :=
  if negb (DistroSupportsTracesPayloadCollection d) then (h, None)
  else foldl (fun '(h, p) irl => mergePayloadCollectionConfigs h p (ir_payload_collection irl))
             (h, None) irls.
End MergeConfig.

(** ** eBPF log capture *)

Definition mergeEbpfLogCapture (h : Heap) (existing incoming : option ptr) : Heap * option ptr :=
  match incoming with
  | None => (h, existing)
  | Some i =>
      match existing with
      | None => (h, incoming)
      | Some e =>
          match elc_enabled (get_ebpf h i) with
          | Some true => (set_ebpf h e (mkEbpfLogCapture (Some true)), existing)
          | _ => (h, existing)
          end
      end
  end.

Definition CalculateEbpfLogCaptureConfig (h : Heap) (irls : list InstrumentationRule)
    : Heap * option ptr :=
  foldl (fun '(h, p) irl => mergeEbpfLogCapture h p (ir_ebpf_log_capture irl)) (h, None) irls.

(** ** Code attributes *)

Definition DistroSupportsTracesCodeAttributes (d : OtelDistro) : bool :=
  match d_traces d with Some t => deref_bool (dtr_code_attributes t) | None => false end.

Definition merge2RuleBooleans (value1 value2 : option bool) : option bool :=
  match value1, value2 with
  | None, _ => value2
  | _, None => value1
  | Some a, Some b => Some (a || b)
  end.

Definition mergeCodeAttributesRules (rule1 rule2 : option CodeAttributes) : option CodeAttributes :=
  match rule1, rule2 with
  | None, _ => rule2
  | _, None => rule1
  | Some r1, Some r2 =>
      Some (mkCodeAttributes
              (merge2RuleBooleans (ca_column r1) (ca_column r2))
              (merge2RuleBooleans (ca_file_path r1) (ca_file_path r2))
              (merge2RuleBooleans (ca_function r1) (ca_function r2))
              (merge2RuleBooleans (ca_line_number r1) (ca_line_number r2))
              (merge2RuleBooleans (ca_namespace r1) (ca_namespace r2))
              (merge2RuleBooleans (ca_stacktrace r1) (ca_stacktrace r2)))
  end.

Definition CalculateCodeAttributesConfig (d : OtelDistro) (irls : list InstrumentationRule)
    : option CodeAttributes :=
  if negb (DistroSupportsTracesCodeAttributes d) then None
  else foldl (fun c irl => mergeCodeAttributesRules c (ir_code_attributes irl)) None irls.

(** ** Agent diagnostics *)

Definition LogLevelError := "error".
Definition LogLevelWarn := "warn".
Definition LogLevelInfo := "info".
Definition LogLevelDebug := "debug".

(** The receiver's rank; the argument is not looked at. *)
Definition LogLevel_Compare (l other : string) : Z :=
  switch l [(LogLevelError, 10%Z); (LogLevelWarn, 20%Z); (LogLevelInfo, 30%Z); (LogLevelDebug, 40%Z)] 0%Z.

Definition mergeLogLevel (existing incoming : option string) : option string :=
  match incoming, existing with
  | None, _ => existing
  | _, None => incoming
  | Some i, Some e => if decide (LogLevel_Compare i e > 0)%Z then incoming else existing
  end.

Definition DistroSupportsAgentDiagnostics (d : OtelDistro) : bool :=
  match d_own_diagnostics d with Some _ => true | None => false end.

Definition mergeAgentDiagnostics (existing incoming : option AgentDiagnostics)
    (distroSupport : DistroOwnDiagnostics) : option AgentDiagnostics :=
  match incoming, existing with
  | None, _ => existing
  | _, None => incoming
  | Some i, Some e =>
      Some (mkAgentDiagnostics
              (if dod_own_logger distroSupport
               then mergeLogLevel (ad_odigos_log_level e) (ad_odigos_log_level i) else None)
              (if dod_otel_logger distroSupport
               then mergeLogLevel (ad_otel_components_log_level e) (ad_otel_components_log_level i)
               else None))
  end.

Definition CalculateAgentDiagnostics (irls : list InstrumentationRule) (d : OtelDistro)
    : option AgentDiagnostics :=
  match d_own_diagnostics d with
  | None => None
  | Some support =>
      foldl (fun a irl => mergeAgentDiagnostics a (ir_agent_diagnostics irl) support) None irls
  end.

(** ** Headers, network metrics *)

Definition DistroSupportsTracesHeadersCollection (d : OtelDistro) : bool :=
  match d_traces d with Some t => deref_bool (dtr_headers_collection t) | None => false end.

Definition CalculateHeaderCollectionConfig (d : OtelDistro) (irls : list InstrumentationRule)
    : option (list string) :=
  if negb (DistroSupportsTracesHeadersCollection d) then None
  else
    let keys := foldl (fun acc irl => match ir_headers_collection irl with
                                      | Some ks => acc ++ ks
                                      | None => acc
                                      end) [] irls in
    if decide (keys = []) then None else Some keys.

Definition mergeNetworkMetrics (existing incoming : option unit) : option unit :=
  match incoming with None => existing | Some _ => incoming end.

Definition CalculateNetworkMetricsConfig (irls : list InstrumentationRule) : option unit :=
  foldl (fun r irl => mergeNetworkMetrics r (ir_network_metrics irl)) None irls.

(** ** Custom instrumentations *)

Definition DistroSupportsCustomInstrumentations (d : OtelDistro) : bool :=
  match d_traces d with Some t => deref_bool (dtr_custom_instrumentations t) | None => false end.

Definition empty_custom : CustomInstrumentations := mkCustomInstrumentations [] [] [] [].

Definition mergeCustomInstrumentations (existing incoming : option CustomInstrumentations)
    (lang : string) : option CustomInstrumentations :=
  match incoming with
  | None => existing
  | Some i =>
      let e := default empty_custom existing in
      Some (switch lang
        [(GoProgrammingLanguage,
           mkCustomInstrumentations (ci_golang e ++ ci_golang i) (ci_java e) (ci_cpp e) (ci_php e));
         (JavaProgrammingLanguage,
           mkCustomInstrumentations (ci_golang e) (ci_java e ++ ci_java i) (ci_cpp e) (ci_php e));
         (PhpProgrammingLanguage,
           mkCustomInstrumentations (ci_golang e) (ci_java e) (ci_cpp e) (ci_php e ++ ci_php i))]
        e)
  end.

Definition CalculateCustomInstrumentationsConfig (d : OtelDistro) (irls : list InstrumentationRule)
    : option CustomInstrumentations :=
  if negb (DistroSupportsCustomInstrumentations d) then None
  else foldl (fun r irl => mergeCustomInstrumentations r (ir_custom_instrumentations irl) (d_language d))
             None irls.

(** ** Trace verbosity *)

Definition DistroSupportsTracesVerbosity (d : OtelDistro) : bool :=
  match d_traces d with
  | Some t => match dtr_trace_verbosity t with Some _ => true | None => false end
  | None => false
  end.

Definition filterLibrariesForLanguage (libraries : list InstrumentationLibrary) (language : string)
    : list InstrumentationLibrary :=
  filter (fun l => il_language l = language) libraries.

Definition traceVerbosityForLanguage (tv : option TraceVerbosity) (language : string)
    : option TraceVerbosity :=
  match tv with
  | None => None
  | Some tv =>
      let filteredDisabled := filterLibrariesForLanguage (tv_disabled tv) language in
      let filteredEnabled := filterLibrariesForLanguage (tv_enabled tv) language in
      if decide (length filteredDisabled = 0 ∧ length filteredEnabled = 0) then None
      else Some (mkTraceVerbosity filteredDisabled filteredEnabled)
  end.

Definition mergeTraceVerbosityConfigs (v1 v2 : option TraceVerbosity) : option TraceVerbosity :=
  match v1, v2 with
  | None, _ => v2
  | _, None => v1
  | Some v1, Some v2 =>
      Some (mkTraceVerbosity (tv_disabled v1 ++ tv_disabled v2) (tv_enabled v1 ++ tv_enabled v2))
  end.

Definition CalculateTraceVerbosityConfig (d : OtelDistro) (irls : list InstrumentationRule)
    : option TraceVerbosity :=
  if negb (DistroSupportsTracesVerbosity d) then None
  else foldl (fun v irl =>
                mergeTraceVerbosityConfigs v
                  (traceVerbosityForLanguage (ir_trace_verbosity irl) (d_language d)))
             (Some (mkTraceVerbosity [] [])) irls.

(** ** Payload collection: the heap version is a fold of the pure merge *)

Section PayloadFacts.
Context `{GoMapOrder}.
Implicit Types (h : Heap) (v w : PayloadCollection) (irls : list InstrumentationRule).

Definition payload_ptrs irls : list ptr := omap ir_payload_collection irls.

Lemma get_set_payload h a b v :
  get_payload (set_payload h a v) b = if decide (b = a) then v else get_payload h b.
Proof.
  unfold get_payload, set_payload. simpl. case_decide as Hd.
  - subst. by rewrite lookup_insert_eq.
  - by rewrite lookup_insert_ne.
Qed.

Local Abbreviation step :=
  (fun '(h, p) irl => mergePayloadCollectionConfigs h p (ir_payload_collection irl)).

(** With the pointer [a] of an earlier rule in hand, the rules that follow
    are merged into the object at [a] and nothing else is written. *)
Lemma payload_fold irls h a :
  a ∉ payload_ptrs irls ->
  exists h', foldl step (h, Some a) irls = (h', Some a)
    ∧ get_payload h' a = foldl merge_payload (get_payload h a) (get_payload h <$> payload_ptrs irls)
    ∧ (forall b, b <> a -> get_payload h' b = get_payload h b)
    ∧ h_ebpf h' = h_ebpf h.
Proof.
  revert h. induction irls as [|irl irls IH]; intros h Ha; simpl; [by exists h|].
  unfold payload_ptrs in *. simpl in *.
  destruct (ir_payload_collection irl) as [b|]; simpl; [|by apply IH].
  apply not_elem_of_cons in Ha as [Hab Ha].
  destruct (IH (set_payload h a (merge_payload (get_payload h a) (get_payload h b))) Ha)
    as (h' & Hf & Hg & Ho & He).
  exists h'. split; [done|]. split_and!.
  - rewrite Hg, get_set_payload, decide_True by done. f_equal.
    apply list_fmap_ext. intros i c Hc%list_elem_of_lookup_2.
    rewrite get_set_payload, decide_False; [done|]. by intros ->.
  - intros c Hc. rewrite Ho, get_set_payload, decide_False by done. done.
  - done.
Qed.

Lemma payload_config_cases h d irls :
  DistroSupportsTracesPayloadCollection d = true -> NoDup (payload_ptrs irls) ->
  match payload_ptrs irls with
  | [] => CalculatePayloadCollectionConfig h d irls = (h, None)
  | a :: rest =>
      exists h', CalculatePayloadCollectionConfig h d irls = (h', Some a)
        ∧ get_payload h' a = foldl merge_payload (get_payload h a) (get_payload h <$> rest)
        ∧ (forall b, b <> a -> get_payload h' b = get_payload h b)
        ∧ h_ebpf h' = h_ebpf h
  end.
Proof.
  intros Hd. unfold CalculatePayloadCollectionConfig. rewrite Hd. simpl.
  induction irls as [|irl irls IH]; simpl; [done|].
  unfold payload_ptrs in *. simpl.
  destruct (ir_payload_collection irl) as [b|]; simpl; [|by apply IH].
  intros [Hb Hn]%NoDup_cons. by apply payload_fold.
Qed.

(** *** The merged configuration is at least as restrictive as each part *)

Definition length_le (a b : option Z) : Prop :=
  forall n, a = Some n -> exists m, b = Some m ∧ (m <= n)%Z.
Definition drop_le (a b : option bool) : Prop := a = Some true -> b = Some true.
Definition sanitization_le (a b : option string) : Prop :=
  forall x, a = Some x -> exists y, b = Some y
    ∧ (DbQuerySanitizationPolicyPriority x <= DbQuerySanitizationPolicyPriority y)%Z.

Definition http_le (a b : option HttpPayloadCollection) : Prop :=
  forall x, a = Some x -> exists y, b = Some y
    ∧ length_le (hp_max_length x) (hp_max_length y) ∧ drop_le (hp_drop_partial x) (hp_drop_partial y).
Definition db_le (a b : option DbQueryPayloadCollection) : Prop :=
  forall x, a = Some x -> exists y, b = Some y
    ∧ length_le (dbp_max_length x) (dbp_max_length y) ∧ drop_le (dbp_drop_partial x) (dbp_drop_partial y)
    ∧ sanitization_le (dbp_sanitization x) (dbp_sanitization y).
Definition messaging_le (a b : option MessagingPayloadCollection) : Prop :=
  forall x, a = Some x -> exists y, b = Some y
    ∧ length_le (mp_max_length x) (mp_max_length y) ∧ drop_le (mp_drop_partial x) (mp_drop_partial y).
Definition payload_le (v w : PayloadCollection) : Prop :=
  http_le (pc_http_request v) (pc_http_request w) ∧ http_le (pc_http_response v) (pc_http_response w)
  ∧ db_le (pc_db_query v) (pc_db_query w) ∧ messaging_le (pc_messaging v) (pc_messaging w).
End PayloadFacts.

Section PayloadOrder.
Context `{GoMapOrder}.

Lemma length_le_merge a b :
  length_le a (MergeOptionalIntChooseLower a b) ∧ length_le b (MergeOptionalIntChooseLower a b).
Proof.
  unfold length_le, MergeOptionalIntChooseLower.
  destruct a as [a|], b as [b|]; try case_decide; split; intros n Hn; simplify_eq; eexists; (split; [done|lia]).
Qed.

Lemma drop_le_merge a b :
  drop_le a (MergeOptionalBools a b) ∧ drop_le b (MergeOptionalBools a b).
Proof. unfold drop_le. by destruct a as [[]|], b as [[]|]. Qed.

Lemma sanitization_le_merge a b :
  sanitization_le a (mergeDbQuerySanitizationPolicy a b)
  ∧ sanitization_le b (mergeDbQuerySanitizationPolicy a b).
Proof.
  unfold sanitization_le, mergeDbQuerySanitizationPolicy.
  destruct a as [a|], b as [b|]; try case_decide; split; intros n Hn; simplify_eq; eexists; (split; [done|lia]).
Qed.

Lemma length_le_refl a : length_le a a.
Proof. intros n ->. by exists n. Qed.
Lemma sanitization_le_refl a : sanitization_le a a.
Proof. intros n ->. by exists n. Qed.
Lemma drop_le_refl a : drop_le a a.
Proof. by unfold drop_le. Qed.

#[local] Hint Resolve length_le_refl sanitization_le_refl drop_le_refl : odigos.

Lemma http_le_refl a : http_le a a.
Proof. intros x ->. eauto with odigos. Qed.
Lemma db_le_refl a : db_le a a.
Proof. intros x ->. eauto 6 with odigos. Qed.
Lemma messaging_le_refl a : messaging_le a a.
Proof. intros x ->. eauto with odigos. Qed.

Lemma length_le_trans a b c : length_le a b -> length_le b c -> length_le a c.
Proof. intros H1 H2 n Hn. destruct (H1 n Hn) as (m & Hm & ?). destruct (H2 m Hm) as (k & ? & ?). exists k. split; [done|lia]. Qed.
Lemma sanitization_le_trans a b c : sanitization_le a b -> sanitization_le b c -> sanitization_le a c.
Proof. intros H1 H2 n Hn. destruct (H1 n Hn) as (m & Hm & ?). destruct (H2 m Hm) as (k & ? & ?). exists k. split; [done|lia]. Qed.
Lemma drop_le_trans a b c : drop_le a b -> drop_le b c -> drop_le a c.
Proof. unfold drop_le. auto. Qed.

Lemma payload_le_refl v : payload_le v v.
Proof. repeat split; auto using http_le_refl, db_le_refl, messaging_le_refl. Qed.

Lemma payload_le_trans u v w : payload_le u v -> payload_le v w -> payload_le u w.
Proof.
  intros (A1 & A2 & A3 & A4) (B1 & B2 & B3 & B4). split_and!.
  - intros x Hx. destruct (A1 x Hx) as (y & Hy & ? & ?). destruct (B1 y Hy) as (z & Hz & ? & ?).
    eauto 6 using length_le_trans, drop_le_trans.
  - intros x Hx. destruct (A2 x Hx) as (y & Hy & ? & ?). destruct (B2 y Hy) as (z & Hz & ? & ?).
    eauto 6 using length_le_trans, drop_le_trans.
  - intros x Hx. destruct (A3 x Hx) as (y & Hy & ? & ? & ?). destruct (B3 y Hy) as (z & Hz & ? & ? & ?).
    eauto 8 using length_le_trans, drop_le_trans, sanitization_le_trans.
  - intros x Hx. destruct (A4 x Hx) as (y & Hy & ? & ?). destruct (B4 y Hy) as (z & Hz & ? & ?).
    eauto 6 using length_le_trans, drop_le_trans.
Qed.

Lemma http_le_merge a b :
  http_le a (mergeHttpPayloadCollectionRules a b) ∧ http_le b (mergeHttpPayloadCollectionRules a b).
Proof.
  destruct a as [a|], b as [b|]; simpl; split; try apply http_le_refl; intros x Hx; simplify_eq;
    eexists; (split; [done|]); simpl;
    split; first [apply length_le_merge|apply drop_le_merge].
Qed.

Lemma db_le_merge a b :
  db_le a (mergeDbPayloadCollectionRules a b) ∧ db_le b (mergeDbPayloadCollectionRules a b).
Proof.
  destruct a as [a|], b as [b|]; simpl; split; try apply db_le_refl; intros x Hx; simplify_eq;
    eexists; (split; [done|]); simpl;
    split_and!; first [apply length_le_merge|apply drop_le_merge|apply sanitization_le_merge].
Qed.

Lemma messaging_le_merge a b :
  messaging_le a (mergeMessagingPayloadCollectionRules a b)
  ∧ messaging_le b (mergeMessagingPayloadCollectionRules a b).
Proof.
  destruct a as [a|], b as [b|]; simpl; split; try apply messaging_le_refl; intros x Hx; simplify_eq;
    eexists; (split; [done|]); simpl;
    split; first [apply length_le_merge|apply drop_le_merge].
Qed.

(** A rule without a part leaves that part alone; else it is merged. *)
Lemma payload_le_merge v w : payload_le v (merge_payload v w) ∧ payload_le w (merge_payload v w).
Proof.
  split; split_and!; unfold merge_payload; simpl.
  all: match goal with
       | |- context [match ?o with Some _ => _ | None => _ end] => destruct o
       end;
    first [ by intros x Hx | apply http_le_merge | apply db_le_merge | apply messaging_le_merge
          | apply http_le_refl | apply db_le_refl | apply messaging_le_refl ].
Qed.

Lemma payload_le_fold vs v w :
  w ∈ v :: vs -> payload_le w (foldl merge_payload v vs).
Proof.
  revert v w. induction vs as [|u vs IH]; intros v w; simpl.
  { intros ->%list_elem_of_singleton. apply payload_le_refl. }
  intros [->|[->|Hw]%elem_of_cons]%elem_of_cons.
  - eapply payload_le_trans; [apply (payload_le_merge v u)|]. apply IH. left.
  - eapply payload_le_trans; [apply (payload_le_merge v u)|]. apply IH. left.
  - apply IH. by right.
Qed.
End PayloadOrder.

(** ** Properties *)

Section Properties.
Context `{GoMapOrder}.

(** The payload configuration a container gets is at least as
    restrictive as every rule of the container asks for: no rule's maximum
    length is exceeded, a rule that drops partial payloads is obeyed, and
    the sanitization policy is at least as strict. *)
Theorem payload_config_respects_rules (h : Heap) (d : OtelDistro) (irls : list InstrumentationRule) (p : ptr) :
  DistroSupportsTracesPayloadCollection d = true ->
  NoDup (payload_ptrs irls) -> p ∈ payload_ptrs irls ->
  exists h' a, CalculatePayloadCollectionConfig h d irls = (h', Some a)
    ∧ payload_le (get_payload h p) (get_payload h' a).
Proof.
  intros Hd Hn Hp. pose proof (payload_config_cases h d irls Hd Hn) as Hc.
  destruct (payload_ptrs irls) as [|a rest]; [by apply not_elem_of_nil in Hp|].
  destruct Hc as (h' & Hcalc & Hg & _). exists h', a. split; [done|].
  rewrite Hg. apply payload_le_fold.
  apply elem_of_cons in Hp as [->|Hp]; [left|right].
  apply list_elem_of_fmap. by exists p.
Qed.

(** The merge writes through the pointer of the first rule.  When two
    containers share their first rule and only one of them is in the scope
    of a second rule, both containers end with the merged configuration,
    whichever of them is processed first. *)
Theorem payload_merge_leaks_between_containers (h : Heap) (d : OtelDistro)
    (shared scoped : InstrumentationRule) (a b : ptr) :
  DistroSupportsTracesPayloadCollection d = true ->
  ir_payload_collection shared = Some a -> ir_payload_collection scoped = Some b -> a <> b ->
  forall first second,
    (first, second) = ([shared; scoped], [shared]) ∨ (first, second) = ([shared], [shared; scoped]) ->
    let r1 := CalculatePayloadCollectionConfig h d first in
    let r2 := CalculatePayloadCollectionConfig r1.1 d second in
    r1.2 = Some a ∧ r2.2 = Some a
    ∧ get_payload r2.1 a = merge_payload (get_payload h a) (get_payload h b).
Proof.
  intros Hd Ha Hb Hab first second Hor. unfold CalculatePayloadCollectionConfig.
  rewrite Hd. destruct Hor as [[= -> ->]|[= -> ->]]; simpl; rewrite Ha, Hb; simpl.
  all: by rewrite get_set_payload, decide_True.
Qed.
End Properties.

Lemma payload_config_respects_rules_witness :
  exists h' a, @CalculatePayloadCollectionConfig order_forward sample_heap sample_distro
      [rule_with_payload "a" None 0; rule_with_payload "b" None 1] = (h', Some a)
    ∧ payload_le (get_payload sample_heap 1) (get_payload h' a).
Proof.
  apply (@payload_config_respects_rules order_forward); [reflexivity| |right; left].
  apply (bool_decide_eq_true_1 (NoDup [0; 1])). reflexivity.
Defined.

Lemma payload_merge_leaks_between_containers_witness :
  let one := [rule_with_payload "a" None 0] in
  let both := [rule_with_payload "a" None 0; rule_with_payload "b" None 1] in
  let r1 := @CalculatePayloadCollectionConfig order_forward sample_heap sample_distro both in
  let r2 := @CalculatePayloadCollectionConfig order_forward r1.1 sample_distro one in
  r1.2 = Some 0 ∧ r2.2 = Some 0 ∧ get_payload r2.1 0 = @merge_payload order_forward (sample_payload 1024) (sample_payload 64).
Proof.
  exact (@payload_merge_leaks_between_containers order_forward sample_heap sample_distro
    (rule_with_payload "a" None 0) (rule_with_payload "b" None 1) 0 1
    eq_refl eq_refl eq_refl (fun H : 0 = 1 => O_S 0 H) _ _ (or_introl eq_refl)).
Defined.

(** Merging two log levels keeps the level of the later rule, whatever
    the levels are, as long as it is a known one: [Compare] ranks its receiver
    only.  In particular the more verbose level can be lost. *)
Theorem log_level_last_rule_wins (existing incoming : string) :
  incoming ∈ [LogLevelError; LogLevelWarn; LogLevelInfo; LogLevelDebug] ->
  mergeLogLevel (Some existing) (Some incoming) = Some incoming.
Proof.
  intros Hin. unfold mergeLogLevel, LogLevel_Compare.
  repeat (apply elem_of_cons in Hin as [->|Hin]; [reflexivity|]). by apply not_elem_of_nil in Hin.
Qed.

Lemma log_level_last_rule_wins_witness :
  LogLevelError ∈ [LogLevelError; LogLevelWarn; LogLevelInfo; LogLevelDebug]
  ∧ mergeLogLevel (Some LogLevelDebug) (Some LogLevelError) = Some LogLevelError.
Proof.
  split; [left|]. apply log_level_last_rule_wins. left.
Defined.

(** *** Code attributes: on when some rule switches it on *)

Definition code_attribute_fields : list (CodeAttributes -> option bool) :=
  [ca_column; ca_file_path; ca_function; ca_line_number; ca_namespace; ca_stacktrace].

Definition attribute_on (f : CodeAttributes -> option bool) (c : option CodeAttributes) : bool :=
  match c with Some c => deref_bool (f c) | None => false end.

Lemma attribute_on_merge f a b :
  f ∈ code_attribute_fields ->
  attribute_on f (mergeCodeAttributesRules a b) = attribute_on f a || attribute_on f b.
Proof.
  intros Hf. destruct a as [a|], b as [b|]; simpl; rewrite ?orb_false_r; try done.
  unfold code_attribute_fields in Hf.
  repeat (apply elem_of_cons in Hf as [->|Hf];
    [simpl; unfold merge2RuleBooleans, deref_bool; repeat case_match; simplify_eq/=; by rewrite ?orb_false_r|]).
  by apply not_elem_of_nil in Hf.
Qed.

(** A code attribute is recorded exactly when the distribution supports
    code attributes and some rule of the container switches it on. *)
Theorem code_attribute_on_iff (d : OtelDistro) (irls : list InstrumentationRule)
    (f : CodeAttributes -> option bool) :
  f ∈ code_attribute_fields ->
  attribute_on f (CalculateCodeAttributesConfig d irls) =
    DistroSupportsTracesCodeAttributes d
    && existsb (fun irl => attribute_on f (ir_code_attributes irl)) irls.
Proof.
  intros Hf. unfold CalculateCodeAttributesConfig.
  destruct (DistroSupportsTracesCodeAttributes d); simpl; [|done].
  assert (H : forall c, attribute_on f (foldl (fun c irl => mergeCodeAttributesRules c (ir_code_attributes irl)) c irls)
    = attribute_on f c || existsb (fun irl => attribute_on f (ir_code_attributes irl)) irls).
  { induction irls as [|irl irls IH]; intros c; simpl; [by rewrite orb_false_r|].
    by rewrite IH, attribute_on_merge, orb_assoc. }
  apply (H None).
Qed.

Lemma code_attribute_on_iff_witness :
  attribute_on ca_column (CalculateCodeAttributesConfig sample_distro [sample_rule "a"]) = false.
Proof.
  rewrite (code_attribute_on_iff sample_distro [sample_rule "a"] ca_column); [reflexivity|left].
Defined.

(** *** Trace verbosity *)

Lemma verbosity_fold lang irls v :
  foldl (fun v irl => mergeTraceVerbosityConfigs v (traceVerbosityForLanguage (ir_trace_verbosity irl) lang))
        (Some v) irls
  = Some (mkTraceVerbosity
      (tv_disabled v ++ irls ≫= fun irl => filterLibrariesForLanguage (from_option tv_disabled [] (ir_trace_verbosity irl)) lang)
      (tv_enabled v ++ irls ≫= fun irl => filterLibrariesForLanguage (from_option tv_enabled [] (ir_trace_verbosity irl)) lang)).
Proof.
  revert v. induction irls as [|irl irls IH]; intros v; simpl; [by destruct v; rewrite !app_nil_r|].
  destruct (ir_trace_verbosity irl) as [tv|]; simpl; [|by rewrite IH].
  case_decide as Hl; simpl.
  - destruct Hl as [H1%nil_length_inv H2%nil_length_inv]. rewrite IH. by rewrite H1, H2.
  - rewrite IH. simpl. by rewrite <- !app_assoc.
Qed.

(** The trace verbosity of a container lists, in rule order, exactly the
    libraries of the distribution's language that the container's rules
    disable or enable. *)
Theorem trace_verbosity_spec (d : OtelDistro) (irls : list InstrumentationRule) :
  CalculateTraceVerbosityConfig d irls =
    if DistroSupportsTracesVerbosity d then
      Some (mkTraceVerbosity
        (filterLibrariesForLanguage (irls ≫= fun irl => from_option tv_disabled [] (ir_trace_verbosity irl)) (d_language d))
        (filterLibrariesForLanguage (irls ≫= fun irl => from_option tv_enabled [] (ir_trace_verbosity irl)) (d_language d)))
    else None.
Proof.
  unfold CalculateTraceVerbosityConfig. destruct (DistroSupportsTracesVerbosity d); simpl; [|done].
  rewrite verbosity_fold. simpl.
  assert (Hb : forall (f : InstrumentationRule -> list InstrumentationLibrary),
    irls ≫= (fun irl => filterLibrariesForLanguage (f irl) (d_language d))
    = filterLibrariesForLanguage (irls ≫= f) (d_language d)).
  { intros f. induction irls as [|irl irls IH]; simpl; [done|].
    unfold filterLibrariesForLanguage in *. rewrite filter_app. f_equal. exact IH. }
  by rewrite !(Hb (fun irl => from_option _ [] (ir_trace_verbosity irl))).
Qed.
