(* ===== verification/ActionConfig.v ===== *)
(** * Configuration that actions add to a container

    URL templatization, query templatization, attribute inference, PII
    masking, span renaming and the id generator
    (instrumentor/controllers/agentenabled/dynamicconfig/traces). *)

From Stdlib Require Import Ascii.
From S2P Require Import Prelude.
From S2P Require Import GoStrings.
From S2P Require Import GoSort.
From S2P Require Import GoLib.
From S2P Require Import Api.
From S2P Require Import Status.
From S2P Require Import Workload.
From S2P Require Import Scope.
From S2P Require Import Samples.

Definition DistroSupportsTracesUrlTemplatization (d : OtelDistro) : bool :=
  match d_traces d with Some t => deref_bool (dtr_url_templatization t) | None => false end.

Section UrlTemplatization.
Context `{GoSort}.

Definition dedupeStatusCodes (codes : list Z) : list Z :=
  if decide (length codes <= 1) then codes else SortFunc int_compare (dedupe_by id [] codes).

Definition dedupeAndSortTemplates (templates : list string) : list string :=
  if decide (length templates <= 1) then templates
  else SortFunc string_compare (dedupe_by id [] templates).

Definition mergeDefaultTemplatizationSkipPolicyConfigs (c1 c2 : option SkipPolicyConfig)
    : option SkipPolicyConfig :=
  match c1, c2 with
  | None, _ => c2
  | _, None => c1
  | Some c1, Some c2 =>
      let skipForNonSuccessCodes := sp_non_success c1 || sp_non_success c2 in
      if skipForNonSuccessCodes then Some (mkSkipPolicy skipForNonSuccessCodes [])
      else Some (mkSkipPolicy false (sp_status_codes c1 ++ sp_status_codes c2))
  end.

Definition mergeDefaultTemplatizationConfigs (c1 c2 : option DefaultTemplatizationConfig)
    : option DefaultTemplatizationConfig :=
  match c1, c2 with
  | None, _ => c2
  | _, None => c1
  | Some c1, Some c2 =>
      let disabled := dt_disabled c1 || dt_disabled c2 in
      if disabled then Some (mkDefaultTemplatization disabled None)
      else Some (mkDefaultTemplatization disabled
             (mergeDefaultTemplatizationSkipPolicyConfigs (dt_skip_policy c1) (dt_skip_policy c2)))
  end.

(** The state of the loop over the actions: the merged default, whether
    a rule group matched, the templates. *)
Definition url_action_step (language : string) (pw : PodWorkload)
    (st : option DefaultTemplatizationConfig * bool * list string) (action : Action)
    : option DefaultTemplatizationConfig * bool * list string :=
  match ac_url_templatization action with
  | None => st
  | Some a =>
      let '(cfg, participating, templates) := st in
      let cfg := foldl (fun cfg d =>
        if SourceScopeMatchesContainer (ud_scopes d) pw language
        then mergeDefaultTemplatizationConfigs cfg (Some (ud_config d)) else cfg) cfg (ua_default a) in
      let '(participating, templates) := foldl (fun '(p, t) r =>
        if SourceScopeMatchesContainer (ur_scopes r) pw language
        then (true, t ++ ur_templates r) else (p, t)) (participating, templates) (ua_rules a) in
      (cfg, participating, templates)
  end.

(** [SkipPolicy.SkipHttpStatusCodes = dedupeStatusCodes(...)]. *)
Definition dedupe_skip_policy (c : DefaultTemplatizationConfig) : DefaultTemplatizationConfig :=
  match dt_skip_policy c with
  | Some sp => mkDefaultTemplatization (dt_disabled c)
                 (Some (mkSkipPolicy (sp_non_success sp) (dedupeStatusCodes (sp_status_codes sp))))
  | None => c
  end.

(** The assignment through [SkipPolicy] also writes into the action when a
    single default matched; deduplicating again changes nothing. *)
Definition CalculateUrlTemplatizationConfig (agentLevelActions : list Action)
    (language : string) (pw : PodWorkload) : option UrlTemplatizationConfig :=
  let '(cfg, participating, templates) :=
    foldl (url_action_step language pw) (None, false, []) agentLevelActions in
  let cfg := default (mkDefaultTemplatization false None) cfg in
  let participating := if negb (dt_disabled cfg) then true else participating in
  if negb participating then None
  else
    let cfg := dedupe_skip_policy cfg in
    let templates := dedupeAndSortTemplates templates in
    Some (mkUrlTemplatization templates (if dt_disabled cfg then None else Some cfg)).
End UrlTemplatization.

(** ** Query templatization and attribute inference *)

Definition CalculateDbQueryTemplatizationConfig (agentLevelActions : list Action)
    (language : string) (pw : PodWorkload) : option DbQueryTemplatizationConfig :=
  let '(literals, cast) := foldl (fun '(l, c) action =>
    match ac_db_query action with
    | None => (l, c)
    | Some a =>
        if SourceScopeMatchesContainer (da_scopes a) pw language
        then (l || dq_templatize_literals (da_config a), c || dq_remove_cast (da_config a)) else (l, c)
    end) (false, false) agentLevelActions in
  if negb literals && negb cast then None else Some (mkDbQueryTemplatization literals cast).

Fixpoint CalculateInferDbAttributesConfig (agentLevelActions : list Action)
    (language : string) (pw : PodWorkload) : option unit :=
  match agentLevelActions with
  | [] => None
  | action :: rest =>
      match ac_infer_db action with
      | None => CalculateInferDbAttributesConfig rest language pw
      | Some scopes =>
          if SourceScopeMatchesContainer scopes pw language then Some tt
          else CalculateInferDbAttributesConfig rest language pw
      end
  end.

(** ** PII masking *)

(** [masking.LookupKey + "\x00" + string(masking.DataFormat)]. *)
Definition format_key (m : CustomFormatMasking) : string :=
  fm_lookup_key m +:+ String "000"%char (fm_data_format m).

Record PiiState := mkPiiState
  { ps_seen_categories : list string; ps_seen_formats : list string; ps_seen_regexes : list string;
    ps_cfg : PiiMaskingConfig }.

Definition pii_category_step (st : PiiState) (category : string) : PiiState :=
  if decide (category ∈ ps_seen_categories st) then st
  else mkPiiState (category :: ps_seen_categories st) (ps_seen_formats st) (ps_seen_regexes st)
         (mkPiiMasking (pii_categories (ps_cfg st) ++ [category])
            (pii_format_maskings (ps_cfg st)) (pii_regex_maskings (ps_cfg st))).

Definition pii_format_step (st : PiiState) (masking : CustomFormatMasking) : PiiState :=
  if decide (fm_lookup_key masking = "" ∨ fm_data_format masking = "") then st
  else if decide (format_key masking ∈ ps_seen_formats st) then st
  else mkPiiState (ps_seen_categories st) (format_key masking :: ps_seen_formats st) (ps_seen_regexes st)
         (mkPiiMasking (pii_categories (ps_cfg st)) (pii_format_maskings (ps_cfg st) ++ [masking])
            (pii_regex_maskings (ps_cfg st))).

Definition pii_regex_step (st : PiiState) (regex : string) : PiiState :=
  if decide (regex = "") then st
  else if decide (regex ∈ ps_seen_regexes st) then st
  else mkPiiState (ps_seen_categories st) (ps_seen_formats st) (regex :: ps_seen_regexes st)
         (mkPiiMasking (pii_categories (ps_cfg st)) (pii_format_maskings (ps_cfg st))
            (pii_regex_maskings (ps_cfg st) ++ [regex])).

Definition pii_action_step (language : string) (pw : PodWorkload) (st : PiiState) (action : Action)
    : PiiState :=
  match ac_pii action with
  | None => st
  | Some a =>
      if negb (SourceScopeMatchesContainer (pa_scopes a) pw language) then st
      else
        let st := foldl pii_category_step st (pii_categories (pa_config a)) in
        let st := foldl pii_format_step st (pii_format_maskings (pa_config a)) in
        foldl pii_regex_step st (pii_regex_maskings (pa_config a))
  end.

Definition CalculatePiiMaskingConfig `{GoSort} (agentLevelActions : list Action)
    (language : string) (pw : PodWorkload) : option PiiMaskingConfig :=
  let st := foldl (pii_action_step language pw) (mkPiiState [] [] [] (mkPiiMasking [] [] []))
              agentLevelActions in
  let cfg := ps_cfg st in
  if decide (pii_categories cfg = [] ∧ length (pii_format_maskings cfg) = 0 ∧ pii_regex_maskings cfg = [])
  then None
  else Some (mkPiiMasking (SortFunc string_compare (pii_categories cfg))
               (pii_format_maskings cfg) (pii_regex_maskings cfg)).

(** ** Span renamer *)

Definition DistroSupportsTracesSpanRenamer (d : OtelDistro) : bool :=
  match d_traces d with Some t => deref_bool (dtr_span_renamer t) | None => false end.

Definition add_scope_rule (scopeName : string) (m : gmap string SpanRenamerScopeRules)
    (scopeRule : SpanRenamerRegexReplacement) : gmap string SpanRenamerScopeRules :=
  match m !! scopeName with
  | Some existing =>
      <[scopeName := mkScopeRules (ssr_scope_name existing) (ssr_replacements existing ++ [scopeRule])]> m
  | None => <[scopeName := mkScopeRules scopeName [scopeRule]]> m
  end.

Definition span_renamer_step (language : string)
    (st : bool * gmap string SpanRenamerScopeRules) (action : Action)
    : bool * gmap string SpanRenamerScopeRules :=
  match ac_span_renamer action with
  | None => st
  | Some r =>
      if decide (sra_language r <> language) then st
      else foldl (fun '(_, m) scopeRule => (true, add_scope_rule (sra_scope_name r) m scopeRule))
                 st (sra_replacements r)
  end.

Definition CalculateSpanRenamerConfig `{GoMapOrder} (d : OtelDistro) (agentLevelActions : list Action)
    (language : string) : option (list SpanRenamerScopeRules) :=
  if negb (DistroSupportsTracesSpanRenamer d) then None
  else
    let '(gotRenamingConfig, m) := foldl (span_renamer_step language) (false, ∅) agentLevelActions in
    if negb gotRenamingConfig then None else Some (map_order (map_to_list m).*2).

(** ** Id generator *)

Definition TimedWallEnabled (conf : OdigosConfiguration) : bool :=
  negb (bool_decide (conf_trace_id_suffix conf = "")).

(** The text of a [strconv.NumError]. *)
Definition num_error_text `{GoLibrary} (s : string) (e : NumError) : string :=
  "strconv.ParseUint: parsing " +:+ strconv_Quote s +:+ ": "
  +:+ match e with ErrSyntax => "invalid syntax" | ErrRange => "value out of range" end.

(** [None]: the random generator; [Some n]: timed wall with source id [n]. *)
Definition CalculateIdGeneratorConfig `{GoLibrary} (conf : OdigosConfiguration) : AgentDisabledInfo + option Z :=
  if negb (TimedWallEnabled conf) then inr None
  else match parse_hex8 (conf_trace_id_suffix conf) with
       | inl e =>
           inl (mkDisabled InjectionConflict
             ("failed to parse trace id suffix: " +:+ num_error_text (conf_trace_id_suffix conf) e
              +:+ ". trace id suffix must be a single byte hex value (for example 'A3')"))
       | inr sourceId => inr (Some sourceId)
       end.

(** ** URL templatization does not depend on the order of the actions *)

Definition in_scope (scopes : option SourcesScopes) (pw : PodWorkload) (language : string) : Prop :=
  SourceScopeMatchesContainer scopes pw language = true.
#[export] Instance in_scope_dec scopes pw language : Decision (in_scope scopes pw language).
Proof. unfold in_scope. apply _. Defined.

(** The default groups and the rule groups that match a container. *)
Definition matching_defaults (language : string) (pw : PodWorkload) (action : Action)
    : list DefaultTemplatizationConfig :=
  match ac_url_templatization action with
  | None => []
  | Some a => ud_config <$> filter (fun d => in_scope (ud_scopes d) pw language) (ua_default a)
  end.
Definition matching_rules (language : string) (pw : PodWorkload) (action : Action)
    : list UrlTemplatizationRule :=
  match ac_url_templatization action with
  | None => []
  | Some a => filter (fun r => in_scope (ur_scopes r) pw language) (ua_rules a)
  end.

(** Equal up to the order of the status codes. *)
Definition skip_equiv (a b : option SkipPolicyConfig) : Prop :=
  option_Forall2 (fun x y => sp_non_success x = sp_non_success y
                             ∧ sp_status_codes x ≡ₚ sp_status_codes y) a b.
Definition default_equiv (a b : option DefaultTemplatizationConfig) : Prop :=
  option_Forall2 (fun x y => dt_disabled x = dt_disabled y
                             ∧ skip_equiv (dt_skip_policy x) (dt_skip_policy y)) a b.

#[export] Instance skip_equiv_equivalence : Equivalence skip_equiv.
Proof.
  split.
  - intros [x|]; by repeat constructor.
  - intros a b. inversion 1 as [x y [? ?]|]; by repeat constructor.
  - intros a b c. inversion 1 as [x y [? ?]|]; inversion 1 as [? z [? ?]|]; subst; repeat constructor; by etrans.
Qed.
#[export] Instance default_equiv_equivalence : Equivalence default_equiv.
Proof.
  split.
  - intros [x|]; by repeat constructor.
  - intros a b. inversion 1 as [x y [? ?]|]; by repeat constructor.
  - intros a b c. inversion 1 as [x y [? ?]|]; inversion 1 as [? z [? ?]|]; subst; repeat constructor; by etrans.
Qed.

Lemma merge_skip_comm a b :
  skip_equiv (mergeDefaultTemplatizationSkipPolicyConfigs a b)
             (mergeDefaultTemplatizationSkipPolicyConfigs b a).
Proof.
  destruct a as [[na ca]|], b as [[nb cb]|]; try reflexivity. unfold mergeDefaultTemplatizationSkipPolicyConfigs; simpl.
  destruct na, nb; simpl; repeat constructor; simpl; apply Permutation_app_comm.
Qed.

Lemma merge_skip_assoc a b c :
  mergeDefaultTemplatizationSkipPolicyConfigs (mergeDefaultTemplatizationSkipPolicyConfigs a b) c
  = mergeDefaultTemplatizationSkipPolicyConfigs a (mergeDefaultTemplatizationSkipPolicyConfigs b c).
Proof.
  destruct a as [[na ca]|], b as [[nb cb]|], c as [[nc cc]|]; try done.
  - unfold mergeDefaultTemplatizationSkipPolicyConfigs; simpl.
    destruct na, nb, nc; simpl; rewrite ?app_assoc; done.
  - by simpl; repeat case_match.
Qed.

#[export] Instance merge_skip_proper :
  Proper (skip_equiv ==> skip_equiv ==> skip_equiv) mergeDefaultTemplatizationSkipPolicyConfigs.
Proof.
  intros a a' Ha b b' Hb.
  destruct Ha as [[na ca] [na' ca'] [Hn Hc]|]; [|done].
  destruct Hb as [[nb cb] [nb' cb'] [Hn' Hc']|]; [|by repeat constructor].
  simpl in *. subst. unfold mergeDefaultTemplatizationSkipPolicyConfigs; simpl.
  case_match; repeat constructor; simpl. by rewrite Hc, Hc'.
Qed.

#[export] Instance merge_default_proper :
  Proper (default_equiv ==> default_equiv ==> default_equiv) mergeDefaultTemplatizationConfigs.
Proof.
  intros a a' Ha b b' Hb.
  destruct Ha as [[na ca] [na' ca'] [Hn Hc]|]; [|done].
  destruct Hb as [[nb cb] [nb' cb'] [Hn' Hc']|]; [|by repeat constructor].
  simpl in *. subst. unfold mergeDefaultTemplatizationConfigs; simpl.
  case_match; repeat constructor; simpl. by rewrite Hc, Hc'.
Qed.

Lemma merge_default_comm a b :
  default_equiv (mergeDefaultTemplatizationConfigs a b) (mergeDefaultTemplatizationConfigs b a).
Proof.
  destruct a as [[na ca]|], b as [[nb cb]|]; try reflexivity.
  unfold mergeDefaultTemplatizationConfigs; simpl.
  destruct na, nb; simpl; repeat constructor; simpl; apply merge_skip_comm.
Qed.

Lemma merge_default_assoc a b c :
  mergeDefaultTemplatizationConfigs (mergeDefaultTemplatizationConfigs a b) c
  = mergeDefaultTemplatizationConfigs a (mergeDefaultTemplatizationConfigs b c).
Proof.
  destruct a as [[na ca]|], b as [[nb cb]|], c as [[nc cc]|]; try done.
  - unfold mergeDefaultTemplatizationConfigs; simpl.
    destruct na, nb, nc; simpl; rewrite ?merge_skip_assoc; done.
  - by simpl; repeat case_match.
Qed.

Section UrlFacts.
Context `{GoSortLaws}.
Implicit Types (actions : list Action).

Lemma url_defaults_fold language pw groups cfg :
  foldl (fun cfg d => if SourceScopeMatchesContainer (ud_scopes d) pw language
                      then mergeDefaultTemplatizationConfigs cfg (Some (ud_config d)) else cfg) cfg groups
  = foldl (fun c d => mergeDefaultTemplatizationConfigs c (Some d)) cfg
      (ud_config <$> filter (fun d => in_scope (ud_scopes d) pw language) groups).
Proof.
  revert cfg. induction groups as [|g groups IH]; intros cfg; simpl; [done|].
  rewrite filter_cons. case_decide as E; unfold in_scope in E.
  - rewrite E. apply IH.
  - apply not_true_iff_false in E. rewrite E. apply IH.
Qed.

Lemma url_rules_fold language pw rules p t :
  foldl (fun '(p, t) r => if SourceScopeMatchesContainer (ur_scopes r) pw language
                          then (true, t ++ ur_templates r) else (p, t)) (p, t) rules
  = (p || nonempty (filter (fun r => in_scope (ur_scopes r) pw language) rules),
     t ++ (filter (fun r => in_scope (ur_scopes r) pw language) rules ≫= ur_templates)).
Proof.
  revert p t. induction rules as [|r rules IH]; intros p t; simpl.
  { by rewrite orb_false_r, app_nil_r. }
  rewrite filter_cons. case_decide as E; unfold in_scope in E.
  - rewrite E, IH. simpl. by rewrite orb_true_r, <- app_assoc.
  - apply not_true_iff_false in E. by rewrite E, IH.
Qed.

Lemma url_step language pw cfg p t a :
  url_action_step language pw (cfg, p, t) a
  = (foldl (fun c d => mergeDefaultTemplatizationConfigs c (Some d)) cfg (matching_defaults language pw a),
     p || nonempty (matching_rules language pw a),
     t ++ matching_rules language pw a ≫= ur_templates).
Proof.
  unfold url_action_step, matching_defaults, matching_rules.
  destruct (ac_url_templatization a) as [u|]; simpl; [|by rewrite orb_false_r, app_nil_r].
  by rewrite url_defaults_fold, url_rules_fold.
Qed.

Lemma url_actions_fold language pw actions cfg p t :
  foldl (url_action_step language pw) (cfg, p, t) actions
  = (foldl (fun c d => mergeDefaultTemplatizationConfigs c (Some d)) cfg (actions ≫= matching_defaults language pw),
     p || nonempty (actions ≫= matching_rules language pw),
     t ++ (actions ≫= matching_rules language pw) ≫= ur_templates).
Proof.
  revert cfg p t. induction actions as [|a actions IH]; intros cfg p t.
  { simpl. by rewrite orb_false_r, app_nil_r. }
  simpl foldl. rewrite !bind_cons, foldl_app, bind_app, app_assoc, nonempty_app, orb_assoc.
  by rewrite url_step, IH.
Qed.

Lemma dedupeStatusCodes_permuted l l' : l ≡ₚ l' -> dedupeStatusCodes l = dedupeStatusCodes l'.
Proof.
  intros Hl. unfold dedupeStatusCodes. rewrite <- (Permutation_length Hl). case_decide as Hd.
  - destruct l as [|x [|y l]]; simpl in Hd; [| |lia].
    + by apply Permutation_nil_l in Hl.
    + by apply Permutation_singleton_l in Hl.
  - apply SortFunc_canonical; [apply _| |by apply dedupe_id_permuted].
    intros x y _ _. apply int_compare_eq.
Qed.

Lemma dedupeAndSortTemplates_permuted l l' :
  l ≡ₚ l' -> dedupeAndSortTemplates l = dedupeAndSortTemplates l'.
Proof.
  intros Hl. unfold dedupeAndSortTemplates. rewrite <- (Permutation_length Hl). case_decide as Hd.
  - destruct l as [|x [|y l]]; simpl in Hd; [| |lia].
    + by apply Permutation_nil_l in Hl.
    + by apply Permutation_singleton_l in Hl.
  - apply SortFunc_canonical; [apply _| |by apply dedupe_id_permuted].
    intros x y _ _. apply string_compare_antisym.
Qed.

Lemma defaults_permuted l l' :
  l ≡ₚ l' ->
  default_equiv (foldl (fun c d => mergeDefaultTemplatizationConfigs c (Some d)) None l)
                (foldl (fun c d => mergeDefaultTemplatizationConfigs c (Some d)) None l').
Proof.
  intros Hl. eapply (foldl_permuted default_equiv); [..|done|done].
  - intros b b' x Hb. by rewrite Hb.
  - intros b x y. rewrite !merge_default_assoc. by rewrite (merge_default_comm (Some x)).
Qed.
End UrlFacts.

Section UrlProperties.
Context `{GoSortLaws}.

(** The URL templatization of a container does not depend on the order
    in which the API server lists the actions. *)
Theorem url_templatization_order_independent (actions actions' : list Action)
    (language : string) (pw : PodWorkload) :
  actions ≡ₚ actions' ->
  CalculateUrlTemplatizationConfig actions language pw
  = CalculateUrlTemplatizationConfig actions' language pw.
Proof.
  intros Hp. unfold CalculateUrlTemplatizationConfig. rewrite !url_actions_fold. simpl.
  assert (Hr : actions ≫= matching_rules language pw ≡ₚ actions' ≫= matching_rules language pw) by by rewrite Hp.
  rewrite (nonempty_permuted _ _ Hr).
  rewrite (dedupeAndSortTemplates_permuted ((actions ≫= matching_rules language pw) ≫= ur_templates)
            ((actions' ≫= matching_rules language pw) ≫= ur_templates)) by by rewrite Hr.
  assert (Hd : actions ≫= matching_defaults language pw ≡ₚ actions' ≫= matching_defaults language pw) by by rewrite Hp.
  destruct (defaults_permuted _ _ Hd) as [[dis sk] [dis' sk'] [Hdis Hskip]|]; simpl in *; [|done].
  subst. unfold dedupe_skip_policy. simpl.
  destruct Hskip as [sp sp' [Hns Hcodes]|]; simpl; [|done].
  by rewrite Hns, (dedupeStatusCodes_permuted _ _ Hcodes).
Qed.

(** The templates a container gets are exactly those of the rule groups
    that match it, each of them once. *)
Theorem url_templates_exact (actions : list Action) (language : string) (pw : PodWorkload)
    (c : UrlTemplatizationConfig) :
  CalculateUrlTemplatizationConfig actions language pw = Some c ->
  NoDup (ut_templates c)
  ∧ forall t, t ∈ ut_templates c <->
      exists a u r, a ∈ actions ∧ ac_url_templatization a = Some u ∧ r ∈ ua_rules u
        ∧ in_scope (ur_scopes r) pw language ∧ t ∈ ur_templates r.
Proof.
  unfold CalculateUrlTemplatizationConfig. rewrite url_actions_fold. simpl.
  intros Hc. case_match; [done|]. simplify_eq. simpl. split.
  - generalize ((actions ≫= matching_rules language pw) ≫= ur_templates). intros l.
    unfold dedupeAndSortTemplates. case_decide as Hl.
    + destruct l as [|x [|y l]]; simpl in Hl; [constructor|apply NoDup_singleton|lia].
    + rewrite SortFunc_perm. apply dedupe_id_NoDup.
  - intros t. trans (t ∈ (actions ≫= matching_rules language pw) ≫= ur_templates).
    { unfold dedupeAndSortTemplates. case_decide; [done|].
      by rewrite SortFunc_elem, dedupe_id_elem by apply _. }
    rewrite list_elem_of_bind. setoid_rewrite list_elem_of_bind. unfold matching_rules. split.
    + intros (r & Ht & a & Hr & Ha). destruct (ac_url_templatization a) as [u|] eqn:Hu; [|by apply not_elem_of_nil in Hr].
      apply list_elem_of_filter in Hr as [Hs Hr]. by exists a, u, r.
    + intros (a & u & r & Ha & Hu & Hr & Hs & Ht). exists r. split; [done|]. exists a.
      rewrite Hu, list_elem_of_filter. done.
Qed.
End UrlProperties.

(** ** PII masking in closed form *)

Section PiiFacts.
Implicit Types (actions : list Action) (st : PiiState).

(** What the actions in scope contribute, in order. *)
Definition pii_in_scope {A} (language : string) (pw : PodWorkload) (f : PiiMaskingConfig -> list A)
    (action : Action) : list A :=
  match ac_pii action with
  | Some a => if SourceScopeMatchesContainer (pa_scopes a) pw language then f (pa_config a) else []
  | None => []
  end.

Definition valid_formats (l : list CustomFormatMasking) : list CustomFormatMasking :=
  filter (fun m => ~ (fm_lookup_key m = "" ∨ fm_data_format m = "")) l.
Definition valid_regexes (l : list string) : list string := filter (fun r => r <> "") l.

(** [st'] is [st] with the given entries added, duplicates dropped. *)
Definition pii_extends st (cs : list string) (fs : list CustomFormatMasking) (rs : list string) st' : Prop :=
  (forall c, c ∈ ps_seen_categories st' <-> c ∈ cs ∨ c ∈ ps_seen_categories st)
  ∧ (forall k, k ∈ ps_seen_formats st' <-> k ∈ format_key <$> fs ∨ k ∈ ps_seen_formats st)
  ∧ (forall r, r ∈ ps_seen_regexes st' <-> r ∈ rs ∨ r ∈ ps_seen_regexes st)
  ∧ pii_categories (ps_cfg st') = pii_categories (ps_cfg st) ++ dedupe_by id (ps_seen_categories st) cs
  ∧ pii_format_maskings (ps_cfg st')
    = pii_format_maskings (ps_cfg st) ++ dedupe_by format_key (ps_seen_formats st) fs
  ∧ pii_regex_maskings (ps_cfg st') = pii_regex_maskings (ps_cfg st) ++ dedupe_by id (ps_seen_regexes st) rs.

Lemma pii_extends_refl st : pii_extends st [] [] [] st.
Proof. split_and!; simpl; rewrite ?app_nil_r; try done; intros b; rewrite elem_of_nil; tauto. Qed.

Lemma pii_extends_trans st st' st'' cs cs' fs fs' rs rs' :
  pii_extends st cs fs rs st' -> pii_extends st' cs' fs' rs' st'' ->
  pii_extends st (cs ++ cs') (fs ++ fs') (rs ++ rs') st''.
Proof.
  intros (C & F & R & Ec & Ef & Er) (C' & F' & R' & Ec' & Ef' & Er').
  split_and!.
  - intros c. rewrite C', C, elem_of_app. tauto.
  - intros k. rewrite F', F, fmap_app, elem_of_app. tauto.
  - intros r. rewrite R', R, elem_of_app. tauto.
  - rewrite Ec', Ec, dedupe_by_app, app_assoc. f_equal. apply dedupe_by_seen.
    intros b. by rewrite C, list_fmap_id, elem_of_app.
  - rewrite Ef', Ef, dedupe_by_app, app_assoc. f_equal. apply dedupe_by_seen.
    intros b. by rewrite F, elem_of_app.
  - rewrite Er', Er, dedupe_by_app, app_assoc. f_equal. apply dedupe_by_seen.
    intros b. by rewrite R, list_fmap_id, elem_of_app.
Qed.

Lemma pii_extends_fold {A} (step : PiiState -> A -> PiiState) fc ff fr (l : list A) :
  (forall st x, pii_extends st (fc x) (ff x) (fr x) (step st x)) ->
  forall st, pii_extends st (l ≫= fc) (l ≫= ff) (l ≫= fr) (foldl step st l).
Proof.
  intros Hs. induction l as [|x l IH]; intros st; [apply pii_extends_refl|].
  rewrite !bind_cons. eapply pii_extends_trans; [apply Hs|apply IH].
Qed.

Lemma pii_category_extends st c : pii_extends st [c] [] [] (pii_category_step st c).
Proof.
  unfold pii_category_step, pii_extends. simpl. unfold id.
  case_decide; simpl; rewrite ?app_nil_r; split_and!; try done;
    intros b; rewrite ?elem_of_cons, ?elem_of_nil; naive_solver.
Qed.
Lemma pii_format_extends st m : pii_extends st [] (valid_formats [m]) [] (pii_format_step st m).
Proof.
  unfold pii_format_step, pii_extends, valid_formats.
  case_decide as Hv; [rewrite filter_cons_False by tauto|rewrite filter_cons_True by tauto].
  - simpl. rewrite ?app_nil_r. split_and!; try done; intros b; rewrite elem_of_nil; tauto.
  - simpl. case_decide; simpl; rewrite ?app_nil_r; split_and!; try done;
      intros b; rewrite ?elem_of_cons, ?elem_of_nil; naive_solver.
Qed.
Lemma pii_regex_extends st r : pii_extends st [] [] (valid_regexes [r]) (pii_regex_step st r).
Proof.
  unfold pii_regex_step, pii_extends, valid_regexes. unfold id.
  case_decide as Hv; [rewrite filter_cons_False by tauto|rewrite filter_cons_True by tauto].
  - simpl. rewrite ?app_nil_r. split_and!; try done; intros b; rewrite elem_of_nil; tauto.
  - simpl. case_decide; simpl; rewrite ?app_nil_r; split_and!; try done;
      intros b; rewrite ?elem_of_cons, ?elem_of_nil; naive_solver.
Qed.
End PiiFacts.

Lemma bind_singletons {A} (l : list A) : (l ≫= fun x => [x]) = l.
Proof. induction l as [|x l IH]; [done|]. by rewrite bind_cons, IH. Qed.
Lemma bind_nothing {A B} (l : list A) : (l ≫= fun _ => [] : list B) = [].
Proof. induction l as [|x l IH]; [done|]. by rewrite bind_cons, IH. Qed.
Lemma bind_filter {A} (P : A -> Prop) `{forall x, Decision (P x)} (l : list A) :
  (l ≫= fun x => filter P [x]) = filter P l.
Proof.
  induction l as [|x l IH]; [done|]. rewrite bind_cons, IH, (filter_cons P x l), filter_cons, filter_nil.
  by case_decide.
Qed.
Lemma filter_bind {A B} (P : B -> Prop) `{forall x, Decision (P x)} (f : A -> list B) l :
  filter P (l ≫= f) = l ≫= fun x => filter P (f x).
Proof. induction l as [|x l IH]; [done|]. by rewrite !bind_cons, filter_app, IH. Qed.

Lemma valid_formats_bind {A} (f : A -> list CustomFormatMasking) l :
  (l ≫= fun a => valid_formats (f a)) = valid_formats (l ≫= f).
Proof. symmetry. apply filter_bind. Qed.
Lemma valid_regexes_bind {A} (f : A -> list string) l :
  (l ≫= fun a => valid_regexes (f a)) = valid_regexes (l ≫= f).
Proof. symmetry. apply filter_bind. Qed.

Lemma pii_action_extends language pw st a :
  pii_extends st (pii_in_scope language pw pii_categories a)
    (valid_formats (pii_in_scope language pw pii_format_maskings a))
    (valid_regexes (pii_in_scope language pw pii_regex_maskings a))
    (pii_action_step language pw st a).
Proof.
  unfold pii_action_step, pii_in_scope. destruct (ac_pii a) as [p|]; [|apply pii_extends_refl].
  destruct (SourceScopeMatchesContainer (pa_scopes p) pw language); simpl; [|apply pii_extends_refl].
  set (st1 := foldl pii_category_step st _). set (st2 := foldl pii_format_step st1 _).
  pose proof (pii_extends_fold _ _ _ _ (pii_categories (pa_config p)) pii_category_extends st) as H1.
  pose proof (pii_extends_fold _ _ _ _ (pii_format_maskings (pa_config p)) pii_format_extends st1) as H2.
  pose proof (pii_extends_fold _ _ _ _ (pii_regex_maskings (pa_config p)) pii_regex_extends st2) as H3.
  unfold valid_formats, valid_regexes in *.
  rewrite bind_singletons, !bind_nothing in H1. rewrite bind_filter, !bind_nothing in H2.
  rewrite bind_filter, !bind_nothing in H3.
  pose proof (pii_extends_trans _ _ _ _ _ _ _ _ _ H1 (pii_extends_trans _ _ _ _ _ _ _ _ _ H2 H3)) as H.
  rewrite !app_nil_r in H. exact H.
Qed.

(** The PII masking of a container is the union of what the actions in
    its scope ask for: categories once each and sorted, format maskings once
    per (lookup key, format) and regular expressions once each, incomplete
    entries dropped; without any of them the container gets no masking. *)
Theorem pii_masking_is_union `{GoSort} (actions : list Action) (language : string) (pw : PodWorkload) :
  let categories := dedupe_by id [] (actions ≫= pii_in_scope language pw pii_categories) in
  let formats := dedupe_by format_key []
    (valid_formats (actions ≫= pii_in_scope language pw pii_format_maskings)) in
  let regexes := dedupe_by id [] (valid_regexes (actions ≫= pii_in_scope language pw pii_regex_maskings)) in
  CalculatePiiMaskingConfig actions language pw =
    if nonempty categories || nonempty formats || nonempty regexes
    then Some (mkPiiMasking (SortFunc string_compare categories) formats regexes) else None.
Proof.
  intros categories formats regexes. unfold CalculatePiiMaskingConfig.
  set (st0 := mkPiiState [] [] [] (mkPiiMasking [] [] [])).
  destruct (pii_extends_fold _ _ _ _ actions (pii_action_extends language pw) st0)
    as (_ & _ & _ & Hc & Hf & Hr).
  rewrite valid_formats_bind in Hf. rewrite valid_regexes_bind in Hr.
  set (cfg := ps_cfg (foldl _ _ _)) in *.
  change (pii_categories cfg = categories) in Hc. change (pii_format_maskings cfg = formats) in Hf.
  change (pii_regex_maskings cfg = regexes) in Hr.
  rewrite Hc, Hf, Hr. clearbody cfg categories formats regexes.
  case_decide as Hd.
  - destruct Hd as (-> & ->%nil_length_inv & ->). done.
  - destruct categories, formats, regexes; simpl; try done. by destruct Hd.
Qed.

(** ** Span renamer in closed form *)

(** The replacements of a scope, in the order of the actions. *)
Definition own_replacements (language scopeName : string) (a : Action) : list SpanRenamerRegexReplacement :=
  match ac_span_renamer a with
  | Some r => if decide (sra_language r = language ∧ sra_scope_name r = scopeName)
              then sra_replacements r else []
  | None => []
  end.
Definition scope_replacements (language scopeName : string) (actions : list Action)
    : list SpanRenamerRegexReplacement := actions ≫= own_replacements language scopeName.

Definition scope_entry (scopeName : string) (l : list SpanRenamerRegexReplacement)
    : option SpanRenamerScopeRules :=
  match l with [] => None | _ => Some (mkScopeRules scopeName l) end.

Section SpanRenamerFacts.
Implicit Types (m : gmap string SpanRenamerScopeRules).

Definition renamer_map m (f : string -> list SpanRenamerRegexReplacement) : Prop :=
  forall n, m !! n = scope_entry n (f n).

Lemma add_scope_rule_map m f s r :
  renamer_map m f ->
  renamer_map (add_scope_rule s m r) (fun n => f n ++ if decide (s = n) then [r] else []).
Proof.
  intros Hm n. unfold add_scope_rule. rewrite (Hm s).
  destruct (f s) as [|x l] eqn:E; simpl; case_decide as Hn.
  - subst. by rewrite lookup_insert_eq, E.
  - by rewrite lookup_insert_ne, app_nil_r by done.
  - subst. by rewrite lookup_insert_eq, E.
  - by rewrite lookup_insert_ne, app_nil_r by done.
Qed.

Lemma add_scope_rules_map l s b m f :
  renamer_map m f ->
  exists m', foldl (fun '(_, m) r => (true, add_scope_rule s m r)) (b, m) l = (b || nonempty l, m')
    ∧ renamer_map m' (fun n => f n ++ if decide (s = n) then l else []).
Proof.
  revert b m f. induction l as [|r l IH]; intros b m f Hm; simpl.
  - exists m. rewrite orb_false_r. split; [done|]. intros n. rewrite (Hm n).
    by case_decide; rewrite app_nil_r.
  - destruct (IH true _ _ (add_scope_rule_map _ _ s r Hm)) as (m' & -> & Hm').
    exists m'. rewrite orb_true_r. split; [done|]. intros n. rewrite (Hm' n).
    case_decide; by rewrite <- app_assoc.
Qed.

Lemma renamer_step language b m f a :
  renamer_map m f ->
  exists b' m', span_renamer_step language (b, m) a = (b', m')
    ∧ renamer_map m' (fun n => f n ++ own_replacements language n a)
    ∧ (b' = true <-> b = true ∨ exists n, own_replacements language n a <> []).
Proof.
  intros Hm. unfold span_renamer_step, own_replacements.
  destruct (ac_span_renamer a) as [r|]; [case_decide as Hl|].
  - exists b, m. split; [done|]. split.
    + intros n. by rewrite (Hm n), decide_False, app_nil_r by tauto.
    + split; [by left|]. intros [?|[n Hn]]; [done|]. by rewrite decide_False in Hn by tauto.
  - subst.
    destruct (add_scope_rules_map (sra_replacements r) (sra_scope_name r) b m f Hm) as (m1 & -> & Hm1).
    eexists _, m1. split; [done|]. split.
    + intros n. rewrite (Hm1 n). f_equal. f_equal. repeat case_decide; naive_solver.
    + rewrite orb_true_iff, nonempty_true. split; (intros [?|Hr]; [by left|right]).
      * exists (sra_scope_name r). by rewrite decide_True.
      * destruct Hr as [n Hn]. by case_decide.
  - exists b, m. split; [done|]. split.
    + intros n. by rewrite (Hm n), app_nil_r.
    + split; [by left|]. by intros [?|[n Hn]].
Qed.

Lemma renamer_fold language actions b m f :
  renamer_map m f ->
  exists b' m', foldl (span_renamer_step language) (b, m) actions = (b', m')
    ∧ renamer_map m' (fun n => f n ++ scope_replacements language n actions)
    ∧ (b' = true <-> b = true ∨ exists n, scope_replacements language n actions <> []).
Proof.
  unfold scope_replacements. revert b m f. induction actions as [|a actions IH]; intros b m f Hm.
  { exists b, m. split; [done|]. split.
    - intros n. by rewrite (Hm n), app_nil_r.
    - split; [by left|]. by intros [?|[n Hn]]. }
  simpl foldl. destruct (renamer_step language b m f a Hm) as (b1 & m1 & -> & Hm1 & Hb1).
  destruct (IH b1 m1 _ Hm1) as (b' & m' & -> & Hm' & Hb). exists b', m'. split; [done|]. split.
  - intros n. by rewrite (Hm' n), bind_cons, app_assoc.
  - rewrite Hb, Hb1. split.
    + intros [[?|[n Hn]]|[n Hn]]; [by left| |]; right; exists n; rewrite bind_cons;
        by intros [? ?]%app_nil.
    + intros [?|[n Hn]]; [by do 2 left|]. rewrite bind_cons in Hn.
      destruct (own_replacements language n a) eqn:E; [right; by exists n|].
      left. right. exists n. by rewrite E.
Qed.
End SpanRenamerFacts.

Section SpanRenamerProperties.
Context `{GoMapOrderLaws}.

(** The span renamer groups the replacements by instrumentation scope:
    each scope named by a matching action occurs once, with the
    replacements of all matching actions in their order. *)
Theorem span_renamer_groups (d : OtelDistro) (actions : list Action) (language : string)
    (rules : list SpanRenamerScopeRules) :
  CalculateSpanRenamerConfig d actions language = Some rules ->
  NoDup (ssr_scope_name <$> rules)
  ∧ forall sr, sr ∈ rules <->
      ssr_replacements sr = scope_replacements language (ssr_scope_name sr) actions
      ∧ ssr_replacements sr <> [].
Proof.
  unfold CalculateSpanRenamerConfig. case_match; [done|].
  destruct (renamer_fold language actions false ∅ (fun _ => [])) as (b & m & -> & Hm & _).
  { intros n. apply lookup_empty. }
  case_match; [done|]. intros [= <-]. simpl in Hm.
  assert (Hkey : Forall (fun kv => ssr_scope_name kv.2 = kv.1) (map_to_list m)).
  { apply Forall_forall. intros [k v] Hkv. apply elem_of_map_to_list in Hkv. simpl.
    rewrite (Hm k) in Hkv. destruct (scope_replacements language k actions); simpl in Hkv; by simplify_eq. }
  split.
  - rewrite map_order_perm, <- list_fmap_compose.
    replace ((ssr_scope_name ∘ snd) <$> map_to_list m) with ((map_to_list m).*1); [apply NoDup_fst_map_to_list|].
    induction Hkey as [|kv l Hkv _ IH]; [done|]. rewrite !fmap_cons, IH. f_equal. done.
  - intros sr. rewrite map_order_perm, list_elem_of_fmap. split.
    + intros ([k v] & -> & Hkv). pose proof (proj1 (Forall_forall _ _) Hkey _ Hkv) as Hn. simpl in *.
      apply elem_of_map_to_list in Hkv. rewrite (Hm k) in Hkv. rewrite Hn.
      destruct (scope_replacements language k actions) eqn:E; [done|]. by injection Hkv as <-.
    + intros [Hr Hne]. exists (ssr_scope_name sr, sr). split; [done|].
      apply elem_of_map_to_list. rewrite (Hm _), <- Hr. destruct sr as [n l]. simpl in *. by destruct l.
Qed.
End SpanRenamerProperties.

(** Two actions of one language that rename spans of two scopes. *)
Definition rename_action (scopeName : string) : Action :=
  mkAction false None (Some (mkSpanRenamerAction "java" scopeName [mkReplacement "x" "y"])) None None None.

(** The order of the scopes in the span renamer configuration follows
    the iteration order of a Go map: two runs on the same actions can give
    different configurations. *)
Theorem span_renamer_order_varies :
  exists o1 o2 : GoMapOrder, @GoMapOrderLaws o1 ∧ @GoMapOrderLaws o2
    ∧ @CalculateSpanRenamerConfig o1 sample_distro [rename_action "a"; rename_action "b"] "java"
      <> @CalculateSpanRenamerConfig o2 sample_distro [rename_action "a"; rename_action "b"] "java".
Proof.
  exists order_forward, order_backward.
  split_and!; [apply order_forward_laws|apply order_backward_laws|by vm_compute].
Qed.

(** *** Id generator *)

(** The source id put into trace ids fits in the byte it is written to;
    a suffix that is not a byte in hex disables the container. *)
Theorem id_generator_byte `{GoLibrary} (conf : OdigosConfiguration) (n : Z) :
  CalculateIdGeneratorConfig conf = inr (Some n) ->
  conf_trace_id_suffix conf <> "" ∧ (0 <= n < 256)%Z.
Proof.
  unfold CalculateIdGeneratorConfig, TimedWallEnabled.
  case_bool_decide; simpl; [done|]. destruct (parse_hex8 _) eqn:E; [done|].
  intros [= <-]. split; [done|]. by eapply parse_hex8_range.
Qed.

(** ** Witnesses *)

Definition url_action (templates : list string) : Action :=
  mkAction false (Some (mkUrlAction [mkUrlRule None templates] [])) None None None None.

Lemma url_templatization_order_independent_witness :
  CalculateUrlTemplatizationConfig [url_action ["/b"]; url_action ["/a"; "/b"]] "java" sample_pw
  = CalculateUrlTemplatizationConfig [url_action ["/a"; "/b"]; url_action ["/b"]] "java" sample_pw.
Proof.
  exact (@url_templatization_order_independent go_insertion_sort go_insertion_sort_laws
    [url_action ["/b"]; url_action ["/a"; "/b"]] [url_action ["/a"; "/b"]; url_action ["/b"]] "java" sample_pw
    (Permutation_swap _ _ _)).
Defined.

Lemma url_templates_exact_witness :
  NoDup ["/a"; "/b"] ∧ CalculateUrlTemplatizationConfig [url_action ["/b"]; url_action ["/a"; "/b"]] "java" sample_pw
    = Some (mkUrlTemplatization ["/a"; "/b"] (Some (mkDefaultTemplatization false None))).
Proof.
  split; [|reflexivity].
  exact (proj1 (@url_templates_exact go_insertion_sort go_insertion_sort_laws
    [url_action ["/b"]; url_action ["/a"; "/b"]] "java" sample_pw
    (mkUrlTemplatization ["/a"; "/b"] (Some (mkDefaultTemplatization false None))) eq_refl)).
Defined.

Lemma span_renamer_groups_witness :
  NoDup (ssr_scope_name <$> [mkScopeRules "a" [mkReplacement "x" "y"; mkReplacement "x" "y"]]).
Proof.
  exact (proj1 (@span_renamer_groups order_forward order_forward_laws sample_distro
    [rename_action "a"; rename_action "a"] "java" _ eq_refl)).
Defined.

Lemma id_generator_byte_witness :
  let conf := mkConf [] None None None None "" "" None "A3" None no_webhook_conf in
  @CalculateIdGeneratorConfig sample_library conf = inr (Some 163%Z) ∧ (0 <= 163 < 256)%Z.
Proof.
  split; [reflexivity|].
  exact (proj2 (@id_generator_byte sample_library (mkConf [] None None None None "" "" None "A3" None no_webhook_conf) 163 eq_refl)).
Defined.
