(* ===== verification/SamplingConfig.v ===== *)
(** * Sampling rules of a container

    dynamicconfig/traces/sampling.go: which sampling rules apply to a
    container, the rules derived from its kubelet probes, and the order they
    are written in. *)

From Stdlib Require Import SpecFloat.
From S2P Require Import Prelude.
From S2P Require Import GoStrings.
From S2P Require Import GoSort.
From S2P Require Import GoLib.
From S2P Require Import Api.
From S2P Require Import Status.
From S2P Require Import Workload.
From S2P Require Import Scope.
From S2P Require Import Objects.
From S2P Require Import Samples.

Definition DistroSupportsHeadSampling (d : OtelDistro) : bool :=
  match d_traces d with
  | Some t => match dtr_head_sampling t with Some h => dhs_supported h | None => false end
  | None => false
  end.

Definition DistroSupportsHttpQueryParams (d : OtelDistro) : bool :=
  match d_traces d with
  | Some t => match dtr_head_sampling t with Some h => dhs_query_params_supported h | None => false end
  | None => false
  end.

Definition isK8sHealthProbesSamplingEnabled (conf : OdigosConfiguration) : bool :=
  match conf_sampling conf with
  | Some s => match smp_health_probes s with Some h => deref_bool (hps_enabled h) | None => false end
  | None => false
  end.

Fixpoint queryParamsMatch (a b : list QueryParamMatcher) : bool :=
  match a, b with
  | [], [] => true
  | x :: a, y :: b =>
      if negb (bool_decide (qp_name x = qp_name y)) then false
      else match qp_value_exact x, qp_value_exact y with
           | None, None => queryParamsMatch a b
           | Some v, Some w => if negb (bool_decide (v = w)) then false else queryParamsMatch a b
           | _, _ => false
           end
  | _, _ => false
  end.

Definition query_param_compare (a b : QueryParamMatcher) : Z :=
  compare_then (string_compare (qp_name a) (qp_name b))
    (match qp_value_exact a, qp_value_exact b with
     | None, None => 0
     | None, _ => -1
     | _, None => 1
     | Some v, Some w => string_compare v w
     end)%Z.

Section Sampling.
Context `{GoSort, GoLibrary}.

Definition parseHTTPGetPath (rawPath : string) : string * list QueryParamMatcher :=
  if decide (rawPath = "") then ("", [])
  else match url_Parse rawPath with
       | None => (rawPath, [])
       | Some parsed =>
           let path := if decide (url_path parsed = "") then rawPath else url_path parsed in
           if decide (url_raw_query parsed = "") then (path, [])
           else (path, SortFunc query_param_compare
                   (url_query parsed ≫= fun '(name, values) =>
                      (fun value => mkQueryParam name (Some value)) <$> values))
       end.

Record kubeletProbePathAndName := mkProbe
  { kp_path : string; kp_query_params : list QueryParamMatcher; kp_rule_name : string }.

Fixpoint addProbePathAndName (l : list kubeletProbePathAndName) (path : string)
    (queryParams : list QueryParamMatcher) (name : string) : list kubeletProbePathAndName :=
  match l with
  | [] => [mkProbe path queryParams name]
  | p :: rest =>
      if bool_decide (kp_path p = path) && queryParamsMatch (kp_query_params p) queryParams
      then mkProbe (kp_path p) (kp_query_params p) (kp_rule_name p +:+ "," +:+ name) :: rest
      else p :: addProbePathAndName rest path queryParams name
  end.

Definition add_probe (l : list kubeletProbePathAndName) (http : option string) (name : string)
    : list kubeletProbePathAndName :=
  match http with
  | Some rawPath => let '(path, queryParams) := parseHTTPGetPath rawPath in
                    addProbePathAndName l path queryParams name
  | None => l
  end.

Definition calculateKubeletHttpGetProbePaths (w : WorkloadView) (containerName : string)
    : list kubeletProbePathAndName :=
  match first_match (fun c => bool_decide (c_name c = containerName)) (PodSpecContainers w) with
  | None => []
  | Some c =>
      let l := add_probe [] (c_startup_http c) "StartupProbe" in
      let l := add_probe l (c_liveness_http c) "LivenessProbe" in
      add_probe l (c_readiness_http c) "ReadinessProbe"
  end.

Definition getPercentageOrZero (p : option float64) : float64 := default float_zero p.

Definition calculateK8sHealthProbeSamplingPercentage (conf : OdigosConfiguration) : float64 :=
  match conf_sampling conf with
  | None => float_zero
  | Some s =>
      match smp_health_probes s with
      | None => float_zero
      | Some h => match hps_keep_percentage h with None => float_zero | Some p => p end
      end
  end.

(** The ids of sampling_types.go. *)
Definition ComputeNoisyOperationHash (r : NoisyOperationRule) : string :=
  rule_digest (NoisyFields (nr_scopes r) (nr_operation r)).
Definition ComputeHighlyRelevantOperationHash (r : HighlyRelevantRule) : string :=
  rule_digest (RelevantFields (hr_scopes r) (hr_error r) (hr_duration r) (hr_operation r)).
Definition ComputeCostReductionRuleHash (r : CostReductionSourceRule) : string :=
  rule_digest (CostFields (cr_scopes r) (cr_operation r)).

(** [workloadObj] is an interface value: [None] is nil. *)
Definition calculateKubeletHealthProbesSamplingRules (conf : OdigosConfiguration)
    (workloadObj : option WorkloadView) (containerName : string) : list NoisyOperation :=
  if negb (isK8sHealthProbesSamplingEnabled conf) then []
  else match workloadObj with
       | None => []
       | Some w =>
           let paths := calculateKubeletHttpGetProbePaths w containerName in
           let percentageAtMost := calculateK8sHealthProbeSamplingPercentage conf in
           (fun p =>
             let operation :=
               mkHeadMatcher (Some (mkHeadHttpServer (kp_path p) "" "GET" (kp_query_params p))) None None None in
             let id := ComputeNoisyOperationHash (mkNoisyRule "" false None (Some operation) None) in
             mkNoisy id ("kubelet health probe: " +:+ kp_rule_name p) false (Some operation)
               (Some percentageAtMost)) <$> paths
       end.

Definition noisyOperationContainsHttpQueryParams (n : NoisyOperation) : bool :=
  match no_operation n with
  | Some o => match hm_http_server o with Some h => nonempty (hs_query_params h) | None => false end
  | None => false
  end.

(** Rules the distribution cannot evaluate are dropped. *)
Definition supported_by (d : OtelDistro) (n : NoisyOperation) : bool :=
  negb (noisyOperationContainsHttpQueryParams n && negb (DistroSupportsHttpQueryParams d)).

Definition convert_noisy (r : NoisyOperationRule) : NoisyOperation :=
  mkNoisy (ComputeNoisyOperationHash r) (nr_name r) (nr_disabled r) (nr_operation r) (nr_percentage r).
Definition convert_relevant (r : HighlyRelevantRule) : HighlyRelevantOperation :=
  mkRelevant (ComputeHighlyRelevantOperationHash r) (hr_name r) (hr_disabled r) (hr_error r)
    (hr_duration r) (hr_operation r) (hr_percentage r).
Definition convert_cost (r : CostReductionSourceRule) : CostReductionRule :=
  mkCost (ComputeCostReductionRuleHash r) (cr_name r) (cr_disabled r) (cr_operation r) (cr_percentage r).

(** [if a != b { return int(a - b) }; return strings.Compare(ids)]. *)
Definition percentage_compare (a b : float64) (idA idB : string) : Z :=
  if negb (float_eqb a b) then float_to_int (float_sub a b) else string_compare idA idB.

Definition noisy_compare (a b : NoisyOperation) : Z :=
  percentage_compare (getPercentageOrZero (no_percentage a)) (getPercentageOrZero (no_percentage b))
    (no_id a) (no_id b).
Definition relevant_compare (a b : HighlyRelevantOperation) : Z :=
  percentage_compare (getPercentageOrZero (ho_percentage a)) (getPercentageOrZero (ho_percentage b))
    (ho_id a) (ho_id b).
Definition cost_compare (a b : CostReductionRule) : Z :=
  percentage_compare (co_percentage a) (co_percentage b) (co_id a) (co_id b).

(** The loop over the sampling rules: the three lists, before sorting. *)
Definition sampling_rule_step (language : string) (pw : PodWorkload) (d : OtelDistro)
    (st : list NoisyOperation * list HighlyRelevantOperation * list CostReductionRule) (s : Sampling)
    : list NoisyOperation * list HighlyRelevantOperation * list CostReductionRule :=
  let '(noisy, relevant, cost) := st in
  let noisy := foldl (fun acc r =>
    if SourceScopeMatchesContainer (nr_scopes r) pw language then
      let n := convert_noisy r in
      if negb (supported_by d n) then acc else acc ++ [n]
    else acc) noisy (sa_noisy s) in
  let relevant := foldl (fun acc r =>
    if SourceScopeMatchesContainer (hr_scopes r) pw language then acc ++ [convert_relevant r] else acc)
    relevant (sa_relevant s) in
  let cost := foldl (fun acc r =>
    if SourceScopeMatchesContainer (cr_scopes r) pw language then acc ++ [convert_cost r] else acc)
    cost (sa_cost s) in
  (noisy, relevant, cost).

Definition CalculateSamplingCategoryRulesForContainer (samplingRules : list Sampling)
    (language : string) (pw : PodWorkload) (containerName : string) (d : OtelDistro)
    (workloadObj : option WorkloadView) (conf : OdigosConfiguration)
    : list NoisyOperation * list HighlyRelevantOperation * list CostReductionRule :=
  let auto :=
    if isK8sHealthProbesSamplingEnabled conf then
      filter (fun n => supported_by d n = true)
        (calculateKubeletHealthProbesSamplingRules conf workloadObj containerName)
    else [] in
  let '(noisy, relevant, cost) :=
    foldl (sampling_rule_step language pw d) (auto, [], []) samplingRules in
  (SortFunc noisy_compare noisy, SortFunc relevant_compare relevant, SortFunc cost_compare cost).
End Sampling.

(** ** Which rules reach the container *)

Lemma filter_map_fold {A B} (p : A -> bool) (f : A -> B) l acc :
  foldl (fun acc r => if p r then acc ++ [f r] else acc) acc l
  = acc ++ (f <$> filter (fun r => p r = true) l).
Proof.
  revert acc. induction l as [|r l IH]; intros acc; simpl; [by rewrite app_nil_r|].
  rewrite filter_cons, IH. case_decide as Hp.
  - rewrite Hp. by rewrite <- app_assoc.
  - apply not_true_iff_false in Hp. by rewrite Hp.
Qed.

Section SamplingFacts.
Context `{GoSortLaws, GoLibrary}.

Definition scoped {A} (scopes : A -> option SourcesScopes) (language : string) (pw : PodWorkload)
    (l : list A) : list A :=
  filter (fun r => SourceScopeMatchesContainer (scopes r) pw language = true) l.

Definition supported_noisy (language : string) (pw : PodWorkload) (d : OtelDistro) (s : Sampling)
    : list NoisyOperation :=
  filter (fun n => supported_by d n = true) (convert_noisy <$> scoped nr_scopes language pw (sa_noisy s)).

Lemma noisy_fold language pw d rules acc :
  foldl (fun acc r =>
    if SourceScopeMatchesContainer (nr_scopes r) pw language then
      let n := convert_noisy r in if negb (supported_by d n) then acc else acc ++ [n]
    else acc) acc rules
  = acc ++ filter (fun n => supported_by d n = true) (convert_noisy <$> scoped nr_scopes language pw rules).
Proof.
  revert acc. induction rules as [|r rules IH]; intros acc; [by rewrite app_nil_r|].
  simpl foldl. rewrite IH. unfold scoped. rewrite (filter_cons _ r). case_decide as Hs.
  - rewrite Hs, fmap_cons, filter_cons. destruct (supported_by d (convert_noisy r)) eqn:E; simpl.
    + by rewrite <- app_assoc.
    + done.
  - apply not_true_iff_false in Hs. by rewrite Hs.
Qed.

Lemma sampling_fold language pw d rules noisy relevant cost :
  foldl (sampling_rule_step language pw d) (noisy, relevant, cost) rules
  = (noisy ++ (rules ≫= supported_noisy language pw d),
     relevant ++ (rules ≫= fun s => convert_relevant <$> scoped hr_scopes language pw (sa_relevant s)),
     cost ++ (rules ≫= fun s => convert_cost <$> scoped cr_scopes language pw (sa_cost s))).
Proof.
  revert noisy relevant cost. induction rules as [|s rules IH]; intros noisy relevant cost.
  { by rewrite !app_nil_r. }
  rewrite !bind_cons. simpl foldl. rewrite noisy_fold, !filter_map_fold, IH.
  by rewrite <- !app_assoc.
Qed.

(** The three rule lists of a container hold exactly the sampling rules
    whose scope matches it, with their ids, plus the kubelet probe rules
    when these are switched on; only rules on query parameters that the
    distribution cannot evaluate are left out, and disabled rules are kept. *)
Theorem sampling_rules_exact (rules : list Sampling) (language : string) (pw : PodWorkload)
    (containerName : string) (d : OtelDistro) (w : option WorkloadView) (conf : OdigosConfiguration) :
  let '(noisy, relevant, cost) :=
    CalculateSamplingCategoryRulesForContainer rules language pw containerName d w conf in
  noisy ≡ₚ filter (fun n => supported_by d n = true)
             (calculateKubeletHealthProbesSamplingRules conf w containerName)
           ++ (rules ≫= supported_noisy language pw d)
  ∧ relevant ≡ₚ rules ≫= (fun s => convert_relevant <$> scoped hr_scopes language pw (sa_relevant s))
  ∧ cost ≡ₚ rules ≫= (fun s => convert_cost <$> scoped cr_scopes language pw (sa_cost s)).
Proof.
  unfold CalculateSamplingCategoryRulesForContainer. rewrite sampling_fold, !SortFunc_perm. simpl.
  split_and!; [|done..]. f_equiv.
  unfold calculateKubeletHealthProbesSamplingRules.
  by destruct (isK8sHealthProbesSamplingEnabled conf).
Qed.
End SamplingFacts.

Lemma sampling_rules_exact_witness :
  let r := mkCostRule "slow" false None None (float_of 10 0) in
  (@CalculateSamplingCategoryRulesForContainer go_insertion_sort sample_library
     [mkSampling [] [] [r]] "java" sample_pw "cart" sample_distro None sample_conf).2
  ≡ₚ [@convert_cost sample_library r].
Proof.
  intros r.
  exact (proj2 (proj2 (@sampling_rules_exact go_insertion_sort go_insertion_sort_laws sample_library
    [mkSampling [] [] [r]] "java" sample_pw "cart" sample_distro None sample_conf))).
Defined.

(** ** The order of the rules *)

Definition cost_rule (id : string) (p : float64) : CostReductionRule := mkCost id "" false None p.

(** Percentages that differ by less than one compare as equal, before
    the ids are looked at: the same two rules, listed in the other order,
    are written in the other order. *)
Theorem sampling_order_depends_on_list_order :
  exists l l' : list CostReductionRule, l ≡ₚ l' ∧ NoDup (co_id <$> l)
    ∧ @SortFunc go_insertion_sort _ cost_compare l <> @SortFunc go_insertion_sort _ cost_compare l'.
Proof.
  exists [cost_rule "a" (float_of 10 0); cost_rule "b" (float_of 21 (-1))],
         [cost_rule "b" (float_of 21 (-1)); cost_rule "a" (float_of 10 0)].
  split_and!; [constructor|by apply (bool_decide_eq_true_1 (NoDup ["a"; "b"]))|by vm_compute].
Qed.

(** The comparison is not a strict weak order, which [slices.SortFunc]
    requires: "equal" is not transitive. *)
Lemma cost_compare_not_weak : ~ WeakOrder cost_compare.
Proof.
  intros Hw.
  pose proof (weak_trans (cmp:=cost_compare) (cost_rule "a" (float_of 23 (-1)))
    (cost_rule "b" (float_of 43 (-2))) (cost_rule "c" (float_of 10 0))) as Ht.
  unfold not_less in Ht. apply Ht; by vm_compute.
Qed.

(** A percentage that is a whole number between 0 and 100. *)
Definition whole_percentage (p : float64) : Prop := exists n, (0 <= n <= 100)%Z ∧ p = float_of n 0.

Lemma whole_percentages_ok :
  forallb (fun a => forallb (fun b =>
    bool_decide (float_eqb (float_of a 0) (float_of b 0) = bool_decide (a = b))
    && bool_decide (float_to_int (float_sub (float_of a 0) (float_of b 0)) = (a - b)%Z)
    && bool_decide (float_to_int (float_of a 0) = a))
    (seqZ 0 101)) (seqZ 0 101) = true.
Proof. by vm_compute. Qed.

Lemma whole_percentage_sub a b :
  (0 <= a <= 100)%Z -> (0 <= b <= 100)%Z ->
  float_eqb (float_of a 0) (float_of b 0) = bool_decide (a = b)
  ∧ float_to_int (float_sub (float_of a 0) (float_of b 0)) = (a - b)%Z
  ∧ float_to_int (float_of a 0) = a.
Proof.
  intros Ha Hb. pose proof whole_percentages_ok as H.
  rewrite forallb_forall in H. specialize (H a). rewrite forallb_forall in H.
  assert (Hin : forall x, (0 <= x <= 100)%Z -> In x (seqZ 0 101)).
  { intros x Hx. apply list_elem_of_In, elem_of_seqZ. lia. }
  specialize (H (Hin a Ha) b (Hin b Hb)).
  rewrite !andb_true_iff, !bool_decide_eq_true in H. tauto.
Qed.

(** The order the comparison has in mind: by whole percentage, then id. *)
Definition whole_compare : comparer CostReductionRule :=
  compare_lex (compare_on (fun r => float_to_int (co_percentage r)) Z.sub) (compare_on co_id string_compare).

#[export] Instance sub_total : TotalCmp Z.sub.
Proof. split; lia. Qed.

Lemma cost_compare_whole a b :
  whole_percentage (co_percentage a) -> whole_percentage (co_percentage b) ->
  cost_compare a b = whole_compare a b.
Proof.
  intros (n & Hn & Ha) (m & Hm & Hb).
  unfold cost_compare, percentage_compare, whole_compare, compare_lex, compare_on, compare_then.
  rewrite Ha, Hb. destruct (whole_percentage_sub n m Hn Hm) as (-> & -> & ->).
  destruct (whole_percentage_sub m n Hm Hn) as (_ & _ & ->).
  case_bool_decide; simpl; case_decide; try lia; done.
Qed.

(** When every percentage is a whole number and the rules have different
    ids, the order of the cost reduction rules does not depend on the order in
    which they were listed. *)
Theorem sampling_order_whole_percentages `{GoSortLaws} (l l' : list CostReductionRule) :
  Forall (fun r => whole_percentage (co_percentage r)) l -> NoDup (co_id <$> l) -> l ≡ₚ l' ->
  SortFunc cost_compare l = SortFunc cost_compare l'.
Proof.
  intros Hw Hn Hp. rewrite Forall_forall in Hw.
  assert (Hext : forall k, k ≡ₚ l -> SortFunc cost_compare k = SortFunc whole_compare k).
  { intros k Hk. apply SortFunc_ext. intros x y Hx Hy. rewrite Hk in Hx, Hy.
    apply cost_compare_whole; auto. }
  rewrite !Hext by done. apply SortFunc_canonical; [apply _| |done].
  intros x y Hx Hy H1 H2.
  assert (Hid : co_id x = co_id y).
  { unfold whole_compare, not_less, compare_lex, compare_on, compare_then in H1, H2.
    repeat case_decide; try lia. by apply string_compare_antisym. }
  clear -Hn Hx Hy Hid. induction l as [|z l IH]; [by apply not_elem_of_nil in Hx|].
  rewrite fmap_cons in Hn. apply NoDup_cons in Hn as [Hz Hn].
  apply elem_of_cons in Hx as [->|Hx], Hy as [->|Hy]; auto; destruct Hz;
    [rewrite Hid|rewrite <- Hid]; by apply list_elem_of_fmap_2.
Qed.

Lemma sampling_order_whole_percentages_witness :
  @SortFunc go_insertion_sort _ cost_compare [cost_rule "a" (float_of 10 0); cost_rule "b" (float_of 5 0)]
  = @SortFunc go_insertion_sort _ cost_compare [cost_rule "b" (float_of 5 0); cost_rule "a" (float_of 10 0)].
Proof.
  apply (@sampling_order_whole_percentages go_insertion_sort go_insertion_sort_laws).
  - repeat constructor; [exists 10%Z|exists 5%Z]; (split; [lia|reflexivity]).
  - by apply (bool_decide_eq_true_1 (NoDup ["a"; "b"])).
  - constructor.
Defined.

(** ** Kubelet probes *)

Lemma queryParamsMatch_eq a b : queryParamsMatch a b = true <-> a = b.
Proof.
  revert b. induction a as [|[n v] a IH]; intros [|[m w] b]; simpl; try done.
  destruct v as [v|], w as [w|]; repeat case_bool_decide; simplify_eq/=; rewrite ?IH; naive_solver.
Qed.

Section Probes.
Context `{GoSort, GoLibrary}.

Definition probe_key (p : kubeletProbePathAndName) : string * list QueryParamMatcher :=
  (kp_path p, kp_query_params p).

Lemma addProbe_keys l path q name :
  (path, q) ∈ probe_key <$> addProbePathAndName l path q name
  ∧ (forall k, k ∈ probe_key <$> l -> k ∈ probe_key <$> addProbePathAndName l path q name)
  ∧ (forall k, k ∈ probe_key <$> addProbePathAndName l path q name -> k ∈ probe_key <$> l ∨ k = (path, q))
  ∧ (NoDup (probe_key <$> l) -> NoDup (probe_key <$> addProbePathAndName l path q name)).
Proof.
  induction l as [|p l (IH1 & IH2 & IH3 & IH4)]; simpl.
  { split_and!; [left|set_solver|set_solver|intros _; apply NoDup_singleton]. }
  destruct (bool_decide (kp_path p = path) && queryParamsMatch (kp_query_params p) q) eqn:E; simpl.
  - apply andb_true_iff in E as [E1%bool_decide_eq_true E2%queryParamsMatch_eq]. subst.
    split_and!; [left|by intros k|by left|done].
  - split_and!.
    + by right.
    + intros k [->|Hk]%elem_of_cons; [left|right; auto].
    + intros k [->|Hk]%elem_of_cons; [left; by left|]. destruct (IH3 k Hk); [left; by right|by right].
    + intros [Hp Hl]%NoDup_cons. constructor; [|auto]. intros Hk.
      destruct (IH3 _ Hk) as [?|Heq]; [done|]. unfold probe_key in Heq. simplify_eq.
      rewrite bool_decide_eq_true_2 in E by done.
      by rewrite (proj2 (queryParamsMatch_eq _ _) eq_refl) in E.
Qed.

(** The probes gathered so far cover those of [done], without repetition. *)
Definition covers (l : list kubeletProbePathAndName) (probes : list (option string)) : Prop :=
  NoDup (probe_key <$> l)
  ∧ (forall raw, Some raw ∈ probes -> parseHTTPGetPath raw ∈ probe_key <$> l)
  ∧ (forall k, k ∈ probe_key <$> l -> exists raw, Some raw ∈ probes ∧ k = parseHTTPGetPath raw).

Lemma add_probe_covers l probes http name :
  covers l probes -> covers (add_probe l http name) (probes ++ [http]).
Proof.
  intros (Hn & Hc & Hk). unfold add_probe. destruct http as [raw|].
  - destruct (parseHTTPGetPath raw) as [path q] eqn:E.
    destruct (addProbe_keys l path q name) as (A1 & A2 & A3 & A4). split_and!.
    + auto.
    + intros raw'. rewrite elem_of_app, list_elem_of_singleton. intros [?|[= ->]]; [auto|by rewrite E].
    + intros k Hin. destruct (A3 k Hin) as [Hl| ->].
      * destruct (Hk k Hl) as (raw' & ? & ?). exists raw'. rewrite elem_of_app. auto.
      * exists raw. rewrite elem_of_app, list_elem_of_singleton. auto.
  - split_and!; [done| |].
    + intros raw. rewrite elem_of_app, list_elem_of_singleton. naive_solver.
    + intros k Hin. destruct (Hk k Hin) as (raw' & ? & ?). exists raw'. rewrite elem_of_app. auto.
Qed.

(** The probe rules of a container are the distinct (path, query)
    pairs of its HTTP probes: every probe is covered, nothing else is, and
    two probes on the same endpoint share one rule. *)
Theorem probe_rules_cover_probes (w : WorkloadView) (containerName : string) (c : Container) :
  first_match (fun c => bool_decide (c_name c = containerName)) (PodSpecContainers w) = Some c ->
  covers (calculateKubeletHttpGetProbePaths w containerName)
    [c_startup_http c; c_liveness_http c; c_readiness_http c].
Proof.
  intros Hc. unfold calculateKubeletHttpGetProbePaths. rewrite Hc.
  apply (add_probe_covers _ [c_startup_http c; c_liveness_http c]).
  apply (add_probe_covers _ [c_startup_http c]). apply (add_probe_covers _ []).
  split_and!; [constructor|set_solver|set_solver].
Qed.
End Probes.

Lemma probe_rules_cover_probes_witness :
  @covers go_insertion_sort sample_library
    [mkProbe "/healthz" [] "LivenessProbe,ReadinessProbe"]
    [None; Some "/healthz"; Some "/healthz"].
Proof.
  set (c := with_probes (bare_container "cart") None (Some "/healthz") (Some "/healthz")).
  exact (@probe_rules_cover_probes go_insertion_sort sample_library
    (CronJobWorkloadV1 (mkCronJob (sample_meta "shop" "c") 0 [c])) "cart" c eq_refl).
Defined.
