(* ===== verification/DynamicConfig.v ===== *)
(** * The dynamic configuration of a container

    dynamicconfig/config.go and dynamicconfig/metrics: what the agent and the
    collectors are told about a container, per signal.  The rules' payloads
    live on the [Heap]; a nil dereference is [Panic]. *)

From S2P Require Import Prelude.
From S2P Require Import GoStrings.
From S2P Require Import GoSort.
From S2P Require Import GoLib.
From S2P Require Import Api.
From S2P Require Import Status.
From S2P Require Import Workload.
From S2P Require Import Scope.
From S2P Require Import Objects.
From S2P Require Import Samples.
From S2P Require Import RuleMerge.
From S2P Require Import ActionConfig.
From S2P Require Import SamplingConfig.

(** ** Metrics *)

Definition DistroSupportsAgentRuntimeMetrics (d : OtelDistro) : bool :=
  match d_agent_metrics d with Some m => deref_bool (dam_runtime_metrics m) | None => false end.

Definition CalculateAgentRuntimeMetricsConfig (d : OtelDistro) (conf : OdigosConfiguration)
    : option RuntimeMetricsConfiguration :=
  if negb (DistroSupportsAgentRuntimeMetrics d) then None
  else match conf_metrics_sources conf with
       | None => None
       | Some ms => match ms_agent_metrics ms with None => None | Some am => amc_runtime_metrics am end
       end.

Definition DistroSupportsAgentSpanMetrics (d : OtelDistro) : bool :=
  match d_agent_metrics d with Some m => deref_bool (dam_span_metrics m) | None => false end.

Definition AgentSpanMetricsEnabled (conf : OdigosConfiguration) : bool :=
  match conf_metrics_sources conf with
  | Some ms => match ms_agent_metrics ms with Some am => deref_bool (amc_span_metrics am) | None => false end
  | None => false
  end.

(** [int(d.Milliseconds())]. *)
Definition duration_ms (d : Z) : Z := Z.quot d 1000000.

Definition default_span_metrics : AgentSpanMetricsConfig :=
  mkAgentSpanMetrics
    ["http.method"; "http.request.method"; "http.status_code"; "http.response.status_code"; "http.route"]
    (60 * 1000)%Z
    [2; 4; 6; 8; 10; 50; 100; 200; 400; 800; 1000; 1400; 2000; 5000; 10000; 15000]%Z.

Section Metrics.
Context `{GoLibrary}.

Fixpoint parse_buckets (l : list string) : AgentDisabledInfo + list Z :=
  match l with
  | [] => inr []
  | bucket :: rest =>
      match ParseDuration bucket with
      | inl err => inl (mkDisabled InjectionConflict
                          ("failed to parse span metrics histogram bucket: " +:+ err))
      | inr d => match parse_buckets rest with
                 | inl e => inl e
                 | inr ds => inr (duration_ms d :: ds)
                 end
      end
  end.

(** [effectiveConfig.MetricsSources] is dereferenced unchecked. *)
Definition CalculateAgentSpanMetricsConfig (conf : OdigosConfiguration)
    : go (AgentDisabledInfo + AgentSpanMetricsConfig) :=
  go_bind (go_deref (conf_metrics_sources conf)) (fun ms =>
    let dflt := default_span_metrics in
    match ms_span_metrics ms with
    | None => Done (inr dflt)
    | Some sm =>
        let interval :=
          if decide (smc_interval sm = "") then inr (asm_interval_ms dflt)
          else match ParseDuration (smc_interval sm) with
               | inl err => inl (mkDisabled InjectionConflict
                                   ("failed to parse span metrics interval: " +:+ err))
               | inr d => inr (duration_ms d)
               end in
        match interval with
        | inl e => Done (inl e)
        | inr intervalMs =>
            let dimensions := asm_dimensions dflt ++ default [] (smc_additional_dimensions sm) in
            if nonempty (smc_buckets sm) then
              match parse_buckets (smc_buckets sm) with
              | inl e => Done (inl e)
              | inr buckets => Done (inr (mkAgentSpanMetrics dimensions intervalMs buckets))
              end
            else Done (inr (mkAgentSpanMetrics dimensions intervalMs (asm_buckets_ms dflt)))
        end
    end).

Definition calculateMetricsConfig (conf : OdigosConfiguration) (d : OtelDistro)
    (irls : list InstrumentationRule) : go (AgentDisabledInfo + AgentMetricsConfig) :=
  let rest (sm : option AgentSpanMetricsConfig) :=
    inr (mkMetrics sm (CalculateAgentRuntimeMetricsConfig d conf) (CalculateNetworkMetricsConfig irls)) in
  if DistroSupportsAgentSpanMetrics d && AgentSpanMetricsEnabled conf then
    go_bind (CalculateAgentSpanMetricsConfig conf) (fun r =>
      match r with inl e => Done (inl e) | inr c => Done (rest (Some c)) end)
  else Done (rest None).
End Metrics.

Definition CalculateSpanMetricsMode (conf : OdigosConfiguration)
    (nodeCollectorsGroup : option CollectorsGroup) : string :=
  let spanMetricsEnabled :=
    match nodeCollectorsGroup with
    | Some g => match cg_metrics g with
                | Some None => true
                | Some (Some sm) => negb (deref_bool (smc_disabled sm))
                | None => false
                end
    | None => false
    end in
  if negb spanMetricsEnabled then SpanMetricsModeSampledSpansOnly
  else if negb (match nodeCollectorsGroup with
                | Some g => contains_signal (cg_receiver_signals g) MetricsObservabilitySignal
                | None => false
                end) then SpanMetricsModeSampledSpansOnly
  else match conf_metrics_sources conf with
       | Some ms => match ms_span_metrics ms with
                    | Some sm => default SpanMetricsModeSampledSpansOnly (smc_mode sm)
                    | None => SpanMetricsModeSampledSpansOnly
                    end
       | None => SpanMetricsModeSampledSpansOnly
       end.

Definition CalculateDryRun (conf : OdigosConfiguration) : bool :=
  match conf_sampling conf with Some s => deref_bool (smp_dry_run s) | None => false end.

(** ** Traces *)

(** Writes to a field of [collectorConfig], allocated on first use. *)
Definition collector (c : option ContainerCollectorConfig) : ContainerCollectorConfig :=
  default empty_collector_config c.
Definition with_db_query c (v : DbQueryTemplatizationConfig) : option ContainerCollectorConfig :=
  let c := collector c in
  Some (mkCollectorConfig (cc_container_name c) (cc_tail_sampling c) (cc_url_templatization c)
          (Some v) (cc_infer_db c) (cc_pii c)).
Definition with_infer_db c : option ContainerCollectorConfig :=
  let c := collector c in
  Some (mkCollectorConfig (cc_container_name c) (cc_tail_sampling c) (cc_url_templatization c)
          (cc_db_query c) (Some tt) (cc_pii c)).
Definition with_pii c (v : PiiMaskingConfig) : option ContainerCollectorConfig :=
  let c := collector c in
  Some (mkCollectorConfig (cc_container_name c) (cc_tail_sampling c) (cc_url_templatization c)
          (cc_db_query c) (cc_infer_db c) (Some v)).
Definition with_tail_sampling c (v : TailSamplingSourceConfig) : option ContainerCollectorConfig :=
  let c := collector c in
  Some (mkCollectorConfig (cc_container_name c) (Some v) (cc_url_templatization c)
          (cc_db_query c) (cc_infer_db c) (cc_pii c)).

Section Dynamic.
Context `{GoSort, GoMapOrder, GoLibrary}.

(** Noisy operations, and then highly relevant and cost reduction rules,
    added to the collector configuration. *)
Definition add_tail_noisy (c : option ContainerCollectorConfig) (d : OtelDistro)
    (noisyOps : list NoisyOperation) : option ContainerCollectorConfig :=
  if DistroSupportsHeadSampling d then c
  else if nonempty noisyOps then with_tail_sampling c (mkTailSampling noisyOps [] []) else c.

Definition add_tail_rules (c : option ContainerCollectorConfig)
    (relevantOps : list HighlyRelevantOperation) (costRules : list CostReductionRule)
    : option ContainerCollectorConfig :=
  if nonempty relevantOps || nonempty costRules then
    let noisy := match cc_tail_sampling (collector c) with Some t => tsc_noisy t | None => [] end in
    with_tail_sampling c (mkTailSampling noisy relevantOps costRules)
  else c.

Definition head_sampling (conf : OdigosConfiguration) (d : OtelDistro)
    (nodeCollectorsGroup : option CollectorsGroup) (noisyOps : list NoisyOperation)
    : option HeadSamplingConfig :=
  if DistroSupportsHeadSampling d then
    let mode := CalculateSpanMetricsMode conf nodeCollectorsGroup in
    if nonempty noisyOps || negb (bool_decide (mode = SpanMetricsModeSampledSpansOnly))
    then Some (mkHeadSampling (CalculateDryRun conf) mode noisyOps) else None
  else None.

Definition calculateTracesConfig (h : Heap) (agentLevelActions : list Action) (containerName : string)
    (runtimeDetails : option RuntimeDetailsByContainer) (pw : PodWorkload) (d : OtelDistro)
    (workloadObj : option WorkloadView) (conf : OdigosConfiguration) (samplingRules : list Sampling)
    (irls : list InstrumentationRule) (nodeCollectorsGroup : option CollectorsGroup)
    : go (Heap * (AgentDisabledInfo + AgentTracesConfig * option ContainerCollectorConfig)) :=
  match CalculateIdGeneratorConfig conf with
  | inl e => Done (h, inl e)
  | inr idGenerator =>
      go_bind (go_deref runtimeDetails) (fun details =>
        let language := rd_language details in
        let url := CalculateUrlTemplatizationConfig agentLevelActions language pw in
        let inAgent := DistroSupportsTracesUrlTemplatization d && AgentSpanMetricsEnabled conf in
        let agentUrl := if inAgent then url else None in
        let c := match url with
                 | Some u => if inAgent then None
                             else Some (mkCollectorConfig "" None (Some u) None None None)
                 | None => None
                 end in
        let c := match CalculateDbQueryTemplatizationConfig agentLevelActions language pw with
                 | Some v => with_db_query c v | None => c end in
        let c := match CalculateInferDbAttributesConfig agentLevelActions language pw with
                 | Some _ => with_infer_db c | None => c end in
        let c := match CalculatePiiMaskingConfig agentLevelActions language pw with
                 | Some v => with_pii c v | None => c end in
        let '(noisyOps, relevantOps, costRules) :=
          CalculateSamplingCategoryRulesForContainer samplingRules language pw containerName d
            workloadObj conf in
        let headSampling := head_sampling conf d nodeCollectorsGroup noisyOps in
        let c := add_tail_noisy c d noisyOps in
        let c := add_tail_noisy c d noisyOps in
        let c := add_tail_rules c relevantOps costRules in
        let headers := CalculateHeaderCollectionConfig d irls in
        let renamer := CalculateSpanRenamerConfig d agentLevelActions language in
        let '(h, payload) := CalculatePayloadCollectionConfig h d irls in
        Done (h, inr (mkTraces idGenerator agentUrl headers headSampling renamer payload
                        (CalculateCodeAttributesConfig d irls) (CalculateTraceVerbosityConfig d irls)
                        (CalculateCustomInstrumentationsConfig d irls), c)))
  end.

Record DynamicContainerConfigs := mkDynamic
  { dyn_traces : option AgentTracesConfig;
    dyn_metrics : option AgentMetricsConfig;
    dyn_logs : option AgentLogsConfig;
    dyn_collector : option ContainerCollectorConfig;
    dyn_diagnostics : option AgentDiagnostics }.

Definition dynamic_traces (h : Heap) (enabled : bool) agentLevelActions containerName runtimeDetails pw d
    workloadObj conf samplingRules irls nodeCollectorsGroup
    : go (Heap * (AgentDisabledInfo + option AgentTracesConfig * option ContainerCollectorConfig)) :=
  if enabled then
    go_bind (calculateTracesConfig h agentLevelActions containerName runtimeDetails pw d workloadObj conf
               samplingRules irls nodeCollectorsGroup) (fun '(h, r) =>
      match r with
      | inl e => Done (h, inl e)
      | inr (t, c) => Done (h, inr (Some t, c))
      end)
  else Done (h, inr (None, None)).

Definition dynamic_metrics (enabled : bool) conf d irls
    : go (AgentDisabledInfo + option AgentMetricsConfig) :=
  if enabled then
    go_bind (calculateMetricsConfig conf d irls) (fun r =>
      match r with inl e => Done (inl e) | inr m => Done (inr (Some m)) end)
  else Done (inr None).

Definition CalculateDynamicContainerConfig (h : Heap) (containerName : string)
    (irls : list InstrumentationRule) (conf : OdigosConfiguration)
    (runtimeDetails : option RuntimeDetailsByContainer) (agentLevelActions : list Action)
    (samplingRules : list Sampling) (workloadObj : option WorkloadView) (pw : PodWorkload)
    (d : OtelDistro) (enabledSignals : EnabledSignals)
    (nodeCollectorsGroup clusterCollectorsGroup : option CollectorsGroup)
    : go (Heap * (AgentDisabledInfo + DynamicContainerConfigs)) :=
  go_bind (dynamic_traces h (TracesEnabled enabledSignals) agentLevelActions containerName runtimeDetails
             pw d workloadObj conf samplingRules irls nodeCollectorsGroup) (fun '(h, r) =>
    match r with
    | inl e => Done (h, inl e)
    | inr (tracesConfig, collectorConfig) =>
        go_bind (dynamic_metrics (MetricsEnabled enabledSignals) conf d irls) (fun r =>
          match r with
          | inl e => Done (h, inl e)
          | inr metricsConfig =>
              let logsEnabled :=
                match clusterCollectorsGroup with
                | Some g => contains_signal (cg_receiver_signals g) LogsObservabilitySignal
                | None => false
                end in
              let '(h, ebpf) := CalculateEbpfLogCaptureConfig h irls in
              let logsConfig :=
                match ebpf with
                | Some p => if logsEnabled then Some (mkLogs (Some p)) else None
                | None => None
                end in
              Done (h, inr (mkDynamic tracesConfig metricsConfig logsConfig collectorConfig
                              (CalculateAgentDiagnostics irls d)))
          end)
    end).
End Dynamic.

(** ** Properties *)

Definition no_tail : TailSamplingSourceConfig := mkTailSampling [] [] [].
Definition tail_of (c : option ContainerCollectorConfig) : TailSamplingSourceConfig :=
  default no_tail (c ≫= cc_tail_sampling).
Definition head_noisy (t : AgentTracesConfig) : list NoisyOperation :=
  from_option hsc_noisy [] (at_head_sampling t).

Section DynamicFacts.
Context `{GoSort, GoMapOrder, GoLibrary}.

Lemma tail_of_db c v : tail_of (with_db_query c v) = tail_of c.
Proof. by destruct c. Qed.
Lemma tail_of_infer c : tail_of (with_infer_db c) = tail_of c.
Proof. by destruct c. Qed.
Lemma tail_of_pii c v : tail_of (with_pii c v) = tail_of c.
Proof. by destruct c. Qed.
Lemma url_of_db c v : with_db_query c v ≫= cc_url_templatization = c ≫= cc_url_templatization.
Proof. by destruct c. Qed.
Lemma url_of_infer c : with_infer_db c ≫= cc_url_templatization = c ≫= cc_url_templatization.
Proof. by destruct c. Qed.
Lemma url_of_pii c v : with_pii c v ≫= cc_url_templatization = c ≫= cc_url_templatization.
Proof. by destruct c. Qed.
Lemma url_of_tail c v : with_tail_sampling c v ≫= cc_url_templatization = c ≫= cc_url_templatization.
Proof. by destruct c. Qed.

Lemma tail_of_noisy c d noisy :
  tail_of c = no_tail ->
  tail_of (add_tail_noisy (add_tail_noisy c d noisy) d noisy)
    = mkTailSampling (if DistroSupportsHeadSampling d then [] else noisy) [] []
  ∧ add_tail_noisy (add_tail_noisy c d noisy) d noisy ≫= cc_url_templatization = c ≫= cc_url_templatization.
Proof.
  intros Hc. unfold add_tail_noisy.
  destruct (DistroSupportsHeadSampling d); [done|].
  destruct noisy as [|n noisy]; [done|]. simpl nonempty. cbv iota.
  by rewrite !url_of_tail.
Qed.

Lemma tail_of_rules c relevant cost :
  tail_of (add_tail_rules c relevant cost)
    = mkTailSampling (tsc_noisy (tail_of c))
        (if nonempty relevant || nonempty cost then relevant else tsc_relevant (tail_of c))
        (if nonempty relevant || nonempty cost then cost else tsc_cost (tail_of c))
  ∧ add_tail_rules c relevant cost ≫= cc_url_templatization = c ≫= cc_url_templatization.
Proof.
  unfold add_tail_rules. destruct (nonempty relevant || nonempty cost).
  - rewrite url_of_tail. split; [|done]. unfold tail_of.
    destruct c as [c|]; [|done]. simpl. by destruct (cc_tail_sampling c).
  - split; [|done]. by destruct (tail_of c).
Qed.

Lemma head_sampling_noisy conf d g noisy :
  from_option hsc_noisy [] (head_sampling conf d g noisy)
  = if DistroSupportsHeadSampling d then noisy else [].
Proof.
  unfold head_sampling. destruct (DistroSupportsHeadSampling d); [|done].
  destruct noisy; simpl; [|done]. by case_match.
Qed.

(** C35: no sampling rule and no URL template of a container is lost or
    applied twice: noisy operations go to the agent when the distribution
    samples at the head and to the collector otherwise, highly relevant and
    cost reduction rules always go to the collector, and the URL
    templatization goes to exactly one of the two. *)
Theorem traces_config_routing (h h' : Heap) (actions : list Action) (containerName : string)
    (details : RuntimeDetailsByContainer) (pw : PodWorkload) (d : OtelDistro) (w : option WorkloadView)
    (conf : OdigosConfiguration) (samplings : list Sampling) (irls : list InstrumentationRule)
    (g : option CollectorsGroup) (t : AgentTracesConfig) (c : option ContainerCollectorConfig) :
  calculateTracesConfig h actions containerName (Some details) pw d w conf samplings irls g
    = Done (h', inr (t, c)) ->
  let '(noisy, relevant, cost) :=
    CalculateSamplingCategoryRulesForContainer samplings (rd_language details) pw containerName d w conf in
  let url := CalculateUrlTemplatizationConfig actions (rd_language details) pw in
  let inAgent := DistroSupportsTracesUrlTemplatization d && AgentSpanMetricsEnabled conf in
  let headSampled := DistroSupportsHeadSampling d in
  head_noisy t = (if headSampled then noisy else [])
  ∧ tail_of c = mkTailSampling (if headSampled then [] else noisy) relevant cost
  ∧ at_url_templatization t = (if inAgent then url else None)
  ∧ (c ≫= cc_url_templatization) = (if inAgent then None else url).
Proof.
  unfold calculateTracesConfig. destruct (CalculateIdGeneratorConfig conf) as [|gen]; [done|]. simpl.
  destruct (CalculateSamplingCategoryRulesForContainer _ _ _ _ _ _ _) as [[noisy relevant] cost].
  destruct (CalculatePayloadCollectionConfig h d irls) as [h1 payload].
  intros [= <- <- <-]. unfold head_noisy. simpl. rewrite head_sampling_noisy.
  set (inAgent := DistroSupportsTracesUrlTemplatization d && _).
  set (c1 := match CalculatePiiMaskingConfig _ _ _ with Some _ => _ | None => _ end).
  assert (Hc1 : tail_of c1 = no_tail ∧ c1 ≫= cc_url_templatization
    = if inAgent then None else CalculateUrlTemplatizationConfig actions (rd_language details) pw).
  { unfold c1.
    destruct (CalculateUrlTemplatizationConfig _ _ _), inAgent,
      (CalculateDbQueryTemplatizationConfig _ _ _), (CalculateInferDbAttributesConfig _ _ _),
      (CalculatePiiMaskingConfig _ _ _); done. }
  destruct Hc1 as [Ht1 Hu1]. destruct (tail_of_noisy c1 d noisy Ht1) as [Ht2 Hu2].
  destruct (tail_of_rules (add_tail_noisy (add_tail_noisy c1 d noisy) d noisy) relevant cost) as [Ht3 Hu3].
  rewrite Ht3, Hu3, Ht2, Hu2, Hu1. simpl. split_and!; try done.
  destruct relevant, cost; done.
Qed.

Lemma metrics_config_done conf d irls : exists r, calculateMetricsConfig conf d irls = Done r.
Proof.
  unfold calculateMetricsConfig.
  destruct (DistroSupportsAgentSpanMetrics d); simpl; [|by eexists].
  destruct (AgentSpanMetricsEnabled conf) eqn:E; [|by eexists].
  unfold AgentSpanMetricsEnabled in E. unfold CalculateAgentSpanMetricsConfig.
  destruct (conf_metrics_sources conf) as [ms|]; [|done]. simpl.
  repeat case_match; simplify_eq/=; by eexists.
Qed.

Lemma traces_config_done h actions containerName details pw d w conf samplings irls g :
  exists r, calculateTracesConfig h actions containerName (Some details) pw d w conf samplings irls g = Done r.
Proof.
  unfold calculateTracesConfig. destruct (CalculateIdGeneratorConfig conf) as [|gen]; [by eexists|]. simpl.
  destruct (CalculateSamplingCategoryRulesForContainer _ _ _ _ _ _ _) as [[noisy relevant] cost].
  destruct (CalculatePayloadCollectionConfig h d irls) as [h1 payload]. by eexists.
Qed.

Lemma dynamic_config_done (h : Heap) (containerName : string) (irls : list InstrumentationRule)
    (conf : OdigosConfiguration) (details : RuntimeDetailsByContainer) (actions : list Action)
    (samplings : list Sampling) (w : option WorkloadView) (pw : PodWorkload) (d : OtelDistro)
    (signals : EnabledSignals) (node cluster : option CollectorsGroup) :
  exists h' r,
    CalculateDynamicContainerConfig h containerName irls conf (Some details) actions samplings w pw d
      signals node cluster = Done (h', r)
    ∧ forall dyn, r = inr dyn ->
        (is_Some (dyn_traces dyn) <-> TracesEnabled signals = true)
        ∧ (is_Some (dyn_metrics dyn) <-> MetricsEnabled signals = true).
Proof.
  unfold CalculateDynamicContainerConfig, dynamic_traces, dynamic_metrics.
  destruct (traces_config_done h actions containerName details pw d w conf samplings irls node)
    as [[h1 [e|[t c]]] Ht]; destruct (metrics_config_done conf d irls) as [[e'|m] Hm];
    rewrite Ht, Hm; clear Ht Hm.
  all: destruct (TracesEnabled signals), (MetricsEnabled signals); simpl;
    try destruct (CalculateEbpfLogCaptureConfig _ irls) as [h2 [p|]];
    do 2 eexists; (split; [reflexivity|]); intros dyn ?; simplify_eq/=.
  all: split; split; intros Hs; try done; try (by eexists); by destruct Hs.
Qed.

(** With runtime details at hand, computing the dynamic configuration
    never dereferences a nil pointer; and when it succeeds, the agent has a
    traces section exactly when traces are enabled for the container, a
    metrics section exactly when metrics are. *)
Theorem dynamic_config_total (h : Heap) (containerName : string) (irls : list InstrumentationRule)
    (conf : OdigosConfiguration) (details : RuntimeDetailsByContainer) (actions : list Action)
    (samplings : list Sampling) (w : option WorkloadView) (pw : PodWorkload) (d : OtelDistro)
    (signals : EnabledSignals) (node cluster : option CollectorsGroup) :
  exists h' r,
    CalculateDynamicContainerConfig h containerName irls conf (Some details) actions samplings w pw d
      signals node cluster = Done (h', r)
    ∧ forall dyn, r = inr dyn ->
        (is_Some (dyn_traces dyn) <-> TracesEnabled signals = true)
        ∧ (is_Some (dyn_metrics dyn) <-> MetricsEnabled signals = true).
Proof. apply dynamic_config_done. Qed.
End DynamicFacts.

Lemma traces_config_routing_witness :
  exists h' t c,
    @calculateTracesConfig go_insertion_sort order_forward sample_library sample_heap [] "cart"
      (Some (sample_details "cart")) sample_pw sample_distro None sample_conf [] [] None = Done (h', inr (t, c))
    ∧ @tail_of c = no_tail.
Proof.
  do 3 eexists. split; [reflexivity|].
  exact (proj1 (proj2 (@traces_config_routing go_insertion_sort order_forward sample_library
    sample_heap _ [] "cart" (sample_details "cart") sample_pw sample_distro None sample_conf [] [] None _ _
    eq_refl))).
Defined.
