(* ===== verification/Distros.v ===== *)
(** * Distributions: lookup, version fallback, resolution for a container

    distros/oteldistributions.go, distros/distro/utils.go,
    common/lang_detection.go and
    instrumentor/controllers/agentenabled/distroresolver.  The go-version
    library is the class [GoVersion]. *)

From stdpp Require Import pretty.
From S2P Require Import Prelude.
From S2P Require Import GoStrings.
From S2P Require Import GoLib.
From S2P Require Import Api.
From S2P Require Import Status.
From S2P Require Import Samples.

(** ** github.com/hashicorp/go-version *)
Class GoVersion := {
  version : Type;
  constraint : Type;
  NewVersion : string -> option version;
  Core : version -> version;
  Segments : version -> list Z;
  version_String : version -> string;
  NewConstraint : string -> option constraint;
  constraint_Check : constraint -> version -> bool;
  constraint_String : constraint -> string
}.

(** Versions for concrete runs: a decimal number; the constraint ["n"] is
    satisfied from [n] on. *)
Definition sample_versions : GoVersion := {|
  version := Z;
  constraint := Z;
  NewVersion := parse_int64;
  Core v := v;
  Segments v := [v; 0%Z];
  version_String v := pretty v;
  NewConstraint := parse_int64;
  constraint_Check c v := bool_decide (c <= v)%Z;
  constraint_String c := pretty c
|}.

(** ** Languages *)
Definition IsProgrammingLanguageWildcard (lang : string) : bool :=
  bool_decide (trim_space lang = ProgrammingLanguageWildcard).

(** ** The getter *)
Abbreviation Getter := (gmap string OtelDistro).
Definition GetDistroByName (g : Getter) (distroName : string) : option OtelDistro := g !! distroName.
Definition GetAllDistros `{GoMapOrder} (g : Getter) : list OtelDistro := map_order (map_to_list g).*2.

Section Versions.
Context `{GoVersion}.

Definition ParseRuntimeVersion (versionString : string) : option version := Core <$> NewVersion versionString.

Definition MajorMinorStringOnly (v : version) : string + string :=
  match Segments v with
  | major :: minor :: _ => inr (pretty major +:+ "." +:+ pretty minor)
  | _ => inl ("version " +:+ version_String v +:+ " has less than 2 segments")
  end.

(** The distribution's first runtime environment accepts the version. *)
Definition supports_version (d : OtelDistro) (detected : version) : bool :=
  match d_runtime_environments d with
  | [] => false
  | re :: _ =>
      if decide (re_supported_versions re = "") then false
      else match NewConstraint (re_supported_versions re) with
           | Some c => constraint_Check c detected
           | None => false
           end
  end.

(** One iteration of the loop of [ResolveDistroNameForVersion]: return a
    name ([inl]) or go on with the next one ([inr]). *)
Definition resolve_step (g : Getter) (defaultDistroName : string) (detected : version)
    (currentName : string) : string + string :=
  match GetDistroByName g currentName with
  | None => inl defaultDistroName
  | Some current =>
      if supports_version current detected then inl currentName
      else match d_fallback current with
           | None => inl currentName
           | Some next => inr next
           end
  end.

Fixpoint resolve_loop (fuel : nat) (g : Getter) (defaultDistroName : string) (detected : version)
    (currentName : string) : option string :=
  match fuel with
  | 0 => None
  | S fuel =>
      match resolve_step g defaultDistroName detected currentName with
      | inl r => Some r
      | inr next => resolve_loop fuel g defaultDistroName detected next
      end
  end.

(** The loop has no bound; [resolve_fuel_enough] below shows that running
    out of this fuel means that it does not return. *)
Definition resolve_fuel (g : Getter) : nat := S (size g).

Definition ResolveDistroNameForVersion (g : Getter) (defaultDistroName runtimeVersion : string)
    : go string :=
  if decide (runtimeVersion = "") then Done defaultDistroName
  else match ParseRuntimeVersion runtimeVersion with
       | None => Done defaultDistroName
       | Some detected =>
           match resolve_loop (resolve_fuel g) g defaultDistroName detected defaultDistroName with
           | Some name => Done name
           | None => Hang
           end
       end.
End Versions.

(** ** The provider *)
Definition communityDefaultDistroNames : gmap string string :=
  list_to_map
    [(JavascriptProgrammingLanguage, "nodejs-community"); (PythonProgrammingLanguage, "python-community");
     (DotNetProgrammingLanguage, "dotnet-community"); (JavaProgrammingLanguage, "java-community");
     (GoProgrammingLanguage, "golang-community"); (PhpProgrammingLanguage, "php-community");
     (RubyProgrammingLanguage, "ruby-community")].

Record Provider := mkProvider { p_defaults : gmap string string; p_getter : Getter }.

(** Later getters override earlier ones. *)
Definition NewProvider `{GoMapOrder} (defaults : gmap string string) (getters : list Getter)
    : string + Provider :=
  if decide (getters = []) then inl "at least one getter must be provided"
  else
    let distros := foldl (fun m g => g ∪ m) ∅ getters in
    match first_match (fun n => bool_decide (distros !! n = None)) (map_order (map_to_list defaults).*2) with
    | Some distroName => inl ("default distribution " +:+ distroName +:+ " not found in any getter")
    | None => inr (mkProvider defaults distros)
    end.

Definition IsRestartRequired (d : OtelDistro) : bool :=
  match d_runtime_agent d with None => false | Some ra => negb (ra_no_restart_required ra) end.

Definition RuntimeAgentOptionValue (d : option OtelDistro) (optionName : string) : option string :=
  match d with
  | None => None
  | Some d =>
      match d_runtime_agent d with
      | None => None
      | Some ra => snd <$> first_match (fun o => bool_decide (o.1 = optionName)) (ra_options ra)
      end
  end.

(** ** Resolution for a container *)

Section Resolver.
Context `{GoVersion}.

Definition resolveDistroByOverride (overwriteDistroName : string) (g : Getter) (containerLanguage : string)
    : AgentDisabledInfo + OtelDistro :=
  match GetDistroByName g overwriteDistroName with
  | None =>
      inl (mkDisabled NoAvailableAgent
        ("requested otel distro " +:+ overwriteDistroName +:+ " is not available in this odigos tier"))
  | Some distro =>
      if IsProgrammingLanguageWildcard (d_language distro) then inr distro
      else if negb (bool_decide (d_language distro = containerLanguage)) then
        inl (mkDisabled UnsupportedProgrammingLanguage
          ("requested otel distro " +:+ overwriteDistroName +:+ " does not support language "
           +:+ containerLanguage))
      else inr distro
  end.

Definition resolveDistroByLanguage (containerLanguage : string) (distroPerLanguage : gmap string string)
    (g : Getter) (runtimeVersion : string) : go (AgentDisabledInfo + OtelDistro) :=
  match distroPerLanguage !! containerLanguage with
  | None =>
      if decide (containerLanguage = UnknownProgrammingLanguage) then
        Done (inl (mkDisabled NoAvailableAgent
          "runtime language/platform cannot be detected, no instrumentation agent is available. use the container override to manually specify the programming language."))
      else
        Done (inl (mkDisabled NoAvailableAgent
          ("support for " +:+ containerLanguage
           +:+ " is coming soon. no instrumentation agent available at the moment")))
  | Some defaultDistroName =>
      go_bind (ResolveDistroNameForVersion g defaultDistroName runtimeVersion) (fun effectiveDistroName =>
        match GetDistroByName g effectiveDistroName with
        | None =>
            Done (inl (mkDisabled NoAvailableAgent
              ("otel distro " +:+ effectiveDistroName +:+ " is not available in this odigos tier")))
        | Some distro => Done (inr distro)
        end)
  end.

Definition rule_distro_step (g : Getter) (m : gmap string string) (distroName : string) : gmap string string :=
  match GetDistroByName g distroName with
  | None => m
  | Some distro =>
      if IsProgrammingLanguageWildcard (d_language distro) then m
      else <[d_language distro := distroName]> m
  end.

Definition CalculateDefaultDistroPerLanguage (defaultDistros : gmap string string)
    (instrumentationRules : list InstrumentationRule) (g : Getter) : gmap string string :=
  foldl (fun m rule =>
    match ir_otel_distros rule with
    | None => m
    | Some names => foldl (rule_distro_step g) m names
    end) defaultDistros instrumentationRules.

(** The check of the runtime version, when it is known and the distribution
    has one runtime environment and one language. *)
Definition check_version (d : OtelDistro) (runtimeVersion : string) : option AgentDisabledInfo :=
  match d_runtime_environments d with
  | [re] =>
      if negb (bool_decide (runtimeVersion = "")) && negb (IsProgrammingLanguageWildcard (d_language d)) then
        match NewConstraint (re_supported_versions re) with
        | None =>
            Some (mkDisabled UnsupportedRuntimeVersion
              ("failed to parse supported versions constraint: " +:+ re_supported_versions re))
        | Some c =>
            match ParseRuntimeVersion runtimeVersion with
            | None => Some (mkDisabled UnsupportedRuntimeVersion
                              ("failed to parse runtime version: " +:+ runtimeVersion))
            | Some detected =>
                if negb (constraint_Check c detected) then
                  Some (mkDisabled UnsupportedRuntimeVersion
                    (re_name re +:+ " runtime not supported by OpenTelemetry. supported versions: '"
                     +:+ constraint_String c +:+ "', found: " +:+ version_String detected))
                else None
            end
        end
      else None
  | _ => None
  end.

Definition ResolveDistroForContainer (conf : OdigosConfiguration)
    (runtimeDetails : option RuntimeDetailsByContainer) (distroPerLanguage : gmap string string)
    (g : Getter) (containerOverride : option ContainerOverride) (containerName : string)
    : go (AgentDisabledInfo + OtelDistro) :=
  if existsb (fun ignored => bool_decide (ignored = containerName)) (conf_ignored_containers conf) then
    Done (inl (mkDisabled IgnoredContainer (r_message AgentEnabledIgnoredContainer)))
  else match runtimeDetails with
  | None => Done (inl (mkDisabled RuntimeDetailsUnavailable (r_message AgentEnabledRuntimeDetailsUnavailable)))
  | Some details =>
      if decide (rd_language details = UnknownProgrammingLanguage) then
        Done (inl (mkDisabled UnsupportedProgrammingLanguage
                     (r_message AgentEnabledUnsupportedProgrammingLanguage)))
      else
        let distroToUse :=
          match containerOverride ≫= co_otel_distro_name with
          | Some name => Done (resolveDistroByOverride name g (rd_language details))
          | None => resolveDistroByLanguage (rd_language details) distroPerLanguage g (rd_runtime_version details)
          end in
        go_bind distroToUse (fun r =>
          match r with
          | inl info => Done (inl info)
          | inr d => match check_version d (rd_runtime_version details) with
                     | Some info => Done (inl info)
                     | None => Done (inr d)
                     end
          end)
  end.
End Resolver.

(** ** The fallback chain *)

Section Chain.
Context `{GoVersion} (g : Getter) (defaultDistroName : string) (detected : version).
Local Abbreviation step := (resolve_step g defaultDistroName detected).
Local Abbreviation loop fuel := (resolve_loop fuel g defaultDistroName detected).

(** The name under inspection after [n] iterations. *)
Fixpoint walk (n : nat) (name : string) : option string :=
  match n with
  | 0 => Some name
  | S n => match step name with inl _ => None | inr next => walk n next end
  end.

Lemma walk_add i j name : walk (i + j) name = walk i name ≫= walk j.
Proof. revert name. induction i as [|i IH]; intros name; simpl; [done|]. by destruct (step name). Qed.

Lemma loop_walk fuel name : loop fuel name = None <-> is_Some (walk fuel name).
Proof.
  revert name. induction fuel as [|fuel IH]; intros name; simpl; [done|].
  destruct (step name); [|apply IH]. split; [done|]. by intros [? ?].
Qed.

Lemma walk_dom i name x :
  walk i name = Some x -> is_Some (walk (S i) name) -> x ∈ dom g.
Proof.
  intros Hx. rewrite <- Nat.add_1_r, walk_add, Hx. simpl. unfold resolve_step, GetDistroByName.
  intros Hs. apply elem_of_dom. destruct (g !! x); [by eexists|]. by destruct Hs.
Qed.

Lemma walk_least k name :
  walk k name = None ->
  exists m, m <= k ∧ walk m name = None ∧ forall i, i < m -> is_Some (walk i name).
Proof.
  induction k as [k IH] using lt_wf_ind. intros Hk.
  destruct (decide (Forall (fun i => is_Some (walk i name)) (seq 0 k))) as [Ha|Hn].
  - exists k. split_and!; [done|done|]. intros i Hi. rewrite Forall_forall in Ha. apply Ha.
    apply elem_of_seq. lia.
  - apply not_Forall_Exists in Hn; [|apply _]. apply Exists_exists in Hn as (i & Hi & Hw).
    apply elem_of_seq in Hi. assert (Hw' : walk i name = None) by by apply eq_None_not_Some.
    destruct (IH i) as (m & ? & ? & ?); [lia|done|]. exists m. split_and!; [lia|done..].
Qed.

(** The names seen before the chain ends are different. *)
Lemma walk_bound m name :
  walk m name = None -> (forall i, i < m -> is_Some (walk i name)) -> m <= resolve_fuel g.
Proof.
  intros Hm Hs. set (f := fun i => default "" (walk i name)).
  assert (Hf : forall i, i < m -> walk i name = Some (f i)).
  { intros i Hi. unfold f. destruct (Hs i Hi) as [x ->]. done. }
  assert (Hinj : forall i j, i < j -> j < m -> f i <> f j).
  { intros i j Hij Hj Heq. destruct (Hs (i + (m - j))) as [x Hx]; [lia|].
    rewrite walk_add, Hf in Hx by lia. simpl in Hx. rewrite Heq in Hx.
    replace m with (j + (m - j)) in Hm by lia. rewrite walk_add, Hf in Hm by lia. simpl in Hm. congruence. }
  assert (Hnd : NoDup (f <$> seq 0 (m - 1))).
  { apply NoDup_alt. intros i j x Hi Hj. rewrite !list_lookup_fmap_Some in Hi, Hj.
    destruct Hi as (i' & -> & [-> ?]%lookup_seq), Hj as (j' & Heq & [-> ?]%lookup_seq). simpl in *.
    destruct (lt_eq_lt_dec i j) as [[Hlt| ->]|Hgt]; [|done|].
    - by destruct (Hinj i j); [lia|lia|].
    - by destruct (Hinj j i); [lia|lia|]. }
  assert (Hsub : f <$> seq 0 (m - 1) ⊆+ elements (dom g)).
  { apply NoDup_submseteq; [done|]. intros x (i & -> & Hi%elem_of_seq)%list_elem_of_fmap.
    apply elem_of_elements, (walk_dom i name); [apply Hf; lia|apply Hs; lia]. }
  apply submseteq_length in Hsub. rewrite length_fmap, length_seq in Hsub.
  change (length (elements (dom g))) with (size (dom g)) in Hsub. rewrite size_dom in Hsub.
  unfold resolve_fuel. lia.
Qed.

Lemma loop_more fuel fuel' name r :
  fuel <= fuel' -> loop fuel name = Some r -> loop fuel' name = Some r.
Proof.
  revert fuel' name. induction fuel as [|fuel IH]; intros [|fuel'] name Hle; simpl; try done; [lia|].
  destruct (step name); [done|]. apply IH. lia.
Qed.

Lemma loop_fuel k name r : loop k name = Some r -> loop (resolve_fuel g) name = Some r.
Proof.
  intros Hk. destruct (walk k name) as [x|] eqn:Hw.
  { assert (Hn : loop k name = None) by (apply loop_walk; by eexists). congruence. }
  destruct (walk_least k name Hw) as (m & Hmk & Hm & Hs).
  assert (Hl : loop m name = Some r).
  { destruct (loop m name) as [r'|] eqn:E.
    - apply (loop_more m k) in E; [|done]. congruence.
    - apply loop_walk in E. rewrite Hm in E. by destruct E. }
  eapply loop_more, Hl. by eapply walk_bound.
Qed.
End Chain.

Section ChainProperties.
Context `{GoVersion}.

(** The fallback loop has no bound of its own, and none is needed: if
    any number of iterations reaches an answer, one more than the number of
    known distributions does, with the same answer.  So [Hang] means that
    the loop really never ends. *)
Theorem resolve_fuel_enough (g : Getter) (defaultDistroName : string) (detected : version)
    (fuel : nat) (r : string) :
  resolve_loop fuel g defaultDistroName detected defaultDistroName = Some r ->
  resolve_loop (resolve_fuel g) g defaultDistroName detected defaultDistroName = Some r.
Proof. apply loop_fuel. Qed.

(** A ranking of the distributions that every fallback decreases. *)
Definition acyclic (g : Getter) : Prop :=
  exists rank : string -> nat, forall n d m,
    g !! n = Some d -> d_fallback d = Some m -> rank m < rank n.

Lemma resolution_returns (g : Getter) (defaultDistroName runtimeVersion : string) :
  acyclic g -> exists name, ResolveDistroNameForVersion g defaultDistroName runtimeVersion = Done name.
Proof.
  intros [rank Hr]. unfold ResolveDistroNameForVersion. case_decide; [by eexists|].
  destruct (ParseRuntimeVersion runtimeVersion) as [v|]; [|by eexists].
  assert (Ht : forall n name, rank name < n -> exists r, resolve_loop n g defaultDistroName v name = Some r).
  { induction n as [|n IH]; intros name Hn; [lia|]. simpl. unfold resolve_step, GetDistroByName.
    destruct (g !! name) as [d|] eqn:Hg; [|by eexists].
    destruct (supports_version d v); [by eexists|].
    destruct (d_fallback d) as [m|] eqn:Hd; [|by eexists].
    apply IH. specialize (Hr name d m Hg Hd). lia. }
  destruct (Ht (S (rank defaultDistroName)) defaultDistroName) as [r Hloop]; [lia|].
  exists r. by rewrite (loop_fuel _ _ _ _ _ _ Hloop).
Qed.

(** C34: when the fallback links have no cycle, the loop returns, whatever
    the version. *)
Theorem resolve_terminates (g : Getter) (defaultDistroName runtimeVersion : string) :
  acyclic g -> exists name, ResolveDistroNameForVersion g defaultDistroName runtimeVersion = Done name.
Proof. apply resolution_returns. Qed.

(** A fallback cycle of distributions none of which supports the
    version makes the lookup run forever. *)
Theorem resolve_cycle_hangs (g : Getter) (a b runtimeVersion : string) (v : version) (da db : OtelDistro) :
  runtimeVersion <> "" -> ParseRuntimeVersion runtimeVersion = Some v ->
  g !! a = Some da -> d_fallback da = Some b -> supports_version da v = false ->
  g !! b = Some db -> d_fallback db = Some a -> supports_version db v = false ->
  ResolveDistroNameForVersion g a runtimeVersion = Hang
  ∧ forall fuel, resolve_loop fuel g a v a = None.
Proof.
  intros Hv Hp Ha Hfa Hsa Hb Hfb Hsb.
  assert (Hn : forall fuel, resolve_loop fuel g a v a = None ∧ resolve_loop fuel g a v b = None).
  { induction fuel as [|fuel [IHa IHb]]; [done|]. simpl. unfold resolve_step, GetDistroByName.
    by rewrite Ha, Hfa, Hsa, Hb, Hfb, Hsb. }
  split; [|apply Hn]. unfold ResolveDistroNameForVersion. rewrite decide_False, Hp by done.
  by rewrite (proj1 (Hn _)).
Qed.

(** One link of the chain: a known distribution that does not support the
    version, and its fallback. *)
Definition passes (g : Getter) (v : version) (a b : string) : Prop :=
  exists d, g !! a = Some d ∧ supports_version d v = false ∧ d_fallback d = Some b.

Lemma resolution_answer (g : Getter) (defaultDistroName runtimeVersion name : string) (v : version) :
  runtimeVersion <> "" -> ParseRuntimeVersion runtimeVersion = Some v ->
  ResolveDistroNameForVersion g defaultDistroName runtimeVersion = Done name ->
  exists last, rtc (passes g v) defaultDistroName last
    ∧ ((g !! last = None ∧ name = defaultDistroName)
       ∨ exists d, g !! last = Some d ∧ name = last
           ∧ (supports_version d v = true ∨ d_fallback d = None)).
Proof.
  intros Hv Hp. unfold ResolveDistroNameForVersion. rewrite decide_False, Hp by done.
  destruct (resolve_loop _ _ _ _ _) as [r|] eqn:E; [|done]. intros [= <-].
  revert E. generalize (resolve_fuel g). intros fuel.
  assert (Hgen : forall fuel n, resolve_loop fuel g defaultDistroName v n = Some r ->
    exists last, rtc (passes g v) n last
    ∧ ((g !! last = None ∧ r = defaultDistroName)
       ∨ exists d, g !! last = Some d ∧ r = last ∧ (supports_version d v = true ∨ d_fallback d = None))).
  { clear fuel. induction fuel as [|fuel IH]; intros n; simpl; [done|].
    unfold resolve_step, GetDistroByName. destruct (g !! n) as [d|] eqn:Hg.
    - destruct (supports_version d v) eqn:Hs; [|destruct (d_fallback d) as [m|] eqn:Hf].
      + intros [= <-]. exists n. split; [done|]. right. exists d. auto.
      + intros Hr. destruct (IH m Hr) as (last & Hrtc & Hl). exists last. split; [|done].
        eapply rtc_l; [|done]. by exists d.
      + intros [= <-]. exists n. split; [done|]. right. exists d. auto.
    - intros [= <-]. exists n. split; [done|]. left. done. }
  apply Hgen.
Qed.

(** The answer of the fallback walk: the first distribution of the
    chain that supports the version; else the last of the chain; else, when
    the chain leaves the known distributions, the default. *)
Theorem resolve_answer (g : Getter) (defaultDistroName runtimeVersion name : string) (v : version) :
  runtimeVersion <> "" -> ParseRuntimeVersion runtimeVersion = Some v ->
  ResolveDistroNameForVersion g defaultDistroName runtimeVersion = Done name ->
  exists last, rtc (passes g v) defaultDistroName last
    ∧ ((g !! last = None ∧ name = defaultDistroName)
       ∨ exists d, g !! last = Some d ∧ name = last
           ∧ (supports_version d v = true ∨ d_fallback d = None)).
Proof. apply resolution_answer. Qed.
End ChainProperties.

(** ** Which distribution a container gets *)

(** The distribution serves the language. *)
Definition serves (d : OtelDistro) (lang : string) : Prop :=
  d_language d = lang ∨ IsProgrammingLanguageWildcard (d_language d) = true.

(** The chosen names per language are distributions of that language. *)
Definition language_coherent (g : Getter) (m : gmap string string) : Prop :=
  forall lang n d, m !! lang = Some n -> g !! n = Some d -> d_language d = lang.

(** A fallback serves the languages of the distribution it replaces. *)
Definition fallback_coherent (g : Getter) : Prop :=
  forall n d m d' lang, g !! n = Some d -> d_fallback d = Some m -> g !! m = Some d' ->
    serves d lang -> serves d' lang.

Lemma rule_distro_step_coherent g m n : language_coherent g m -> language_coherent g (rule_distro_step g m n).
Proof.
  intros Hm. unfold rule_distro_step, GetDistroByName. destruct (g !! n) as [d|] eqn:Hn; [|done].
  case_match; [done|]. intros lang n' d' Hl Hg.
  destruct (decide (d_language d = lang)) as [<-|Hne].
  - rewrite lookup_insert_eq in Hl. by simplify_eq.
  - rewrite lookup_insert_ne in Hl by done. by eapply Hm.
Qed.

(** An instrumentation rule can only replace the default distribution of
    a language by a distribution of that language: coherent defaults stay
    coherent under any rules. *)
Theorem default_distro_language (g : Getter) (defaults : gmap string string) (rules : list InstrumentationRule) :
  language_coherent g defaults ->
  language_coherent g (CalculateDefaultDistroPerLanguage defaults rules g).
Proof.
  unfold CalculateDefaultDistroPerLanguage. revert defaults.
  induction rules as [|r rules IH]; intros m Hm; simpl; [done|]. apply IH.
  destruct (ir_otel_distros r) as [names|]; [|done]. revert m Hm.
  induction names as [|n names IHn]; intros m Hm; simpl; [done|]. by apply IHn, rule_distro_step_coherent.
Qed.

Section ResolverFacts.
Context `{GoVersion}.

Lemma passes_serves g v a b d lang :
  fallback_coherent g -> rtc (passes g v) a b -> g !! b = Some d ->
  (forall d', g !! a = Some d' -> serves d' lang) -> serves d lang.
Proof.
  intros Hf Hr. induction Hr as [x|x y z (dx & Hx & _ & Hd) Hr IH]; intros Hb Ha; [by apply Ha|].
  apply IH; [done|]. intros dy Hy. exact (Hf x dx y dy lang Hx Hd Hy (Ha dx Hx)).
Qed.

(** The name found by the fallback walk serves the language of the default. *)
Lemma resolve_serves g n rv name d lang :
  fallback_coherent g -> (forall d', g !! n = Some d' -> serves d' lang) ->
  ResolveDistroNameForVersion g n rv = Done name -> g !! name = Some d -> serves d lang.
Proof.
  intros Hf Hn Hr Hg. destruct (decide (rv = "")) as [->|Hv].
  { unfold ResolveDistroNameForVersion in Hr. rewrite decide_True in Hr by done. simplify_eq. auto. }
  destruct (ParseRuntimeVersion rv) as [v|] eqn:Hp.
  - destruct (resolution_answer g n rv name v Hv Hp Hr) as (last & Hrtc & [[Hl ->]|(d' & Hl & -> & _)]).
    + auto.
    + eapply passes_serves; eauto.
  - unfold ResolveDistroNameForVersion in Hr. rewrite decide_False, Hp in Hr by done. simplify_eq. auto.
Qed.

Lemma check_version_None d rv re :
  check_version d rv = None -> d_runtime_environments d = [re] -> rv <> "" ->
  IsProgrammingLanguageWildcard (d_language d) = false ->
  exists c v, NewConstraint (re_supported_versions re) = Some c
    ∧ ParseRuntimeVersion rv = Some v ∧ constraint_Check c v = true.
Proof.
  unfold check_version. intros Hc He Hrv Hw. rewrite He, bool_decide_eq_false_2, Hw in Hc by done. simpl in Hc.
  destruct (NewConstraint _) as [c|]; [|done]. destruct (ParseRuntimeVersion rv) as [v|]; [|done].
  exists c, v. split_and!; [done..|]. by destruct (constraint_Check c v).
Qed.

(** A container gets a distribution only if it is not ignored, its
    runtime was inspected and its language is known; the distribution is one
    of the known ones, serves the container's language, and supports the
    detected runtime version whenever that can be checked. *)
Theorem resolved_distro_sound (conf : OdigosConfiguration) (rd : option RuntimeDetailsByContainer)
    (m : gmap string string) (g : Getter) (ov : option ContainerOverride) (name : string) (d : OtelDistro) :
  language_coherent g m -> fallback_coherent g ->
  ResolveDistroForContainer conf rd m g ov name = Done (inr d) ->
  name ∉ conf_ignored_containers conf
  ∧ exists details, rd = Some details
    ∧ rd_language details <> UnknownProgrammingLanguage
    ∧ (exists n, g !! n = Some d)
    ∧ serves d (rd_language details)
    ∧ (forall re, d_runtime_environments d = [re] -> rd_runtime_version details <> "" ->
         IsProgrammingLanguageWildcard (d_language d) = false ->
         exists c v, NewConstraint (re_supported_versions re) = Some c
           ∧ ParseRuntimeVersion (rd_runtime_version details) = Some v ∧ constraint_Check c v = true).
Proof.
  intros Hm Hf. unfold ResolveDistroForContainer. destruct (existsb _ _) eqn:Hig; [done|].
  destruct rd as [details|]; [|done]. case_decide as Hunk; [done|]. intros Hr.
  split.
  { intros Hin. apply not_true_iff_false in Hig. apply Hig. apply existsb_exists. exists name.
    split; [by apply list_elem_of_In|by case_bool_decide]. }
  exists details. split; [done|]. split; [done|].
  assert (Hd : (exists n, g !! n = Some d) ∧ serves d (rd_language details)
               ∧ check_version d (rd_runtime_version details) = None).
  { destruct (ov ≫= co_otel_distro_name) as [n|]; simpl in Hr.
    - unfold resolveDistroByOverride, GetDistroByName in Hr.
      destruct (g !! n) as [d'|] eqn:Hg; [|done].
      destruct (IsProgrammingLanguageWildcard (d_language d')) eqn:Hw.
      + destruct (check_version d' _) eqn:Hc; [done|]. injection Hr as <-. split_and!; [by exists n|by right|done].
      + case_bool_decide; simpl in Hr; [|done].
        destruct (check_version d' _) eqn:Hc; [done|]. injection Hr as <-. split_and!; [by exists n|by left|done].
    - unfold resolveDistroByLanguage in Hr. destruct (m !! rd_language details) as [n|] eqn:Hl.
      + destruct (ResolveDistroNameForVersion g n _) as [e| |] eqn:He; try done. simpl in Hr.
        unfold GetDistroByName in Hr. destruct (g !! e) as [d'|] eqn:Hg; [|done]. simpl in Hr.
        destruct (check_version d' _) eqn:Hc; [done|]. injection Hr as <-. split_and!; [by exists e| |done].
        eapply (resolve_serves g n); [done| |done|done]. intros d0 Hd0. left. by eapply Hm.
      + by case_decide. }
  destruct Hd as (? & ? & Hc). split_and!; [done..|]. intros re. by apply check_version_None.
Qed.
End ResolverFacts.

(** A provider is built only when every default distribution is known,
    and of several getters that know a name the last one counts. *)
Theorem provider_defaults_known `{GoMapOrderLaws} (defaults : gmap string string) (getters : list Getter)
    (p : Provider) :
  NewProvider defaults getters = inr p ->
  p_defaults p = defaults
  ∧ (forall lang n, defaults !! lang = Some n -> is_Some (p_getter p !! n))
  ∧ (forall n d, p_getter p !! n = Some d ->
       exists before g after, getters = before ++ g :: after ∧ g !! n = Some d
         ∧ Forall (fun g' => g' !! n = None) after).
Proof.
  unfold NewProvider. case_decide; [done|].
  destruct (first_match _ _) as [x|] eqn:E; [done|]. intros [= <-]. simpl. split_and!; [done| |].
  - intros lang n Hn. rewrite first_match_None in E.
    assert (Hin : n ∈ map_order (map_to_list defaults).*2).
    { rewrite map_order_perm. apply list_elem_of_fmap. exists (lang, n). split; [done|].
      by apply elem_of_map_to_list. }
    specialize (E n Hin). rewrite bool_decide_eq_false in E. by apply not_eq_None_Some.
  - intros n d. clear E.
    assert (Hgen : forall l (m : Getter), foldl (fun m g => g ∪ m) m l !! n = Some d ->
      (exists before g after, l = before ++ g :: after ∧ g !! n = Some d
         ∧ Forall (fun g' => g' !! n = None) after)
      ∨ (m !! n = Some d ∧ Forall (fun g' => g' !! n = None) l)).
    { induction l as [|g l IH]; intros m; simpl; [by right|]. intros Hl.
      destruct (IH _ Hl) as [(b & g' & a & -> & ? & ?)|[Hu Hall]].
      - left. by exists (g :: b), g', a.
      - apply lookup_union_Some_raw in Hu as [Hu|[Hu Hm]].
        + left. by exists [], g, l.
        + right. split; [done|]. by constructor. }
    intros Hl. destruct (Hgen getters ∅ Hl) as [?|[Hm _]]; [done|]. by rewrite lookup_empty in Hm.
Qed.

(** ** Witnesses: the fallback chain of the community nodejs distributions *)

Definition node_distro (name min : string) (fallback : option string) : OtelDistro :=
  mkDistro name "javascript" [] [mkRuntimeEnv "nodejs" min] fallback no_distro_env None false None None None.

Definition node_getter : Getter :=
  {[ "nodejs-community" := node_distro "nodejs-community" "18" (Some "nodejs-community-14");
     "nodejs-community-14" := node_distro "nodejs-community-14" "14" None ]}.

Definition cyclic_getter : Getter :=
  {[ "a" := node_distro "a" "18" (Some "b"); "b" := node_distro "b" "14" (Some "a") ]}.

Lemma node_getter_Some n d :
  node_getter !! n = Some d ->
  (n = "nodejs-community" ∧ d = node_distro "nodejs-community" "18" (Some "nodejs-community-14"))
  ∨ (n = "nodejs-community-14" ∧ d = node_distro "nodejs-community-14" "14" None).
Proof.
  unfold node_getter. intros [[-> <-]|[Hn [-> <-]%lookup_singleton_Some]]%lookup_insert_Some; auto.
Qed.

Lemma node_getter_acyclic : acyclic node_getter.
Proof.
  exists (fun n => if decide (n = "nodejs-community") then 1 else 0).
  intros n d m [[-> ->]|[-> ->]]%node_getter_Some Hm; simpl in Hm; simplify_eq. simpl. lia.
Defined.

Lemma resolve_fuel_enough_witness :
  @resolve_loop sample_versions (resolve_fuel node_getter) node_getter "nodejs-community" (16%Z : @version sample_versions)
    "nodejs-community" = Some "nodejs-community-14".
Proof. by apply (@resolve_fuel_enough sample_versions node_getter "nodejs-community" (16%Z : @version sample_versions) 2). Defined.

Lemma resolve_terminates_witness :
  exists name, @ResolveDistroNameForVersion sample_versions node_getter "nodejs-community" "16" = Done name.
Proof. exact (@resolve_terminates sample_versions node_getter "nodejs-community" "16" node_getter_acyclic). Defined.

Lemma resolve_cycle_hangs_witness :
  @ResolveDistroNameForVersion sample_versions cyclic_getter "a" "12" = Hang.
Proof.
  apply (proj1 (@resolve_cycle_hangs sample_versions cyclic_getter "a" "b" "12" (12%Z : @version sample_versions)
    (node_distro "a" "18" (Some "b")) (node_distro "b" "14" (Some "a"))
    ltac:(done) eq_refl eq_refl eq_refl eq_refl eq_refl eq_refl eq_refl)).
Defined.

Lemma resolve_answer_witness :
  exists last, rtc (@passes sample_versions node_getter (16%Z : @version sample_versions)) "nodejs-community" last
    ∧ last = "nodejs-community-14".
Proof.
  destruct (@resolve_answer sample_versions node_getter "nodejs-community" "16" "nodejs-community-14"
    (16%Z : @version sample_versions) ltac:(done) eq_refl eq_refl) as (last & Hr & [[_ Hl]|(d & _ & <- & _)]);
    [discriminate Hl|].
  eexists. split; [exact Hr|reflexivity].
Defined.

Definition node_details : RuntimeDetailsByContainer :=
  mkRuntimeDetails "web" "javascript" "16" [] [] None None None [].

Lemma default_distro_language_witness :
  language_coherent node_getter
    (CalculateDefaultDistroPerLanguage {[ "javascript" := "nodejs-community" ]} [sample_rule "r"] node_getter).
Proof.
  apply default_distro_language.
  intros lang n d [<- <-]%lookup_singleton_Some Hd. by apply node_getter_Some in Hd as [[_ ->]|[_ ->]].
Defined.

Lemma resolved_distro_sound_witness :
  "web" ∉ conf_ignored_containers sample_conf
  ∧ @ResolveDistroForContainer sample_versions sample_conf (Some node_details)
      {[ "javascript" := "nodejs-community" ]} node_getter None "web"
    = Done (inr (node_distro "nodejs-community-14" "14" None)).
Proof.
  split; [|reflexivity].
  refine (proj1 (@resolved_distro_sound sample_versions sample_conf (Some node_details)
    {[ "javascript" := "nodejs-community" ]} node_getter None "web"
    (node_distro "nodejs-community-14" "14" None) _ _ eq_refl)).
  - intros lang n d [<- <-]%lookup_singleton_Some Hd. by apply node_getter_Some in Hd as [[_ ->]|[_ ->]].
  - intros n d m d' lang Hd _ Hd' Hs.
    apply node_getter_Some in Hd as [[_ ->]|[_ ->]]; apply node_getter_Some in Hd' as [[_ ->]|[_ ->]]; done.
Defined.

Lemma provider_defaults_known_witness :
  exists p, @NewProvider order_forward {[ "javascript" := "nodejs-community" ]} [node_getter] = inr p
    ∧ is_Some (p_getter p !! "nodejs-community").
Proof.
  eexists. split; [reflexivity|].
  exact (proj1 (proj2 (@provider_defaults_known order_forward order_forward_laws
    {[ "javascript" := "nodejs-community" ]} [node_getter] _ eq_refl)) "javascript" "nodejs-community" eq_refl).
Defined.
