(* ===== verification/ContainerAgent.v ===== *)
(** * The agent of one container (instrumentor/controllers/agentenabled:
    distroparams.go, and the decisions of sync.go)

    Given the distribution chosen for a container and what runtime detection
    found in it: the parameters the distribution needs, how environment
    variables are injected, and whether the agent is enabled. *)

From S2P Require Import Prelude.
From S2P Require Import GoStrings.
From S2P Require Import K8s.
From S2P Require Import Status.
From S2P Require Import Api.
From S2P Require Import GoLib.
From S2P Require Import Distros.
From S2P Require Import Samples.

(** ** Environment variables found in a container *)

Definition OdigosLoaderPath := "/var/odigos/loader/loader.so".
Definition LdPreloadEnvVarName := "LD_PRELOAD".

Definition getEnvVarFromList (envVars : list EnvVar) (envVarName : string) : option string :=
  ev_value <$> first_match (fun e => bool_decide (ev_name e = envVarName)) envVars.

(** [None]: the loader can be used. *)
Definition isLoaderInjectionSupportedByRuntimeDetails (d : RuntimeDetailsByContainer)
    : option AgentDisabledInfo :=
  if default true (rd_secure_execution_mode d) then
    Some (mkDisabled InjectionConflict
            "container is running in secure execution mode and injection method is set to 'loader'")
  else
    match getEnvVarFromList (rd_env_vars d) LdPreloadEnvVarName with
    | Some v =>
        if contains OdigosLoaderPath v then None
        else Some (mkDisabled InjectionConflict
               ("container is already using LD_PRELOAD env var, and injection method is set to 'loader'. current value: " +:+ v))
    | None => None
    end.

Definition distroSupportsLoader (d : OtelDistro) : bool :=
  match d_runtime_agent d with Some ra => ra_ld_preload_supported ra | None => false end.

(** No method: [inr None].  A failure to inject: [inl]. *)
Definition getEnvInjectionDecision (conf : OdigosConfiguration) (details : RuntimeDetailsByContainer)
    (d : OtelDistro) : AgentDisabledInfo + option string :=
  match conf_env_injection conf with
  | None => inl (mkDisabled InjectionConflict "no injection method configured for odigos agent")
  | Some method =>
      let loaderRequested :=
        bool_decide (method = LoaderEnvInjectionMethod)
        || bool_decide (method = LoaderFallbackToPodManifestInjectionMethod) in
      let append := if nonempty (d_append_env_vars d) then Some EnvInjectionDecisionPodManifest else None in
      if distroSupportsLoader d && loaderRequested then
        match isLoaderInjectionSupportedByRuntimeDetails details with
        | Some disabledInfo =>
            if decide (method = LoaderEnvInjectionMethod) then inl disabledInfo else inr append
        | None => inr (Some EnvInjectionDecisionLoader)
        end
      else inr append
  end.

(** ** Distribution parameters (distroparams.go)

    A failure is the configuration of a disabled container, under the name
    the runtime details carry. *)

Section Params.
Context `{GoVersion}.

Definition missing_parameter (details : RuntimeDetailsByContainer) (message : string) : ContainerAgentConfig :=
  disabled_container (rd_container_name details) (mkDisabled MissingDistroParameter message).

Definition addLibcDistroParamFromRuntimeDetails (params : gmap string string) (distroName : string)
    (details : RuntimeDetailsByContainer) : ContainerAgentConfig + gmap string string :=
  match rd_libc_type details with
  | None =>
      inl (missing_parameter details
             ("failed to detect libc type for opentelemetry distribution '" +:+ distroName
              +:+ "' which is required for instrumentation"))
  | Some libc => inr (<[LibcTypeDistroParameterName := libc]> params)
  end.

Definition addRuntimeVersionMajorMinorDistroParamFromRuntimeDetails (params : gmap string string)
    (distroName : string) (details : RuntimeDetailsByContainer) : ContainerAgentConfig + gmap string string :=
  if decide (rd_runtime_version details = "") then
    inl (missing_parameter details
           ("failed to detect runtime version for opentelemetry distribution '" +:+ distroName
            +:+ "' which is required for instrumentation"))
  else
    match NewVersion (rd_runtime_version details) with
    | None =>
        inl (missing_parameter details
               ("failed to parse runtime version from detection: " +:+ rd_runtime_version details))
    | Some v =>
        match MajorMinorStringOnly v with
        | inl _ =>
            inl (missing_parameter details
                   ("failed to parse runtime version as major.minor: " +:+ rd_runtime_version details))
        | inr majorMinor => inr (<[RuntimeVersionMajorMinorDistroParameterName := majorMinor]> params)
        end
    end.

Definition processSingleRequiredParameter (params : gmap string string) (d : OtelDistro)
    (details : RuntimeDetailsByContainer) (parameterName : string)
    : ContainerAgentConfig + gmap string string :=
  if decide (parameterName = LibcTypeDistroParameterName) then
    addLibcDistroParamFromRuntimeDetails params (d_name d) details
  else if decide (parameterName = RuntimeVersionMajorMinorDistroParameterName) then
    addRuntimeVersionMajorMinorDistroParamFromRuntimeDetails params (d_name d) details
  else
    inl (missing_parameter details
           ("unsupported parameter '" +:+ parameterName +:+ "' for distro '" +:+ d_name d +:+ "'")).

Fixpoint required_loop (params : gmap string string) (d : OtelDistro) (details : RuntimeDetailsByContainer)
    (names : list string) : ContainerAgentConfig + gmap string string :=
  match names with
  | [] => inr params
  | n :: names =>
      match processSingleRequiredParameter params d details n with
      | inl err => inl err
      | inr params => required_loop params d details names
      end
  end.

Definition calculateRequiredParameters (d : OtelDistro) (details : RuntimeDetailsByContainer)
    : ContainerAgentConfig + gmap string string :=
  required_loop ∅ d details (d_require_parameters d).

Definition append_env_step (details : RuntimeDetailsByContainer) (params : gmap string string)
    (envVar : string * string) : gmap string string :=
  match getEnvVarFromList (rd_env_from_runtime details) envVar.1 with
  | Some criValue => if decide (criValue = "") then params else <[envVar.1 := criValue]> params
  | None => params
  end.

Definition calculateAppendEnvParameters (d : OtelDistro) (details : RuntimeDetailsByContainer)
    : ContainerAgentConfig + gmap string string :=
  match rd_cri_error details with
  | Some message =>
      inl (missing_parameter details
             ("failed to detect environment variables from container runtime: " +:+ message))
  | None => inr (foldl (append_env_step details) ∅ (d_append_env_vars d))
  end.

(** [mergeMaps(a, b)]: the second map wins. *)
Definition mergeMaps (a b : gmap string string) : gmap string string := b ∪ a.

Definition calculateDistroParams (d : OtelDistro) (details : RuntimeDetailsByContainer)
    (envInjectionMethod : option string) : ContainerAgentConfig + gmap string string :=
  match (if nonempty (d_require_parameters d) then calculateRequiredParameters d details else inr ∅) with
  | inl err => inl err
  | inr distroParams =>
      if bool_decide (envInjectionMethod = Some EnvInjectionDecisionPodManifest)
         && nonempty (d_append_env_vars d) then
        match calculateAppendEnvParameters d details with
        | inl err => inl err
        | inr appendEnvParams => inr (mergeMaps distroParams appendEnvParams)
        end
      else inr distroParams
  end.

(** ** The container's configuration (sync.go) *)

Definition otherAgentNames (agents : list string) : string := join ", " agents.

Definition resolveAllowConcurrentAgents (conf : OdigosConfiguration)
    (containerOverride : option ContainerOverride) : bool :=
  match containerOverride ≫= co_allow_concurrent_agents with
  | Some b => b
  | None => deref_bool (conf_allow_concurrent_agents conf)
  end.

Definition calculateContainerAgentConfig (containerName : string) (d : OtelDistro)
    (conf : OdigosConfiguration) (details : RuntimeDetailsByContainer) (rollbackOccurred : bool)
    (existingBackoffReason : AgentEnabledReason) (allowConcurrentAgents : bool) : ContainerAgentConfig :=
  match getEnvInjectionDecision conf details d with
  | inl info => disabled_container containerName info
  | inr envInjectionDecision =>
      match calculateDistroParams d details envInjectionDecision with
      | inl err => err
      | inr distroParameters =>
          if rollbackOccurred then
            mkContainerAgentConfig containerName false existingBackoffReason
              ("Pods entered " +:+ existingBackoffReason +:+ "; instrumentation disabled")
              false (d_name d) distroParameters None None None None None
          else
            let podManifestInjectionOptional := negb (IsRestartRequired d) in
            if nonempty (rd_other_agents details) then
              let otherAgents := otherAgentNames (rd_other_agents details) in
              if allowConcurrentAgents then
                mkContainerAgentConfig containerName true EnabledWithOtherAgents
                  ("we are operating alongside other instrumentation agent(s) [" +:+ otherAgents
                   +:+ "], which is not the recommended configuration. We suggest disabling them for optimal performance.")
                  podManifestInjectionOptional (d_name d) distroParameters envInjectionDecision
                  None None None None
              else
                disabled_container containerName
                  (mkDisabled OtherAgentDetected
                     ("odigos agent not enabled due to other instrumentation agent(s) [" +:+ otherAgents
                      +:+ "] detected running in the container"))
            else
              mkContainerAgentConfig containerName true "" "" podManifestInjectionOptional (d_name d)
                distroParameters envInjectionDecision None None None None
      end
  end.
End Params.

(** ** Prerequisites *)

Definition isNodeCollectorReady (cg : option CollectorsGroup) : bool * string :=
  match cg with
  | None => (false, "waiting for OpenTelemetry Collector to be created")
  | Some cg =>
      if cg_ready cg then (true, "") else (false, "waiting for OpenTelemetry Collector to be ready")
  end.

Definition gotReadySignals (cg : option CollectorsGroup) : bool * string :=
  match cg with
  | None => (false, "waiting for OpenTelemetry Collector to be created")
  | Some cg => if nonempty (cg_receiver_signals cg) then (true, "") else (false, "no signals are being collected")
  end.

Definition isReadyForInstrumentation (cg : option CollectorsGroup) (ic : InstrumentationConfig)
    : bool * AgentEnabledReason * string :=
  if negb (isNodeCollectorReady cg).1 then (false, WaitingForNodeCollector, (isNodeCollectorReady cg).2)
  else if negb (gotReadySignals cg).1 then (false, NoCollectedSignals, (gotReadySignals cg).2)
  else if existsb (fun o => bool_decide (is_Some (co_runtime_info o))) (spec_overrides (ic_spec ic)) then
    (true, EnabledSuccessfully, "")
  else if nonempty (st_runtime_details (ic_status ic)) then (true, EnabledSuccessfully, "")
  else if existsb (fun c => bool_decide (cond_type c = RuntimeDetectionStatusConditionType)
                            && bool_decide (cond_reason c = RuntimeDetectionReasonNoRunningPods))
                  (st_conditions (ic_status ic)) then
    (false, RuntimeDetailsUnavailable, "agent will be enabled once runtime details from running pods is available")
  else (false, WaitingForRuntimeInspection, r_message AgentEnabledWaitingForRuntimeInspection).

(** ** Properties *)

(** The loader may be used in the container: it is known not to run in
    secure execution mode, and LD_PRELOAD is unset or already the loader. *)
Definition loader_ok (details : RuntimeDetailsByContainer) : Prop :=
  rd_secure_execution_mode details = Some false
  ∧ forall v, getEnvVarFromList (rd_env_vars details) LdPreloadEnvVarName = Some v ->
      contains OdigosLoaderPath v = true.

Lemma loader_supported details :
  isLoaderInjectionSupportedByRuntimeDetails details = None <-> loader_ok details.
Proof.
  unfold isLoaderInjectionSupportedByRuntimeDetails, loader_ok.
  destruct (rd_secure_execution_mode details) as [[]|]; simpl; [by split; [|intros [? _]]| |by split; [|intros [? _]]].
  destruct (getEnvVarFromList _ _) as [v|]; [|by split; [split; [|intros ? ?]|]].
  destruct (contains OdigosLoaderPath v) eqn:E; split; try done.
  - intros _. split; [done|]. by intros ? [= <-].
  - intros [_ Hv]. rewrite (Hv v) in E; done.
Qed.

Lemma loader_decision conf details d :
  getEnvInjectionDecision conf details d = inr (Some EnvInjectionDecisionLoader) -> loader_ok details.
Proof.
  rewrite <-loader_supported. unfold getEnvInjectionDecision. intros E.
  destruct (isLoaderInjectionSupportedByRuntimeDetails details); [|done].
  by repeat (case_match; simplify_eq/=).
Qed.

(** The injection decision, for every configured method: the loader
    exactly when it is requested, the distribution supports it and the
    container allows it; a failure exactly when no method is configured or
    the loader is the only method, supported by the distribution, and the
    container does not allow it; otherwise the pod manifest if the
    distribution appends variables, and no injection if it does not. *)
Theorem env_injection_decision (conf : OdigosConfiguration) (details : RuntimeDetailsByContainer)
    (d : OtelDistro) :
  let requested := conf_env_injection conf = Some LoaderEnvInjectionMethod
                   ∨ conf_env_injection conf = Some LoaderFallbackToPodManifestInjectionMethod in
  let fails := conf_env_injection conf = None
               ∨ conf_env_injection conf = Some LoaderEnvInjectionMethod
                 ∧ distroSupportsLoader d = true ∧ ~ loader_ok details in
  let decision := getEnvInjectionDecision conf details d in
  (decision = inr (Some EnvInjectionDecisionLoader) <->
     requested ∧ distroSupportsLoader d = true ∧ loader_ok details)
  ∧ ((exists i, decision = inl i) <-> fails)
  ∧ (decision = inr (Some EnvInjectionDecisionPodManifest) <->
       ~ fails ∧ ~ (requested ∧ distroSupportsLoader d = true ∧ loader_ok details)
       ∧ d_append_env_vars d <> []).
Proof.
  cbv zeta. rewrite <-loader_supported. unfold getEnvInjectionDecision.
  destruct (conf_env_injection conf) as [m|]; [|naive_solver].
  assert (Ha : nonempty (d_append_env_vars d) = true <-> d_append_env_vars d <> []) by apply nonempty_true.
  destruct (nonempty (d_append_env_vars d)), (distroSupportsLoader d);
    destruct (decide (m = LoaderEnvInjectionMethod)) as [->|Hl];
    try (destruct (decide (m = LoaderFallbackToPodManifestInjectionMethod)) as [->|Hf]);
    destruct (isLoaderInjectionSupportedByRuntimeDetails details) as [i|]; simpl;
    rewrite ?bool_decide_eq_false_2 by done; simpl; naive_solver.
Qed.

Section ParamFacts.
Context `{GoVersion}.

Lemma single_parameter params d details n params' :
  processSingleRequiredParameter params d details n = inr params' ->
  exists v, params' = <[n := v]> params.
Proof.
  unfold processSingleRequiredParameter, addLibcDistroParamFromRuntimeDetails,
    addRuntimeVersionMajorMinorDistroParamFromRuntimeDetails.
  intros E. repeat (case_decide || case_match; simplify_eq); eauto.
Qed.

Lemma required_bound params d details names params' n :
  required_loop params d details names = inr params' ->
  is_Some (params !! n) ∨ n ∈ names -> is_Some (params' !! n).
Proof.
  revert params. induction names as [|m names IH]; intros params; simpl.
  - intros [= <-] [?|?%not_elem_of_nil]; done.
  - destruct (processSingleRequiredParameter _ _ _ m) as [|p1] eqn:E; [done|].
    apply single_parameter in E as [v ->]. intros Hr Hn. apply (IH _ Hr).
    rewrite lookup_insert_is_Some'. set_solver.
Qed.

Lemma distro_params_bound d details method params n :
  calculateDistroParams d details method = inr params -> n ∈ d_require_parameters d ->
  is_Some (params !! n).
Proof.
  unfold calculateDistroParams, calculateRequiredParameters. intros E Hn.
  assert (nonempty (d_require_parameters d) = true) as Hne by (destruct (d_require_parameters d); [set_solver|done]).
  rewrite Hne in E. destruct (required_loop ∅ d details _) as [|p] eqn:Hr; [done|].
  assert (is_Some (p !! n)) as Hp by (eapply required_bound; eauto).
  destruct (_ && _); [|congruence]. destruct (calculateAppendEnvParameters d details) as [|a]; [done|].
  injection E as <-. unfold mergeMaps. apply lookup_union_is_Some. by right.
Qed.

(** A missing parameter disables the container. *)
Lemma required_failure params d details names err :
  required_loop params d details names = inl err -> cac_enabled err = false.
Proof.
  revert params. induction names as [|n names IH]; intros params; simpl; [done|].
  destruct (processSingleRequiredParameter params d details n) as [e'|] eqn:E; [|by apply IH].
  intros [= <-]. revert E. unfold processSingleRequiredParameter, addLibcDistroParamFromRuntimeDetails,
    addRuntimeVersionMajorMinorDistroParamFromRuntimeDetails.
  intros E. by repeat (case_decide || case_match; simplify_eq).
Qed.

Lemma params_failure d details method err :
  calculateDistroParams d details method = inl err -> cac_enabled err = false.
Proof.
  unfold calculateDistroParams, calculateRequiredParameters, calculateAppendEnvParameters.
  destruct (nonempty (d_require_parameters d)); [destruct (required_loop ∅ d details _) eqn:E|]; intros E'.
  - simplify_eq. by eapply required_failure.
  - by repeat (case_match; simplify_eq).
  - by repeat (case_match; simplify_eq).
Qed.

(** An enabled container keeps its name, and is not rolled back. *)
Lemma enabled_facts name d conf details rollback reason allow :
  let c := calculateContainerAgentConfig name d conf details rollback reason allow in
  (cac_enabled c = true -> cac_name c = name) ∧ (cac_enabled c = true -> rollback = false).
Proof.
  cbv zeta. unfold calculateContainerAgentConfig.
  destruct (getEnvInjectionDecision conf details d) as [i|method]; [done|].
  destruct (calculateDistroParams d details method) as [err|params] eqn:Hp.
  - by rewrite (params_failure _ _ _ _ Hp).
  - destruct rollback; simpl; [done|]. by repeat case_match.
Qed.

Lemma required_names params d details names err :
  required_loop params d details names = inl err -> cac_name err = rd_container_name details.
Proof.
  revert params. induction names as [|n names IH]; intros params; simpl; [done|].
  destruct (processSingleRequiredParameter params d details n) as [e'|] eqn:E; [|by apply IH].
  intros [= <-]. revert E. unfold processSingleRequiredParameter, addLibcDistroParamFromRuntimeDetails,
    addRuntimeVersionMajorMinorDistroParamFromRuntimeDetails.
  intros E. by repeat (case_decide || case_match; simplify_eq).
Qed.

Lemma params_names d details method err :
  calculateDistroParams d details method = inl err -> cac_name err = rd_container_name details.
Proof.
  unfold calculateDistroParams, calculateRequiredParameters, calculateAppendEnvParameters.
  destruct (nonempty (d_require_parameters d)); [destruct (required_loop ∅ d details _) eqn:E|]; intros E'.
  - simplify_eq. by eapply required_names.
  - by repeat (case_match; simplify_eq).
  - by repeat (case_match; simplify_eq).
Qed.

(** The name is the container's, or the one in its runtime details. *)
Lemma container_names name d conf details rollback reason allow :
  let c := calculateContainerAgentConfig name d conf details rollback reason allow in
  cac_name c = name ∨ cac_name c = rd_container_name details.
Proof.
  cbv zeta. unfold calculateContainerAgentConfig.
  destruct (getEnvInjectionDecision conf details d) as [i|method]; [by left|].
  destruct (calculateDistroParams d details method) as [err|params] eqn:Hp.
  - right. by eapply params_names.
  - left. by repeat case_match.
Qed.

(** C33: the agent of a container is enabled exactly when the injection
    decision and the distribution's parameters are available, no rollback
    happened, and there is no other agent or running beside one is allowed.
    An enabled container names its distribution, carries the decided method,
    binds every parameter the distribution requires, and uses the loader only
    where the container allows it. *)
Theorem container_agent_enabled (name : string) (d : OtelDistro) (conf : OdigosConfiguration)
    (details : RuntimeDetailsByContainer) (rollback : bool) (reason : AgentEnabledReason) (allow : bool) :
  let c := calculateContainerAgentConfig name d conf details rollback reason allow in
  (cac_enabled c = true <->
     exists method params,
       getEnvInjectionDecision conf details d = inr method
       ∧ calculateDistroParams d details method = inr params
       ∧ rollback = false ∧ (rd_other_agents details = [] ∨ allow = true))
  ∧ (cac_enabled c = true ->
     cac_name c = name ∧ cac_distro c = d_name d
     ∧ getEnvInjectionDecision conf details d = inr (cac_env_method c)
     ∧ (forall n, n ∈ d_require_parameters d -> is_Some (cac_params c !! n))
     ∧ (cac_env_method c = Some EnvInjectionDecisionLoader -> loader_ok details)).
Proof.
  cbv zeta. unfold calculateContainerAgentConfig.
  destruct (getEnvInjectionDecision conf details d) as [i|method] eqn:Hd.
  { simpl. split; [|done]. split; [done|]. by intros (? & ? & ? & _). }
  destruct (calculateDistroParams d details method) as [err|params] eqn:Hp.
  - rewrite (params_failure _ _ _ _ Hp). split; [|done]. split; [done|].
    intros (? & ? & E & E' & _). congruence.
  - assert (Hall : forall n, n ∈ d_require_parameters d -> is_Some (params !! n))
      by (intros; by eapply distro_params_bound).
    assert (Hok : method = Some EnvInjectionDecisionLoader -> loader_ok details)
      by (intros ->; by apply (loader_decision conf details d)).
    destruct rollback; simpl; [by split; [split; [|intros (? & ? & _ & _ & ? & _)]|]|].
    destruct (rd_other_agents details) as [|a l] eqn:Ho; simpl;
      [split; [|done]; split; [|done]; intros _; exists method, params; auto|].
    destruct allow; simpl; (split; [|done]); (split; [intros; try done|]).
    + exists method, params. auto.
    + done.
    + intros (? & ? & _ & _ & _ & [?|?]); done.
Qed.
End ParamFacts.
