(* ===== verification/Backoff.v ===== *)
(** * The pods of a workload, and their back-off
    (instrumentor/controllers/agentenabled/rollout: rollout.go,
    rollout_backoff_helpers.go)

    Which pods carry the agents' label, whether they wait in
    CrashLoopBackOff or ImagePullBackOff, and for how long. *)

From S2P Require Import Prelude.
From S2P Require Import GoStrings.
From S2P Require Import K8s.
From S2P Require Import Status.
From S2P Require Import Workload.
From S2P Require Import Api.
From S2P Require Import GoLib.
From S2P Require Import Objects.
From S2P Require Import Client.

Definition OdigosAgentsMetaHashLabel := "odigos.io/agents-meta-hash".

(** ** Selectors *)

(** [%T] of the object. *)
Definition type_name (obj : Object) : string :=
  match obj with
  | ODeployment _ => "*v1.Deployment" | OStatefulSet _ => "*v1.StatefulSet" | ODaemonSet _ => "*v1.DaemonSet"
  | ODeploymentConfig _ => "*v1.DeploymentConfig" | OArgoRollout _ => "*v1alpha1.Rollout"
  | OPod _ => "*v1.Pod" | OCronJob _ => "*v1.CronJob" | OJob _ => "*v1.Job" | ONamespace _ => "*v1.Namespace"
  end.

Definition selector_or_error (s : option LabelSelector) : error + LabelSelector :=
  match s with
  | Some s => inr s
  | None => inl (ENew "workloadLabelSelector: workload has nil selector")
  end.

(** The selector of an Argo rollout is dereferenced without a check, and
    only its labels are kept. *)
Definition workloadLabelSelector (obj : Object) : go (error + LabelSelector) :=
  match obj with
  | ODeployment o => Done (selector_or_error (dep_selector o))
  | OStatefulSet o => Done (selector_or_error (sts_selector o))
  | ODaemonSet o => Done (selector_or_error (ds_selector o))
  | ODeploymentConfig o => Done (inr (mkLabelSelector (dc_selector o) []))
  | OArgoRollout o => go_bind (go_deref (ar_selector o)) (fun s => Done (inr (mkLabelSelector (MatchLabels s) [])))
  | _ => Done (inl (ENew ("workloadLabelSelector: unsupported workload kind " +:+ type_name obj)))
  end.

Section Selectors.
Context `{Client}.

(** The workload's selector with one more requirement on the agents' label. *)
Definition agents_selector (op : SelectorOp) (caller : string) (obj : Object) : go (error + LabelSelector) :=
  go_bind (workloadLabelSelector obj) (fun r =>
    match r with
    | inl err => Done (inl err)
    | inr s =>
        let s := mkLabelSelector (MatchLabels s)
                   (MatchExpressions s ++ [mkRequirement OdigosAgentsMetaHashLabel op []]) in
        match LabelSelectorAsSelector s with
        | Some err => Done (inl (EWrap (caller +:+ ": invalid selector") err))
        | None => Done (inr s)
        end
    end).

Definition notInstrumentedWorkloadPodsSelector : Object -> go (error + LabelSelector) :=
  agents_selector OpDoesNotExist "notInstrumentedWorkloadPodsSelector".
Definition instrumentedPodsSelector : Object -> go (error + LabelSelector) :=
  agents_selector OpExists "instrumentedPodsSelector".

(** The pods with, or without, the label; errors get the given prefixes. *)
Definition list_selected (c : Cluster) (obj : Object) (sel : go (error + LabelSelector))
    (selector_prefix list_prefix : string) : go (error + list Pod) :=
  go_bind sel (fun r =>
    match r with
    | inl err => Done (inl (EWrap selector_prefix err))
    | inr s =>
        match ListPods c (om_namespace (object_meta obj)) s with
        | inl err => Done (inl (EWrap list_prefix err))
        | inr pods => Done (inr pods)
        end
    end).

(** ** Back-off *)

Definition pod_container_statuses (p : Pod) : list ContainerStatus := pod_init_statuses p ++ pod_statuses p.

Definition podHasBackOff (p : Pod) : bool := existsb IsContainerInBackOff (pod_container_statuses p).

Definition getPodBackOffReason (p : Pod) : AgentEnabledReason * string :=
  match first_match IsContainerInBackOff (pod_container_statuses p) with
  | Some cs => if IsContainerInCrashLoopBackOff cs
               then (CrashLoopBackOff, r_message AgentEnabledCrashLoopBackOff)
               else (ImagePullBackOff, r_message AgentEnabledImagePullBackOff)
  | None => ("", "")
  end.

Definition WorkloadHasNonInstrumentedPodInBackoff (c : Cluster) (obj : Object) : go (error + bool) :=
  match obj with
  | OPod p => Done (inr (podHasBackOff p))
  | _ =>
      go_bind (list_selected c obj (notInstrumentedWorkloadPodsSelector obj)
                 "WorkloadHasNonInstrumentedPodInBackoff"
                 "WorkloadHasNonInstrumentedPodInBackoff: failed listing pods") (fun r =>
        match r with
        | inl err => Done (inl err)
        | inr pods => Done (inr (existsb podHasBackOff pods))
        end)
  end.

Definition workloadHasOdigosAgents (c : Cluster) (obj : Object) : go (error + bool) :=
  go_bind (list_selected c obj (instrumentedPodsSelector obj) "workloadHasOdigosAgents: invalid selector"
             "workloadHasOdigosAgents: listing pods failed") (fun r =>
    match r with
    | inl err => Done (inl err)
    | inr pods => Done (inr (nonempty pods))
    end).

Record podBackOffInfo := mkBackOffInfo
  { bo_duration : Z; bo_reason : AgentEnabledReason; bo_message : string }.
Definition no_backoff : podBackOffInfo := mkBackOffInfo 0 "" "".

(** The earliest start of a pod in back-off, with that pod's reason. *)
Definition earliest_step (acc : option (Z * (AgentEnabledReason * string))) (p : Pod)
    : option (Z * (AgentEnabledReason * string)) :=
  if podHasBackOff p then
    match pod_start_time p with
    | None => acc
    | Some start =>
        match acc with
        | None => Some (start, getPodBackOffReason p)
        | Some (earliest, r) => if decide (start < earliest)%Z then Some (start, getPodBackOffReason p) else acc
        end
    end
  else acc.

Definition podBackOffDuration (obj : Object) : M (error + podBackOffInfo) :=
  r ← read (fun c => list_selected c obj (instrumentedPodsSelector obj)
                       "podBackOffDuration: invalid selector"
                       "podBackOffDuration: failed listing pods");
  pods ← lift r;
  match pods with
  | inl err => mret (inl err)
  | inr pods =>
      match foldl earliest_step None pods with
      | None => mret (inr no_backoff)
      | Some (earliest, (reason, message)) =>
          d ← time_Since earliest;
          mret (inr (mkBackOffInfo d reason message))
      end
  end.

(** ** Facts *)

(** The selector of the workload can be dereferenced. *)
Definition has_selector (obj : Object) : Prop := forall r, obj = OArgoRollout r -> is_Some (ar_selector r).

Lemma agents_selector_total op caller obj :
  has_selector obj -> exists r, agents_selector op caller obj = Done r.
Proof.
  intros Hs. unfold agents_selector.
  assert (exists r, workloadLabelSelector obj = Done r) as [r ->].
  { destruct obj; simpl; try by eexists. destruct (Hs _ eq_refl) as [x ->]. by eexists. }
  simpl. destruct r; [by eexists|]. case_match; by eexists.
Qed.

Lemma list_selected_total c obj op caller p1 p2 :
  has_selector obj -> exists l, list_selected c obj (agents_selector op caller obj) p1 p2 = Done l.
Proof.
  intros Hs. destruct (agents_selector_total op caller obj Hs) as [r ->]. unfold list_selected. simpl.
  destruct r; [by eexists|]. case_match; by eexists.
Qed.

Lemma has_backoff_reason p :
  podHasBackOff p = true ->
  (getPodBackOffReason p).1 = CrashLoopBackOff ∨ (getPodBackOffReason p).1 = ImagePullBackOff.
Proof.
  unfold podHasBackOff, getPodBackOffReason. intros Hp%existsb_exists. destruct Hp as (cs & Hin & Hcs).
  destruct (first_match _ _) as [cs'|] eqn:E; [case_match; auto|].
  rewrite first_match_None in E. rewrite E in Hcs; [done|by apply list_elem_of_In].
Qed.

(** The fold finds a pod in back-off that started first. *)
Lemma earliest_spec pods acc :
  match foldl earliest_step acc pods with
  | None => acc = None ∧ forall p, p ∈ pods -> podHasBackOff p = true -> pod_start_time p = None
  | Some (t, r) =>
      (acc = Some (t, r) ∨ exists p, p ∈ pods ∧ podHasBackOff p = true
                           ∧ pod_start_time p = Some t ∧ r = getPodBackOffReason p)
      ∧ (forall p u, p ∈ pods -> podHasBackOff p = true -> pod_start_time p = Some u -> (t <= u)%Z)
      ∧ (forall t0 r0, acc = Some (t0, r0) -> (t <= t0)%Z)
  end.
Proof.
  revert acc. induction pods as [|p pods IH]; intros acc; simpl.
  { destruct acc as [[t r]|]; [|by split; [|intros ? ?%not_elem_of_nil]].
    split_and!; [by left|by intros ? ? ?%not_elem_of_nil|by intros ? ? [= -> ->]]. }
  specialize (IH (earliest_step acc p)). unfold earliest_step in IH at 1 2 3 4.
  destruct (foldl _ _ _) as [[t r]|] eqn:E.
  - destruct IH as (Ha & Hall & Hle). unfold earliest_step in Ha, Hle.
    destruct (podHasBackOff p) eqn:Hp; [destruct (pod_start_time p) as [u|] eqn:Hu|].
    + destruct acc as [[t0 r0]|]; [case_decide as Hlt|].
      * split_and!.
        -- right. destruct Ha as [[= <- <-]|(q & ? & ?)]; [exists p|exists q]; split; try done; [by left|by right].
        -- intros q v [->|Hq]%elem_of_cons Hb Hv; [|by eapply Hall].
           rewrite Hu in Hv. injection Hv as <-. by eapply Hle.
        -- intros t1 r1 [= <- <-]. specialize (Hle _ _ eq_refl). lia.
      * split_and!.
        -- destruct Ha as [?|(q & ? & ?)]; [by left|right; exists q; split; [by right|done]].
        -- intros q v [->|Hq]%elem_of_cons Hb Hv; [|by eapply Hall].
           rewrite Hu in Hv. injection Hv as <-. specialize (Hle _ _ eq_refl). lia.
        -- intros t1 r1 [= <- <-]. by eapply Hle.
      * split_and!; [|intros q v [->|Hq]%elem_of_cons Hb Hv|done].
        -- right. destruct Ha as [[= <- <-]|(q & ? & ?)]; [exists p|exists q]; split; try done; [by left|by right].
        -- rewrite Hu in Hv. injection Hv as <-. by eapply Hle.
        -- by eapply Hall.
    + split_and!; [|intros q v [->|Hq]%elem_of_cons Hb Hv; [congruence|by eapply Hall]|done].
      destruct Ha as [?|(q & ? & ?)]; [by left|right; exists q; split; [by right|done]].
    + split_and!; [|intros q v [->|Hq]%elem_of_cons Hb Hv; [congruence|by eapply Hall]|done].
      destruct Ha as [?|(q & ? & ?)]; [by left|right; exists q; split; [by right|done]].
  - destruct IH as [Ha Hall]. unfold earliest_step in Ha.
    destruct (podHasBackOff p) eqn:Hp; [destruct (pod_start_time p) as [u|] eqn:Hu|].
    + exfalso. destruct acc as [[t0 r0]|]; [case_decide|]; done.
    + split; [done|]. intros q [->|Hq]%elem_of_cons Hb; [done|by apply Hall].
    + split; [done|]. intros q [->|Hq]%elem_of_cons Hb; [congruence|by apply Hall].
Qed.

(** The object of a workload can be looked at without a panic. *)
Definition selector_present (c : Cluster) (pw : PodWorkload) : Prop :=
  forall obj, GetObject c (ClientObjectFromWorkloadKind (pw_kind pw)) (pw_namespace pw) (pw_name pw) = inr obj ->
    has_selector obj.

(** The workload is an Argo rollout without a selector. *)
Definition nil_selector (c : Cluster) (pw : PodWorkload) : Prop :=
  exists r, GetObject c (ClientObjectFromWorkloadKind (pw_kind pw)) (pw_namespace pw) (pw_name pw) = inr (OArgoRollout r)
    ∧ ar_selector r = None.

Lemma selector_or_nil c pw : selector_present c pw ∨ nil_selector c pw.
Proof.
  unfold selector_present, nil_selector, has_selector.
  destruct (GetObject _ _ _ _) as [e|obj]; [left; naive_solver|]. destruct obj as [| | | |r| | | |]; try (left; naive_solver).
  destruct (ar_selector r) as [x|] eqn:E; [left; naive_solver|right; eauto].
Qed.
End Selectors.
