(* ===== verification/Limiter.v ===== *)
(** * The rollout concurrency limiter
    (instrumentor/controllers/agentenabled/rollout/rollout_concurrency_limiter.go)

    The set of workloads whose rollout is in flight.  Every operation holds
    the limiter's mutex from its first access to the set to its return, so
    concurrent reconciliations interleave whole operations: a history is a
    list of operations.  A nil limiter is [None]. *)

From S2P Require Import Prelude.

Definition NoConcurrencyLimiting : Z := 0.

Definition Limiter := option (gset string).

Definition TryAcquire (workloadKey : string) (limit : Z) (r : Limiter) : bool * Limiter :=
  match r with
  | None => (true, r)
  | Some inFlight =>
      if decide (limit = NoConcurrencyLimiting) then (true, r)
      else if decide (workloadKey ∈ inFlight) then (true, r)
      else if decide (Z.of_nat (size inFlight) < limit)%Z then (true, Some ({[ workloadKey ]} ∪ inFlight))
      else (false, r)
  end.

Definition ReleaseWorkloadRolloutSlot (workloadKey : string) (r : Limiter) : unit * Limiter :=
  match r with
  | None => (tt, None)
  | Some inFlight => (tt, Some (inFlight ∖ {[ workloadKey ]}))
  end.

Definition InFlightCount (r : Limiter) : Z :=
  match r with None => 0 | Some inFlight => Z.of_nat (size inFlight) end.

(** The workload holds a slot. *)
Definition holds (r : Limiter) (workloadKey : string) : bool :=
  match r with None => false | Some inFlight => bool_decide (workloadKey ∈ inFlight) end.

(** ** Histories *)

Inductive LimiterOp := OpTryAcquire (workloadKey : string) (limit : Z) | OpRelease (workloadKey : string).

(** An operation, with its answer. *)
Definition limiter_op (r : Limiter) (o : LimiterOp) : bool * Limiter :=
  match o with
  | OpTryAcquire k limit => TryAcquire k limit r
  | OpRelease k => (true, (ReleaseWorkloadRolloutSlot k r).2)
  end.

(** Every operation is under a limit, of at most [n]: 0 turns limiting off. *)
Definition limited (n : Z) (o : LimiterOp) : Prop :=
  match o with OpTryAcquire _ limit => limit <> NoConcurrencyLimiting ∧ (limit <= n)%Z | OpRelease _ => True end.

(** The rollouts in progress, from the answers alone: a rollout is started by
    a grant and ended by a release.  What the limiter has recorded plays no
    part in it. *)
Definition rolling_step (st : Limiter * gset string) (o : LimiterOp) : Limiter * gset string :=
  let '(answer, r') := limiter_op st.1 o in
  (r', match o with
       | OpTryAcquire k _ => if answer then {[ k ]} ∪ st.2 else st.2
       | OpRelease k => st.2 ∖ {[ k ]}
       end).
Definition rolling_run (st : Limiter * gset string) (ops : list LimiterOp) : Limiter * gset string :=
  foldl rolling_step st ops.

(** The operations that touch this key's slot. *)
Definition about (k : string) (o : LimiterOp) : Prop :=
  match o with OpTryAcquire k' _ | OpRelease k' => k = k' end.

(** ** Facts *)

Lemma acquire_granted k limit r :
  (TryAcquire k limit r).1 = true <->
  r = None ∨ limit = 0%Z ∨ holds r k = true ∨ (InFlightCount r < limit)%Z.
Proof.
  unfold TryAcquire, holds, InFlightCount, NoConcurrencyLimiting. destruct r as [s|]; simpl; [|tauto].
  rewrite bool_decide_eq_true. repeat case_decide; simpl; naive_solver lia.
Qed.

Lemma try_acquire_refused k limit r r' : TryAcquire k limit r = (false, r') -> r' = r.
Proof. unfold TryAcquire. destruct r as [s|]; [|naive_solver]. repeat case_decide; naive_solver. Qed.

Lemma acquire_holds k limit r k' :
  holds (TryAcquire k limit r).2 k' = true <->
  holds r k' = true ∨ (k' = k ∧ (exists s, r = Some s) ∧ limit <> 0%Z ∧ (TryAcquire k limit r).1 = true).
Proof.
  unfold TryAcquire, holds, NoConcurrencyLimiting. destruct r as [s|]; simpl; [|naive_solver].
  repeat case_decide; simpl; rewrite ?bool_decide_eq_true, ?elem_of_union, ?elem_of_singleton; naive_solver.
Qed.

Lemma release_holds k r k' :
  holds (ReleaseWorkloadRolloutSlot k r).2 k' = true <-> holds r k' = true ∧ k' <> k.
Proof.
  unfold ReleaseWorkloadRolloutSlot, holds. destruct r as [s|]; simpl; [|naive_solver].
  rewrite !bool_decide_eq_true. set_solver.
Qed.

Lemma rolling_step_op st o : (rolling_step st o).1 = (limiter_op st.1 o).2.
Proof. unfold rolling_step. by destruct (limiter_op st.1 o). Qed.

(** Under a limit, the limiter's set is that of the rollouts in progress. *)
Lemma rolling_step_recorded n s o :
  limited n o -> exists s', rolling_step (Some s, s) o = (Some s', s') ∧ ((Z.of_nat (size s) <= n)%Z -> (Z.of_nat (size s') <= n)%Z).
Proof.
  destruct o as [k limit|k]; unfold rolling_step, limiter_op; cbn [limited fst snd].
  - intros [Hl Hn]. unfold TryAcquire. rewrite decide_False by done. repeat case_decide.
    + exists s. split; [|done]. by rewrite subseteq_union_1_L by set_solver.
    + exists ({[k]} ∪ s). split; [done|]. rewrite size_union by set_solver. rewrite size_singleton. lia.
    + by exists s.
  - intros _. exists (s ∖ {[k]}). split; [done|]. assert (size (s ∖ {[k]}) <= size s) by (apply subseteq_size; set_solver). lia.
Qed.
Lemma rolling_recorded n s ops :
  Forall (limited n) ops ->
  exists s', rolling_run (Some s, s) ops = (Some s', s') ∧ ((Z.of_nat (size s) <= n)%Z -> (Z.of_nat (size s') <= n)%Z).
Proof.
  intros Hops. revert s. induction Hops as [|o ops Ho _ IH]; intros s; [by exists s|].
  destruct (rolling_step_recorded n s o Ho) as (s1 & E1 & H1). destruct (IH s1) as (s2 & E2 & H2).
  exists s2. split; [|auto]. unfold rolling_run in *. cbn [foldl]. by rewrite E1.
Qed.

Lemma op_other r o k : ~ about k o -> holds (limiter_op r o).2 k = holds r k.
Proof.
  intros Hk. apply eq_bool_prop_intro. rewrite !Is_true_true.
  destruct o as [k' limit|k']; simpl in *; [rewrite acquire_holds|rewrite release_holds]; naive_solver.
Qed.

(** ** Properties *)

(** C25: whatever the interleaving of reconciliations, while every operation
    is under a limit of at most [n], at most [n] rollouts that were granted
    are in progress, and the limiter has recorded exactly those; at every
    point of the history a rollout is granted exactly when it is in progress
    already or fewer than the limit are; and a workload's rollout only starts
    and ends by its own operations.  (A limit of 0 turns limiting off: then
    every rollout is granted and none is recorded.) *)
Theorem limiter_bounds_rollouts (n : Z) (s : gset string) (ops : list LimiterOp) :
  (Z.of_nat (size s) <= n)%Z -> Forall (limited n) ops ->
  let '(r, rolling) := rolling_run (Some s, s) ops in
  r = Some rolling ∧ (Z.of_nat (size rolling) <= n)%Z
  ∧ (forall before k limit after, ops = before ++ OpTryAcquire k limit :: after ->
       let '(r0, rolling0) := rolling_run (Some s, s) before in
       (TryAcquire k limit r0).1 = true <-> k ∈ rolling0 ∨ (Z.of_nat (size rolling0) < limit)%Z)
  ∧ forall k, Forall (fun o => ~ about k o) ops -> k ∈ rolling <-> k ∈ s.
Proof.
  intros Hs Hops. destruct (rolling_recorded n s ops Hops) as (s' & E & Hs'). rewrite E. split_and!; [done|auto| |].
  - intros before k limit after ->. apply Forall_app in Hops as [Hb [[Hl _] _]%Forall_cons].
    destruct (rolling_recorded n s before Hb) as (s0 & -> & _). rewrite acquire_granted. cbn [holds InFlightCount].
    rewrite bool_decide_eq_true. naive_solver.
  - intros k Hk. assert (Hh : holds (rolling_run (Some s, s) ops).1 k = holds (Some s) k).
    { clear -Hk. change (Some s) with (Some s, s).1 at 2. generalize (Some s, s) as st. induction Hk as [|o ops Ho _ IH]; intros st; [done|].
      unfold rolling_run in *. cbn [foldl]. by rewrite IH, rolling_step_op, op_other. }
    rewrite E in Hh. cbn in Hh. rewrite <-(bool_decide_eq_true (k ∈ s')), <-(bool_decide_eq_true (k ∈ s)). by rewrite Hh.
Qed.

(** A slot is granted exactly when limiting is off, the workload already
    holds one, or one is free; the grant is remembered, a refusal changes
    nothing, a repeated request is granted again without a second slot, and
    a released slot can be taken at once. *)
Theorem try_acquire_spec (k k' : string) (limit : Z) (r : Limiter) :
  let '(granted, r') := TryAcquire k limit r in
  (granted = true <-> r = None ∨ limit = 0%Z ∨ holds r k = true ∨ (InFlightCount r < limit)%Z)
  ∧ (granted = false -> r' = r)
  ∧ (granted = true -> limit <> 0%Z -> r <> None -> holds r' k = true)
  ∧ (granted = true -> TryAcquire k limit r' = (true, r'))
  ∧ (holds r k = true -> (0 < limit)%Z -> (InFlightCount r <= limit)%Z ->
     (TryAcquire k' limit (ReleaseWorkloadRolloutSlot k r).2).1 = true).
Proof.
  destruct (TryAcquire k limit r) as [granted r'] eqn:E.
  pose proof (acquire_granted k limit r) as Hg. pose proof (acquire_holds k limit r k) as Hh.
  rewrite E in Hg, Hh. simpl in Hg, Hh. split; [done|].
  assert (Hn : granted = false -> r' = r) by (intros ->; by eapply try_acquire_refused).
  assert (Hheld : granted = true -> limit <> 0%Z -> r <> None -> holds r' k = true).
  { intros -> Hl Hr. apply Hh. right. destruct r as [s|]; [eauto 6|done]. }
  split_and!; [done|done| |].
  - intros ->. unfold TryAcquire. destruct r' as [s'|] eqn:Hr'; [|done].
    case_decide as Hl; [done|]. rewrite decide_True; [done|].
    assert (r <> None) as Hr by (intros ->; unfold TryAcquire in E; congruence).
    specialize (Hheld eq_refl Hl Hr). simpl in Hheld. by rewrite bool_decide_eq_true in Hheld.
  - intros Hhold Hl Hc. apply acquire_granted. right. right. right.
    unfold holds, InFlightCount, ReleaseWorkloadRolloutSlot in *. destruct r as [s|]; [|done]. simpl in *.
    rewrite bool_decide_eq_true in Hhold. rewrite size_difference by set_solver. rewrite size_singleton.
    assert (size s <> 0) by (intros E0%size_empty_inv; set_solver). lia.
Qed.

Definition sample_history : list LimiterOp :=
  [OpTryAcquire "a" 1; OpTryAcquire "b" 1; OpRelease "a"; OpTryAcquire "b" 1; OpTryAcquire "c" 1].

Lemma limiter_bounds_rollouts_witness :
  rolling_run (Some ∅, ∅) sample_history = (Some {[ "b" ]}, {[ "b" ]})
  ∧ let '(r, rolling) := rolling_run (Some ∅, ∅) sample_history in
    r = Some rolling ∧ (Z.of_nat (size rolling) <= 1)%Z
    ∧ (forall before k limit after, sample_history = before ++ OpTryAcquire k limit :: after ->
         let '(r0, rolling0) := rolling_run (Some ∅, ∅) before in
         (TryAcquire k limit r0).1 = true <-> k ∈ rolling0 ∨ (Z.of_nat (size rolling0) < limit)%Z)
    ∧ forall k, Forall (fun o => ~ about k o) sample_history -> k ∈ rolling <-> k ∈ (∅ : gset string).
Proof.
  split; [by vm_compute|]. apply (limiter_bounds_rollouts 1 ∅ sample_history); [by vm_compute|by repeat constructor].
Defined.
