(* ===== verification/RolloutStatus.v ===== *)
(** * Is a workload's rollout done?  (k8sutils/pkg/utils/rollout.go)

    The status tests per workload kind, the check over pods, and what a
    positive answer guarantees about the replicas. *)

From S2P Require Import Prelude.
From S2P Require Import GoStrings.
From S2P Require Import K8s.
From S2P Require Import Workload.
From S2P Require Import Api.
From S2P Require Import Objects.
From S2P Require Import Samples.

Definition TimedOutReason := "ProgressDeadlineExceeded".
Definition DeploymentProgressing := "Progressing".
Definition RollingUpdateStatefulSetStrategyType := "RollingUpdate".
Definition RollingUpdateDaemonSetStrategyType := "RollingUpdate".
Definition RolloutPhaseHealthy := "Healthy".
Definition RolloutPhasePaused := "Paused".
Definition RolloutPhaseDegraded := "Degraded".
Definition RolloutPhaseProgressing := "Progressing".

Definition GetDeploymentCondition (conds : list DeploymentCondition) (condType : string)
    : option DeploymentCondition :=
  first_match (fun c => bool_decide (dcond_type c = condType)) conds.

Definition isDeploymentRolloutDone (d : Deployment) : bool :=
  if decide (om_generation (dep_meta d) > dep_observed_generation d)%Z then false
  else if match GetDeploymentCondition (dep_conditions d) DeploymentProgressing with
          | Some cond => bool_decide (dcond_reason cond = TimedOutReason)
          | None => false
          end then false
  else if match dep_spec_replicas d with
          | Some n => bool_decide (dep_updated_replicas d < n)%Z
          | None => false
          end then false
  else if decide (dep_replicas d > dep_updated_replicas d)%Z then false
  else if decide (dep_available_replicas d < dep_updated_replicas d)%Z then false
  else true.

Definition isStatefulSetRolloutDone (s : StatefulSet) : bool :=
  if negb (bool_decide (sts_strategy s = RollingUpdateStatefulSetStrategyType)) then true
  else if bool_decide (sts_observed_generation s = 0)%Z
          || bool_decide (om_generation (sts_meta s) > sts_observed_generation s)%Z then false
  else if match sts_spec_replicas s with
          | Some n => bool_decide (sts_ready_replicas s < n)%Z
          | None => false
          end then false
  else match sts_rolling_update s with
       | Some partition =>
           match sts_spec_replicas s, partition with
           | Some n, Some p =>
               if decide (sts_updated_replicas s < wrap 32 (n - p))%Z then false else true
           | _, _ => true
           end
       | None =>
           if decide (sts_update_revision s = sts_current_revision s) then true else false
       end.

Definition isDaemonSetRolloutDone (d : DaemonSet) : bool :=
  if negb (bool_decide (ds_strategy d = RollingUpdateDaemonSetStrategyType)) then true
  else if decide (om_generation (ds_meta d) > ds_observed_generation d)%Z then false
  else if decide (ds_updated_scheduled d < ds_desired_scheduled d)%Z then false
  else if decide (ds_number_available d < ds_desired_scheduled d)%Z then false
  else true.

Definition isDeploymentConfigRolloutDone (dc : DeploymentConfig) : bool :=
  if decide (om_generation (dc_meta dc) > dc_observed_generation dc)%Z then false
  else if decide (dc_replicas dc > dc_updated_replicas dc)%Z then false
  else if decide (dc_available_replicas dc < dc_updated_replicas dc)%Z then false
  else if decide (dc_unavailable_replicas dc > 0)%Z then false
  else true.

Definition isArgoRolloutRolloutDone (r : ArgoRollout) : bool :=
  match parse_int64 (ar_observed_generation r) with
  | None => false
  | Some observedGen =>
      if decide (om_generation (ar_meta r) > observedGen)%Z then false
      else switch (ar_phase r)
             [(RolloutPhaseHealthy, true); (RolloutPhasePaused, true);
              (RolloutPhaseDegraded, false); (RolloutPhaseProgressing, false)]
             true
  end.

Definition IsWorkloadRolloutDone (obj : Object) : bool :=
  match obj with
  | ODeployment o => isDeploymentRolloutDone o
  | OStatefulSet o => isStatefulSetRolloutDone o
  | ODaemonSet o => isDaemonSetRolloutDone o
  | ODeploymentConfig o => isDeploymentConfigRolloutDone o
  | OArgoRollout o => isArgoRolloutRolloutDone o
  | _ => false
  end.

(** ** Pods of a workload *)

Definition checkAllPodsRunning (pods : list Pod) : bool :=
  forallb (fun pod =>
    bool_decide (pod_phase pod = PodRunning)
    && forallb (fun cs => bool_decide (cs_restart_count cs = 0)%Z) (pod_statuses pod)
    && AllContainersReady pod) pods.

(** Nil for a kind without pods of its own; the selector is dereferenced
    without a check. *)
Definition GetMatchLabels (obj : Object) : go (option (gmap string string)) :=
  match obj with
  | ODeployment o => go_bind (go_deref (dep_selector o)) (fun s => Done (MatchLabels s))
  | OStatefulSet o => go_bind (go_deref (sts_selector o)) (fun s => Done (MatchLabels s))
  | ODaemonSet o => go_bind (go_deref (ds_selector o)) (fun s => Done (MatchLabels s))
  | ODeploymentConfig o => Done (dc_selector o)
  | OArgoRollout o => go_bind (go_deref (ar_selector o)) (fun s => Done (MatchLabels s))
  | _ => Done None
  end.

(** [list] is the API server's reply to listing the pods with these labels
    in the object's namespace. *)
Definition VerifyAllPodsAreRunning
    (list : string -> gmap string string -> error + list Pod) (obj : Object)
    : go (bool * option error) :=
  if negb (IsWorkloadRolloutDone obj) then Done (false, None)
  else go_bind (GetMatchLabels obj) (fun labels =>
    match labels with
    | None => Done (true, None)
    | Some labels =>
        match list (om_namespace (object_meta obj)) labels with
        | inl err => Done (false, Some err)
        | inr pods => Done (checkAllPodsRunning pods, None)
        end
    end).

(** ** What a finished rollout means *)

Section Done.
Implicit Types (d : Deployment) (s : StatefulSet).

(** A deployment's rollout is done exactly when its controller has seen the
    current spec, the deadline was not exceeded, and the replica counts
    agree: every wanted replica is updated, no old replica is left and every
    updated replica is available. *)
Lemma deployment_done_iff d :
  isDeploymentRolloutDone d = true <->
  (om_generation (dep_meta d) <= dep_observed_generation d)%Z
  ∧ (forall c, GetDeploymentCondition (dep_conditions d) DeploymentProgressing = Some c ->
       dcond_reason c <> TimedOutReason)
  ∧ (forall n, dep_spec_replicas d = Some n -> n <= dep_updated_replicas d)%Z
  ∧ (dep_replicas d <= dep_updated_replicas d <= dep_available_replicas d)%Z.
Proof.
  unfold isDeploymentRolloutDone. autorewrite with guards.
  destruct (GetDeploymentCondition (dep_conditions d) _) as [c|];
    destruct (dep_spec_replicas d) as [n|]; rewrite ?bool_decide_eq_false; split.
  all: intros (? & Hc & Hn & H); try specialize (Hc _ eq_refl); try specialize (Hn _ eq_refl).
  all: repeat split; intros; simplify_eq; by (done || lia).
Qed.

(** A rolling update of a stateful set: the partition counts the replicas
    left at the old revision; within int32 the subtraction is exact. *)
Lemma statefulset_done s n :
  isStatefulSetRolloutDone s = true ->
  sts_strategy s = RollingUpdateStatefulSetStrategyType ->
  sts_spec_replicas s = Some n ->
  (om_generation (sts_meta s) <= sts_observed_generation s)%Z
  ∧ (n <= sts_ready_replicas s)%Z
  ∧ (forall p, sts_rolling_update s = Some (Some p) ->
       (0 <= p)%Z -> (0 <= n < 2 ^ 31)%Z -> (p < 2 ^ 31)%Z -> (n - p <= sts_updated_replicas s)%Z)
  ∧ (sts_rolling_update s = None -> sts_update_revision s = sts_current_revision s).
Proof.
  unfold isStatefulSetRolloutDone. intros H Hs Hn. revert H. rewrite Hn.
  autorewrite with guards. intros [?|[[H0 Hg] [Hr H]]]; [done|].
  repeat split; try lia.
  - intros p Hp ???. rewrite Hp, guard_decide, wrap_id in H; unfold in_range; lia.
  - intros Hp. rewrite Hp in H. by case_decide.
Qed.
End Done.

(** The replicas a workload reports as available to serve once its rollout
    is done, per kind, and the desired number. *)
Definition desired_and_available (obj : Object) : option (Z * Z) :=
  match obj with
  | ODeployment d => (fun n => (n, dep_available_replicas d)) <$> dep_spec_replicas d
  | OStatefulSet s =>
      if decide (sts_strategy s = RollingUpdateStatefulSetStrategyType)
      then (fun n => (n, sts_ready_replicas s)) <$> sts_spec_replicas s
      else None
  | ODaemonSet d =>
      if decide (ds_strategy d = RollingUpdateDaemonSetStrategyType)
      then Some (ds_desired_scheduled d, ds_number_available d) else None
  | ODeploymentConfig d => Some (dc_replicas d, dc_available_replicas d)
  | _ => None
  end.

(** A finished rollout serves: when a workload of any kind with replica
    counts is reported done, at least the desired number of its replicas is
    available. *)
Theorem rollout_done_available (obj : Object) (n a : Z) :
  IsWorkloadRolloutDone obj = true ->
  desired_and_available obj = Some (n, a) ->
  (n <= a)%Z.
Proof.
  destruct obj as [d|s|d|d|r|p|c|j|ns]; simpl; try done.
  - intros (_ & _ & Hn & ?)%deployment_done_iff Hd.
    apply fmap_Some in Hd as (m & Hm & ?). simplify_eq. specialize (Hn _ Hm). lia.
  - intros Hs Hd. case_decide; [|done].
    apply fmap_Some in Hd as (m & Hm & ?). simplify_eq.
    destruct (statefulset_done s m) as (_ & ? & _); done.
  - unfold isDaemonSetRolloutDone. autorewrite with guards.
    intros H Hd. case_decide; simplify_eq. destruct H as [?|(_ & _ & ? & _)]; [done|lia].
  - unfold isDeploymentConfigRolloutDone. autorewrite with guards.
    intros H ?. simplify_eq. lia.
Qed.

Lemma rollout_done_available_witness :
  IsWorkloadRolloutDone (ODeployment sample_deployment) = true
  ∧ desired_and_available (ODeployment sample_deployment) = Some (2%Z, 2%Z) ∧ (2 <= 2)%Z.
Proof.
  split; [reflexivity|]. split; [reflexivity|].
  apply (rollout_done_available (ODeployment sample_deployment) 2 2); reflexivity.
Defined.
