(* ===== verification/Rollout.v ===== *)
(** * Rolling workloads out and back
    (instrumentor/controllers/agentenabled/rollout: rollout.go, conditions.go,
    rollout_config_helpers.go)

    [Do] compares the hash of the agents a workload should run with the hash
    it was last restarted for, and restarts it, waits, or rolls it back.  The
    instrumentation config is a pointer that [Do] may write to: it is passed
    in and returned. *)

From S2P Require Import Prelude.
From S2P Require Import GoStrings.
From S2P Require Import K8s.
From S2P Require Import Status.
From S2P Require Import Workload.
From S2P Require Import Api.
From S2P Require Import GoLib.
From S2P Require Import Objects.
From S2P Require Import Client.
From S2P Require Import Source.
From S2P Require Import Backoff.
From S2P Require Import Limiter.
From S2P Require Import RolloutStatus.

Definition RequeueWaitingForWorkloadRollout : Z := (10 * Second)%Z.

Record RolloutResult := mkRolloutResult { rr_status_changed : bool; rr_result : Result }.

Definition rollout_nothing : RolloutResult := mkRolloutResult false no_result.
Definition rollout_changed (changed : bool) : RolloutResult := mkRolloutResult changed no_result.
Definition rollout_requeue (changed : bool) (d : Z) : RolloutResult := mkRolloutResult changed (requeue_after d).

(** ** Options (rollout_config_helpers.go) *)

Record RollBackOptions := mkRollBackOptions
  { IsRollbackDisabled : bool;
    RollbackGraceTime : Z;
    RollbackStabilityWindow : Z;
    MaxConcurrentRollouts : Z }.

Definition DefaultAutoRollbackGraceTime : Z := (5 * Minute)%Z.
Definition DefaultAutoRollbackStabilityWindow : Z := (1 * Hour)%Z.

Definition duration_option `{GoLibrary} (field s : string) (dflt : Z) : error + Z :=
  if decide (s = "") then inr dflt
  else match ParseDuration s with
       | inl err => inl (EWrap ("invalid " +:+ field +:+ " " +:+ strconv_Quote s) (ENew err))
       | inr d => inr d
       end.

Definition getRolloutAndRollbackOptions `{GoLibrary} (conf : OdigosConfiguration)
    : error + bool * RollBackOptions :=
  let isAutomaticRolloutDisabled :=
    match conf_rollout conf with Some r => deref_bool (rc_automatic_disabled r) | None => false end in
  let isRollbackDisabled := deref_bool (conf_rollback_disabled conf) in
  match duration_option "RollbackGraceTime" (conf_rollback_grace_time conf) DefaultAutoRollbackGraceTime with
  | inl err => inl err
  | inr graceTime =>
      match duration_option "RollbackStabilityWindow" (conf_rollback_stability_window conf)
              DefaultAutoRollbackStabilityWindow with
      | inl err => inl err
      | inr stabilityWindow =>
          let maxConcurrentRollouts :=
            match conf_rollout conf with
            | Some r => if decide (rc_max_concurrent r > 0)%Z then rc_max_concurrent r else NoConcurrencyLimiting
            | None => NoConcurrencyLimiting
            end in
          inr (isAutomaticRolloutDisabled,
               mkRollBackOptions isRollbackDisabled graceTime stabilityWindow maxConcurrentRollouts)
      end
  end.

(** ** Conditions (conditions.go) *)

Definition conditionRestartNotRequiredForDistro :=
  mkCondition WorkloadRolloutStatusConditionType ConditionTrue WorkloadRolloutReasonNotRequired
    "The selected instrumentation distributions do not require application restart".
Definition conditionStaticPodsNotSupported :=
  mkCondition WorkloadRolloutStatusConditionType ConditionTrue WorkloadRolloutReasonWorkloadNotSupporting
    "static pods don't support restart".
Definition conditionWaitingForJobTrigger :=
  mkCondition WorkloadRolloutStatusConditionType ConditionTrue WorkloadRolloutReasonWaitingForRestart
    "Waiting for job to trigger by itself".
Definition conditionRolloutDisabled :=
  mkCondition WorkloadRolloutStatusConditionType ConditionTrue WorkloadRolloutReasonDisabled
    "odigos automatic rollout is disabled".
Definition conditionTriggeredSuccessfully :=
  mkCondition WorkloadRolloutStatusConditionType ConditionTrue WorkloadRolloutReasonTriggeredSuccessfully
    "workload rollout triggered successfully".
Definition conditionPreviousRolloutOngoing :=
  mkCondition WorkloadRolloutStatusConditionType ConditionUnknown WorkloadRolloutReasonPreviousRolloutOngoing
    "waiting for workload rollout to finish before triggering a new one".
Definition conditionRolloutFinished :=
  mkCondition WorkloadRolloutStatusConditionType ConditionTrue WorkloadRolloutReasonRolloutFinished
    "workload rollout finished successfully".
Definition conditionWaitingInQueue :=
  mkCondition WorkloadRolloutStatusConditionType ConditionTrue WorkloadRolloutReasonWaitingInQueue
    "Waiting for other workload rollouts to complete".

Definition newConditionFailedToPatch (err : error) : Condition :=
  mkCondition WorkloadRolloutStatusConditionType ConditionFalse WorkloadRolloutReasonFailedToPatch (Error err).
Definition newConditionTriggeredWithMessage (message : string) : Condition :=
  mkCondition WorkloadRolloutStatusConditionType ConditionTrue WorkloadRolloutReasonTriggeredSuccessfully message.
Definition newConditionAgentDisabledDueToBackoff (reason : AgentEnabledReason) (message : string) : Condition :=
  mkCondition AgentEnabledType (reason_status ConditionFalse reason) reason message.

Definition rolloutCondition (rolloutErr : option error) : Condition :=
  match rolloutErr with
  | None => conditionTriggeredSuccessfully
  | Some err => newConditionFailedToPatch err
  end.

(** ** Recovery *)

Definition RollbackRecoveryProcessedAtAnnotation := "odigos.io/rollback-recovery-processed".

Definition annotation (ic : InstrumentationConfig) (k : string) : string :=
  map_get (om_annotations (ic_meta ic)) k.

Definition with_annotation (ic : InstrumentationConfig) (k v : string) : InstrumentationConfig :=
  let m := ic_meta ic in
  mkIC (mkObjectMeta (om_type_kind m) (om_name m) (om_namespace m) (om_labels m)
          (<[k := v]> (om_annotations m)) (om_owners m) (om_generation m) (om_deletion m))
    (ic_spec ic) (ic_status ic).

(** The config with the request marked as processed, when one is pending. *)
Definition recoverFromRollback (ic : InstrumentationConfig) : option InstrumentationConfig :=
  let currentRecoveryAt := annotation ic RollbackRecoveryAtAnnotation in
  if negb (st_rollback_occurred (ic_status ic)) || bool_decide (currentRecoveryAt = "") then None
  else if bool_decide (annotation ic RollbackRecoveryProcessedAtAnnotation = currentRecoveryAt) then None
  else Some (with_annotation ic RollbackRecoveryProcessedAtAnnotation currentRecoveryAt).

(** Every container disabled, for the pods' back-off reason. *)
Definition disable_container (reason : AgentEnabledReason) (c : ContainerAgentConfig) : ContainerAgentConfig :=
  mkContainerAgentConfig (cac_name c) false reason (cac_message c) (cac_manifest_optional c) (cac_distro c)
    (cac_params c) (cac_env_method c) (cac_traces c) (cac_metrics c) (cac_logs c) (cac_diagnostics c).

Definition disable_agents (reason : AgentEnabledReason) (ic : InstrumentationConfig) : InstrumentationConfig :=
  with_spec ic (with_injection (with_containers (ic_spec ic)
                                  (disable_container reason <$> spec_containers (ic_spec ic))) false).

Section Rollout.
Context `{Client} `{StatusConditions} `{GoMapOrder} `{GoLibrary}.

Definition set_rollout (ic : InstrumentationConfig) (c : Condition) : InstrumentationConfig * bool :=
  let '(l, changed) := SetStatusCondition (st_conditions (ic_status ic)) c in (with_conditions ic l, changed).

(** ** Restarting *)

Definition rolloutRestartWorkload (obj : Object) (ts : Z) : M (option error) :=
  let patch := PatchRestartedAt (ts / Second)%Z in
  match obj with
  | ODeployment d =>
      if dep_paused d then mret (Some (ENew "can't restart paused deployment"))
      else write (fun c => PatchWorkload c obj patch)
  | OStatefulSet _ | ODaemonSet _ | ODeploymentConfig _ => write (fun c => PatchWorkload c obj patch)
  | OArgoRollout _ => write (fun c => PatchWorkload c obj (PatchRestartAt (ts / Second)%Z))
  | OPod p =>
      if IsStaticPod p then mret (Some (ENew "can't restart static pods"))
      else mret (Some (ENew "currently not supporting standalone pods as workloads for rollout"))
  | _ => mret (Some (ENew "unknown kind"))
  end.

Definition workloadStillMarkedForInstrumentation (c : Cluster) (pw : PodWorkload) : error + bool :=
  match GetSources c pw with
  | inl err => inl err
  | inr sources =>
      match IsObjectInstrumentedBySource (inr sources) with
      | ((enabled, _), None) => inr enabled
      | (_, Some err) => inl err
      end
  end.

(** ** Rolling back *)

(** Whether to roll back, how long to wait first, and why.  The difference
    of the two durations does not overflow: [0 < duration < grace time]. *)
Definition shouldTriggerRollback (ic : InstrumentationConfig) (obj : Object) (options : RollBackOptions)
    : M (error + bool * Z * podBackOffInfo) :=
  info ← podBackOffDuration obj;
  match info with
  | inl err => mret (inl err)
  | inr info =>
      match st_instrumentation_time (ic_status ic) with
      | None => mret (inr (false, RequeueWaitingForWorkloadRollout, no_backoff))
      | Some t =>
          timeSinceInstrumentation ← time_Since t;
          if decide (bo_duration info <= 0)%Z then mret (inr (false, 0%Z, no_backoff))
          else if decide (timeSinceInstrumentation >= RollbackStabilityWindow options)%Z then
            mret (inr (false, 0%Z, no_backoff))
          else if negb (spec_injection_enabled (ic_spec ic)) then mret (inr (false, 0%Z, no_backoff))
          else if decide (bo_duration info < RollbackGraceTime options)%Z then
            mret (inr (true, (RollbackGraceTime options - bo_duration info)%Z, info))
          else mret (inr (true, 0%Z, info))
      end
  end.

Definition Outcome : Type := RolloutResult * option error * InstrumentationConfig.

Definition triggerRollback (ic : InstrumentationConfig) (obj : Object) (workloadKey : string)
    (info : podBackOffInfo) : M Outcome :=
  let ic := disable_agents (bo_reason info) ic in
  updated ← write (fun c => UpdateIC c ic);
  match updated with
  | inl err => mret (rollout_nothing, (K8SUpdateErrorHandler err).2, ic)
  | inr ic =>
      let ic := with_rollback ic true in
      _ ← limit (ReleaseWorkloadRolloutSlot workloadKey);
      now ← time_Now;
      rolloutErr ← rolloutRestartWorkload obj now;
      match rolloutErr with
      | Some err => mret (rollout_nothing, Some err, ic)
      | None =>
          let ic := (set_rollout ic (newConditionTriggeredWithMessage (bo_message info))).1 in
          let ic := (set_rollout ic (newConditionAgentDisabledDueToBackoff (bo_reason info) (bo_message info))).1 in
          mret (rollout_requeue true RequeueWaitingForWorkloadRollout, None, ic)
      end
  end.

(** The check of the three rollback scenarios: wait, roll back, or go on. *)
Definition check_rollback (ic : InstrumentationConfig) (obj : Object) (options : RollBackOptions)
    (workloadKey : string) (otherwise : M Outcome) : M Outcome :=
  r ← shouldTriggerRollback ic obj options;
  match r with
  | inl err => mret (rollout_nothing, Some err, ic)
  | inr (shouldRollback, waitDuration, info) =>
      if bool_decide (waitDuration > 0)%Z && shouldRollback then
        mret (rollout_requeue false waitDuration, None, ic)
      else if shouldRollback then triggerRollback ic obj workloadKey info
      else otherwise
  end.

(** ** The cases of [Do] *)

(** No config: the workload is restarted to remove its agents. *)
Definition uninstrument (obj : Object) (pw : PodWorkload) (isAutomaticRolloutDisabled : bool)
    : M (RolloutResult * option error) :=
  hasAgents ← read (fun c => workloadHasOdigosAgents c obj);
  hasAgents ← lift hasAgents;
  match hasAgents with
  | inl err => mret (rollout_nothing, Some err)
  | inr false => mret (rollout_nothing, None)
  | inr true =>
      stillInstrumented ← read (fun c => workloadStillMarkedForInstrumentation c pw);
      match stillInstrumented with
      | inl err => mret (rollout_nothing, Some err)
      | inr true => mret (rollout_nothing, None)
      | inr false =>
          if isAutomaticRolloutDisabled then mret (rollout_nothing, None)
          else
            _ ← limit (ReleaseWorkloadRolloutSlot (WorkloadKey pw));
            now ← time_Now;
            rolloutErr ← rolloutRestartWorkload obj now;
            mret (rollout_nothing, rolloutErr ≫= IgnoreNotFound)
      end
  end.

(** Recovery: persist the processed request, then the cleared flag. *)
Definition persist_recovery (ic : InstrumentationConfig) : M Outcome :=
  updated ← write (fun c => UpdateIC c ic);
  match updated with
  | inl err =>
      let '(result, handled) := K8SUpdateErrorHandler err in mret (mkRolloutResult false result, handled, ic)
  | inr ic =>
      let ic := with_rollback ic false in
      updated ← write (fun c => UpdateICStatus c ic);
      match updated with
      | inl err =>
          let '(result, handled) := K8SUpdateErrorHandler err in mret (mkRolloutResult false result, handled, ic)
      | inr ic => mret (mkRolloutResult false requeue_now, None, ic)
      end
  end.

(** The hashes agree: the rollout happened, is on its way, or has to be
    rolled back. *)
Definition same_hash (ic : InstrumentationConfig) (obj : Object) (options : RollBackOptions)
    (workloadKey : string) : M Outcome :=
  let rolloutDone := IsWorkloadRolloutDone obj in
  if negb rolloutDone && negb (IsRollbackDisabled options) then
    check_rollback ic obj options workloadKey
      (mret (rollout_requeue false RequeueWaitingForWorkloadRollout, None, ic))
  else if rolloutDone then
    let '(ic, changed) := set_rollout ic conditionRolloutFinished in
    _ ← limit (ReleaseWorkloadRolloutSlot workloadKey);
    mret (rollout_changed changed, None, ic)
  else mret (rollout_changed false, None, ic).

(** Restart the workload and record the hash, whether the patch succeeded or
    not. *)
Definition perform_rollout (ic : InstrumentationConfig) (obj : Object) : M Outcome :=
  t ← match spec_hash_changed_time (ic_spec ic) with Some t => mret t | None => time_Now end;
  rolloutErr ← rolloutRestartWorkload obj t;
  let ic := with_rollout_hash ic (spec_agents_meta_hash (ic_spec ic)) in
  ic ← (if spec_injection_enabled (ic_spec ic) then
          now ← time_Now; mret (with_instrumentation_time ic (Some now))
        else mret ic);
  let ic := (set_rollout ic (rolloutCondition rolloutErr)).1 in
  mret (rollout_requeue true RequeueWaitingForWorkloadRollout, None, ic).

(** The hashes differ and nothing is crashing: restart, when the previous
    rollout is over and a slot is free. *)
Definition start_rollout (ic : InstrumentationConfig) (obj : Object) (options : RollBackOptions)
    (workloadKey : string) : M Outcome :=
  if negb (IsWorkloadRolloutDone obj) then
    let '(ic, changed) := set_rollout ic conditionPreviousRolloutOngoing in
    mret (rollout_requeue changed RequeueWaitingForWorkloadRollout, None, ic)
  else
    acquired ← limit (TryAcquire workloadKey (MaxConcurrentRollouts options));
    if negb acquired then
      let '(ic, changed) := set_rollout ic conditionWaitingInQueue in
      mret (rollout_requeue changed RequeueWaitingForWorkloadRollout, None, ic)
    else
      perform_rollout ic obj.

Definition different_hash (ic : InstrumentationConfig) (obj : Object) (options : RollBackOptions)
    (workloadKey : string) : M Outcome :=
  let saved := st_rollout_hash (ic_status ic) in
  let new := spec_agents_meta_hash (ic_spec ic) in
  let may_roll_back := negb (IsRollbackDisabled options) && spec_injection_enabled (ic_spec ic) in
  if bool_decide (saved = "") && negb (bool_decide (new = "")) && may_roll_back then
    let ic := with_instrumentation_time ic (spec_hash_changed_time (ic_spec ic)) in
    check_rollback ic obj options workloadKey (start_rollout ic obj options workloadKey)
  else if negb (bool_decide (saved = "")) && negb (bool_decide (new = "")) && may_roll_back then
    check_rollback ic obj options workloadKey (start_rollout ic obj options workloadKey)
  else start_rollout ic obj options workloadKey.

(** With a config, for a workload that can be restarted. *)
Definition roll (ic : InstrumentationConfig) (obj : Object) (pw : PodWorkload)
    (isAutomaticRolloutDisabled : bool) (options : RollBackOptions) : M Outcome :=
  match recoverFromRollback ic with
  | Some ic => persist_recovery ic
  | None =>
      if spec_manifest_optional (ic_spec ic) then
        _ ← limit (ReleaseWorkloadRolloutSlot (WorkloadKey pw));
        let '(ic, changed) := set_rollout ic conditionRestartNotRequiredForDistro in
        mret (rollout_changed changed, None, ic)
      else if isAutomaticRolloutDisabled then
        _ ← limit (ReleaseWorkloadRolloutSlot (WorkloadKey pw));
        let '(ic, changed) := set_rollout ic conditionRolloutDisabled in
        mret (rollout_changed changed, None, ic)
      else if bool_decide (st_rollout_hash (ic_status ic) = spec_agents_meta_hash (ic_spec ic)) then
        same_hash ic obj options (WorkloadKey pw)
      else different_hash ic obj options (WorkloadKey pw)
  end.

(** A kind that is never restarted: only the condition is set. *)
Definition no_restart (ic : option InstrumentationConfig)
    (condition : InstrumentationConfig -> Condition)
    : M (RolloutResult * option error * option InstrumentationConfig) :=
  match ic with
  | None => mret (rollout_nothing, None, None)
  | Some ic => let '(ic', changed) := set_rollout ic (condition ic) in mret (rollout_changed changed, None, Some ic')
  end.

Definition Do (ic : option InstrumentationConfig) (pw : PodWorkload) (conf : OdigosConfiguration)
    : M (RolloutResult * option error * option InstrumentationConfig) :=
  match getRolloutAndRollbackOptions conf with
  | inl err => mret (rollout_nothing, Some err, ic)
  | inr (isAutomaticRolloutDisabled, options) =>
      got ← read (fun c => GetObject c (ClientObjectFromWorkloadKind (pw_kind pw)) (pw_namespace pw) (pw_name pw));
      match got with
      | inl err => mret (rollout_nothing, IgnoreNotFound err, ic)
      | inr obj =>
          if decide (pw_kind pw = WorkloadKindStaticPod) then
            no_restart ic (fun ic => if spec_manifest_optional (ic_spec ic)
                                     then conditionRestartNotRequiredForDistro
                                     else conditionStaticPodsNotSupported)
          else if bool_decide (pw_kind pw = WorkloadKindCronJob) || bool_decide (pw_kind pw = WorkloadKindJob) then
            no_restart ic (fun _ => conditionWaitingForJobTrigger)
          else
            match ic with
            | None =>
                '(r, err) ← uninstrument obj pw isAutomaticRolloutDisabled;
                mret (r, err, None)
            | Some ic =>
                '(r, err, ic) ← roll ic obj pw isAutomaticRolloutDisabled options;
                mret (r, err, Some ic)
            end
      end
  end.
End Rollout.
