(* ===== verification/RolloutEffects.v ===== *)
(** * What a call of [Do] may change

    [do_effect] lists the writes that one call can make, each with what
    justifies it; [do_run] proves that every call returns with one of them. *)

From S2P Require Import Prelude.
From S2P Require Import GoStrings.
From S2P Require Import K8s.
From S2P Require Import Status.
From S2P Require Import Workload.
From S2P Require Import Api.
From S2P Require Import GoLib.
From S2P Require Import Objects.
From S2P Require Import Client.
From S2P Require Import Source.
From S2P Require Import Backoff.
From S2P Require Import Limiter.
From S2P Require Import RolloutStatus.
From S2P Require Import Rollout.

(** ** Facts *)

Section RolloutFacts.
Context `{Client} `{StatusConditionsLaws} `{GoMapOrder} `{GoLibrary}.

(** The pods that carry the agents' label. *)
Definition instrumented_pods (c : Cluster) (obj : Object) : go (error + list Pod) :=
  list_selected c obj (instrumentedPodsSelector obj) "podBackOffDuration: invalid selector"
    "podBackOffDuration: failed listing pods".

(** The earliest start of an instrumented pod in back-off. *)
Definition earliest_backoff (c : Cluster) (obj : Object) (start : Z) (p : Pod) : Prop :=
  exists pods, instrumented_pods c obj = Done (inr pods) ∧ p ∈ pods
  ∧ podHasBackOff p = true ∧ pod_start_time p = Some start
  ∧ forall q u, q ∈ pods -> podHasBackOff q = true -> pod_start_time q = Some u -> (start <= u)%Z.

(** Why a rollback is due, for a decision whose first reading of the clock
    is the [k]-th: an instrumented pod waits in back-off, the agents were
    rolled out recently enough, and are still on. *)
Record rollback_due (ic : InstrumentationConfig) (obj : Object) (options : RollBackOptions) (c : Cluster)
    (k : nat) (wait : Z) (info : podBackOffInfo) : Prop := {
  rd_pod : exists start p, earliest_backoff c obj start p
    ∧ bo_duration info = time_sub (Clock k) start ∧ (bo_reason info, bo_message info) = getPodBackOffReason p;
  rd_positive : (0 < bo_duration info)%Z;
  rd_recent : exists t, st_instrumentation_time (ic_status ic) = Some t
    ∧ (time_sub (Clock (S k)) t < RollbackStabilityWindow options)%Z;
  rd_enabled : spec_injection_enabled (ic_spec ic) = true;
  rd_wait : wait = Z.max 0 (RollbackGraceTime options - bo_duration info)
}.

Lemma backoff_duration_run obj s :
  has_selector obj ->
  exists r n, podBackOffDuration obj s = Done (r, mkSt (st_cluster s) (st_limiter s) n)
  ∧ match r with
    | inl _ => st_ticks s <= n ∧ forall start p, ~ earliest_backoff (st_cluster s) obj start p
    | inr info =>
        (info = no_backoff ∧ n = st_ticks s ∧ forall start p, ~ earliest_backoff (st_cluster s) obj start p)
        ∨ exists start p, earliest_backoff (st_cluster s) obj start p ∧ n = S (st_ticks s)
          ∧ bo_duration info = time_sub (Clock (st_ticks s)) start
          ∧ (bo_reason info, bo_message info) = getPodBackOffReason p
    end.
Proof.
  intros Hs. unfold podBackOffDuration. fold (instrumented_pods (st_cluster s) obj).
  destruct (list_selected_total (st_cluster s) obj OpExists "instrumentedPodsSelector"
    "podBackOffDuration: invalid selector" "podBackOffDuration: failed listing pods" Hs) as [l Hl].
  change (instrumented_pods (st_cluster s) obj = Done l) in Hl.
  unfold mbind, M_bind, read. cbn [go_bind fst snd]. change (list_selected _ _ _ _ _) with (instrumented_pods (st_cluster s) obj).
  rewrite Hl. unfold lift. cbn [go_bind fst snd]. destruct l as [err|pods].
  { exists (inl err), (st_ticks s). split; [by destruct s|]. split; [done|]. intros start p (pods & Hp & _). congruence. }
  pose proof (earliest_spec pods None) as He. destruct (foldl earliest_step None pods) as [[start [reason message]]|].
  - destruct He as ([?|(p & Hp & Hb & Hst & Hr)] & Hmin & _); [done|].
    unfold time_Since, time_Now, mbind, M_bind. cbn [go_bind fst snd]. eexists _, _. split; [reflexivity|].
    right. exists start, p. split_and!; [|done..]. by exists pods.
  - exists (inr no_backoff), (st_ticks s). split; [by destruct s|]. left. split_and!; [done..|].
    intros start p (pods' & Hp & Hin & Hb & Hst & _). rewrite Hl in Hp. injection Hp as <-.
    destruct He as [_ Hnone]. rewrite (Hnone p Hin Hb) in Hst. done.
Qed.

(** The earliest start is one instant. *)
Lemma earliest_backoff_eq c obj s1 p1 s2 p2 :
  earliest_backoff c obj s1 p1 -> earliest_backoff c obj s2 p2 -> s1 = s2.
Proof.
  intros (l1 & Hl1 & Hi1 & Hb1 & Ht1 & Hm1) (l2 & Hl2 & Hi2 & Hb2 & Ht2 & Hm2).
  rewrite Hl1 in Hl2. injection Hl2 as <-. specialize (Hm1 _ _ Hi2 Hb2 Ht2). specialize (Hm2 _ _ Hi1 Hb1 Ht1). lia.
Qed.

(** The decision returns; it is for a rollback exactly when one is due. *)
Lemma should_rollback_run ic obj options s :
  has_selector obj ->
  exists r n, shouldTriggerRollback ic obj options s = Done (r, mkSt (st_cluster s) (st_limiter s) n)
  ∧ st_ticks s <= n
  ∧ (forall wait info, r = inr (true, wait, info) ->
       rollback_due ic obj options (st_cluster s) (st_ticks s) wait info ∧ n = S (S (st_ticks s)))
  ∧ (forall wait info, rollback_due ic obj options (st_cluster s) (st_ticks s) wait info ->
       exists info', r = inr (true, wait, info')).
Proof.
  intros Hs. unfold shouldTriggerRollback. unfold mbind, M_bind.
  destruct (backoff_duration_run obj s Hs) as (r & n & -> & Hinfo). cbn [go_bind fst snd].
  destruct r as [err|info].
  { exists (inl err), n. split; [done|]. destruct Hinfo as [? Hno]. split_and!; [done..|].
    intros wait info [(start & p & Hp & _) _ _ _ _]. by apply Hno in Hp. }
  assert (Hn : st_ticks s <= n) by (destruct Hinfo as [(_ & -> & _)|(? & ? & _ & -> & _)]; lia).
  destruct (st_instrumentation_time (ic_status ic)) as [t|] eqn:Ht.
  2: { eexists _, n. split; [done|]. split_and!; [done..|]. intros wait info' [_ _ (t & E & _) _ _]. congruence. }
  unfold time_Since, time_Now, mbind, M_bind, mret, M_ret. cbn [go_bind fst snd st_ticks st_cluster st_limiter].
  destruct Hinfo as [(-> & -> & Hno)|(start & p & Hp & -> & Hd & Hr)].
  { eexists _, _. split; [done|]. split_and!; [simpl; lia|done|]. intros wait info [(start & p & Hp & _) _ _ _ _]. by apply Hno in Hp. }
  assert (Hconv : forall wait info', rollback_due ic obj options (st_cluster s) (st_ticks s) wait info' ->
    (0 < bo_duration info ∧ time_sub (Clock (S (st_ticks s))) t < RollbackStabilityWindow options)%Z
    ∧ spec_injection_enabled (ic_spec ic) = true ∧ wait = Z.max 0 (RollbackGraceTime options - bo_duration info)).
  { intros wait info' [(start' & p' & Hp' & Hd' & _) Hpos (t' & E & Hw) Hen Hwait].
    rewrite (earliest_backoff_eq _ _ _ _ _ _ Hp' Hp) in Hd'. rewrite <-Hd in Hd'. rewrite Hd' in Hpos, Hwait.
    rewrite Ht in E. injection E as <-. done. }
  case_decide as Hpos.
  { eexists _, _. split; [done|]. split_and!; [simpl; lia|done|]. intros wait info' ([? ?] & ? & ?)%Hconv. lia. }
  case_decide as Hwin.
  { eexists _, _. split; [done|]. split_and!; [simpl; lia|done|]. intros wait info' ([? ?] & ? & ?)%Hconv. lia. }
  destruct (spec_injection_enabled (ic_spec ic)) eqn:Hen.
  2: { eexists _, _. split; [done|]. split_and!; [simpl; lia|done|]. intros wait info' (? & ? & ?)%Hconv. done. }
  case_decide as Hgrace; (eexists _, _; split; [reflexivity|]); (split_and!; [simpl; lia| |]).
  1, 3: intros wait info' [= <- <-]; (split; [|done]); split; [by exists start, p|lia|exists t; split; [done|lia]|done|lia].
  all: intros wait info' (_ & _ & ->)%Hconv; exists info; do 3 f_equal; lia.
Qed.

(** *** Restarting *)

(** The patch that restarts an object at time [t]; none for a paused
    deployment and for the kinds that are not restarted. *)
Definition restart_patch (obj : Object) (t : Z) : option RestartPatch :=
  match obj with
  | ODeployment d => if dep_paused d then None else Some (PatchRestartedAt (t / Second)%Z)
  | OStatefulSet _ | ODaemonSet _ | ODeploymentConfig _ => Some (PatchRestartedAt (t / Second)%Z)
  | OArgoRollout _ => Some (PatchRestartAt (t / Second)%Z)
  | _ => None
  end.

(** The object was patched, and [err] is the API server's answer; or it
    cannot be restarted, and that is the error. *)
Definition restarted (obj : Object) (t : Z) (c : Cluster) (err : option error) (c' : Cluster) : Prop :=
  match restart_patch obj t with
  | Some p => PatchWorkload c obj p = (err, c')
  | None => c' = c ∧ is_Some err
  end.

Lemma restart_run obj t s :
  exists err c, rolloutRestartWorkload obj t s = Done (err, mkSt c (st_limiter s) (st_ticks s))
  ∧ restarted obj t (st_cluster s) err c.
Proof.
  assert (Hw : forall p, exists err c, write (fun c => PatchWorkload c obj p) s = Done (err, mkSt c (st_limiter s) (st_ticks s))
    ∧ PatchWorkload (st_cluster s) obj p = (err, c)).
  { intros p. unfold write. eexists _, _. split; [done|]. by destruct (PatchWorkload _ _ _). }
  assert (Hr : forall e, exists err c, (mret (Some e) : M (option error)) s = Done (err, mkSt c (st_limiter s) (st_ticks s))
    ∧ c = st_cluster s ∧ is_Some err).
  { intros e. exists (Some e), (st_cluster s). split; [by destruct s|done]. }
  unfold rolloutRestartWorkload, restarted, restart_patch. destruct obj as [d|d|d|d|d|p|d|d|d]; auto.
  - destruct (dep_paused d); auto.
  - destruct (IsStaticPod p); auto.
Qed.

(** *** What a call of [Do] may change *)

Definition released (pw : PodWorkload) (r : Limiter) : Limiter :=
  (ReleaseWorkloadRolloutSlot (WorkloadKey pw) r).2.

(** What the conditions, the hash and the time of a config leave alone. *)
Definition core (i : InstrumentationConfig) : ObjectMeta * InstrumentationConfigSpec * bool :=
  (ic_meta i, ic_spec i, st_rollback_occurred (ic_status i)).

(** A rollback of [i] at time [now]: its agents are disabled, and if that is
    stored the workload is restarted and its slot given back. *)
Inductive rolled_back (pw : PodWorkload) (obj : Object) (info : podBackOffInfo) (now : Z) (i : InstrumentationConfig)
    (c : Cluster) (l : Limiter) : RolloutResult -> option error -> InstrumentationConfig -> Cluster -> Limiter -> Prop :=
| RollbackNotStored e c1 :
    UpdateIC c (disable_agents (bo_reason info) i) = (inl e, c1) ->
    rolled_back pw obj info now i c l rollout_nothing (K8SUpdateErrorHandler e).2 (disable_agents (bo_reason info) i) c1 l
| RollbackNotRestarted i1 c1 e c2 :
    UpdateIC c (disable_agents (bo_reason info) i) = (inr i1, c1) -> restarted obj now c1 (Some e) c2 ->
    rolled_back pw obj info now i c l rollout_nothing (Some e) (with_rollback i1 true) c2 (released pw l)
| RolledBack i1 c1 c2 i2 :
    UpdateIC c (disable_agents (bo_reason info) i) = (inr i1, c1) -> restarted obj now c1 None c2 ->
    core i2 = core (with_rollback i1 true) ->
    FindStatusCondition (st_conditions (ic_status i2)) AgentEnabledType
      = Some (newConditionAgentDisabledDueToBackoff (bo_reason info) (bo_message info)) ->
    rolled_back pw obj info now i c l (rollout_requeue true RequeueWaitingForWorkloadRollout) None i2 c2 (released pw l).

(** The effects of a call; [k] is the number of the next clock reading. *)
Inductive do_effect (pw : PodWorkload) (auto_off : bool) (options : RollBackOptions) (obj : Object)
    (ic : option InstrumentationConfig) (c : Cluster) (l : Limiter) (k : nat) :
    RolloutResult -> option error -> option InstrumentationConfig -> Cluster -> Limiter -> Prop :=
| EffQuiet r err ic' l' :  (* nothing is written to the cluster *)
    l' = l ∨ l' = released pw l -> core <$> ic' = core <$> ic ->
    do_effect pw auto_off options obj ic c l k r err ic' c l'
| EffUninstrument err c' :
    ic = None -> auto_off = false -> workloadHasOdigosAgents c obj = Done (inr true) ->
    workloadStillMarkedForInstrumentation c pw = inr false -> restarted obj (Clock k) c err c' ->
    do_effect pw auto_off options obj ic c l k rollout_nothing (err ≫= IgnoreNotFound) None c' (released pw l)
| EffRecover i i1 reply c1 r err ic' c' :  (* only the config is written *)
    ic = Some i -> recoverFromRollback i = Some i1 -> UpdateIC c i1 = (reply, c1) ->
    match reply with
    | inl _ => c' = c1 ∧ ic' = Some i1
    | inr i2 => exists reply', UpdateICStatus c1 (with_rollback i2 false) = (reply', c')
        ∧ ic' = Some (match reply' with inr i3 => i3 | inl _ => with_rollback i2 false end)
    end ->
    do_effect pw auto_off options obj ic c l k r err ic' c' l
| EffRollback i i0 info r err i' c' l' :
    ic = Some i -> auto_off = false -> spec_manifest_optional (ic_spec i) = false ->
    IsRollbackDisabled options = false -> recoverFromRollback i = None ->
    i0 = i ∨ i0 = with_instrumentation_time i (spec_hash_changed_time (ic_spec i)) ->
    rollback_due i0 obj options c k 0 info -> rolled_back pw obj info (Clock (S (S k))) i0 c l r err i' c' l' ->
    do_effect pw auto_off options obj ic c l k r err (Some i') c' l'
| EffRestart i n err i' c' :
    ic = Some i -> auto_off = false -> spec_manifest_optional (ic_spec i) = false ->
    recoverFromRollback i = None ->
    st_rollout_hash (ic_status i) <> spec_agents_meta_hash (ic_spec i) ->
    IsWorkloadRolloutDone obj = true ->
    (TryAcquire (WorkloadKey pw) (MaxConcurrentRollouts options) l).1 = true ->
    k <= n -> restarted obj (default (Clock n) (spec_hash_changed_time (ic_spec i))) c err c' ->
    core i' = core i -> st_rollout_hash (ic_status i') = spec_agents_meta_hash (ic_spec i) ->
    FindStatusCondition (st_conditions (ic_status i')) WorkloadRolloutStatusConditionType
      = Some (rolloutCondition err) ->
    do_effect pw auto_off options obj ic c l k (rollout_requeue true RequeueWaitingForWorkloadRollout) None
      (Some i') c' (TryAcquire (WorkloadKey pw) (MaxConcurrentRollouts options) l).2.

(** A step that returns, with this effect. *)
Definition has_effect (pw : PodWorkload) (auto_off : bool) (options : RollBackOptions) (obj : Object)
    (ic : option InstrumentationConfig) (s : St) (r : RolloutResult) (err : option error)
    (ic' : option InstrumentationConfig) (s' : St) : Prop :=
  do_effect pw auto_off options obj ic (st_cluster s) (st_limiter s) (st_ticks s) r err ic' (st_cluster s') (st_limiter s').

Lemma core_spec i i' : core i = core i' -> ic_spec i = ic_spec i'.
Proof. by intros [= _ -> _]. Qed.

Lemma set_rollout_spec i cond :
  core (set_rollout i cond).1 = core i
  ∧ st_rollout_hash (ic_status (set_rollout i cond).1) = st_rollout_hash (ic_status i)
  ∧ st_conditions (ic_status (set_rollout i cond).1) = set_cond (st_conditions (ic_status i)) cond.
Proof. unfold set_rollout, set_cond. by destruct (SetStatusCondition _ _). Qed.

Lemma set_rollout_let i cond {A} (f : InstrumentationConfig -> bool -> A) :
  (let '(i', changed) := set_rollout i cond in f i' changed) = f (set_rollout i cond).1 (set_rollout i cond).2.
Proof. by destruct (set_rollout i cond). Qed.

Lemma rollback_run i obj pw info s :
  wp (triggerRollback i obj (WorkloadKey pw) info) (fun o s' =>
    rolled_back pw obj info (Clock (st_ticks s)) i (st_cluster s) (st_limiter s) o.1.1 o.1.2 o.2 (st_cluster s') (st_limiter s')) s.
Proof.
  unfold triggerRollback. wp_step. wp_step. destruct reply as [e|i1].
  { wp_step. by apply RollbackNotStored. }
  wp_step. wp_step. wp_step. wp_step. wp_step.
  match goal with |- wp (rolloutRestartWorkload _ ?t) _ ?s0 => destruct (restart_run obj t s0) as (err & c2 & Hrun & Heff) end.
  cbn [st_cluster st_limiter st_ticks] in *. eexists _, _. split; [exact Hrun|]. destruct err as [e|]; wp_step.
  - by eapply RollbackNotRestarted.
  - set (i2 := (set_rollout (with_rollback i1 true) _).1).
    destruct (set_rollout_spec (with_rollback i1 true) (newConditionTriggeredWithMessage (bo_message info)))
      as (Hs2 & _ & Hc2). fold i2 in Hs2, Hc2.
    destruct (set_rollout_spec i2 (newConditionAgentDisabledDueToBackoff (bo_reason info) (bo_message info)))
      as (Hs3 & _ & Hc3).
    eapply RolledBack; [done|done| |]; cbn [fst snd].
    + by rewrite Hs3, Hs2.
    + rewrite Hc3, find_set. by rewrite decide_True.
Qed.

(** Performing a rollout: a restart, and the hash recorded. *)
Lemma perform_run i obj s :
  wp (perform_rollout i obj) (fun o s' =>
    st_limiter s' = st_limiter s
    ∧ exists err, restarted obj (default (Clock (st_ticks s)) (spec_hash_changed_time (ic_spec i)))
        (st_cluster s) err (st_cluster s')
      ∧ o.1 = (rollout_requeue true RequeueWaitingForWorkloadRollout, None)
      ∧ core o.2 = core i
      ∧ st_rollout_hash (ic_status o.2) = spec_agents_meta_hash (ic_spec i)
      ∧ FindStatusCondition (st_conditions (ic_status o.2)) WorkloadRolloutStatusConditionType
        = Some (rolloutCondition err)) s.
Proof.
  unfold perform_rollout. wp_step.
  assert (Hrest : forall t s2 (k : option error -> M Outcome) (Q : Outcome -> St -> Prop),
    st_cluster s2 = st_cluster s -> st_limiter s2 = st_limiter s ->
    (forall err s3, st_limiter s3 = st_limiter s -> restarted obj t (st_cluster s) err (st_cluster s3) -> wp (k err) Q s3) ->
    wp (rolloutRestartWorkload obj t ≫= k) Q s2).
  { intros t s2 k Q Hc2 Hl2 Hk. wp_step. destruct (restart_run obj t s2) as (err & c' & Hrun & Heff).
    eexists _, _. split; [exact Hrun|]. rewrite Hc2 in Heff. by apply Hk. }
  destruct (spec_hash_changed_time (ic_spec i)) as [t|] eqn:Ht; wp_step; (apply Hrest; [done|done|]);
    intros err s3 Hl3 Hr3; cbn [ic_spec with_rollout_hash with_status]; wp_step;
    destruct (spec_injection_enabled (ic_spec i)); repeat wp_step; cbv zeta;
    (split; [done|]); exists err; (split; [done|]); (split; [done|]); cbn [snd];
    (match goal with |- context [set_rollout ?x ?c] => destruct (set_rollout_spec x c) as (-> & -> & ->) end);
    rewrite find_set;
    (split; [done|]); (split; [done|]); (rewrite decide_True; [done|]); by destruct err.
Qed.

(** A step has this effect on the config [i]. *)
Definition config_effect (pw : PodWorkload) (auto_off : bool) (options : RollBackOptions) (obj : Object)
    (i : InstrumentationConfig) (s : St) (o : Outcome) (s' : St) : Prop :=
  has_effect pw auto_off options obj (Some i) s o.1.1 o.1.2 (Some o.2) s'.

Section Cases.
Context (pw : PodWorkload) (options : RollBackOptions) (obj : Object) (i : InstrumentationConfig)
  (Hsel : has_selector obj) (Hopt : spec_manifest_optional (ic_spec i) = false)
  (Hrec : recoverFromRollback i = None).

Lemma quiet_effect auto_off s s' r err i' :
  st_cluster s' = st_cluster s ->
  st_limiter s' = st_limiter s ∨ st_limiter s' = released pw (st_limiter s) ->
  core i' = core i -> config_effect pw auto_off options obj i s (r, err, i') s'.
Proof. intros Hc Hl Hs. unfold config_effect, has_effect. rewrite Hc. apply EffQuiet; [done|]. simpl. by rewrite Hs. Qed.

Lemma check_rollback_effect i0 k s :
  IsRollbackDisabled options = false ->
  i0 = i ∨ i0 = with_instrumentation_time i (spec_hash_changed_time (ic_spec i)) ->
  (forall s1, st_cluster s1 = st_cluster s -> st_limiter s1 = st_limiter s -> st_ticks s <= st_ticks s1 ->
     wp k (config_effect pw false options obj i s) s1) ->
  wp (check_rollback i0 obj options (WorkloadKey pw) k) (config_effect pw false options obj i s) s.
Proof.
  intros Hen Hi0 Hk. assert (Hcore : core i0 = core i) by (by destruct Hi0; subst). pose proof (core_spec _ _ Hcore) as Hspec.
  unfold check_rollback. wp_step. destruct (should_rollback_run i0 obj options s Hsel) as (r & n & Hrun & Hn & Hdue & _).
  eexists _, _. split; [exact Hrun|]. destruct r as [e|[[should wait] info]].
  { wp_step. apply quiet_effect; simpl; auto. }
  destruct should; [|rewrite andb_false_r; by apply Hk]. destruct (Hdue _ _ eq_refl) as [Hd ->]. rewrite andb_true_r.
  case_bool_decide as Hwait.
  { wp_step. apply quiet_effect; simpl; auto. }
  assert (wait = 0%Z) as -> by (rewrite (rd_wait _ _ _ _ _ _ _ Hd) in *; lia).
  eapply wp_mono; [apply rollback_run|]. intros [[r err] i'] s' Hback. unfold config_effect, has_effect.
  by eapply EffRollback.
Qed.

Lemma start_rollout_effect i0 s s1 :
  st_cluster s1 = st_cluster s -> st_limiter s1 = st_limiter s -> st_ticks s <= st_ticks s1 ->
  i0 = i ∨ i0 = with_instrumentation_time i (spec_hash_changed_time (ic_spec i)) ->
  st_rollout_hash (ic_status i) <> spec_agents_meta_hash (ic_spec i) ->
  wp (start_rollout i0 obj options (WorkloadKey pw)) (config_effect pw false options obj i s) s1.
Proof.
  intros Hc Hl Hn Hi0 Hdiff. assert (Hcore : core i0 = core i) by (by destruct Hi0; subst). pose proof (core_spec _ _ Hcore) as Hspec.
  unfold start_rollout. destruct (IsWorkloadRolloutDone obj) eqn:Hdone; cbn [negb].
  2: { rewrite set_rollout_let. wp_step. apply quiet_effect; [done|by left|].
       by rewrite (proj1 (set_rollout_spec _ _)). }
  wp_step. wp_step. destruct (TryAcquire _ _ (st_limiter s1)) as [acquired l1] eqn:Hacq. cbn [fst snd].
  destruct acquired; cbn [negb].
  2: { rewrite set_rollout_let. wp_step. apply quiet_effect; [done| |by rewrite (proj1 (set_rollout_spec _ _))].
       left. cbn [st_limiter]. rewrite <-Hl. by apply (try_acquire_refused (WorkloadKey pw) (MaxConcurrentRollouts options)). }
  eapply wp_mono; [apply perform_run|]. intros [[r err0] i'] s' (Hl' & err & Heff & E & Hs & Hh & Hcond).
  cbn [fst snd st_cluster st_limiter] in *. injection E as -> ->. unfold config_effect, has_effect. cbn [fst snd].
  rewrite Hc, Hspec in Heff. rewrite Hcore in Hs. rewrite Hspec in Hh. rewrite Hl in Hacq.
  assert (st_limiter s' = (TryAcquire (WorkloadKey pw) (MaxConcurrentRollouts options) (st_limiter s)).2)
    as -> by by rewrite Hl', Hacq.
  eapply (EffRestart _ _ _ _ _ _ _ _ i (st_ticks s1)); try done. by rewrite Hacq.
Qed.

Lemma different_hash_effect s :
  st_rollout_hash (ic_status i) <> spec_agents_meta_hash (ic_spec i) ->
  wp (different_hash i obj options (WorkloadKey pw)) (config_effect pw false options obj i s) s.
Proof.
  intros Hdiff. unfold different_hash. cbv zeta.
  destruct (IsRollbackDisabled options) eqn:Hd; cbn [negb andb];
    rewrite ?andb_false_r; [by apply start_rollout_effect; auto|].
  case_match; [apply check_rollback_effect; [done|by right|]|
    case_match; [apply check_rollback_effect; [done|by left|]|by apply start_rollout_effect; auto]].
  - intros s1 Hc Hl Hn. apply start_rollout_effect; auto.
  - intros s1 Hc Hl Hn. apply start_rollout_effect; auto.
Qed.

Lemma same_hash_effect s :
  wp (same_hash i obj options (WorkloadKey pw)) (config_effect pw false options obj i s) s.
Proof.
  unfold same_hash. destruct (IsWorkloadRolloutDone obj); cbn [negb andb].
  - rewrite set_rollout_let. repeat wp_step. apply quiet_effect; [done|by right|].
    by rewrite (proj1 (set_rollout_spec _ _)).
  - destruct (IsRollbackDisabled options) eqn:Hd; cbn [negb].
    + wp_step. apply quiet_effect; [done|by left|done].
    + apply check_rollback_effect; [done|by left|]. intros s1 Hc Hl _. wp_step. apply quiet_effect; auto.
Qed.
End Cases.

Lemma uninstrument_effect pw options obj auto_off s :
  has_selector obj ->
  wp (uninstrument obj pw auto_off) (fun o s' => has_effect pw auto_off options obj None s o.1 o.2 None s') s.
Proof.
  intros Hsel. unfold uninstrument.
  destruct (list_selected_total (st_cluster s) obj OpExists "instrumentedPodsSelector"
    "workloadHasOdigosAgents: invalid selector" "workloadHasOdigosAgents: listing pods failed" Hsel) as [l Hl].
  assert (exists r, workloadHasOdigosAgents (st_cluster s) obj = Done r) as [r Hr].
  { unfold workloadHasOdigosAgents, instrumentedPodsSelector. rewrite Hl. simpl. destruct l; by eexists. }
  assert (Hquiet : forall r err, has_effect pw auto_off options obj None s r err None s).
  { intros r' err. apply EffQuiet; auto. }
  do 3 wp_step. eapply wp_lift; [exact Hr|]. destruct r as [e|[]]; [by wp_step| |by wp_step].
  do 2 wp_step. destruct (workloadStillMarkedForInstrumentation (st_cluster s) pw) as [e|[]] eqn:Hm;
    [by wp_step|by wp_step|]. destruct auto_off eqn:Ha; [by wp_step|]. do 5 wp_step.
  match goal with |- wp (rolloutRestartWorkload _ ?t) _ ?s0 => destruct (restart_run obj t s0) as (err & c2 & Hrun & Heff) end.
  eexists _, _. split; [exact Hrun|]. wp_step. unfold has_effect. cbn [fst snd st_cluster st_limiter].
  by apply EffUninstrument.
Qed.

Lemma recovery_effect pw options obj auto_off i i1 s :
  recoverFromRollback i = Some i1 ->
  wp (persist_recovery i1) (config_effect pw auto_off options obj i s) s.
Proof.
  intros Hrec. unfold persist_recovery, config_effect, has_effect. wp_step. wp_step. destruct reply as [e|i2].
  { destruct (K8SUpdateErrorHandler e). wp_step. by eapply EffRecover; [..|exact Hreply|]. }
  wp_step. wp_step. destruct reply as [e|i3].
  - destruct (K8SUpdateErrorHandler e). wp_step. eapply EffRecover; [done..|exact Hreply|]. by eexists.
  - wp_step. eapply EffRecover; [done..|exact Hreply|]. by eexists.
Qed.

Lemma roll_effect pw options obj auto_off i s :
  has_selector obj -> wp (roll i obj pw auto_off options) (config_effect pw auto_off options obj i s) s.
Proof.
  intros Hsel. unfold roll. destruct (recoverFromRollback i) as [i1|] eqn:Hrec; [by apply recovery_effect|].
  destruct (spec_manifest_optional (ic_spec i)) eqn:Hopt.
  { rewrite set_rollout_let. do 3 wp_step. apply quiet_effect; [done|by right|].
    by rewrite (proj1 (set_rollout_spec _ _)). }
  destruct auto_off.
  { rewrite set_rollout_let. do 3 wp_step. apply quiet_effect; [done|by right|].
    by rewrite (proj1 (set_rollout_spec _ _)). }
  case_bool_decide; [by apply same_hash_effect|by apply different_hash_effect].
Qed.

Definition rollout_object (c : Cluster) (pw : PodWorkload) : error + Object :=
  GetObject c (ClientObjectFromWorkloadKind (pw_kind pw)) (pw_namespace pw) (pw_name pw).

(** Kinds that are never restarted. *)
Definition never_restarted (kind : string) : Prop :=
  kind = WorkloadKindStaticPod ∨ kind = WorkloadKindCronJob ∨ kind = WorkloadKindJob.

(** What a call of [Do] amounts to. *)
Definition do_spec (ic : option InstrumentationConfig) (pw : PodWorkload) (conf : OdigosConfiguration) (s : St)
    (o : RolloutResult * option error * option InstrumentationConfig) (s' : St) : Prop :=
  match getRolloutAndRollbackOptions conf, rollout_object (st_cluster s) pw with
  | inl err, _ => o = (rollout_nothing, Some err, ic) ∧ s' = s
  | inr _, inl err => o = (rollout_nothing, IgnoreNotFound err, ic) ∧ s' = s
  | inr (auto_off, options), inr obj =>
      has_effect pw auto_off options obj ic s o.1.1 o.1.2 o.2 s'
      ∧ (never_restarted (pw_kind pw) -> s' = s ∧ o.1.2 = None)
  end.

Lemma no_restart_run ic cond s :
  wp (no_restart ic cond) (fun o s' => s' = s ∧ o.1.2 = None ∧ core <$> o.2 = core <$> ic) s.
Proof.
  unfold no_restart. destruct ic as [i|]; [|by wp_step]. rewrite set_rollout_let. wp_step.
  split; [done|]. split; [done|]. simpl. by rewrite (proj1 (set_rollout_spec _ _)).
Qed.

Lemma do_run ic pw conf s :
  selector_present (st_cluster s) pw ->
  wp (Do ic pw conf) (do_spec ic pw conf s) s.
Proof.
  intros Hsel. unfold Do, do_spec.
  destruct (getRolloutAndRollbackOptions conf) as [e|[auto_off options]]; [by wp_step|].
  wp_step. wp_step. fold (rollout_object (st_cluster s) pw).
  destruct (rollout_object (st_cluster s) pw) as [e|obj] eqn:Hobj; [by wp_step|].
  assert (has_selector obj) as Ho by (by apply Hsel). clear Hsel. rename Ho into Hsel.
  assert (Hno : forall cond, wp (no_restart ic cond) (fun o s' =>
      has_effect pw auto_off options obj ic s o.1.1 o.1.2 o.2 s'
      ∧ (never_restarted (pw_kind pw) -> s' = s ∧ o.1.2 = None)) s).
  { intros cond. eapply wp_mono; [apply no_restart_run|]. intros o s' (-> & He & Hs). split; [|done].
    apply EffQuiet; auto. }
  case_decide as Hk; [apply Hno|]. case_match eqn:Hj; [apply Hno|].
  assert (~ never_restarted (pw_kind pw)) as Hnr.
  { unfold never_restarted. apply orb_false_iff in Hj as [Hn1 Hn2]. rewrite bool_decide_eq_false in Hn1, Hn2. tauto. }
  destruct ic as [i|]; wp_step.
  - eapply wp_mono; [by apply (roll_effect pw options obj auto_off)|]. intros [[r err] i'] s' He. wp_step. done.
  - eapply wp_mono; [by apply (uninstrument_effect pw options)|]. intros [r err] s' He. wp_step. done.
Qed.
End RolloutFacts.
