(* ===== verification/RolloutProperties.v ===== *)
(** * Properties of the rollout

    When a workload is restarted or rolled back, and when it is not. *)

From S2P Require Import Prelude.
From S2P Require Import GoStrings.
From S2P Require Import K8s.
From S2P Require Import Status.
From S2P Require Import Workload.
From S2P Require Import Api.
From S2P Require Import GoLib.
From S2P Require Import Objects.
From S2P Require Import Client.
From S2P Require Import Source.
From S2P Require Import Backoff.
From S2P Require Import Limiter.
From S2P Require Import RolloutStatus.
From S2P Require Import Rollout.
From S2P Require Import RolloutEffects.
From S2P Require Import Samples.
From S2P Require Import Store.

Section RolloutProperties.
Context `{Client} `{StatusConditionsLaws} `{GoMapOrder} `{GoLibrary}.

(** C3: unless the workload is an Argo rollout without a selector (which
    panics, [argo_without_selector_panics]), a call of [Do] returns and what
    it writes is justified, at the times that the call reads from the clock.
    With an invalid configuration or without the workload it
    changes nothing; static pods and jobs are never restarted; otherwise it
    writes nothing to the cluster, or it does exactly one of: remove the
    agents of a workload whose config is gone, that runs agents and is not
    marked; persist a pending recovery; roll back, when an instrumented pod
    has been in back-off for the grace time within the stability window; or
    restart the workload, when the hashes differ, the previous rollout is
    done and the limiter grants a slot.  A restart is one patch of the
    workload that carries its time; only a paused deployment and a kind that
    cannot be restarted are reported instead ([restarted]). *)
Theorem rollout_only_when_due (ic : option InstrumentationConfig) (pw : PodWorkload)
    (conf : OdigosConfiguration) (s : St) :
  selector_present (st_cluster s) pw ->
  exists o s', Do ic pw conf s = Done (o, s') ∧ do_spec ic pw conf s o s'.
Proof. apply do_run. Qed.

(** With automatic rollout disabled nothing is ever restarted or rolled
    back: the cluster is only written to persist a pending recovery. *)
Theorem disabled_rollout_never_restarts (ic : option InstrumentationConfig) (pw : PodWorkload)
    (conf : OdigosConfiguration) (options : RollBackOptions) (s s' : St)
    (o : RolloutResult * option error * option InstrumentationConfig) :
  selector_present (st_cluster s) pw ->
  getRolloutAndRollbackOptions conf = inr (true, options) ->
  Do ic pw conf s = Done (o, s') ->
  st_cluster s' = st_cluster s
  ∨ exists i i1, ic = Some i ∧ recoverFromRollback i = Some i1 ∧ st_rollback_occurred (ic_status i) = true.
Proof.
  intros Hsel Hopt Hrun. pose proof (wp_run _ _ _ _ _ (do_run ic pw conf s Hsel) Hrun) as Hspec.
  unfold do_spec in Hspec. rewrite Hopt in Hspec. destruct (rollout_object (st_cluster s) pw) as [e|obj].
  { left. by destruct Hspec as [_ ->]. }
  destruct Hspec as [Heff _]. unfold has_effect in Heff.
  inversion Heff as [| |i i1| |]; subst; try done; [by left|]. right. exists i, i1. split_and!; [done|done|].
  match goal with E : recoverFromRollback _ = _ |- _ => revert E end. unfold recoverFromRollback.
  by destruct (st_rollback_occurred (ic_status i)).
Qed.

(** C26: for a workload with a selector the rollback decision returns, and
    it is for a rollback exactly when one is due at the times it reads from
    the clock: an instrumented pod is in back-off, the agents are on and were
    rolled out within the stability window.  It then waits for the rest of
    the grace time, counted from the start of the earliest such pod, and no
    longer. *)
Theorem rollback_decision (ic : InstrumentationConfig) (obj : Object) (options : RollBackOptions) (s : St) :
  has_selector obj ->
  exists r s', shouldTriggerRollback ic obj options s = Done (r, s')
  ∧ st_cluster s' = st_cluster s ∧ st_limiter s' = st_limiter s
  ∧ (forall wait info, r = inr (true, wait, info) ->
      rollback_due ic obj options (st_cluster s) (st_ticks s) wait info
      ∧ (wait = 0 <-> RollbackGraceTime options <= bo_duration info)%Z
      ∧ (0 < RollbackGraceTime options -> 0 <= wait < RollbackGraceTime options)%Z)
  ∧ (forall wait info, rollback_due ic obj options (st_cluster s) (st_ticks s) wait info ->
      exists info', r = inr (true, wait, info')).
Proof.
  intros Hsel. destruct (should_rollback_run ic obj options s Hsel) as (r & n & Hrun & _ & Hdue & Hconv).
  eexists _, _. split; [exact Hrun|]. split_and!; [done|done| |exact Hconv]. intros wait info E.
  destruct (Hdue _ _ E) as [Hd _]. split; [done|].
  rewrite (rd_wait _ _ _ _ _ _ _ Hd). pose proof (rd_positive _ _ _ _ _ _ _ Hd). lia.
Qed.

Lemma start_rollout_fires i obj options key s :
  IsWorkloadRolloutDone obj = true ->
  (TryAcquire key (MaxConcurrentRollouts options) (st_limiter s)).1 = true ->
  wp (start_rollout i obj options key) (fun o s' =>
    st_limiter s' = (TryAcquire key (MaxConcurrentRollouts options) (st_limiter s)).2
    ∧ exists err, restarted obj (default (Clock (st_ticks s)) (spec_hash_changed_time (ic_spec i)))
        (st_cluster s) err (st_cluster s')
      ∧ o.1 = (rollout_requeue true RequeueWaitingForWorkloadRollout, None)
      ∧ st_rollout_hash (ic_status o.2) = spec_agents_meta_hash (ic_spec i)
      ∧ FindStatusCondition (st_conditions (ic_status o.2)) WorkloadRolloutStatusConditionType
        = Some (rolloutCondition err)) s.
Proof.
  intros Hdone Hacq. unfold start_rollout. rewrite Hdone. cbn [negb]. wp_step. wp_step.
  destruct (TryAcquire key _ (st_limiter s)) as [b l1]. cbn [fst snd] in *. subst b. cbn [negb].
  eapply wp_mono; [apply perform_run|]. intros o s' (Hl & err & Hr & Ho & _ & Hh & Hc). eauto 8.
Qed.

(** C36: a restart that is due happens: when the hashes differ, no rollback is
    possible (it is disabled, or the agents are off), the workload can be
    restarted, its previous rollout is done and a slot is granted, then the
    workload is patched, once, with the time at which the hash changed (now,
    when that is not known); the slot is kept, the new hash is recorded, the
    condition tells the API server's answer and the workload is looked at
    again in ten seconds. *)
Theorem due_rollout_happens (i : InstrumentationConfig) (pw : PodWorkload) (conf : OdigosConfiguration)
    (options : RollBackOptions) (obj : Object) (patch : RestartPatch) (s : St) :
  getRolloutAndRollbackOptions conf = inr (false, options) ->
  rollout_object (st_cluster s) pw = inr obj ->
  ~ never_restarted (pw_kind pw) -> recoverFromRollback i = None ->
  spec_manifest_optional (ic_spec i) = false ->
  st_rollout_hash (ic_status i) <> spec_agents_meta_hash (ic_spec i) ->
  IsRollbackDisabled options = true ∨ spec_injection_enabled (ic_spec i) = false ->
  restart_patch obj (default (Clock (st_ticks s)) (spec_hash_changed_time (ic_spec i))) = Some patch ->
  IsWorkloadRolloutDone obj = true ->
  (TryAcquire (WorkloadKey pw) (MaxConcurrentRollouts options) (st_limiter s)).1 = true ->
  exists i' s',
    Do (Some i) pw conf s = Done ((rollout_requeue true RequeueWaitingForWorkloadRollout, None, Some i'), s')
    ∧ st_cluster s' = (PatchWorkload (st_cluster s) obj patch).2
    ∧ st_limiter s' = (TryAcquire (WorkloadKey pw) (MaxConcurrentRollouts options) (st_limiter s)).2
    ∧ st_rollout_hash (ic_status i') = spec_agents_meta_hash (ic_spec i)
    ∧ FindStatusCondition (st_conditions (ic_status i')) WorkloadRolloutStatusConditionType
      = Some (rolloutCondition (PatchWorkload (st_cluster s) obj patch).1).
Proof.
  intros Hconf Hobj Hkind Hrec Hopt Hdiff Hnoroll Hpatch Hdone Hacq.
  assert (wp (Do (Some i) pw conf) (fun o s' => exists i',
      o = (rollout_requeue true RequeueWaitingForWorkloadRollout, None, Some i')
      ∧ st_cluster s' = (PatchWorkload (st_cluster s) obj patch).2
      ∧ st_limiter s' = (TryAcquire (WorkloadKey pw) (MaxConcurrentRollouts options) (st_limiter s)).2
      ∧ st_rollout_hash (ic_status i') = spec_agents_meta_hash (ic_spec i)
      ∧ FindStatusCondition (st_conditions (ic_status i')) WorkloadRolloutStatusConditionType
        = Some (rolloutCondition (PatchWorkload (st_cluster s) obj patch).1)) s) as (o & s' & Hrun & i' & -> & Hpost).
  { unfold Do. rewrite Hconf. wp_step. wp_step. fold (rollout_object (st_cluster s) pw). rewrite Hobj.
    unfold never_restarted in Hkind. rewrite decide_False by tauto.
    rewrite !bool_decide_eq_false_2 by tauto. cbn [orb]. wp_step.
    unfold roll. rewrite Hrec, Hopt. rewrite bool_decide_eq_false_2 by done.
    assert (different_hash i obj options (WorkloadKey pw) = start_rollout i obj options (WorkloadKey pw)) as ->.
    { unfold different_hash. destruct Hnoroll as [-> | ->]; rewrite ?andb_false_r; done. }
    eapply wp_mono; [by apply start_rollout_fires|]. intros [r1 i'] s' (Hl & err & Hr & Ho & Hh & Hc). simpl in Ho. subst r1.
    unfold restarted in Hr. rewrite Hpatch in Hr. wp_step. exists i'. rewrite Hr. by split_and!. }
  by exists i', s'.
Qed.

(** An Argo rollout without a selector, as one that refers to a deployment
    may be: the selector is dereferenced without a check. *)
Lemma argo_without_selector_panics (pw : PodWorkload) (conf : OdigosConfiguration) (options : bool * RollBackOptions)
    (r : ArgoRollout) (s : St) :
  getRolloutAndRollbackOptions conf = inr options -> ~ never_restarted (pw_kind pw) ->
  rollout_object (st_cluster s) pw = inr (OArgoRollout r) -> ar_selector r = None ->
  Do None pw conf s = Panic.
Proof.
  intros Hconf Hkind Hobj Hsel. unfold Do. rewrite Hconf. destruct options as [auto_off options].
  unfold mbind, M_bind, read. cbn [go_bind fst snd].
  change (GetObject _ _ _ _) with (rollout_object (st_cluster s) pw). rewrite Hobj.
  unfold never_restarted in Hkind. rewrite decide_False by tauto. rewrite !bool_decide_eq_false_2 by tauto. cbn [orb].
  unfold uninstrument, mbind, M_bind, read, lift, workloadHasOdigosAgents, list_selected, instrumentedPodsSelector,
    agents_selector, workloadLabelSelector. cbn [go_bind fst snd]. by rewrite Hsel.
Qed.

Lemma same_annotation i i' k : same_meta (ic_meta i) (ic_meta i') -> annotation i' k = annotation i k.
Proof. intros (_ & _ & _ & Ha & _). unfold annotation. by rewrite Ha. Qed.

(** A recovery is processed once: when both writes succeed the caller is
    asked to run again on a stored config whose flag is cleared, and no
    recovery is pending for the same request, even if the workload is rolled
    back once more. *)
Theorem recovery_processed_once (i i1 i2 i3 : InstrumentationConfig) (s : St) (c1 c2 : Cluster) :
  ClientLaws _ -> recoverFromRollback i = Some i1 ->
  UpdateIC (st_cluster s) i1 = (inr i2, c1) -> UpdateICStatus c1 (with_rollback i2 false) = (inr i3, c2) ->
  persist_recovery i1 s
    = Done ((mkRolloutResult false requeue_now, None, i3), mkSt c2 (st_limiter s) (st_ticks s))
  ∧ stored c2 i3 ∧ st_rollback_occurred (ic_status i3) = false
  ∧ forall b, recoverFromRollback (with_rollback i3 b) = None.
Proof.
  intros Hlaws Hrec Hu1 Hu2.
  destruct (update_ok _ _ _ _ Hu1) as (_ & _ & Hm1 & _ & _ & Hst1 & _).
  destruct (update_status_ok _ _ _ _ Hu2) as (old & Hold & Hm2 & _ & Hs2 & Hst2 & _).
  unfold stored in Hst1. change (ic_namespace (with_rollback i2 false)) with (ic_namespace i2) in Hold.
  change (ic_name (with_rollback i2 false)) with (ic_name i2) in Hold. rewrite Hst1 in Hold. injection Hold as <-.
  split; [|split; [done|split; [by rewrite Hs2|]]].
  - unfold persist_recovery, mbind, M_bind, write. cbn [go_bind fst snd st_cluster st_limiter st_ticks].
    rewrite Hu1. cbn [go_bind fst snd st_cluster st_limiter st_ticks]. by rewrite Hu2.
  - intros b. unfold recoverFromRollback.
    change (annotation (with_rollback i3 b)) with (annotation i3).
    rewrite !(same_annotation i2 i3 _ Hm2), !(same_annotation i1 i2 _ Hm1).
    assert (annotation i1 RollbackRecoveryProcessedAtAnnotation = annotation i1 RollbackRecoveryAtAnnotation) as ->.
    { revert Hrec. unfold recoverFromRollback. repeat case_match; try done. intros [= <-].
      unfold annotation, with_annotation, map_get. simpl. rewrite lookup_insert_eq, lookup_insert_ne by done. done. }
    rewrite (bool_decide_eq_true_2 (annotation i1 _ = annotation i1 _)) by done. by case_match.
Qed.

(** A deleted workload keeps its slot: when the workload is gone, [Do]
    (with or without a config) returns before any release, so a slot that the
    workload holds stays taken; with a limit of one, no other workload is
    ever granted a slot from then on. *)
Theorem deleted_workload_keeps_slot (ic : option InstrumentationConfig) (pw other : PodWorkload)
    (conf : OdigosConfiguration) (auto_off : bool) (options : RollBackOptions) (s : St) (e : error) :
  getRolloutAndRollbackOptions conf = inr (auto_off, options) ->
  rollout_object (st_cluster s) pw = inl e -> IsNotFound e = true ->
  MaxConcurrentRollouts options = 1%Z -> st_limiter s = Some {[ WorkloadKey pw ]} ->
  WorkloadKey other <> WorkloadKey pw ->
  Do ic pw conf s = Done ((rollout_nothing, None, ic), s)
  ∧ TryAcquire (WorkloadKey other) (MaxConcurrentRollouts options) (st_limiter s) = (false, st_limiter s).
Proof.
  intros Hconf Hobj He Hmax Hl Hne. split.
  - unfold Do. rewrite Hconf. unfold mbind, M_bind, read. cbn [go_bind fst snd].
    change (GetObject _ _ _ _) with (rollout_object (st_cluster s) pw). rewrite Hobj.
    unfold IgnoreNotFound. by rewrite He.
  - rewrite Hmax, Hl. unfold TryAcquire, NoConcurrencyLimiting. rewrite decide_False by done.
    rewrite decide_False by set_solver. rewrite size_singleton. by rewrite decide_False by lia.
Qed.
End RolloutProperties.

(** ** Witnesses *)

Section RolloutWitnesses.
#[local] Existing Instances sample_library order_forward order_forward_laws.

Definition rollout_conf (auto_off : bool) (max : Z) : OdigosConfiguration :=
  mkConf [] None None (Some (mkRolloutConf (Some auto_off) max)) None "" "" None "" None no_webhook_conf.
Definition options_of (max : Z) : RollBackOptions := mkRollBackOptions false (5 * Minute) Hour max.

Lemma sample_has_selector : selector_present (st_cluster sample_state) sample_pw.
Proof. intros obj [= <-] r. done. Qed.

(** A config whose agents changed since the last restart. *)
Definition changed_ic : InstrumentationConfig :=
  let ic := sample_ic [] ["cart"] in with_spec ic (with_meta_hash (ic_spec ic) "0123" None).

Lemma rollout_only_when_due_witness : exists o s',
  Do (Some changed_ic) sample_pw sample_conf sample_state = Done (o, s')
  ∧ do_spec (Some changed_ic) sample_pw sample_conf sample_state o s'.
Proof. exact (rollout_only_when_due (Some changed_ic) sample_pw sample_conf sample_state sample_has_selector). Defined.

Lemma sample_disabled_run : exists o s',
  Do (Some changed_ic) sample_pw (rollout_conf true 0) sample_state = Done (o, s')
  ∧ o.1 = (rollout_changed true, None).
Proof. apply run_result. vm_compute. reflexivity. Qed.

Lemma disabled_rollout_never_restarts_witness : exists o s',
  Do (Some changed_ic) sample_pw (rollout_conf true 0) sample_state = Done (o, s')
  ∧ (st_cluster s' = sample_store
     ∨ exists i i1, Some changed_ic = Some i ∧ recoverFromRollback i = Some i1 ∧ st_rollback_occurred (ic_status i) = true).
Proof.
  destruct sample_disabled_run as (o & s' & E & _). exists o, s'. split; [exact E|].
  exact (disabled_rollout_never_restarts (Some changed_ic) sample_pw (rollout_conf true 0) (options_of 0)
    sample_state s' o sample_has_selector eq_refl E).
Defined.

(** A pod with the agents' label that crashes since ten minutes. *)
Definition crashing_pod : Pod :=
  mkPod (mkObjectMeta "" "cart-1" "shop" {[ "app" := "cart"; OdigosAgentsMetaHashLabel := "0123" ]} ∅ [] 1 None)
    "uid" "node" (mkPodSpec [] [] [] [] None) true PodRunning (Some (50 * Minute)%Z) []
    [mkContainerStatus "cart" (Some "CrashLoopBackOff") false None 3].
Definition crashing_state : @St store_client :=
  mkSt (mkStore (store_objects sample_store) [crashing_pod] (store_sources sample_store) ∅ ([], mkHeap ∅ ∅) ∅
          sample_conf []) (Some ∅) 0.
Definition crashing_ic : InstrumentationConfig :=
  let ic := with_instrumentation_time changed_ic (Some (49 * Minute)%Z) in
  with_spec ic (with_injection (ic_spec ic) true).

Lemma crashing_decision : exists r s',
  shouldTriggerRollback crashing_ic (ODeployment sample_deployment) (options_of 0) crashing_state = Done (r, s')
  ∧ exists info, r = inr (true, 0%Z, info).
Proof. apply run_result. vm_compute. eexists. reflexivity. Qed.

Lemma rollback_decision_witness : exists info s',
  shouldTriggerRollback crashing_ic (ODeployment sample_deployment) (options_of 0) crashing_state
    = Done (inr (true, 0%Z, info), s')
  ∧ rollback_due crashing_ic (ODeployment sample_deployment) (options_of 0) (st_cluster crashing_state) 0 0 info.
Proof.
  destruct crashing_decision as (r & s' & E & info & ->). exists info, s'. split; [exact E|].
  destruct (rollback_decision crashing_ic (ODeployment sample_deployment) (options_of 0) crashing_state
    ltac:(intros ?; discriminate)) as (r1 & s1 & E1 & _ & _ & Hdue & _).
  rewrite E in E1. injection E1 as <- _. exact (proj1 (Hdue _ _ eq_refl)).
Defined.

Lemma due_rollout_happens_witness : exists i' s',
  Do (Some changed_ic) sample_pw (rollout_conf false 3) sample_state
    = Done ((rollout_requeue true RequeueWaitingForWorkloadRollout, None, Some i'), s')
  ∧ st_rollout_hash (ic_status i') = "0123".
Proof.
  destruct (due_rollout_happens changed_ic sample_pw (rollout_conf false 3) (options_of 3)
    (ODeployment sample_deployment) (PatchRestartedAt 3600) sample_state) as (i' & s' & E & _ & _ & Hh & _); try reflexivity.
  - intros [E|[E|E]]; discriminate.
  - discriminate.
  - right. reflexivity.
  - exists i', s'. split; [exact E|exact Hh].
Defined.

Definition recovering_ic : InstrumentationConfig :=
  with_rollback (with_annotation (sample_ic [] ["cart"]) RollbackRecoveryAtAnnotation "2024-01-01") true.
Definition recovered_ic : InstrumentationConfig :=
  with_annotation recovering_ic RollbackRecoveryProcessedAtAnnotation "2024-01-01".
Definition recovering_store : Store := with_ic sample_store recovering_ic.

Lemma recovery_processed_once_witness : exists i2 i3 c1 c2,
  UpdateIC recovering_store recovered_ic = (inr i2, c1)
  ∧ UpdateICStatus c1 (with_rollback i2 false) = (inr i3, c2)
  ∧ st_rollback_occurred (ic_status i3) = false.
Proof.
  assert (H1 : exists i2 c1, UpdateIC recovering_store recovered_ic = (inr i2, c1)).
  { simpl. unfold store_update, store_get_ic. eexists _, _. reflexivity. }
  destruct H1 as (i2 & c1 & H1).
  destruct (update_ok (ClientLaws := store_laws) _ _ _ _ H1) as (_ & _ & _ & _ & _ & Hst & _).
  assert (H2 : exists i3 c2, UpdateICStatus c1 (with_rollback i2 false) = (inr i3, c2)).
  { simpl. unfold store_update_status.
    change (ic_namespace (with_rollback i2 false)) with (ic_namespace i2).
    change (ic_name (with_rollback i2 false)) with (ic_name i2).
    unfold stored in Hst. simpl in Hst. rewrite Hst. eexists _, _. reflexivity. }
  destruct H2 as (i3 & c2 & H2). exists i2, i3, c1, c2. split; [exact H1|]. split; [exact H2|].
  destruct (recovery_processed_once recovering_ic recovered_ic i2 i3 (@mkSt store_client recovering_store None 0) c1 c2 store_laws
    eq_refl H1 H2) as (_ & _ & Hroll & _). exact Hroll.
Defined.

Definition gone_pw : PodWorkload := mkPodWorkload "gone" "shop" WorkloadKindDeployment.

Lemma deleted_workload_keeps_slot_witness :
  let s := @mkSt store_client sample_store (Some {[ WorkloadKey gone_pw ]}) 0 in
  Do None gone_pw (rollout_conf false 1) s = Done ((rollout_nothing, None, None), s)
  ∧ TryAcquire (WorkloadKey sample_pw) 1 (st_limiter s) = (false, st_limiter s).
Proof.
  apply (deleted_workload_keeps_slot None gone_pw sample_pw (rollout_conf false 1) false (options_of 1)
    (@mkSt store_client sample_store (Some {[ WorkloadKey gone_pw ]}) 0) not_found); try reflexivity. discriminate.
Defined.
End RolloutWitnesses.
