(* ===== verification/AgentEnabled.v ===== *)
(** * Computing the spec of an InstrumentationConfig
    (instrumentor/controllers/agentenabled: resources.go, sync.go,
    rollout/hash.go)

    [updateInstrumentationConfigSpec] fetches what the decision needs, decides
    each container, and summarises the containers in the flags and the hash
    that the pods webhook and the rollout read. *)

From stdpp Require Import pretty.
From S2P Require Import Prelude.
From S2P Require Import GoStrings.
From S2P Require Import GoSort.
From S2P Require Import K8s.
From S2P Require Import Status.
From S2P Require Import Workload.
From S2P Require Import Api.
From S2P Require Import GoLib.
From S2P Require Import Scope.
From S2P Require Import Objects.
From S2P Require Import Client.
From S2P Require Import RuleMerge.
From S2P Require Import ActionConfig.
From S2P Require Import SamplingConfig.
From S2P Require Import DynamicConfig.
From S2P Require Import Distros.
From S2P Require Import ContainerAgent.
From S2P Require Import Backoff.

(** ** Relevant resources (resources.go) *)

Definition OdigosNodeCollectorCollectorGroupName := "odigos-data-collection".
Definition OdigosClusterCollectorCollectorGroupName := "odigos-gateway".

(** The zero value of a type: what a failed [Get] leaves. *)
Definition zero_meta : ObjectMeta := mkObjectMeta "" "" "" ∅ ∅ [] 0 None.
Definition zero_object (t : ObjectType) : Object :=
  match t with
  | TDeployment => ODeployment (mkDeployment zero_meta false None None [] 0 0 0 0 [])
  | TStatefulSet => OStatefulSet (mkStatefulSet zero_meta "" None None None [] 0 0 0 "" "")
  | TDaemonSet => ODaemonSet (mkDaemonSet zero_meta "" None [] 0 0 0 0 0)
  | TDeploymentConfig => ODeploymentConfig (mkDeploymentConfig zero_meta None [] 0 0 0 0 0)
  | TArgoRollout => OArgoRollout (mkArgoRollout zero_meta None [] "" "" 0)
  | TPod => OPod (mkPod zero_meta "" "" (mkPodSpec [] [] [] [] None) false "" None [] [])
  | TCronJob => OCronJob (mkCronJob zero_meta 0 [])
  | TJob => OJob (mkJob zero_meta)
  | TNamespace => ONamespace (mkNamespaceObj zero_meta)
  end.

Section Resources.
Context `{Client}.

(** A missing workload is the zero object; a nil object has no workload. *)
Definition get_workload (c : Cluster) (pw : PodWorkload) : error + WorkloadView :=
  let t := ClientObjectFromWorkloadKind (pw_kind pw) in
  match GetObject c t (pw_namespace pw) (pw_name pw), t with
  | inr obj, _ => ObjectToWorkload obj
  | inl err, t =>
      if IsNotFound err then
        match t with Some t => ObjectToWorkload (zero_object t) | None => inl (ENew "unknown kind") end
      else inl err
  end.

Definition getCollectorsGroup (c : Cluster) (name : string) : error + option CollectorsGroup :=
  match GetCollectorsGroup c GetCurrentNamespace name with
  | inl err => match IgnoreNotFound err with Some err => inl err | None => inr None end
  | inr cg => inr (Some cg)
  end.

Definition agent_level (action : Action) : bool :=
  negb (ac_disabled action)
  && (bool_decide (is_Some (ac_url_templatization action)) || bool_decide (is_Some (ac_span_renamer action))
      || bool_decide (is_Some (ac_db_query action)) || bool_decide (is_Some (ac_infer_db action))
      || bool_decide (is_Some (ac_pii action))).

Definition getAgentLevelRelatedActions (c : Cluster) : error + list Action :=
  match ListActions c GetCurrentNamespace with
  | inl err => inl err
  | inr l => inr (filter (fun a => agent_level a = true) l)
  end.

Definition relevant_rule (ir : InstrumentationRule) : bool :=
  negb (ir_disabled ir)
  && (bool_decide (is_Some (ir_otel_distros ir))
      || bool_decide (is_Some (ir_trace_config ir ≫= id))
      || bool_decide (is_Some (ir_payload_collection ir))
      || bool_decide (is_Some (ir_code_attributes ir))
      || bool_decide (is_Some (ir_headers_collection ir))
      || bool_decide (is_Some (ir_trace_verbosity ir))
      || bool_decide (is_Some (ir_custom_instrumentations ir))
      || bool_decide (is_Some (ir_ebpf_log_capture ir))
      || bool_decide (is_Some (ir_agent_diagnostics ir))
      || bool_decide (is_Some (ir_network_metrics ir))).

Definition getRelevantInstrumentationRules (c : Cluster) : error + list InstrumentationRule * Heap :=
  match ListRules c with
  | inl err => inl err
  | inr (l, h) => inr (filter (fun r => relevant_rule r = true) l, h)
  end.

Definition getAllSamplingRules (c : Cluster) : error + list Sampling := ListSamplings c GetCurrentNamespace.

Record Resources := mkResources
  { res_node : option CollectorsGroup;
    res_cluster : option CollectorsGroup;
    res_rules : list InstrumentationRule;
    res_heap : Heap;
    res_actions : list Action;
    res_samplings : list Sampling;
    res_workload : WorkloadView }.

Definition getRelevantResources (c : Cluster) (pw : PodWorkload) : error + Resources :=
  match get_workload c pw with inl err => inl err | inr workloadObj =>
  match getCollectorsGroup c OdigosNodeCollectorCollectorGroupName with inl err => inl err | inr node =>
  match getCollectorsGroup c OdigosClusterCollectorCollectorGroupName with inl err => inl err | inr cluster =>
  match getRelevantInstrumentationRules c with inl err => inl err | inr (irls, h) =>
  match getAgentLevelRelatedActions c with inl err => inl err | inr actions =>
  match getAllSamplingRules c with inl err => inl err | inr samplings =>
    inr (mkResources node cluster irls h actions samplings workloadObj)
  end end end end end end.

(** ** Workloads already in back-off *)

Record agentInjectedStatusCondition := mkInjected
  { inj_status : ConditionStatus; inj_reason : AgentEnabledReason; inj_message : string }.

Definition hasUninstrumentedPodsWithBackoff (c : Cluster) (pw : PodWorkload)
    : go (error + option agentInjectedStatusCondition) :=
  if bool_decide (pw_kind pw = WorkloadKindCronJob) || bool_decide (pw_kind pw = WorkloadKindJob)
  then Done (inr None)
  else
    match GetObject c (ClientObjectFromWorkloadKind (pw_kind pw)) (pw_namespace pw) (pw_name pw) with
    | inl _ => Done (inr None)
    | inr obj =>
        go_bind (WorkloadHasNonInstrumentedPodInBackoff c obj) (fun r =>
          match r with
          | inl err => Done (inl (EWrap "failed to check for pods in backoff" err))
          | inr true =>
              Done (inr (Some (mkInjected (r_status AgentEnabledCrashLoopBackOff) CrashLoopBackOff
                "Workload has pods in backoff state before instrumentation - cannot instrument crashlooping workload")))
          | inr false => Done (inr None)
          end)
    end.
End Resources.

(** ** The containers *)

(** rollout/hash.go: the entries are sorted in place by name; only the name,
    the decision and the distribution count. *)
Definition hash_fields (c : ContainerAgentConfig) : string * bool * string :=
  (cac_name c, cac_enabled c, cac_distro c).

Definition sort_containers `{GoSort} (l : list ContainerAgentConfig) : list ContainerAgentConfig :=
  SortFunc (compare_on cac_name string_compare) l.

Definition HashForContainersConfig `{GoSort} `{GoLibrary} (l : list ContainerAgentConfig)
    : string * list ContainerAgentConfig :=
  match l with
  | [] => ("", l)
  | _ => (agents_digest (hash_fields <$> sort_containers l), sort_containers l)
  end.

Definition containerConfigToStatusCondition (c : ContainerAgentConfig) : agentInjectedStatusCondition :=
  if cac_enabled c then
    mkInjected (r_status AgentEnabledEnabledSuccessfully) EnabledSuccessfully
      ("agent enabled for container " +:+ cac_name c)
  else mkInjected (reason_status ConditionFalse (cac_reason c)) (cac_reason c) (cac_message c).

(** The back-off reason to keep: from the condition, then from a container,
    then a default while rolled back. *)
Definition is_backoff_reason (r : string) : bool :=
  bool_decide (r = CrashLoopBackOff) || bool_decide (r = ImagePullBackOff).

Definition existing_backoff_reason (ic : InstrumentationConfig) : AgentEnabledReason :=
  match first_match (fun c => bool_decide (cond_type c = AgentEnabledType) && is_backoff_reason (cond_reason c))
                    (st_conditions (ic_status ic)) with
  | Some c => cond_reason c
  | None =>
      match first_match (fun c => is_backoff_reason (cac_reason c)) (spec_containers (ic_spec ic)) with
      | Some c => cac_reason c
      | None => if st_rollback_occurred (ic_status ic) then CrashLoopBackOff else ""
      end
  end.

Section Spec.
Context `{GoSort} `{GoMapOrder} `{GoLibrary} `{GoVersion}.

Definition rule_order : comparer InstrumentationRule :=
  compare_lex (compare_on ir_namespace string_compare) (compare_on ir_name string_compare).

Definition container_language (details : option RuntimeDetailsByContainer) : string :=
  match details with
  | Some d => if decide (rd_language d = "") then UnknownProgrammingLanguage else rd_language d
  | None => UnknownProgrammingLanguage
  end.

Definition rules_for_container (irls : list InstrumentationRule) (pw : PodWorkload) (language : string)
    : list InstrumentationRule :=
  SortFunc rule_order
    (filter (fun rule => SourceScopeMatchesContainer (ir_scopes rule) pw language = true) irls).

Definition with_signals (c : ContainerAgentConfig) (dyn : DynamicContainerConfigs) : ContainerAgentConfig :=
  mkContainerAgentConfig (cac_name c) (cac_enabled c) (cac_reason c) (cac_message c) (cac_manifest_optional c)
    (cac_distro c) (cac_params c) (cac_env_method c) (dyn_traces dyn) (dyn_metrics dyn) (dyn_logs dyn)
    (dyn_diagnostics dyn).

Definition name_collector (name : string) (c : ContainerCollectorConfig) : ContainerCollectorConfig :=
  mkCollectorConfig name (cc_tail_sampling c) (cc_url_templatization c) (cc_db_query c) (cc_infer_db c)
    (cc_pii c).

(** What the loop body adds for one container: its configuration, and its
    collector configuration if it has one. *)
Definition container_config (h : Heap) (conf : OdigosConfiguration) (provider : Provider) (res : Resources)
    (pw : PodWorkload) (ic : InstrumentationConfig) (containerName : string)
    (details : option RuntimeDetailsByContainer)
    : go (Heap * (ContainerAgentConfig * option ContainerCollectorConfig)) :=
  let rules := rules_for_container (res_rules res) pw (container_language details) in
  let distroPerLanguage := CalculateDefaultDistroPerLanguage (p_defaults provider) rules (p_getter provider) in
  let containerOverride := GetOverridesForContainer ic containerName in
  go_bind (ResolveDistroForContainer conf details distroPerLanguage (p_getter provider) containerOverride
             containerName) (fun r =>
    match r with
    | inl info => Done (h, (disabled_container containerName info, None))
    | inr d =>
        match GetEnabledSignalsForContainer (res_node res) rules with
        | (_, Some info) => Done (h, (disabled_container containerName info, None))
        | (enabledSignals, None) =>
            go_bind (CalculateDynamicContainerConfig h containerName rules conf details (res_actions res)
                       (res_samplings res) (Some (res_workload res)) pw d enabledSignals (res_node res)
                       (res_cluster res)) (fun '(h, dyn) =>
              match dyn with
              | inl info => Done (h, (disabled_container containerName info, None))
              | inr dyn =>
                  go_bind (go_deref details) (fun details =>
                    let agentConfig :=
                      calculateContainerAgentConfig containerName d conf details
                        (st_rollback_occurred (ic_status ic)) (existing_backoff_reason ic)
                        (resolveAllowConcurrentAgents conf containerOverride) in
                    if cac_enabled agentConfig then
                      Done (h, (with_signals agentConfig dyn, name_collector containerName <$> dyn_collector dyn))
                    else Done (h, (agentConfig, None)))
              end)
        end
    end).

(** [for containerName, containerRuntimeDetails := range runtimeDetailsByContainer]. *)
Fixpoint containers_loop (h : Heap) (conf : OdigosConfiguration) (provider : Provider) (res : Resources)
    (pw : PodWorkload) (ic : InstrumentationConfig) (l : list (string * option RuntimeDetailsByContainer))
    : go (list (ContainerAgentConfig * option ContainerCollectorConfig)) :=
  match l with
  | [] => Done []
  | (name, details) :: l =>
      go_bind (container_config h conf provider res pw ic name details) (fun '(h, r) =>
        go_bind (containers_loop h conf provider res pw ic l) (fun rest => Done (r :: rest)))
  end.

(** The condition of the first container, replaced by every container with a
    reason of higher priority. *)
Definition aggregate_step (acc : agentInjectedStatusCondition) (c : ContainerAgentConfig) :=
  if decide (AgentInjectionReasonPriority (cac_reason c) > AgentInjectionReasonPriority (inj_reason acc))%Z
  then containerConfigToStatusCondition c else acc.

(** [Containers[0]] of an empty list panics. *)
Definition aggregate (l : list ContainerAgentConfig) : go agentInjectedStatusCondition :=
  match l with
  | [] => Panic
  | c :: _ => Done (foldl aggregate_step (containerConfigToStatusCondition c) l)
  end.

Definition enabled_names (l : list ContainerAgentConfig) : list string :=
  cac_name <$> filter (fun c => cac_enabled c = true) l.

Definition all_optional (l : list ContainerAgentConfig) : bool :=
  forallb (fun c => negb (cac_enabled c) || cac_manifest_optional c) l.

Context `{Client}.

Definition updateInstrumentationConfigAgentsMetaHash (s : InstrumentationConfigSpec) (newValue : string)
    : M InstrumentationConfigSpec :=
  if decide (spec_agents_meta_hash s = newValue) then mret s
  else t ← time_Now; mret (with_meta_hash s newValue (Some t)).

(** What is computed from the containers, once they are decided. *)
Definition summarise (ic : InstrumentationConfig)
    (decided : list (ContainerAgentConfig * option ContainerCollectorConfig))
    : M (InstrumentationConfig * agentInjectedStatusCondition) :=
  let containers := decided.*1 in
  let s := with_collector_config (with_containers (ic_spec ic) containers) (omap snd decided) in
  aggregated ← lift (aggregate containers);
  let names := enabled_names containers in
  if nonempty names then
    let injection := negb (st_rollback_occurred (ic_status ic)) in
    let s := with_manifest_optional (with_injection s injection) (injection && all_optional containers) in
    let '(hash, sorted) := HashForContainersConfig containers in
    s ← updateInstrumentationConfigAgentsMetaHash (with_containers s sorted) hash;
    mret (with_spec ic s,
          mkInjected (r_status AgentEnabledEnabledSuccessfully) EnabledSuccessfully
            ("agent enabled in " +:+ pretty (Z.of_nat (length names)) +:+ " containers: ["
             +:+ join " " names +:+ "]"))
  else
    s ← updateInstrumentationConfigAgentsMetaHash
          (with_manifest_optional (with_injection s false) false) "";
    mret (with_spec ic s, aggregated).

Context `{StatusConditions}.

Definition updateInstrumentationConfigSpec (pw : PodWorkload) (ic : InstrumentationConfig)
    (provider : Provider) (conf : OdigosConfiguration)
    : M (error + InstrumentationConfig * agentInjectedStatusCondition) :=
  resources ← read (fun c => getRelevantResources c pw);
  match resources with
  | inl err => mret (inl err)
  | inr res =>
      backoff ← read (fun c => hasUninstrumentedPodsWithBackoff c pw);
      backoff ← lift backoff;
      match backoff with
      | inl err => mret (inl err)
      | inr (Some condition) =>
          mret (inr (with_conditions ic (set_cond (st_conditions (ic_status ic))
                       (mkCondition WorkloadRolloutStatusConditionType ConditionFalse CrashLoopBackOff
                          "Workload has pods in backoff state - not eligible for instrumentation")),
                     condition))
      | inr None =>
          let '(ready, reason, message) := isReadyForInstrumentation (res_node res) ic in
          if negb ready then
            s ← updateInstrumentationConfigAgentsMetaHash (with_injection (ic_spec ic) false) "";
            mret (inr (with_spec ic (with_containers s []),
                       mkInjected (reason_status ConditionUnknown reason) reason message))
          else
            decided ← lift (containers_loop (res_heap res) conf provider res pw ic
                              (map_order (map_to_list (ic_RuntimeDetailsByContainer ic))));
            r ← summarise ic decided;
            mret (inr r)
      end
  end.
End Spec.
