(* ===== verification/AgentDecision.v ===== *)
(** * What the update of a spec decides

    The decision about one container as a function of its inputs, which the
    loop refines, and the facts about the flags, the hash and the condition
    that summarise the containers. *)

From S2P Require Import Prelude.
From S2P Require Import GoStrings.
From S2P Require Import GoSort.
From S2P Require Import K8s.
From S2P Require Import Status.
From S2P Require Import Workload.
From S2P Require Import Api.
From S2P Require Import GoLib.
From S2P Require Import Scope.
From S2P Require Import Objects.
From S2P Require Import Client.
From S2P Require Import RuleMerge.
From S2P Require Import ActionConfig.
From S2P Require Import SamplingConfig.
From S2P Require Import DynamicConfig.
From S2P Require Import Distros.
From S2P Require Import ContainerAgent.
From S2P Require Import Backoff.
From S2P Require Import AgentEnabled.

(** ** The decisions alone

    What the loop decides about a container, without the dynamic
    configuration of the signals: a function of the inputs that reads neither
    the heap nor a map in iteration order.  [container_config] refines it. *)

Section Decision.
Context `{GoSort} `{GoLibrary} `{GoVersion}.

(** The configuration without what depends on the signals' payloads. *)
Definition bare (c : ContainerAgentConfig) : ContainerAgentConfig :=
  with_signals c (mkDynamic None None None None None).

Definition dynamic_error (conf : OdigosConfiguration) (d : OtelDistro) (rules : list InstrumentationRule)
    (signals : EnabledSignals) : option AgentDisabledInfo :=
  match (if TracesEnabled signals then CalculateIdGeneratorConfig conf else inr None) with
  | inl e => Some e
  | inr _ => match dynamic_metrics (MetricsEnabled signals) conf d rules with
             | Done (inl e) => Some e
             | _ => None
             end
  end.

Definition decision (conf : OdigosConfiguration) (provider : Provider) (res : Resources) (pw : PodWorkload)
    (ic : InstrumentationConfig) (name : string) (details : option RuntimeDetailsByContainer)
    : go ContainerAgentConfig :=
  let rules := rules_for_container (res_rules res) pw (container_language details) in
  let override := GetOverridesForContainer ic name in
  go_bind (ResolveDistroForContainer conf details
             (CalculateDefaultDistroPerLanguage (p_defaults provider) rules (p_getter provider))
             (p_getter provider) override name) (fun r =>
    match r with
    | inl info => Done (disabled_container name info)
    | inr d =>
        match GetEnabledSignalsForContainer (res_node res) rules with
        | (_, Some info) => Done (disabled_container name info)
        | (signals, None) =>
            match dynamic_error conf d rules signals, details with
            | Some info, _ => Done (disabled_container name info)
            | None, None => Panic
            | None, Some details =>
                Done (bare (calculateContainerAgentConfig name d conf details
                        (st_rollback_occurred (ic_status ic)) (existing_backoff_reason ic)
                        (resolveAllowConcurrentAgents conf override)))
            end
        end
    end).

Lemma bare_fields c c' :
  bare c = bare c' ->
  cac_name c = cac_name c' ∧ cac_enabled c = cac_enabled c' ∧ cac_manifest_optional c = cac_manifest_optional c'
  ∧ cac_reason c = cac_reason c' ∧ hash_fields c = hash_fields c'.
Proof.
  unfold bare, with_signals, hash_fields. destruct c, c'. simpl. intros E.
  injection E as -> -> -> -> -> -> -> ->. by split_and!.
Qed.

Lemma bare_with_signals c dyn : bare (with_signals c dyn) = bare c.
Proof. done. Qed.
Lemma bare_bare c : bare (bare c) = bare c.
Proof. done. Qed.

Context (conf : OdigosConfiguration) (provider : Provider) (res : Resources) (pw : PodWorkload)
  (ic : InstrumentationConfig).

Lemma resolve_done details m o name :
  acyclic (p_getter provider) ->
  exists r, ResolveDistroForContainer conf details m (p_getter provider) o name = Done r.
Proof.
  intros Hac. unfold ResolveDistroForContainer. case_match; [by eexists|].
  destruct details as [d|]; [|by eexists]. case_decide; [by eexists|].
  destruct (o ≫= co_otel_distro_name) as [n|]; simpl; [repeat case_match; by eexists|].
  unfold resolveDistroByLanguage. destruct (m !! rd_language d) as [n|]; [|case_decide; simpl; by eexists].
  destruct (resolution_returns (p_getter provider) n (rd_runtime_version d) Hac) as [n' ->]. simpl.
  repeat (case_match; simpl); by eexists.
Qed.

(** A distribution is only resolved from runtime details. *)
Lemma resolve_details details m o name d :
  ResolveDistroForContainer conf details m (p_getter provider) o name = Done (inr d) -> is_Some details.
Proof. unfold ResolveDistroForContainer. intros E. repeat (case_match; simplify_eq/=); eauto. Qed.

(** A rolled back workload has no enabled container, and the containers are
    named by their keys. *)
Lemma decision_facts name details c :
  decision conf provider res pw ic name details = Done c ->
  bare c = c
  ∧ (st_rollback_occurred (ic_status ic) = true -> cac_enabled c = false)
  ∧ (cac_enabled c = true -> cac_name c = name)
  ∧ ((forall d, details = Some d -> rd_container_name d = name) -> cac_name c = name).
Proof.
  unfold decision. intros E.
  destruct (ResolveDistroForContainer _ _ _ _ _ _) as [[info|d]| |]; simpl in E; [by simplify_eq| |done..].
  destruct (GetEnabledSignalsForContainer _ _) as [signals [info|]]; [by simplify_eq|].
  destruct (dynamic_error _ _ _ _) as [info|]; [by simplify_eq|].
  destruct details as [details|]; [|done]. injection E as <-.
  pose proof (enabled_facts name d conf details (st_rollback_occurred (ic_status ic)) (existing_backoff_reason ic)
    (resolveAllowConcurrentAgents conf (GetOverridesForContainer ic name))) as [Hn Hr].
  pose proof (container_names name d conf details (st_rollback_occurred (ic_status ic)) (existing_backoff_reason ic)
    (resolveAllowConcurrentAgents conf (GetOverridesForContainer ic name))) as Hd.
  set (c := calculateContainerAgentConfig _ _ _ _ _ _ _) in *. split_and!; [done| |done|].
  - intros Hroll. change (cac_enabled c = false). destruct (cac_enabled c); [|done]. by rewrite Hr in Hroll.
  - intros Hdet. change (cac_name c = name). destruct Hd as [?|Hd]; [done|]. rewrite Hd. by apply Hdet.
Qed.

Context `{GoMapOrder}.

Lemma dynamic_verdict h name rules details actions samplings w d signals node cluster h' r :
  CalculateDynamicContainerConfig h name rules conf (Some details) actions samplings w pw d signals node cluster
    = Done (h', r) ->
  dynamic_error conf d rules signals = match r with inl e => Some e | inr _ => None end.
Proof.
  unfold CalculateDynamicContainerConfig, dynamic_traces, dynamic_error.
  destruct (metrics_config_done conf d rules) as [m Hm].
  destruct (traces_config_done h actions name details pw d w conf samplings rules node) as [[h1 t] Ht].
  pose proof Ht as Ht'. unfold calculateTracesConfig in Ht'.
  unfold dynamic_metrics. rewrite Ht, Hm. clear Ht Hm. intros E.
  destruct (TracesEnabled signals); [|destruct (MetricsEnabled signals)]; simpl in *.
  - destruct (CalculateIdGeneratorConfig conf) as [e|gen]; simpl in *; [by simplify_eq/=|].
    destruct (CalculateSamplingCategoryRulesForContainer _ _ _ _ _ _ _) as [[noisy relevant] cost].
    destruct (CalculatePayloadCollectionConfig h d rules) as [h2 payload]. simplify_eq/=.
    destruct (MetricsEnabled signals); simpl in *; [destruct m as [e|m]; simpl in *; [by simplify_eq|]|];
      by destruct (CalculateEbpfLogCaptureConfig _ rules) as [h3 ebpf]; simplify_eq.
  - destruct m as [e|m]; simpl in *; [by simplify_eq|].
    by destruct (CalculateEbpfLogCaptureConfig _ rules) as [h3 ebpf]; simplify_eq.
  - by destruct (CalculateEbpfLogCaptureConfig _ rules) as [h3 ebpf]; simplify_eq.
Qed.

(** What the collector configuration of a container has to do with it. *)
Definition collector_ok (name : string) (r : ContainerAgentConfig * option ContainerCollectorConfig) : Prop :=
  forall k, r.2 = Some k -> cac_enabled r.1 = true ∧ cc_container_name k = name.

(** Deciding a container never panics, and refines the decision. *)
Lemma container_decided h name details :
  acyclic (p_getter provider) ->
  exists h' r, container_config h conf provider res pw ic name details = Done (h', r)
  ∧ decision conf provider res pw ic name details = Done (bare r.1)
  ∧ collector_ok name r.
Proof.
  intros Hac. unfold container_config, decision.
  destruct (resolve_done details (CalculateDefaultDistroPerLanguage (p_defaults provider)
    (rules_for_container (res_rules res) pw (container_language details)) (p_getter provider))
    (GetOverridesForContainer ic name) name Hac) as [[info|d] E]; rewrite E; simpl; [by eexists _, _|].
  destruct (resolve_details _ _ _ _ _ E) as [details' ->].
  destruct (GetEnabledSignalsForContainer _ _) as [signals [info|]]; [by eexists _, _|].
  edestruct (dynamic_config_done h name (rules_for_container (res_rules res) pw
    (container_language (Some details'))) conf details' (res_actions res) (res_samplings res)
    (Some (res_workload res)) pw d signals (res_node res) (res_cluster res)) as (h' & dyn & Hdyn & _).
  rewrite Hdyn, (dynamic_verdict _ _ _ _ _ _ _ _ _ _ _ _ _ Hdyn). simpl.
  destruct dyn as [e|dyn]; simpl; [by eexists _, _|].
  case_match eqn:Hen; eexists _, _; (split; [done|]); (split; [done|]); intros k Hk; simplify_eq/=.
  split; [done|]. by destruct (dyn_collector dyn); simplify_eq/=.
Qed.

(** The whole loop, entry by entry. *)
Definition entry_decided (e : string * option RuntimeDetailsByContainer)
    (r : ContainerAgentConfig * option ContainerCollectorConfig) : Prop :=
  decision conf provider res pw ic e.1 e.2 = Done (bare r.1) ∧ collector_ok e.1 r.

Lemma loop_decided h l :
  acyclic (p_getter provider) ->
  exists decided, containers_loop h conf provider res pw ic l = Done decided ∧ Forall2 entry_decided l decided.
Proof.
  intros Hac. revert h. induction l as [|[name details] l IH]; intros h; simpl; [by eexists|].
  destruct (container_decided h name details Hac) as (h' & r & -> & Hr). simpl.
  destruct (IH h') as (rest & -> & Hl). simpl. eexists. split; [done|]. by constructor.
Qed.

Lemma loop_enabled l decided r :
  Forall2 entry_decided l decided -> r ∈ decided ->
  (cac_enabled r.1 = true -> st_rollback_occurred (ic_status ic) = false ∧ cac_name r.1 ∈ l.*1)
  ∧ forall k, r.2 = Some k -> cac_enabled r.1 = true ∧ cc_container_name k = cac_name r.1.
Proof.
  intros Hl [i Hi]%list_elem_of_lookup.
  destruct (Forall2_lookup_r _ _ _ _ _ Hl Hi) as ([name details] & He & Hdec & Hcol).
  destruct (decision_facts _ _ _ Hdec) as (_ & Hroll & Hname & _).
  assert (Hn : cac_enabled r.1 = true -> cac_name r.1 = name) by exact Hname. split.
  - intros Hen. split.
    + destruct (st_rollback_occurred (ic_status ic)); [|done]. by rewrite (Hroll eq_refl : cac_enabled r.1 = false) in Hen.
    + rewrite (Hn Hen). apply list_elem_of_fmap. exists (name, details). split; [done|]. by eapply list_elem_of_lookup_2.
  - intros k Hk. destruct (Hcol _ Hk) as [Hen ->]. split; [done|]. by rewrite Hn.
Qed.
End Decision.

(** ** The summary *)

Section Summary.
Context `{GoSortLaws} `{GoLibrary} `{Client}.

(** What the flags, the hash and the collector configurations of a spec say
    about its containers. *)
Record spec_consistent (s : InstrumentationConfigSpec) : Prop := {
  sc_injection : spec_injection_enabled s = existsb cac_enabled (spec_containers s);
  sc_optional : spec_manifest_optional s = existsb cac_enabled (spec_containers s) && all_optional (spec_containers s);
  sc_hash : spec_agents_meta_hash s =
    if existsb cac_enabled (spec_containers s) then agents_digest (hash_fields <$> spec_containers s) else "";
  sc_sorted : existsb cac_enabled (spec_containers s) = true ->
    StronglySorted (not_less (compare_on cac_name string_compare)) (spec_containers s);
  sc_collector k : k ∈ spec_collector_config s ->
    exists c, c ∈ spec_containers s ∧ cac_enabled c = true ∧ cac_name c = cc_container_name k
}.

Lemma enabled_nonempty l : nonempty (enabled_names l) = existsb cac_enabled l.
Proof.
  unfold enabled_names. induction l as [|c l IH]; simpl; [done|].
  rewrite filter_cons. by destruct (cac_enabled c).
Qed.

Lemma sort_containers_perm l : sort_containers l ≡ₚ l.
Proof. apply SortFunc_perm. Qed.

(** Writing the hash keeps everything else; the time moves with the hash. *)
Lemma meta_hash_run sp h s :
  exists t n, updateInstrumentationConfigAgentsMetaHash sp h s
    = Done (with_meta_hash sp h t, mkSt (st_cluster s) (st_limiter s) n).
Proof.
  unfold updateInstrumentationConfigAgentsMetaHash. case_decide as E.
  - exists (spec_hash_changed_time sp), (st_ticks s). unfold mret, M_ret. destruct sp, s. simpl in *. by subst.
  - by eexists _, _.
Qed.

Lemma aggregate_returns l : l <> [] -> exists a, aggregate l = Done a.
Proof. destruct l; [done|by eexists]. Qed.

(** The summary returns, does not touch the cluster, and leaves a consistent
    spec; the condition is true exactly when the injection is enabled. *)
Lemma summarise_run ic decided s :
  decided <> [] ->
  (forall r, r ∈ decided ->
     (cac_enabled r.1 = true -> st_rollback_occurred (ic_status ic) = false)
     ∧ forall k, r.2 = Some k -> cac_enabled r.1 = true ∧ cc_container_name k = cac_name r.1) ->
  exists sp cond n,
    summarise ic decided s = Done ((with_spec ic sp, cond), mkSt (st_cluster s) (st_limiter s) n)
    ∧ spec_containers sp ≡ₚ decided.*1 ∧ spec_collector_config sp = omap snd decided
    ∧ spec_consistent sp
    ∧ (if spec_injection_enabled sp
       then inj_status cond = ConditionTrue ∧ inj_reason cond = EnabledSuccessfully
       else aggregate (decided.*1) = Done cond).
Proof.
  intros Hne Hok. unfold summarise.
  destruct (aggregate_returns (decided.*1)) as [agg Hagg]; [by destruct decided|].
  assert (Hroll : existsb cac_enabled (decided.*1) = true -> st_rollback_occurred (ic_status ic) = false).
  { intros (c & Hc & Hen)%existsb_exists. apply list_elem_of_In in Hc.
    apply list_elem_of_fmap in Hc as (r & -> & Hr). by apply (Hok r Hr). }
  assert (Hcol : forall k, k ∈ omap snd decided ->
            exists c, c ∈ decided.*1 ∧ cac_enabled c = true ∧ cac_name c = cc_container_name k).
  { intros k (r & Hr & Hk)%list_elem_of_omap. destruct (proj2 (Hok r Hr) k Hk) as [Hen Hn].
    exists r.1. split; [by apply list_elem_of_fmap_2|]. by rewrite Hn. }
  unfold mbind, M_bind, lift. rewrite Hagg. cbn [go_bind fst snd]. rewrite enabled_nonempty.
  destruct (existsb cac_enabled (decided.*1)) eqn:Hen.
  - rewrite (Hroll eq_refl).
    assert (Hhash : HashForContainersConfig (decided.*1)
              = (agents_digest (hash_fields <$> sort_containers (decided.*1)), sort_containers (decided.*1))).
    { unfold HashForContainersConfig. by destruct decided. }
    rewrite Hhash.
    destruct (meta_hash_run (with_containers (with_manifest_optional (with_injection (with_collector_config
       (with_containers (ic_spec ic) (decided.*1)) (omap snd decided)) (negb false))
       (negb false && all_optional (decided.*1))) (sort_containers (decided.*1)))
       (agents_digest (hash_fields <$> sort_containers (decided.*1))) s) as (t & n & ->).
    cbn [go_bind fst snd]. eexists _, _, n. split; [reflexivity|].
    split; [apply sort_containers_perm|]. split; [done|]. split; [|done].
    assert (Hex : existsb cac_enabled (sort_containers (decided.*1)) = true)
      by by rewrite (existsb_permuted _ _ _ (sort_containers_perm _)).
    split; simpl; rewrite ?Hex; try done.
    + symmetry. apply forallb_permuted, sort_containers_perm.
    + intros _. apply SortFunc_sorted. apply _.
    + intros k Hk. destruct (Hcol k Hk) as (c & Hc & ?). exists c. by rewrite sort_containers_perm.
  - destruct (meta_hash_run (with_manifest_optional (with_injection (with_collector_config
       (with_containers (ic_spec ic) (decided.*1)) (omap snd decided)) false) false) "" s) as (t & n & ->).
    cbn [go_bind fst snd]. eexists _, _, n. split; [reflexivity|].
    split; [done|]. split; [done|]. split; [|done]. by split; simpl; rewrite ?Hen.
Qed.

Definition more_specific (c c' : ContainerAgentConfig) : ContainerAgentConfig :=
  if decide (AgentInjectionReasonPriority (cac_reason c') > AgentInjectionReasonPriority (cac_reason c))%Z
  then c' else c.

Lemma aggregate_step_off c c' :
  cac_enabled c = false ->
  aggregate_step (containerConfigToStatusCondition c) c' = containerConfigToStatusCondition (more_specific c c').
Proof.
  intros Hoff. unfold aggregate_step, more_specific.
  replace (inj_reason (containerConfigToStatusCondition c)) with (cac_reason c);
    [by case_decide|]. unfold containerConfigToStatusCondition. by rewrite Hoff.
Qed.

(** Without an enabled container, the aggregate is the condition of a
    container whose reason has the highest priority. *)
Lemma aggregate_fold l c0 :
  (forall c, c ∈ c0 :: l -> cac_enabled c = false) ->
  exists c, c ∈ c0 :: l
  ∧ foldl aggregate_step (containerConfigToStatusCondition c0) l = containerConfigToStatusCondition c
  ∧ forall c', c' ∈ c0 :: l ->
      (AgentInjectionReasonPriority (cac_reason c') <= AgentInjectionReasonPriority (cac_reason c))%Z.
Proof.
  revert c0. induction l as [|c1 l IH]; intros c0 Hoff; simpl.
  - exists c0. split_and!; [left|done|]. intros c' ->%list_elem_of_singleton. done.
  - rewrite aggregate_step_off by (apply Hoff; left).
    destruct (IH (more_specific c0 c1)) as (c & Hc & -> & Hmax).
    { intros x [->|Hx]%elem_of_cons; [unfold more_specific; case_decide|]; apply Hoff; set_solver. }
    exists c. split_and!; [|done|].
    + apply elem_of_cons in Hc as [->|Hc]; [unfold more_specific; case_decide|]; set_solver.
    + pose proof (Hmax (more_specific c0 c1) ltac:(left)) as Hm. unfold more_specific in Hm.
      intros c' [->|[->|Hc']%elem_of_cons]%elem_of_cons; [| |apply Hmax; by right];
        case_decide; lia.
Qed.

Lemma aggregate_spec l cond :
  (forall c, c ∈ l -> cac_enabled c = false) -> aggregate l = Done cond ->
  exists c, c ∈ l ∧ cond = containerConfigToStatusCondition c
  ∧ forall c', c' ∈ l ->
      (AgentInjectionReasonPriority (cac_reason c') <= AgentInjectionReasonPriority (cac_reason c))%Z.
Proof.
  destruct l as [|c l]; [done|]. intros Hoff [= <-]. simpl.
  assert (aggregate_step (containerConfigToStatusCondition c) c = containerConfigToStatusCondition c) as ->.
  { unfold aggregate_step. case_decide; done. }
  destruct (aggregate_fold l c Hoff) as (c' & ? & ? & ?). eauto.
Qed.
End Summary.
