(* ===== verification/AgentEnabledProperties.v ===== *)
(** * Properties of the update of a spec

    The update returns, leaves a consistent spec, respects a rollback, and
    computes a hash that does not depend on the order of a map. *)

From S2P Require Import Prelude.
From S2P Require Import GoStrings.
From S2P Require Import GoSort.
From S2P Require Import K8s.
From S2P Require Import Status.
From S2P Require Import Workload.
From S2P Require Import Api.
From S2P Require Import GoLib.
From S2P Require Import Scope.
From S2P Require Import Objects.
From S2P Require Import Client.
From S2P Require Import RuleMerge.
From S2P Require Import ActionConfig.
From S2P Require Import SamplingConfig.
From S2P Require Import DynamicConfig.
From S2P Require Import Distros.
From S2P Require Import ContainerAgent.
From S2P Require Import Backoff.
From S2P Require Import AgentEnabled.
From S2P Require Import AgentDecision.
From S2P Require Import Samples.
From S2P Require Import Store.

Section SpecProperties.
Context `{GoSortLaws} `{GoMapOrderLaws} `{GoLibrary} `{GoVersion} `{Client} `{StatusConditions}.

Lemma backoff_done c pw :
  selector_present c pw -> exists r, hasUninstrumentedPodsWithBackoff c pw = Done r.
Proof.
  intros Hsel. unfold hasUninstrumentedPodsWithBackoff. case_match; [by eexists|].
  destruct (GetObject _ _ _ _) as [|obj] eqn:E; [by eexists|].
  assert (exists r, WorkloadHasNonInstrumentedPodInBackoff c obj = Done r) as [r ->].
  { unfold WorkloadHasNonInstrumentedPodInBackoff, notInstrumentedWorkloadPodsSelector.
    destruct (list_selected_total c obj OpDoesNotExist "notInstrumentedWorkloadPodsSelector"
      "WorkloadHasNonInstrumentedPodInBackoff"
      "WorkloadHasNonInstrumentedPodInBackoff: failed listing pods" (Hsel _ E)) as [l Hl].
    rewrite Hl. simpl. destruct obj; simpl; destruct l; by eexists. }
  simpl. destruct r as [|[]]; by eexists.
Qed.

(** The container entries, in the order in which the loop visits them. *)
Definition entries (ic : InstrumentationConfig) : list (string * option RuntimeDetailsByContainer) :=
  map_order (map_to_list (ic_RuntimeDetailsByContainer ic)).

Lemma entries_keys ic n : n ∈ (entries ic).*1 <-> n ∈ co_container_name <$> spec_overrides (ic_spec ic).
Proof.
  unfold entries. rewrite map_order_perm, <-runtime_details_keys. rewrite list_elem_of_fmap. split.
  - intros ([k v] & -> & Hkv). apply elem_of_map_to_list in Hkv. by exists v.
  - intros [v Hv]. exists (n, v). by rewrite elem_of_map_to_list.
Qed.

Lemma entries_nonempty ic : spec_overrides (ic_spec ic) <> [] -> entries ic <> [].
Proof.
  intros Hne E. destruct (spec_overrides (ic_spec ic)) as [|o l] eqn:Ho; [done|].
  pose proof (proj2 (entries_keys ic (co_container_name o))) as Hk. rewrite E, Ho in Hk.
  by apply not_elem_of_nil in Hk; [|left].
Qed.

(** What an update of the spec leaves: the workload was in back-off and only
    the rollout condition changed; or something is missing and the injection
    is off, without containers and hash, and with everything else as it was;
    or every container is decided and the spec is consistent. *)
Definition backoff_condition : Condition :=
  mkCondition WorkloadRolloutStatusConditionType ConditionFalse CrashLoopBackOff
    "Workload has pods in backoff state - not eligible for instrumentation".

Inductive spec_outcome (c : Cluster) (pw : PodWorkload) (res : Resources) (ic : InstrumentationConfig) :
    InstrumentationConfig -> agentInjectedStatusCondition -> Prop :=
| OutcomeBackoff cond :
    hasUninstrumentedPodsWithBackoff c pw = Done (inr (Some cond)) -> inj_reason cond = CrashLoopBackOff ->
    spec_outcome c pw res ic (with_conditions ic (set_cond (st_conditions (ic_status ic)) backoff_condition)) cond
| OutcomeNotReady t reason message :
    hasUninstrumentedPodsWithBackoff c pw = Done (inr None) ->
    isReadyForInstrumentation (res_node res) ic = (false, reason, message) ->
    spec_outcome c pw res ic
      (with_spec ic (with_containers (with_meta_hash (with_injection (ic_spec ic) false) "" t) []))
      (mkInjected (reason_status ConditionUnknown reason) reason message)
| OutcomeDecided sp cond :
    hasUninstrumentedPodsWithBackoff c pw = Done (inr None) ->
    (isReadyForInstrumentation (res_node res) ic).1.1 = true ->
    spec_consistent sp ->
    (st_rollback_occurred (ic_status ic) = true -> spec_injection_enabled sp = false) ->
    length (spec_containers sp) = size (ic_RuntimeDetailsByContainer ic) ->
    (forall c, c ∈ spec_containers sp -> cac_enabled c = true ->
       cac_name c ∈ co_container_name <$> spec_overrides (ic_spec ic)) ->
    (if spec_injection_enabled sp then inj_status cond = ConditionTrue ∧ inj_reason cond = EnabledSuccessfully
     else exists c, c ∈ spec_containers sp ∧ cond = containerConfigToStatusCondition c
          ∧ forall c', c' ∈ spec_containers sp ->
              (AgentInjectionReasonPriority (cac_reason c') <= AgentInjectionReasonPriority (cac_reason c))%Z) ->
    spec_outcome c pw res ic (with_spec ic sp) cond.

Lemma decided_outcome ic pw provider conf res s decided :
  hasUninstrumentedPodsWithBackoff (st_cluster s) pw = Done (inr None) ->
  (isReadyForInstrumentation (res_node res) ic).1.1 = true ->
  spec_overrides (ic_spec ic) <> [] ->
  Forall2 (entry_decided conf provider res pw ic) (entries ic) decided ->
  exists ic' cond n,
    summarise ic decided s = Done ((ic', cond), mkSt (st_cluster s) (st_limiter s) n)
    ∧ spec_outcome (st_cluster s) pw res ic ic' cond.
Proof.
  intros Hback Hready Hne Hdec. pose proof (Forall2_length _ _ _ Hdec) as Hlen.
  destruct (summarise_run ic decided s) as (sp & cond & n & Hrun & Hperm & _ & Hcons & Hcond).
  { apply entries_nonempty in Hne. by destruct decided, (entries ic). }
  { intros r Hr. destruct (loop_enabled _ _ _ _ _ _ _ _ Hdec Hr) as [Hen Hcol]. split; [|done].
    intros E. by apply Hen. }
  exists (with_spec ic sp), cond, n. split; [done|].
  assert (Hin : forall c, c ∈ spec_containers sp -> cac_enabled c = true ->
            st_rollback_occurred (ic_status ic) = false
            ∧ cac_name c ∈ co_container_name <$> spec_overrides (ic_spec ic)).
  { intros c Hc Hen. rewrite Hperm in Hc. apply list_elem_of_fmap in Hc as (r & -> & Hr).
    rewrite <-entries_keys. by apply (loop_enabled _ _ _ _ _ _ _ _ Hdec Hr). }
  apply OutcomeDecided; try done.
  - intros Hroll. rewrite (sc_injection _ Hcons). apply not_true_iff_false.
    intros (c & Hc & Hen)%existsb_exists. apply list_elem_of_In in Hc.
    destruct (Hin c Hc Hen) as [Hr _]. by rewrite Hroll in Hr.
  - rewrite Hperm, length_fmap, <-Hlen. unfold entries. by rewrite map_order_perm, length_map_to_list.
  - intros c Hc Hen. by apply Hin.
  - destruct (spec_injection_enabled sp) eqn:Hinj; [done|].
    rewrite (sc_injection _ Hcons) in Hinj. apply aggregate_spec in Hcond as (c & Hc & -> & Hmax).
    + exists c. rewrite Hperm. split_and!; [done|done|]. intros c'. rewrite Hperm. apply Hmax.
    + intros c Hc. rewrite <-Hperm in Hc. apply not_true_iff_false. intros Hen.
      apply not_true_iff_false in Hinj. apply Hinj, existsb_exists. exists c. by rewrite <-list_elem_of_In.
Qed.

(** The whole update: it writes nothing, fails when a read fails, and panics
    on a workload whose selector it cannot follow or without a container. *)
Definition spec_post (pw : PodWorkload) (ic : InstrumentationConfig) (s : St)
    (run : go ((error + InstrumentationConfig * agentInjectedStatusCondition) * St)) : Prop :=
  match run with
  | Done (r, s') =>
      st_cluster s' = st_cluster s ∧ st_limiter s' = st_limiter s
      ∧ match r with
        | inl err => getRelevantResources (st_cluster s) pw = inl err
                     ∨ hasUninstrumentedPodsWithBackoff (st_cluster s) pw = Done (inl err)
        | inr (ic', cond) => exists res, getRelevantResources (st_cluster s) pw = inr res
                                   ∧ spec_outcome (st_cluster s) pw res ic ic' cond
        end
  | Panic => nil_selector (st_cluster s) pw
             ∨ spec_overrides (ic_spec ic) = []
               ∧ exists res, getRelevantResources (st_cluster s) pw = inr res
                   ∧ (isReadyForInstrumentation (res_node res) ic).1.1 = true
  | Hang => False
  end.

Lemma backoff_cases c pw :
  (exists r, hasUninstrumentedPodsWithBackoff c pw = Done r)
  ∨ hasUninstrumentedPodsWithBackoff c pw = Panic ∧ nil_selector c pw.
Proof.
  destruct (selector_or_nil c pw) as [Hsel|Hnil]; [left; by apply backoff_done|].
  destruct Hnil as (r & E & Er). unfold hasUninstrumentedPodsWithBackoff. case_match; [left; by eexists|]. right.
  split; [|by exists r]. rewrite E. unfold WorkloadHasNonInstrumentedPodInBackoff, list_selected,
    notInstrumentedWorkloadPodsSelector, agents_selector, workloadLabelSelector. simpl. by rewrite Er.
Qed.

Lemma summarise_nothing ic s : summarise ic [] s = Panic.
Proof. done. Qed.

Lemma no_entries ic : spec_overrides (ic_spec ic) = [] -> entries ic = [].
Proof.
  intros E. destruct (entries ic) as [|e l] eqn:El; [done|]. pose proof (proj1 (entries_keys ic e.1)) as Hk.
  rewrite El, E in Hk. assert (e.1 ∈ (e :: l).*1) as Hin by (left). by apply Hk, not_elem_of_nil in Hin.
Qed.

Lemma spec_update_post pw ic provider conf s :
  acyclic (p_getter provider) -> spec_post pw ic s (updateInstrumentationConfigSpec pw ic provider conf s).
Proof.
  intros Hac. unfold updateInstrumentationConfigSpec.
  unfold mbind at 1, M_bind at 1, read at 1. cbn [go_bind fst snd].
  destruct (getRelevantResources (st_cluster s) pw) as [err|res] eqn:Hres; [simpl; auto|].
  unfold mbind at 1 2, M_bind at 1 2, read at 1, lift at 1. cbn [go_bind fst snd].
  destruct (backoff_cases (st_cluster s) pw) as [[b Hb]|[Hb Hnil]]; rewrite Hb; cbn [go_bind fst snd]; [|by left].
  destruct b as [err|[cond|]]; [simpl; auto| |].
  { simpl. split_and!; [done..|]. exists res. split; [done|]. apply OutcomeBackoff; [done|].
    revert Hb. unfold hasUninstrumentedPodsWithBackoff, go_bind. intros E.
    by repeat (case_match; simplify_eq/=). }
  destruct (isReadyForInstrumentation (res_node res) ic) as [[ready reason] message] eqn:Hready.
  destruct ready; cbn [negb].
  - destruct (loop_decided conf provider res pw ic (res_heap res) (entries ic) Hac) as (decided & Hloop & Hdec).
    fold (entries ic). rewrite Hloop. unfold mbind, M_bind, lift. cbn [go_bind fst snd].
    destruct (decide (spec_overrides (ic_spec ic) = [])) as [Hno|Hne].
    { rewrite (no_entries ic Hno) in Hdec. inversion Hdec. rewrite summarise_nothing. simpl. right.
      split; [done|]. exists res. split; [done|]. by rewrite Hready. }
    destruct (decided_outcome ic pw provider conf res s decided) as (ic' & cond & n & Hrun & Hout);
      [done|by rewrite Hready|done..|].
    rewrite Hrun. simpl. eauto.
  - unfold mbind, M_bind. destruct (meta_hash_run (with_injection (ic_spec ic) false) "" s) as (t & n & ->).
    simpl. split_and!; [done..|]. exists res. split; [done|]. by apply OutcomeNotReady.
Qed.

Lemma spec_update_run pw ic provider conf s :
  acyclic (p_getter provider) -> spec_overrides (ic_spec ic) <> [] -> selector_present (st_cluster s) pw ->
  exists r n,
    updateInstrumentationConfigSpec pw ic provider conf s = Done (r, mkSt (st_cluster s) (st_limiter s) n)
    ∧ match r with
      | inl err => getRelevantResources (st_cluster s) pw = inl err
                   ∨ hasUninstrumentedPodsWithBackoff (st_cluster s) pw = Done (inl err)
      | inr (ic', cond) => exists res, getRelevantResources (st_cluster s) pw = inr res
                                 ∧ spec_outcome (st_cluster s) pw res ic ic' cond
      end.
Proof.
  intros Hac Hne Hsel. pose proof (spec_update_post pw ic provider conf s Hac) as Hpost. unfold spec_post in Hpost.
  destruct (updateInstrumentationConfigSpec _ _ _ _ _) as [[r [c l n]]| |]; [|exfalso|done].
  - simpl in Hpost. destruct Hpost as (-> & -> & Hout). by exists r, n.
  - destruct Hpost as [(r & E & Er)|[? _]]; [|done]. destruct (Hsel _ E r eq_refl) as [x Hx]. congruence.
Qed.

(** C1: for distributions whose fallbacks form no cycle, the update of a
    config's spec returns, whatever the cluster replies, and writes nothing
    to it; it panics only for an Argo rollout without a selector, and for a
    config that is ready but lists no container.  It fails only when a read
    fails; otherwise the workload was already in back-off and its spec is
    left alone; or a prerequisite is missing and the injection is off with
    no container and no hash, while the collector configurations stay as they
    were; or every container is decided and the spec is consistent: the
    injection is on exactly when a container is enabled (never after a
    rollback), the hash is the digest of the containers sorted by name (empty
    when none is enabled), collector configurations exist for enabled
    containers only, and the condition is the success or the most specific
    reason. *)
Theorem spec_update_outcome (pw : PodWorkload) (ic : InstrumentationConfig) (provider : Provider)
    (conf : OdigosConfiguration) (s : St) :
  acyclic (p_getter provider) -> spec_post pw ic s (updateInstrumentationConfigSpec pw ic provider conf s).
Proof. apply spec_update_post. Qed.

(** After a rollback no agent is enabled again: whatever the distributions,
    rules and configuration, the update leaves the injection off. *)
Theorem rollback_keeps_agents_off (pw : PodWorkload) (ic ic' : InstrumentationConfig) (provider : Provider)
    (conf : OdigosConfiguration) (s s' : St) (cond : agentInjectedStatusCondition) :
  acyclic (p_getter provider) -> spec_overrides (ic_spec ic) <> [] -> selector_present (st_cluster s) pw ->
  st_rollback_occurred (ic_status ic) = true -> spec_injection_enabled (ic_spec ic) = false ->
  updateInstrumentationConfigSpec pw ic provider conf s = Done (inr (ic', cond), s') ->
  spec_injection_enabled (ic_spec ic') = false ∧ st_rollback_occurred (ic_status ic') = true.
Proof.
  intros Hac Hne Hsel Hroll Hoff Hrun.
  destruct (spec_update_run pw ic provider conf s Hac Hne Hsel) as (r & n & Hrun' & Hout).
  rewrite Hrun in Hrun'. injection Hrun' as <- _. destruct Hout as (res & _ & Hout).
  destruct Hout; simpl; auto.
Qed.
End SpecProperties.

(** ** The order of the containers *)

Section Order.
Context `{GoSortLaws} `{GoLibrary} `{GoVersion}.

(** The runtime details carry the name they are stored under. *)
Definition details_named (ic : InstrumentationConfig) : Prop :=
  forall n d, ic_RuntimeDetailsByContainer ic !! n = Some (Some d) -> rd_container_name d = n.

(** The hash of what the loop decided. *)
Definition containers_hash (decided : list (ContainerAgentConfig * option ContainerCollectorConfig)) : string :=
  (HashForContainersConfig (decided.*1)).1.

Lemma hash_eq decided :
  containers_hash decided = if nonempty decided then agents_digest (hash_fields <$> sort_containers (decided.*1)) else "".
Proof. by destruct decided. Qed.

Definition entry_fields (conf : OdigosConfiguration) (provider : Provider) (res : Resources) (pw : PodWorkload)
    (ic : InstrumentationConfig) (e : string * option RuntimeDetailsByContainer) : string * bool * string :=
  match decision conf provider res pw ic e.1 e.2 with Done c => hash_fields c | _ => ("", false, "") end.

Context (conf : OdigosConfiguration) (provider : Provider) (res : Resources) (pw : PodWorkload)
  (ic : InstrumentationConfig).

Lemma decided_fields l decided :
  Forall2 (entry_decided conf provider res pw ic) l decided ->
  hash_fields <$> decided.*1 = entry_fields conf provider res pw ic <$> l.
Proof.
  induction 1 as [|e r l decided [Hd _] _ IH]; [done|]. rewrite !fmap_cons, IH. f_equal.
  unfold entry_fields. by rewrite Hd.
Qed.

Lemma decided_names l decided :
  (forall n d, (n, Some d) ∈ l -> rd_container_name d = n) ->
  Forall2 (entry_decided conf provider res pw ic) l decided -> cac_name <$> decided.*1 = l.*1.
Proof.
  intros Hn. induction 1 as [|[n d] r l decided [Hd _] _ IH]; [done|]. rewrite !fmap_cons, IH by set_solver.
  f_equal. destruct (decision_facts _ _ _ _ _ _ _ _ Hd) as (_ & _ & _ & Hname). apply Hname.
  simpl. intros d' ->. apply Hn. left.
Qed.

(** Sorted lists of entries with distinct names are determined by the set. *)
Lemma sorted_fields l l' :
  NoDup (cac_name <$> l) -> hash_fields <$> l ≡ₚ hash_fields <$> l' ->
  hash_fields <$> sort_containers l = hash_fields <$> sort_containers l'.
Proof.
  intros Hnd Hp.
  assert (Hsort : forall k, StronglySorted (not_less (compare_on (fst ∘ fst) string_compare))
                     (hash_fields <$> sort_containers k)).
  { intros k. assert (Hk : StronglySorted (not_less (compare_on cac_name string_compare)) (sort_containers k))
      by (apply SortFunc_sorted; apply _).
    induction Hk as [|c k' _ IH Hc]; simpl; constructor; [done|]. rewrite Forall_fmap. by eapply Forall_impl. }
  apply (StronglySorted_unique_strong (not_less (compare_on (fst ∘ fst) string_compare))); [|done|done|].
  - intros x y Hx Hy Hxy Hyx.
    rewrite sort_containers_perm in Hx, Hy. rewrite <-Hp in Hy.
    apply list_elem_of_fmap in Hx as (c & -> & Hc). apply list_elem_of_fmap in Hy as (c' & -> & Hc').
    assert (cac_name c = cac_name c') as E.
    { apply string_compare_eq. pose proof (total_opp (cmp := string_compare) (cac_name c') (cac_name c)) as Hopp.
      unfold not_less, compare_on in Hxy, Hyx. simpl in Hxy, Hyx. lia. }
    apply list_elem_of_lookup in Hc as [i Hi]. apply list_elem_of_lookup in Hc' as [j Hj].
    assert (i = j) as ->; [|congruence].
    apply (NoDup_lookup (cac_name <$> l) i j (cac_name c)); [done|by rewrite list_lookup_fmap, Hi|].
    by rewrite list_lookup_fmap, Hj, E.
  - by rewrite !sort_containers_perm.
Qed.

(** The hash that decides whether pods are restarted does not depend on
    the order in which the map of containers is visited, nor on the other
    maps' order, nor on the heap the rules' payloads live on. *)
Theorem agents_hash_order_independent (o1 o2 : GoMapOrder) (h1 h2 : Heap)
    (d1 d2 : list (ContainerAgentConfig * option ContainerCollectorConfig)) :
  @GoMapOrderLaws o1 -> @GoMapOrderLaws o2 -> acyclic (p_getter provider) -> details_named ic ->
  @containers_loop _ o1 _ _ h1 conf provider res pw ic (@entries o1 ic) = Done d1 ->
  @containers_loop _ o2 _ _ h2 conf provider res pw ic (@entries o2 ic) = Done d2 ->
  containers_hash d1 = containers_hash d2
  ∧ existsb cac_enabled (d1.*1) = existsb cac_enabled (d2.*1).
Proof.
  intros Ho1 Ho2 Hac Hnamed Hl1 Hl2.
  destruct (@loop_decided _ _ _ conf provider res pw ic o1 h1 (@entries o1 ic) Hac) as (? & Hl1' & Hd1).
  destruct (@loop_decided _ _ _ conf provider res pw ic o2 h2 (@entries o2 ic) Hac) as (? & Hl2' & Hd2).
  rewrite Hl1 in Hl1'. injection Hl1' as <-. rewrite Hl2 in Hl2'. injection Hl2' as <-.
  assert (Hp : @entries o1 ic ≡ₚ @entries o2 ic) by (unfold entries; by rewrite !map_order_perm).
  assert (Hf : hash_fields <$> d1.*1 ≡ₚ hash_fields <$> d2.*1).
  { by rewrite (decided_fields _ _ Hd1), (decided_fields _ _ Hd2), Hp. }
  assert (Hnd : NoDup (cac_name <$> d1.*1)).
  { rewrite (decided_names (@entries o1 ic) d1); [|intros n d|done]; unfold entries; rewrite map_order_perm.
    - apply NoDup_fst_map_to_list.
    - rewrite elem_of_map_to_list. apply Hnamed. }
  split.
  - rewrite !hash_eq. assert (nonempty d1 = nonempty d2) as ->.
    { pose proof (Permutation_length Hf) as Hlen. rewrite !length_fmap in Hlen. by destruct d1, d2. }
    by rewrite (sorted_fields _ _ Hnd Hf).
  - assert (He : forall l, existsb cac_enabled l = existsb (fun f : string * bool * string => f.1.2) (hash_fields <$> l)).
    { induction l as [|c l IH]; simpl; [done|]. by rewrite IH. }
    rewrite !He. by apply existsb_permuted.
Qed.
End Order.

(** ** Witnesses *)

(** A distribution that runs everywhere. *)
Definition any_distro : OtelDistro :=
  mkDistro "java-community" "java" [] [] None no_distro_env (Some (mkRuntimeAgent [] [] false None true false []))
    false None (Some sample_traces) None.

Definition sample_provider : Provider :=
  mkProvider {[ "java" := "java-community" ]} {[ "java-community" := any_distro ]}.

Lemma sample_provider_acyclic : acyclic (p_getter sample_provider).
Proof.
  exists (fun _ => 0). intros n d m. simpl. rewrite lookup_singleton_Some. intros [_ <-]. done.
Qed.

Section SpecWitnesses.
#[local] Existing Instances sample_library sample_versions.

Definition two_containers : InstrumentationConfig := sample_ic [] ["cart"; "proxy"].

(** The condition that the update reports, and the containers it leaves. *)
Definition reported (o : GoMapOrder) (ic : InstrumentationConfig) : option (string * list string) :=
  match updateInstrumentationConfigSpec sample_pw ic sample_provider sample_conf sample_state with
  | Done (inr (ic', cond), _) => Some (inj_message cond, cac_name <$> spec_containers (ic_spec ic'))
  | _ => None
  end.

(** The reported condition and the stored containers do depend on the
    order in which the map of containers is visited: the message lists the
    enabled containers in that order, and when no container is enabled they
    are stored in it, so that two reconciliations of the same cluster may
    write different objects. *)
Theorem spec_update_order_varies :
  (exists m1 m2 l, reported order_forward two_containers = Some (m1, l)
     ∧ reported order_backward two_containers = Some (m2, l) ∧ m1 <> m2)
  ∧ (exists m l1 l2, reported order_forward (with_rollback two_containers true) = Some (m, l1)
     ∧ reported order_backward (with_rollback two_containers true) = Some (m, l2) ∧ l1 <> l2).
Proof.
  split; do 3 eexists; (split; [by vm_compute|split; [by vm_compute|done]]).
Qed.

Lemma sample_selector : selector_present (st_cluster sample_state) sample_pw.
Proof. intros obj [= <-] r. done. Qed.

#[local] Existing Instances order_forward order_forward_laws.

Lemma two_containers_run : exists r s',
  updateInstrumentationConfigSpec sample_pw two_containers sample_provider sample_conf sample_state = Done (r, s')
  ∧ (if r then False else True).
Proof. apply run_result. vm_compute. exact I. Qed.

(** A config that is ready but lists no container. *)
Definition no_container_ic : InstrumentationConfig :=
  let ic := sample_ic [] ["cart"] in with_spec ic (with_overrides (ic_spec ic) [] "").

Lemma config_without_containers_panics :
  match updateInstrumentationConfigSpec sample_pw no_container_ic sample_provider sample_conf sample_state with
  | Panic => True | _ => False
  end.
Proof. vm_compute. exact I. Qed.

Lemma spec_update_outcome_witness : exists r s',
  updateInstrumentationConfigSpec sample_pw two_containers sample_provider sample_conf sample_state = Done (r, s')
  ∧ st_cluster s' = sample_store.
Proof.
  pose proof (spec_update_outcome sample_pw two_containers sample_provider sample_conf sample_state
    sample_provider_acyclic) as Hpost.
  destruct two_containers_run as (r & s' & Hrun & _). rewrite Hrun in Hpost.
  exists r, s'. split; [exact Hrun|exact (proj1 Hpost)].
Defined.

Lemma sample_rolled_back : exists r s',
  updateInstrumentationConfigSpec sample_pw (with_rollback two_containers true) sample_provider sample_conf
    sample_state = Done (r, s') ∧ (if r then False else True).
Proof. apply run_result. vm_compute. exact I. Qed.

Lemma rollback_keeps_agents_off_witness : exists ic' cond s',
  updateInstrumentationConfigSpec sample_pw (with_rollback two_containers true) sample_provider sample_conf
    sample_state = Done (inr (ic', cond), s')
  ∧ spec_injection_enabled (ic_spec ic') = false.
Proof.
  destruct sample_rolled_back as ([|[ic' cond]] & s' & E & Hr); [contradiction|].
  exists ic', cond, s'. split; [exact E|].
  apply (rollback_keeps_agents_off sample_pw (with_rollback two_containers true) ic' sample_provider
    sample_conf sample_state s' cond sample_provider_acyclic); [discriminate|exact sample_selector| | |exact E].
  - reflexivity.
  - reflexivity.
Defined.

Definition sample_resources : Resources :=
  mkResources (Some sample_group) None [] (mkHeap ∅ ∅) [] [] (DeploymentWorkload sample_deployment).

Lemma two_containers_named : details_named two_containers.
Proof.
  intros n d. unfold ic_RuntimeDetailsByContainer. simpl.
  rewrite !lookup_insert_Some, lookup_empty. naive_solver.
Qed.

Lemma agents_hash_order_independent_witness : exists d1 d2,
  @containers_loop _ order_forward _ _ (mkHeap ∅ ∅) sample_conf sample_provider sample_resources sample_pw
    two_containers (@entries order_forward two_containers) = Done d1
  ∧ @containers_loop _ order_backward _ _ (mkHeap ∅ ∅) sample_conf sample_provider sample_resources sample_pw
    two_containers (@entries order_backward two_containers) = Done d2
  ∧ containers_hash d1 = containers_hash d2.
Proof.
  destruct (@loop_decided _ _ _ sample_conf sample_provider sample_resources sample_pw two_containers
    order_forward (mkHeap ∅ ∅) (@entries order_forward two_containers) sample_provider_acyclic) as (d1 & E1 & _).
  destruct (@loop_decided _ _ _ sample_conf sample_provider sample_resources sample_pw two_containers
    order_backward (mkHeap ∅ ∅) (@entries order_backward two_containers) sample_provider_acyclic) as (d2 & E2 & _).
  exists d1, d2. split; [exact E1|split; [exact E2|]].
  exact (proj1 (agents_hash_order_independent sample_conf sample_provider sample_resources sample_pw two_containers
    order_forward order_backward _ _ d1 d2 order_forward_laws order_backward_laws sample_provider_acyclic
    two_containers_named E1 E2)).
Defined.
End SpecWitnesses.
