(* ===== verification/Reconcile.v ===== *)
(** * Reconciling workloads
    (instrumentor/controllers/agentenabled/sync.go, k8sutils/pkg/utils/config_util.go)

    One reconciliation computes the spec of a workload's config, stores it,
    rolls the workload out or back, and stores the status. *)

From S2P Require Import Prelude.
From S2P Require Import GoStrings.
From S2P Require Import GoSort.
From S2P Require Import K8s.
From S2P Require Import Status.
From S2P Require Import Workload.
From S2P Require Import Api.
From S2P Require Import GoLib.
From S2P Require Import Objects.
From S2P Require Import Client.
From S2P Require Import Distros.
From S2P Require Import ContainerAgent.
From S2P Require Import Backoff.
From S2P Require Import Limiter.
From S2P Require Import Rollout.
From S2P Require Import AgentEnabled.

(** ** The configuration (config_util.go) *)

Definition OdigosEffectiveConfigName := "effective-config".
Definition ErrOdigosEffectiveConfigNotFound : error := ENew "odigos effective config not found".
Definition zero_conf : OdigosConfiguration := mkConf [] None None None None "" "" None "" None no_webhook_conf.

Definition GetCurrentOdigosConfiguration `{Client} (c : Cluster) : error + OdigosConfiguration :=
  match GetConfigMap c OdigosEffectiveConfigName with
  | inl err => inl (if IsNotFound err then ErrOdigosEffectiveConfigNotFound else err)
  | inr data =>
      match data with
      | None => inr zero_conf
      | Some text => if decide (text = "") then inr zero_conf else yaml_Unmarshal text
      end
  end.

Section Reconcile.
Context `{GoSort} `{GoMapOrder} `{GoLibrary} `{GoVersion} `{Client} `{StatusConditions}.

(** ** One workload *)

Definition agent_enabled_condition (c : agentInjectedStatusCondition) : Condition :=
  mkCondition AgentEnabledType (inj_status c) (inj_reason c) (inj_message c).

(** From the stored spec on: the condition, the rollout, the status. *)
Definition finish_workload (pw : PodWorkload) (ic : InstrumentationConfig)
    (condition : agentInjectedStatusCondition) (conf : OdigosConfiguration) : M (Result * option error) :=
  let '(conditions, agentEnabledChanged) :=
    SetStatusCondition (st_conditions (ic_status ic)) (agent_enabled_condition condition) in
  '(rolloutResult, doErr, ic') ← Do (Some (with_conditions ic conditions)) pw conf;
  if rr_status_changed rolloutResult || agentEnabledChanged then
    updated ← write (fun c => UpdateICStatus c (default (with_conditions ic conditions) ic'));
    match updated with
    | inl err => mret (K8SUpdateErrorHandler err)
    | inr _ => mret (rr_result rolloutResult, doErr)
    end
  else mret (rr_result rolloutResult, doErr).

Definition reconcileWorkload (icName ns : string) (provider : Provider) (conf : OdigosConfiguration)
    : M (Result * option error) :=
  match ExtractWorkloadInfoFromRuntimeObjectName icName ns with
  | inl _ => mret (no_result, None)
  | inr pw =>
      got ← read (fun c => GetIC c ns icName);
      match got with
      | inl err =>
          if IsNotFound err then
            '(rolloutResult, doErr, _) ← Do None pw conf; mret (rr_result rolloutResult, doErr)
          else mret (no_result, Some err)
      | inr ic =>
          spec ← updateInstrumentationConfigSpec pw ic provider conf;
          match spec with
          | inl err => mret (no_result, Some err)
          | inr (ic, condition) =>
              stored ← write (fun c => UpdateIC c ic);
              match stored with
              | inl err => mret (K8SUpdateErrorHandler err)
              | inr ic => finish_workload pw ic condition conf
              end
          end
      end
  end.

(** ** All workloads *)

(** One result more in the aggregate: any immediate requeue, and the shortest
    wait. *)
Definition aggregate_result (acc res : Result) : Result :=
  if result_IsZero res then acc
  else if Requeue res then mkResult true (RequeueAfter acc)
  else if decide (RequeueAfter acc = 0%Z) then mkResult (Requeue acc) (RequeueAfter res)
  else if decide (RequeueAfter res < RequeueAfter acc)%Z then mkResult (Requeue acc) (RequeueAfter res)
  else acc.

Fixpoint reconcile_loop (provider : Provider) (conf : OdigosConfiguration) (items : list InstrumentationConfig)
    (acc : Result * option error) : M (Result * option error) :=
  match items with
  | [] => mret acc
  | ic :: items =>
      '(res, workloadErr) ← reconcileWorkload (ic_name ic) (ic_namespace ic) provider conf;
      reconcile_loop provider conf items (aggregate_result acc.1 res, errors_join acc.2 workloadErr)
  end.

Definition reconcileAll (provider : Provider) : M (Result * option error) :=
  items ← read ListICs;
  match items with
  | inl err => mret (no_result, Some err)
  | inr items =>
      conf ← read GetCurrentOdigosConfiguration;
      match conf with
      | inl err => mret (no_result, Some err)
      | inr conf => reconcile_loop provider conf items (no_result, None)
      end
  end.
End Reconcile.
