(* ===== verification/ReconcileProperties.v ===== *)
(** * Properties of the reconciliation

    Whatever fails on the way, the stored config stays safe: its injection
    flag agrees with its containers, and is off after a rollback. *)

From S2P Require Import Prelude.
From S2P Require Import GoStrings.
From S2P Require Import GoSort.
From S2P Require Import K8s.
From S2P Require Import Status.
From S2P Require Import Workload.
From S2P Require Import Api.
From S2P Require Import GoLib.
From S2P Require Import Objects.
From S2P Require Import Client.
From S2P Require Import Distros.
From S2P Require Import ContainerAgent.
From S2P Require Import Backoff.
From S2P Require Import Limiter.
From S2P Require Import RolloutStatus.
From S2P Require Import Rollout.
From S2P Require Import RolloutEffects.
From S2P Require Import AgentEnabled.
From S2P Require Import AgentDecision.
From S2P Require Import AgentEnabledProperties.
From S2P Require Import Reconcile.
From S2P Require Import Samples.
From S2P Require Import Store.

(** The flag that the pods webhook reads. *)
Definition spec_matches (s : InstrumentationConfigSpec) : Prop :=
  spec_injection_enabled s = existsb cac_enabled (spec_containers s).

Definition off_after_rollback (rolled_back : bool) (s : InstrumentationConfigSpec) : Prop :=
  rolled_back = true -> spec_injection_enabled s = false.

Definition config_safe (i : InstrumentationConfig) : Prop :=
  spec_matches (ic_spec i) ∧ off_after_rollback (st_rollback_occurred (ic_status i)) (ic_spec i).

Section ReconcileFacts.
Context `{GoSortLaws} `{GoMapOrderLaws} `{GoLibrary} `{GoVersion} `{Hclient : Client} `{!ClientLaws Hclient}
  `{StatusConditionsLaws}.

Definition stored_safe (c : Cluster) (ns n : string) : Prop :=
  forall i, GetIC c ns n = inr i -> config_safe i.

(** The config in memory may overwrite the stored status. *)
Definition may_store_status (c : Cluster) (ns n : string) (i : InstrumentationConfig) : Prop :=
  ic_namespace i = ns ∧ ic_name i = n
  ∧ forall st, GetIC c ns n = inr st ->
      config_safe st ∧ off_after_rollback (st_rollback_occurred (ic_status i)) (ic_spec st).

(** The config in memory is the stored one, but for conditions. *)
Definition in_step (c : Cluster) (ns n : string) (i : InstrumentationConfig) : Prop :=
  exists st, GetIC c ns n = inr st ∧ core st = core i ∧ config_safe st.

Lemma same_meta_key i i' :
  same_meta (ic_meta i) (ic_meta i') -> ic_namespace i' = ic_namespace i ∧ ic_name i' = ic_name i.
Proof. unfold ic_namespace, ic_name. intros (? & ? & _). by split. Qed.

Lemma in_step_status c ns n i : in_step c ns n i -> may_store_status c ns n i.
Proof.
  intros (st & Hst & Hcore & Hsafe). destruct (get_ic_name _ _ _ _ Hst) as [Hns Hn].
  injection Hcore as Hm Hs Hr. unfold ic_namespace, ic_name in *. rewrite Hm in Hns, Hn.
  split; [done|]. split; [done|]. intros st' Hst'. rewrite Hst in Hst'. injection Hst' as <-.
  split; [done|]. rewrite <-Hr. apply Hsafe.
Qed.

(** Storing a config whose spec is safe. *)
Lemma updated_in_step c i i' c' ns n :
  updated c i i' c' -> ic_namespace i = ns -> ic_name i = n -> spec_matches (ic_spec i) ->
  (forall old, GetIC c ns n = inr old -> off_after_rollback (st_rollback_occurred (ic_status old)) (ic_spec i)) ->
  in_step c' ns n i' ∧ ic_spec i' = ic_spec i
  ∧ exists old, GetIC c ns n = inr old ∧ st_rollback_occurred (ic_status i') = st_rollback_occurred (ic_status old).
Proof.
  intros (old & Hold & Hm & Hs & Hst & Hstored & _) <- <- Hmatch Hoff.
  destruct (same_meta_key _ _ Hm) as [Hns Hn]. unfold stored in Hstored. rewrite Hns, Hn in Hstored.
  split; [|split; [done|exists old; by rewrite Hst]].
  exists i'. split; [done|]. split; [done|]. unfold config_safe. rewrite Hs, Hst. split; [done|]. by apply Hoff.
Qed.

Lemma update_failed_safe c i e c' ns n :
  UpdateIC c i = (inl e, c') -> ic_namespace i = ns -> ic_name i = n -> spec_matches (ic_spec i) ->
  (forall old, GetIC c ns n = inr old -> off_after_rollback (st_rollback_occurred (ic_status old)) (ic_spec i)) ->
  stored_safe c ns n -> stored_safe c' ns n.
Proof.
  intros Hu Hns Hn Hmatch Hoff Hsafe st Hst. destruct (update_failed _ _ _ _ Hu) as [[Hget _]|[i' Hup]].
  - apply Hsafe. by rewrite <-Hget.
  - destruct (updated_in_step _ _ _ _ ns n Hup) as ((st' & Hst' & _ & Hs) & _); [done..|].
    rewrite Hst in Hst'. by injection Hst' as <-.
Qed.

(** Storing the status keeps the config safe, whether the write fails or not. *)
Lemma status_update_safe c i reply c' ns n :
  may_store_status c ns n i -> UpdateICStatus c i = (reply, c') ->
  forall st, GetIC c' ns n = inr st ->
    config_safe st ∧ off_after_rollback (st_rollback_occurred (ic_status i)) (ic_spec st).
Proof.
  intros (Hns & Hn & Hold) Hu st Hst.
  assert (unwritten c c' ∨ exists i', status_updated c i i' c') as [[Hget _]|(i' & old & Ho & Hm & Hs & Hst' & Hstored & _)].
  { destruct reply as [e|i']; [by apply update_status_failed in Hu|right; exists i'; by apply update_status_ok]. }
  - apply Hold. by rewrite <-Hget.
  - rewrite Hns, Hn in Ho. destruct (Hold _ Ho) as [[Hmatch _] Hoff].
    destruct (get_ic_name _ _ _ _ Ho) as [Hns' Hn'].
    destruct (same_meta_key _ _ Hm) as [Hns2 Hn2]. unfold stored in Hstored.
    rewrite Hns2, Hn2, Hns', Hn', Hst in Hstored. injection Hstored as <-.
    unfold config_safe. rewrite Hs, Hst'. done.
Qed.

Lemma restarted_configs obj t c err c' : restarted obj t c err c' -> GetIC c' = GetIC c.
Proof. unfold restarted. destruct (restart_patch obj t); [apply patch_configs|by intros [-> _]]. Qed.

Lemma may_store_get c c' ns n i : GetIC c' = GetIC c -> may_store_status c ns n i -> may_store_status c' ns n i.
Proof. unfold may_store_status. by intros ->. Qed.

Lemma may_store_core c ns n i i' : core i' = core i -> may_store_status c ns n i -> may_store_status c ns n i'.
Proof. unfold may_store_status, ic_namespace, ic_name. by intros [= -> _ ->]. Qed.

Lemma disabled_matches reason i : spec_matches (ic_spec (disable_agents reason i)).
Proof. unfold spec_matches. simpl. induction (spec_containers (ic_spec i)); done. Qed.

(** A rollback: the stored config has the injection off before the flag is set. *)
Lemma rollback_may_store pw obj info now i c l r err i' c' l' ns n :
  in_step c ns n i -> spec_injection_enabled (ic_spec i) = true ->
  rolled_back pw obj info now i c l r err i' c' l' -> may_store_status c' ns n i'.
Proof.
  intros Hstep Hen Hback. pose proof (in_step_status _ _ _ _ Hstep) as (Hns & Hn & _).
  destruct Hstep as (st & Hst & Hcore & Hsafe).
  assert (Hroll : st_rollback_occurred (ic_status i) = false).
  { injection Hcore as _ Hs Hr. destruct Hsafe as [_ Hoff]. rewrite Hr, Hs in Hoff.
    destruct (st_rollback_occurred (ic_status i)); [|done]. by rewrite Hoff in Hen. }
  assert (Hup : forall i1 c1, updated c (disable_agents (bo_reason info) i) i1 c1 ->
            in_step c1 ns n i1 ∧ spec_injection_enabled (ic_spec i1) = false).
  { intros i1 c1 Hu. destruct (updated_in_step _ _ _ _ ns n Hu) as (? & Hs & _); try done;
      [apply disabled_matches|]. split; [done|]. by rewrite Hs. }
  assert (Hdone : forall i1 c1 e c2, UpdateIC c (disable_agents (bo_reason info) i) = (inr i1, c1) ->
            restarted obj now c1 e c2 -> may_store_status c2 ns n (with_rollback i1 true)).
  { intros i1 c1 e c2 Hu Hr. apply (may_store_get c1); [by eapply restarted_configs|].
    apply update_ok, Hup in Hu as [Hstep Hoff]. destruct (in_step_status _ _ _ _ Hstep) as (Hns1 & Hn1 & Hall).
    split; [done|]. split; [done|]. intros st' Hst'. split; [by apply Hall|]. intros _.
    destruct Hstep as (st1 & Hst1 & Hc1 & _). rewrite Hst' in Hst1. injection Hst1 as <-.
    by rewrite (core_spec _ _ Hc1). }
  inversion Hback as [e c1 Hu|i1 c1 e c2 Hu Hr|i1 c1 c2 i2 Hu Hr Hc]; subst.
  - split; [done|]. split; [done|]. intros st' Hst'. split; [|intros E; change (st_rollback_occurred (ic_status i) = true) in E; congruence].
    revert st' Hst'. apply (update_failed_safe _ _ _ _ _ _ Hu); [done|done|apply disabled_matches|done|].
    intros st' Hst'. rewrite Hst in Hst'. by injection Hst' as <-.
  - by eapply Hdone.
  - eapply may_store_core; [exact Hc|]. by eapply Hdone.
Qed.

Lemma recover_may_store c i i1 reply c1 ic' c' ns n :
  in_step c ns n i -> recoverFromRollback i = Some i1 -> UpdateIC c i1 = (reply, c1) ->
  match reply with
  | inl _ => c' = c1 ∧ ic' = Some i1
  | inr i2 => exists reply', UpdateICStatus c1 (with_rollback i2 false) = (reply', c')
      ∧ ic' = Some (match reply' with inr i3 => i3 | inl _ => with_rollback i2 false end)
  end ->
  exists i', ic' = Some i' ∧ may_store_status c' ns n i'.
Proof.
  intros Hstep Hrec Hu Hc'. pose proof (in_step_status _ _ _ _ Hstep) as (Hns & Hn & _).
  destruct Hstep as (st & Hst & Hcore & Hsafe). injection Hcore as _ Hs Hr.
  assert (Hi1 : ic_namespace i1 = ns ∧ ic_name i1 = n ∧ ic_spec i1 = ic_spec i ∧ ic_status i1 = ic_status i).
  { clear -Hrec Hns Hn. revert Hrec. unfold recoverFromRollback. repeat case_match; try done. by intros [= <-]. }
  destruct Hi1 as (Hns1 & Hn1 & Hs1 & Hr1).
  assert (Hmatch : spec_matches (ic_spec i1)) by (rewrite Hs1, <-Hs; apply Hsafe).
  assert (Hoff : forall old, GetIC c ns n = inr old -> off_after_rollback (st_rollback_occurred (ic_status old)) (ic_spec i1)).
  { intros old Ho. rewrite Hst in Ho. injection Ho as <-. rewrite Hs1, <-Hs. apply Hsafe. }
  destruct reply as [e|i2].
  - destruct Hc' as [-> ->]. exists i1. split; [done|]. split; [done|]. split; [done|].
    intros st' Hst'. destruct (update_failed _ _ _ _ Hu) as [[Hget _]|[i' Hup]].
    + rewrite Hget, Hst in Hst'. injection Hst' as <-. split; [done|]. rewrite Hr1, <-Hr. apply Hsafe.
    + destruct (updated_in_step _ _ _ _ ns n Hup) as ((st1 & Hst1 & Hc1 & Hs') & Hsp & _); [done..|].
      rewrite Hst' in Hst1. injection Hst1 as <-. split; [done|].
      rewrite (core_spec _ _ Hc1), Hsp, Hs1, Hr1, <-Hr, <-Hs. apply Hsafe.
  - destruct Hc' as (reply' & Hu' & ->). apply update_ok in Hu.
    destruct (updated_in_step _ _ _ _ ns n Hu) as (Hstep2 & _); [done..|].
    pose proof (in_step_status _ _ _ _ Hstep2) as (Hns2 & Hn2 & Hall).
    assert (Hmay : may_store_status c1 ns n (with_rollback i2 false)).
    { split; [done|]. split; [done|]. intros st' Hst'. split; [by apply Hall|done]. }
    pose proof (status_update_safe _ _ _ _ _ _ Hmay Hu') as Hafter.
    eexists. split; [done|]. destruct reply' as [e|i3]; [by split; [|split; [|]]|].
    destruct (update_status_ok _ _ _ _ Hu') as (old & Ho & Hm & _ & Hst3 & Hstored & _).
    destruct (get_ic_name _ _ _ _ Ho) as [Hns' Hn']. destruct (same_meta_key _ _ Hm) as [Hns3 Hn3].
    split; [|split].
    + by rewrite Hns3, Hns'.
    + by rewrite Hn3, Hn'.
    + rewrite Hst3. apply Hafter.
Qed.

Lemma effect_may_store pw auto_off options obj i c l k r err ic' c' l' ns n :
  in_step c ns n i -> do_effect pw auto_off options obj (Some i) c l k r err ic' c' l' ->
  exists i', ic' = Some i' ∧ may_store_status c' ns n i'.
Proof.
  intros Hstep Heff. pose proof (in_step_status _ _ _ _ Hstep) as Hmay.
  inversion Heff as [? ? ic2 ? Hl Hcore|? ? E|i2 i1 reply c1 ? ? ? ? E Hrec Hu Hc'
    |i2 i0 info ? ? i3 ? ? E _ _ _ _ Hi0 Hdue Hback|i2 n' ? i3 ? E _ _ _ _ _ _ _ Hr Hcore]; subst.
  - destruct ic' as [i'|]; simpl in Hcore; [|done]. injection Hcore as Hm Hs Hr.
    exists i'. split; [done|]. eapply may_store_core; [|exact Hmay]. unfold core. congruence.
  - done.
  - injection E as <-. by eapply recover_may_store.
  - injection E as <-. eexists. split; [done|]. eapply rollback_may_store; [| |exact Hback].
    + destruct Hi0 as [->| ->]; done.
    + apply (rd_enabled _ _ _ _ _ _ _ Hdue).
  - injection E as <-. eexists. split; [done|]. eapply may_store_get; [by eapply restarted_configs|].
    by eapply may_store_core.
Qed.

Lemma do_may_store i pw conf s ns n :
  selector_present (st_cluster s) pw -> in_step (st_cluster s) ns n i ->
  wp (Do (Some i) pw conf) (fun o s' => exists i', o.2 = Some i' ∧ may_store_status (st_cluster s') ns n i') s.
Proof.
  intros Hsel Hstep. eapply wp_mono; [by apply do_run|]. intros o s' Hspec. unfold do_spec in Hspec.
  destruct (getRolloutAndRollbackOptions conf) as [e|[auto_off options]].
  { destruct Hspec as [-> ->]. exists i. split; [done|]. by apply in_step_status. }
  destruct (rollout_object (st_cluster s) pw) as [e|obj].
  { destruct Hspec as [-> ->]. exists i. split; [done|]. by apply in_step_status. }
  destruct Hspec as [Heff _]. by eapply effect_may_store.
Qed.

Lemma may_store_safe c ns n i : may_store_status c ns n i -> stored_safe c ns n.
Proof. intros (_ & _ & Hall) st Hst. by apply Hall. Qed.

Lemma finish_run i pw cond conf s ns n :
  selector_present (st_cluster s) pw -> in_step (st_cluster s) ns n i ->
  wp (finish_workload pw i cond conf) (fun _ s' => stored_safe (st_cluster s') ns n) s.
Proof.
  intros Hsel Hstep. unfold finish_workload. destruct (SetStatusCondition _ _) as [conditions changed].
  wp_step. eapply wp_mono; [apply (do_may_store (with_conditions i conditions) pw conf s ns n); [done|exact Hstep]|].
  intros [[r err] ic'] s' (i' & Hi' & Hmay). simpl in Hi'. subst ic'.
  destruct (rr_status_changed r || changed); [|wp_step; by eapply may_store_safe].
  wp_step. wp_step. assert (Hafter : stored_safe c ns n).
  { intros st Hst. by eapply status_update_safe. }
  by destruct reply; wp_step.
Qed.

(** The spec that the update leaves is safe if the stored one was. *)
Lemma outcome_safe c pw res ic ic' cond :
  config_safe ic -> spec_outcome c pw res ic ic' cond ->
  spec_matches (ic_spec ic') ∧ off_after_rollback (st_rollback_occurred (ic_status ic)) (ic_spec ic')
  ∧ ic_meta ic' = ic_meta ic.
Proof.
  intros [Hm Hoff] [cond' _ _|t reason message _ _|sp cond' _ _ Hcons Hroll _ _ _].
  - by split_and!.
  - by split_and!.
  - split; [apply (sc_injection _ Hcons)|done].
Qed.

Lemma selector_same c c' pw : same_inputs c c' -> selector_present c pw -> selector_present c' pw.
Proof. unfold selector_present. by intros [-> _]. Qed.

(** C2: for distributions whose fallbacks form no cycle, a workload whose
    selector is there and a config that lists its containers (an Argo rollout
    without a selector and a ready config without containers panic,
    [argo_without_selector_panics], [config_without_containers_panics]) a
    reconciliation returns and does not panic; and whatever write fails on
    the way - even one that is made but whose reply is lost - the stored config
    stays safe: its injection flag is on exactly when one of its containers is
    enabled, and off once a rollback is recorded. *)
Theorem reconcile_keeps_config_safe (icName ns : string) (pw : PodWorkload) (provider : Provider)
    (conf : OdigosConfiguration) (s : St) :
  ExtractWorkloadInfoFromRuntimeObjectName icName ns = inr pw ->
  acyclic (p_getter provider) -> selector_present (st_cluster s) pw ->
  (forall ic, GetIC (st_cluster s) ns icName = inr ic -> spec_overrides (ic_spec ic) <> [] ∧ config_safe ic) ->
  exists r s', reconcileWorkload icName ns provider conf s = Done (r, s') ∧ stored_safe (st_cluster s') ns icName.
Proof.
  intros Hpw Hac Hsel Hic.
  assert (Hsafe : stored_safe (st_cluster s) ns icName) by (intros i Hi; by apply Hic).
  change (wp (reconcileWorkload icName ns provider conf) (fun _ s' => stored_safe (st_cluster s') ns icName) s).
  unfold reconcileWorkload. rewrite Hpw. wp_step. wp_step.
  destruct (GetIC (st_cluster s) ns icName) as [err|ic] eqn:Hget.
  { case_match; [|by wp_step]. wp_step. eapply wp_mono; [by apply do_run|]. intros o s' Hspec.
    assert (Hsame : GetIC (st_cluster s') = GetIC (st_cluster s)).
    { unfold do_spec in Hspec. destruct (getRolloutAndRollbackOptions conf) as [e|[auto_off options]]; [by destruct Hspec as [_ ->]|].
      destruct (rollout_object (st_cluster s) pw) as [e|obj]; [by destruct Hspec as [_ ->]|].
      destruct Hspec as [Heff _]. unfold has_effect in Heff.
      inversion Heff; subst; try done. by eapply restarted_configs. }
    destruct o as [[r e] ic']. wp_step. unfold stored_safe. by rewrite Hsame. }
  destruct (Hic ic eq_refl) as [Hne Hs]. wp_step.
  destruct (spec_update_run pw ic provider conf s Hac Hne Hsel) as (r & n & Hrun & Hout).
  eexists _, _. split; [exact Hrun|]. destruct r as [err|[ic1 cond]]; [by wp_step|].
  destruct Hout as (res & _ & Hout). destruct (outcome_safe _ _ _ _ _ _ Hs Hout) as (Hm & Hoff & Hmeta).
  destruct (get_ic_name _ _ _ _ Hget) as [Hns Hn]. unfold ic_namespace, ic_name in Hns, Hn. rewrite <-Hmeta in Hns, Hn.
  assert (Hold : forall old, GetIC (st_cluster s) ns icName = inr old ->
            off_after_rollback (st_rollback_occurred (ic_status old)) (ic_spec ic1)).
  { intros old Ho. rewrite Hget in Ho. by injection Ho as <-. }
  wp_step. wp_step. destruct reply as [err|ic2].
  { wp_step. by eapply update_failed_safe. }
  apply update_ok in Hreply. destruct (updated_in_step _ _ _ _ ns icName Hreply) as (Hstep & _); [done..|].
  apply finish_run; [|done]. destruct Hreply as (? & _ & _ & _ & _ & _ & Hin). by eapply selector_same.
Qed.
End ReconcileFacts.

(** ** The aggregate of the results *)

Definition wait_of (r : Result) : Z := if Requeue r then 0 else RequeueAfter r.

(** The shortest positive wait, or zero when there is none. *)
Definition shortest (w : Z) (l : list Result) : Prop :=
  (w = 0 ∧ forall r, r ∈ l -> wait_of r = 0)%Z
  ∨ (0 < w ∧ (exists r, r ∈ l ∧ wait_of r = w) ∧ forall r, r ∈ l -> 0 < wait_of r -> w <= wait_of r)%Z.

Lemma aggregate_step_spec acc r l :
  (0 <= wait_of r)%Z -> shortest (RequeueAfter acc) l ->
  Requeue (aggregate_result acc r) = Requeue acc || Requeue r
  ∧ shortest (RequeueAfter (aggregate_result acc r)) (l ++ [r]).
Proof.
  unfold shortest, aggregate_result, result_IsZero, wait_of. intros Hr Hs.
  assert (Hin : forall x, x ∈ l ++ [r] <-> x ∈ l ∨ x = r) by set_solver.
  destruct (Requeue r) eqn:Hq; simpl.
  - rewrite orb_true_r. split; [done|]. destruct Hs as [[-> Hz]|(Hp & (x & Hx & Hw) & Hmin)].
    + left. split; [done|]. intros x [Hx| ->]%Hin; [by apply Hz|by rewrite Hq].
    + right. split; [done|]. split; [exists x; rewrite Hin; auto|].
      intros y [Hy| ->]%Hin; [by apply Hmin|rewrite Hq; lia].
  - rewrite orb_false_r. case_bool_decide as Hz; simpl.
    { split; [done|]. destruct Hs as [[-> Hall]|(Hp & (x & Hx & Hw) & Hmin)].
      + left. split; [done|]. intros x [Hx| ->]%Hin; [by apply Hall|by rewrite Hq].
      + right. split; [done|]. split; [exists x; rewrite Hin; auto|].
        intros y [Hy| ->]%Hin; [by apply Hmin|rewrite Hq; lia]. }
    destruct Hs as [[-> Hall]|(Hp & (x & Hx & Hw) & Hmin)].
    + simpl. split; [done|]. right. split; [lia|]. split; [exists r; rewrite Hin, Hq; auto|].
      intros y [Hy| ->]%Hin; [rewrite (Hall y Hy); lia|rewrite Hq; lia].
    + rewrite decide_False by lia. case_decide; simpl; (split; [done|]); right.
      * split; [lia|]. split; [exists r; rewrite Hin, Hq; auto|].
        intros y [Hy| ->]%Hin Hpos; [specialize (Hmin y Hy Hpos); lia|rewrite Hq; lia].
      * split; [done|]. split; [exists x; rewrite Hin; auto|].
        intros y [Hy| ->]%Hin Hpos; [by apply Hmin|rewrite Hq in *; lia].
Qed.

(** The result of reconciling all workloads asks for an immediate requeue
    exactly when one of them does, and otherwise waits for the shortest of
    their waits, so that no workload is looked at later than it asked for. *)
Theorem aggregate_shortest_wait (l : list Result) :
  (forall r, r ∈ l -> 0 <= wait_of r)%Z ->
  let agg := foldl aggregate_result no_result l in
  Requeue agg = existsb Requeue l ∧ shortest (RequeueAfter agg) l.
Proof.
  cbv zeta. induction l as [|r l IH] using rev_ind; intros Hl.
  { split; [done|]. left. split; [done|]. intros r []%not_elem_of_nil. }
  rewrite foldl_app, existsb_app. simpl. rewrite orb_false_r.
  destruct IH as [Hq Hs]; [intros x Hx; apply Hl; set_solver|].
  destruct (aggregate_step_spec (foldl aggregate_result no_result l) r l) as [-> Hs']; [apply Hl; set_solver|done|].
  by rewrite Hq.
Qed.

(** ** Witnesses *)

Section ReconcileWitnesses.
#[local] Existing Instances sample_library sample_versions order_forward order_forward_laws.

Definition reconcile_state : @St store_client := mkSt (with_ic sample_store two_containers) (Some ∅) 0.

Lemma reconcile_keeps_config_safe_witness : exists r s',
  reconcileWorkload "deployment-cart" "shop" sample_provider sample_conf reconcile_state = Done (r, s')
  ∧ stored_safe (st_cluster s') "shop" "deployment-cart".
Proof.
  apply (reconcile_keeps_config_safe "deployment-cart" "shop" sample_pw sample_provider sample_conf reconcile_state).
  - reflexivity.
  - exact sample_provider_acyclic.
  - intros obj [= <-] r. discriminate.
  - intros ic. simpl. unfold store_get_ic, with_ic, set_ic. simpl. rewrite lookup_partial_alter_eq.
    rewrite decide_True by (split; reflexivity). intros [= <-]. split; [discriminate|]. split; [reflexivity|].
    intros ?. reflexivity.
Defined.

Lemma aggregate_shortest_wait_witness :
  shortest (RequeueAfter (foldl aggregate_result no_result
    [requeue_after (10 * Second); no_result; requeue_after (4 * Second)])) 
    [requeue_after (10 * Second); no_result; requeue_after (4 * Second)].
Proof.
  apply (aggregate_shortest_wait [requeue_after (10 * Second); no_result; requeue_after (4 * Second)]).
  intros r [->|[->|[->|[]%not_elem_of_nil]%elem_of_cons]%elem_of_cons]%elem_of_cons; by vm_compute.
Defined.
End ReconcileWitnesses.
