(* ===== verification/PodOwner.v ===== *)
(** * Which workload does a pod belong to?  (k8sutils/pkg/workload/ownerreference.go)

    Replica sets, replication controllers and jobs carry a generated suffix
    after the last hyphen; the other owners are workloads themselves. *)

From Stdlib Require Import Ascii.
From S2P Require Import Prelude.
From S2P Require Import GoStrings.
From S2P Require Import K8s.
From S2P Require Import Workload.
From S2P Require Import Objects.

(** [argorolloutsv1alpha1.DefaultRolloutUniqueLabelKey]. *)
Definition DefaultRolloutUniqueLabelKey := "rollouts-pod-template-hash".

Definition IsErrorKindNotSupported (err : error) : bool := bool_decide (err = EKindNotSupported).
Definition IgnoreErrorKindNotSupported (err : error) : option error :=
  if IsErrorKindNotSupported err then None else Some err.

Definition extractInfoWithSuffix (fullName kind : string) : error + (string * string) :=
  match split_last "-"%char fullName with
  | None => inl (ENew (kind +:+ " name '" +:+ fullName +:+ "' does not contain a hyphen"))
  | Some (base, _) => inr (base, kind)
  end.

Definition extractInfoWithoutSuffix (ownerName ownerKind : string) : error + (string * string) :=
  let workloadKind := WorkloadKindFromString ownerKind in
  if decide (workloadKind = "") then inl EKindNotSupported else inr (ownerName, workloadKind).

Definition determineReplicaSetOwner (ownerName : string) (pod : Pod) : error + (string * string) :=
  match om_labels (pod_meta pod) !! DefaultRolloutUniqueLabelKey with
  | Some _ => extractInfoWithSuffix ownerName WorkloadKindArgoRollout
  | None => extractInfoWithSuffix ownerName WorkloadKindDeployment
  end.

Definition GetWorkloadNameAndKind (ownerName ownerKind : string) (pod : Pod) : error + (string * string) :=
  switch ownerKind
    [("ReplicaSet", determineReplicaSetOwner ownerName pod);
     ("ReplicationController", extractInfoWithSuffix ownerName WorkloadKindDeploymentConfig);
     ("Job", extractInfoWithSuffix ownerName WorkloadKindCronJob);
     ("Node",
       if IsStaticPod pod then inr (om_name (pod_meta pod), WorkloadKindStaticPod)
       else inl (ENew "node owned pod which is not static, currently not supported as a workload"))]
    (extractInfoWithoutSuffix ownerName ownerKind).

Definition GetWorkloadFromOwnerReference (ref : OwnerReference) (pod : Pod) : error + (string * string) :=
  GetWorkloadNameAndKind (or_name ref) (or_kind ref) pod.

(** [errors.Is(err, ErrKindNotSupported)] on the errors above, which are
    not wrapped. *)
Fixpoint PodWorkloadObject_loop (owners : list OwnerReference) (pod : Pod)
    : error + option PodWorkload :=
  match owners with
  | [] => inr None
  | owner :: owners =>
      match GetWorkloadFromOwnerReference owner pod with
      | inl err =>
          if IsErrorKindNotSupported err then PodWorkloadObject_loop owners pod
          else match IgnoreErrorKindNotSupported err with
               | Some err => inl err
               | None => inr None
               end
      | inr (workloadName, workloadKind) =>
          inr (Some (mkPodWorkload workloadName (om_namespace (pod_meta pod)) workloadKind))
      end
  end.

Definition PodWorkloadObject (pod : Pod) : error + option PodWorkload :=
  PodWorkloadObject_loop (om_owners (pod_meta pod)) pod.

Definition PodWorkloadObjectOrError (pod : Pod) : error + PodWorkload :=
  match PodWorkloadObject pod with
  | inl err => inl err
  | inr None =>
      inl (ENew ("workload not found for pod " +:+ om_namespace (pod_meta pod)
                 +:+ "/" +:+ om_name (pod_meta pod)))
  | inr (Some pw) => inr pw
  end.

(** ** Facts *)

Lemma extract_suffix_app name suffix kind :
  has_byte "-"%char suffix = false ->
  extractInfoWithSuffix (name +:+ "-" +:+ suffix) kind = inr (name, kind).
Proof.
  intros H. unfold extractInfoWithSuffix.
  change ("-" +:+ suffix) with (String "-"%char suffix). by rewrite split_last_app.
Qed.

(** The workload kind behind a generated owner of a pod. *)
Definition generated_owner (pod : Pod) (kind : string) : option string :=
  switch kind
    [("ReplicaSet", Some (if bool_decide (is_Some (om_labels (pod_meta pod) !! DefaultRolloutUniqueLabelKey))
                          then WorkloadKindArgoRollout else WorkloadKindDeployment));
     ("ReplicationController", Some WorkloadKindDeploymentConfig); ("Job", Some WorkloadKindCronJob)]
    None.

Lemma generated_owner_resolved pod ref name suffix kind :
  or_name ref = name +:+ "-" +:+ suffix -> has_byte "-"%char suffix = false ->
  generated_owner pod (or_kind ref) = Some kind ->
  GetWorkloadFromOwnerReference ref pod = inr (name, kind).
Proof.
  intros Hname Hs Hk. unfold GetWorkloadFromOwnerReference, GetWorkloadNameAndKind, determineReplicaSetOwner.
  rewrite Hname. unfold generated_owner in Hk. simpl in *. revert Hk.
  repeat case_decide; try done; intros [= <-].
  - destruct (om_labels (pod_meta pod) !! _); by rewrite extract_suffix_app.
  - by rewrite extract_suffix_app.
  - by rewrite extract_suffix_app.
Qed.

(** ** Properties *)

(** A pod belongs to the workload behind its first owner of a supported
    kind: the generated suffix after the last hyphen is removed whatever
    hyphens the workload's own name has, a replica set of an Argo rollout is
    told from one of a deployment by the pod's label, and owners of other
    kinds before it are skipped. *)
Theorem pod_owner_resolved (pod : Pod) (pre rest : list OwnerReference) (ref : OwnerReference)
    (name suffix kind : string) :
  om_owners (pod_meta pod) = pre ++ ref :: rest ->
  (forall r, r ∈ pre -> GetWorkloadFromOwnerReference r pod = inl EKindNotSupported) ->
  or_name ref = name +:+ "-" +:+ suffix -> has_byte "-"%char suffix = false ->
  generated_owner pod (or_kind ref) = Some kind ->
  PodWorkloadObject pod = inr (Some (mkPodWorkload name (om_namespace (pod_meta pod)) kind)).
Proof.
  intros Ho Hpre Hname Hs Hk. unfold PodWorkloadObject. rewrite Ho. clear Ho.
  induction pre as [|r pre IH]; simpl.
  - by rewrite (generated_owner_resolved _ _ _ _ _ Hname Hs Hk).
  - rewrite (Hpre r) by left. apply IH. intros r' Hr'. apply Hpre. by right.
Qed.

Definition owned_pod : Pod :=
  mkPod (mkObjectMeta "" "my-cart-5d9f-x" "shop" ∅ ∅
           [mkOwnerReference "Widget" "w" "" None; mkOwnerReference "ReplicaSet" "my-cart-5d9f" "" (Some true)] 1 None)
    "uid" "node" (mkPodSpec [] [] [] [] None) true PodRunning None [] [].

Lemma pod_owner_resolved_witness :
  PodWorkloadObject owned_pod = inr (Some (mkPodWorkload "my-cart" "shop" "Deployment")).
Proof.
  apply (pod_owner_resolved owned_pod [mkOwnerReference "Widget" "w" "" None] []
    (mkOwnerReference "ReplicaSet" "my-cart-5d9f" "" (Some true)) "my-cart" "5d9f" "Deployment"); try reflexivity.
  intros r Hr. apply elem_of_cons in Hr as [->|Hr]; [reflexivity|]. by apply not_elem_of_nil in Hr.
Defined.
