(* ===== verification/PodEnv.v ===== *)
(** * Environment variables of an instrumented container
    (instrumentor/controllers/agentenabled/podswebhook: env.go, otelresource.go;
    common/opamp, k8sutils/pkg/service, k8sutils/pkg/feature)

    Each function appends variables to a container of the admitted pod and
    keeps the set of names that are taken; a name that is taken is never
    injected again. *)

From S2P Require Import Prelude.
From S2P Require Import GoStrings.
From S2P Require Import K8s.
From S2P Require Import Workload.
From S2P Require Import Api.
From S2P Require Import GoLib.
From S2P Require Import Objects.
From S2P Require Import Client.

(** ** Names (api/k8sconsts, common/consts) *)

Definition OdigosAgentsDirectory := "/var/odigos".
Definition OdigosOpampUnixSocketPath := "/var/odigos/exchange/exchange.sock".
Definition OpampUnixSocketEnvName := "ODIGOS_OPAMP_UNIX_SOCKET".
Definition OpampServerHostEnvName := "ODIGOS_OPAMP_SERVER_HOST".
Definition OtelExporterEndpointEnvName := "OTEL_EXPORTER_OTLP_ENDPOINT".
Definition OdigosEnvVarNamespace := "ODIGOS_WORKLOAD_NAMESPACE".
Definition OdigosEnvVarContainerName := "ODIGOS_CONTAINER_NAME".
Definition OdigosEnvVarPodName := "ODIGOS_POD_NAME".
Definition OdigosEnvVarDistroName := "ODIGOS_DISTRO_NAME".
Definition NodeIPEnvVar := "NODE_IP".
Definition otelServiceNameEnvVarName := "OTEL_SERVICE_NAME".
Definition otelResourceAttributesEnvVarName := "OTEL_RESOURCE_ATTRIBUTES".
Definition odigosResourceAttributesEnvVarName := "ODIGOS_RESOURCE_ATTRIBUTES".

Definition K8sVirtualDeviceMountMethod := "k8s-virtual-device".
Definition K8sHostPathMountMethod := "k8s-host-path".
Definition K8sInitContainerMountMethod := "k8s-init-container".
Definition K8sCsiDriverMountMethod := "k8s-csi-driver".

(** ** Libraries *)

(** k8s.io/apimachinery/pkg/util/version, and the version of the cluster
    once it was detected. *)
Class KubeVersions := {
  KVersion : Type;
  AtLeast : KVersion -> KVersion -> bool;
  version_MustParse : string -> KVersion;
  feature_k8sVersion : option KVersion
}.

(** What the webhook serializes for an agent. *)
Inductive AgentJson :=
| JSpanMetrics (c : AgentSpanMetricsConfig)
| JUrlTemplatization (c : UrlTemplatizationConfig)
| JHeadSampling (c : HeadSamplingConfig)
| JSpanRenamer (c : list SpanRenamerScopeRules)
| JCustomInstrumentations (c : CustomInstrumentations)
| JPayloadCollection (c : option PayloadCollection).

(** [json.Marshal], and the execution of a parsed [text/template] on a map of
    parameters. *)
Class WebhookLibrary := {
  json_Marshal : AgentJson -> error + string;
  template_Execute : string -> gmap string string -> error + string
}.

(** ** Features and endpoints *)

Section Features.
Context `{KubeVersions}.

Record featureSupport := mkFeature { alphaVersion : string; betaVersion : string; gaVersion : string }.
Inductive maturityLevel := Alpha | Beta | GA.

Definition isEnabled (fs : featureSupport) (ml : maturityLevel) : bool :=
  match feature_k8sVersion with
  | None => false
  | Some k8sVersion =>
      let supported v := if decide (v = "") then false else AtLeast k8sVersion (version_MustParse v) in
      match ml with
      | Alpha => supported (alphaVersion fs)
      | Beta => supported (betaVersion fs)
      | GA => supported (gaVersion fs)
      end
  end.

Definition serviceInternalTrafficPolicy : featureSupport := mkFeature "1.21.0" "1.22.0" "1.26.0".
Definition ServiceInternalTrafficPolicy (ml : maturityLevel) : bool := isEnabled serviceInternalTrafficPolicy ml.

Context `{Client}.

Definition LocalTrafficOTLPHttpDataCollectionEndpoint (nodeIP : string) : string :=
  if ServiceInternalTrafficPolicy GA then
    "http://odigos-data-collection-local-traffic." +:+ GetCurrentNamespace +:+ ":4318"
  else "http://" +:+ nodeIP +:+ ":4318".

Definition LocalTrafficOpAmpOdigletEndpoint (nodeIP : string) : string :=
  if ServiceInternalTrafficPolicy GA then "odiglet-local." +:+ GetCurrentNamespace +:+ ":4320"
  else nodeIP +:+ ":4320".
End Features.

(** ** OpAMP transport (common/opamp/transport.go) *)

Definition OpAmpTransportHTTP := "http".
Definition OpAmpTransportUnix := "unix".
Definition OpAmpTransportNone := "none".

Definition isTransportUsable (t mountMethod : string) : bool :=
  switch t
    [(OpAmpTransportHTTP, true);
     (OpAmpTransportUnix, negb (bool_decide (mountMethod = K8sInitContainerMountMethod)))]
    false.

Definition ResolveTransport (opAmpClientEnvironments : bool) (supported : list string) (mountMethod : string)
    : string :=
  if negb opAmpClientEnvironments then OpAmpTransportNone
  else
    let supported := match supported with [] => [OpAmpTransportHTTP] | _ => supported end in
    default OpAmpTransportNone (first_match (fun t => isTransportUsable t mountMethod) supported).

(** ** Injection of one variable *)

Abbreviation EnvVarNamesMap := (gset string).
(** The names that are taken, and the container. *)
Definition EnvState : Type := EnvVarNamesMap * Container.

Definition GetEnvVarNamesSet (c : Container) : EnvVarNamesMap := list_to_set (pe_name <$> c_env c).

Definition inject_env (v : PodEnvVar) (st : EnvState) : EnvState :=
  if decide (pe_name v ∈ st.1) then st
  else ({[ pe_name v ]} ∪ st.1, with_env st.2 (c_env st.2 ++ [v])).

Definition injectEnvVarObjectFieldRefToPodContainer (envVarName envVarRef : string) : EnvState -> EnvState :=
  inject_env (mkPodEnv envVarName "" (Some (FieldRef envVarRef))).

Definition InjectConstEnvVarToPodContainer (envVarName envVarValue : string) : EnvState -> EnvState :=
  inject_env (mkPodEnv envVarName envVarValue None).

Definition injectNodeIpEnvVar : EnvState -> EnvState :=
  injectEnvVarObjectFieldRefToPodContainer NodeIPEnvVar "status.hostIP".

Definition InjectOdigosK8sEnvVars (distroName ns : string) (st : EnvState) : EnvState :=
  let st := InjectConstEnvVarToPodContainer OdigosEnvVarContainerName (c_name st.2) st in
  let st := InjectConstEnvVarToPodContainer OdigosEnvVarDistroName distroName st in
  let st := injectEnvVarObjectFieldRefToPodContainer OdigosEnvVarPodName "metadata.name" st in
  InjectConstEnvVarToPodContainer OdigosEnvVarNamespace ns st.

Definition InjectOpampUnixSocketEnvVar : EnvState -> EnvState :=
  InjectConstEnvVarToPodContainer OpampUnixSocketEnvName OdigosOpampUnixSocketPath.

Definition signalOtlpExporterEnvValue (enabled : bool) : string := if enabled then "otlp" else "none".

Definition InjectSignalsAsStaticOtelEnvVars (tracesEnabled metricsEnabled logsEnabled : bool) (st : EnvState)
    : EnvState :=
  let st := InjectConstEnvVarToPodContainer "OTEL_LOGS_EXPORTER" (signalOtlpExporterEnvValue logsEnabled) st in
  let st := InjectConstEnvVarToPodContainer "OTEL_METRICS_EXPORTER" (signalOtlpExporterEnvValue metricsEnabled) st in
  InjectConstEnvVarToPodContainer "OTEL_TRACES_EXPORTER" (signalOtlpExporterEnvValue tracesEnabled) st.

Definition InjectAgentDiagnosticsEnvVars (agentDiagnostics : option AgentDiagnostics) (st : EnvState) : EnvState :=
  match agentDiagnostics with
  | None => st
  | Some d =>
      let st := match ad_odigos_log_level d with
                | Some l => InjectConstEnvVarToPodContainer "ODIGOS_LOG_LEVEL" l st
                | None => st
                end in
      match ad_otel_components_log_level d with
      | Some l => InjectConstEnvVarToPodContainer "OTEL_LOG_LEVEL" l st
      | None => st
      end
  end.

(** ** Variables with parameters, endpoints *)

Section Injection.
Context `{KubeVersions} `{WebhookLibrary} `{Client}.

Definition InjectTemplatedEnvVarToPodContainer (envVarName envVarValueTemplate : string)
    (distroParams : gmap string string) (st : EnvState) : error + EnvState :=
  if decide (envVarName ∈ st.1) then inr st
  else match template_Execute envVarValueTemplate distroParams with
       | inl err => inl err
       | inr v => inr (inject_env (mkPodEnv envVarName v None) st)
       end.

Fixpoint InjectStaticEnvVarsToPodContainer (envVars : list StaticEnvironmentVariable)
    (distroParams : gmap string string) (st : EnvState) : error + EnvState :=
  match envVars with
  | [] => inr st
  | envVar :: envVars =>
      match sev_template envVar with
      | None =>
          InjectStaticEnvVarsToPodContainer envVars distroParams
            (InjectConstEnvVarToPodContainer (sev_name envVar) (sev_value envVar) st)
      | Some t =>
          match InjectTemplatedEnvVarToPodContainer (sev_name envVar) t distroParams st with
          | inl err =>
              inl (EWrap ("failed to inject static environment variable " +:+ sev_name envVar) err)
          | inr st => InjectStaticEnvVarsToPodContainer envVars distroParams st
          end
      end
  end.

Definition InjectOpampServerEnvVar (st : EnvState) : EnvState :=
  InjectConstEnvVarToPodContainer OpampServerHostEnvName (LocalTrafficOpAmpOdigletEndpoint "$(NODE_IP)")
    (injectNodeIpEnvVar st).

Definition InjectOtlpHttpEndpointEnvVar (st : EnvState) : EnvState :=
  InjectConstEnvVarToPodContainer OtelExporterEndpointEnvName
    (LocalTrafficOTLPHttpDataCollectionEndpoint "$(NODE_IP)") (injectNodeIpEnvVar st).
End Injection.

(** ** Resource attributes (otelresource.go)

    The keys are those of the OpenTelemetry semantic conventions. *)

Definition getWorkloadKindAttributeKey (kind : string) : string :=
  switch kind
    [(WorkloadKindDeployment, "k8s.deployment.name");
     (WorkloadKindStatefulSet, "k8s.statefulset.name");
     (WorkloadKindDaemonSet, "k8s.daemonset.name");
     (WorkloadKindCronJob, "k8s.cronjob.name");
     (WorkloadKindJob, "k8s.job.name");
     (WorkloadKindDeploymentConfig, "k8s.deployment.name");
     (WorkloadKindArgoRollout, "k8s.argoproj.rollout.name")]
    "".

Definition owner_attributes (o : OwnerReference) : list (string * string) :=
  switch (or_kind o)
    [("Job", [("k8s.job.name", or_name o); ("k8s.job.uid", or_uid o)]);
     ("ReplicaSet", [("k8s.replicaset.name", or_name o); ("k8s.replicaset.uid", or_uid o)])]
    [].

Definition getOwnerReferenceAttributes (owners : list OwnerReference) : list (string * string) :=
  owners ≫= owner_attributes.

Definition getResourceAttributes (pw : PodWorkload) (containerName : string) (owners : list OwnerReference)
    : list (string * string) :=
  [("k8s.pod.name", "$(ODIGOS_POD_NAME)");
   ("k8s.container.name", containerName);
   ("k8s.namespace.name", pw_namespace pw);
   (getWorkloadKindAttributeKey (pw_kind pw), pw_name pw);
   ("odigos.workload.kind", pw_kind pw);
   ("odigos.workload.name", pw_name pw)]
  ++ getOwnerReferenceAttributes owners.

Definition getResourceAttributesEnvVarValue (ra : list (string * string)) : string :=
  join "," ((fun a => a.1 +:+ "=" +:+ a.2) <$> ra).

Definition InjectOtelResourceAndServiceNameEnvVars (pw : PodWorkload) (serviceName : string)
    (owners : list OwnerReference) (st : EnvState) : EnvState :=
  let st := InjectConstEnvVarToPodContainer otelServiceNameEnvVarName serviceName st in
  let value := getResourceAttributesEnvVarValue (getResourceAttributes pw (c_name st.2) owners) in
  if decide (otelResourceAttributesEnvVarName ∈ st.1) then
    InjectConstEnvVarToPodContainer odigosResourceAttributesEnvVarName value st
  else InjectConstEnvVarToPodContainer otelResourceAttributesEnvVarName value st.

(** ** What injection does to a container *)

(** The set holds exactly the names of the container's variables. *)
Definition tracked (st : EnvState) : Prop := st.1 = GetEnvVarNamesSet st.2.

(** The container only gained variables at its end, each under a name that
    was free, and all of them different. *)
Definition gains (c c' : Container) : Prop :=
  exists added, c' = with_env c (c_env c ++ added)
    ∧ NoDup (pe_name <$> added) ∧ (forall v, v ∈ added -> pe_name v ∉ pe_name <$> c_env c).

(** An injection that keeps track and gains. *)
Definition env_ok (st st' : EnvState) : Prop := tracked st -> tracked st' ∧ gains st.2 st'.2.

Lemma with_env_id c : with_env c (c_env c ++ []) = c.
Proof. destruct c. unfold with_env. simpl. by rewrite app_nil_r. Qed.

Lemma gains_refl c : gains c c.
Proof. exists []. rewrite with_env_id. split_and!; [done|constructor|by intros v ?%not_elem_of_nil]. Qed.

Lemma gains_trans c1 c2 c3 : gains c1 c2 -> gains c2 c3 -> gains c1 c3.
Proof.
  intros (a1 & -> & Hn1 & Hf1) (a2 & -> & Hn2 & Hf2). exists (a1 ++ a2). simpl in *.
  rewrite fmap_app, NoDup_app. split_and!.
  - unfold with_env. simpl. by rewrite app_assoc.
  - done.
  - intros n (v1 & -> & H1)%list_elem_of_fmap (v2 & E & H2)%list_elem_of_fmap.
    apply (Hf2 v2 H2). rewrite fmap_app, elem_of_app, <- E. right. by apply list_elem_of_fmap_2.
  - done.
  - intros v [Hv|Hv]%elem_of_app; [by apply Hf1|].
    intros Hin. apply (Hf2 v Hv). rewrite fmap_app, elem_of_app. by left.
Qed.

#[export] Instance gains_preorder : PreOrder gains.
Proof. split; [exact gains_refl|exact gains_trans]. Qed.

#[export] Instance env_ok_preorder : PreOrder env_ok.
Proof.
  split.
  - intros st Ht. split; [done|reflexivity].
  - intros s1 s2 s3 H1 H2 Ht. destruct (H1 Ht) as [Ht2 G1]. destruct (H2 Ht2) as [Ht3 G2].
    split; [done|by transitivity s2.2].
Qed.

Lemma inject_env_ok v st : env_ok st (inject_env v st).
Proof.
  intros Ht. unfold inject_env. case_decide as Hin; [by split|].
  assert (Hfree : pe_name v ∉ pe_name <$> c_env st.2).
  { rewrite Ht in Hin. unfold GetEnvVarNamesSet in Hin. by rewrite elem_of_list_to_set in Hin. }
  split; simpl.
  - unfold tracked, GetEnvVarNamesSet. simpl. rewrite Ht, fmap_app, list_to_set_app_L. unfold GetEnvVarNamesSet. simpl.
    set_solver.
  - exists [v]. split_and!; [done|apply NoDup_singleton|].
    intros w ->%list_elem_of_singleton. done.
Qed.

Lemma get_names_tracked c : tracked (GetEnvVarNamesSet c, c).
Proof. done. Qed.

Create HintDb odigos_env.
#[export] Hint Resolve inject_env_ok : odigos_env.

(** Chains of injections. *)
Ltac env_chain :=
  repeat match goal with
  | |- env_ok ?a ?a => reflexivity
  | |- env_ok _ (inject_env _ _) => etransitivity; [|apply inject_env_ok]
  | |- env_ok _ (InjectConstEnvVarToPodContainer _ _ _) => etransitivity; [|apply inject_env_ok]
  | |- env_ok _ (injectEnvVarObjectFieldRefToPodContainer _ _ _) => etransitivity; [|apply inject_env_ok]
  | |- env_ok _ (injectNodeIpEnvVar _) => etransitivity; [|apply inject_env_ok]
  end.

Lemma k8s_env_ok distro ns st : env_ok st (InjectOdigosK8sEnvVars distro ns st).
Proof. unfold InjectOdigosK8sEnvVars. env_chain. Qed.

Lemma signals_env_ok t m l st : env_ok st (InjectSignalsAsStaticOtelEnvVars t m l st).
Proof. unfold InjectSignalsAsStaticOtelEnvVars. env_chain. Qed.

Lemma diagnostics_env_ok d st : env_ok st (InjectAgentDiagnosticsEnvVars d st).
Proof.
  destruct d as [[l1 l2]|]; [|reflexivity]. unfold InjectAgentDiagnosticsEnvVars.
  destruct l1, l2; simpl; env_chain.
Qed.

Lemma resource_env_ok pw name owners st : env_ok st (InjectOtelResourceAndServiceNameEnvVars pw name owners st).
Proof. unfold InjectOtelResourceAndServiceNameEnvVars. case_decide; env_chain. Qed.

Section InjectionFacts.
Context `{KubeVersions} `{WebhookLibrary} `{Client}.

Lemma opamp_env_ok st : env_ok st (InjectOpampServerEnvVar st).
Proof. unfold InjectOpampServerEnvVar. env_chain. Qed.

Lemma otlp_env_ok st : env_ok st (InjectOtlpHttpEndpointEnvVar st).
Proof. unfold InjectOtlpHttpEndpointEnvVar. env_chain. Qed.

Lemma static_env_ok vars params st st' :
  InjectStaticEnvVarsToPodContainer vars params st = inr st' -> env_ok st st'.
Proof.
  revert st. induction vars as [|v vars IH]; intros st; simpl; [by intros [= ->]|].
  destruct (sev_template v) as [t|].
  - unfold InjectTemplatedEnvVarToPodContainer. case_decide; [apply IH|].
    destruct (template_Execute t params); [done|]. intros Hr. etransitivity; [|by apply IH].
    apply inject_env_ok.
  - intros Hr. etransitivity; [|by apply IH]. apply inject_env_ok.
Qed.
End InjectionFacts.
#[export] Hint Resolve k8s_env_ok signals_env_ok diagnostics_env_ok resource_env_ok opamp_env_ok
  otlp_env_ok static_env_ok : odigos_env.
