(* ===== verification/EnvInjector.v ===== *)
(** * How the agent gets into the process
    (instrumentor/internal/webhook_env_injector, distros/distro/appendenvs.go)

    A container is made to load the agent either by the loader (LD_PRELOAD) or
    by variables that the distribution appends to, such as
    JAVA_TOOL_OPTIONS: a value the user set is extended, not replaced. *)

From S2P Require Import Prelude.
From S2P Require Import GoStrings.
From S2P Require Import K8s.
From S2P Require Import Api.
From S2P Require Import Objects.
From S2P Require Import ContainerAgent.
From S2P Require Import PodEnv.
From S2P Require Import Samples.

(** ** Patterns (appendenvs.go) *)

Definition AgentPlaceholderDirectory := "{{ODIGOS_AGENTS_DIR}}".
Definition OriginalEnvValuePlaceholder := "{{ORIGINAL_ENV_VALUE}}".

Definition EvaluateReplacePattern (pattern originalValue agentsDir : string) : string :=
  let result := replace_all AgentPlaceholderDirectory agentsDir pattern in
  if decide (trim_space originalValue = "") then
    trim_left " :" (replace_all OriginalEnvValuePlaceholder "" result)
  else replace_all OriginalEnvValuePlaceholder originalValue result.

Example evaluate_ex :
  let p := "{{ORIGINAL_ENV_VALUE}} -javaagent:{{ODIGOS_AGENTS_DIR}}/java/javaagent.jar" in
  EvaluateReplacePattern p "-Xmx1g" OdigosAgentsDirectory = "-Xmx1g -javaagent:/var/odigos/java/javaagent.jar"
  ∧ EvaluateReplacePattern p "" OdigosAgentsDirectory = "-javaagent:/var/odigos/java/javaagent.jar".
Proof. by vm_compute. Qed.

(** ** One appended variable *)

(** Replace the first element that satisfies a test. *)
Fixpoint update_first {A} (p : A -> bool) (f : A -> A) (l : list A) : list A :=
  match l with
  | [] => []
  | x :: l => if p x then f x :: l else x :: update_first p f l
  end.

Definition is_named (envVarName : string) (v : PodEnvVar) : bool := bool_decide (pe_name v = envVarName).

(** The pointer to the first variable of that name. *)
Definition getContainerEnvVarPointer (containerEnv : list PodEnvVar) (envVarName : string) : option PodEnvVar :=
  first_match (is_named envVarName) containerEnv.

Definition set_value (v : string) (e : PodEnvVar) : PodEnvVar := mkPodEnv (pe_name e) v (pe_value_from e).
Definition rename (n : string) (e : PodEnvVar) : PodEnvVar := mkPodEnv n (pe_value e) (pe_value_from e).

Definition handleValueFromEnvVar (append : string * string) (env : list PodEnvVar) : list PodEnvVar :=
  let originalNewKey := "ORIGINAL_" +:+ append.1 in
  let combinedValue :=
    EvaluateReplacePattern append.2 ("$(" +:+ originalNewKey +:+ ")") OdigosAgentsDirectory in
  update_first (is_named append.1) (rename originalNewKey) env ++ [mkPodEnv append.1 combinedValue None].

(** [None]: not handled. *)
Definition handleManifestEnvVar (append : string * string) (env : list PodEnvVar) : option (list PodEnvVar) :=
  match getContainerEnvVarPointer env append.1 with
  | None => None
  | Some manifestEnvVar =>
      match pe_value_from manifestEnvVar with
      | Some _ => Some (handleValueFromEnvVar append env)
      | None =>
          if decide (pe_value manifestEnvVar = "") then None
          else if contains "/var/odigos/" (pe_value manifestEnvVar) then Some env
          else
            let updatedEnvValue :=
              EvaluateReplacePattern append.2 (pe_value manifestEnvVar) OdigosAgentsDirectory in
            Some (update_first (is_named append.1) (set_value updatedEnvValue) env)
      end
  end.

Definition processEnvVarsFromRuntimeDetails (runtimeDetails : RuntimeDetailsByContainer)
    (append : string * string) : list PodEnvVar :=
  (fun e => mkPodEnv append.1 (EvaluateReplacePattern append.2 (ev_value e) OdigosAgentsDirectory) None)
  <$> filter (fun e => ev_name e = append.1 ∧ ev_value e <> "") (rd_env_from_runtime runtimeDetails).

Definition injectEnvVarsFromRuntime (append : string * string) (runtimeDetails : RuntimeDetailsByContainer)
    (env : list PodEnvVar) : option (list PodEnvVar) :=
  match rd_cri_error runtimeDetails with
  | Some _ => None
  | None =>
      let envVarsToInject := processEnvVarsFromRuntimeDetails runtimeDetails append in
      if nonempty envVarsToInject then Some (env ++ envVarsToInject) else None
  end.

Definition default_step (env : list PodEnvVar) (append : string * string) : list PodEnvVar :=
  let valueToInject := EvaluateReplacePattern append.2 "" OdigosAgentsDirectory in
  let appended := env ++ [mkPodEnv append.1 valueToInject None] in
  match getContainerEnvVarPointer env append.1 with
  | Some existingEnv =>
      match pe_value_from existingEnv with
      | None => if decide (pe_value existingEnv = "")
                then update_first (is_named append.1) (set_value valueToInject) env else env
      | Some _ => appended
      end
  | None => appended
  end.

Definition applyOdigosEnvDefaults (appendEnvVars : list (string * string)) (env : list PodEnvVar)
    : list PodEnvVar := foldl default_step env appendEnvVars.

(** The loop over the appended variables, and whether one was handled. *)
Definition append_step (runtimeDetails : RuntimeDetailsByContainer) (acc : list PodEnvVar * bool)
    (append : string * string) : list PodEnvVar * bool :=
  match handleManifestEnvVar append acc.1 with
  | Some env => (env, true)
  | None =>
      match injectEnvVarsFromRuntime append runtimeDetails acc.1 with
      | Some env => (env, true)
      | None => acc
      end
  end.

Definition append_env_vars (appendEnvVars : list (string * string)) (runtimeDetails : RuntimeDetailsByContainer)
    (env : list PodEnvVar) : list PodEnvVar :=
  let '(env, isOdigosAgentEnvAppended) := foldl (append_step runtimeDetails) (env, false) appendEnvVars in
  if isOdigosAgentEnvAppended then env else applyOdigosEnvDefaults appendEnvVars env.

(** ** The loader *)

Definition loader_requested (injectionMethod : string) : bool :=
  bool_decide (injectionMethod = LoaderEnvInjectionMethod)
  || bool_decide (injectionMethod = LoaderFallbackToPodManifestInjectionMethod).

(** The loader may be preloaded: nothing else is, and the process does not
    run in secure execution mode. *)
Definition loader_usable (env : list PodEnvVar) (runtimeDetails : RuntimeDetailsByContainer) : bool :=
  negb (bool_decide (is_Some (getContainerEnvVarPointer env LdPreloadEnvVarName)))
  && match getEnvVarFromList (rd_env_vars runtimeDetails) LdPreloadEnvVarName with
     | None => true
     | Some v => contains OdigosLoaderPath v
     end
  && negb (default true (rd_secure_execution_mode runtimeDetails)).

Definition loader_var : PodEnvVar := mkPodEnv LdPreloadEnvVarName OdigosLoaderPath None.

Definition ErrNoInjectionMethod : error := ENew "env injection method is not set in ODIGOS config".
Definition ErrLoaderConflict : error :=
  ENew "loader env var injection method is requested but the LD_PRELOAD env var is already present or running in a secure execution mode".

Definition InjectOdigosAgentEnvVars (d : OtelDistro) (runtimeDetails : RuntimeDetailsByContainer)
    (config : OdigosConfiguration) (c : Container) : error + Container :=
  let appendEnvVars := d_append_env_vars d in
  if negb (nonempty appendEnvVars) then inr c
  else
    match conf_env_injection config with
    | None => inl ErrNoInjectionMethod
    | Some injectionMethod =>
        if loader_requested injectionMethod && loader_usable (c_env c) runtimeDetails then
          inr (with_env c (c_env c ++ [loader_var]))
        else if decide (injectionMethod = LoaderEnvInjectionMethod) then inl ErrLoaderConflict
        else inr (with_env c (append_env_vars appendEnvVars runtimeDetails (c_env c)))
    end.

(** ** What happens to the variables of the container *)

(** The entries under a name; the last one is the value the process sees. *)
Definition named (n : string) (env : list PodEnvVar) : list PodEnvVar := filter (fun v => pe_name v = n) env.
Definition effective (n : string) (env : list PodEnvVar) : option PodEnvVar := last (named n env).

Lemma filter_none {A} (P : A -> Prop) `{!forall x, Decision (P x)} (l : list A) :
  (forall x, x ∈ l -> ~ P x) -> filter P l = [].
Proof.
  induction l as [|x l IH]; intros Hl; [done|]. rewrite filter_cons, decide_False by (apply Hl; left).
  apply IH. intros y Hy. apply Hl. by right.
Qed.

Lemma named_app n l1 l2 : named n (l1 ++ l2) = named n l1 ++ named n l2.
Proof. apply filter_app. Qed.

Lemma named_none n env : getContainerEnvVarPointer env n = None -> named n env = [].
Proof.
  unfold getContainerEnvVarPointer. rewrite first_match_None. intros Hl.
  apply filter_none. intros v Hv Hn. specialize (Hl v Hv). unfold is_named in Hl.
  by rewrite bool_decide_eq_false in Hl.
Qed.

(** Without duplicates the first entry is the only one, and it is the one
    that an update replaces. *)
Lemma named_first n env e :
  NoDup (pe_name <$> env) -> getContainerEnvVarPointer env n = Some e -> named n env = [e].
Proof.
  unfold getContainerEnvVarPointer, named, is_named.
  induction env as [|v env IH]; [done|]. rewrite fmap_cons, NoDup_cons. simpl. intros [Hv Hn].
  rewrite filter_cons. case_bool_decide as Hd.
  - intros [= <-]. rewrite decide_True by done. f_equal. apply filter_none.
    intros w Hw Hwn. apply Hv. rewrite Hd, <- Hwn. by apply list_elem_of_fmap_2.
  - rewrite decide_False by done. by apply IH.
Qed.

Lemma named_update n f env e :
  NoDup (pe_name <$> env) -> getContainerEnvVarPointer env n = Some e ->
  named n (update_first (is_named n) f env) = if decide (pe_name (f e) = n) then [f e] else [].
Proof.
  unfold getContainerEnvVarPointer, named, is_named.
  induction env as [|v env IH]; [done|]. rewrite fmap_cons, NoDup_cons. simpl. intros [Hv Hn].
  case_bool_decide as Hd.
  - intros [= <-]. rewrite filter_cons.
    assert (Hnil : filter (fun v => pe_name v = n) env = []).
    { apply filter_none. intros w Hw Hwn. apply Hv. rewrite Hd, <- Hwn. by apply list_elem_of_fmap_2. }
    rewrite Hnil. by case_decide.
  - rewrite filter_cons, decide_False by done. by apply IH.
Qed.

(** An update of the entries called [n] leaves the others alone. *)
Lemma filter_update_first (P : PodEnvVar -> Prop) `{!forall v, Decision (P v)} n f env :
  (forall v, pe_name v = n -> ~ P v ∧ ~ P (f v)) ->
  filter P (update_first (is_named n) f env) = filter P env.
Proof.
  intros HP. induction env as [|v env IH]; [done|]. simpl. unfold is_named at 1. case_bool_decide as Hd.
  - destruct (HP v Hd). by rewrite !filter_cons, !decide_False by done.
  - rewrite !filter_cons, IH. done.
Qed.

(** ** One appended variable, from start to end *)

Definition runtime_value (runtimeDetails : RuntimeDetailsByContainer) (n : string) : string :=
  match rd_cri_error runtimeDetails with
  | Some _ => ""
  | None => default "" (ev_value <$> last (filter (fun e => ev_name e = n ∧ ev_value e <> "")
                                             (rd_env_from_runtime runtimeDetails)))
  end.

(** The value the user gave the variable: in the manifest, by reference, or
    in the image. *)
Definition original_value (env : list PodEnvVar) (runtimeDetails : RuntimeDetailsByContainer) (n : string)
    : string :=
  match getContainerEnvVarPointer env n with
  | Some e =>
      match pe_value_from e with
      | Some _ => "$(" +:+ ("ORIGINAL_" +:+ n) +:+ ")"
      | None => if decide (pe_value e = "") then runtime_value runtimeDetails n else pe_value e
      end
  | None => runtime_value runtimeDetails n
  end.

(** The manifest already names the agent's directory. *)
Definition already_set (env : list PodEnvVar) (n : string) : bool :=
  match getContainerEnvVarPointer env n with
  | Some e => bool_decide (pe_value_from e = None) && contains "/var/odigos/" (pe_value e)
  | None => false
  end.

Definition agent_value (env : list PodEnvVar) (runtimeDetails : RuntimeDetailsByContainer)
    (append : string * string) : string :=
  let v := original_value env runtimeDetails append.1 in
  if already_set env append.1 then v else EvaluateReplacePattern append.2 v OdigosAgentsDirectory.

Lemma evaluate_blank p : EvaluateReplacePattern p "" OdigosAgentsDirectory
  = trim_left " :" (replace_all OriginalEnvValuePlaceholder "" (replace_all AgentPlaceholderDirectory OdigosAgentsDirectory p)).
Proof. done. Qed.

Lemma runtime_last details append :
  rd_cri_error details = None -> processEnvVarsFromRuntimeDetails details append <> [] ->
  last (processEnvVarsFromRuntimeDetails details append)
  = Some (mkPodEnv append.1 (EvaluateReplacePattern append.2 (runtime_value details append.1) OdigosAgentsDirectory) None).
Proof.
  intros Hc. unfold processEnvVarsFromRuntimeDetails, runtime_value. rewrite Hc, fmap_last.
  set (l := filter _ (rd_env_from_runtime details)). destruct (last l) as [e|] eqn:E; [done|].
  apply last_None in E. by rewrite E.
Qed.

Lemma runtime_named details append n :
  named n (processEnvVarsFromRuntimeDetails details append)
  = if decide (append.1 = n) then processEnvVarsFromRuntimeDetails details append else [].
Proof.
  unfold named, processEnvVarsFromRuntimeDetails. set (l := filter _ (rd_env_from_runtime details)).
  clearbody l. case_decide as Hd.
  - induction l as [|e l IH]; [done|]. rewrite fmap_cons, filter_cons, decide_True by done. by rewrite IH.
  - apply filter_none. intros v (e & -> & _)%list_elem_of_fmap. done.
Qed.

Lemma no_runtime_value details append :
  injectEnvVarsFromRuntime append details [] = None -> runtime_value details append.1 = "".
Proof.
  unfold injectEnvVarsFromRuntime, runtime_value. destruct (rd_cri_error details); [done|].
  unfold processEnvVarsFromRuntimeDetails.
  set (l := filter _ (rd_env_from_runtime details)). by destruct l.
Qed.

Lemma inject_runtime_env append details env :
  injectEnvVarsFromRuntime append details env
  = (fun l => env ++ l) <$> injectEnvVarsFromRuntime append details [].
Proof. unfold injectEnvVarsFromRuntime. by repeat case_match. Qed.

Lemma update_first_named_other n m f env :
  m <> n -> (forall v, pe_name v = n -> pe_name (f v) <> m) ->
  named m (update_first (is_named n) f env) = named m env.
Proof. intros Hm Hf. apply filter_update_first. naive_solver congruence. Qed.

(** The default or the runtime's value, for a variable that the manifest does
    not set. *)
Lemma fallback_effective details append env :
  NoDup (pe_name <$> env) -> handleManifestEnvVar append env = None ->
  effective append.1 (append_env_vars [append] details env)
  = Some (mkPodEnv append.1 (EvaluateReplacePattern append.2 (runtime_value details append.1) OdigosAgentsDirectory) None)
  ∧ forall m, m <> append.1 -> named m (append_env_vars [append] details env) = named m env.
Proof.
  intros Hn Hm. unfold append_env_vars, effective. cbn [foldl]. unfold append_step. cbn [fst]. rewrite Hm.
  rewrite inject_runtime_env. destruct (injectEnvVarsFromRuntime append details []) as [l|] eqn:Hr; cbn [fmap option_fmap option_map].
  - unfold injectEnvVarsFromRuntime in Hr. destruct (rd_cri_error details) eqn:Hc; [done|].
    destruct (processEnvVarsFromRuntimeDetails details append) as [|v l'] eqn:Hp; [done|].
    simpl in Hr. injection Hr as <-. rewrite <- Hp. split.
    + rewrite named_app, runtime_named, decide_True by done.
      rewrite last_app, runtime_last by (rewrite ?Hp; done). done.
    + intros m Hne. rewrite named_app, runtime_named, decide_False by done. by rewrite app_nil_r.
  - apply no_runtime_value in Hr. rewrite Hr. unfold applyOdigosEnvDefaults. cbn [foldl]. unfold default_step.
    unfold handleManifestEnvVar in Hm. destruct (getContainerEnvVarPointer env append.1) as [e|] eqn:He.
    + destruct e as [en ev [vf|]]; simpl in *; [done|]. case_decide as Hv; [|by case_match]. subst ev.
      pose proof He as [Hin Hname]%first_match_Some. unfold is_named in Hname.
      apply bool_decide_eq_true in Hname. simpl in Hname. split.
      * rewrite (named_update _ _ _ _ Hn He). unfold set_value. simpl. rewrite decide_True by done. simpl. by rewrite Hname.
      * intros m Hne. apply update_first_named_other; [done|]. intros v Hv. simpl. congruence.
    + split.
      * rewrite named_app, last_app. unfold named at 1. rewrite filter_cons, decide_True by done. done.
      * intros m Hne. rewrite named_app. unfold named at 2. rewrite filter_cons, decide_False by done.
        by rewrite app_nil_r.
Qed.

(** What the manifest sets is extended where it stands, or referred to. *)
Lemma manifest_effective details append env env' :
  NoDup (pe_name <$> env) -> handleManifestEnvVar append env = Some env' ->
  effective append.1 env' = Some (mkPodEnv append.1 (agent_value env details append) None)
  ∧ forall m, m <> append.1 -> m <> "ORIGINAL_" +:+ append.1 -> named m env' = named m env.
Proof.
  unfold handleManifestEnvVar, agent_value, original_value, already_set, effective.
  destruct (getContainerEnvVarPointer env append.1) as [e|] eqn:He; [|done]. intros Hn.
  pose proof He as [Hin Hname]%first_match_Some. apply bool_decide_eq_true in Hname.
  destruct e as [en ev [vf|]]; simpl in *; subst en.
  - intros [= <-]. unfold handleValueFromEnvVar. split.
    + rewrite named_app, last_app. unfold named at 1. rewrite filter_cons, decide_True by done. done.
    + intros m H1 H2. rewrite named_app. rewrite update_first_named_other by (intros; simpl; congruence).
      unfold named at 2. rewrite filter_cons, decide_False by (simpl; congruence). by rewrite app_nil_r.
  - case_decide as Hv; [done|].
    destruct (contains "/var/odigos/" ev) eqn:Hc; simpl; intros [= <-].
    + by rewrite (named_first _ _ _ Hn He).
    + rewrite (named_update _ _ _ _ Hn He), decide_True by done. split; [done|].
      intros m H1 H2. apply update_first_named_other; [done|]. intros. simpl. congruence.
Qed.

Lemma unhandled_value details append env :
  handleManifestEnvVar append env = None ->
  agent_value env details append = EvaluateReplacePattern append.2 (runtime_value details append.1) OdigosAgentsDirectory.
Proof.
  unfold handleManifestEnvVar, agent_value, original_value, already_set.
  destruct (getContainerEnvVarPointer env append.1) as [[en ev [vf|]]|]; simpl; [done| |done].
  case_decide as Hv; [by subst ev|by case_match].
Qed.

Lemma append_effective details append env :
  NoDup (pe_name <$> env) ->
  effective append.1 (append_env_vars [append] details env)
  = Some (mkPodEnv append.1 (agent_value env details append) None)
  ∧ forall m, m <> append.1 -> m <> "ORIGINAL_" +:+ append.1 ->
      named m (append_env_vars [append] details env) = named m env.
Proof.
  intros Hn. destruct (handleManifestEnvVar append env) as [env'|] eqn:Hm.
  - assert (append_env_vars [append] details env = env') as ->.
    { unfold append_env_vars. cbn [foldl]. unfold append_step. cbn [fst]. by rewrite Hm. }
    by apply manifest_effective.
  - rewrite unhandled_value by done. destruct (fallback_effective details append env Hn Hm) as [H1 H2]. auto.
Qed.

(** C38: With a distribution that appends to one variable, a container that is
    admitted loads the agent: by the loader, in which case nothing else
    changes and the process can use it, or by the variable, whose effective
    value is the pattern applied to the value the user gave it in the
    manifest, by reference or in the image.  Every other variable keeps its
    entries. *)
Theorem agent_env_effective (d : OtelDistro) (details : RuntimeDetailsByContainer) (conf : OdigosConfiguration)
    (c c' : Container) (append : string * string) :
  d_append_env_vars d = [append] -> NoDup (pe_name <$> c_env c) ->
  InjectOdigosAgentEnvVars d details conf c = inr c' ->
  exists method, conf_env_injection conf = Some method ∧
  if loader_requested method && loader_usable (c_env c) details
  then c' = with_env c (c_env c ++ [loader_var]) ∧ loader_ok details
  else method <> LoaderEnvInjectionMethod
       ∧ effective append.1 (c_env c') = Some (mkPodEnv append.1 (agent_value (c_env c) details append) None)
       ∧ forall m, m <> append.1 -> m <> "ORIGINAL_" +:+ append.1 -> named m (c_env c') = named m (c_env c).
Proof.
  intros Hd Hn. unfold InjectOdigosAgentEnvVars. rewrite Hd. cbn [nonempty negb].
  destruct (conf_env_injection conf) as [method|]; [|done]. intros Hr. exists method. split; [done|].
  destruct (loader_requested method && loader_usable (c_env c) details) eqn:Hl.
  - injection Hr as <-. split; [done|]. apply andb_true_iff in Hl as [_ Hl]. unfold loader_usable in Hl.
    rewrite !andb_true_iff, !negb_true_iff in Hl. destruct Hl as [[_ Hld] Hs]. split.
    + by destruct (rd_secure_execution_mode details) as [[]|].
    + intros v Hv. by rewrite Hv in Hld.
  - case_decide as Hm; [done|]. injection Hr as <-. split; [done|]. by apply append_effective.
Qed.

(** An image that sets JAVA_TOOL_OPTIONS: the agent is added to it. *)
Definition image_details : RuntimeDetailsByContainer :=
  mkRuntimeDetails "cart" "java" "17.0.1" [] [] (Some "glibc") (Some false) None
    [mkEnvVar "JAVA_TOOL_OPTIONS" "-Xmx1g"].
Definition manifest_conf : OdigosConfiguration :=
  mkConf [] None (Some PodManifestEnvInjectionMethod) None None "" "" None "" None no_webhook_conf.

Lemma agent_env_effective_witness :
  exists c', InjectOdigosAgentEnvVars sample_distro image_details manifest_conf (bare_container "cart") = inr c'
  ∧ effective "JAVA_TOOL_OPTIONS" (c_env c')
    = Some (mkPodEnv "JAVA_TOOL_OPTIONS" "-Xmx1g -javaagent:/var/odigos/java/javaagent.jar" None).
Proof.
  eexists. split; [vm_compute; reflexivity|].
  destruct (agent_env_effective sample_distro image_details manifest_conf (bare_container "cart") _ _ eq_refl
    (NoDup_nil_2 (A:=string)) ltac:(vm_compute; reflexivity)) as (m & [= <-] & H).
  exact (proj1 (proj2 H)).
Defined.

(** ** Several appended variables *)

Definition two_vars : list (string * string) :=
  [("JAVA_TOOL_OPTIONS", "{{ORIGINAL_ENV_VALUE}} -javaagent:{{ODIGOS_AGENTS_DIR}}/java/javaagent.jar");
   ("JAVA_OPTS", "{{ORIGINAL_ENV_VALUE}} -javaagent:{{ODIGOS_AGENTS_DIR}}/java/javaagent.jar")].

(** The comment above the loop says that a variable that is set neither in
    the manifest nor in the image gets the default; once another variable of
    the distribution was handled, it gets nothing. *)
Theorem second_append_variable_skipped :
  let env := [mkPodEnv "JAVA_TOOL_OPTIONS" "-Xmx1g" None] in
  effective "JAVA_OPTS" (append_env_vars two_vars (sample_details "cart") []) <> None
  ∧ effective "JAVA_OPTS" (append_env_vars two_vars (sample_details "cart") env) = None.
Proof. by vm_compute. Qed.

(** ** What the user declared stays *)

(** Except under the names in [names], the entries of the container are still
    there, in their order. *)
Definition keeps (names : list string) (env env' : list PodEnvVar) : Prop :=
  filter (fun v => pe_name v ∉ names) env `sublist_of` env'.

Lemma filter_sublist_mono {A} (P : A -> Prop) `{!forall x, Decision (P x)} (l l' : list A) :
  l `sublist_of` l' -> filter P l `sublist_of` filter P l'.
Proof.
  induction 1 as [|x l l' _ IH|x l l' _ IH]; [done|rewrite !filter_cons..]; case_decide.
  - by constructor.
  - done.
  - by constructor.
  - done.
Qed.

#[export] Instance keeps_preorder names : PreOrder (keeps names).
Proof.
  split.
  - intros env. apply sublist_filter.
  - intros e1 e2 e3 H1 H2. unfold keeps in *. etransitivity; [|exact H2].
    apply (filter_sublist_mono (fun v => pe_name v ∉ names)) in H1.
    by rewrite list_filter_filter_r in H1.
Qed.

Lemma keeps_app names env l : keeps names env (env ++ l).
Proof. unfold keeps. apply sublist_inserts_r, sublist_filter. Qed.

Lemma keeps_update names n f env : n ∈ names -> keeps names env (update_first (is_named n) f env).
Proof.
  intros Hn. unfold keeps. induction env as [|v env IH]; [done|]. simpl. unfold is_named.
  rewrite filter_cons. case_bool_decide as Hd.
  - rewrite decide_False by (rewrite Hd; auto). constructor. apply sublist_filter.
  - case_decide; constructor; apply IH.
Qed.

#[export] Hint Resolve keeps_app keeps_update : odigos_env.

Lemma handle_manifest_keeps names append env env' :
  append.1 ∈ names -> handleManifestEnvVar append env = Some env' -> keeps names env env'.
Proof.
  intros Hn. unfold handleManifestEnvVar. destruct (getContainerEnvVarPointer env append.1) as [e|]; [|done].
  destruct (pe_value_from e).
  - intros [= <-]. unfold handleValueFromEnvVar.
    etransitivity; [by apply (keeps_update names append.1 (rename ("ORIGINAL_" +:+ append.1)))|apply keeps_app].
  - case_decide; [done|]. destruct (contains _ _); intros [= <-]; [reflexivity|by apply keeps_update].
Qed.

Lemma append_step_keeps names details acc append :
  append.1 ∈ names -> keeps names acc.1 (append_step details acc append).1.
Proof.
  intros Hn. unfold append_step. destruct (handleManifestEnvVar append acc.1) eqn:Hm.
  - by eapply handle_manifest_keeps.
  - rewrite inject_runtime_env. destruct (injectEnvVarsFromRuntime append details []); simpl; [apply keeps_app|reflexivity].
Qed.

Lemma default_step_keeps names env append : append.1 ∈ names -> keeps names env (default_step env append).
Proof.
  intros Hn. unfold default_step. destruct (getContainerEnvVarPointer env append.1) as [e|]; [|apply keeps_app].
  destruct (pe_value_from e); [apply keeps_app|]. case_decide; [by apply keeps_update|reflexivity].
Qed.

Lemma foldl_preorder {A B} (R : B -> B -> Prop) `{!PreOrder R} (f : B -> A -> B) (l : list A) b :
  (forall b x, x ∈ l -> R b (f b x)) -> R b (foldl f b l).
Proof.
  revert b. induction l as [|x l IH]; intros b Hf; simpl; [reflexivity|].
  etransitivity; [apply Hf; left|]. apply IH. intros b' y Hy. apply Hf. by right.
Qed.

Lemma append_env_vars_keeps appendEnvVars details env :
  keeps (appendEnvVars.*1) env (append_env_vars appendEnvVars details env).
Proof.
  set (names := appendEnvVars.*1).
  assert (Hin : forall a, a ∈ appendEnvVars -> a.1 ∈ names).
  { intros a Ha. by apply list_elem_of_fmap_2. }
  assert (Hloop : keeps names env (foldl (append_step details) (env, false) appendEnvVars).1).
  { assert (PreOrder (fun a b : list PodEnvVar * bool => keeps names a.1 b.1)).
    { split; [intros a|intros a b c H1 H2]; [reflexivity|by transitivity (b.1)]. }
    apply (foldl_preorder (fun a b : list PodEnvVar * bool => keeps names a.1 b.1) _ appendEnvVars (env, false)).
    intros b a Ha. apply append_step_keeps. auto. }
  unfold append_env_vars. destruct (foldl (append_step details) (env, false) appendEnvVars) as [env' []]; [done|].
  etransitivity; [exact Hloop|]. apply (foldl_preorder (keeps names)).
  intros b a Ha. apply default_step_keeps. auto.
Qed.

(** Injection only changes the variables of a container. *)
Lemma inject_agent_keeps d details conf c c' :
  InjectOdigosAgentEnvVars d details conf c = inr c' ->
  exists env, c' = with_env c env ∧ keeps ((d_append_env_vars d).*1) (c_env c) env.
Proof.
  unfold InjectOdigosAgentEnvVars. destruct (nonempty _); simpl; [|intros [= <-]].
  - destruct (conf_env_injection conf) as [m|]; [|done].
    destruct (_ && _); [intros [= <-]; eauto using keeps_app|]. case_decide; [done|]. intros [= <-].
    eauto using append_env_vars_keeps.
  - exists (c_env c). split; [by destruct c|reflexivity].
Qed.
