(* ===== verification/PodMounts.v ===== *)
(** * Volumes, devices and node affinity of an instrumented pod
    (instrumentor/controllers/agentenabled/podswebhook: mount.go, device.go;
    instrumentor/internal/pod/pod.go) *)

From S2P Require Import Prelude.
From S2P Require Import GoStrings.
From S2P Require Import K8s.
From S2P Require Import Workload.
From S2P Require Import Api.
From S2P Require Import GoLib.
From S2P Require Import Objects.
From S2P Require Import Client.
From S2P Require Import PodEnv.
From S2P Require Import EnvInjector.

(** ** Mounts *)

Definition OdigosAgentMountVolumeName := "odigos-agent".
Definition OdigletCSIDriverName := "odigos.csi.driver".

(** The path a directory of a distribution is mounted at. *)
Definition mount_path (dir : string) : string :=
  replace_all AgentPlaceholderDirectory OdigosAgentsDirectory dir.

Definition MountDirectory (dir : string) (c : Container) : Container :=
  let absolutePath := mount_path dir in
  let relativePath := filepath_Base absolutePath in
  if existsb (fun m => bool_decide (vm_mount_path m = absolutePath)) (c_mounts c) then c
  else with_mounts c (c_mounts c ++ [mkMount OdigosAgentMountVolumeName relativePath absolutePath true]).

Definition with_volumes (s : PodSpec) (volumes : list Volume) : PodSpec :=
  mkPodSpec (ps_containers s) (ps_init_containers s) volumes (ps_pull_secrets s) (ps_affinity s).

Definition mountPodVolumeIfNotExists (source : VolumeSource) (s : PodSpec) : PodSpec :=
  if existsb (fun v => bool_decide (vol_name v = OdigosAgentMountVolumeName)) (ps_volumes s) then s
  else with_volumes s (ps_volumes s ++ [mkVolume OdigosAgentMountVolumeName source]).

Definition MountPodVolumeToHostPath : PodSpec -> PodSpec :=
  mountPodVolumeIfNotExists (HostPath OdigosAgentsDirectory).
Definition MountPodVolumeToEmptyDir : PodSpec -> PodSpec := mountPodVolumeIfNotExists EmptyDir.
Definition MountPodVolumeToCSI : PodSpec -> PodSpec :=
  mountPodVolumeIfNotExists (CSI OdigletCSIDriverName {[ "type" := "instrumentation" ]}).

(** ** The device *)

Definition InjectDeviceToContainer (device : string) (c : Container) : Container :=
  with_resources c (<[device := "1"]> (c_limits c)) (<[device := "1"]> (c_requests c)).

Section Device.
Context `{Client}.

(** The first container of the device plugin that is in back-off. *)
Definition device_plugin_failure (pods : list Pod) : option error :=
  let failing := pods ≫= (fun p => (fun s => (p, s)) <$>
    filter (fun s => cs_name s = "deviceplugin" ∧ IsContainerInBackOff s = true) (pod_statuses p)) in
  match failing with
  | [] => None
  | (p, s) :: _ =>
      let reason := if IsContainerInCrashLoopBackOff s then "crash loop backoff"
                    else if IsContainerInImagePullBackOff s then "image pull backoff" else "backoff" in
      Some (ENew ("odiglet " +:+ om_namespace (pod_meta p) +:+ "/" +:+ om_name (pod_meta p)
                  +:+ " device plugin container is in " +:+ reason))
  end.

Definition CheckDevicePluginContainersHealth (c : Cluster) (odigosNamespace : string) : go (option error) :=
  match ListDaemonSets c odigosNamespace {[ "app.kubernetes.io/name" := "odiglet" ]} with
  | inl err => Done (Some err)
  | inr [] => Done (Some (ENew ("no odiglet daemonset in namespace " +:+ odigosNamespace)))
  | inr (_ :: _ :: _) => Done (Some (ENew ("multiple odiglet daemonsets in namespace " +:+ odigosNamespace)))
  | inr [odigletDaemonset] =>
      go_bind (go_deref (ds_selector odigletDaemonset)) (fun selector =>
      match ListPods c odigosNamespace (mkLabelSelector (MatchLabels selector) []) with
      | inl err => Done (Some err)
      | inr [] => Done (Some (ENew "no odiglet pods found"))
      | inr pods => Done (device_plugin_failure pods)
      end)
  end.
End Device.

(** ** Node affinity (pod.go, k8sutils/pkg/node) *)

Section Affinity.
Context `{Client}.

Definition OdigletInstalledLabelValue := "true".
Definition OdigletOSSInstalledLabel := "odigos.io/odiglet-oss-installed".
Definition OdigletEnterpriseInstalledLabel := "odigos.io/odiglet-enterprise-installed".

Definition GetOdigosTierFromEnv : string :=
  switch (default "" (LookupEnv "ODIGOS_TIER"))
    [("community", "community"); ("cloud", "cloud"); ("onprem", "onprem")] "community".

Definition DetermineNodeOdigletInstalledLabelByTier : string :=
  switch GetOdigosTierFromEnv
    [("community", OdigletOSSInstalledLabel); ("onprem", OdigletEnterpriseInstalledLabel)]
    OdigletOSSInstalledLabel.

(** An expression that already asks for the label. *)
Definition asks_for_odiglet (label : string) (e : NodeSelectorRequirement) : bool :=
  bool_decide (nr_key e = label) && bool_decide (nr_operator e = "In")
  && bool_decide (OdigletInstalledLabelValue ∈ nr_values e).

Definition required_terms (s : PodSpec) : list NodeSelectorTerm :=
  match ps_affinity s with
  | Some a => match af_node a with Some n => default [] (na_required n) | None => [] end
  | None => []
  end.

Definition with_required_terms (s : PodSpec) (terms : list NodeSelectorTerm) : PodSpec :=
  mkPodSpec (ps_containers s) (ps_init_containers s) (ps_volumes s) (ps_pull_secrets s)
    (Some (mkAffinity (Some (mkNodeAffinity (Some terms))))).

Definition odiglet_term (label : string) : NodeSelectorTerm :=
  mkTerm [mkNodeRequirement label "In" [OdigletInstalledLabelValue]] [].

(** The affinity is allocated down to the terms in either case. *)
Definition AddOdigletInstalledAffinity (s : PodSpec) : PodSpec :=
  let odigletInstalledLabel := DetermineNodeOdigletInstalledLabelByTier in
  let terms := required_terms s in
  if existsb (fun t => existsb (asks_for_odiglet odigletInstalledLabel) (nt_expressions t)) terms
  then with_required_terms s terms
  else with_required_terms s (terms ++ [odiglet_term odigletInstalledLabel]).
End Affinity.

(** *** Which nodes the scheduler may pick

    As documented for node affinity: a pod without terms goes anywhere, the
    terms are alternatives, the expressions of a term are all required, and a
    term without any matches nothing.  Only "In" is interpreted, the other
    operators are [other]. *)
Section Scheduling.
Context `{Client} (other : gmap string string -> NodeSelectorRequirement -> bool).

Definition requirement_matches (labels : gmap string string) (e : NodeSelectorRequirement) : bool :=
  if decide (nr_operator e = "In") then
    match labels !! nr_key e with Some v => bool_decide (v ∈ nr_values e) | None => false end
  else other labels e.

Definition term_matches (labels : gmap string string) (t : NodeSelectorTerm) : bool :=
  nonempty (nt_expressions t ++ nt_fields t)
  && forallb (requirement_matches labels) (nt_expressions t ++ nt_fields t).

Definition schedulable (s : PodSpec) (labels : gmap string string) : bool :=
  match ps_affinity s with
  | Some a =>
      match af_node a with
      | Some n => match na_required n with Some terms => existsb (term_matches labels) terms | None => true end
      | None => true
      end
  | None => true
  end.

Lemma schedulable_required s labels terms :
  schedulable (with_required_terms s terms) labels = existsb (term_matches labels) terms.
Proof. done. Qed.

Lemma odiglet_term_matches labels label :
  term_matches labels (odiglet_term label)
  = bool_decide (labels !! label = Some OdigletInstalledLabelValue).
Proof.
  unfold term_matches, requirement_matches. simpl. rewrite andb_true_r.
  destruct (labels !! label) as [v|]; repeat case_bool_decide; try done; set_solver.
Qed.

(** The affinity does what it is for when the pod had none: the pod goes to
    the nodes where odiglet is installed.  When the pod has required terms of
    its own that do not mention odiglet, the term is one more alternative: the
    pod may still go to every node it could go to, and now also to every node
    with odiglet, whatever its own terms ask for. *)
Theorem odiglet_affinity_widens (s : PodSpec) (labels : gmap string string) :
  let label := DetermineNodeOdigletInstalledLabelByTier in
  let installed := bool_decide (labels !! label = Some OdigletInstalledLabelValue) in
  let terms := required_terms s in
  (existsb (fun t => existsb (asks_for_odiglet label) (nt_expressions t)) terms = false ->
   schedulable (AddOdigletInstalledAffinity s) labels
   = existsb (term_matches labels) terms || installed)
  ∧ (terms = [] -> schedulable (AddOdigletInstalledAffinity s) labels = installed).
Proof.
  intros label installed terms.
  assert (Hadd : existsb (fun t => existsb (asks_for_odiglet label) (nt_expressions t)) terms = false ->
    schedulable (AddOdigletInstalledAffinity s) labels = existsb (term_matches labels) terms || installed).
  { intros Hno. unfold AddOdigletInstalledAffinity. fold label terms. rewrite Hno, schedulable_required, existsb_app.
    cbn [existsb]. by rewrite odiglet_term_matches, orb_false_r. }
  split; [exact Hadd|]. intros Hnil. rewrite Hadd by by rewrite Hnil. by rewrite Hnil.
Qed.
End Scheduling.
