(* ===== verification/PodsWebhook.v ===== *)
(** * The pods webhook
    (instrumentor/controllers/agentenabled/pods_webhook.go)

    Every pod of an instrumented workload is mutated when it is created: its
    containers get the agents that the workload's config enables, and the pod
    gets the label that the rollout looks for.  A pod is always admitted; when
    anything fails it is admitted as it is. *)

From stdpp Require Import pretty.
From S2P Require Import Prelude.
From S2P Require Import GoStrings.
From S2P Require Import GoSort.
From S2P Require Import K8s.
From S2P Require Import Workload.
From S2P Require Import Api.
From S2P Require Import GoLib.
From S2P Require Import Objects.
From S2P Require Import Client.
From S2P Require Import Distros.
From S2P Require Import ContainerAgent.
From S2P Require Import Backoff.
From S2P Require Import Reconcile.
From S2P Require Import PodOwner.
From S2P Require Import PodEnv.
From S2P Require Import EnvInjector.
From S2P Require Import PodMounts.

(** ** Errors

    [errors.Is] tells the three expected outcomes from the other errors,
    which only their text distinguishes. *)
Inductive WebhookError :=
| ErrNotOdigablePod | ErrInjectionDisabled | ErrIgnorePod
| ErrOther (e : error).

(** [fmt.Errorf("%w: %v", sentinel, err)]. *)
Definition wrapped (sentinel : string) (err : error) : WebhookError :=
  ErrOther (ENew (sentinel +:+ ": " +:+ Error err)).

Definition ErrOdigletDeviceNotHealthy := "odiglet device plugin is unhealthy".
Definition ErrMissingInstrumentationConfig := "instrumentation config is missing".
Definition ErrMissingOdigosConfiguration := "odigos configuration is missing".
Definition ErrEnvVarInjection := "failed to inject environment variables".
Definition ErrMissingServiceName : WebhookError := ErrOther (ENew "instrumentation config is missing service name").
Definition ErrUnknownDistroName : WebhookError := ErrOther (ENew "distro not found").
Definition ErrMountMethodNotSet : WebhookError := ErrOther (ENew "mount method is not set in ODIGOS config").

(** ** One container *)

Section Container.
Context `{KubeVersions} `{WebhookLibrary} `{Client}.

(** A setting that an agent without OpAMP reads from a variable. *)
Definition inject_config (wanted : bool) (what envVarName : string) (config : option AgentJson) (st : EnvState)
    : error + EnvState :=
  match config with
  | Some json =>
      if wanted then
        match json_Marshal json with
        | inl err => inl (EWrap ("failed to marshal " +:+ what) err)
        | inr text => inr (InjectConstEnvVarToPodContainer envVarName text st)
        end
      else inr st
  | None => inr st
  end.

Definition distro_supports (d : OtelDistro) (feature : DistroTraces -> option bool) : bool :=
  match d_traces d with Some t => deref_bool (feature t) | None => false end.

Definition supports_agent_span_metrics (d : OtelDistro) : bool :=
  match d_agent_metrics d with Some m => deref_bool (dam_span_metrics m) | None => false end.

Definition traces_setting {A} (c : ContainerAgentConfig) (f : AgentTracesConfig -> option A) : option A :=
  match cac_traces c with Some t => f t | None => None end.

Definition inject_span_metrics (c : ContainerAgentConfig) (d : OtelDistro) (st : EnvState) : error + EnvState :=
  match cac_metrics c with
  | Some m =>
      match am_span_metrics m with
      | Some spanMetrics =>
          if supports_agent_span_metrics d then
            let endpoint := LocalTrafficOTLPHttpDataCollectionEndpoint "$(NODE_IP)" +:+ "/v1/metrics" in
            inject_config (d_config_as_env_vars d) "span metrics config" "ODIGOS_AGENT_SPAN_METRICS_CONFIG"
              (Some (JSpanMetrics spanMetrics))
              (InjectConstEnvVarToPodContainer "ODIGOS_EXPORTER_OTLP_METRICS_ENDPOINT" endpoint st)
          else inr st
      | None => inr st
      end
  | None => inr st
  end.

(** The trace settings, each when the distribution supports it. *)
Definition inject_trace_configs (payloads : Heap) (c : ContainerAgentConfig) (d : OtelDistro) (st : EnvState)
    : error + EnvState :=
  let wanted b := b && d_config_as_env_vars d in
  err_bind (inject_config (wanted (distro_supports d dtr_url_templatization)) "URL templatization config"
              "ODIGOS_AGENT_URL_TEMPLATIZATION" (JUrlTemplatization <$> traces_setting c at_url_templatization) st)
  (fun st =>
  err_bind (inject_config (wanted (distro_supports d (fun t => dhs_supported <$> dtr_head_sampling t)))
              "head sampling config" "ODIGOS_AGENT_HEAD_SAMPLING" (JHeadSampling <$> traces_setting c at_head_sampling) st)
  (fun st =>
  err_bind (inject_config (wanted (distro_supports d dtr_span_renamer)) "span renamer config"
              "ODIGOS_AGENT_SPAN_RENAMER" (JSpanRenamer <$> traces_setting c at_span_renamer) st)
  (fun st =>
  err_bind (inject_config (wanted (distro_supports d dtr_custom_instrumentations)) "custom instrumentations config"
              "ODIGOS_PHP_AGENT_CUSTOM_INSTRUMENTATIONS"
              (JCustomInstrumentations <$> traces_setting c at_custom_instrumentations) st)
  (fun st =>
  inject_config (wanted (distro_supports d dtr_payload_collection)) "payload collection config"
    "ODIGOS_AGENT_PAYLOAD_COLLECTION"
    ((fun p => JPayloadCollection (h_payload payloads !! p)) <$> traces_setting c at_payload_collection) st)))).

Definition inject_opamp (d : OtelDistro) (mountMethod : string) (st : EnvState) : EnvState :=
  let supported := match d_runtime_agent d with Some ra => ra_opamp_transports ra | None => [] end in
  switch (ResolveTransport (dev_opamp_client (d_env d)) supported mountMethod)
    [(OpAmpTransportUnix, InjectOpampUnixSocketEnvVar st);
     (OpAmpTransportHTTP, InjectOpampServerEnvVar st)]
    st.

Definition inject_signals (c : ContainerAgentConfig) (d : OtelDistro) (st : EnvState) : EnvState :=
  if dev_signals_as_static_env (d_env d) then
    let logsEnabled := match cac_logs c with
                       | Some l => bool_decide (al_ebpf_log_capture l = None)
                       | None => false
                       end in
    InjectSignalsAsStaticOtelEnvVars (bool_decide (is_Some (cac_traces c)))
      (bool_decide (is_Some (cac_metrics c))) logsEnabled st
  else st.

(** Every variable but the resource attributes. *)
Definition inject_env_vars (payloads : Heap) (c : ContainerAgentConfig) (pw : PodWorkload)
    (config : OdigosConfiguration) (d : OtelDistro) (container : Container) : error + EnvState :=
  let st := (GetEnvVarNamesSet container, container) in
  err_bind (InjectStaticEnvVarsToPodContainer (dev_static (d_env d)) (cac_params c) st) (fun st =>
  let st := InjectOdigosK8sEnvVars (d_name d) (pw_namespace pw) st in
  let mountMethod := default K8sVirtualDeviceMountMethod (pc_mount_method (conf_pods config)) in
  let st := inject_opamp d mountMethod st in
  let st := inject_signals c d st in
  let st := match d_own_diagnostics d with
            | Some _ => InjectAgentDiagnosticsEnvVars (cac_diagnostics c) st
            | None => st
            end in
  let st := if dev_otlp_http_local_node (d_env d) then InjectOtlpHttpEndpointEnvVar st else st in
  err_bind (inject_span_metrics c d st) (inject_trace_configs payloads c d)).

(** Directories to mount, and those to copy. *)
Definition mounts_directories (mountMethod : string) : bool :=
  bool_decide (mountMethod = K8sHostPathMountMethod)
  || bool_decide (mountMethod = K8sInitContainerMountMethod)
  || bool_decide (mountMethod = K8sCsiDriverMountMethod).

Definition uses_loader (config : OdigosConfiguration) (ra : RuntimeAgent) : bool :=
  match conf_env_injection config with
  | Some m => ra_ld_preload_supported ra && loader_requested m
  | None => false
  end.

Definition LoaderDirectory := "{{ODIGOS_AGENTS_DIR}}/loader".

(** Whether a volume is needed, the directories to copy, the container. *)
Definition Mounted : Type := bool * gset string * Container.

Definition mount_one (acc : Mounted) (agentDirectoryName : string) : Mounted :=
  (true, {[ agentDirectoryName ]} ∪ acc.1.2, MountDirectory agentDirectoryName acc.2).

Definition mount_agent (config : OdigosConfiguration) (mountMethod : string) (ra : RuntimeAgent) (c : Container) : Mounted :=
  if mounts_directories mountMethod then
    let acc := foldl mount_one (false, ∅, c) (ra_directory_names ra) in
    if uses_loader config ra then
      (true, {[ LoaderDirectory ]} ∪ acc.1.2, MountDirectory (OdigosAgentsDirectory +:+ "/loader") acc.2)
    else acc
  else (false, ∅, c).

(** A nil mount method would panic, for a distribution with an agent. *)
Definition injectOdigosToContainer (payloads : Heap) (containerConfig : ContainerAgentConfig) (pw : PodWorkload)
    (serviceName : string) (config : OdigosConfiguration) (d : OtelDistro) (owners : list OwnerReference)
    (container : Container) : go (error + Mounted) :=
  match inject_env_vars payloads containerConfig pw config d container with
  | inl err => Done (inl err)
  | inr st =>
      match d_runtime_agent d with
      | None => Done (inr (false, ∅, st.2))
      | Some ra =>
          go_bind (go_deref (pc_mount_method (conf_pods config))) (fun mountMethod =>
          let '(volumeMounted, dirs, c) := mount_agent config mountMethod ra st.2 in
          let c := if ra_k8s_attrs_via_env_vars ra
                   then (InjectOtelResourceAndServiceNameEnvVars pw serviceName owners (st.1, c)).2 else c in
          let c := match ra_device ra with
                   | Some deviceName =>
                       if decide (mountMethod = K8sVirtualDeviceMountMethod)
                       then InjectDeviceToContainer deviceName c else c
                   | None => c
                   end in
          Done (inr (volumeMounted, dirs, c)))
      end
  end.
End Container.

(** ** The init container *)

Definition OdigosInitContainerName := "odigos-agents".
Definition OdigletContainerAgentDirectory := "/instrumentations".

Section InitContainer.
Context `{Client} `{GoSort} `{GoMapOrder}.

(** The image of the environment, else the image of this version. *)
Definition getInitContainerImage (config : OdigosConfiguration) : string :=
  match LookupEnv "ODIGOS_INIT_CONTAINER_IMAGE" with
  | Some image => image
  | None => pc_image_prefix (conf_pods config) +:+ "/odigos-agents:" +:+ default "" (LookupEnv "ODIGOS_VERSION")
  end.

Definition copy_command (dir : string) : string :=
  "cp -r " +:+ replace_all AgentPlaceholderDirectory OdigletContainerAgentDirectory dir +:+ " " +:+ mount_path dir.

Definition copy_commands (dirsToCopy : gset string) : list string :=
  copy_command <$> SortFunc string_compare (map_order (elements dirsToCopy)).

Definition resource_list (cpu memory : Z) : gmap string string :=
  {[ "cpu" := pretty cpu +:+ "m"; "memory" := pretty memory +:+ "Mi" ]}.

Definition init_container (dirsToCopy : gset string) (config : OdigosConfiguration)
    (r : AgentsInitContainerResources) : Container :=
  mkContainer OdigosInitContainerName None None None []
    [mkMount OdigosAgentMountVolumeName "" OdigosAgentsDirectory false]
    (resource_list (air_limit_cpu r) (air_limit_memory r))
    (resource_list (air_request_cpu r) (air_request_memory r))
    (getInitContainerImage config) "IfNotPresent" ["sh"; "-c"; join " && " (copy_commands dirsToCopy)]
    (Some (mkSecurityContext (Some false) (Some false))).

Definition with_init_containers (s : PodSpec) (l : list Container) : PodSpec :=
  mkPodSpec (ps_containers s) l (ps_volumes s) (ps_pull_secrets s) (ps_affinity s).
Definition with_pull_secrets (s : PodSpec) (l : list string) : PodSpec :=
  mkPodSpec (ps_containers s) (ps_init_containers s) (ps_volumes s) l (ps_affinity s).
Definition with_pod_containers (s : PodSpec) (l : list Container) : PodSpec :=
  mkPodSpec l (ps_init_containers s) (ps_volumes s) (ps_pull_secrets s) (ps_affinity s).

Definition createInitContainer (dirsToCopy : gset string) (config : OdigosConfiguration) (s : PodSpec)
    : go PodSpec :=
  go_bind (go_deref (pc_init_resources (conf_pods config))) (fun r =>
  if existsb (fun c => bool_decide (c_name c = OdigosInitContainerName)) (ps_init_containers s) then Done s
  else Done (with_init_containers s (ps_init_containers s ++ [init_container dirsToCopy config r]))).

Definition injectImagePullSecret (s : PodSpec) (secretName : string) : PodSpec :=
  if decide (secretName = "") then s
  else if decide (secretName ∈ ps_pull_secrets s) then s
  else with_pull_secrets s (ps_pull_secrets s ++ [secretName]).
End InitContainer.

Definition shouldInjectInitContainerPullSecrets `{KubeVersions} (k8sVersion : option KVersion) : bool :=
  match k8sVersion with
  | Some v => AtLeast v (version_MustParse "1.35.0")
  | None => false
  end.

(** ** Runtime details and the variables that users ask for *)

(** An override without runtime details ends the search among overrides. *)
Definition getRuntimeInfoForContainerName (ic : InstrumentationConfig) (containerName : string)
    : option RuntimeDetailsByContainer :=
  match GetOverridesForContainer ic containerName with
  | Some o =>
      match co_runtime_info o with
      | Some d => Some d
      | None => GetRuntimeDetailsForContainer (ic_status ic) containerName
      end
  | None => GetRuntimeDetailsForContainer (ic_status ic) containerName
  end.

Section UserEnv.
Context `{GoMapOrder}.

Definition inject_all (vars : gmap string string) (c : Container) : Container :=
  (foldl (fun st kv => InjectConstEnvVarToPodContainer kv.1 kv.2 st) (GetEnvVarNamesSet c, c)
     (map_order (map_to_list vars))).2.

Definition user_env_step (languages : gmap string LanguageConfig) (containers : list Container)
    (details : RuntimeDetailsByContainer) : list Container :=
  match languages !! rd_language details with
  | Some langConfig =>
      if lc_enabled langConfig then
        update_first (fun c => bool_decide (c_name c = rd_container_name details))
          (inject_all (lc_env_vars langConfig)) containers
      else containers
  | None => containers
  end.

Definition InjectUserEnvForLang (languages : gmap string LanguageConfig) (ic : InstrumentationConfig)
    (containers : list Container) : list Container :=
  foldl (user_env_step languages) containers (st_runtime_details (ic_status ic)).
End UserEnv.

(** ** The pod *)

Record PodsWebhook `{KubeVersions} := mkWebhook { DistrosGetter : Getter; K8sVersion : option KVersion }.

Section Webhook.
Context `{KubeVersions} `{WebhookLibrary} `{Client} `{GoSort} `{GoMapOrder}.

(** The namespace of a pod may only be known from the request. *)
Definition podWorkload (pod : Pod) (reqNamespace : string) : error + option PodWorkload :=
  match PodWorkloadObject pod with
  | inl err => inl (EWrap "failed to extract pod workload details from pod" err)
  | inr None => inr None
  | inr (Some pw) =>
      if decide (pw_namespace pw = "") then
        if decide (reqNamespace = "") then
          inl (ENew ("namespace is empty for pod " +:+ om_namespace (pod_meta pod) +:+ "/" +:+ om_name (pod_meta pod)
                     +:+ ", Skipping Injection of ODIGOS environment variables"))
        else inr (Some (mkPodWorkload (pw_name pw) reqNamespace (pw_kind pw)))
      else inr (Some pw)
  end.

(** The agents of the containers, one after the other; the first failure
    ends it. *)
Fixpoint inject_containers (p : PodsWebhook) (payloads : Heap) (ic : InstrumentationConfig) (pw : PodWorkload)
    (config : OdigosConfiguration) (owners : list OwnerReference) (containers : list Container)
    : go (WebhookError + bool * gset string * list Container) :=
  match containers with
  | [] => Done (inr (false, ∅, []))
  | container :: containers =>
      go_bind
        (match GetContainerAgentConfig (ic_spec ic) (c_name container) with
         | None => Done (inr (false, ∅, container))
         | Some containerConfig =>
             if negb (cac_enabled containerConfig) || bool_decide (cac_distro containerConfig = "") then
               Done (inr (false, ∅, container))
             else
               match GetDistroByName (DistrosGetter p) (cac_distro containerConfig) with
               | None => Done (inl ErrUnknownDistroName)
               | Some distroMetadata =>
                   go_bind (injectOdigosToContainer payloads containerConfig pw (spec_service_name (ic_spec ic))
                              config distroMetadata owners container)
                     (fun r => Done (match r with inl err => inl (ErrOther err) | inr m => inr m end))
               end
         end)
        (fun r =>
         match r with
         | inl err => Done (inl err)
         | inr (mounted, dirs, c) =>
             go_bind (inject_containers p payloads ic pw config owners containers) (fun rest =>
             Done (match rest with
                   | inl err => inl err
                   | inr (mounted', dirs', cs) => inr (mounted || mounted', dirs ∪ dirs', c :: cs)
                   end))
         end)
  end.

(** The loader or the appended variables, in every container whose agent is
    enabled. *)
Definition instrument_container (p : PodsWebhook) (ic : InstrumentationConfig) (config : OdigosConfiguration)
    (container : Container) : error + Container :=
  match getRuntimeInfoForContainerName ic (c_name container) with
  | None => inr container
  | Some runtimeDetails =>
      if decide (rd_language runtimeDetails = UnknownProgrammingLanguage) then inr container
      else match GetContainerAgentConfig (ic_spec ic) (c_name container) with
           | None => inr container
           | Some containerConfig =>
               if negb (cac_enabled containerConfig) || bool_decide (cac_distro containerConfig = "") then
                 inr container
               else match GetDistroByName (DistrosGetter p) (cac_distro containerConfig) with
                    | None => inr container
                    | Some otelDistro => InjectOdigosAgentEnvVars otelDistro runtimeDetails config container
                    end
           end
  end.

Fixpoint injectOdigosInstrumentation (p : PodsWebhook) (ic : InstrumentationConfig) (config : OdigosConfiguration)
    (containers : list Container) : error + list Container :=
  match containers with
  | [] => inr []
  | container :: containers =>
      err_bind (instrument_container p ic config container) (fun c =>
      err_bind (injectOdigosInstrumentation p ic config containers) (fun cs => inr (c :: cs)))
  end.

(** The volume behind the mounts, and what fills it. *)
Definition mount_volume (p : PodsWebhook) (config : OdigosConfiguration) (mountMethod : string)
    (volumeMounted : bool) (dirsToCopy : gset string) (s : PodSpec) : go PodSpec :=
  if negb volumeMounted then Done s
  else if decide (mountMethod = K8sHostPathMountMethod) then Done (MountPodVolumeToHostPath s)
  else if decide (mountMethod = K8sInitContainerMountMethod) then
    let s := MountPodVolumeToEmptyDir s in
    if negb (nonempty (elements dirsToCopy)) then Done s
    else
      go_bind (createInitContainer dirsToCopy config s) (fun s =>
      Done (if shouldInjectInitContainerPullSecrets (K8sVersion p)
            then foldl injectImagePullSecret s (pc_image_pull_secrets (conf_pods config)) else s))
  else if decide (mountMethod = K8sCsiDriverMountMethod) then Done (MountPodVolumeToCSI s)
  else Done s.

Definition needs_affinity (config : OdigosConfiguration) (mountMethod : string) : bool :=
  negb (deref_bool (pc_karpenter_enabled (conf_pods config)))
  && (bool_decide (mountMethod = K8sHostPathMountMethod) || bool_decide (mountMethod = K8sCsiDriverMountMethod)).

Definition with_pod_spec (pod : Pod) (m : ObjectMeta) (s : PodSpec) : Pod :=
  mkPod m (pod_uid pod) (pod_node_name pod) s (pod_labels_allocated pod) (pod_phase pod) (pod_start_time pod)
    (pod_init_statuses pod) (pod_statuses pod).

Definition with_hash_label (m : ObjectMeta) (hash : string) : ObjectMeta :=
  mkObjectMeta (om_type_kind m) (om_name m) (om_namespace m) (<[OdigosAgentsMetaHashLabel := hash]> (om_labels m))
    (om_annotations m) (om_owners m) (om_generation m) (om_deletion m).

(** A pod without labels has a nil map, and the assignment panics. *)
Definition label_pod (pod : Pod) (s : PodSpec) (hash : string) : go Pod :=
  if pod_labels_allocated pod then Done (with_pod_spec pod (with_hash_label (pod_meta pod) hash) s) else Panic.

(** What is done to the spec of a pod whose config has the injection on. *)
Definition inject_spec (p : PodsWebhook) (payloads : Heap) (ic : InstrumentationConfig) (pw : PodWorkload)
    (config : OdigosConfiguration) (mountMethod : string) (owners : list OwnerReference) (s : PodSpec)
    : go (WebhookError + PodSpec) :=
  let s := if needs_affinity config mountMethod then AddOdigletInstalledAffinity s else s in
  go_bind (inject_containers p payloads ic pw config owners (ps_containers s)) (fun r =>
  match r with
  | inl err => Done (inl err)
  | inr (volumeMounted, dirsToCopy, containers) =>
      go_bind (mount_volume p config mountMethod volumeMounted dirsToCopy (with_pod_containers s containers)) (fun s =>
      Done (match injectOdigosInstrumentation p ic config (ps_containers s) with
            | inl err => inl (wrapped ErrEnvVarInjection err)
            | inr containers =>
                inr (with_pod_containers s
                       (match pc_user_envs (conf_pods config) with
                        | Some languages => InjectUserEnvForLang languages ic containers
                        | None => containers
                        end))
            end))
  end).

(** What the config and the configuration have to say before anything is
    injected: the mount method, or the reason not to. *)
Definition device_gate (c : Cluster) (config : OdigosConfiguration) (mountMethod : string)
    : go (option WebhookError) :=
  if bool_decide (mountMethod = K8sVirtualDeviceMountMethod)
     && deref_bool (pc_check_device_health (conf_pods config)) then
    go_bind (CheckDevicePluginContainersHealth c GetCurrentNamespace) (fun r =>
    Done (wrapped ErrOdigletDeviceNotHealthy <$> r))
  else Done None.

Definition injectOdigos (p : PodsWebhook) (c : Cluster) (payloads : Heap) (pod : Pod) (reqNamespace : string)
    : go (WebhookError + Pod) :=
  match podWorkload pod reqNamespace with
  | inl _ => Done (inl ErrIgnorePod)
  | inr None => Done (inl ErrNotOdigablePod)
  | inr (Some pw) =>
      match GetIC c (pw_namespace pw) (CalculateWorkloadRuntimeObjectName (pw_name pw) (pw_kind pw)) with
      | inl err =>
          Done (inl (if IsNotFound err then ErrNotOdigablePod else wrapped ErrMissingInstrumentationConfig err))
      | inr ic =>
          if negb (spec_injection_enabled (ic_spec ic)) then Done (inl ErrInjectionDisabled)
          else match GetCurrentOdigosConfiguration c with
               | inl err => Done (inl (wrapped ErrMissingOdigosConfiguration err))
               | inr config =>
                   match pc_mount_method (conf_pods config) with
                   | None => Done (inl ErrMountMethodNotSet)
                   | Some mountMethod =>
                       go_bind (device_gate c config mountMethod) (fun unhealthy =>
                       match unhealthy with
                       | Some err => Done (inl err)
                       | None =>
                           if decide (spec_service_name (ic_spec ic) = "") then Done (inl ErrMissingServiceName)
                           else
                             go_bind (inject_spec p payloads ic pw config mountMethod (om_owners (pod_meta pod))
                                        (pod_spec pod)) (fun r =>
                             match r with
                             | inl err => Done (inl err)
                             | inr s =>
                                 go_bind (label_pod pod s (spec_agents_meta_hash (ic_spec ic))) (fun pod =>
                                 Done (inr pod))
                             end)
                       end)
                   end
               end
      end
  end.

(** The reply to an admission request: the pod as it is, with a message, or
    the mutated pod (as a patch). *)
Inductive Response := Allowed (msg : string) | PatchTo (pod : Pod).

(** [None]: the request does not decode to a pod. *)
Definition Handle (p : PodsWebhook) (c : Cluster) (payloads : Heap) (req : option Pod) (reqNamespace : string)
    : go Response :=
  match req with
  | None => Done (Allowed "proceeding without mutation")
  | Some pod =>
      go_bind (injectOdigos p c payloads pod reqNamespace) (fun r =>
      Done (match r with
            | inl ErrIgnorePod | inl ErrNotOdigablePod | inl ErrInjectionDisabled =>
                Allowed "odigos injection skipped: not applicable"
            | inl (ErrOther _) => Allowed "odigos injection failed internally"
            | inr mutated => PatchTo mutated
            end))
  end.
End Webhook.
