(* ===== verification/PodsWebhookProperties.v ===== *)
(** * Properties of the pods webhook

    What a mutated pod keeps of the pod that was submitted, what it gains, and
    that a pod is always admitted. *)

From S2P Require Import Prelude.
From S2P Require Import GoStrings.
From S2P Require Import GoSort.
From S2P Require Import K8s.
From S2P Require Import Status.
From S2P Require Import Workload.
From S2P Require Import Api.
From S2P Require Import GoLib.
From S2P Require Import Objects.
From S2P Require Import Client.
From S2P Require Import Samples.
From S2P Require Import Store.
From S2P Require Import Distros.
From S2P Require Import ContainerAgent.
From S2P Require Import Backoff.
From S2P Require Import Reconcile.
From S2P Require Import PodEnv.
From S2P Require Import EnvInjector.
From S2P Require Import PodMounts.
From S2P Require Import PodsWebhook.

(** ** What stays of a container *)

(** The container still runs the same image with the same command; except for
    the variables in [names] its variables are there, and its mounts are. *)
Record container_kept (names : list string) (c c' : Container) : Prop := {
  kept_name : c_name c' = c_name c;
  kept_image : c_image c' = c_image c;
  kept_command : c_command c' = c_command c;
  kept_security : c_security c' = c_security c;
  kept_probes : (c_startup_http c', c_liveness_http c', c_readiness_http c')
                = (c_startup_http c, c_liveness_http c, c_readiness_http c);
  kept_env : keeps names (c_env c) (c_env c');
  kept_mounts : c_mounts c `prefix_of` c_mounts c';
  kept_limits : dom (c_limits c) ⊆ dom (c_limits c')
}.

#[export] Instance container_kept_preorder names : PreOrder (container_kept names).
Proof.
  split.
  - intros c. by split.
  - intros c1 c2 c3 [] []. split; try congruence.
    + by transitivity (c_env c2).
    + by transitivity (c_mounts c2).
    + by transitivity (dom (c_limits c2)).
Qed.

Lemma gains_kept names c c' : gains c c' -> container_kept names c c'.
Proof. intros (added & -> & _). split; try done. apply keeps_app. Qed.

Lemma gains_mounts c c' : gains c c' -> c_mounts c' = c_mounts c.
Proof. by intros (added & -> & _). Qed.

Lemma mount_directory_kept names dir c : container_kept names c (MountDirectory dir c).
Proof.
  unfold MountDirectory. destruct (existsb _ _); [reflexivity|].
  split; simpl; try done. by apply prefix_app_r.
Qed.

Lemma device_kept names device c : container_kept names c (InjectDeviceToContainer device c).
Proof. split; simpl; try done. rewrite dom_insert. set_solver. Qed.

Lemma agent_kept d details conf c c' :
  InjectOdigosAgentEnvVars d details conf c = inr c' ->
  container_kept ((d_append_env_vars d).*1) c c' ∧ c_mounts c' = c_mounts c.
Proof. intros (env & -> & Hk)%inject_agent_keeps. done. Qed.

#[export] Hint Resolve gains_kept mount_directory_kept device_kept : odigos_env.

(** ** Mounts of a container *)

(** The directories that the webhook mounts. *)
Definition agent_mount (m : VolumeMount) : Prop := vm_name m = OdigosAgentMountVolumeName.

(** The container has no more agent mounts than the directories of [dirs]
    ask for; each mount comes with one of the directories. *)
Definition mounts_for (dirs : gset string) (c c' : Container) : Prop :=
  forall m, m ∈ c_mounts c' ->
    m ∈ c_mounts c ∨ (agent_mount m ∧ exists dir, dir ∈ dirs ∧ vm_mount_path m = mount_path dir).

Lemma mounts_for_refl dirs c c' : c_mounts c' = c_mounts c -> mounts_for dirs c c'.
Proof. intros E m. rewrite E. by left. Qed.

Lemma mounts_for_trans d1 d2 c1 c2 c3 :
  mounts_for d1 c1 c2 -> mounts_for d2 c2 c3 -> mounts_for (d1 ∪ d2) c1 c3.
Proof.
  intros H1 H2 m Hm. destruct (H2 m Hm) as [Hm2|(Ha & dir & ? & ?)].
  - destruct (H1 m Hm2) as [?|(Ha & dir & ? & ?)]; [by left|right]. split; [done|]. exists dir. set_solver.
  - right. split; [done|]. exists dir. set_solver.
Qed.

Lemma mounts_for_mono d1 d2 c c' : d1 ⊆ d2 -> mounts_for d1 c c' -> mounts_for d2 c c'.
Proof. intros Hd H1 m Hm. destruct (H1 m Hm) as [?|(? & dir & ? & ?)]; [by left|]. right. set_solver. Qed.

Lemma mount_directory_for dir c : mounts_for {[ dir ]} c (MountDirectory dir c).
Proof.
  unfold MountDirectory. destruct (existsb _ _); [by apply mounts_for_refl|].
  intros m [Hm|Hm]%elem_of_app; [by left|right]. apply list_elem_of_singleton in Hm as ->.
  split; [done|]. exists dir. set_solver.
Qed.

(** The loader's directory is mounted at the path its placeholder stands for. *)
Lemma loader_path : mount_path LoaderDirectory = mount_path (OdigosAgentsDirectory +:+ "/loader").
Proof. by vm_compute. Qed.

Lemma mount_loader_for c : mounts_for {[ LoaderDirectory ]} c (MountDirectory (OdigosAgentsDirectory +:+ "/loader") c).
Proof.
  intros m Hm. destruct (mount_directory_for _ _ m Hm) as [?|(? & dir & Hd & ?)]; [by left|right].
  split; [done|]. exists LoaderDirectory. apply elem_of_singleton in Hd as ->. rewrite loader_path. set_solver.
Qed.

(** What mounting the agent establishes: the volume is asked for exactly when
    there is something to copy, and every new mount has its directory. *)
Lemma mount_agent_spec config method ra c mounted dirs c' names :
  mount_agent config method ra c = (mounted, dirs, c') ->
  container_kept names c c' ∧ c_env c' = c_env c ∧ mounts_for dirs c c' ∧ mounted = bool_decide (dirs <> ∅)
  ∧ (mounted = true -> mounts_directories method = true).
Proof.
  unfold mount_agent. destruct (mounts_directories method).
  2:{ intros [= <- <- <-]. split_and!; [reflexivity|done|by apply mounts_for_refl|by rewrite bool_decide_eq_false_2 by auto|done]. }
  set (P := fun acc : Mounted => container_kept names c acc.2 ∧ c_env acc.2 = c_env c ∧ mounts_for acc.1.2 c acc.2
              ∧ acc.1.1 = bool_decide (acc.1.2 <> ∅)).
  assert (HP : forall l acc, P acc -> P (foldl mount_one acc l)).
  { induction l as [|d l IH]; intros acc HPacc; [done|]. apply IH.
    destruct acc as [[m ds] c1]. destruct HPacc as (H1 & H2 & H3 & H4). unfold P. simpl in *. split_and!.
    - etransitivity; [exact H1|]. auto with odigos_env.
    - rewrite <- H2. unfold MountDirectory. by destruct (existsb _ _).
    - rewrite union_comm_L. eapply mounts_for_trans; [exact H3|apply mount_directory_for].
    - rewrite bool_decide_eq_true_2; [done|]. set_solver. }
  specialize (HP (ra_directory_names ra) (false, ∅, c)).
  destruct (foldl mount_one (false, ∅, c) (ra_directory_names ra)) as [[m ds] c1].
  destruct HP as (H1 & H2 & H3 & H4).
  { unfold P. simpl. split_and!; [reflexivity|done|by apply mounts_for_refl|by rewrite bool_decide_eq_false_2 by auto]. }
  simpl in *. destruct (uses_loader config ra); intros [= <- <- <-].
  - split_and!; [| | | |done].
    + etransitivity; [exact H1|]. auto with odigos_env.
    + rewrite <- H2. unfold MountDirectory. by destruct (existsb _ _).
    + rewrite union_comm_L. eapply mounts_for_trans; [exact H3|apply mount_loader_for].
    + rewrite bool_decide_eq_true_2; [done|]. set_solver.
  - split_and!; done.
Qed.

(** ** The variables of a container *)
Section ContainerFacts.
Context `{KubeVersions} `{WebhookLibrary} `{Client}.

Lemma inject_config_ok w what n j st st' : inject_config w what n j st = inr st' -> env_ok st st'.
Proof.
  unfold inject_config. destruct j as [j|]; [|by intros [= ->]]. destruct w; [|by intros [= ->]].
  destruct (json_Marshal j); [done|]. intros [= <-]. apply inject_env_ok.
Qed.
#[local] Hint Resolve inject_config_ok : odigos_env.

Lemma trace_configs_ok payloads c d st st' : inject_trace_configs payloads c d st = inr st' -> env_ok st st'.
Proof.
  unfold inject_trace_configs.
  intros (s1 & E1 & (s2 & E2 & (s3 & E3 & (s4 & E4 & E5)%err_bind_inr)%err_bind_inr)%err_bind_inr)%err_bind_inr.
  transitivity s1; [eauto with odigos_env|]. transitivity s2; [eauto with odigos_env|].
  transitivity s3; [eauto with odigos_env|]. transitivity s4; eauto with odigos_env.
Qed.

Lemma span_metrics_ok c d st st' : inject_span_metrics c d st = inr st' -> env_ok st st'.
Proof.
  unfold inject_span_metrics. destruct (cac_metrics c) as [m|]; [|by intros [= ->]].
  destruct (am_span_metrics m); [|by intros [= ->]]. destruct (supports_agent_span_metrics d); [|by intros [= ->]].
  intros Hc%inject_config_ok. etransitivity; [|exact Hc]. apply inject_env_ok.
Qed.

Lemma inject_opamp_ok d m st : env_ok st (inject_opamp d m st).
Proof.
  unfold inject_opamp. simpl. repeat case_decide; [apply inject_env_ok|apply opamp_env_ok|reflexivity].
Qed.

Lemma inject_signals_ok c d st : env_ok st (inject_signals c d st).
Proof. unfold inject_signals. destruct (dev_signals_as_static_env _); [apply signals_env_ok|reflexivity]. Qed.

Lemma inject_env_vars_gains payloads cac pw conf d c st :
  inject_env_vars payloads cac pw conf d c = inr st -> tracked st ∧ gains c st.2.
Proof.
  unfold inject_env_vars. intros (s1 & E1 & (s2 & E2 & E3)%err_bind_inr)%err_bind_inr.
  enough (Hok : env_ok (GetEnvVarNamesSet c, c) st) by by apply Hok.
  transitivity s1; [by eapply static_env_ok|]. transitivity s2; [|by eapply trace_configs_ok].
  etransitivity; [|eapply span_metrics_ok; exact E2].
  destruct (dev_otlp_http_local_node _); [etransitivity; [|apply otlp_env_ok]|];
    (destruct (d_own_diagnostics d); [etransitivity; [|apply diagnostics_env_ok]|]);
    (etransitivity; [|apply inject_signals_ok]); (etransitivity; [apply k8s_env_ok|apply inject_opamp_ok]).
Qed.

(** Injection into a container keeps it; its new mounts are accounted for. *)
Lemma inject_container_spec payloads cac pw name conf d owners c mounted dirs c' names :
  injectOdigosToContainer payloads cac pw name conf d owners c = Done (inr (mounted, dirs, c')) ->
  container_kept names c c' ∧ mounts_for dirs c c' ∧ mounted = bool_decide (dirs <> ∅)
  ∧ (mounted = true -> exists m, pc_mount_method (conf_pods conf) = Some m ∧ mounts_directories m = true).
Proof.
  unfold injectOdigosToContainer.
  destruct (inject_env_vars payloads cac pw conf d c) as [|st] eqn:Hst; [done|].
  apply inject_env_vars_gains in Hst as [Ht Hg].
  destruct (d_runtime_agent d) as [ra|].
  2:{ intros [= <- <- <-]. split_and!; [by apply gains_kept|by apply mounts_for_refl, gains_mounts
        |by rewrite bool_decide_eq_false_2 by auto|done]. }
  destruct (pc_mount_method (conf_pods conf)) as [method|]; [|done]. simpl.
  destruct (mount_agent conf method ra st.2) as [[mt ds] c1] eqn:Hm.
  apply (mount_agent_spec _ _ _ _ _ _ _ names) in Hm as (K1 & E1 & M1 & B1 & D1).
  set (c2 := if ra_k8s_attrs_via_env_vars ra then _ else c1).
  assert (Hg2 : gains c1 c2).
  { unfold c2. destruct (ra_k8s_attrs_via_env_vars ra); [|reflexivity].
    apply (resource_env_ok pw name owners (st.1, c1)). unfold tracked, GetEnvVarNamesSet in *. simpl. by rewrite Ht, E1. }
  set (c3 := match ra_device ra with Some _ => _ | None => c2 end).
  assert (Hk3 : container_kept names c2 c3 ∧ c_mounts c3 = c_mounts c2).
  { unfold c3. destruct (ra_device ra); [|by split; [reflexivity|]]. destruct (decide (method = _)); [|by split; [reflexivity|]].
    split; [apply device_kept|done]. }
  destruct Hk3 as [Hk3 Hm3]. intros [= <- <- <-]. split_and!.
  - transitivity st.2; [by apply gains_kept|]. transitivity c1; [done|]. transitivity c2; [by apply gains_kept|done].
  - intros m Hin. rewrite Hm3, (gains_mounts _ _ Hg2) in Hin.
    destruct (M1 m Hin) as [Hi|?]; [|by right]. left. by rewrite (gains_mounts _ _ Hg) in Hi.
  - done.
  - intros Htrue. exists method. auto.
Qed.
End ContainerFacts.

(** ** The containers of the pod *)

Lemma nonempty_union (a b : gset string) :
  bool_decide (a <> ∅) || bool_decide (b <> ∅) = bool_decide (a ∪ b <> ∅).
Proof.
  destruct (decide (a = ∅)) as [->|Ha].
  - rewrite (left_id_L ∅ (∪) b). by case_bool_decide.
  - assert (a ∪ b <> ∅) by set_solver. by repeat case_bool_decide.
Qed.

Section PodFacts.
Context `{KubeVersions} `{WebhookLibrary} `{Client} `{GoSort} `{GoMapOrder}.

(** The variables that the agent of a container appends to. *)
Definition append_names (p : PodsWebhook) (ic : InstrumentationConfig) (containerName : string) : list string :=
  match GetContainerAgentConfig (ic_spec ic) containerName with
  | Some cfg => match GetDistroByName (DistrosGetter p) (cac_distro cfg) with
                | Some d => (d_append_env_vars d).*1
                | None => []
                end
  | None => []
  end.

Definition kept_by (p : PodsWebhook) (ic : InstrumentationConfig) (c c' : Container) : Prop :=
  container_kept (append_names p ic (c_name c)) c c'.

#[export] Instance kept_by_preorder p ic : PreOrder (kept_by p ic).
Proof.
  split; unfold kept_by.
  - intros c. reflexivity.
  - intros c1 c2 c3 H12 H23. rewrite (kept_name _ _ _ H12) in H23. by transitivity c2.
Qed.

Lemma inject_containers_spec p payloads ic pw conf owners cs mounted dirs cs' :
  inject_containers p payloads ic pw conf owners cs = Done (inr (mounted, dirs, cs')) ->
  Forall2 (fun c c' => kept_by p ic c c' ∧ mounts_for dirs c c') cs cs' ∧ mounted = bool_decide (dirs <> ∅)
  ∧ (mounted = true -> exists m, pc_mount_method (conf_pods conf) = Some m ∧ mounts_directories m = true).
Proof.
  revert mounted dirs cs'. induction cs as [|c cs IH]; intros mounted dirs cs'.
  { intros [= <- <- <-]. split_and!; [constructor|by rewrite bool_decide_eq_false_2 by auto|done]. }
  simpl. match goal with |- go_bind ?m _ = _ -> _ => set (step := m) end.
  assert (Hstep : forall m ds c', step = Done (inr (m, ds, c')) ->
    kept_by p ic c c' ∧ mounts_for ds c c' ∧ m = bool_decide (ds <> ∅)
    ∧ (m = true -> exists m, pc_mount_method (conf_pods conf) = Some m ∧ mounts_directories m = true)).
  { intros m ds c'. unfold step.
    assert (Hid : kept_by p ic c c ∧ mounts_for ∅ c c ∧ false = bool_decide ((∅ : gset string) <> ∅)
      ∧ (false = true -> exists m, pc_mount_method (conf_pods conf) = Some m ∧ mounts_directories m = true)).
    { split_and!; [reflexivity|by apply mounts_for_refl|by rewrite bool_decide_eq_false_2 by auto|done]. }
    destruct (GetContainerAgentConfig _ _) as [cfg|]; [|by intros [= <- <- <-]].
    destruct (_ || _); [by intros [= <- <- <-]|].
    destruct (GetDistroByName _ _) as [d|]; [|done].
    destruct (injectOdigosToContainer _ _ _ _ _ _ _ _) as [r| |] eqn:Hr; try done. simpl.
    destruct r as [|r]; [done|]. intros [= ->]. by eapply inject_container_spec. }
  destruct step as [r| |]; try done. simpl. destruct r as [|[[m ds] c']]; [done|].
  destruct (inject_containers _ _ _ _ _ _ cs) as [rest| |] eqn:Hrest; try done. simpl.
  destruct rest as [|[[m' ds'] cs'']]; [done|]. intros [= <- <- <-].
  destruct (Hstep _ _ _ eq_refl) as (K & M & B & D). destruct (IH _ _ _ eq_refl) as (F & B' & D'). split_and!.
  - constructor; [split; [done|]|].
    + eapply mounts_for_mono; [|exact M]. set_solver.
    + eapply Forall2_impl; [exact F|]. intros x y [Hx Hy]. split; [done|].
      eapply mounts_for_mono; [|exact Hy]. set_solver.
  - rewrite B, B'. apply nonempty_union.
  - destruct m; auto.
Qed.

Lemma instrumentation_spec p ic conf cs cs' :
  injectOdigosInstrumentation p ic conf cs = inr cs' ->
  Forall2 (fun c c' => kept_by p ic c c' ∧ c_mounts c' = c_mounts c) cs cs'.
Proof.
  revert cs'. induction cs as [|c cs IH]; intros cs'; simpl; [intros [= <-]; constructor|].
  intros (c' & Hc & (cs'' & Hcs & [= <-])%err_bind_inr)%err_bind_inr. constructor; [|by apply IH].
  unfold instrument_container in Hc. unfold kept_by, append_names.
  assert (Hid : forall names, container_kept names c c ∧ c_mounts c = c_mounts c) by (split; [reflexivity|done]).
  destruct (getRuntimeInfoForContainerName _ _); [|injection Hc as <-; apply Hid].
  case_decide; [injection Hc as <-; apply Hid|].
  destruct (GetContainerAgentConfig _ _); [|injection Hc as <-; apply Hid].
  destruct (_ || _); [injection Hc as <-; apply Hid|].
  destruct (GetDistroByName _ _); [|injection Hc as <-; apply Hid]. by eapply agent_kept.
Qed.

Lemma inject_all_gains vars c : gains c (inject_all vars c).
Proof.
  unfold inject_all. set (l := map_order _).
  enough (Hok : env_ok (GetEnvVarNamesSet c, c)
    (foldl (fun st kv => InjectConstEnvVarToPodContainer kv.1 kv.2 st) (GetEnvVarNamesSet c, c) l)) by by apply Hok.
  apply (foldl_preorder env_ok). intros. apply inject_env_ok.
Qed.

Lemma update_first_Forall2 {A} (R : A -> A -> Prop) `{!Reflexive R} p f (l : list A) :
  (forall x, R x (f x)) -> Forall2 R l (update_first p f l).
Proof.
  intros Hf. assert (Hrefl : forall l, Forall2 R l l) by (induction l0; constructor; auto).
  induction l as [|x l IH]; simpl; [constructor|]. destruct (p x); constructor; auto.
Qed.

Lemma user_env_gains languages ic cs : Forall2 gains cs (InjectUserEnvForLang languages ic cs).
Proof.
  unfold InjectUserEnvForLang. assert (PreOrder (Forall2 gains)).
  { split; [intros l|intros l1 l2 l3]; [induction l; constructor; auto; reflexivity|].
    revert l2 l3. induction l1 as [|x l1 IH]; intros l2 l3 H12 H23; inversion H12; subst; inversion H23; subst;
      constructor; [by etransitivity|by eapply IH]. }
  apply (foldl_preorder (Forall2 gains)). intros cs' details _. unfold user_env_step.
  destruct (languages !! rd_language details) as [lc|]; [|reflexivity]. destruct (lc_enabled lc); [|reflexivity].
  apply update_first_Forall2; [apply _|]. intros c. apply inject_all_gains.
Qed.

(** ** The rest of the spec *)

Definition has_agent_volume (s : PodSpec) : Prop := OdigosAgentMountVolumeName ∈ vol_name <$> ps_volumes s.

Definition has_init_container (s : PodSpec) : Prop := OdigosInitContainerName ∈ c_name <$> ps_init_containers s.

(** An init container that copies the directories. *)
Definition copies (dirs : gset string) (s : PodSpec) : Prop :=
  exists i, i ∈ ps_init_containers s ∧ c_command i = ["sh"; "-c"; join " && " (copy_commands dirs)]
    ∧ (exists m, m ∈ c_mounts i ∧ agent_mount m ∧ vm_mount_path m = OdigosAgentsDirectory).

Record spec_extends (s s' : PodSpec) : Prop := {
  se_containers : ps_containers s' = ps_containers s;
  se_init : ps_init_containers s `prefix_of` ps_init_containers s';
  se_volumes : ps_volumes s `prefix_of` ps_volumes s';
  se_secrets : ps_pull_secrets s `prefix_of` ps_pull_secrets s'
}.

#[export] Instance spec_extends_preorder : PreOrder spec_extends.
Proof.
  split; [by split|]. intros s1 s2 s3 [] []. split; [congruence|..]; by etransitivity.
Qed.

Lemma existsb_in {A} (f : A -> string) (l : list A) n :
  existsb (fun x => bool_decide (f x = n)) l = bool_decide (n ∈ f <$> l).
Proof.
  induction l as [|x l IH]; simpl; [done|]. rewrite IH. repeat case_bool_decide; set_solver.
Qed.

Lemma mount_volume_once source s :
  spec_extends s (mountPodVolumeIfNotExists source s) ∧ has_agent_volume (mountPodVolumeIfNotExists source s)
  ∧ ps_init_containers (mountPodVolumeIfNotExists source s) = ps_init_containers s.
Proof.
  unfold mountPodVolumeIfNotExists, has_agent_volume. rewrite existsb_in. case_bool_decide as Hin.
  - split_and!; [reflexivity|done|done].
  - split_and!; [|simpl; rewrite fmap_app, elem_of_app; right; left|done]. split; simpl; try done. by apply prefix_app_r.
Qed.

Lemma pull_secrets_extends s l :
  spec_extends s (foldl injectImagePullSecret s l)
  ∧ ps_volumes (foldl injectImagePullSecret s l) = ps_volumes s
  ∧ ps_init_containers (foldl injectImagePullSecret s l) = ps_init_containers s.
Proof.
  revert s. induction l as [|n l IH]; intros s; simpl; [by split_and!|].
  destruct (IH (injectImagePullSecret s n)) as (E & V & I). rewrite V, I. clear V I IH.
  unfold injectImagePullSecret in *. repeat case_decide; split_and!; try done.
  etransitivity; [|exact E]. split; simpl; try done. by apply prefix_app_r.
Qed.

Lemma create_init_spec dirs conf s s' :
  createInitContainer dirs conf s = Done s' ->
  spec_extends s s' ∧ ps_volumes s' = ps_volumes s ∧ (~ has_init_container s -> copies dirs s').
Proof.
  unfold createInitContainer, has_init_container. destruct (pc_init_resources _) as [r|]; [|done]. simpl.
  rewrite existsb_in. case_bool_decide as Hin; intros [= <-]; [by split_and!|]. split_and!; [|done|].
  - split; simpl; try done. by apply prefix_app_r.
  - intros _. exists (init_container dirs conf r). simpl. split_and!; [|done|].
    + rewrite elem_of_app, list_elem_of_singleton. by right.
    + eexists. split; [left|done].
Qed.

Lemma mount_volume_spec p conf method mounted dirs s s' :
  mount_volume p conf method mounted dirs s = Done s' ->
  spec_extends s s'
  ∧ (mounted = true -> mounts_directories method = true -> has_agent_volume s'
     ∧ (method = K8sInitContainerMountMethod -> dirs <> ∅ -> ~ has_init_container s -> copies dirs s')).
Proof.
  unfold mount_volume. destruct mounted; simpl; [|intros [= <-]; by split].
  case_decide as Hm1.
  { intros [= <-]. destruct (mount_volume_once (HostPath OdigosAgentsDirectory) s) as (E & V & _).
    split; [done|]. intros _ _. split; [done|]. by intros ->. }
  case_decide as Hm2.
  { destruct (mount_volume_once EmptyDir s) as (E & V & I). fold (MountPodVolumeToEmptyDir s) in E, V, I.
    destruct (nonempty (elements dirs)) eqn:Hne; simpl.
    2:{ intros [= <-]. split; [done|]. intros _ _. split; [done|]. intros _ Hd.
        destruct (elements dirs) eqn:El; [|done]. apply elements_empty_inv in El. by apply leibniz_equiv in El. }
    destruct (createInitContainer dirs conf (MountPodVolumeToEmptyDir s)) as [s2| |] eqn:Hc; try done. simpl.
    intros [= <-]. apply create_init_spec in Hc as (E2 & V2 & C2).
    destruct (pull_secrets_extends s2 (pc_image_pull_secrets (conf_pods conf))) as (E3 & V3 & I3).
    assert (Hfin : forall s3, spec_extends s2 s3 -> ps_volumes s3 = ps_volumes s2 ->
              ps_init_containers s3 = ps_init_containers s2 ->
              spec_extends s s3 ∧ (true = true -> mounts_directories method = true -> has_agent_volume s3
                ∧ (method = K8sInitContainerMountMethod -> dirs <> ∅ -> ~ has_init_container s -> copies dirs s3))).
    { intros s3 Hs Hv Hi. split; [by etransitivity; [exact E|]; etransitivity|]. intros _ _. split.
      - unfold has_agent_volume. by rewrite Hv, V2.
      - intros _ _ Hno. unfold copies. rewrite Hi. apply C2. unfold has_init_container. by rewrite I. }
    destruct (shouldInjectInitContainerPullSecrets (K8sVersion p)); by apply Hfin. }
  case_decide as Hm3; intros [= <-].
  - destruct (mount_volume_once (CSI OdigletCSIDriverName {[ "type" := "instrumentation" ]}) s) as (E & V & _).
    split; [done|]. intros _ _. split; [done|]. by intros ->.
  - split; [done|]. intros _ Hd. unfold mounts_directories in Hd.
    by rewrite !bool_decide_eq_false_2 in Hd by done.
Qed.

Lemma affinity_extends s : spec_extends s (AddOdigletInstalledAffinity s).
Proof. unfold AddOdigletInstalledAffinity. by destruct (existsb _ _). Qed.

(** What a mutated spec keeps, and what backs its new mounts. *)
Record spec_kept (p : PodsWebhook) (ic : InstrumentationConfig) (s s' : PodSpec) : Prop := {
  sk_containers : Forall2 (kept_by p ic) (ps_containers s) (ps_containers s');
  sk_init : ps_init_containers s `prefix_of` ps_init_containers s';
  sk_volumes : ps_volumes s `prefix_of` ps_volumes s';
  sk_secrets : ps_pull_secrets s `prefix_of` ps_pull_secrets s'
}.

Definition mounts_backed_by (method : string) (dirs : gset string) (s s' : PodSpec) : Prop :=
  Forall2 (mounts_for dirs) (ps_containers s) (ps_containers s')
  ∧ (dirs <> ∅ -> has_agent_volume s'
     ∧ (method = K8sInitContainerMountMethod -> ~ has_init_container s -> copies dirs s')).

Lemma Forall2_chain {A B C} (R : A -> B -> Prop) (S : B -> C -> Prop) (T : A -> C -> Prop) l1 l2 l3 :
  (forall x y z, R x y -> S y z -> T x z) -> Forall2 R l1 l2 -> Forall2 S l2 l3 -> Forall2 T l1 l3.
Proof.
  intros HT H12. revert l3. induction H12; intros l3 H23; inversion H23; subst; constructor; eauto.
Qed.

Lemma kept_after ic p dirs x y z :
  kept_by p ic x y -> mounts_for dirs x y -> kept_by p ic y z ∧ c_mounts z = c_mounts y ->
  kept_by p ic x z ∧ mounts_for dirs x z.
Proof. intros K1 M1 [K2 M2]. split; [by transitivity y|]. intros m. rewrite M2. apply M1. Qed.

Lemma inject_spec_kept p payloads ic pw conf method owners s s' :
  pc_mount_method (conf_pods conf) = Some method ->
  inject_spec p payloads ic pw conf method owners s = Done (inr s') ->
  spec_kept p ic s s' ∧ exists dirs, mounts_backed_by method dirs s s'.
Proof.
  intros Hmethod. unfold inject_spec.
  set (s0 := if needs_affinity conf method then AddOdigletInstalledAffinity s else s).
  assert (H0' : spec_extends s s0) by (unfold s0; destruct (needs_affinity _ _); [apply affinity_extends|reflexivity]).
  destruct (inject_containers p payloads ic pw conf owners (ps_containers s0)) as [r| |] eqn:Hc; try done. simpl.
  destruct r as [|[[mounted dirs] cs]]; [done|]. apply inject_containers_spec in Hc as (F1 & B1 & D1).
  destruct (mount_volume p conf method mounted dirs (with_pod_containers s0 cs)) as [s1| |] eqn:Hm; try done. simpl.
  apply mount_volume_spec in Hm as [E1 V1].
  destruct (injectOdigosInstrumentation p ic conf (ps_containers s1)) as [|cs2] eqn:Hi; [done|]. intros [= <-].
  apply instrumentation_spec in Hi. rewrite (se_containers _ _ E1) in Hi. simpl in Hi.
  rewrite (se_containers _ _ H0') in F1.
  set (cs3 := match pc_user_envs (conf_pods conf) with Some _ => _ | None => cs2 end).
  assert (F3 : Forall2 gains cs2 cs3).
  { unfold cs3. destruct (pc_user_envs _); [apply user_env_gains|]. clear. induction cs2; constructor; auto. reflexivity. }
  assert (F : Forall2 (fun c c' => kept_by p ic c c' ∧ mounts_for dirs c c') (ps_containers s) cs3).
  { eapply Forall2_chain; [|exact F1|eapply Forall2_chain; [|exact Hi|exact F3]].
    - intros x y z [K1 M1] HS. exact (kept_after ic p dirs x y z K1 M1 HS).
    - intros x y z [K1 M1] G. exact (conj (transitivity K1 (gains_kept _ _ _ G)) (eq_trans (gains_mounts _ _ G) M1)). }
  split; [|exists dirs; split].
  - split; simpl.
    + eapply Forall2_impl; [exact F|]. by intros x y [].
    + etransitivity; [apply (se_init _ _ H0')|apply (se_init _ _ E1)].
    + etransitivity; [apply (se_volumes _ _ H0')|apply (se_volumes _ _ E1)].
    + etransitivity; [apply (se_secrets _ _ H0')|apply (se_secrets _ _ E1)].
  - simpl. eapply Forall2_impl; [exact F|]. by intros x y [].
  - intros Hd. rewrite bool_decide_eq_true_2 in B1 by done.
    destruct (D1 B1) as (m & Hm & Hdir). rewrite Hmethod in Hm. injection Hm as <-.
    destruct (V1 B1 Hdir) as [Hv Hcp]. split; [exact Hv|]. intros Hinit Hno. apply Hcp; [done..|].
    assert (ps_init_containers s0 = ps_init_containers s) as Hsame.
    { unfold s0. destruct (needs_affinity _ _); [|done]. unfold AddOdigletInstalledAffinity. by destruct (existsb _ _). }
    unfold has_init_container. simpl. by rewrite Hsame.
Qed.
End PodFacts.

(** ** Properties *)
Section Properties.
Context `{KubeVersions} `{WebhookLibrary} `{Client} `{GoSort} `{GoMapOrder}.

(** A patched pod went through all of [injectOdigos]. *)
Lemma patched_pod p c payloads pod ns pod' :
  Handle p c payloads (Some pod) ns = Done (PatchTo pod') ->
  exists pw ic conf method s',
    podWorkload pod ns = inr (Some pw)
    ∧ GetIC c (pw_namespace pw) (CalculateWorkloadRuntimeObjectName (pw_name pw) (pw_kind pw)) = inr ic
    ∧ spec_injection_enabled (ic_spec ic) = true
    ∧ GetCurrentOdigosConfiguration c = inr conf ∧ pc_mount_method (conf_pods conf) = Some method
    ∧ inject_spec p payloads ic pw conf method (om_owners (pod_meta pod)) (pod_spec pod) = Done (inr s')
    ∧ pod' = with_pod_spec pod (with_hash_label (pod_meta pod) (spec_agents_meta_hash (ic_spec ic))) s'.
Proof.
  simpl. destruct (injectOdigos p c payloads pod ns) as [r| |] eqn:Hr; try done. simpl.
  destruct r as [[]|pod1]; try done. intros [= ->]. revert Hr. unfold injectOdigos.
  destruct (podWorkload pod ns) as [|[pw|]] eqn:Hpw; try done.
  destruct (GetIC c _ _) as [|ic] eqn:Hic; [done|].
  destruct (spec_injection_enabled (ic_spec ic)) eqn:Hen; [|done]. simpl.
  destruct (GetCurrentOdigosConfiguration c) as [|conf] eqn:Hconf; [done|].
  destruct (pc_mount_method (conf_pods conf)) as [method|] eqn:Hm; [|done].
  destruct (device_gate c conf method) as [[err|]| |]; try done. simpl. case_decide; [done|].
  destruct (inject_spec _ _ _ _ _ _ _ _) as [[|s']| |] eqn:Hs; try done. simpl.
  unfold label_pod. destruct (pod_labels_allocated pod); [|done]. intros [= <-].
  exists pw, ic, conf, method, s'. done.
Qed.

(** C6: A mutated pod belongs to a workload whose config has the injection on,
    carries the label with the hash of that config, and keeps what was
    submitted: its metadata otherwise, and every container with its image,
    command, probes and mounts, and with all its variables except those that
    the agent of this container appends to; volumes, init containers and pull
    secrets are only added at the end. *)
Theorem webhook_preserves_pod (p : PodsWebhook) (c : Cluster) (payloads : Heap) (pod pod' : Pod) (ns : string) :
  Handle p c payloads (Some pod) ns = Done (PatchTo pod') ->
  exists pw ic,
    podWorkload pod ns = inr (Some pw)
    ∧ GetIC c (pw_namespace pw) (CalculateWorkloadRuntimeObjectName (pw_name pw) (pw_kind pw)) = inr ic
    ∧ spec_injection_enabled (ic_spec ic) = true
    ∧ pod_meta pod' = with_hash_label (pod_meta pod) (spec_agents_meta_hash (ic_spec ic))
    ∧ spec_kept p ic (pod_spec pod) (pod_spec pod').
Proof.
  intros (pw & ic & conf & method & s' & Hpw & Hic & Hen & _ & Hm & Hs & ->)%patched_pod.
  exists pw, ic. split_and!; try done. by apply inject_spec_kept in Hs as [? _].
Qed.

(** C7: Every directory that is mounted into a container of a mutated pod has its
    volume, and with the init container method a container that fills it: the
    new mounts come from a set of directories, the pod has the agents' volume
    whenever that set is not empty, and the init container copies exactly the
    directories of the set. *)
Theorem webhook_mounts_backed (p : PodsWebhook) (c : Cluster) (payloads : Heap) (pod pod' : Pod) (ns : string) :
  Handle p c payloads (Some pod) ns = Done (PatchTo pod') ->
  exists conf method dirs,
    GetCurrentOdigosConfiguration c = inr conf ∧ pc_mount_method (conf_pods conf) = Some method
    ∧ mounts_backed_by method dirs (pod_spec pod) (pod_spec pod').
Proof.
  intros (pw & ic & conf & method & s' & _ & _ & _ & Hconf & Hm & Hs & ->)%patched_pod.
  apply inject_spec_kept in Hs as (_ & dirs & Hb); [|done]. by exists conf, method, dirs.
Qed.

(** ** The webhook always answers *)

Lemma inject_container_total payloads cac pw name conf d owners c :
  is_Some (pc_mount_method (conf_pods conf)) ->
  exists r, injectOdigosToContainer payloads cac pw name conf d owners c = Done r.
Proof.
  intros [m Hm]. unfold injectOdigosToContainer. destruct (inject_env_vars _ _ _ _ _ _); [eauto|].
  destruct (d_runtime_agent d); [|eauto]. rewrite Hm. simpl. destruct (mount_agent _ _ _ _) as [[??]?]. eauto.
Qed.

Lemma inject_containers_total p payloads ic pw conf owners cs :
  is_Some (pc_mount_method (conf_pods conf)) ->
  exists r, inject_containers p payloads ic pw conf owners cs = Done r.
Proof.
  intros Hm. induction cs as [|c cs [rest IH]]; [by eexists|]. simpl. rewrite IH.
  match goal with |- exists r, go_bind ?m _ = _ => assert (Hstep : exists r, m = Done r) end.
  { destruct (GetContainerAgentConfig _ _) as [cfg|]; [|eauto]. destruct (_ || _); [eauto|].
    destruct (GetDistroByName _ _) as [d|]; [|eauto].
    destruct (inject_container_total payloads cfg pw (spec_service_name (ic_spec ic)) conf d owners c Hm) as [r ->].
    simpl. eauto. }
  destruct Hstep as [r ->]. simpl. destruct r as [|[[??]?]]; simpl; eauto.
Qed.

Lemma mount_volume_total p conf method mounted dirs s :
  is_Some (pc_init_resources (conf_pods conf)) -> exists s', mount_volume p conf method mounted dirs s = Done s'.
Proof.
  intros [r Hr]. unfold mount_volume, createInitContainer. rewrite Hr. simpl.
  repeat (case_match; simpl; simplify_eq/=; eauto).
Qed.

(** Nothing stands in the way of an answer: the effective configuration has
    the init container's resources, the daemon set of odiglet has a selector,
    and the pod has labels. *)
Definition answerable (c : Cluster) (pod : Pod) : Prop :=
  (forall conf, GetCurrentOdigosConfiguration c = inr conf -> is_Some (pc_init_resources (conf_pods conf)))
  ∧ (forall labels l d, ListDaemonSets c GetCurrentNamespace labels = inr l -> d ∈ l -> is_Some (ds_selector d))
  ∧ pod_labels_allocated pod = true.

Lemma device_gate_total c pod conf method : answerable c pod -> exists r, device_gate c conf method = Done r.
Proof.
  intros (_ & Hsel & _). unfold device_gate. destruct (_ && _); [|eauto].
  unfold CheckDevicePluginContainersHealth.
  destruct (ListDaemonSets c GetCurrentNamespace _) as [|[|d [|]]] eqn:Hl; simpl; eauto.
  destruct (Hsel _ _ d Hl) as [s ->]; [left|]. simpl.
  destruct (ListPods _ _ _) as [|[]]; simpl; eauto.
Qed.

(** Whatever the cluster replies, the webhook answers: the pod is admitted as
    it is when it belongs to no instrumented workload or anything fails, and
    patched when everything succeeds.  The injection being off, an unknown
    workload or a missing config always leave the pod alone. *)
Theorem webhook_always_admits (p : PodsWebhook) (c : Cluster) (payloads : Heap) (pod : Pod) (ns : string) :
  answerable c pod ->
  exists r, Handle p c payloads (Some pod) ns = Done r
  ∧ match r with
    | Allowed msg => msg = "odigos injection skipped: not applicable" ∨ msg = "odigos injection failed internally"
    | PatchTo pod' => exists pw ic, podWorkload pod ns = inr (Some pw)
        ∧ GetIC c (pw_namespace pw) (CalculateWorkloadRuntimeObjectName (pw_name pw) (pw_kind pw)) = inr ic
        ∧ spec_injection_enabled (ic_spec ic) = true
    end.
Proof.
  intros Ha. assert (Ht : exists r, injectOdigos p c payloads pod ns = Done r).
  { unfold injectOdigos. destruct (podWorkload pod ns) as [|[pw|]]; eauto.
    destruct (GetIC _ _ _) as [|ic]; [eauto|]. destruct (spec_injection_enabled _); simpl; [|eauto].
    destruct (GetCurrentOdigosConfiguration c) as [|conf] eqn:Hconf; [eauto|].
    destruct (pc_mount_method _) as [m|] eqn:Hm; [|eauto].
    destruct (device_gate_total c pod conf m Ha) as [g ->]. simpl. destruct g; [eauto|]. case_decide; [eauto|].
    unfold inject_spec.
    set (s0 := if needs_affinity conf m then _ else _).
    destruct (inject_containers_total p payloads ic pw conf (om_owners (pod_meta pod)) (ps_containers s0)) as [r ->];
      [by rewrite Hm|]. simpl. destruct r as [|[[mounted dirs] cs]]; simpl; [eauto|].
    destruct (mount_volume_total p conf m mounted dirs (with_pod_containers s0 cs)) as [s1 ->];
      [by apply (proj1 Ha)|]. simpl.
    destruct (injectOdigosInstrumentation _ _ _ _); simpl; [eauto|]. unfold label_pod.
    rewrite (proj2 (proj2 Ha)). simpl. eauto. }
  destruct Ht as [r Hr]. destruct (Handle p c payloads (Some pod) ns) as [resp| |] eqn:Hh.
  - exists resp. split; [done|]. destruct resp as [msg|pod'].
    + simpl in Hh. rewrite Hr in Hh. simpl in Hh. destruct r as [[]|]; naive_solver.
    + destruct (patched_pod _ _ _ _ _ _ Hh) as (pw & ic & _ & _ & _ & Hw & Hg & He & _). eauto.
  - simpl in Hh. by rewrite Hr in Hh.
  - simpl in Hh. by rewrite Hr in Hh.
Qed.
End Properties.

(** ** Witnesses *)

Section WebhookWitnesses.
#[local] Existing Instances order_forward go_insertion_sort.
#[local] Instance any_kube_version : KubeVersions :=
  Build_KubeVersions nat (fun a b => bool_decide (b <= a)) (fun _ => 25) (Some 30).
#[local] Instance no_json : WebhookLibrary := Build_WebhookLibrary (fun _ => inr "{}") (fun t _ => inr t).

Definition cart_provider : Provider :=
  mkProvider {[ "java" := "java-community" ]} {[ "java-community" := sample_distro ]}.
Definition webhook : PodsWebhook :=
  @mkWebhook any_kube_version (p_getter cart_provider) (Some 30).

(** The deployment's config, with the agent of its container enabled. *)
Definition instrumented_ic : InstrumentationConfig :=
  mkIC (sample_meta "shop" "deployment-cart")
    (mkSpec "cart" true false
       [mkContainerAgentConfig "cart" true EnabledSuccessfully "" false "java-community" ∅
          (Some LoaderEnvInjectionMethod) None None None None]
       [] [sample_override "cart"] "" "0123" None)
    (mkStatus [sample_details "cart"] [] "" false None).
Definition webhook_store : Store := with_ic sample_store instrumented_ic.

Definition cart_pod : Pod :=
  mkPod (mkObjectMeta "" "cart-5d9f-x" "shop" {[ "app" := "cart" ]} ∅
           [mkOwnerReference "ReplicaSet" "cart-5d9f" "" (Some true)] 1 None)
    "uid" "" (mkPodSpec [bare_container "cart"] [] [] [] None) true "Pending" None [] [].

(** The patched pod, from the run of the webhook. *)
Definition patched_cart : Pod :=
  match Handle webhook webhook_store sample_heap (Some cart_pod) "shop" with
  | Done (PatchTo p) => p
  | _ => cart_pod
  end.
Lemma cart_patched : Handle webhook webhook_store sample_heap (Some cart_pod) "shop" = Done (PatchTo patched_cart).
Proof. by vm_compute. Qed.

Lemma webhook_preserves_pod_witness :
  pod_meta patched_cart = with_hash_label (pod_meta cart_pod) "0123"
  ∧ spec_kept webhook instrumented_ic (pod_spec cart_pod) (pod_spec patched_cart).
Proof.
  destruct (@webhook_preserves_pod any_kube_version no_json store_client go_insertion_sort order_forward
              webhook webhook_store sample_heap cart_pod patched_cart "shop" cart_patched)
    as (pw & ic & Hpw & Hic & _ & Hmeta & Hkept).
  assert (Hw : podWorkload cart_pod "shop" = inr (Some sample_pw)) by (vm_compute; reflexivity).
  rewrite Hw in Hpw. injection Hpw as <-.
  assert (Hi : GetIC webhook_store "shop" "deployment-cart" = inr instrumented_ic) by (vm_compute; reflexivity).
  change (GetIC webhook_store "shop" "deployment-cart" = inr ic) in Hic. rewrite Hi in Hic. injection Hic as <-.
  split; [exact Hmeta|exact Hkept].
Defined.

Lemma webhook_mounts_backed_witness :
  exists dirs, mounts_backed_by "k8s-init-container" dirs (pod_spec cart_pod) (pod_spec patched_cart).
Proof.
  destruct (@webhook_mounts_backed any_kube_version no_json store_client go_insertion_sort order_forward
              webhook webhook_store sample_heap cart_pod patched_cart "shop" cart_patched)
    as (conf & method & dirs & Hconf & Hm & Hb).
  injection Hconf as <-. injection Hm as <-. exact (ex_intro _ dirs Hb).
Defined.

Lemma cart_answerable : @answerable store_client webhook_store cart_pod.
Proof.
  split_and!; [|intros labels l d [= <-] []%not_elem_of_nil|done]. intros conf [= <-]. by eexists.
Qed.

Lemma webhook_always_admits_witness :
  exists r, Handle webhook webhook_store sample_heap (Some cart_pod) "shop" = Done r.
Proof.
  destruct (@webhook_always_admits any_kube_version no_json store_client go_insertion_sort order_forward
              webhook webhook_store sample_heap cart_pod "shop" cart_answerable) as (r & Hr & _).
  exact (ex_intro _ r Hr).
Defined.
End WebhookWitnesses.
