(* ===== verification/GoState.v ===== *)
(** * State passing with panics

    The monad of the components that keep their state in memory (the
    instrumentation manager, caches, processors): a step takes the state and
    returns a value and a new state, panics, or does not return. *)

From S2P Require Import Prelude.

Definition gost (S A : Type) : Type := S -> go (A * S).

#[export] Instance gost_ret S : MRet (gost S) := fun A a s => Done (a, s).
#[export] Instance gost_bind S : MBind (gost S) := fun A B f m s => go_bind (m s) (fun r => f r.1 r.2).

Section Steps.
Context {S : Type}.

Definition get_st : gost S S := fun s => Done (s, s).
Definition gets {A} (f : S -> A) : gost S A := fun s => Done (f s, s).
Definition modify (f : S -> S) : gost S unit := fun s => Done (tt, f s).
Definition panics {A} : gost S A := fun _ => Panic.
Definition deref {A} (p : option A) : gost S A :=
  fun s => match p with Some a => Done (a, s) | None => Panic end.

(** [for _, x := range l { f(x) }]. *)
Fixpoint for_each {A} (f : A -> gost S unit) (l : list A) : gost S unit :=
  match l with
  | [] => mret tt
  | x :: l => f x ≫= fun _ => for_each f l
  end.

(** The step returns, with a result and a state that satisfy [Q]. *)
Definition returns {A} (m : gost S A) (Q : A -> S -> Prop) (s : S) : Prop :=
  exists a s', m s = Done (a, s') ∧ Q a s'.

Lemma returns_ret {A} (a : A) (Q : A -> S -> Prop) s : Q a s -> returns (mret a) Q s.
Proof. by exists a, s. Qed.

Lemma returns_bind {A B} (m : gost S A) (f : A -> gost S B) Q s :
  returns m (fun a => returns (f a) Q) s -> returns (m ≫= f) Q s.
Proof.
  intros (a & s1 & Hm & b & s2 & Hf & HQ). exists b, s2. split; [|done].
  unfold mbind, gost_bind. by rewrite Hm.
Qed.

Lemma returns_get (Q : S -> S -> Prop) s : Q s s -> returns get_st Q s.
Proof. by exists s, s. Qed.
Lemma returns_gets {A} (f : S -> A) (Q : A -> S -> Prop) s : Q (f s) s -> returns (gets f) Q s.
Proof. by eexists _, _. Qed.
Lemma returns_modify (f : S -> S) (Q : unit -> S -> Prop) s : Q tt (f s) -> returns (modify f) Q s.
Proof. by eexists _, _. Qed.
Lemma returns_deref {A} (a : A) (Q : A -> S -> Prop) s : Q a s -> returns (deref (Some a)) Q s.
Proof. by eexists _, _. Qed.

Lemma returns_mono {A} (m : gost S A) (P Q : A -> S -> Prop) s :
  returns m P s -> (forall a s', P a s' -> Q a s') -> returns m Q s.
Proof. intros (a & s' & ? & ?) HPQ. exists a, s'. auto. Qed.

Lemma returns_run {A} (m : gost S A) (Q : A -> S -> Prop) s a s' :
  returns m Q s -> m s = Done (a, s') -> Q a s'.
Proof. intros (? & ? & E & HQ) E'. congruence. Qed.

(** A loop keeps an invariant that each of its steps keeps. *)
Lemma returns_for_each {A} (f : A -> gost S unit) (I : list A -> S -> Prop) (Q : unit -> S -> Prop) l s :
  I l s ->
  (forall x l s, I (x :: l) s -> returns (f x) (fun _ s' => I l s') s) ->
  (forall s, I [] s -> Q tt s) ->
  returns (for_each f l) Q s.
Proof.
  intros HI Hstep Hend. revert s HI. induction l as [|x l IH]; intros s HI; simpl.
  - by apply returns_ret, Hend.
  - apply returns_bind. eapply returns_mono; [by apply Hstep|]. intros u s1 Hs1. by apply IH.
Qed.
End Steps.

Ltac go_step :=
  lazymatch goal with
  | |- returns (mret _) _ _ => apply returns_ret
  | |- returns (_ ≫= _) _ _ => apply returns_bind
  | |- returns get_st _ _ => apply returns_get
  | |- returns (gets _) _ _ => apply returns_gets
  | |- returns (modify _) _ _ => apply returns_modify
  | |- returns (deref (Some _)) _ _ => apply returns_deref
  end.
