(* ===== verification/Manager.v ===== *)
(** * The eBPF instrumentation manager (src/instrumentation/manager.go)

    The manager keeps one entry per instrumented process, and two indices of
    the entries: by config group, to apply configuration updates, and by
    process group, to un-instrument a workload.  Its event loop is the only
    code that touches them.

    Factories, instrumentations, the reporter and the resolver of process
    details are interfaces: what they answer may depend on everything that
    was asked before, so they are functions of the log of all calls.  A
    theorem about every such function covers every behaviour of theirs. *)

From S2P Require Import Prelude.
From S2P Require Import K8s.
From S2P Require Import Api.
From S2P Require Import GoLib.
From S2P Require Import GoState.

(** ** What the manager is made of *)

Inductive EventType := ProcessExecEvent | ProcessForkEvent | ProcessFileOpenEvent | ProcessExitEvent | OtherEvent.
Record ProcessExecDetails := mkExecDetails
  { CmdLine : string; ExePath : string; Environments : gmap string string; ContainerProcessID : Z }.
(** The execution details come with the events of new processes. *)
Record ProcessEvent := mkProcessEvent { EventKind : EventType; PID : Z; ExecDetails : option ProcessExecDetails }.

(** Process groups, config groups, process details, instrumentations,
    configurations, and the values of resource attributes. *)
Class ManagerTypes := {
  ProcessGroup : Type;  ConfigGroup : Type;  ProcessDetails : Type;
  Instrumentation : Type;  Config : Type;  AttrValue : Type;
  #[global] process_group_eq :: EqDecision ProcessGroup;
  #[global] process_group_countable :: Countable ProcessGroup;
  #[global] config_group_eq :: EqDecision ConfigGroup;
  #[global] config_group_countable :: Countable ConfigGroup;
  #[global] instrumentation_eq :: EqDecision Instrumentation;
  attribute_String : string -> AttrValue
}.

Section Types.
Context `{ManagerTypes}.

(** The maps hold pointers that are never written through: the flag says
    whether the map of the external reader is there. *)
Record Settings := mkSettings
  { ServiceName : string;
    ResourceAttributes : list (string * AttrValue);
    InitialConfig : option Config;
    TracesMap : bool;
    LogsMap : bool }.

Record Request := mkRequest
  { Instrument : bool;
    ProcessDetailsByPid : gmap Z ProcessDetails;
    RequestGroup : ProcessGroup;
    RetryDistros : option (list string) }.

Record instrumentationDetails := mkDetails
  { distroInst : option Instrumentation;
    genericInsts : list Instrumentation;
    details_pd : ProcessDetails;
    details_cg : ConfigGroup;
    details_pg : ProcessGroup }.

(** The calls that leave the manager, with their answers. *)
Inductive Call :=
| CResolve (e : ProcessEvent) (r : error + ProcessDetails)
| CDistribution (pd : ProcessDetails) (r : option OtelDistro * option error)
| CSettings (pd : ProcessDetails) (d : OtelDistro) (s : Settings)
| CCreate (generic : bool) (factory : string) (pid : Z) (s : Settings) (r : error + Instrumentation)
| CLoad (i : Instrumentation) (r : option error)
| CRun (i : Instrumentation)
| CApply (i : Instrumentation) (c : Config)
| CClose (i : Instrumentation)
| COnInit (pid : Z) (err : option error)
| COnLoad (pid : Z) (err : option error)
| COnExit (pid : Z) (pd : ProcessDetails)
| CTrack (pids : list Z).

(** The latest call comes first. *)
Definition Log := list Call.
End Types.

(** The answers of the interfaces. *)
Class Externals `{ManagerTypes} := {
  Resolve : Log -> ProcessEvent -> error + ProcessDetails;
  Distribution : Log -> ProcessDetails -> option OtelDistro * option error;
  pd_ConfigGroup : ProcessDetails -> error + ConfigGroup;
  pd_ProcessGroup : ProcessDetails -> error + ProcessGroup;
  (** Go returns settings with an error too; the manager uses them. *)
  GetSettings : Log -> ProcessDetails -> OtelDistro -> Settings;
  CreateInstrumentation : Log -> bool -> string -> Z -> Settings -> error + Instrumentation;
  Load : Log -> Instrumentation -> option error;
  ApplyConfig : Log -> Instrumentation -> Config -> option error
}.

Section Manager.
Context `{Externals} `{GoMapOrder}.

(** ** State *)

(** Metric attributes: the distribution's name and language. *)
Definition Attributes : Type := string * string.

Record Options := mkOptions
  { Factories : gset string;
    GenericFactories : gset string;
    opt_traces_map : bool;
    opt_logs_map : bool }.

Record manager := mkManager
  { detailsByPid : gmap Z instrumentationDetails;
    detailsByConfigGroup : gmap ConfigGroup (gmap Z instrumentationDetails);
    detailsByProcessGroup : gmap ProcessGroup (gmap Z instrumentationDetails);
    instrumentedProcesses : gmap Attributes Z;
    failedInstrumentations : gmap Attributes Z;
    calls : Log }.

Definition NewManager : manager := mkManager ∅ ∅ ∅ ∅ ∅ [].

Definition with_calls (m : manager) (l : Log) : manager :=
  mkManager (detailsByPid m) (detailsByConfigGroup m) (detailsByProcessGroup m)
    (instrumentedProcesses m) (failedInstrumentations m) l.
Definition with_indices (m : manager) (p : gmap Z instrumentationDetails)
    (c : gmap ConfigGroup (gmap Z instrumentationDetails))
    (g : gmap ProcessGroup (gmap Z instrumentationDetails)) : manager :=
  mkManager p c g (instrumentedProcesses m) (failedInstrumentations m) (calls m).
Definition with_metrics (m : manager) (i f : gmap Attributes Z) : manager :=
  mkManager (detailsByPid m) (detailsByConfigGroup m) (detailsByProcessGroup m) i f (calls m).

Definition M (A : Type) : Type := gost manager A.

(** A call: it is answered by the log so far, and logged. *)
Definition call {A} (answer : Log -> A) (entry : A -> Call) : M A :=
  fun m => let r := answer (calls m) in Done (r, with_calls m (entry r :: calls m)).
(** A call whose answer is only logged. *)
Definition tell (c : Call) : M unit := call (fun _ => tt) (fun _ => c).

Definition distribution_of (pd : ProcessDetails) : M (option OtelDistro * option error) :=
  call (fun l => Distribution l pd) (CDistribution pd).

(** ** Metrics *)

Definition metricsAttributeSet (d : OtelDistro) : Attributes := (d_name d, d_language d).
Definition counter_add (c : gmap Attributes Z) (a : Attributes) (n : Z) : gmap Attributes Z :=
  <[a := (default 0 (c !! a) + n)%Z]> c.

Definition TelemetryDistroNameKey := "telemetry.distro.name".
Definition withTelemetryDistroName (attrs : list (string * AttrValue)) (distroName : string)
    : list (string * AttrValue) :=
  if existsb (fun a => bool_decide (a.1 = TelemetryDistroNameKey)) attrs then attrs
  else attrs ++ [(TelemetryDistroNameKey, attribute_String distroName)].
Definition with_distro_name (s : Settings) (distroName : string) : Settings :=
  mkSettings (ServiceName s) (withTelemetryDistroName (ResourceAttributes s) distroName)
    (InitialConfig s) (TracesMap s) (LogsMap s).
Definition with_maps (o : Options) (s : Settings) : Settings :=
  mkSettings (ServiceName s) (ResourceAttributes s) (InitialConfig s) (opt_traces_map o) (opt_logs_map o).

(** ** Tracking *)

Definition index_add {K} `{Countable K} (k : K) (pid : Z) (d : instrumentationDetails)
    (ix : gmap K (gmap Z instrumentationDetails)) : gmap K (gmap Z instrumentationDetails) :=
  <[k := <[pid := d]> (default ∅ (ix !! k))]> ix.

(** [delete(ix[k], pid); if len(ix[k]) == 0 { delete(ix, k) }]. *)
Definition index_remove {K} `{Countable K} (k : K) (pid : Z)
    (ix : gmap K (gmap Z instrumentationDetails)) : gmap K (gmap Z instrumentationDetails) :=
  match ix !! k with
  | None => ix
  | Some inner => if decide (delete pid inner = ∅) then delete k ix else <[k := delete pid inner]> ix
  end.

Definition startTrackInstrumentation (pid : Z) (inst : option Instrumentation) (generics : list Instrumentation)
    (pd : ProcessDetails) (pg : ProcessGroup) (cg : ConfigGroup) (distribution : option OtelDistro) : M unit :=
  modify (fun m =>
    let prev := detailsByPid m !! pid in
    let prevHadInst := match prev with Some d => bool_decide (is_Some (distroInst d)) | None => false end in
    let d := mkDetails inst generics pd cg pg in
    let m' := with_indices m (<[pid := d]> (detailsByPid m)) (index_add cg pid d (detailsByConfigGroup m))
                (index_add pg pid d (detailsByProcessGroup m)) in
    match distribution with
    | None => m'
    | Some dist =>
        let a := metricsAttributeSet dist in
        match inst, prev with
        | None, None => with_metrics m' (instrumentedProcesses m) (counter_add (failedInstrumentations m) a 1)
        | None, Some _ => m'
        | Some _, _ =>
            if prevHadInst then m'
            else with_metrics m' (counter_add (instrumentedProcesses m) a 1) (failedInstrumentations m)
        end
    end).

Definition stopTrackInstrumentation (pid : Z) : M unit :=
  modify (fun m =>
    match detailsByPid m !! pid with
    | None => m
    | Some d => with_indices m (delete pid (detailsByPid m)) (index_remove (details_cg d) pid (detailsByConfigGroup m))
                  (index_remove (details_pg d) pid (detailsByProcessGroup m))
    end).

Definition close_all (insts : list Instrumentation) : M unit := for_each (fun i => tell (CClose i)) insts.

(** The loaded instrumentation of a process that exits is closed, and counted
    out under the distribution that its details name now: a nil distribution
    is dereferenced. *)
Definition close_distro (d : instrumentationDetails) : M unit :=
  match distroInst d with
  | None => mret tt
  | Some i =>
      tell (CClose i) ≫= fun _ =>
      distribution_of (details_pd d) ≫= fun r =>
      deref r.1 ≫= fun dist =>
      modify (fun m => with_metrics m (counter_add (instrumentedProcesses m) (metricsAttributeSet dist) (-1))
                         (failedInstrumentations m))
  end.

Definition cleanInstrumentation (pid : Z) : M unit :=
  gets (fun m => detailsByPid m !! pid) ≫= fun found =>
  match found with
  | None => mret tt
  | Some details =>
      close_distro details ≫= fun _ =>
      close_all (genericInsts details) ≫= fun _ =>
      tell (COnExit pid (details_pd details)) ≫= fun _ =>
      stopTrackInstrumentation pid
  end.

(** ** Instrumenting a process *)

Definition errNoInstrumentationFactory : error := ENew "no ebpf factory found".
Definition errFailedToGetDetails : error := ENew "failed to get details for process event".
Definition errFailedToGetDistribution : error := ENew "failed to get otel distribution for details".
Definition errFailedToGetConfigGroup : error := ENew "failed to get config group".
Definition errFailedToGetProcessGroup : error := ENew "failed to get process group".

Definition isInstrumentedByDistro (o : Options) (pid : Z) : M bool :=
  gets (fun m => detailsByPid m !! pid) ≫= fun found =>
  match found with
  | None => mret false
  | Some details =>
      match distroInst details with
      | Some _ => mret true
      | None =>
          distribution_of (details_pd details) ≫= fun r =>
          match r with
          | (Some d, None) => mret (negb (bool_decide (d_name d ∈ Factories o)))
          | _ => mret true
          end
      end
  end.

Fixpoint load_generic (pid : Z) (settings : Settings) (names : list string) : M (list Instrumentation) :=
  match names with
  | [] => mret []
  | name :: names =>
      call (fun l => CreateInstrumentation l true name pid settings) (CCreate true name pid settings) ≫= fun r =>
      match r with
      | inl _ => load_generic pid settings names
      | inr inst =>
          call (fun l => Load l inst) (CLoad inst) ≫= fun err =>
          match err with
          | Some _ => load_generic pid settings names
          | None => tell (CRun inst) ≫= fun _ =>
                    load_generic pid settings names ≫= fun insts => mret (inst :: insts)
          end
      end
  end.

Definition loadGenericInstrumentations (o : Options) (pid : Z) (settings : Settings) : M (list Instrumentation) :=
  load_generic pid settings (map_order (elements (GenericFactories o))).

(** The generic instrumentations of a process: those it has, or new ones when
    it is seen for the first time. *)
Definition generic_insts (o : Options) (pid : Z) (settings : Settings) : M (list Instrumentation) :=
  gets (fun m => detailsByPid m !! pid) ≫= fun found =>
  match found with
  | Some existing => mret (genericInsts existing)
  | None => loadGenericInstrumentations o pid settings
  end.

(** The distribution's own factory: create, report, load, report, track. *)
Definition load_distro (pid : Z) (settings : Settings) (d : OtelDistro) (generics : list Instrumentation)
    (pd : ProcessDetails) (pg : ProcessGroup) (cg : ConfigGroup) : M (option error) :=
  let settings := with_distro_name settings (d_name d) in
  let track inst := startTrackInstrumentation pid inst generics pd pg cg (Some d) in
  call (fun l => CreateInstrumentation l false (d_name d) pid settings) (CCreate false (d_name d) pid settings) ≫= fun r =>
  match r with
  | inl initErr =>
      tell (COnInit pid (Some initErr)) ≫= fun _ => track None ≫= fun _ => mret (Some initErr)
  | inr inst =>
      tell (COnInit pid None) ≫= fun _ =>
      call (fun l => Load l inst) (CLoad inst) ≫= fun loadErr =>
      tell (COnLoad pid loadErr) ≫= fun _ =>
      match loadErr with
      | Some e => track None ≫= fun _ => mret (Some e)
      | None => track (Some inst) ≫= fun _ => tell (CRun inst) ≫= fun _ => mret None
      end
  end.

(** With the distribution and the groups at hand. *)
Definition instrument_with (o : Options) (pd : ProcessDetails) (pid : Z) (d : OtelDistro) (cg : ConfigGroup)
    (pg : ProcessGroup) : M (option error) :=
  let hasDistroFactory := bool_decide (d_name d ∈ Factories o) in
  if negb hasDistroFactory && bool_decide (GenericFactories o = ∅) then mret (Some errNoInstrumentationFactory)
  else
    call (fun l => GetSettings l pd d) (CSettings pd d) ≫= fun settings =>
    let settings := with_maps o settings in
    generic_insts o pid settings ≫= fun generics =>
    if hasDistroFactory then load_distro pid settings d generics pd pg cg
    else match generics with
         | [] => mret (Some errNoInstrumentationFactory)
         | _ => startTrackInstrumentation pid None generics pd pg cg None ≫= fun _ => mret None
         end.

Definition tryInstrument (o : Options) (pd : ProcessDetails) (pid : Z) : M (option error) :=
  isInstrumentedByDistro o pid ≫= fun instrumented : bool =>
  if instrumented then mret None
  else
    distribution_of pd ≫= fun r =>
    match r.2 with
    | Some err => mret (Some (EJoin err errFailedToGetDistribution))
    | None =>
        match pd_ConfigGroup pd with
        | inl err => mret (Some (EJoin err errFailedToGetConfigGroup))
        | inr cg =>
            match pd_ProcessGroup pd with
            | inl err => mret (Some (EJoin err errFailedToGetProcessGroup))
            | inr pg => deref r.1 ≫= fun d => instrument_with o pd pid d cg pg
            end
        end
    end.

Definition tryInstrumentFromProcessEvent (o : Options) (e : ProcessEvent) : M (option error) :=
  call (fun l => Resolve l e) (CResolve e) ≫= fun r =>
  match r with
  | inl err => mret (Some (EJoin err errFailedToGetDetails))
  | inr pd => tryInstrument o pd (PID e)
  end.

(** ** Requests *)

(** The pids that were handed to the factories. *)
Fixpoint instrument_each (o : Options) (byPid : list (Z * ProcessDetails)) : M (list Z) :=
  match byPid with
  | [] => mret []
  | (pid, pd) :: byPid =>
      isInstrumentedByDistro o pid ≫= fun instrumented : bool =>
      if instrumented then instrument_each o byPid
      else
        tryInstrument o pd pid ≫= fun err =>
        match err with
        | Some _ => instrument_each o byPid
        | None => instrument_each o byPid ≫= fun tracked => mret (pid :: tracked)
        end
  end.

Definition instrumentFromDetails (o : Options) (byPid : gmap Z ProcessDetails) : M unit :=
  instrument_each o (map_order (map_to_list byPid)) ≫= fun tracked =>
  if nonempty tracked then tell (CTrack tracked) else mret tt.

(** A tracked process whose distribution factory failed, and is asked for. *)
Definition retry_candidate (wanted : gset string) (details : instrumentationDetails) : M bool :=
  match distroInst details with
  | Some _ => mret false
  | None =>
      if decide (wanted = ∅) then mret true
      else
        distribution_of (details_pd details) ≫= fun r =>
        match r with
        | (Some d, None) => mret (bool_decide (d_name d ∈ wanted))
        | _ => mret false
        end
  end.

Fixpoint failed_details (wanted : gset string) (l : list (Z * instrumentationDetails)) : M (gmap Z ProcessDetails) :=
  match l with
  | [] => mret ∅
  | (pid, details) :: l =>
      retry_candidate wanted details ≫= fun candidate : bool =>
      failed_details wanted l ≫= fun byPid =>
      mret (if candidate then <[pid := details_pd details]> byPid else byPid)
  end.

Definition failedProcessDetailsByDistro (distroFilter : list string) : M (gmap Z ProcessDetails) :=
  gets detailsByPid ≫= fun byPid =>
  failed_details (list_to_set distroFilter) (map_order (map_to_list byPid)).

Definition retryFailedInstrumentationsForDistros (o : Options) (distroFilter : list string) : M unit :=
  failedProcessDetailsByDistro distroFilter ≫= fun byPid =>
  if nonempty (map_to_list byPid) then instrumentFromDetails o byPid else mret tt.

(** The processes of a group are cleaned one by one; each removes itself from
    the map that is being ranged over, so all of them are visited. *)
Definition uninstrument_group (pg : ProcessGroup) : M unit :=
  gets (fun m => detailsByProcessGroup m !! pg) ≫= fun procs =>
  match procs with
  | None => mret tt
  | Some procs => for_each cleanInstrumentation (map_order (map_to_list procs)).*1
  end.

Definition handle_request (o : Options) (req : Request) : M unit :=
  match RetryDistros req with
  | Some distros => retryFailedInstrumentationsForDistros o distros
  | None =>
      if Instrument req then instrumentFromDetails o (ProcessDetailsByPid req)
      else uninstrument_group (RequestGroup req)
  end.

(** ** Configuration updates *)

(** The errors are joined, and logged. *)
Fixpoint apply_each (config : Config) (insts : list Instrumentation) : M (option error) :=
  match insts with
  | [] => mret None
  | i :: insts =>
      call (fun l => ApplyConfig l i config) (fun _ => CApply i config) ≫= fun err =>
      apply_each config insts ≫= fun errs => mret (errors_join err errs)
  end.

(** The instrumentations of a process, the distribution's first. *)
Definition insts_of (d : instrumentationDetails) : list Instrumentation :=
  option_list (distroInst d) ++ genericInsts d.

Definition applyInstrumentationConfigurationForSDK (cg : ConfigGroup) (config : Config) : M (option error) :=
  gets (fun m => detailsByConfigGroup m !! cg) ≫= fun found =>
  match found with
  | None => mret None
  | Some procs => apply_each config ((map_order (map_to_list procs)).*2 ≫= insts_of)
  end.

(** ** The event loop *)

(** What the loop receives: [ConfigClosed] is a receive from the closed channel
    of updates, whose nil update is not told from an empty one. *)
Inductive Input :=
| Canceled | ProcessEventsClosed | RequestsClosed
| ProcessInput (e : ProcessEvent)
| RequestInput (r : Request)
| ConfigInput (u : gmap ConfigGroup Config)
| ConfigClosed.

Definition stops (i : Input) : bool :=
  match i with Canceled | ProcessEventsClosed | RequestsClosed => true | _ => false end.

Definition apply_update (u : gmap ConfigGroup Config) : M unit :=
  for_each (fun kv => applyInstrumentationConfigurationForSDK kv.1 kv.2 ≫= fun _ => mret tt)
    (map_order (map_to_list u)).

Definition handle_input (o : Options) (i : Input) : M unit :=
  match i with
  | ProcessInput e =>
      match EventKind e with
      | ProcessExecEvent | ProcessForkEvent | ProcessFileOpenEvent =>
          deref (ExecDetails e) ≫= fun _ => (* the command line is logged *)
          tryInstrumentFromProcessEvent o e ≫= fun _ => mret tt
      | ProcessExitEvent => cleanInstrumentation (PID e)
      | OtherEvent => mret tt
      end
  | RequestInput r => handle_request o r
  | ConfigInput u => apply_update u
  | ConfigClosed => apply_update ∅
  | Canceled | ProcessEventsClosed | RequestsClosed => mret tt
  end.

(** The deferred clean-up: the deadline may pass before any process. *)
Fixpoint shutdown_each (expired : Log -> bool) (l : list (Z * instrumentationDetails)) : M bool :=
  match l with
  | [] => mret true
  | (pid, details) :: l =>
      gets (fun m => expired (calls m)) ≫= fun timeout : bool =>
      if timeout then mret false
      else
        close_all (insts_of details) ≫= fun _ =>
        tell (COnExit pid (details_pd details)) ≫= fun _ =>
        shutdown_each expired l
  end.

Definition shutdown (expired : Log -> bool) : M unit :=
  gets detailsByPid ≫= fun byPid =>
  shutdown_each expired (map_order (map_to_list byPid)) ≫= fun all : bool =>
  if all then modify (fun m => with_indices m ∅ ∅ ∅) else mret tt.

(** The loop over what it receives, up to the input that stops it. *)
Fixpoint runEventLoop (o : Options) (expired : Log -> bool) (inputs : list Input) : M unit :=
  match inputs with
  | [] => mret tt
  | i :: inputs =>
      if stops i then shutdown expired
      else handle_input o i ≫= fun _ => runEventLoop o expired inputs
  end.
End Manager.
