(* ===== verification/ManagerProperties.v ===== *)
(** * Indices and the use of instrumentations: lemmas of the manager

    Two parts of the manager's invariant that do not depend on its code: an
    index agrees with the map of tracked processes, and a log of calls
    accounts for every instrumentation that was loaded. *)


From S2P Require Import Prelude.
From S2P Require Import K8s.
From S2P Require Import Api.
From S2P Require Import GoLib.
From S2P Require Import GoState.
From S2P Require Import Manager.

(** ** Indices *)

(** [ix] lists, under each key, exactly the entries with that key, and has no
    empty entry. *)
Record indexed `{ManagerTypes} {K} `{Countable K} (key : instrumentationDetails -> K)
    (byPid : gmap Z instrumentationDetails) (ix : gmap K (gmap Z instrumentationDetails)) : Prop := {
  indexed_iff k pid d : (ix !! k ≫= lookup pid) = Some d <-> byPid !! pid = Some d ∧ key d = k;
  indexed_nonempty k inner : ix !! k = Some inner -> inner <> ∅
}.

Section Index.
Context `{ManagerTypes} {K : Type} `{Countable K} (key : instrumentationDetails -> K).

Lemma indexed_empty : indexed key ∅ ∅.
Proof. split; [|done]. intros k pid d. rewrite !lookup_empty. naive_solver. Qed.

Lemma index_add_ok byPid ix pid d :
  indexed key byPid ix -> (forall d0, byPid !! pid = Some d0 -> key d0 = key d) ->
  indexed key (<[pid := d]> byPid) (index_add (key d) pid d ix).
Proof.
  intros [Hix Hne] Hsame. unfold index_add. split.
  - intros k p e. destruct (decide (k = key d)) as [->|Hk].
    + rewrite lookup_insert_eq. simpl. destruct (decide (p = pid)) as [->|Hp].
      * rewrite !lookup_insert_eq. naive_solver.
      * rewrite !lookup_insert_ne by done. rewrite <- Hix. by destruct (ix !! key d).
    + rewrite lookup_insert_ne by done. rewrite Hix. destruct (decide (p = pid)) as [->|Hp].
      * rewrite lookup_insert_eq. split; [|naive_solver].
        intros [Hp He]. exfalso. apply Hk. rewrite <- He. by apply Hsame.
      * by rewrite lookup_insert_ne.
  - intros k inner. destruct (decide (k = key d)) as [->|Hk].
    + rewrite lookup_insert_eq. intros [= <-]. apply insert_non_empty.
    + rewrite lookup_insert_ne by done. apply Hne.
Qed.

Lemma index_remove_ok byPid ix pid d :
  indexed key byPid ix -> byPid !! pid = Some d ->
  indexed key (delete pid byPid) (index_remove (key d) pid ix).
Proof.
  intros [Hix Hne] Hd. assert (Hin : (ix !! key d ≫= lookup pid) = Some d) by by apply Hix.
  unfold index_remove. destruct (ix !! key d) as [inner|] eqn:Hinner; [|done]. simpl in Hin.
  assert (Hl : forall ix', (forall k, ix' !! k = if decide (k = key d)
               then (if decide (delete pid inner = ∅) then None else Some (delete pid inner)) else ix !! k) ->
             indexed key (delete pid byPid) ix').
  { intros ix' Hix'. split.
    - intros k p e. rewrite Hix'. destruct (decide (k = key d)) as [->|Hk].
      + assert (Hinn : ((if decide (delete pid inner = ∅) then None else Some (delete pid inner)) ≫= lookup p)
                       = delete pid inner !! p) by (case_decide as E; [by rewrite E|done]).
        rewrite Hinn. destruct (decide (p = pid)) as [->|Hp]; [by rewrite !lookup_delete_eq; naive_solver|].
        rewrite !lookup_delete_ne by done. rewrite <- Hix, Hinner. done.
      + rewrite Hix. destruct (decide (p = pid)) as [->|Hp].
        * rewrite lookup_delete_eq, Hd. naive_solver.
        * by rewrite lookup_delete_ne.
    - intros k inner'. rewrite Hix'. destruct (decide (k = key d)); [|apply Hne].
      destruct (decide (delete pid inner = ∅)); [done|by intros [= <-]]. }
  destruct (decide (delete pid inner = ∅)) as [E|E]; apply Hl; intros k; destruct (decide (k = key d)) as [->|Hk].
  - by rewrite lookup_delete_eq.
  - by rewrite lookup_delete_ne.
  - by rewrite lookup_insert_eq.
  - by rewrite lookup_insert_ne.
Qed.

(** The entries under a key. *)
Lemma indexed_inner byPid ix k inner pid d :
  indexed key byPid ix -> ix !! k = Some inner -> inner !! pid = Some d <-> byPid !! pid = Some d ∧ key d = k.
Proof. intros [Hix _] Hk. rewrite <- Hix, Hk. done. Qed.

Lemma indexed_none byPid ix k pid d :
  indexed key byPid ix -> ix !! k = None -> byPid !! pid = Some d -> key d <> k.
Proof. intros [Hix _] Hk Hd E. assert (Hc : (ix !! k ≫= lookup pid) = Some d) by by apply Hix. by rewrite Hk in Hc. Qed.
End Index.

(** ** Accounting for instrumentations *)

Section Accounts.
Context `{ManagerTypes}.

Definition created (l : Log) : list Instrumentation :=
  omap (fun c => match c with CCreate _ _ _ _ (inr i) => Some i | _ => None end) l.
Definition loaded (l : Log) : list Instrumentation :=
  omap (fun c => match c with CLoad i None => Some i | _ => None end) l.
Definition closed (l : Log) : list Instrumentation :=
  omap (fun c => match c with CClose i => Some i | _ => None end) l.

(** Each call on an instrumentation comes at a time when it is loaded and not
    closed yet; in particular none is closed twice. *)
Fixpoint disciplined (l : Log) : Prop :=
  match l with
  | [] => True
  | c :: l =>
      disciplined l
      ∧ match c with
        | CRun i | CApply i _ | CClose i => i ∈ loaded l ∧ i ∉ closed l
        | CLoad i _ => i ∈ created l ∧ i ∉ loaded l
        | _ => True
        end
  end.

(** What was loaded is held or was closed. *)
Record accounts (held : list Instrumentation) (l : Log) : Prop := {
  acc_perm : loaded l ≡ₚ held ++ closed l;
  acc_nodup : NoDup (loaded l);
  acc_created i : i ∈ loaded l -> i ∈ created l;
  acc_disciplined : disciplined l
}.

Definition neutral (c : Call) : bool :=
  match c with CRun _ | CApply _ _ | CClose _ | CLoad _ _ => false | _ => true end.

Lemma accounts_empty : accounts [] [].
Proof. split; [done|constructor|done|done]. Qed.

Lemma accounts_perm held held' l : held ≡ₚ held' -> accounts held l -> accounts held' l.
Proof. intros E []. split; try done. by rewrite <- E. Qed.

Lemma accounts_neutral held l c : neutral c = true -> accounts held l -> accounts held (c :: l).
Proof.
  intros Hc [H1 H2 H3 H4].
  assert (Hl : loaded (c :: l) = loaded l) by by destruct c.
  assert (Hk : closed (c :: l) = closed l) by by destruct c.
  split; rewrite ?Hl, ?Hk; try done.
  - intros i Hi. apply H3 in Hi. destruct c as [| | |???? []| | | | | | | |]; try done. simpl. by right.
  - split; [done|]. by destruct c.
Qed.

(** What is held is loaded and not closed. *)
Lemma accounts_held held l i : accounts held l -> i ∈ held -> i ∈ loaded l ∧ i ∉ closed l.
Proof.
  intros [Hp Hn _ _] Hi. split; [rewrite Hp; set_solver|].
  rewrite Hp in Hn. apply NoDup_app in Hn as (_ & Hd & _). by apply Hd.
Qed.

Lemma accounts_use held l c i :
  (c = CRun i ∨ exists conf, c = CApply i conf) -> i ∈ held -> accounts held l -> accounts held (c :: l).
Proof.
  intros Hc Hi Ha. pose proof (accounts_held _ _ _ Ha Hi). destruct Ha as [H1 H2 H3 H4].
  destruct Hc as [->|[conf ->]]; split; done.
Qed.

Lemma accounts_close held l i : accounts (i :: held) l -> accounts held (CClose i :: l).
Proof.
  intros Ha. pose proof (accounts_held _ _ i Ha ltac:(left)) as Hi. destruct Ha as [Hp Hn Hc Hd].
  split; simpl; try done. rewrite Hp. simpl. apply Permutation_middle.
Qed.

Lemma accounts_load_failed held l i e :
  i ∈ created l -> i ∉ loaded l -> accounts held l -> accounts held (CLoad i (Some e) :: l).
Proof. intros Hi Hl []. split; done. Qed.

Lemma accounts_load held l i :
  i ∈ created l -> i ∉ loaded l -> accounts held l -> accounts (i :: held) (CLoad i None :: l).
Proof.
  intros Hi Hl [Hp Hn Hc Hd]. split; simpl.
  - by rewrite Hp.
  - by constructor.
  - intros j [->|Hj]%elem_of_cons; [done|by apply Hc].
  - done.
Qed.
End Accounts.

(** * The invariant of the instrumentation manager

    It is kept by every input of the event loop: both
    indices agree with the map of tracked processes, every loaded
    instrumentation is held by exactly one process or was closed once, and the
    gauge of instrumented processes counts them. *)

(** What the manager relies on: a factory makes a new instrumentation each
    time, a lookup of the distribution that gives no error gives one, and one
    that succeeded once for some process details succeeds with the same
    distribution from then on (the details cache it). *)
Definition truthful `{Externals} (l : Log) (c : Call) : Prop :=
  match c with
  | CDistribution pd r => r = Distribution l pd
  | CCreate g n pid s r => r = CreateInstrumentation l g n pid s
  | _ => True
  end.
(** The log says what was answered. *)
Fixpoint honest `{Externals} (l : Log) : Prop :=
  match l with [] => True | c :: l => truthful l c ∧ honest l end.

Class ExternalsLaws `{Externals} : Prop := {
  create_fresh l g n pid s i : honest l -> CreateInstrumentation l g n pid s = inr i -> i ∉ created l;
  distribution_given l pd r : honest l -> Distribution l pd = (r, None) -> is_Some r;
  distribution_cached l pd d :
    honest l -> CDistribution pd (Some d, None) ∈ l -> Distribution l pd = (Some d, None)
}.

Section Invariant.
Context `{Externals} `{GoMapOrder} `{!ExternalsLaws} `{!GoMapOrderLaws}.

(** ** The invariant *)

(** The instrumentations of the tracked processes. *)
Definition owned (byPid : gmap Z instrumentationDetails) : list Instrumentation :=
  (map_to_list byPid).*2 ≫= insts_of.

(** The process counts as instrumented under the attributes. *)
Definition counts (l : Log) (a : Attributes) (d : instrumentationDetails) : Prop :=
  is_Some (distroInst d) ∧ metricsAttributeSet <$> (Distribution l (details_pd d)).1 = Some a.
#[export] Instance counts_dec l a d : Decision (counts l a d).
Proof. unfold counts. apply _. Defined.
Definition counted (l : Log) (a : Attributes) (byPid : gmap Z instrumentationDetails) : nat :=
  size (filter (fun kv : Z * instrumentationDetails => counts l a kv.2) byPid).

(** A tracked process: its groups are those of its details, and when it runs
    an instrumentation its distribution is known. *)
Record entry_ok (l : Log) (d : instrumentationDetails) : Prop := {
  entry_cg : pd_ConfigGroup (details_pd d) = inr (details_cg d);
  entry_pg : pd_ProcessGroup (details_pd d) = inr (details_pg d);
  entry_distro : is_Some (distroInst d) -> exists dist, CDistribution (details_pd d) (Some dist, None) ∈ l
}.

(** The invariant when [held] are the open instrumentations and the gauge
    counts the processes of [live]. *)
Record inv_at (held : list Instrumentation) (live : gmap Z instrumentationDetails) (m : manager) : Prop := {
  inv_config : indexed details_cg (detailsByPid m) (detailsByConfigGroup m);
  inv_process : indexed details_pg (detailsByPid m) (detailsByProcessGroup m);
  inv_accounts : accounts held (calls m);
  inv_entries pid d : detailsByPid m !! pid = Some d -> entry_ok (calls m) d;
  inv_live : live ⊆ detailsByPid m;
  inv_honest : honest (calls m);
  inv_gauge a : default 0%Z (instrumentedProcesses m !! a) = Z.of_nat (counted (calls m) a live)
}.

Definition inv (m : manager) : Prop := inv_at (owned (detailsByPid m)) (detailsByPid m) m.

(** The maps and the gauges are those of the other state. *)
Definition same_tracking (m m' : manager) : Prop :=
  detailsByPid m' = detailsByPid m ∧ detailsByConfigGroup m' = detailsByConfigGroup m
  ∧ detailsByProcessGroup m' = detailsByProcessGroup m.
#[export] Instance same_tracking_preorder : PreOrder same_tracking.
Proof. split; [done|]. unfold same_tracking. intros ??? (->&->&->). done. Qed.

Lemma inv_empty : inv NewManager.
Proof.
  split; simpl; try apply indexed_empty.
  - unfold owned. rewrite map_to_list_empty. apply accounts_empty.
  - intros pid d. by rewrite lookup_empty.
  - done.
  - done.
  - intros a. rewrite lookup_empty. done.
Qed.

(** ** Steps that only talk *)

Lemma entry_grows l c d : entry_ok l d -> entry_ok (c :: l) d.
Proof. intros [Ec Eg Ed]. split; try done. intros Hs. destruct (Ed Hs) as [dist Hd]. exists dist. by right. Qed.

(** Once resolved, the distribution stays. *)
Lemma counts_grows l c a d : honest (c :: l) -> entry_ok l d -> counts (c :: l) a d <-> counts l a d.
Proof.
  intros Hh [_ _ He]. unfold counts. split; intros [Hs Ha]; (split; [done|]); destruct (He Hs) as [dist Hd].
  - rewrite (distribution_cached (c :: l) _ dist) in Ha by (done || by right).
    rewrite (distribution_cached l _ dist); [done|apply Hh|done].
  - rewrite (distribution_cached l _ dist) in Ha by (done || apply Hh).
    by rewrite (distribution_cached (c :: l) _ dist) by (done || by right).
Qed.

Lemma counted_grows l c a live :
  honest (c :: l) -> (forall pid d, live !! pid = Some d -> entry_ok l d) ->
  counted (c :: l) a live = counted l a live.
Proof.
  intros Hh He. unfold counted. f_equal. apply map_filter_ext. intros pid d Hd. simpl. apply counts_grows; [done|]. by eapply He.
Qed.

Lemma inv_grows held held' live m c :
  inv_at held live m -> truthful (calls m) c -> accounts held' (c :: calls m) ->
  inv_at held' live (with_calls m (c :: calls m)).
Proof.
  intros [I1 I2 I3 I4 I5 Ih I6] Ht Ha. split; simpl; try done.
  - intros pid d Hd. apply entry_grows. by eapply I4.
  - intros a. rewrite counted_grows, I6; [done..|]. intros pid d Hd. eapply I4. by eapply lookup_weaken.
Qed.

Lemma inv_neutral held live m c :
  neutral c = true -> truthful (calls m) c -> inv_at held live m ->
  inv_at held live (with_calls m (c :: calls m)).
Proof. intros Hc Ht Hi. eapply inv_grows; [exact Hi|exact Ht|]. apply accounts_neutral; [done|apply Hi]. Qed.

Lemma inv_held held held' live m : held ≡ₚ held' -> inv_at held live m -> inv_at held' live m.
Proof. intros E []. split; try done. by eapply accounts_perm. Qed.

Lemma call_spec {A} (answer : Log -> A) (entry : A -> Call) (Q : A -> manager -> Prop) m :
  (forall r, answer (calls m) = r -> Q r (with_calls m (entry r :: calls m))) -> returns (call answer entry) Q m.
Proof. intros HQ. eexists _, _. split; [reflexivity|]. by apply HQ. Qed.

Lemma tell_spec c (Q : unit -> manager -> Prop) m :
  Q tt (with_calls m (c :: calls m)) -> returns (tell c) Q m.
Proof. intros HQ. apply call_spec. by intros []. Qed.

(** Talking keeps the invariant and the maps. *)
Definition talks (held : list Instrumentation) (live : gmap Z instrumentationDetails) (m m' : manager) : Prop :=
  inv_at held live m' ∧ same_tracking m m' ∧ (forall c, c ∈ calls m -> c ∈ calls m').

Lemma talks_trans h1 h2 l1 l2 m1 m2 m3 : talks h1 l1 m1 m2 -> talks h2 l2 m2 m3 -> talks h2 l2 m1 m3.
Proof. intros (_ & S1 & C1) (I2 & S2 & C2). split_and!; [done|by etransitivity|auto]. Qed.

Lemma talks_cons held live m c :
  inv_at held live (with_calls m (c :: calls m)) -> talks held live m (with_calls m (c :: calls m)).
Proof. intros Hi. split_and!; [done|done|]. intros c' Hc. by right. Qed.

Lemma talks_neutral held live m c :
  neutral c = true -> truthful (calls m) c -> inv_at held live m -> talks held live m (with_calls m (c :: calls m)).
Proof. intros Hc Ht Hi. by apply talks_cons, inv_neutral. Qed.

Lemma talks_run held live m i :
  i ∈ held -> inv_at held live m -> talks held live m (with_calls m (CRun i :: calls m)).
Proof.
  intros Hi Ha. apply talks_cons. eapply inv_grows; [done|done|]. eapply accounts_use; [by left|done|apply Ha].
Qed.

Lemma talks_refl held live m : inv_at held live m -> talks held live m m.
Proof. intros Hi. split; [done|]. split; [reflexivity|auto]. Qed.

Lemma close_all_spec insts held live m :
  inv_at (insts ++ held) live m -> returns (close_all insts) (fun _ m' => talks held live m m') m.
Proof.
  revert m. induction insts as [|i insts IH]; intros m Hi.
  - by apply returns_ret, talks_refl.
  - apply (returns_bind (tell (CClose i)) (fun _ => close_all insts)), tell_spec. eapply returns_mono.
    + apply IH. eapply inv_grows; [exact Hi|done|]. apply accounts_close, Hi.
    + intros u m' Ht. eapply talks_trans; [|exact Ht]. apply talks_cons.
      eapply inv_grows; [exact Hi|done|]. apply accounts_close, Hi.
Qed.

Lemma distribution_spec pd held live m (Q : option OtelDistro * option error -> manager -> Prop) :
  inv_at held live m ->
  (forall r m', Distribution (calls m) pd = r -> talks held live m m' ->
     (forall d, r = (Some d, None) -> CDistribution pd (Some d, None) ∈ calls m') -> Q r m') ->
  returns (distribution_of pd) Q m.
Proof.
  intros Hi HQ. apply call_spec. intros r Hr. apply HQ; [done|by apply talks_neutral|].
  intros d ->. left.
Qed.

(** ** Closing a process *)

Lemma owned_lookup byPid pid d :
  byPid !! pid = Some d -> owned byPid ≡ₚ insts_of d ++ owned (delete pid byPid).
Proof.
  intros Hd. unfold owned. rewrite <- (map_to_list_delete byPid pid d Hd). done.
Qed.

Lemma owned_insert byPid pid d :
  owned (<[pid := d]> byPid) ≡ₚ insts_of d ++ owned (delete pid byPid).
Proof.
  rewrite (owned_lookup _ pid d (lookup_insert_eq _ _ _)). by rewrite delete_insert_eq.
Qed.

Lemma counted_delete l a byPid pid d :
  byPid !! pid = Some d ->
  counted l a byPid = (if decide (counts l a d) then 1 else 0) + counted l a (delete pid byPid).
Proof.
  intros Hd. unfold counted. rewrite map_filter_delete. case_decide as Hc.
  - rewrite map_size_delete_Some; [|exists d; by apply map_lookup_filter_Some].
    assert (Hin : filter (fun kv : Z * instrumentationDetails => counts l a kv.2) byPid !! pid = Some d)
      by by apply map_lookup_filter_Some.
    destruct (size (filter _ byPid)) eqn:E; [|simpl; lia].
    apply map_size_empty_iff in E. by rewrite E in Hin.
  - rewrite map_size_delete_None; [done|]. apply map_lookup_filter_None. right. intros d' Hd'. by simplify_eq.
Qed.

Lemma counted_insert l a byPid pid d :
  counted l a (<[pid := d]> byPid)
  = (if decide (counts l a d) then 1 else 0) + counted l a (delete pid byPid).
Proof.
  rewrite (counted_delete l a _ pid d (lookup_insert_eq _ _ _)). by rewrite delete_insert_eq.
Qed.

Lemma counted_uncounted l a byPid pid :
  (forall d, byPid !! pid = Some d -> distroInst d = None) -> counted l a (delete pid byPid) = counted l a byPid.
Proof.
  intros Hn. destruct (byPid !! pid) as [d|] eqn:Hd; [|by rewrite delete_id].
  rewrite (counted_delete l a byPid pid d Hd). rewrite decide_False; [done|].
  intros [[i Hs] _]. by rewrite (Hn d eq_refl) in Hs.
Qed.

Lemma gauge_add (g : gmap Attributes Z) (f : Attributes -> nat) a n (f' : Attributes -> nat) :
  (forall b, default 0%Z (g !! b) = Z.of_nat (f b)) ->
  (forall b, Z.of_nat (f' b) = Z.of_nat (f b) + (if decide (b = a) then n else 0))%Z ->
  forall b, default 0%Z (counter_add g a n !! b) = Z.of_nat (f' b).
Proof.
  intros Hg Hf b. unfold counter_add. rewrite Hf. case_decide as Hb.
  - subst. by rewrite lookup_insert_eq, <- Hg.
  - rewrite lookup_insert_ne, Hg by done. lia.
Qed.

Lemma close_distro_spec pid d m :
  inv m -> detailsByPid m !! pid = Some d ->
  returns (close_distro d)
    (fun _ m' => talks (genericInsts d ++ owned (delete pid (detailsByPid m))) (delete pid (detailsByPid m)) m m') m.
Proof.
  intros Hi Hd. unfold close_distro.
  assert (Hheld : inv_at (insts_of d ++ owned (delete pid (detailsByPid m))) (detailsByPid m) m).
  { eapply inv_held; [|exact Hi]. by apply owned_lookup. }
  assert (Hcount : forall l a, counted l a (detailsByPid m)
            = (if decide (counts l a d) then 1 else 0) + counted l a (delete pid (detailsByPid m))).
  { intros l a. by apply counted_delete. }
  unfold insts_of in Hheld. destruct (distroInst d) as [i|] eqn:Hdi.
  2:{ go_step. apply talks_refl. destruct Hheld as [I1 I2 I3 I4 I5 Ih I6]. split; try done.
      - transitivity (detailsByPid m); [apply delete_subseteq|done].
      - intros a. rewrite I6, Hcount. rewrite decide_False; [done|]. intros [[x Hx] _]. congruence. }
  go_step. apply tell_spec. simpl in Hheld.
  assert (Hm1 : inv_at (genericInsts d ++ owned (delete pid (detailsByPid m))) (detailsByPid m)
                 (with_calls m (CClose i :: calls m))).
  { eapply inv_grows; [exact Hheld|done|]. apply accounts_close, Hheld. }
  go_step. eapply distribution_spec; [exact Hm1|]. intros r m' Hr Ht Hres.
  destruct (inv_entries _ _ _ Hi pid d Hd) as [_ _ He].
  destruct He as [dist Hdist]; [by eexists|].
  rewrite (distribution_cached _ _ dist (inv_honest _ _ _ Hm1)) in Hr by (simpl; by right). subst r.
  cbn [fst]. go_step. go_step. go_step.
  destruct Ht as ([I1 I2 I3 I4 I5 Ih I6] & Hs & Hc). split_and!; [|exact Hs|intros c Hin; apply Hc; by right].
  split; simpl; try done.
  - transitivity (detailsByPid m); [apply delete_subseteq|exact I5].
  - eapply gauge_add; [exact I6|]. intros b. cbn. rewrite (Hcount (calls m') b).
    assert (Hcb : counts (calls m') b d <-> b = metricsAttributeSet dist).
    { unfold counts. rewrite Hdi, (distribution_cached _ _ dist Ih) by by apply Hres. simpl. naive_solver. }
    repeat case_decide; try lia; tauto.
Qed.

(** The process is gone; nothing else changed. *)
Definition cleaned (pid : Z) (m m' : manager) : Prop :=
  inv m' ∧ detailsByPid m' = delete pid (detailsByPid m) ∧ (forall c, c ∈ calls m -> c ∈ calls m').

Lemma clean_spec pid m : inv m -> returns (cleanInstrumentation pid) (fun _ m' => cleaned pid m m') m.
Proof.
  intros Hi. unfold cleanInstrumentation. go_step. go_step.
  destruct (detailsByPid m !! pid) as [d|] eqn:Hd.
  2:{ go_step. split_and!; [done|by rewrite delete_id|done]. }
  go_step. eapply returns_mono; [by apply close_distro_spec|]. intros u1 m1 T1.
  go_step. eapply returns_mono; [apply close_all_spec, T1|]. intros u2 m2 T2.
  go_step. apply tell_spec. unfold stopTrackInstrumentation. go_step.
  assert (T3 : talks (owned (delete pid (detailsByPid m))) (delete pid (detailsByPid m)) m
                 (with_calls m2 (COnExit pid (details_pd d) :: calls m2))).
  { eapply talks_trans; [exact T1|]. eapply talks_trans; [exact T2|]. apply talks_neutral; [done|done|apply T2]. }
  set (m3 := with_calls m2 _) in *. clearbody m3. clear T1 T2.
  destruct T3 as ([I1 I2 I3 I4 I5 Ih I6] & (E1 & E2 & E3) & Hc). rewrite E1, Hd. split_and!; simpl.
  - split; simpl; rewrite E1 in *; try done.
    + by apply index_remove_ok.
    + by apply index_remove_ok.
    + intros p e [_ Hp]%lookup_delete_Some. by eapply I4.
  - done.
  - exact Hc.
Qed.

(** ** Creating and loading *)

Definition loadable (i : Instrumentation) (m : manager) : Prop :=
  i ∈ created (calls m) ∧ i ∉ loaded (calls m).

Lemma create_spec g n pid s held live m (Q : error + Instrumentation -> manager -> Prop) :
  inv_at held live m ->
  (forall r m', talks held live m m' -> (forall i, r = inr i -> loadable i m') -> Q r m') ->
  returns (call (fun l => CreateInstrumentation l g n pid s) (CCreate g n pid s)) Q m.
Proof.
  intros Hi HQ. apply call_spec. intros r Hr. apply HQ; [by apply talks_neutral|].
  intros i ->. apply create_fresh in Hr; [|apply Hi]. split; [left|]. simpl.
  intros Hl. by apply Hr, (acc_created _ _ (inv_accounts _ _ _ Hi)).
Qed.

Lemma load_spec i held live m (Q : option error -> manager -> Prop) :
  inv_at held live m -> loadable i m ->
  (forall err m', talks (match err with None => i :: held | Some _ => held end) live m m' -> Q err m') ->
  returns (call (fun l => Load l i) (CLoad i)) Q m.
Proof.
  intros Hi [Hc Hl] HQ. apply call_spec. intros r _. apply HQ. apply talks_cons.
  eapply inv_grows; [exact Hi|done|]. destruct r.
  - apply accounts_load_failed; [done..|apply Hi].
  - apply accounts_load; [done..|apply Hi].
Qed.

Lemma load_generic_spec pid s names held live m :
  inv_at held live m ->
  returns (load_generic pid s names) (fun insts m' => talks (insts ++ held) live m m') m.
Proof.
  revert held m. induction names as [|n names IH]; intros held m Hi; cbn [load_generic].
  { by apply returns_ret, talks_refl. }
  go_step. apply (create_spec _ _ _ _ _ _ _ _ Hi). intros r m1 T1 Hr.
  assert (Hskip : returns (load_generic pid s names) (fun insts m' => talks (insts ++ held) live m m') m1).
  { eapply returns_mono; [apply IH, T1|]. intros insts m' T. by eapply talks_trans. }
  destruct r as [e|i]; [exact Hskip|].
  go_step. apply (load_spec i held live m1); [apply T1|by apply Hr|]. intros err m2 T2.
  destruct err as [e|].
  - eapply returns_mono; [apply IH, T2|]. intros insts m' T.
    eapply talks_trans; [exact T1|]. eapply talks_trans; [exact T2|exact T].
  - go_step. apply tell_spec. go_step.
    assert (T3 : talks (i :: held) live m2 (with_calls m2 (CRun i :: calls m2))).
    { apply talks_run; [left|apply T2]. }
    eapply returns_mono; [apply IH, T3|]. intros insts m' T. go_step.
    assert (TT : talks (insts ++ i :: held) live m m').
    { eapply talks_trans; [exact T1|]. eapply talks_trans; [exact T2|]. by eapply talks_trans. }
    destruct TT as (It & St & Ct). split_and!; [|exact St|exact Ct].
    eapply inv_held; [|exact It]. simpl. symmetry. apply Permutation_middle.
Qed.

(** ** Tracking *)

Lemma start_spec pid inst generics pd pg cg dist held m :
  inv_at held (detailsByPid m) m ->
  held ≡ₚ option_list inst ++ generics ++ owned (delete pid (detailsByPid m)) ->
  (forall d0, detailsByPid m !! pid = Some d0 -> distroInst d0 = None ∧ details_cg d0 = cg ∧ details_pg d0 = pg) ->
  pd_ConfigGroup pd = inr cg -> pd_ProcessGroup pd = inr pg ->
  (is_Some inst -> exists d, dist = Some d ∧ CDistribution pd (Some d, None) ∈ calls m) ->
  returns (startTrackInstrumentation pid inst generics pd pg cg dist)
    (fun _ m' => inv m' ∧ detailsByPid m' = <[pid := mkDetails inst generics pd cg pg]> (detailsByPid m)
                 ∧ calls m' = calls m) m.
Proof.
  intros Hi Hheld Hprev Hcg Hpg Hdist. set (dnew := mkDetails inst generics pd cg pg).
  unfold startTrackInstrumentation. go_step. fold dnew.
  assert (Hcount : forall a, counted (calls m) a (<[pid := dnew]> (detailsByPid m))
            = (if decide (counts (calls m) a dnew) then 1 else 0) + counted (calls m) a (detailsByPid m)).
  { intros a. rewrite counted_insert, counted_uncounted; [done|]. intros d Hd. by destruct (Hprev d Hd). }
  assert (Hinv : forall m', detailsByPid m' = <[pid := dnew]> (detailsByPid m) ->
            detailsByConfigGroup m' = index_add cg pid dnew (detailsByConfigGroup m) ->
            detailsByProcessGroup m' = index_add pg pid dnew (detailsByProcessGroup m) ->
            calls m' = calls m ->
            (forall a, default 0%Z (instrumentedProcesses m' !! a)
                       = Z.of_nat (counted (calls m) a (<[pid := dnew]> (detailsByPid m)))) -> inv m').
  { destruct Hi as [I1 I2 I3 I4 I5 Ih I6]. intros m' E1 E2 E3 E4 Hg. split; rewrite ?E1, ?E2, ?E3, ?E4; try done.
    - apply (index_add_ok details_cg); [done|]. intros d0 Hd0. by destruct (Hprev d0 Hd0) as (_ & -> & _).
    - apply (index_add_ok details_pg); [done|]. intros d0 Hd0. by destruct (Hprev d0 Hd0) as (_ & _ & ->).
    - eapply accounts_perm; [|exact I3]. rewrite Hheld, owned_insert. unfold insts_of. simpl. by rewrite app_assoc.
    - intros p d. destruct (decide (p = pid)) as [->|Hp].
      + rewrite lookup_insert_eq. intros [= <-]. split; simpl; try done.
        intros Hs. destruct (Hdist Hs) as (d & _ & Hin). by exists d.
      + rewrite lookup_insert_ne by done. apply I4. }
  assert (Hprev_none : match detailsByPid m !! pid with Some d => bool_decide (is_Some (distroInst d)) | None => false end = false).
  { destruct (detailsByPid m !! pid) as [d0|] eqn:Hd0; [|done]. destruct (Hprev d0 eq_refl) as [-> _]. done. }
  destruct inst as [i|].
  - destruct (Hdist ltac:(by eexists)) as (d & -> & Hin). rewrite Hprev_none.
    split_and!; [|done|done]. apply Hinv; try done. cbn [instrumentedProcesses with_metrics].
    eapply gauge_add; [apply Hi|]. intros a. cbn beta. rewrite Hcount.
    assert (Ha : counts (calls m) a dnew <-> a = metricsAttributeSet d).
    { unfold counts, dnew. simpl. rewrite (distribution_cached _ _ d (inv_honest _ _ _ Hi) Hin). simpl. naive_solver. }
    repeat case_decide; try lia; tauto.
  - assert (Hno : forall a, Z.of_nat (counted (calls m) a (<[pid := dnew]> (detailsByPid m)))
                  = default 0%Z (instrumentedProcesses m !! a)).
    { intros a. rewrite Hcount, decide_False; [by rewrite (inv_gauge _ _ _ Hi)|]. by intros [[x Hx] _]. }
    destruct dist as [d|]; [destruct (detailsByPid m !! pid)|];
      (split_and!; [|done|done]); apply Hinv; try done; intros a; by rewrite Hno.
Qed.

(** ** Instrumenting one process *)

(** The groups of the details are those under which the process is tracked. *)
Definition compatible (m : manager) (pid : Z) (pd : ProcessDetails) : Prop :=
  forall d cg pg, detailsByPid m !! pid = Some d -> pd_ConfigGroup pd = inr cg -> pd_ProcessGroup pd = inr pg ->
    details_cg d = cg ∧ details_pg d = pg.

(** What an attempt on [pid] keeps: the other processes, what is attached to
    this one, and the invariant. *)
Record attempted (pid : Z) (m m' : manager) : Prop := {
  att_inv : inv m';
  att_others p : p <> pid -> detailsByPid m' !! p = detailsByPid m !! p;
  att_kept d : detailsByPid m !! pid = Some d -> exists d', detailsByPid m' !! pid = Some d'
    ∧ genericInsts d' = genericInsts d ∧ details_cg d' = details_cg d ∧ details_pg d' = details_pg d
    ∧ (is_Some (distroInst d) -> d' = d);
  att_calls c : c ∈ calls m -> c ∈ calls m'
}.

Lemma attempted_same pid m m' live : talks (owned (detailsByPid m)) live m m' -> live = detailsByPid m -> attempted pid m m'.
Proof.
  intros (Hi & (E1 & E2 & E3) & Hc) ->. split.
  - unfold inv. by rewrite E1.
  - by rewrite E1.
  - intros d Hd. exists d. by rewrite E1.
  - exact Hc.
Qed.

Lemma attempted_trans pid m1 m2 m3 : attempted pid m1 m2 -> attempted pid m2 m3 -> attempted pid m1 m3.
Proof.
  intros [_ O1 K1 C1] [Iv O2 K2 C2]. split; auto.
  - intros p Hp. by rewrite O2, O1.
  - intros d Hd. destruct (K1 d Hd) as (d1 & Hd1 & ? & ? & ? & F1). destruct (K2 d1 Hd1) as (d2 & Hd2 & ? & ? & ? & F2).
    exists d2. split_and!; try congruence. intros Hs. pose proof (F1 Hs) as ->. by apply F2.
Qed.

(** A tracked process has its instrumentation, or is beyond retrying. *)
Lemma is_instrumented_spec o pid m (Q : bool -> manager -> Prop) :
  inv m ->
  (forall b m', talks (owned (detailsByPid m)) (detailsByPid m) m m' ->
     (b = false -> forall d, detailsByPid m' !! pid = Some d -> distroInst d = None) ->
     (b = true -> is_Some (detailsByPid m' !! pid)) -> Q b m') ->
  returns (isInstrumentedByDistro o pid) Q m.
Proof.
  intros Hi HQ. unfold isInstrumentedByDistro. go_step. go_step.
  destruct (detailsByPid m !! pid) as [d|] eqn:Hd.
  2:{ go_step. apply HQ; [by apply talks_refl| |done]. intros _ d'. by rewrite Hd. }
  destruct (distroInst d) eqn:Hdi.
  { go_step. apply HQ; [by apply talks_refl|done|]. by rewrite Hd. }
  go_step. eapply distribution_spec; [exact Hi|]. intros r m' _ T _.
  assert (Hd' : detailsByPid m' !! pid = Some d) by (destruct T as (_ & (-> & _) & _); done).
  assert (HQ' : forall b, Q b m').
  { intros b. apply HQ; [done| |by rewrite Hd']. intros _ d'. rewrite Hd'. by intros [= <-]. }
  destruct r as [[x|] [e|]]; go_step; apply HQ'.
Qed.

Lemma attempted_started pid inst generics pd pg cg m0 m m' :
  same_tracking m0 m -> (forall c, c ∈ calls m0 -> c ∈ calls m) ->
  (forall d, detailsByPid m0 !! pid = Some d -> distroInst d = None ∧ generics = genericInsts d
     ∧ details_cg d = cg ∧ details_pg d = pg) ->
  inv m' ∧ detailsByPid m' = <[pid := mkDetails inst generics pd cg pg]> (detailsByPid m) ∧ calls m' = calls m ->
  attempted pid m0 m' ∧ is_Some (detailsByPid m' !! pid).
Proof.
  intros (E1 & _) Hc Hp (Hi & E & Ec). split; [split|].
  - done.
  - intros p Hne. by rewrite E, lookup_insert_ne, E1.
  - intros d Hd. destruct (Hp d Hd) as (Hn & -> & -> & ->). rewrite E, lookup_insert_eq.
    eexists. split_and!; try done. intros [x Hx]. congruence.
  - intros c Hin. rewrite Ec. auto.
  - rewrite E, lookup_insert_eq. by eexists.
Qed.

(** What an attempt answers: it returns, the process is tracked unless an
    error says otherwise. *)
Definition attempt (pid : Z) (m : manager) (err : option error) (m' : manager) : Prop :=
  attempted pid m m' ∧ (err = None -> is_Some (detailsByPid m' !! pid)).

Lemma load_distro_spec pid settings d generics pd pg cg m0 m :
  talks (option_list None ++ generics ++ owned (delete pid (detailsByPid m0))) (detailsByPid m0) m0 m ->
  (forall d0, detailsByPid m0 !! pid = Some d0 -> distroInst d0 = None ∧ generics = genericInsts d0
     ∧ details_cg d0 = cg ∧ details_pg d0 = pg) ->
  pd_ConfigGroup pd = inr cg -> pd_ProcessGroup pd = inr pg -> CDistribution pd (Some d, None) ∈ calls m ->
  returns (load_distro pid settings d generics pd pg cg) (attempt pid m0) m.
Proof.
  intros T Hprev Hcg Hpg Hin. unfold load_distro. set (G := generics ++ owned (delete pid (detailsByPid m0))) in *.
  assert (Hstart : forall inst m1, talks (option_list inst ++ G) (detailsByPid m0) m m1 ->
            returns (startTrackInstrumentation pid inst generics pd pg cg (Some d))
              (fun _ m' => attempted pid m0 m' ∧ is_Some (detailsByPid m' !! pid)
                 ∧ inv m' ∧ (forall i, inst = Some i -> i ∈ owned (detailsByPid m'))) m1).
  { intros inst m1 T1. destruct (talks_trans _ _ _ _ _ _ _ T T1) as (I1 & S1 & C1). pose proof S1 as (E1 & _).
    eapply returns_mono.
    - apply (start_spec pid inst generics pd pg cg (Some d) (option_list inst ++ G)); try done.
      + by rewrite E1.
      + by rewrite E1.
      + rewrite E1. intros d0 Hd0. destruct (Hprev d0 Hd0) as (? & _ & ? & ?). done.
      + intros _. exists d. split; [done|]. apply T1, Hin.
    - intros u m' Hm'. destruct (attempted_started _ _ _ _ _ _ _ _ _ S1 C1 Hprev Hm') as [Ha Hs].
      split_and!; [exact Ha|exact Hs|apply Hm'|]. intros i ->. destruct Hm' as (_ & -> & _).
      rewrite owned_insert. unfold insts_of. simpl. left. }
  go_step. apply (create_spec _ _ _ _ _ _ _ _ (proj1 T)). intros r m1 T1 Hr. destruct r as [e|i].
  - go_step. apply tell_spec. go_step.
    eapply returns_mono; [apply Hstart; eapply talks_trans; [exact T1|]; apply talks_neutral; [done|done|apply T1]|].
    intros u m' (Ha & Hs & _). go_step. by split.
  - go_step. apply tell_spec. set (m2 := with_calls m1 _).
    assert (T2 : talks (option_list None ++ G) (detailsByPid m0) m m2).
    { eapply talks_trans; [exact T1|]. apply talks_neutral; [done|done|apply T1]. }
    go_step. apply (load_spec i _ _ _ _ (proj1 T2)); [exact (Hr i eq_refl)|]. intros err m3 T3.
    go_step. apply tell_spec. set (m4 := with_calls m3 _).
    assert (T4 : talks (match err with Some _ => [] | None => [i] end ++ G) (detailsByPid m0) m m4).
    { eapply talks_trans; [exact T2|]. eapply talks_trans; [exact T3|].
      apply talks_neutral; [done|done|]. destruct err; apply T3. }
    destruct err as [e|].
    + go_step. eapply returns_mono; [apply (Hstart None), T4|]. intros u m' (Ha & Hs & _). go_step. by split.
    + go_step. eapply returns_mono; [apply (Hstart (Some i)), T4|]. intros u m' (Ha & Hs & Hi & Ho).
      go_step. apply tell_spec. go_step. split; [|done].
      eapply attempted_trans; [exact Ha|]. eapply attempted_same; [|reflexivity].
      apply talks_run; [by apply Ho|exact Hi].
Qed.

Lemma attempt_refused pid e m m' :
  talks (owned (detailsByPid m)) (detailsByPid m) m m' -> attempt pid m (Some e) m'.
Proof. intros T. split; [|done]. by eapply attempted_same. Qed.

(** The generic instrumentations are loaded for a new process, and kept for a
    tracked one. *)
Lemma generic_insts_spec o pid settings m (Q : list Instrumentation -> manager -> Prop) :
  inv m -> (forall d, detailsByPid m !! pid = Some d -> distroInst d = None) ->
  (forall gens m', talks (gens ++ owned (delete pid (detailsByPid m))) (detailsByPid m) m m' ->
     (forall d, detailsByPid m !! pid = Some d -> gens = genericInsts d) -> Q gens m') ->
  returns (generic_insts o pid settings) Q m.
Proof.
  intros Hi Hn HQ. unfold generic_insts. go_step. go_step. destruct (detailsByPid m !! pid) as [d|] eqn:Hd.
  - go_step. apply HQ; [|by intros d' [= <-]]. apply talks_refl. eapply inv_held; [|exact Hi].
    rewrite (owned_lookup _ _ _ Hd). unfold insts_of. by rewrite (Hn d eq_refl).
  - unfold loadGenericInstrumentations. eapply returns_mono; [by apply load_generic_spec|].
    intros gens m' T. apply HQ; [|done]. by rewrite delete_id.
Qed.

Lemma instrument_with_spec o pd pid d cg pg m :
  inv m -> compatible m pid pd -> (forall d0, detailsByPid m !! pid = Some d0 -> distroInst d0 = None) ->
  pd_ConfigGroup pd = inr cg -> pd_ProcessGroup pd = inr pg -> CDistribution pd (Some d, None) ∈ calls m ->
  returns (instrument_with o pd pid d cg pg) (attempt pid m) m.
Proof.
  intros Hi Hcomp Hn Hcg Hpg Hin. unfold instrument_with.
  destruct (negb _ && _); [go_step; by apply attempt_refused, talks_refl|].
  go_step. apply call_spec. intros settings _.
  set (m1 := with_calls m _). assert (T1 : talks (owned (detailsByPid m)) (detailsByPid m) m m1) by by apply talks_neutral.
  clearbody m1. destruct T1 as (I1 & S1 & C1). pose proof S1 as (E1 & _).
  go_step. apply generic_insts_spec; [unfold inv; by rewrite E1|by rewrite E1|].
  rewrite E1. intros gens m2 T2 Hg.
  assert (T2' : talks (gens ++ owned (delete pid (detailsByPid m))) (detailsByPid m) m m2).
  { destruct T2 as (? & ? & ?). split_and!; [done|by etransitivity|auto]. }
  assert (Hprev : forall d0, detailsByPid m !! pid = Some d0 -> distroInst d0 = None ∧ gens = genericInsts d0
     ∧ details_cg d0 = cg ∧ details_pg d0 = pg).
  { intros d0 Hd0. destruct (Hcomp d0 cg pg Hd0 Hcg Hpg) as [<- <-]. auto. }
  case_bool_decide.
  - apply load_distro_spec; try done. by apply T2'.
  - destruct gens as [|g gens].
    + go_step. apply attempt_refused. destruct T2' as (I2 & ? & ?). split_and!; [|done|done].
      eapply inv_held; [|exact I2]. simpl. destruct (detailsByPid m !! pid) as [d0|] eqn:Hd0.
      * rewrite (owned_lookup _ _ _ Hd0). unfold insts_of. destruct (Hprev d0 eq_refl) as (-> & <- & _). done.
      * by rewrite delete_id.
    + destruct T2' as (I2 & S2 & C2). pose proof S2 as (E2 & _). go_step. eapply returns_mono.
      * apply (start_spec pid None (g :: gens) pd pg cg None (g :: gens ++ owned (delete pid (detailsByPid m))));
          try done; try by rewrite E2.
        -- rewrite E2. intros d0 Hd0. by destruct (Hprev d0 Hd0) as (? & _ & ?).
      * intros u m' Hm'. go_step.
        destruct (attempted_started _ _ _ _ _ _ _ _ _ S2 C2 Hprev Hm') as [Ha Hs]. by split.
Qed.

Lemma try_spec o pd pid m :
  inv m -> compatible m pid pd -> returns (tryInstrument o pd pid) (attempt pid m) m.
Proof.
  intros Hi Hcomp. unfold tryInstrument. go_step. apply is_instrumented_spec; [exact Hi|].
  intros b m1 T1 Hf Ht. destruct b.
  { go_step. split; [by eapply attempted_same|]. intros _. by apply Ht. }
  go_step. eapply distribution_spec; [apply T1|]. intros r m2 Hr T2 Hin.
  assert (T : talks (owned (detailsByPid m)) (detailsByPid m) m m2) by by eapply talks_trans.
  destruct r as [rd re]. cbn [snd fst]. destruct re as [e|]; [go_step; by apply attempt_refused|].
  destruct (pd_ConfigGroup pd) as [e|cg] eqn:Hcg; [go_step; by apply attempt_refused|].
  destruct (pd_ProcessGroup pd) as [e|pg] eqn:Hpg; [go_step; by apply attempt_refused|].
  destruct (distribution_given _ _ _ (inv_honest _ _ _ (proj1 T1)) Hr) as [d ->]. go_step. go_step.
  destruct T as (I2 & S2 & C2). pose proof S2 as (E2 & _).
  eapply returns_mono.
  - apply (instrument_with_spec o pd pid d cg pg m2); try done.
    + unfold inv. by rewrite E2.
    + unfold compatible. by rewrite E2.
    + intros d0 Hd0. apply (Hf eq_refl d0). destruct T2 as (_ & (E3 & _) & _). by rewrite <- E3.
    + by apply Hin.
  - intros err m' [Ha Hs]. split; [|done]. eapply attempted_trans; [|exact Ha].
    eapply attempted_same; [|reflexivity]. done.
Qed.

(** ** The event loop *)

(** What an input is expected to say: a new process comes with its execution
    details, and details of a process that is tracked put it in the groups it
    is in. *)
Definition respects (m : manager) (i : Input) : Prop :=
  match i with
  | ProcessInput e =>
      (EventKind e ∈ [ProcessExecEvent; ProcessForkEvent; ProcessFileOpenEvent] -> is_Some (ExecDetails e))
      ∧ forall pd, Resolve (calls m) e = inr pd -> compatible m (PID e) pd
  | RequestInput r => forall pid pd, ProcessDetailsByPid r !! pid = Some pd -> compatible m pid pd
  | _ => True
  end.

(** The other processes, and what is attached, are kept by a list of attempts. *)
Lemma instrument_each_spec o l m :
  inv m -> NoDup l.*1 -> (forall pid pd, (pid, pd) ∈ l -> compatible m pid pd) ->
  returns (instrument_each o l)
    (fun _ m' => inv m' ∧ (forall p, p ∉ l.*1 -> detailsByPid m' !! p = detailsByPid m !! p)) m.
Proof.
  revert m. induction l as [|[pid pd] l IH]; intros m Hi Hnd Hc; cbn [instrument_each].
  { by apply returns_ret. }
  apply NoDup_cons in Hnd as [Hpid Hnd].
  assert (Hrest : forall m1, attempted pid m m1 -> returns (instrument_each o l)
            (fun _ m' => inv m' ∧ (forall p, p ∉ ((pid, pd) :: l).*1 -> detailsByPid m' !! p = detailsByPid m !! p)) m1).
  { intros m1 [A1 A2 _ _]. eapply returns_mono; [apply IH; [exact A1|exact Hnd|]|].
    - intros p q Hq d cg pg. rewrite A2; [apply Hc; by right|].
      intros ->. apply Hpid, list_elem_of_fmap. by exists (pid, q).
    - intros t m' [Hi' Ho]. split; [done|]. intros p Hp. simpl in Hp. apply not_elem_of_cons in Hp as [Hp1 Hp2].
      by rewrite Ho, A2. }
  go_step. apply is_instrumented_spec; [exact Hi|]. intros b m1 T1 _ _.
  assert (A1 : attempted pid m m1) by by eapply attempted_same.
  destruct b; [by apply Hrest|].
  go_step. eapply returns_mono.
  - apply try_spec; [apply A1|]. intros d cg pg. destruct T1 as (_ & (-> & _) & _). apply Hc. left.
  - intros err m2 [A2 _]. assert (A : attempted pid m m2) by by eapply attempted_trans.
    destruct err; [by apply Hrest|]. go_step. eapply returns_mono; [by apply Hrest|]. intros t m' Hm'. by go_step.
Qed.

Lemma instrument_from_spec o byPid m :
  inv m -> (forall pid pd, byPid !! pid = Some pd -> compatible m pid pd) ->
  returns (instrumentFromDetails o byPid)
    (fun _ m' => inv m' ∧ (forall p, byPid !! p = None -> detailsByPid m' !! p = detailsByPid m !! p)) m.
Proof.
  intros Hi Hc. unfold instrumentFromDetails.
  assert (Hp : map_order (map_to_list byPid) ≡ₚ map_to_list byPid) by apply map_order_perm.
  go_step. eapply returns_mono.
  - apply instrument_each_spec; [done| |].
    + rewrite Hp. apply NoDup_fst_map_to_list.
    + intros pid pd Hin. rewrite Hp, elem_of_map_to_list in Hin. by apply Hc.
  - intros tracked m' [Hi' Ho].
    assert (Ho' : forall p, byPid !! p = None -> detailsByPid m' !! p = detailsByPid m !! p).
    { intros p Hn. apply Ho. rewrite Hp. intros ([q pd] & -> & Hin)%list_elem_of_fmap.
      apply elem_of_map_to_list in Hin. simpl in Hn. congruence. }
    destruct (nonempty tracked); [|by go_step]. apply tell_spec. split; [by apply inv_neutral|done].
Qed.

Lemma failed_details_spec wanted l held live m :
  inv_at held live m ->
  returns (failed_details wanted l)
    (fun byPid m' => talks held live m m' ∧ (forall pid pd, byPid !! pid = Some pd ->
       exists d, (pid, d) ∈ l ∧ details_pd d = pd ∧ distroInst d = None)) m.
Proof.
  revert m. induction l as [|[pid d] l IH]; intros m Hi; cbn [failed_details].
  { apply returns_ret. split; [by apply talks_refl|]. intros pid pd. by rewrite lookup_empty. }
  assert (Hcand : returns (retry_candidate wanted d)
            (fun b m' => talks held live m m' ∧ (b = true -> distroInst d = None)) m).
  { unfold retry_candidate. destruct (distroInst d); [go_step; by split; [apply talks_refl|]|].
    case_decide; [go_step; by split; [apply talks_refl|]|].
    go_step. eapply distribution_spec; [exact Hi|]. intros r m1 _ T1 _. destruct r as [[x|] [e|]]; by go_step. }
  go_step. eapply returns_mono; [exact Hcand|]. intros b m1 [T1 Hb].
  go_step. eapply returns_mono; [apply IH, T1|]. intros byPid m2 [T2 Hby]. go_step.
  split; [by eapply talks_trans|]. intros p pd. destruct b.
  - rewrite lookup_insert_Some. intros [[<- <-]|[_ Hl]].
    + exists d. split; [left|auto].
    + destruct (Hby p pd Hl) as (d' & ? & ?). exists d'. split; [by right|done].
  - intros Hl. destruct (Hby p pd Hl) as (d' & ? & ?). exists d'. split; [by right|done].
Qed.

Lemma retry_spec o filter m :
  inv m -> returns (retryFailedInstrumentationsForDistros o filter) (fun _ m' => inv m') m.
Proof.
  intros Hi. unfold retryFailedInstrumentationsForDistros, failedProcessDetailsByDistro.
  go_step. go_step. go_step. eapply returns_mono; [by apply failed_details_spec|].
  intros byPid m1 [(I1 & S1 & _) Hby]. pose proof S1 as (E1 & _).
  assert (Hi1 : inv m1) by (unfold inv; by rewrite E1).
  destruct (nonempty _); [|by go_step]. eapply returns_mono; [apply instrument_from_spec; [done|]|by intros ?? []].
  intros pid pd Hpd. destruct (Hby pid pd Hpd) as (d & Hin & Hd & _).
  assert (Hp : map_order (map_to_list (detailsByPid m)) ≡ₚ map_to_list (detailsByPid m)) by apply map_order_perm.
  rewrite Hp in Hin. apply elem_of_map_to_list in Hin.
  intros d0 cg pg Hd0 Hcg Hpg. rewrite E1, Hin in Hd0. injection Hd0 as <-. rewrite <- Hd in *.
  destruct (inv_entries _ _ _ Hi pid d Hin) as [Hc Hg _]. split; congruence.
Qed.

(** ** Removing a group, applying a configuration *)

Lemma clean_list_spec pids m :
  inv m ->
  returns (for_each cleanInstrumentation pids)
    (fun _ m' => inv m' ∧ (forall p, detailsByPid m' !! p = if decide (p ∈ pids) then None else detailsByPid m !! p)
       ∧ (forall c, c ∈ calls m -> c ∈ calls m')) m.
Proof.
  revert m. induction pids as [|pid pids IH]; intros m Hi; cbn [for_each].
  { apply returns_ret. split_and!; [done| |done]. intros p. by rewrite decide_False by set_solver. }
  go_step. eapply returns_mono; [by apply clean_spec|]. intros u m1 (I1 & E1 & C1).
  eapply returns_mono; [by apply IH|]. intros u' m' (I' & E' & C'). split_and!; [done| |auto].
  intros p. rewrite E', E1.
  destruct (decide (p = pid)) as [->|Hp].
  - rewrite lookup_delete_eq, (decide_True (P := pid ∈ pid :: pids)) by left. by destruct (decide _).
  - rewrite lookup_delete_ne by done. destruct (decide (p ∈ pids)) as [Hin|Hin].
    + by rewrite decide_True by by right.
    + rewrite decide_False; [done|]. by intros [?|?]%elem_of_cons.
Qed.

(** The processes of a group, by the index. *)
Lemma index_pids {K} `{Countable K} (key : instrumentationDetails -> K) byPid ix k inner l p :
  indexed key byPid ix -> ix !! k = Some inner -> l ≡ₚ map_to_list inner ->
  p ∈ l.*1 <-> exists d, byPid !! p = Some d ∧ key d = k.
Proof.
  intros Hix Hk Hl. rewrite Hl, list_elem_of_fmap. split.
  - intros ([q d] & -> & Hin%elem_of_map_to_list). exists d. by apply (indexed_inner key byPid ix k inner).
  - intros (d & Hd). exists (p, d). split; [done|]. apply elem_of_map_to_list.
    by apply (indexed_inner key byPid ix k inner).
Qed.

Lemma uninstrument_spec pg m :
  inv m ->
  returns (uninstrument_group pg)
    (fun _ m' => inv m' ∧ detailsByPid m' = filter (fun kv => details_pg kv.2 <> pg) (detailsByPid m)
       ∧ (forall c, c ∈ calls m -> c ∈ calls m')) m.
Proof.
  intros Hi. unfold uninstrument_group. go_step. go_step. destruct (detailsByProcessGroup m !! pg) as [procs|] eqn:Hpg.
  - eapply returns_mono; [by apply clean_list_spec|]. intros u m' (Hi' & E' & C'). split_and!; [done| |done].
    apply map_eq. intros p. rewrite E'. case_decide as Hp.
    + rewrite (index_pids details_pg (detailsByPid m) (detailsByProcessGroup m) pg procs) in Hp;
        [|apply Hi|done|apply map_order_perm].
      symmetry. apply map_lookup_filter_None. right. intros d Hd Hne. destruct Hp as (d' & Hd' & Hk). simpl in *. congruence.
    + rewrite (index_pids details_pg (detailsByPid m) (detailsByProcessGroup m) pg procs) in Hp;
        [|apply Hi|done|apply map_order_perm].
      destruct (detailsByPid m !! p) as [d|] eqn:Hd; symmetry.
      * apply map_lookup_filter_Some. split; [done|]. simpl. intros E. apply Hp. by exists d.
      * apply map_lookup_filter_None. by left.
  - go_step. split_and!; [done| |done]. symmetry. apply map_filter_id. intros p d Hd. simpl.
    by eapply indexed_none; [apply (inv_process _ _ _ Hi)|exact Hpg|].
Qed.

Lemma apply_each_spec config insts held live m :
  inv_at held live m -> (forall i, i ∈ insts -> i ∈ held) ->
  returns (apply_each config insts)
    (fun _ m' => talks held live m m' ∧ calls m' = reverse ((fun i => CApply i config) <$> insts) ++ calls m) m.
Proof.
  revert m. induction insts as [|i insts IH]; intros m Hi Hin; cbn [apply_each].
  { apply returns_ret. split; [by apply talks_refl|done]. }
  go_step. apply call_spec. intros r _. set (m1 := with_calls m _).
  assert (T1 : talks held live m m1).
  { apply talks_cons. eapply inv_grows; [exact Hi|done|]. eapply accounts_use; [right; by eexists| |apply Hi]. apply Hin. left. }
  go_step. eapply returns_mono; [apply IH; [apply T1|]|].
  { intros j Hj. apply Hin. by right. }
  intros errs m' [T E]. go_step. split; [by eapply talks_trans|].
  rewrite E. unfold m1. simpl. rewrite reverse_cons, <- app_assoc. done.
Qed.

Lemma owned_elem byPid pid d i : byPid !! pid = Some d -> i ∈ insts_of d -> i ∈ owned byPid.
Proof. intros Hd Hi. rewrite (owned_lookup _ _ _ Hd). set_solver. Qed.

(** A configuration reaches exactly the instrumentations of the processes of
    the group. *)
Lemma apply_config_spec cg config m :
  inv m ->
  returns (applyInstrumentationConfigurationForSDK cg config)
    (fun _ m' => talks (owned (detailsByPid m)) (detailsByPid m) m m'
       ∧ exists targets, calls m' = reverse ((fun i => CApply i config) <$> targets) ++ calls m
         ∧ targets ≡ₚ owned (filter (fun kv => details_cg kv.2 = cg) (detailsByPid m))) m.
Proof.
  intros Hi. unfold applyInstrumentationConfigurationForSDK. go_step. go_step.
  destruct (detailsByConfigGroup m !! cg) as [procs|] eqn:Hcg.
  - assert (Hp : map_order (map_to_list procs) ≡ₚ map_to_list procs) by apply map_order_perm.
    assert (Hprocs : procs = filter (fun kv => details_cg kv.2 = cg) (detailsByPid m)).
    { apply map_eq. intros p. apply option_eq. intros d. rewrite map_lookup_filter_Some.
      apply (indexed_inner details_cg _ (detailsByConfigGroup m)); [apply Hi|done]. }
    assert (Hperm : (map_order (map_to_list procs)).*2 ≫= insts_of ≡ₚ owned procs) by by rewrite Hp.
    eapply returns_mono.
    + apply apply_each_spec; [exact Hi|]. intros i Hin. rewrite Hperm in Hin.
      apply list_elem_of_bind in Hin as (d & Hd & Hin).
      apply list_elem_of_fmap in Hin as ([p d'] & -> & Hin%elem_of_map_to_list).
      rewrite Hprocs in Hin. apply map_lookup_filter_Some in Hin as [Hin _]. by eapply owned_elem.
    + intros e m' [T E]. split; [done|]. eexists. split; [exact E|]. by rewrite Hperm, <- Hprocs.
  - go_step. split; [by apply talks_refl|]. exists []. split; [done|].
    assert (filter (fun kv => details_cg kv.2 = cg) (detailsByPid m) = ∅) as ->.
    { apply map_eq. intros p. rewrite lookup_empty. apply map_lookup_filter_None. right. intros d Hd. simpl.
      by eapply indexed_none; [apply (inv_config _ _ _ Hi)|exact Hcg|]. }
    unfold owned. by rewrite map_to_list_empty.
Qed.

(** ** Every input *)

Lemma step_spec o i m : inv m -> respects m i -> returns (handle_input o i) (fun _ m' => inv m') m.
Proof.
  intros Hi Hr.
  assert (Hup : forall l m1, inv m1 -> returns (for_each (fun kv : ConfigGroup * Config =>
            applyInstrumentationConfigurationForSDK kv.1 kv.2 ≫= fun _ => mret tt) l) (fun _ m' => inv m') m1).
  { intros l m1 Hm1. eapply (returns_for_each _ (fun _ => inv)); [done| |done].
    intros kv l' m2 Hm2. go_step. eapply returns_mono; [by apply apply_config_spec|].
    intros e m3 [(I3 & (E3 & _) & _) _]. go_step. unfold inv. by rewrite E3. }
  destruct i as [| | |e|r|u|]; simpl; try by go_step.
  - assert (Htry : returns (tryInstrumentFromProcessEvent o e ≫= fun _ => mret tt) (fun _ m' => inv m') m).
    { go_step. unfold tryInstrumentFromProcessEvent. go_step. apply call_spec. intros r Hres.
      set (m1 := with_calls m _). assert (I1 : inv m1) by by apply inv_neutral.
      destruct r as [err|pd]; [go_step; by go_step|]. eapply returns_mono.
      - apply try_spec; [exact I1|]. intros d cg pg. by apply (proj2 Hr pd).
      - intros err m' [[]]. by go_step. }
    assert (Hnew : EventKind e ∈ [ProcessExecEvent; ProcessForkEvent; ProcessFileOpenEvent] ->
      returns (deref (ExecDetails e) ≫= fun _ => tryInstrumentFromProcessEvent o e ≫= fun _ => mret tt) (fun _ m' => inv m') m).
    { intros Hk. destruct (proj1 Hr Hk) as [x ->]. go_step. go_step. exact Htry. }
    destruct (EventKind e); try (apply Hnew; set_solver); [|by go_step].
    eapply returns_mono; [by apply clean_spec|]. by intros u m' [].
  - unfold handle_request. destruct (RetryDistros r); [by apply retry_spec|]. destruct (Instrument r).
    + eapply returns_mono; [by apply instrument_from_spec|]. by intros u m' [].
    + eapply returns_mono; [by apply uninstrument_spec|]. by intros u m' [].
  - by apply Hup.
  - by apply Hup.
Qed.

(** ** Shutdown *)

(** The processes that the clean-up reached, and those that were left when
    its deadline had passed. *)
Lemma close_tracked_spec expired l held live m :
  inv_at ((l.*2 ≫= insts_of) ++ held) live m ->
  returns (shutdown_each expired l)
    (fun all m' => exists reached left, l = reached ++ left
       ∧ talks ((left.*2 ≫= insts_of) ++ held) live m m'
       ∧ (if all : bool then left = [] else left <> [] ∧ expired (calls m') = true)
       ∧ forall pid d, (pid, d) ∈ reached -> COnExit pid (details_pd d) ∈ calls m') m.
Proof.
  revert m. induction l as [|[pid d] l IH]; intros m Hi; cbn [shutdown_each].
  { apply returns_ret. exists [], []. split_and!; [done|by apply talks_refl|done|]. by intros ?? ?%not_elem_of_nil. }
  go_step. go_step. destruct (expired (calls m)) eqn:Hexp.
  { go_step. exists [], ((pid, d) :: l). split_and!; [done|by apply talks_refl|done|done|]. by intros ?? ?%not_elem_of_nil. }
  simpl in Hi. rewrite <- app_assoc in Hi. go_step.
  eapply returns_mono; [by apply close_all_spec|]. intros u m1 T1.
  go_step. apply tell_spec. set (m2 := with_calls m1 _).
  assert (T2 : talks ((l.*2 ≫= insts_of) ++ held) live m m2).
  { eapply talks_trans; [exact T1|]. apply talks_neutral; [done|done|apply T1]. }
  eapply returns_mono; [apply IH, T2|]. intros all m' (reached & left & -> & T' & Hall & Hex).
  exists ((pid, d) :: reached), left. split_and!; [done|by eapply talks_trans|done|].
  intros p e [[= -> ->]|Hin]%elem_of_cons; [|by apply Hex]. apply T'. left.
Qed.

(** After the clean-up: what is still open is exactly what belongs to the
    processes it did not reach; everything else that was loaded was closed
    once and the exits reported; either no process is left and the tracking
    is empty, or the deadline has passed. *)
Definition closed_down (expired : Log -> bool) (m m' : manager) : Prop :=
  exists reached left, map_to_list (detailsByPid m) ≡ₚ reached ++ left
  ∧ loaded (calls m') ≡ₚ (left.*2 ≫= insts_of) ++ closed (calls m')
  ∧ NoDup (loaded (calls m')) ∧ disciplined (calls m')
  ∧ (forall pid d, (pid, d) ∈ reached -> COnExit pid (details_pd d) ∈ calls m')
  ∧ (left = [] ∧ detailsByPid m' = ∅ ∧ detailsByConfigGroup m' = ∅ ∧ detailsByProcessGroup m' = ∅
     ∨ left <> [] ∧ expired (calls m') = true).

Lemma shutdown_spec expired m : inv m -> returns (shutdown expired) (fun _ m' => closed_down expired m m') m.
Proof.
  intros Hi. unfold shutdown. go_step. go_step. go_step.
  assert (Hp : map_order (map_to_list (detailsByPid m)) ≡ₚ map_to_list (detailsByPid m)) by apply map_order_perm.
  eapply returns_mono.
  - apply (close_tracked_spec expired _ [] (detailsByPid m)). eapply inv_held; [|exact Hi]. rewrite app_nil_r. by rewrite Hp.
  - intros all m' (reached & left & El & ([_ _ [A1 A2 _ A4] _ _ _ _] & _) & Hall & Hex).
    rewrite El in Hp. rewrite app_nil_r in A1. destruct all; go_step; exists reached, left; simpl.
    + split_and!; [done|exact A1|exact A2|exact A4|exact Hex|]. left. by split.
    + split_and!; [done|exact A1|exact A2|exact A4|exact Hex|]. by right.
Qed.

(** Inputs that the manager gets one after the other, as it goes along. *)
Fixpoint well_fed (o : Options) (m : manager) (inputs : list Input) : Prop :=
  match inputs with
  | [] => True
  | i :: inputs =>
      stops i = true
      ∨ respects m i ∧ forall m', handle_input o i m = Done (tt, m') -> well_fed o m' inputs
  end.

(** The states between two inputs. *)
Inductive reachable (o : Options) : manager -> Prop :=
| reachable_start : reachable o NewManager
| reachable_step m i m' :
    reachable o m -> respects m i -> handle_input o i m = Done (tt, m') -> reachable o m'.

Lemma reachable_inv o m : reachable o m -> inv m.
Proof.
  induction 1 as [|m i m' _ IH Hr Hstep]; [apply inv_empty|].
  exact (returns_run _ _ _ _ _ (step_spec o i m IH Hr) Hstep).
Qed.
End Invariant.

(** * Properties of the instrumentation manager

    What holds in every state that the event loop reaches, and what a request
    to un-instrument, a configuration update and the shutdown do. *)

Section Properties.
Context `{Externals} `{GoMapOrder} `{!ExternalsLaws} `{!GoMapOrderLaws}.

(** C8: In every state between two inputs the indices by config group and by
    process group list exactly the tracked processes, every instrumentation
    that was loaded is held by exactly one of them or was closed once, none
    was run, configured or closed after it was closed, and the gauge of each
    distribution counts the processes that run its instrumentation. *)
Theorem tracking_consistent (o : Options) (m : manager) :
  reachable o m ->
  indexed details_cg (detailsByPid m) (detailsByConfigGroup m)
  ∧ indexed details_pg (detailsByPid m) (detailsByProcessGroup m)
  ∧ loaded (calls m) ≡ₚ owned (detailsByPid m) ++ closed (calls m)
  ∧ NoDup (loaded (calls m)) ∧ disciplined (calls m)
  ∧ forall a, default 0%Z (instrumentedProcesses m !! a) = Z.of_nat (counted (calls m) a (detailsByPid m)).
Proof. intros [Hc Hp [A1 A2 _ A4] _ _ _ Hg]%reachable_inv. done. Qed.

(** C9: For inputs as the detector promises them (a new process comes with
    its execution details, and details of a tracked process put it in the
    groups it is in) the event loop never panics, whatever factories,
    instrumentations and the reporter answer.  Once it is told to stop it
    returns: every instrumentation it loaded was closed exactly once, the
    exit of every process that was still tracked reported and nothing is
    tracked any more; unless the deadline of the clean-up passed, and then
    what is open is exactly what belongs to the processes that the clean-up
    did not reach. *)
Theorem event_loop_shuts_down (o : Options) (expired : Log -> bool) (inputs : list Input) :
  well_fed o NewManager inputs -> existsb stops inputs = true ->
  exists m m', runEventLoop o expired inputs NewManager = Done (tt, m') ∧ reachable o m ∧ closed_down expired m m'.
Proof.
  assert (Hgen : forall m, reachable o m -> well_fed o m inputs -> existsb stops inputs = true ->
    exists m1 m', runEventLoop o expired inputs m = Done (tt, m') ∧ reachable o m1 ∧ closed_down expired m1 m').
  { induction inputs as [|i inputs IH]; intros m Hm Hf Hs; [done|]. cbn [runEventLoop].
    destruct (stops i) eqn:Hi.
    - destruct (shutdown_spec expired m (reachable_inv _ _ Hm)) as ([] & m' & -> & Hc). eauto.
    - destruct Hf as [?|[Hr Hf]]; [congruence|]. simpl in Hs. rewrite Hi in Hs.
      destruct (step_spec o i m (reachable_inv _ _ Hm) Hr) as ([] & m1 & E & _).
      destruct (IH m1) as (m2 & m' & E' & ? & ?); [by eapply reachable_step|by apply Hf|done|].
      exists m2, m'. split; [|done]. unfold mbind, gost_bind. by rewrite E. }
  intros Hf Hs. apply (Hgen NewManager); [constructor|done..].
Qed.

(** The processes of one group and the others share no instrumentation. *)
Lemma owned_split (P : instrumentationDetails -> Prop) `{!forall d, Decision (P d)} byPid :
  owned byPid ≡ₚ owned (filter (fun kv => P kv.2) byPid) ++ owned (filter (fun kv => ~ P kv.2) byPid).
Proof.
  induction byPid as [|pid d byPid Hn IH] using map_ind; [done|].
  assert (Hi : forall B : gmap Z instrumentationDetails, B !! pid = None -> owned (<[pid := d]> B) ≡ₚ insts_of d ++ owned B).
  { intros B HB. rewrite owned_insert. by rewrite delete_id. }
  rewrite Hi, IH by done. destruct (decide (P d)) as [Hp|Hp].
  - rewrite map_filter_insert_True by done. rewrite map_filter_insert_False by (intros E; by apply E).
    rewrite delete_id, Hi, app_assoc; [done|apply map_lookup_filter_None; by left|done].
  - rewrite map_filter_insert_False, delete_id, map_filter_insert_True by done.
    rewrite Hi; [|apply map_lookup_filter_None; by left]. rewrite !app_assoc. apply Permutation_app_tail, Permutation_app_comm.
Qed.

Lemma loaded_kept l l' i : (forall c, c ∈ l -> c ∈ l') -> i ∈ loaded l -> i ∈ loaded l'.
Proof.
  intros Hl. unfold loaded. rewrite !list_elem_of_omap. intros (c & Hc & E). eauto.
Qed.

(** A request to un-instrument a group returns; it closes exactly the
    instrumentations of the group's processes, which are no longer tracked,
    and leaves all other processes as they are. *)
Theorem uninstrument_exact (o : Options) (m : manager) (pg : ProcessGroup) (r : Request) :
  reachable o m -> RetryDistros r = None -> Instrument r = false -> RequestGroup r = pg ->
  exists m', handle_request o r m = Done (tt, m')
  ∧ detailsByPid m' = filter (fun kv => details_pg kv.2 <> pg) (detailsByPid m)
  ∧ (forall pid d i, detailsByPid m !! pid = Some d -> i ∈ insts_of d ->
       i ∈ closed (calls m') <-> details_pg d = pg).
Proof.
  intros Hm Hretry Hinst Hpg. unfold handle_request. rewrite Hretry, Hinst, Hpg.
  pose proof (reachable_inv _ _ Hm) as Hi.
  destruct (uninstrument_spec pg m Hi) as ([] & m' & E & Hi' & Ef & Hc). exists m'. split_and!; [done..|].
  intros pid d i Hd Hin. pose proof (owned_elem _ _ _ _ Hd Hin) as Hown.
  destruct (accounts_held _ _ i (inv_accounts _ _ _ Hi) Hown) as [Hl _]. apply (loaded_kept _ _ _ Hc) in Hl.
  destruct (decide (details_pg d = pg)) as [Hp|Hp].
  - split; [done|]. intros _. rewrite (acc_perm _ _ (inv_accounts _ _ _ Hi')) in Hl.
    apply elem_of_app in Hl as [Ho|]; [exfalso|done].
    assert (Hnd : NoDup (owned (detailsByPid m))).
    { pose proof (acc_nodup _ _ (inv_accounts _ _ _ Hi)) as Hnd.
      rewrite (acc_perm _ _ (inv_accounts _ _ _ Hi)) in Hnd. by apply NoDup_app in Hnd as [? _]. }
    rewrite (owned_split (fun d => details_pg d = pg)) in Hnd. apply NoDup_app in Hnd as (_ & Hdis & _).
    apply (Hdis i); [|by rewrite Ef in Ho].
    apply (owned_elem _ pid d); [|done]. by apply map_lookup_filter_Some.
  - split; [|done]. intros Hcl. exfalso.
    apply (accounts_held _ _ i (inv_accounts _ _ _ Hi')); [|done].
    apply (owned_elem _ pid d); [|done]. rewrite Ef. by apply map_lookup_filter_Some.
Qed.

(** A configuration for a config group is applied exactly once to each
    instrumentation, generic ones included, of the processes of the group,
    and to nothing else; no process is dropped, whatever errors come back. *)
Theorem config_update_exact (o : Options) (m : manager) (cg : ConfigGroup) (config : Config) :
  reachable o m ->
  exists err m' targets, applyInstrumentationConfigurationForSDK cg config m = Done (err, m')
  ∧ calls m' = reverse ((fun i => CApply i config) <$> targets) ++ calls m
  ∧ targets ≡ₚ owned (filter (fun kv => details_cg kv.2 = cg) (detailsByPid m)) ∧ NoDup targets
  ∧ detailsByPid m' = detailsByPid m.
Proof.
  intros Hm. pose proof (reachable_inv _ _ Hm) as Hi.
  destruct (apply_config_spec cg config m Hi) as (err & m' & E & (_ & (E1 & _) & _) & targets & Ec & Ht).
  exists err, m', targets. split_and!; try done. rewrite Ht.
  pose proof (acc_nodup _ _ (inv_accounts _ _ _ Hi)) as Hnd.
  rewrite (acc_perm _ _ (inv_accounts _ _ _ Hi)) in Hnd. apply NoDup_app in Hnd as [Hnd _].
  rewrite (owned_split (fun d => details_cg d = cg)) in Hnd. by apply NoDup_app in Hnd as [? _].
Qed.
End Properties.
