(* ===== verification/K8sProcesses.v ===== *)
(** * Processes of Kubernetes pods (src/odiglet/pkg/ebpf)

    How odiglet instantiates the instrumentation manager: the details of a
    process and its groups (process_details.go), how they are found from a
    process event (resolvers.go), and the settings that a factory gets
    (settings_getter.go).  The class laws that the manager's theorems rest on
    are proved of it. *)

From Stdlib Require Import Ascii.
From S2P Require Import Prelude.
From S2P Require Import GoStrings.
From S2P Require Import K8s.
From S2P Require Import Status.
From S2P Require Import Workload.
From S2P Require Import Api.
From S2P Require Import GoLib.
From S2P Require Import Objects.
From S2P Require Import Client.
From S2P Require Import Samples.
From S2P Require Import Store.
From S2P Require Import Distros.
From S2P Require Import PodOwner.
From S2P Require Import PodEnv.
From S2P Require Import GoState.
From S2P Require Import Manager.
From S2P Require Import ManagerProperties.

(** ** Groups and details (process_details.go) *)

Record K8sConfigGroup := mkK8sConfigGroup { cg_pw : PodWorkload; cg_container : string }.
#[export] Instance K8sConfigGroup_eq_dec : EqDecision K8sConfigGroup.
Proof. solve_decision. Defined.
#[export] Instance K8sConfigGroup_countable : Countable K8sConfigGroup.
Proof.
  apply (inj_countable' (fun g => (cg_pw g, cg_container g)) (fun t => mkK8sConfigGroup t.1 t.2)). by intros [].
Defined.

(** A pointer to the details: two details are the same object when their
    addresses are. *)
Record K8sProcessDetails := mkK8sDetails
  { kd_address : nat;
    kd_pod : Pod;
    kd_container : string;
    kd_distro : option OtelDistro;
    kd_pw : option PodWorkload;
    kd_event : ProcessEvent }.

(** Attribute values: strings and integers. *)
Inductive K8sAttr := AString (s : string) | AInt (n : Z).

(** Instrumentations are the handles of the factories. *)
#[export] Instance k8s_types : ManagerTypes | 10 := {|
  ProcessGroup := PodWorkload;
  ConfigGroup := K8sConfigGroup;
  ProcessDetails := K8sProcessDetails;
  Instrumentation := nat;
  Config := ContainerAgentConfig;
  AttrValue := K8sAttr;
  attribute_String := AString
|}.

Definition k8s_ConfigGroup (kd : K8sProcessDetails) : error + K8sConfigGroup :=
  match kd_pw kd with
  | None => inl (ENew "podWorkload is not provided, cannot resolve config group")
  | Some pw =>
      if decide (kd_container kd = "") then
        inl (ENew "container name is not provided, cannot resolve config group")
      else inr (mkK8sConfigGroup pw (kd_container kd))
  end.

Definition k8s_ProcessGroup (kd : K8sProcessDetails) : error + PodWorkload :=
  match kd_pw kd with
  | None => inl (ENew "podWorkload is not provided, cannot resolve config group")
  | Some pw => inr pw
  end.

Definition ErrProcessLanguageNotMatchesDistribution : error :=
  ENew "the detected programming language of the process does not match the language of the distribution determined for instrumentation".

(** The verdict that a call left in [langVerified] of the details at an
    address. *)
Definition verdict (address : nat) (c : Call) : option bool :=
  match c with
  | CDistribution pd r =>
      if decide (kd_address pd = address) then
        match kd_distro pd with Some _ => Some (bool_decide (r.2 = None)) | None => None end
      else None
  | _ => None
  end.
Definition langVerified (l : Log) (address : nat) : option bool := head (omap (verdict address) l).

Section Processes.
(** [inspectors.VerifyLanguage] reads the process from the file system; the
    factories are eBPF code. *)
Context `{Client} (VerifyLanguage : Log -> K8sProcessDetails -> bool).
Context (factory : Log -> bool -> string -> Z -> Settings -> error + nat).
Context (load : Log -> nat -> option error) (apply : Log -> nat -> ContainerAgentConfig -> option error).
(** The cluster's state at the time of a call. *)
Context (cluster : Log -> Cluster) (distributionGetter : Getter).

Definition k8s_Distribution (l : Log) (kd : K8sProcessDetails) : option OtelDistro * option error :=
  match kd_distro kd with
  | None => (None, Some (ENew "distribution is not provided, cannot resolve config group"))
  | Some d =>
      match langVerified l (kd_address kd) with
      | Some true => (Some d, None)
      | Some false => (None, Some ErrProcessLanguageNotMatchesDistribution)
      | None =>
          if IsProgrammingLanguageWildcard (d_language d) then (Some d, None)
          else if VerifyLanguage l kd then (Some d, None)
          else (None, Some (EJoin ErrProcessLanguageNotMatchesDistribution
                 (ENew ("process with exe path " +:+ match ExecDetails (kd_event kd) with Some x => ExePath x | None => "" end
                        +:+ " does not match the detected language (" +:+ d_language d +:+ ") for container: "
                        +:+ kd_container kd))))
      end
  end.

(** ** From a process event to its details (resolvers.go) *)

Definition requiredEnvVarNotFound (envVarName : string) : error :=
  ENew ("required environment variable not found: " +:+ envVarName).

Definition podFromProcEvent (c : Cluster) (envs : gmap string string) : error + Pod :=
  match envs !! OdigosEnvVarPodName with
  | None => inl (requiredEnvVarNotFound OdigosEnvVarPodName)
  | Some podName =>
      match envs !! OdigosEnvVarNamespace with
      | None => inl (requiredEnvVarNotFound OdigosEnvVarNamespace)
      | Some podNamespace =>
          match GetObject c (Some TPod) podNamespace podName with
          | inl err => inl (EWrap "error fetching pod object" err)
          | inr (OPod p) => inr p
          | inr _ => inl (ENew "error fetching pod object")
          end
      end
  end.

(** The new details are at a fresh address.  An event without execution
    details is not resolved: the loop reads them first. *)
Definition k8s_Resolve (l : Log) (e : ProcessEvent) : error + K8sProcessDetails :=
  let envs := match ExecDetails e with Some x => Environments x | None => ∅ end in
  match podFromProcEvent (cluster l) envs with
  | inl err => inl err
  | inr pod =>
      match envs !! OdigosEnvVarContainerName with
      | None => inl (requiredEnvVarNotFound OdigosEnvVarContainerName)
      | Some containerName =>
          match PodWorkloadObjectOrError pod with
          | inl err => inl (EWrap "failed to find workload object from pod manifest owners references" err)
          | inr pw =>
              inr (mkK8sDetails (length l) pod containerName
                     (GetDistroByName distributionGetter (map_get envs OdigosEnvVarDistroName)) (Some pw) e)
          end
      end
  end.

(** ** Settings (settings_getter.go) *)

(** The attributes of a pair, or what is wrong with it; nothing for an empty
    pair. *)
Definition parse_pair (pair : string) : option (error + string * string) :=
  let pair := trim_space pair in
  if decide (pair = "") then None
  else Some match split2 "="%char pair with
            | None => inl (ENew ("malformed otel resource attribute pair: " +:+ pair))
            | Some (k, v) =>
                let key := trim_space k in let value := trim_space v in
                if bool_decide (key = "") || bool_decide (value = "") then
                  inl (ENew ("empty key or value in otel resource attribute pair: " +:+ pair))
                else inr (key, value)
            end.

Definition parseOtelResourceAttributes (envValue : string) : list (string * K8sAttr) * list error :=
  if decide (envValue = "") then ([], [])
  else
    let parsed := omap parse_pair (split ","%char envValue) in
    (omap (fun r => match r with inr (k, v) => Some (k, AString v) | inl _ => None end) parsed,
     omap (fun r => match r with inl e => Some e | inr _ => None end) parsed).

(** The map of existing keys is made once: duplicates among the new ones are
    all appended. *)
Definition appendUniqueAttributes (existing new : list (string * K8sAttr)) : list (string * K8sAttr) :=
  existing ++ filter (fun a => a.1 ∉ existing.*1) new.

Definition kind_attribute (kind name : string) : list (string * K8sAttr) :=
  switch kind
    [(WorkloadKindDeployment, [("k8s.deployment.name", AString name)]);
     (WorkloadKindStatefulSet, [("k8s.statefulset.name", AString name)]);
     (WorkloadKindDaemonSet, [("k8s.daemonset.name", AString name)]);
     (WorkloadKindCronJob, [("k8s.cronjob.name", AString name)]);
     (WorkloadKindJob, [("k8s.job.name", AString name)])]
    [].

(** The attributes from the environment and the command of the process. *)
Definition exec_attributes (kd : K8sProcessDetails) (x : ProcessExecDetails) (attrs : list (string * K8sAttr))
    : list (string * K8sAttr) :=
  let attrs := match Environments x !! OdigosEnvVarContainerName with
               | Some n => if negb (bool_decide (n = "")) && bool_decide (kd_container kd = "")
                           then attrs ++ [("k8s.container.name", AString n)] else attrs
               | None => attrs
               end in
  let attrs := match Environments x !! otelResourceAttributesEnvVarName with
               | Some v => appendUniqueAttributes attrs (parseOtelResourceAttributes v).1
               | None => attrs
               end in
  let attrs := if decide (ExePath x = "") then attrs
               else attrs ++ [("process.executable.path", AString (ExePath x))] in
  if decide (CmdLine x = "") then attrs
  else attrs ++ [("process.command", AString (default "" (head (split " "%char (CmdLine x)))))].

(** [pe.ExecDetails] is tested against nil and later dereferenced without a
    test. *)
Definition getResourceAttributes (kd : K8sProcessDetails) (pw : PodWorkload) : go (list (string * K8sAttr)) :=
  let attrs := [("k8s.namespace.name", AString (pw_namespace pw));
                ("k8s.pod.name", AString (om_name (pod_meta (kd_pod kd))));
                ("odigos.workload.kind", AString (pw_kind pw));
                ("odigos.workload.name", AString (pw_name pw))] ++ kind_attribute (pw_kind pw) (pw_name pw) in
  let attrs := if decide (kd_container kd = "") then attrs
               else attrs ++ [("k8s.container.name", AString (kd_container kd))] in
  let attrs := match ExecDetails (kd_event kd) with Some x => exec_attributes kd x attrs | None => attrs end in
  let attrs := if decide (PID (kd_event kd) = 0%Z) then attrs
               else attrs ++ [("process.pid", AInt (PID (kd_event kd)))] in
  go_bind (go_deref (ExecDetails (kd_event kd))) (fun x =>
  Done (if decide (ContainerProcessID x = 0%Z) then attrs
        else attrs ++ [("process.vpid", AInt (ContainerProcessID x))])).

Definition instrumentationContainerConfig (c : Cluster) (kd : K8sProcessDetails) (pw : PodWorkload)
    : error + (ContainerAgentConfig * string) :=
  match GetIC c (pw_namespace pw) (CalculateWorkloadRuntimeObjectName (pw_name pw) (pw_kind pw)) with
  | inl err => inl err
  | inr ic =>
      match first_match (fun x => bool_decide (cac_name x = kd_container kd)) (spec_containers (ic_spec ic)) with
      | Some x => inr (x, spec_service_name (ic_spec ic))
      | None => inl (ENew ("no container config found for container " +:+ kd_container kd))
      end
  end.

Definition no_settings : Settings := mkSettings "" [] None false false.

(** [Settings]: the zero value with an error, which the manager logs. *)
Definition k8s_Settings (c : Cluster) (kd : K8sProcessDetails) (pw : PodWorkload) : go Settings :=
  match instrumentationContainerConfig c kd pw with
  | inl _ => Done no_settings
  | inr (containerConfig, serviceName) =>
      let name := if decide (serviceName = "") then pw_name pw else serviceName in
      go_bind (getResourceAttributes kd pw) (fun attrs => Done (mkSettings name attrs (Some containerConfig) false false))
  end.

(** The interfaces of the manager, implemented for pods.  The manager asks
    for settings after the groups, so the workload is there; every details
    come from an event with execution details. *)
#[local] Instance k8s_externals : Externals := {|
  Resolve := k8s_Resolve;
  Distribution := k8s_Distribution;
  pd_ConfigGroup := k8s_ConfigGroup;
  pd_ProcessGroup := k8s_ProcessGroup;
  GetSettings l kd _ :=
    match kd_pw kd with
    | Some pw => match k8s_Settings (cluster l) kd pw with Done s => s | _ => no_settings end
    | None => no_settings
    end;
  CreateInstrumentation := factory;
  Load := load;
  ApplyConfig := apply
|}.

(** *** The laws *)

(** The first verdict on some details is also the last. *)
Lemma verdict_stays l c b :
  honest l -> c ∈ l -> forall a, verdict a c = Some b -> langVerified l a = Some b.
Proof.
  intros Hh Hin a. revert Hh Hin. unfold langVerified. induction l as [|c' l IH]; intros Hh Hin Hv; [by apply not_elem_of_nil in Hin|].
  simpl. destruct Hh as [Ht Hh]. apply elem_of_cons in Hin as [->|Hin]; [by rewrite Hv|].
  specialize (IH Hh Hin Hv). destruct (verdict a c') as [b'|] eqn:Hv'; [|done]. simpl.
  destruct c' as [|kd r| | | | | | | | | |]; try done. simpl in Hv'. case_decide as Ha; [|done].
  simpl in Ht. unfold k8s_Distribution, langVerified in Ht.
  destruct (kd_distro kd) as [d|]; [|done]. injection Hv' as <-. rewrite Ha, IH in Ht. subst r. by destruct b.
Qed.

Lemma k8s_laws :
  (forall l g n pid s i, honest l -> factory l g n pid s = inr i -> i ∉ created l) -> ExternalsLaws.
Proof.
  intros Hf. split; [exact Hf| |].
  - intros l kd r _. simpl. unfold k8s_Distribution. destruct (kd_distro kd); [|done].
    destruct (langVerified l (kd_address kd)) as [[]|]; [intros [= <-]; by eexists|done|].
    repeat case_match; try done; intros [= <-]; by eexists.
  - intros l kd d Hh Hin. simpl.
    assert (Hd : kd_distro kd = Some d).
    { revert Hh Hin. induction l as [|c l IH]; intros Hh Hin; [by apply not_elem_of_nil in Hin|].
      destruct Hh as [Ht Hh]. apply elem_of_cons in Hin as [<-|Hin]; [|by apply IH]. simpl in Ht.
      unfold k8s_Distribution in Ht. destruct (kd_distro kd); [|done].
      destruct (langVerified l (kd_address kd)) as [[]|]; repeat case_match; congruence. }
    unfold k8s_Distribution. rewrite Hd.
    rewrite (verdict_stays l (CDistribution kd (Some d, None)) true Hh Hin (kd_address kd)); [done|].
    simpl. by rewrite decide_True, Hd.
Qed.
End Processes.

(** ** The attributes that the webhook writes *)

(** A string without blanks at its ends. *)
Definition trimmed (s : string) : Prop := drop_space s = s ∧ drop_space (str_rev s) = str_rev s.

Lemma str_rev_app_spec s acc : str_rev_app s acc = str_rev s +:+ acc.
Proof.
  unfold str_rev. revert acc. induction s as [|c s IH]; intros acc; simpl; [done|].
  rewrite IH, (IH (String c "")). by rewrite str_app_assoc.
Qed.
Lemma str_rev_cons c s : str_rev (String c s) = str_rev s +:+ String c "".
Proof. unfold str_rev. simpl. by rewrite str_rev_app_spec. Qed.
Lemma str_rev_concat a b : str_rev (a +:+ b) = str_rev b +:+ str_rev a.
Proof.
  induction a as [|c a IH]; [by rewrite str_app_nil_r|].
  by rewrite str_app_cons, !str_rev_cons, IH, str_app_assoc.
Qed.
Lemma str_rev_involutive s : str_rev (str_rev s) = s.
Proof. induction s as [|c s IH]; [done|]. rewrite str_rev_cons, str_rev_concat, IH. done. Qed.

Lemma trimmed_trim s : trimmed s -> trim_space s = s.
Proof. intros [Hl Hr]. unfold trim_space. by rewrite Hl, Hr, str_rev_involutive. Qed.

Lemma drop_space_app a b : a <> "" -> drop_space a = a -> drop_space (a +:+ b) = a +:+ b.
Proof.
  destruct a as [|c a]; [done|]. intros _. simpl. case_decide; [|done]. intros E. exfalso.
  assert (Hlen : forall s, String.length (drop_space s) <= String.length s).
  { induction s as [|d s IH]; simpl; [done|]. case_decide; simpl; lia. }
  specialize (Hlen a). rewrite E in Hlen. simpl in Hlen. lia.
Qed.

Lemma str_rev_nonempty s : s <> "" -> str_rev s <> "".
Proof. intros Hs E. apply Hs. by rewrite <- (str_rev_involutive s), E. Qed.

Lemma trimmed_app a m b : trimmed a -> trimmed b -> a <> "" -> b <> "" -> trimmed (a +:+ m +:+ b).
Proof.
  intros [La _] [_ Rb] Ha Hb. split.
  - by apply drop_space_app.
  - rewrite !str_rev_concat, str_app_assoc. apply drop_space_app; [by apply str_rev_nonempty|done].
Qed.

(** *** Names *)

Fixpoint all_bytes (p : ascii -> bool) (s : string) : bool :=
  match s with EmptyString => true | String c s => p c && all_bytes p s end.

Lemma all_bytes_app p a b : all_bytes p (a +:+ b) = all_bytes p a && all_bytes p b.
Proof. induction a as [|c a IH]; [done|]. rewrite str_app_cons. simpl. by rewrite IH, andb_assoc. Qed.
Lemma all_bytes_rev p s : all_bytes p (str_rev s) = all_bytes p s.
Proof. induction s as [|c s IH]; [done|]. rewrite str_rev_cons, all_bytes_app, IH. simpl. by rewrite andb_true_r, andb_comm. Qed.
Lemma all_bytes_has p c s : all_bytes p s = true -> p c = false -> has_byte c s = false.
Proof.
  intros Hs Hc. induction s as [|d s IH]; [done|]. simpl in *. apply andb_true_iff in Hs as [Hd Hs].
  rewrite IH by done. case_bool_decide; [congruence|done].
Qed.

(** What Kubernetes admits in the names of objects and containers, and in
    UIDs: lower-case letters, digits, dashes and dots. *)
Definition name_byte (c : ascii) : bool :=
  let n := nat_of_ascii c in
  bool_decide (97 <= n <= 122) || bool_decide (48 <= n <= 57) || bool_decide (c = "-"%char) || bool_decide (c = "."%char).
Definition k8s_name (s : string) : Prop := s <> "" ∧ all_bytes name_byte s = true.

(** A text without white space, commas, equals signs and dollars. *)
Definition text_byte (c : ascii) : bool :=
  negb (bool_decide (c ∈ [" "; "009"; "010"; "011"; "012"; "013"; ","; "="; "$"]%char)).
Lemma name_text s : all_bytes name_byte s = true -> all_bytes text_byte s = true.
Proof.
  assert (Hc : forall c, name_byte c = true -> text_byte c = true) by (intros [[] [] [] [] [] [] [] []]; by vm_compute).
  induction s as [|c s IH]; [done|]. simpl. rewrite !andb_true_iff. naive_solver.
Qed.
Lemma drop_space_text s : all_bytes text_byte s = true -> drop_space s = s.
Proof.
  destruct s as [|c s]; [done|]. simpl. intros [Hc _]%andb_true_iff. rewrite decide_False; [done|].
  unfold text_byte in Hc. apply negb_true_iff, bool_decide_eq_false in Hc. rewrite !elem_of_cons, elem_of_nil in *. tauto.
Qed.
Lemma text_trimmed s : all_bytes text_byte s = true -> trimmed s.
Proof. intros Hs. split; apply drop_space_text; [done|by rewrite all_bytes_rev]. Qed.

(** An attribute that survives the text form: its key may be empty. *)
Record writable (a : string * string) : Prop := {
  writable_key : all_bytes text_byte a.1 = true;
  writable_value : a.2 <> "" ∧ all_bytes text_byte a.2 = true
}.

Definition pair_text (a : string * string) : string := a.1 +:+ "=" +:+ a.2.
Lemma parse_writable a : writable a ->
  exists err, parse_pair (pair_text a) = Some (if decide (a.1 = "") then inl err else inr a).
Proof.
  intros [Hk [Hv Tv]]. assert (Ek : has_byte "="%char a.1 = false) by (by eapply all_bytes_has).
  assert (Tp : trim_space (pair_text a) = pair_text a).
  { apply trimmed_trim. unfold pair_text. split.
    - destruct (decide (a.1 = "")) as [->|Hn]; [done|]. apply drop_space_app; [done|by apply drop_space_text].
    - rewrite !str_rev_concat, str_app_assoc. apply drop_space_app; [by apply str_rev_nonempty|].
      apply drop_space_text. by rewrite all_bytes_rev. }
  unfold parse_pair. rewrite Tp, decide_False by (unfold pair_text; by destruct a.1).
  unfold pair_text at 1. change (a.1 +:+ "=" +:+ a.2) with (a.1 +:+ String "="%char a.2). rewrite split2_app by done.
  rewrite !trimmed_trim by by apply text_trimmed. rewrite (bool_decide_eq_false_2 (a.2 = "")) by done. rewrite orb_false_r.
  eexists. case_decide as Hn; [by rewrite bool_decide_eq_true_2|]. rewrite bool_decide_eq_false_2 by done. by destruct a.
Qed.

(** Reading back what was written: the attributes whose key is not empty, and
    an error for each of the others. *)
Lemma parse_attributes ra : Forall writable ra ->
  let r := parseOtelResourceAttributes (getResourceAttributesEnvVarValue ra) in
  r.1 = (fun a => (a.1, AString a.2)) <$> filter (fun a => a.1 <> "") ra
  ∧ length r.2 = length (filter (fun a => a.1 = "") ra).
Proof.
  intros Hra. cbv zeta. unfold parseOtelResourceAttributes, getResourceAttributesEnvVarValue.
  destruct ra as [|a0 ra0] eqn:Era; [done|]. rewrite <-Era in *. assert (Hne : ra <> []) by (by subst). clear Era.
  change ((fun a : string * string => a.1 +:+ "=" +:+ a.2) <$> ra) with (pair_text <$> ra).
  rewrite decide_False. 2:{ destruct ra as [|[k v] [|]]; [done|..]; simpl; unfold pair_text; simpl; by destruct k. }
  change (join "," (pair_text <$> ra)) with (join (String ","%char "") (pair_text <$> ra)). rewrite split_join.
  - clear Hne. induction Hra as [|a ra Ha _ IH]; [done|]. destruct (parse_writable a Ha) as [err E].
    rewrite fmap_cons. cbn [omap list_omap]. rewrite E, !filter_cons. cbn [fst snd] in IH |- *. destruct IH as [IH1 IH2].
    destruct (decide (a.1 = "")) as [Hk|Hk]; cbn [omap list_omap].
    + rewrite decide_False by (intros Hn; by apply Hn). split; [exact IH1|]. simpl. by f_equal.
    + rewrite decide_True by done. split; [|exact IH2]. rewrite fmap_cons, <-IH1. by destruct a.
  - by destruct ra.
  - intros x (a & -> & Ha)%list_elem_of_fmap. rewrite Forall_forall in Hra. destruct (Hra a Ha) as [Hk [_ Hv]].
    unfold pair_text. by rewrite !has_byte_app, (all_bytes_has text_byte _ a.1), (all_bytes_has text_byte _ a.2).
Qed.

(** *** From the webhook to the process *)

(** The environment of a process of the container: the kubelet gives it every
    variable that has a value and a name of its own, with references to other
    variables expanded. *)
Definition started (kubelet : string -> string) (c : Container) (env : gmap string string) : Prop :=
  forall v, v ∈ c_env c -> pe_value_from v = None -> (forall v', v' ∈ c_env c -> pe_name v' = pe_name v -> v' = v) ->
    env !! pe_name v = Some (kubelet (pe_value v)).
(** The kubelet replaces the reference to the pod's name. *)
Definition expands (kubelet : string -> string) (pod : string) : Prop :=
  forall s t, has_byte "$"%char s = false -> has_byte "$"%char t = false ->
    kubelet (s +:+ "$(ODIGOS_POD_NAME)" +:+ t) = s +:+ pod +:+ t.

(** What the webhook means to tell of the pod. *)
Definition told (pod : string) (pw : PodWorkload) (container : string) (owners : list OwnerReference) : list (string * string) :=
  ("k8s.pod.name", pod) :: drop 1 (PodEnv.getResourceAttributes pw container owners).

Definition names_valid (pod : string) (pw : PodWorkload) (container : string) (owners : list OwnerReference) : Prop :=
  k8s_name pod ∧ k8s_name (pw_name pw) ∧ k8s_name (pw_namespace pw) ∧ k8s_name container ∧ pw_kind pw ∈ all_kinds
  ∧ Forall (fun o => k8s_name (or_name o) ∧ k8s_name (or_uid o)) owners.

Lemma kind_texts kind : kind ∈ all_kinds ->
  all_bytes text_byte (getWorkloadKindAttributeKey kind) = true ∧ kind <> "" ∧ all_bytes text_byte kind = true.
Proof. revert kind. apply kind_cases. repeat constructor; by vm_compute. Qed.

Lemma name_writable k v : all_bytes text_byte k = true -> k8s_name v -> writable (k, v).
Proof. intros Hk [Hv Ht%name_text]. by split. Qed.
Lemma told_writable pod pw container owners : names_valid pod pw container owners -> Forall writable (told pod pw container owners).
Proof.
  intros (Hp & Hn & Hns & Hc & (Kk & Kn & Kt)%kind_texts & Ho).
  unfold told, PodEnv.getResourceAttributes. cbn [drop app]. rewrite !Forall_cons. split_and!; try by apply name_writable.
  - by split.
  - unfold getOwnerReferenceAttributes. apply Forall_bind. eapply Forall_impl; [exact Ho|]. intros o [Hname Huid].
    unfold compose, owner_attributes. cbn [switch].
    repeat case_decide; rewrite ?Forall_cons, Forall_nil; split_and?; by try apply name_writable.
Qed.

Lemma told_expanded kubelet pod pw container owners :
  expands kubelet pod -> names_valid pod pw container owners ->
  kubelet (getResourceAttributesEnvVarValue (PodEnv.getResourceAttributes pw container owners))
  = getResourceAttributesEnvVarValue (told pod pw container owners).
Proof.
  intros He Hv. apply told_writable in Hv. unfold told in *. apply Forall_cons in Hv as [_ Hw].
  assert (Hne : drop 1 (PodEnv.getResourceAttributes pw container owners) <> []) by done.
  revert Hw Hne. set (l := drop 1 (PodEnv.getResourceAttributes pw container owners)).
  change (PodEnv.getResourceAttributes pw container owners) with (("k8s.pod.name", "$(ODIGOS_POD_NAME)") :: l).
  generalize l. clear l. intros l Hw Hne.
  unfold getResourceAttributesEnvVarValue. rewrite !fmap_cons. change ((fun a : string * string => a.1 +:+ "=" +:+ a.2) <$> l) with (pair_text <$> l).
  destruct (pair_text <$> l) as [|x texts] eqn:El; [by apply fmap_nil_inv in El|].
  cbn [join fst snd]. set (rest := match texts with [] => x | _ => _ end).
  assert (Hr : has_byte "$"%char rest = false).
  { change rest with (join "," (x :: texts)). rewrite <-El. clear -Hw. induction Hw as [|a l [Hk [_ Hv]] _ IH]; [done|].
    assert (Ha : has_byte "$"%char (pair_text a) = false).
    { unfold pair_text. by rewrite !has_byte_app, (all_bytes_has text_byte _ a.1), (all_bytes_has text_byte _ a.2). }
    rewrite fmap_cons. destruct (pair_text <$> l) eqn:E; [done|]. cbn [join]. cbn [join] in IH. rewrite !has_byte_app, Ha. exact IH. }
  rewrite !str_app_assoc. by apply (He "k8s.pod.name=" ("," +:+ rest)).
Qed.

(** The variable that the webhook adds for the attributes. *)
Lemma webhook_variable pw svc owners st :
  tracked st ->
  let c' := (InjectOtelResourceAndServiceNameEnvVars pw svc owners st).2 in
  let value := getResourceAttributesEnvVarValue (PodEnv.getResourceAttributes pw (c_name st.2) owners) in
  if decide (otelResourceAttributesEnvVarName ∈ pe_name <$> c_env st.2)
  then filter (fun v => pe_name v = otelResourceAttributesEnvVarName) (c_env c')
       = filter (fun v => pe_name v = otelResourceAttributesEnvVarName) (c_env st.2)
  else exists before, c_env c' = before ++ [mkPodEnv otelResourceAttributesEnvVarName value None]
       ∧ otelResourceAttributesEnvVarName ∉ pe_name <$> before.
Proof.
  intros Ht. cbv zeta. unfold InjectOtelResourceAndServiceNameEnvVars.
  set (st1 := InjectConstEnvVarToPodContainer otelServiceNameEnvVarName svc st).
  assert (Hin : otelResourceAttributesEnvVarName ∈ st1.1 <-> otelResourceAttributesEnvVarName ∈ pe_name <$> c_env st.2).
  { unfold tracked, GetEnvVarNamesSet in Ht. rewrite <-(elem_of_list_to_set (C := gset string)), <-Ht. unfold st1, InjectConstEnvVarToPodContainer, inject_env.
    case_decide; [done|]. cbn. rewrite elem_of_union, elem_of_singleton. split; [by intros [?|?]|by right]. }
  assert (Hname : c_name st1.2 = c_name st.2) by (unfold st1, InjectConstEnvVarToPodContainer, inject_env; by case_decide).
  assert (Henv : exists added, c_env st1.2 = c_env st.2 ++ added ∧ Forall (fun v => pe_name v = otelServiceNameEnvVarName) added).
  { unfold st1, InjectConstEnvVarToPodContainer, inject_env. case_decide; [exists []; by rewrite app_nil_r|].
    eexists. split; [done|]. by repeat constructor. }
  destruct Henv as (added & Ea & Hadded). rewrite Hname. clearbody st1.
  assert (Hfree : filter (fun v => pe_name v = otelResourceAttributesEnvVarName) added = []).
  { clear -Hadded. induction Hadded as [|v l Hv _ IH]; [done|]. rewrite filter_cons, decide_False; [done|]. by rewrite Hv. }
  destruct (decide (otelResourceAttributesEnvVarName ∈ pe_name <$> c_env st.2)) as [Hu|Hu].
  - rewrite decide_True by by apply Hin. unfold InjectConstEnvVarToPodContainer at 1, inject_env. case_decide; cbn [snd c_env with_env pe_name].
    + by rewrite Ea, filter_app, Hfree, app_nil_r.
    + by rewrite !filter_app, Ea, filter_app, Hfree, !app_nil_r.
  - rewrite decide_False by (by rewrite Hin). unfold InjectConstEnvVarToPodContainer at 1, inject_env. cbn [pe_name].
    rewrite decide_False by (by rewrite Hin). cbn [snd c_env with_env]. exists (c_env st1.2). split; [done|].
    rewrite Ea, fmap_app, elem_of_app. intros [?|(v & E & Hv)%list_elem_of_fmap]; [done|].
    rewrite Forall_forall in Hadded. rewrite (Hadded v Hv) in E. done.
Qed.
(** What odiglet knows of a process without its environment. *)
Definition own_attributes (pod container : string) (pw : PodWorkload) : list (string * K8sAttr) :=
  ([("k8s.namespace.name", AString (pw_namespace pw)); ("k8s.pod.name", AString pod);
    ("odigos.workload.kind", AString (pw_kind pw)); ("odigos.workload.name", AString (pw_name pw))]
   ++ kind_attribute (pw_kind pw) (pw_name pw)) ++ [("k8s.container.name", AString container)].

(** An attribute that the webhook tells is known as such, or not known, the
    name of a job apart, which odiglet has by itself. *)
Lemma told_known pod pw container owners k v :
  pw_kind pw ∈ all_kinds -> (k, v) ∈ told pod pw container owners -> k <> "" ->
  (k, AString v) ∈ own_attributes pod container pw ∨ k ∉ (fst <$> own_attributes pod container pw)
  ∨ k = "k8s.job.name" ∧ pw_kind pw = WorkloadKindJob.
Proof.
  destruct pw as [name ns kind]. unfold told, PodEnv.getResourceAttributes, own_attributes. cbn [drop app pw_kind pw_name pw_namespace].
  intros Hk Hin Hne. rewrite !elem_of_cons in Hin. destruct Hin as [E|[E|[E|[E|[E|[E|Hin]]]]]]; try (injection E as -> ->).
  - left. right. by left.
  - left. rewrite !app_comm_cons, elem_of_app. right. by left.
  - left. by left.
  - revert Hk Hne. revert kind. apply (kind_cases (fun kind => getWorkloadKindAttributeKey kind <> "" ->
      (getWorkloadKindAttributeKey kind, AString name) ∈ _ ∨ getWorkloadKindAttributeKey kind ∉ _ ∨ _)).
    unfold all_kinds. rewrite !Forall_cons, Forall_nil. split_and!; try done; intros _;
      first [by right; left; apply (bool_decide_unpack _); vm_compute|left; repeat (first [by left|right])].
  - left. do 2 right. by left.
  - left. do 3 right. by left.
  - right. destruct (decide (k = "k8s.job.name" ∧ kind = WorkloadKindJob)) as [?|Hj]; [by right|left].
    assert (Ho : k ∈ ["k8s.job.name"; "k8s.job.uid"; "k8s.replicaset.name"; "k8s.replicaset.uid"]).
    { unfold getOwnerReferenceAttributes in Hin. apply list_elem_of_bind in Hin as (o & Hin & _). unfold owner_attributes in Hin. cbn [switch] in Hin.
      repeat case_decide; rewrite ?elem_of_cons, ?elem_of_nil in Hin; rewrite !elem_of_cons, elem_of_nil; naive_solver. }
    revert Hj. revert Ho. clear -Hk. intros Ho. revert kind Hk. apply (kind_cases (fun kind => ~ (_ ∧ kind = _) -> k ∉ _)).
    unfold all_kinds. rewrite !Forall_cons, Forall_nil. rewrite !elem_of_cons, elem_of_nil in Ho.
    destruct Ho as [->|[->|[->|[->|[]]]]]; split_and!; try done; intros Hj;
      first [by destruct Hj|by apply (bool_decide_unpack _); vm_compute].
Qed.

Lemma told_keyless pod pw container owners :
  length (filter (fun a => a.1 = "") (told pod pw container owners))
  = if decide (getWorkloadKindAttributeKey (pw_kind pw) = "") then 1 else 0.
Proof.
  unfold told, PodEnv.getResourceAttributes. cbn [drop app].
  assert (Ho : filter (fun a : string * string => a.1 = "") (getOwnerReferenceAttributes owners) = []).
  { unfold getOwnerReferenceAttributes. induction owners as [|o owners IH]; [done|]. cbn [mbind list_bind]. rewrite filter_app, IH, app_nil_r.
    unfold owner_attributes. cbn [switch]. by repeat case_decide. }
  do 3 (rewrite filter_cons_False by done). rewrite filter_cons. cbn [fst].
  case_decide; do 2 (rewrite filter_cons_False by done); by rewrite Ho.
Qed.

(** The attributes of a process, when its container is known. *)
Lemma attributes_of_process kd pw x :
  ExecDetails (kd_event kd) = Some x -> kd_container kd <> "" ->
  exists attrs, getResourceAttributes kd pw = Done attrs
  ∧ forall a, (a ∈ own_attributes (om_name (pod_meta (kd_pod kd))) (kd_container kd) pw
     ∨ (a.1 ∉ (fst <$> own_attributes (om_name (pod_meta (kd_pod kd))) (kd_container kd) pw)
        ∧ exists value, Environments x !! otelResourceAttributesEnvVarName = Some value ∧ a ∈ (parseOtelResourceAttributes value).1)) ->
     a ∈ attrs.
Proof.
  intros Hx Hc. unfold getResourceAttributes. rewrite Hx. cbn [go_deref go_bind]. eexists. split; [done|]. intros a Ha.
  rewrite (decide_False (P := kd_container kd = "")) by done.
  change (([("k8s.namespace.name", AString (pw_namespace pw)); ("k8s.pod.name", AString (om_name (pod_meta (kd_pod kd))));
    ("odigos.workload.kind", AString (pw_kind pw)); ("odigos.workload.name", AString (pw_name pw))]
   ++ kind_attribute (pw_kind pw) (pw_name pw)) ++ [("k8s.container.name", AString (kd_container kd))])
    with (own_attributes (om_name (pod_meta (kd_pod kd))) (kd_container kd) pw).
  revert Ha. generalize (own_attributes (om_name (pod_meta (kd_pod kd))) (kd_container kd) pw). intros own Ha.
  assert (Hin : a ∈ exec_attributes kd x own).
  { unfold exec_attributes. rewrite (bool_decide_eq_false_2 (kd_container kd = "")) by done.
    assert (Ho : (match Environments x !! OdigosEnvVarContainerName with
                  | Some n => if negb (bool_decide (n = "")) && false then own ++ [("k8s.container.name", AString n)] else own
                  | None => own end) = own) by (destruct (Environments x !! OdigosEnvVarContainerName); [by rewrite andb_false_r|done]).
    rewrite Ho. assert (Hu : a ∈ match Environments x !! otelResourceAttributesEnvVarName with
                  | Some v => appendUniqueAttributes own (parseOtelResourceAttributes v).1 | None => own end).
    { destruct Ha as [Ha|(Hn & value & -> & Ha)].
      - destruct (Environments x !! otelResourceAttributesEnvVarName); [|done]. unfold appendUniqueAttributes. apply elem_of_app. by left.
      - unfold appendUniqueAttributes. apply elem_of_app. right. by apply list_elem_of_filter. }
    repeat case_decide; rewrite ?elem_of_app; tauto. }
  repeat case_decide; rewrite ?elem_of_app; tauto.
Qed.

(** The process, with another value of a variable. *)
Definition with_variable (name value : string) (kd : K8sProcessDetails) : K8sProcessDetails :=
  let e := kd_event kd in
  mkK8sDetails (kd_address kd) (kd_pod kd) (kd_container kd) (kd_distro kd) (kd_pw kd)
    (mkProcessEvent (EventKind e) (PID e)
       ((fun x => mkExecDetails (CmdLine x) (ExePath x) (<[name := value]> (Environments x)) (ContainerProcessID x)) <$> ExecDetails e)).
Lemma odigos_variable_unread kd pw value :
  getResourceAttributes (with_variable odigosResourceAttributesEnvVarName value kd) pw = getResourceAttributes kd pw.
Proof.
  unfold getResourceAttributes, with_variable. cbn [kd_event ExecDetails kd_pod kd_container PID].
  destruct (ExecDetails (kd_event kd)) as [x|]; [|done]. cbn [fmap option_fmap option_map go_deref go_bind ContainerProcessID].
  unfold exec_attributes. cbn [Environments ExePath CmdLine kd_container]. by rewrite !lookup_insert_ne.
Qed.

(** C39: The attributes that the webhook writes into the environment of a
    container reach the instrumentation of its processes: unless the container
    sets OTEL_RESOURCE_ATTRIBUTES itself, every attribute with a key, with the
    reference to the pod's name expanded, is among the resource attributes
    that odiglet reads back (of a job, its name is odiglet's own); a workload
    kind without a key of its own - a static pod - costs one parse error and
    nothing else.  When the container does set the variable, the user's value
    stays, and what the webhook writes instead, ODIGOS_RESOURCE_ATTRIBUTES,
    changes nothing of what odiglet reads.  Names, namespaces and UIDs are as
    Kubernetes admits them. *)
Theorem webhook_attributes_roundtrip kubelet pod pw svc owners st kd x :
  expands kubelet pod -> names_valid pod pw (c_name st.2) owners -> tracked st ->
  let c' := (InjectOtelResourceAndServiceNameEnvVars pw svc owners st).2 in
  ExecDetails (kd_event kd) = Some x -> started kubelet c' (Environments x) ->
  om_name (pod_meta (kd_pod kd)) = pod -> kd_container kd = c_name st.2 ->
  exists attrs, getResourceAttributes kd pw = Done attrs ∧
  if decide (otelResourceAttributesEnvVarName ∈ pe_name <$> c_env st.2)
  then filter (fun v => pe_name v = otelResourceAttributesEnvVarName) (c_env c')
       = filter (fun v => pe_name v = otelResourceAttributesEnvVarName) (c_env st.2)
       ∧ forall v, getResourceAttributes (with_variable odigosResourceAttributesEnvVarName v kd) pw = Done attrs
  else (forall k v, (k, v) ∈ told pod pw (c_name st.2) owners -> k <> "" ->
          (k, AString v) ∈ attrs ∨ k = "k8s.job.name" ∧ pw_kind pw = WorkloadKindJob)
       ∧ exists value, Environments x !! otelResourceAttributesEnvVarName = Some value
         ∧ length (parseOtelResourceAttributes value).2 = if decide (getWorkloadKindAttributeKey (pw_kind pw) = "") then 1 else 0.
Proof.
  intros He Hv Ht c' Hx Hs Hpod Hc. pose proof Hv as (_ & _ & _ & [Hcn _] & Hk & _).
  destruct (attributes_of_process kd pw x Hx) as (attrs & E & Hin); [by rewrite Hc|]. exists attrs. split; [exact E|].
  pose proof (webhook_variable pw svc owners st Ht) as Hw. fold c' in Hw. cbv zeta in Hw.
  destruct (decide (otelResourceAttributesEnvVarName ∈ pe_name <$> c_env st.2)).
  { split; [exact Hw|]. intros v. by rewrite odigos_variable_unread. }
  destruct Hw as (before & Ec & Hbefore). set (v := mkPodEnv _ _ None) in Ec.
  assert (Hval : Environments x !! otelResourceAttributesEnvVarName = Some (getResourceAttributesEnvVarValue (told pod pw (c_name st.2) owners))).
  { rewrite <-(told_expanded kubelet) by done. apply (Hs v); [rewrite Ec; apply elem_of_app; right; by left|done|].
    rewrite Ec. intros v' [Hv'| ->%list_elem_of_singleton]%elem_of_app En; [|done]. contradict Hbefore.
    apply list_elem_of_fmap. by exists v'. }
  destruct (parse_attributes _ (told_writable _ _ _ _ Hv)) as [Hp Hl]. split.
  - intros k w Hkw Hne. rewrite Hpod, Hc in Hin. destruct (told_known _ _ _ _ _ _ Hk Hkw Hne) as [Ho|[Ho|Ho]]; [left|left|by right].
    + apply Hin. by left.
    + apply Hin. right. split; [done|]. eexists. split; [exact Hval|]. rewrite Hp. apply list_elem_of_fmap. exists (k, w).
      split; [done|]. by apply list_elem_of_filter.
  - eexists. split; [exact Hval|]. rewrite Hl. apply told_keyless.
Qed.

(** ** Witnesses: a process of a pod, from its start to the shutdown *)

(** A kubelet that only knows the pod's name. *)
Definition sample_kubelet (pod : string) : string -> string := replace_all "$(ODIGOS_POD_NAME)" pod.
Lemma replace_none pod t : has_byte "$"%char t = false -> sample_kubelet pod t = t.
Proof.
  unfold sample_kubelet, replace_all. induction t as [|d t IH]; [done|]. simpl. intros [Hd Ht]%orb_false_iff.
  apply bool_decide_eq_false in Hd. rewrite bool_decide_eq_false_2 by (by intros <-). simpl. by rewrite IH.
Qed.
Lemma sample_kubelet_expands pod : expands (sample_kubelet pod) pod.
Proof.
  intros s t Hs Ht. induction s as [|c s IH].
  - assert (E : sample_kubelet pod ("$(ODIGOS_POD_NAME)" +:+ t) = pod +:+ sample_kubelet pod t) by done.
    change ("" +:+ "$(ODIGOS_POD_NAME)" +:+ t) with ("$(ODIGOS_POD_NAME)" +:+ t). by rewrite E, replace_none.
  - simpl in Hs. apply orb_false_iff in Hs as [Hc Hs]. apply bool_decide_eq_false in Hc. rewrite !str_app_cons.
    unfold sample_kubelet, replace_all in *. simpl. rewrite bool_decide_eq_false_2 by (by intros <-). simpl. f_equal. by apply IH.
Qed.

(** The environment of a process of a container whose variables have names of
    their own. *)
Definition process_env (kubelet : string -> string) (c : Container) : gmap string string :=
  list_to_map ((fun v => (pe_name v, kubelet (pe_value v))) <$> c_env c).
Lemma process_env_started kubelet c : NoDup (pe_name <$> c_env c) -> started kubelet c (process_env kubelet c).
Proof.
  intros Hn v Hv _ _. unfold process_env. apply elem_of_list_to_map.
  - rewrite <-list_fmap_compose. exact Hn.
  - apply list_elem_of_fmap. by exists v.
Qed.

Section ManagerWitnesses.
#[local] Existing Instances order_forward order_forward_laws.

Definition handle_factory (l : Log) (_ : bool) (_ : string) (_ : Z) (_ : Settings) : error + nat := inr (length l).

Lemma handle_factory_fresh (ext : Externals) l g n pid s i :
  (forall l g n pid s, CreateInstrumentation l g n pid s = handle_factory l g n pid s) ->
  honest l -> handle_factory l g n pid s = inr i -> i ∉ created l.
Proof.
  intros He Hh [= <-]. enough (Hlt : forall j, j ∈ created l -> j < length l) by (intros Hin%Hlt; lia).
  intros j. induction l as [|c l IH]; simpl; [by intros ?%not_elem_of_nil|]. destruct Hh as [Ht Hh].
  assert (Hl : j ∈ created l -> j < S (length l)) by (intros Hin; specialize (IH Hh Hin); lia).
  destruct c as [| | |g' n' pid' s' [e|i]| | | | | | | |]; try exact Hl.
  simpl in Ht. rewrite He in Ht. injection Ht as ->. intros [->|Hin]%elem_of_cons; [lia|by apply Hl].
Qed.

Definition cart_process_pod : Pod :=
  mkPod (mkObjectMeta "" "cart-5d9f-x" "shop" {[ "app" := "cart" ]} ∅
           [mkOwnerReference "ReplicaSet" "cart-5d9f" "" (Some true)] 1 None)
    "uid" "node" (mkPodSpec [bare_container "cart"] [] [] [] None) true "Running" None [] [].

(** A process of the pod, in the container that the webhook prepared. *)
Definition cart_pw : PodWorkload := mkPodWorkload "cart" "shop" "Deployment".
Definition cart_owners : list OwnerReference := [mkOwnerReference "ReplicaSet" "cart-5d9f" "8c1f" (Some true)].
Definition cart_state (c : Container) : EnvState := (GetEnvVarNamesSet c, c).
Definition cart_container (c : Container) : Container :=
  (InjectOtelResourceAndServiceNameEnvVars cart_pw "cart" cart_owners (cart_state c)).2.
Definition cart_exec (c : Container) : ProcessExecDetails :=
  mkExecDetails "java -jar cart.jar" "/usr/bin/java" (process_env (sample_kubelet "cart-5d9f-x") (cart_container c)) 1.
Definition cart_details (c : Container) : K8sProcessDetails :=
  mkK8sDetails 0 cart_process_pod "cart" None (Some cart_pw) (mkProcessEvent ProcessExecEvent 7 (Some (cart_exec c))).
(** The user sets the variable in this one. *)
Definition cart_with_attributes : Container := with_env (bare_container "cart") [mkPodEnv otelResourceAttributesEnvVarName "team=shop" None].

Lemma webhook_attributes_roundtrip_witness :
  (exists attrs, getResourceAttributes (cart_details (bare_container "cart")) cart_pw = Done attrs
   ∧ ("k8s.replicaset.uid", AString "8c1f") ∈ attrs ∧ ("k8s.pod.name", AString "cart-5d9f-x") ∈ attrs)
  ∧ exists attrs, getResourceAttributes (cart_details cart_with_attributes) cart_pw = Done attrs
    ∧ forall v, getResourceAttributes (with_variable odigosResourceAttributesEnvVarName v (cart_details cart_with_attributes)) cart_pw = Done attrs.
Proof.
  assert (Hnames : names_valid "cart-5d9f-x" cart_pw "cart" cart_owners).
  { repeat split; try done. - left. - by repeat constructor. }
  split.
  - destruct (webhook_attributes_roundtrip (sample_kubelet "cart-5d9f-x") "cart-5d9f-x" cart_pw "cart" cart_owners
      (cart_state (bare_container "cart")) (cart_details (bare_container "cart")) (cart_exec (bare_container "cart")))
      as (attrs & E & Hin & _); try done.
    + apply sample_kubelet_expands.
    + apply process_env_started. apply (bool_decide_unpack _). by vm_compute.
    + exists attrs. split; [exact E|]. split.
      * destruct (Hin "k8s.replicaset.uid" "8c1f") as [?|[[=] _]]; [|done|done]. apply (bool_decide_unpack _). by vm_compute.
      * destruct (Hin "k8s.pod.name" "cart-5d9f-x") as [?|[[=] _]]; [|done|done]. by left.
  - destruct (webhook_attributes_roundtrip (sample_kubelet "cart-5d9f-x") "cart-5d9f-x" cart_pw "cart" cart_owners
      (cart_state cart_with_attributes) (cart_details cart_with_attributes) (cart_exec cart_with_attributes))
      as (attrs & E & _ & Hv); try done.
    + apply sample_kubelet_expands.
    + apply process_env_started. apply (bool_decide_unpack _). by vm_compute.
    + exists attrs. split; [exact E|exact Hv].
Defined.

Definition process_store : Store :=
  mkStore [(TPod, OPod cart_process_pod)] [] [] ∅ ([], mkHeap ∅ ∅) ∅ sample_conf [].

#[local] Instance pod_externals : Externals :=
  @k8s_externals store_client (fun _ _ => true) handle_factory (fun _ _ => None) (fun _ _ _ => None)
    (fun _ => process_store) {[ "java-community" := sample_distro ]}.

#[local] Instance pod_laws : ExternalsLaws.
Proof.
  apply (@k8s_laws store_client). intros l g n pid s i. by apply (handle_factory_fresh pod_externals).
Qed.

Definition java_options : Options := mkOptions {[ "java-community" ]} {[ "network" ]} true false.

Definition java_started : Input :=
  ProcessInput (mkProcessEvent ProcessExecEvent 7 (Some (mkExecDetails "java -jar cart.jar" "/usr/bin/java"
    {[ "ODIGOS_POD_NAME" := "cart-5d9f-x"; "ODIGOS_WORKLOAD_NAMESPACE" := "shop";
       "ODIGOS_CONTAINER_NAME" := "cart"; "ODIGOS_DISTRO_NAME" := "java-community" ]} 1))).

(** The manager once the process is instrumented. *)
Definition instrumented_manager : manager :=
  match handle_input java_options java_started NewManager with Done (_, m) => m | _ => NewManager end.

Lemma java_started_respected : respects NewManager java_started.
Proof. split; [by eexists|]. intros pd _ d cg pg Hd. simpl in Hd. by rewrite lookup_empty in Hd. Qed.

Lemma instrumented_run : handle_input java_options java_started NewManager = Done (tt, instrumented_manager).
Proof.
  assert (Hdone : match handle_input java_options java_started NewManager with Done _ => true | _ => false end = true)
    by (vm_compute; reflexivity).
  unfold instrumented_manager. by destruct (handle_input _ _ _) as [[[] m]| |].
Qed.

Lemma instrumented_reachable : reachable java_options instrumented_manager.
Proof. exact (reachable_step _ _ _ _ (reachable_start _) java_started_respected instrumented_run). Qed.

Definition cart_workload : @ProcessGroup k8s_types := mkPodWorkload "cart" "shop" "Deployment".
Definition cart_configs : @ConfigGroup k8s_types := mkK8sConfigGroup (mkPodWorkload "cart" "shop" "Deployment") "cart".
Definition no_agent : @Config k8s_types := disabled_container "cart" (mkDisabled "" "").

(** The process is tracked, with a generic instrumentation and its own. *)
Lemma tracking_consistent_witness :
  loaded (calls instrumented_manager) ≡ₚ owned (detailsByPid instrumented_manager) ++ closed (calls instrumented_manager)
  ∧ length (owned (detailsByPid instrumented_manager)) = 2.
Proof.
  destruct (tracking_consistent java_options instrumented_manager instrumented_reachable) as (_ & _ & Hp & _).
  split; [exact Hp|]. by vm_compute.
Defined.

Lemma uninstrument_exact_witness : exists m',
  handle_request java_options (mkRequest false ∅ cart_workload None) instrumented_manager = Done (tt, m')
  ∧ detailsByPid m' = filter (fun kv => details_pg kv.2 <> cart_workload) (detailsByPid instrumented_manager).
Proof.
  destruct (uninstrument_exact java_options instrumented_manager cart_workload (mkRequest false ∅ cart_workload None)
              instrumented_reachable eq_refl eq_refl eq_refl) as (m' & E & Ef & _).
  exists m'. exact (conj E Ef).
Defined.

Lemma config_update_exact_witness : exists err m' targets,
  applyInstrumentationConfigurationForSDK cart_configs no_agent instrumented_manager = Done (err, m') ∧ NoDup (targets : list nat) ∧ detailsByPid m' = detailsByPid instrumented_manager.
Proof.
  destruct (config_update_exact java_options instrumented_manager cart_configs no_agent instrumented_reachable)
    as (err & m' & targets & E & _ & _ & Hn & Hd).
  exists err, m', targets. exact (conj E (conj Hn Hd)).
Defined.

Lemma event_loop_shuts_down_witness : exists m m',
  runEventLoop java_options (fun _ => false) [java_started; Canceled] NewManager = Done (tt, m') ∧ closed_down (fun _ => false) m m'.
Proof.
  destruct (event_loop_shuts_down java_options (fun _ => false) [java_started; Canceled]) as (m & m' & E & _ & Hc).
  - right. split; [exact java_started_respected|]. intros m' _. by left.
  - reflexivity.
  - exists m, m'. exact (conj E Hc).
Defined.
End ManagerWitnesses.
