(* ===== verification/ProfileCache.v ===== *)
(** * The profile cache (src/common/profilecache)

    A store keeps one byte-budgeted buffer per source (buffer.go, store.go).
    Slots point to their buffers, and a chunk is added in two critical
    sections, so the buffers are a heap: an append may come after the slot was
    removed or the limits were changed by another goroutine. *)


From Stdlib Require Import Strings.Byte.
From S2P Require Import Prelude.
From S2P Require Import GoLib.

(** ** Machine integers *)

Definition int64_wrap (n : Z) : Z := ((n + 2 ^ 63) mod 2 ^ 64 - 2 ^ 63)%Z.
Definition uint64_wrap (n : Z) : Z := (n mod 2 ^ 64)%Z.

Lemma int64_wrap_id n : (- 2 ^ 63 <= n < 2 ^ 63)%Z -> int64_wrap n = n.
Proof. intros Hn. unfold int64_wrap. rewrite Z.mod_small by lia. lia. Qed.

(** ** A bounded buffer (buffer.go)

    The backing slice and its compaction are not visible from outside. *)

Record chunk := mkChunk { capturedAt : Z; bytes : list byte }.
Definition chunk_size (c : chunk) : Z := Z.of_nat (length (bytes c)).

Record BoundedBuffer := mkBuffer
  { chunks : list chunk;
    totalBytes : Z;
    maxBytes : Z;
    addedTotal : Z;
    evictedTotal : Z }.

Definition NewBoundedBuffer (maxBytes : Z) : BoundedBuffer := mkBuffer [] 0 maxBytes 0 0.

(** The chunks that stay, their size, and how many were dropped. *)
Fixpoint trim (maxBytes : Z) (l : list chunk) (total : Z) : list chunk * Z * Z :=
  match l with
  | [] => ([], total, 0%Z)
  | c :: rest =>
      if bool_decide (0 < maxBytes)%Z && bool_decide (maxBytes < total)%Z then
        let r := trim maxBytes rest (total - chunk_size c) in (r.1, (r.2 + 1)%Z)
      else (l, total, 0%Z)
  end.

Definition trimLocked (b : BoundedBuffer) : BoundedBuffer :=
  let r := trim (maxBytes b) (chunks b) (totalBytes b) in
  mkBuffer r.1.1 r.1.2 (maxBytes b) (addedTotal b) (uint64_wrap (evictedTotal b + r.2)).

Definition AddAt (t : Z) (data : list byte) (b : BoundedBuffer) : bool * BoundedBuffer :=
  match data with
  | [] => (true, b)
  | _ =>
      let c := mkChunk t data in
      if bool_decide (0 < maxBytes b)%Z && bool_decide (maxBytes b < chunk_size c)%Z then (false, b)
      else (true, trimLocked (mkBuffer (chunks b ++ [c]) (totalBytes b + chunk_size c) (maxBytes b)
                                (uint64_wrap (addedTotal b + 1)) (evictedTotal b)))
  end.

Definition Resize (maxBytes : Z) (b : BoundedBuffer) : BoundedBuffer :=
  trimLocked (mkBuffer (chunks b) (totalBytes b) maxBytes (addedTotal b) (evictedTotal b)).

Definition SnapshotSince (since : Z) (b : BoundedBuffer) : list (list byte) :=
  bytes <$> filter (fun c => bytes c <> [] ∧ (since <= capturedAt c)%Z) (chunks b).

Definition Clear (b : BoundedBuffer) : BoundedBuffer :=
  mkBuffer [] 0 (maxBytes b) (addedTotal b) (evictedTotal b).

(** *** What a buffer keeps *)

Definition size_of (l : list chunk) : Z := foldr (fun c n => chunk_size c + n)%Z 0%Z l.

Lemma size_of_app l l' : size_of (l ++ l') = (size_of l + size_of l')%Z.
Proof. induction l as [|c l IH]; simpl; [done|]. rewrite IH. lia. Qed.
Lemma chunk_size_nonneg c : (0 <= chunk_size c)%Z.
Proof. unfold chunk_size. lia. Qed.
Lemma size_of_nonneg l : (0 <= size_of l)%Z.
Proof. induction l as [|c l IH]; simpl; [done|]. pose proof (chunk_size_nonneg c). lia. Qed.

(** The size is right, and within the budget. *)
Record buffer_ok (b : BoundedBuffer) : Prop := {
  bo_total : totalBytes b = size_of (chunks b);
  bo_budget : (0 < maxBytes b)%Z -> (totalBytes b <= maxBytes b)%Z
}.

(** The chunks that stay are the longest part at the end that fits. *)
Definition longest_suffix (budget : Z) (l l' : list chunk) : Prop :=
  exists dropped, l = dropped ++ l' ∧ (size_of l' <= budget)%Z
  ∧ (forall c d', dropped = d' ++ [c] -> (budget < size_of (c :: l'))%Z).

Lemma trim_spec budget l :
  (0 < budget)%Z ->
  let r := trim budget l (size_of l) in
  r.1.2 = size_of r.1.1 ∧ longest_suffix budget l r.1.1
  ∧ (r.2 + Z.of_nat (length r.1.1) = Z.of_nat (length l))%Z.
Proof.
  intros Hb. induction l as [|c l IH]; cbv zeta in *.
  - simpl. split_and!; [done| |done]. exists []. split_and!; [done|simpl; lia|]. intros c d' H. by destruct d'.
  - cbn [trim]. destruct (bool_decide (0 < budget)%Z && bool_decide (budget < size_of (c :: l))%Z) eqn:E.
    + apply andb_true_iff in E as [_ E%bool_decide_eq_true]. simpl (size_of (c :: l)).
      replace (chunk_size c + size_of l - chunk_size c)%Z with (size_of l) by lia.
      destruct IH as (H1 & (dropped & H2 & H3 & H4) & H5). cbn [fst snd]. split_and!; [done| |simpl; lia].
      exists (c :: dropped). split_and!; [by rewrite H2 at 1|done|].
      intros c' d' Hd. destruct d' as [|x d']; simplify_eq/=; [|by eapply H4].
      rewrite H2 in E. simpl in E. done.
    + apply andb_false_iff in E as [E|E]; apply bool_decide_eq_false in E; [lia|].
      cbn [fst snd]. split_and!; [done| |simpl; lia]. exists []. split_and!; [done|lia|]. intros c' d' H. by destruct d'.
Qed.

Lemma trim_unbounded budget l total : (budget <= 0)%Z -> trim budget l total = (l, total, 0%Z).
Proof. intros Hb. destruct l; [done|]. cbn [trim]. by rewrite bool_decide_eq_false_2 by lia. Qed.

Lemma trim_ok b : totalBytes b = size_of (chunks b) -> buffer_ok (trimLocked b).
Proof.
  intros Ht. unfold trimLocked. rewrite Ht. destruct (decide (0 < maxBytes b)%Z) as [Hb|Hb].
  - destruct (trim_spec (maxBytes b) (chunks b) Hb) as (H1 & (d & _ & H3 & _) & _). split; simpl; [done|].
    intros _. by rewrite H1.
  - rewrite trim_unbounded by lia. split; simpl; [done|lia].
Qed.

Lemma add_ok t data b : buffer_ok b -> buffer_ok (AddAt t data b).2.
Proof.
  intros Hb. unfold AddAt. destruct data as [|x data]; [done|]. destruct (_ && _); [done|].
  apply trim_ok. simpl. rewrite size_of_app, (bo_total _ Hb). simpl. lia.
Qed.

Lemma resize_ok m b : buffer_ok b -> buffer_ok (Resize m b).
Proof. intros Hb. apply trim_ok. simpl. apply Hb. Qed.

(** A chunk that fits the budget is stored last, and the oldest chunks are
    given up only as far as needed: what stays is the longest part at the end
    that fits.  A chunk that is larger than the whole budget is refused and
    nothing changes. *)
Theorem buffer_keeps_longest_suffix (b : BoundedBuffer) (t : Z) (data : list byte) :
  buffer_ok b -> (0 < maxBytes b)%Z -> data <> [] ->
  let c := mkChunk t data in
  (chunk_size c <= maxBytes b ->
   (AddAt t data b).1 = true ∧ longest_suffix (maxBytes b) (chunks b ++ [c]) (chunks (AddAt t data b).2)
   ∧ last (chunks (AddAt t data b).2) = Some c)%Z
  ∧ (maxBytes b < chunk_size c -> AddAt t data b = (false, b))%Z.
Proof.
  intros Hb Hm Hd c. unfold AddAt. destruct data as [|x data]; [done|]. fold c. split; intros Hc.
  - rewrite (bool_decide_eq_false_2 (maxBytes b < chunk_size c)%Z), andb_false_r by lia. cbn [fst snd].
    unfold trimLocked. cbn [chunks totalBytes maxBytes]. rewrite (bo_total _ Hb).
    replace (size_of (chunks b) + chunk_size c)%Z with (size_of (chunks b ++ [c])) by (rewrite size_of_app; simpl; lia).
    destruct (trim_spec (maxBytes b) (chunks b ++ [c]) Hm) as (_ & Hl & _). split_and!; [done|done|].
    destruct Hl as (dropped & He & _ & Hmax). set (l' := (trim _ _ _).1.1) in *.
    destruct l' as [|y l' _] using rev_ind.
    + exfalso. rewrite app_nil_r in He. specialize (Hmax c (chunks b)). rewrite <- He in Hmax.
      specialize (Hmax eq_refl). simpl in Hmax. lia.
    + rewrite app_assoc in He. apply app_inj_tail in He as [_ <-]. by rewrite last_snoc.
  - by rewrite !bool_decide_eq_true_2.
Qed.

(** ** The store (store.go)

    The cleaning loop calls [SweepNow] on each tick. *)

Record Slot := mkSlot { lastRequestAt : Z; buffer : nat }.

Record ProfileStore := mkProfileStore
  { slots : gmap string Slot;
    maxSlots : Z;
    ttlSeconds : Z;
    slotMaxBytes : Z;
    cleanupInterval : Z;
    evictedSlots : Z;
    buffers : gmap nat BoundedBuffer }.

Record StoreConfig := mkStoreConfig
  { MaxSlots : Z; TTLSeconds : Z; SlotMaxBytes : Z; CleanupInterval : Z }.

Definition DefaultMaxSlots : Z := 100.
Definition DefaultSlotMaxBytes : Z := Z.shiftl 5 20.
Definition DefaultSlotTTLSeconds : Z := 15 * 60.
Definition DefaultCleanupInterval : Z := Minute.

Definition or_default (n d : Z) : Z := if decide (n <= 0)%Z then d else n.

Definition NewStore (cfg : StoreConfig) : ProfileStore :=
  mkProfileStore ∅ (or_default (MaxSlots cfg) DefaultMaxSlots) (or_default (TTLSeconds cfg) DefaultSlotTTLSeconds)
    (or_default (SlotMaxBytes cfg) DefaultSlotMaxBytes) (or_default (CleanupInterval cfg) DefaultCleanupInterval) 0 ∅.

Definition with_slots (s : ProfileStore) (sl : gmap string Slot) : ProfileStore :=
  mkProfileStore sl (maxSlots s) (ttlSeconds s) (slotMaxBytes s) (cleanupInterval s) (evictedSlots s) (buffers s).
Definition with_buffers (s : ProfileStore) (b : gmap nat BoundedBuffer) : ProfileStore :=
  mkProfileStore (slots s) (maxSlots s) (ttlSeconds s) (slotMaxBytes s) (cleanupInterval s) (evictedSlots s) b.
Definition with_limits (s : ProfileStore) (n bytes ttl : Z) : ProfileStore :=
  mkProfileStore (slots s) n ttl bytes (cleanupInterval s) (evictedSlots s) (buffers s).

(** [buf.f()] through the slot's pointer. *)
Definition on_buffer (address : nat) (f : BoundedBuffer -> BoundedBuffer) (s : ProfileStore) : ProfileStore :=
  with_buffers s (alter f address (buffers s)).

Definition touch (now : Z) (slot : Slot) : Slot := mkSlot now (buffer slot).

Section Store.
Context `{GoMapOrder}.

(** The empty key stands for "none yet". *)
Definition older (best : string * Z) (kv : string * Slot) : string * Z :=
  if bool_decide (best.1 = "") || bool_decide (lastRequestAt kv.2 < best.2)%Z
  then (kv.1, lastRequestAt kv.2) else best.
Definition oldest_key (sl : gmap string Slot) : string :=
  (foldl older ("", 0%Z) (map_order (map_to_list sl))).1.

Definition evictOldestSlotLocked (s : ProfileStore) : bool * ProfileStore :=
  let oldestKey := oldest_key (slots s) in
  if decide (oldestKey = "") then (false, s)
  else (true, mkProfileStore (delete oldestKey (slots s)) (maxSlots s) (ttlSeconds s) (slotMaxBytes s)
                (cleanupInterval s) (uint64_wrap (evictedSlots s + 1)) (buffers s)).

Definition buffer_of (s : ProfileStore) (slot : Slot) : BoundedBuffer :=
  default (NewBoundedBuffer 0) (buffers s !! buffer slot).

Definition totalBytesLocked (s : ProfileStore) : Z :=
  map_fold (fun _ slot total => totalBytes (buffer_of s slot) + total)%Z 0%Z (slots s).

Definition EnsureSlot (sourceKey : string) (now : Z) (s : ProfileStore) : ProfileStore :=
  match slots s !! sourceKey with
  | Some slot => with_slots s (<[sourceKey := touch now slot]> (slots s))
  | None =>
      let s := if decide (maxSlots s <= Z.of_nat (size (slots s)))%Z then (evictOldestSlotLocked s).2 else s in
      let address := fresh (dom (buffers s)) in
      with_buffers (with_slots s (<[sourceKey := mkSlot now address]> (slots s)))
        (<[address := NewBoundedBuffer (slotMaxBytes s)]> (buffers s))
  end.

Definition RemoveSlot (sourceKey : string) (s : ProfileStore) : ProfileStore :=
  with_slots s (delete sourceKey (slots s)).
Definition ClearAllSlots (s : ProfileStore) : ProfileStore := with_slots s ∅.

Definition ClearSlotBuffer (sourceKey : string) (now : Z) (s : ProfileStore) : bool * ProfileStore :=
  match slots s !! sourceKey with
  | None => (false, s)
  | Some slot => (true, on_buffer (buffer slot) Clear (with_slots s (<[sourceKey := touch now slot]> (slots s))))
  end.

(** [for len(s.slots) > s.maxSlots { if !evict() { break } }]: one eviction
    more than there are slots is never needed. *)
Fixpoint prune (fuel : nat) (s : ProfileStore) : ProfileStore :=
  match fuel with
  | 0 => s
  | S fuel =>
      if decide (maxSlots s < Z.of_nat (size (slots s)))%Z then
        let r := evictOldestSlotLocked s in
        if r.1 then prune fuel r.2 else r.2
      else s
  end.

Definition positive_or (n current : Z) : Z := if decide (0 < n)%Z then n else current.

Definition resize_slots (s : ProfileStore) : ProfileStore :=
  with_buffers s (map_fold (fun _ slot b => alter (Resize (slotMaxBytes s)) (buffer slot) b) (buffers s) (slots s)).

Definition Reconfigure (maxSlots' slotMaxBytes' ttlSeconds' : Z) (s : ProfileStore) : ProfileStore :=
  let s := with_limits s (positive_or maxSlots' (maxSlots s)) (positive_or slotMaxBytes' (slotMaxBytes s))
             (positive_or ttlSeconds' (ttlSeconds s)) in
  resize_slots (prune (size (slots s)) s).

(** [AddProfileData]: the buffer is looked up under the store's lock, and
    written under its own. *)
Definition lookup_buffer (sourceKey : string) (s : ProfileStore) : option nat := buffer <$> slots s !! sourceKey.
Definition append_to (address : nat) (now : Z) (data : list byte) : ProfileStore -> ProfileStore :=
  on_buffer address (fun b => (AddAt now data b).2).
Definition AddProfileData (sourceKey : string) (now : Z) (data : list byte) (s : ProfileStore) : ProfileStore :=
  match lookup_buffer sourceKey s with
  | Some address => append_to address now data s
  | None => s
  end.

(** [snapshot], which refreshes the slot for the UI only. *)
Definition snapshot (sourceKey : string) (since : Z) (bumpRequest : bool) (now : Z) (s : ProfileStore)
    : list (list byte) * ProfileStore :=
  match slots s !! sourceKey with
  | None => ([], s)
  | Some slot =>
      let s' := if bumpRequest then with_slots s (<[sourceKey := touch now slot]> (slots s)) else s in
      (SnapshotSince since (buffer_of s slot), s')
  end.

Definition SnapshotAllSince (since : Z) (s : ProfileStore) : list (list byte) :=
  (map_order (map_to_list (slots s))).*2 ≫= fun slot => SnapshotSince since (buffer_of s slot).

Definition IsActive (sourceKey : string) (s : ProfileStore) : bool := bool_decide (is_Some (slots s !! sourceKey)).
Definition ActiveSlots (s : ProfileStore) : list string * list string :=
  let l := map_order (map_to_list (slots s)) in
  (l.*1, (filter (fun kv => 0 < totalBytes (buffer_of s kv.2))%Z l).*1).

Definition SweepNow (now : Z) (s : ProfileStore) : ProfileStore :=
  let cutoff := (now - int64_wrap (int64_wrap (ttlSeconds s) * Second))%Z in
  with_slots s (filter (fun kv => ~ (lastRequestAt kv.2 < cutoff)%Z) (slots s)).

Record MemoryStats := mkMemoryStats
  { ms_TotalBytes : Z; ms_MaxSlots : Z; ms_SlotMaxBytes : Z; ms_SlotTTLSeconds : Z; ms_MaxTotalBytesBudget : Z }.
Definition get_MemoryStats (s : ProfileStore) : MemoryStats :=
  mkMemoryStats (totalBytesLocked s) (maxSlots s) (slotMaxBytes s) (ttlSeconds s)
    (int64_wrap (maxSlots s * slotMaxBytes s)).

(** *** Interleavings

    The critical sections of the store and of its buffers, in any order: an
    append may come at any time to any buffer that was ever handed out. *)
Inductive CacheStep : ProfileStore -> ProfileStore -> Prop :=
| StepEnsure k now s : k <> "" -> CacheStep s (EnsureSlot k now s)
| StepRemove k s : CacheStep s (RemoveSlot k s)
| StepClearAll s : CacheStep s (ClearAllSlots s)
| StepClear k now s : CacheStep s (ClearSlotBuffer k now s).2
| StepReconfigure n b t s : CacheStep s (Reconfigure n b t s)
| StepAppend a now data s : CacheStep s (append_to a now data s)
| StepSnapshot k since bump now s : CacheStep s (snapshot k since bump now s).2
| StepSweep now s : CacheStep s (SweepNow now s).

Inductive CacheReachable (cfg : StoreConfig) : ProfileStore -> Prop :=
| CacheStart : CacheReachable cfg (NewStore cfg)
| CacheNext s s' : CacheReachable cfg s -> CacheStep s s' -> CacheReachable cfg s'.
End Store.

(** * Properties of the profile cache

    The memory of the cache is bounded in every interleaving of its users,
    and the slot that makes room is the least recently requested one. *)

Section CacheFacts.
Context `{GoMapOrder} `{!GoMapOrderLaws}.

(** ** The oldest slot *)

Definition no_newer (best : string * Z) (l : list (string * Slot)) : Prop :=
  forall kv, kv ∈ l -> (best.2 <= lastRequestAt kv.2)%Z.

Lemma older_fold l best :
  best.1 <> "" -> (forall kv, kv ∈ l -> kv.1 <> "") ->
  let r := foldl older best l in
  r.1 <> "" ∧ (r = best ∨ exists kv, kv ∈ l ∧ r = (kv.1, lastRequestAt kv.2)) ∧ (r.2 <= best.2)%Z ∧ no_newer r l.
Proof.
  revert best. induction l as [|kv l IH]; intros best Hb Hl; cbv zeta; simpl.
  { split_and!; [done|by left|done|]. by intros x ?%not_elem_of_nil. }
  assert (Hkv : kv.1 <> "") by (apply Hl; left).
  set (best' := older best kv).
  assert (Hbest : best' = best ∧ (best.2 <= lastRequestAt kv.2)%Z
                  ∨ best' = (kv.1, lastRequestAt kv.2) ∧ (lastRequestAt kv.2 <= best.2)%Z).
  { unfold best', older. rewrite bool_decide_eq_false_2 by done. simpl. case_bool_decide; [right|left]; (split; [done|lia]). }
  clearbody best'. destruct (IH best') as (R1 & R2 & R3 & R4).
  { by destruct Hbest as [[-> _]|[-> _]]. }
  { intros x Hx. apply Hl. by right. }
  cbv zeta in *. split_and!; [done| | |].
  - destruct R2 as [->|(x & Hx & ->)].
    + destruct Hbest as [[-> _]|[-> _]]; [by left|right]. exists kv. split; [left|done].
    + right. exists x. split; [by right|done].
  - destruct Hbest as [[-> _]|[-> ?]]; simpl in *; lia.
  - intros x [->|Hx]%elem_of_cons; [|by apply R4].
    destruct Hbest as [[-> ?]|[-> _]]; simpl in *; lia.
Qed.

Lemma oldest_spec (sl : gmap string Slot) :
  sl <> ∅ -> (forall k slot, sl !! k = Some slot -> k <> "") ->
  exists slot, sl !! oldest_key sl = Some slot ∧ oldest_key sl <> ""
  ∧ forall k slot', sl !! k = Some slot' -> (lastRequestAt slot <= lastRequestAt slot')%Z.
Proof.
  intros Hne Hk. unfold oldest_key.
  assert (Hp : map_order (map_to_list sl) ≡ₚ map_to_list sl) by apply map_order_perm.
  destruct (map_order (map_to_list sl)) as [|kv l] eqn:E.
  { apply Permutation_nil_l in Hp. symmetry in Hp. by apply map_to_list_empty_iff in Hp. }
  assert (Hin : forall x, x ∈ kv :: l <-> sl !! x.1 = Some x.2).
  { intros [k slot]. rewrite Hp. apply elem_of_map_to_list. }
  assert (Hkv : kv.1 <> "") by (eapply Hk, Hin; left).
  cbn [foldl]. unfold older at 2. rewrite bool_decide_eq_true_2 by done. cbn [orb].
  destruct (older_fold l (kv.1, lastRequestAt kv.2)) as (R1 & R2 & R3 & R4); [done| |].
  { intros x Hx. eapply Hk, Hin. by right. }
  cbv zeta in *. set (r := foldl older _ l) in *.
  assert (Hr : exists x, x ∈ kv :: l ∧ r = (x.1, lastRequestAt x.2)).
  { destruct R2 as [->|(x & Hx & ->)]; [exists kv; split; [left|done]|exists x; split; [by right|done]]. }
  destruct Hr as (x & Hx & Er). exists x.2. rewrite Er in *. cbn [fst snd] in *. split_and!; [by apply Hin|done|].
  intros k slot' Hs. assert (Hks : (k, slot') ∈ kv :: l) by by apply Hin.
  apply elem_of_cons in Hks as [Ek|Hks]; [|by apply (R4 (k, slot'))]. subst kv. simpl in *. done.
Qed.

(** ** The invariant *)

Record cache_ok (s : ProfileStore) : Prop := {
  co_slot k slot : slots s !! k = Some slot ->
    k <> "" ∧ exists b, buffers s !! buffer slot = Some b ∧ maxBytes b = slotMaxBytes s;
  co_buffers a b : buffers s !! a = Some b -> buffer_ok b;
  co_count : (Z.of_nat (size (slots s)) <= maxSlots s)%Z;
  co_limits : (0 < maxSlots s)%Z ∧ (0 < slotMaxBytes s)%Z
}.

Lemma new_store_ok cfg : cache_ok (NewStore cfg).
Proof.
  assert (Hd : forall n d, (0 < d)%Z -> (0 < or_default n d)%Z) by (intros n d ?; unfold or_default; case_decide; lia).
  assert (Hm := Hd (MaxSlots cfg) DefaultMaxSlots ltac:(done)).
  split; simpl; [done|done|rewrite map_size_empty; lia|]. split; [done|by apply Hd].
Qed.

(** Fewer slots, or the same slots requested at another time. *)
Lemma with_slots_ok s sl :
  cache_ok s -> size sl <= size (slots s) ->
  (forall k slot, sl !! k = Some slot -> exists slot', slots s !! k = Some slot' ∧ buffer slot = buffer slot') ->
  cache_ok (with_slots s sl).
Proof.
  intros [C1 C2 C3 C4] Hsize Hsl. split; simpl; [|done|lia|done].
  intros k slot Hk. destruct (Hsl k slot Hk) as (slot' & Hs & ->). by eapply C1.
Qed.

Lemma touch_ok s k slot now :
  cache_ok s -> slots s !! k = Some slot -> cache_ok (with_slots s (<[k := touch now slot]> (slots s))).
Proof.
  intros Hs Hk. apply with_slots_ok; [done| |].
  - rewrite map_size_insert_Some; [done|by eexists].
  - intros k' slot'. destruct (decide (k' = k)) as [->|Hne].
    + rewrite lookup_insert_eq. intros [= <-]. by exists slot.
    + rewrite lookup_insert_ne by done. by exists slot'.
Qed.

Lemma on_buffer_ok s a f :
  cache_ok s -> (forall b, buffer_ok b -> buffer_ok (f b)) -> (forall b, maxBytes (f b) = maxBytes b) ->
  cache_ok (on_buffer a f s).
Proof.
  intros [C1 C2 C3 C4] Hf Hm. split; simpl; [| |done|done].
  - intros k slot Hk. destruct (C1 k slot Hk) as (Hne & b & Hb & Hmb). split; [done|].
    destruct (decide (buffer slot = a)) as [<-|Ha].
    + rewrite lookup_alter_eq, Hb. exists (f b). split; [done|]. by rewrite Hm.
    + rewrite lookup_alter_ne by done. by exists b.
  - intros a' b'. rewrite lookup_alter_Some. intros [(-> & b & Hb & ->)|(_ & Hb)]; [by apply Hf, (C2 a')|by eapply C2].
Qed.

Lemma add_max t data b : maxBytes (AddAt t data b).2 = maxBytes b.
Proof. unfold AddAt. destruct data; [done|]. by destruct (_ && _). Qed.

(** An eviction removes the least recently requested slot. *)
Lemma evict_spec s :
  slots s <> ∅ -> (forall k slot, slots s !! k = Some slot -> k <> "") ->
  exists k slot, evictOldestSlotLocked s
    = (true, mkProfileStore (delete k (slots s)) (maxSlots s) (ttlSeconds s) (slotMaxBytes s) (cleanupInterval s)
               (uint64_wrap (evictedSlots s + 1)) (buffers s))
  ∧ slots s !! k = Some slot ∧ forall k' slot', slots s !! k' = Some slot' -> (lastRequestAt slot <= lastRequestAt slot')%Z.
Proof.
  intros Hne Hk. destruct (oldest_spec (slots s) Hne Hk) as (slot & Hs & Hn & Hmin).
  exists (oldest_key (slots s)), slot. unfold evictOldestSlotLocked. by rewrite decide_False.
Qed.

(** All but the number of slots. *)
Definition slots_valid (s : ProfileStore) : Prop :=
  (forall k slot, slots s !! k = Some slot -> k <> "" ∧ is_Some (buffers s !! buffer slot))
  ∧ (forall a b, buffers s !! a = Some b -> buffer_ok b).

Lemma prune_spec fuel s :
  slots_valid s -> (0 < maxSlots s)%Z -> (Z.of_nat (size (slots s)) <= maxSlots s + Z.of_nat fuel)%Z ->
  let s' := prune fuel s in
  slots_valid s' ∧ (Z.of_nat (size (slots s')) <= maxSlots s')%Z ∧ slots s' ⊆ slots s
  ∧ maxSlots s' = maxSlots s ∧ slotMaxBytes s' = slotMaxBytes s ∧ buffers s' = buffers s.
Proof.
  revert s. induction fuel as [|fuel IH]; intros s Hv Hm Hf; cbv zeta; simpl.
  { split_and!; [done|lia|done..]. }
  case_decide as Hsize; [|split_and!; [done|lia|done..]].
  destruct (evict_spec s) as (k & slot & E & Hk & _).
  { intros Hemp. rewrite Hemp, map_size_empty in Hsize. lia. }
  { intros k slot Hk. by apply (proj1 Hv k slot). }
  rewrite E. cbn [fst snd]. set (s1 := mkProfileStore _ _ _ _ _ _ _).
  assert (Hs1 : size (slots s1) = pred (size (slots s))) by (apply map_size_delete_Some; by eexists).
  destruct (IH s1) as (V & C & S & M & B & Bu).
  - split; simpl; [|apply Hv]. intros k' slot' [_ Hk']%lookup_delete_Some. by apply (proj1 Hv k').
  - done.
  - rewrite Hs1. simpl in *. lia.
  - cbv zeta in *. split_and!; try done. etransitivity; [exact S|]. apply delete_subseteq.
Qed.

(** Resizing reaches every buffer of a slot. *)
Lemma resize_fold m (sl : gmap string Slot) (bufs : gmap nat BoundedBuffer) :
  let r := map_fold (fun _ slot b => alter (Resize m) (buffer slot) b) bufs sl in
  (forall a b, bufs !! a = Some b -> exists b', r !! a = Some b' ∧ (buffer_ok b -> buffer_ok b')
     ∧ (maxBytes b' = maxBytes b ∨ maxBytes b' = m))
  ∧ (forall a, r !! a = None <-> bufs !! a = None)
  ∧ (forall k slot b', sl !! k = Some slot -> r !! buffer slot = Some b' -> maxBytes b' = m).
Proof.
  cbv zeta. induction sl as [|k slot sl Hn Hfold IH] using map_first_key_ind.
  { rewrite map_fold_empty. split_and!; [|done|by intros ???; rewrite lookup_empty]. intros a b Hb. exists b. auto. }
  rewrite map_fold_insert_first_key by done. set (r := map_fold _ bufs sl) in *. destruct IH as (I1 & I2 & I3).
  assert (Hmax : forall b, maxBytes (Resize m b) = m) by done. split_and!.
  - intros a b Hb. destruct (I1 a b Hb) as (b' & Hb' & Hok & Hm). destruct (decide (a = buffer slot)) as [->|Ha].
    + rewrite lookup_alter_eq, Hb'. exists (Resize m b'). split_and!; [done|intros ?; by apply resize_ok, Hok|by right].
    + rewrite lookup_alter_ne by done. by exists b'.
  - intros a. by rewrite lookup_alter_None, I2.
  - intros k' slot' b' Hk'. destruct (decide (buffer slot' = buffer slot)) as [E|Hne].
    + rewrite E, lookup_alter_eq. destruct (r !! buffer slot); [|done]. intros [= <-]. apply Hmax.
    + rewrite lookup_alter_ne by done. apply lookup_insert_Some in Hk' as [[_ ->]|[_ Hk']]; [done|by eapply I3].
Qed.

Lemma reconfigure_ok n b t s : cache_ok s -> cache_ok (Reconfigure n b t s).
Proof.
  intros [C1 C2 C3 [C4 C5]]. unfold Reconfigure.
  assert (Hpos : forall x y, (0 < y)%Z -> (0 < positive_or x y)%Z) by (intros x y ?; unfold positive_or; case_decide; lia).
  set (s1 := with_limits s _ _ _).
  destruct (prune_spec (size (slots s1)) s1) as ([V1 V2] & Hc & Hsub & Em & Eb & Ebuf).
  - split; [|exact C2]. intros k slot Hk. destruct (C1 k slot Hk) as (? & x & Hx & _). split; [done|by eexists].
  - simpl. by apply Hpos.
  - pose proof (Hpos n _ C4). simpl. lia.
  - cbv zeta in *. set (s2 := prune _ s1) in *. unfold resize_slots.
    destruct (resize_fold (slotMaxBytes s2) (slots s2) (buffers s2)) as (R1 & R2 & R3). cbv zeta in *.
    set (bufs := map_fold _ (buffers s2) (slots s2)) in *. split; simpl.
    + intros k slot Hk. destruct (V1 k slot Hk) as (Hne & x & Hx). split; [done|].
      destruct (R1 _ _ Hx) as (x' & Hx' & _). exists x'. split; [done|]. by eapply R3.
    + intros a x' Hx'. destruct (buffers s2 !! a) as [x|] eqn:Hx.
      * destruct (R1 a x Hx) as (y & Hy & Hok & _). assert (y = x') as -> by congruence. by apply Hok, (V2 a).
      * apply R2 in Hx. congruence.
    + done.
    + rewrite Em, Eb. simpl. split; by apply Hpos.
Qed.

Lemma ensure_ok k now s : k <> "" -> cache_ok s -> cache_ok (EnsureSlot k now s).
Proof.
  intros Hk0 Hs. unfold EnsureSlot. destruct (slots s !! k) as [slot|] eqn:Hk; [by apply touch_ok|].
  set (s1 := if decide _ then _ else _).
  assert (H1 : cache_ok s1 ∧ (Z.of_nat (size (slots s1)) < maxSlots s1)%Z ∧ slots s1 !! k = None).
  { unfold s1. destruct Hs as [C1 C2 C3 [C4 C5]]. case_decide as Hfull; [|split; [by split|split; [lia|done]]].
    destruct (evict_spec s) as (k' & slot & -> & Hk' & _).
    - intros Hemp. rewrite Hemp, map_size_empty in Hfull. lia.
    - intros x y Hx. by destruct (C1 x y Hx).
    - cbn [snd]. assert (Hsz : size (delete k' (slots s)) = pred (size (slots s))) by (apply map_size_delete_Some; by eexists).
      assert (size (slots s) <> 0) by (intros Hz%map_size_empty_iff; rewrite Hz in Hk'; by rewrite lookup_empty in Hk').
      split; [split; simpl; [|done|rewrite Hsz; lia|done]|split; simpl; [rewrite Hsz; lia|]].
      + intros x y [_ Hx]%lookup_delete_Some. by apply (C1 x).
      + apply lookup_delete_None. by right. }
  clearbody s1. destruct H1 as ([C1 C2 C3 C4] & Hlt & Hn).
  assert (Hfresh : buffers s1 !! fresh (dom (buffers s1)) = None) by apply not_elem_of_dom, is_fresh.
  split; simpl; [| | |exact C4].
  - intros x slot. rewrite lookup_insert_Some. intros [[<- <-]|[_ Hx]]; simpl.
    + split; [done|]. rewrite lookup_insert_eq. by eexists.
    + destruct (C1 x slot Hx) as (? & b & Hb & Hm). split; [done|]. exists b. split; [|done].
      rewrite lookup_insert_ne; [done|]. congruence.
  - intros a b. rewrite lookup_insert_Some. intros [[_ <-]|[_ Hb]]; [split; simpl; [done|lia]|by eapply C2].
  - rewrite map_size_insert_None by done. lia.
Qed.

Lemma cache_step_ok s s' : cache_ok s -> CacheStep s s' -> cache_ok s'.
Proof.
  intros Hs Hstep. destruct Hstep as [k now s Hk|k s|s|k now s|n b t s|a now data s|k since bump now s|now s].
  - by apply ensure_ok.
  - apply with_slots_ok; [done| |].
    + apply map_subseteq_size, delete_subseteq.
    + intros x slot [_ Hx]%lookup_delete_Some. by exists slot.
  - apply with_slots_ok; [done|rewrite map_size_empty; lia|]. intros x slot. by rewrite lookup_empty.
  - unfold ClearSlotBuffer. destruct (slots s !! k) as [slot|] eqn:Hk; [|done]. apply on_buffer_ok; [by apply touch_ok| |done].
    intros b [_ Hb]. split; simpl; [done|]. lia.
  - by apply reconfigure_ok.
  - apply on_buffer_ok; [done|apply add_ok|apply add_max].
  - unfold snapshot. destruct (slots s !! k) eqn:Hk; [|done]. destruct bump; [by apply touch_ok|done].
  - apply with_slots_ok; [done| |].
    + apply map_subseteq_size, map_filter_subseteq.
    + intros x slot [Hx _]%map_lookup_filter_Some. by exists slot.
Qed.

Lemma reachable_cache_ok cfg s : CacheReachable cfg s -> cache_ok s.
Proof. induction 1 as [|s s' _ IH Hstep]; [apply new_store_ok|by eapply cache_step_ok]. Qed.

Lemma total_bound s : cache_ok s -> (totalBytesLocked s <= Z.of_nat (size (slots s)) * slotMaxBytes s)%Z.
Proof.
  intros [C1 C2 _ [_ C5]]. unfold totalBytesLocked.
  assert (Hslot : forall k slot, slots s !! k = Some slot -> (totalBytes (buffer_of s slot) <= slotMaxBytes s)%Z).
  { intros k slot Hk. destruct (C1 k slot Hk) as (_ & b & Hb & Hm). unfold buffer_of. rewrite Hb. simpl.
    rewrite <- Hm in C5 |- *. by apply (bo_budget _ (C2 _ _ Hb)). }
  clear C1. revert Hslot. induction (slots s) as [|k slot sl Hn Hf IH] using map_first_key_ind; intros Hslot.
  - rewrite map_fold_empty, map_size_empty. lia.
  - rewrite map_fold_insert_first_key, map_size_insert_None by done.
    assert (Hk := Hslot k slot (lookup_insert_eq _ _ _)).
    assert (Hrest := IH (fun k' slot' Hk' => Hslot k' slot' ltac:(rewrite lookup_insert_ne; [done|congruence]))). lia.
Qed.

(** ** Properties *)

(** C40: Whatever its users do, and in whatever order their critical sections
    run - a late append to a slot that was removed, a change of the limits in
    between - the cache never has more slots than its limit, no buffer of a
    slot holds more than the per-slot budget, and the bytes it holds stay
    within the product, which is what [MemoryStats] reports as the budget as
    long as it fits an int64.  Source keys are not empty. *)
Theorem cache_bounded (cfg : StoreConfig) (s : ProfileStore) :
  CacheReachable cfg s ->
  (Z.of_nat (size (slots s)) <= maxSlots s)%Z
  ∧ (forall k slot, slots s !! k = Some slot -> (totalBytes (buffer_of s slot) <= slotMaxBytes s)%Z)
  ∧ (totalBytesLocked s <= maxSlots s * slotMaxBytes s)%Z
  ∧ (maxSlots s * slotMaxBytes s < 2 ^ 63 -> ms_TotalBytes (get_MemoryStats s) <= ms_MaxTotalBytesBudget (get_MemoryStats s))%Z.
Proof.
  intros Hs%reachable_cache_ok. pose proof (total_bound s Hs) as Ht. pose proof Hs as [C1 C2 C3 [C4 C5]].
  assert (Htot : (totalBytesLocked s <= maxSlots s * slotMaxBytes s)%Z) by nia. split_and!; [done| |done|].
  - intros k slot Hk. destruct (C1 k slot Hk) as (_ & b & Hb & Hm). unfold buffer_of. rewrite Hb. simpl.
    rewrite <- Hm in C5 |- *. by apply (bo_budget _ (C2 _ _ Hb)).
  - intros Hfit. simpl. rewrite int64_wrap_id; [done|]. nia.
Qed.

(** Opening a slot for a new source in a full cache gives up exactly one
    slot, one that was requested least recently; every other slot is kept and
    the new one is empty.  A source that has a slot keeps its buffer, and only
    its request time changes. *)
Theorem ensure_slot_evicts_lru (cfg : StoreConfig) (s : ProfileStore) (k : string) (now : Z) :
  CacheReachable cfg s ->
  match slots s !! k with
  | Some slot => EnsureSlot k now s = with_slots s (<[k := touch now slot]> (slots s))
  | None =>
      (exists slot, slots (EnsureSlot k now s) !! k = Some slot
         ∧ chunks (buffer_of (EnsureSlot k now s) slot) = [] ∧ lastRequestAt slot = now)
      ∧ if decide (maxSlots s <= Z.of_nat (size (slots s)))%Z
        then exists k' slot', slots s !! k' = Some slot'
          ∧ (forall x slot, slots s !! x = Some slot -> lastRequestAt slot' <= lastRequestAt slot)%Z
          ∧ forall x, x <> k -> slots (EnsureSlot k now s) !! x = if decide (x = k') then None else slots s !! x
        else forall x, x <> k -> slots (EnsureSlot k now s) !! x = slots s !! x
  end.
Proof.
  intros Hs%reachable_cache_ok. unfold EnsureSlot. destruct (slots s !! k) as [slot|] eqn:Hk; [done|].
  set (s1 := if decide _ then _ else _). split.
  - eexists. cbn [slots with_buffers with_slots]. rewrite lookup_insert_eq. split_and!; [done| |done].
    unfold buffer_of. cbn [buffers with_buffers with_slots buffer]. by rewrite lookup_insert_eq.
  - unfold s1. clear s1. case_decide as Hfull.
    + destruct Hs as [C1 _ _ [C4 _]]. destruct (evict_spec s) as (k' & slot' & E & Hk' & Hmin).
      * intros Hemp. rewrite Hemp, map_size_empty in Hfull. lia.
      * intros x y Hx. by destruct (C1 x y Hx).
      * exists k', slot'. rewrite E. cbn [snd]. split_and!; [done..|]. intros x Hx. simpl.
        rewrite lookup_insert_ne by done. destruct (decide (x = k')) as [->|Hne].
        -- by rewrite lookup_delete_eq.
        -- by rewrite lookup_delete_ne.
    + intros x Hx. simpl. by rewrite lookup_insert_ne.
Qed.
End CacheFacts.

(** ** The empty key

    Eviction takes the empty key for "no slot": a cache whose only slot has
    that key does not make room. *)
Theorem empty_key_exceeds_limit :
  let cfg := mkStoreConfig 1 0 0 0 in
  let s := @EnsureSlot order_forward "cart" 2 (@EnsureSlot order_forward "" 1 (NewStore cfg)) in
  maxSlots s = 1%Z ∧ size (slots s) = 2.
Proof. by vm_compute. Qed.

(** ** Witnesses *)

Section CacheWitnesses.
#[local] Existing Instances order_forward order_forward_laws.

Lemma buffer_keeps_longest_suffix_witness :
  let b := (AddAt 2 [x00; x01] (AddAt 1 [x00; x01] (NewBoundedBuffer 5)).2).2 in
  chunks (AddAt 3 [x02; x03] b).2 = [mkChunk 2 [x00; x01]; mkChunk 3 [x02; x03]]
  ∧ longest_suffix 5 (chunks b ++ [mkChunk 3 [x02; x03]]) [mkChunk 2 [x00; x01]; mkChunk 3 [x02; x03]].
Proof.
  intros b. assert (Hb : buffer_ok b) by (apply add_ok, add_ok; split; done).
  destruct (buffer_keeps_longest_suffix b 3 [x02; x03] Hb) as [Hl _]; [done|discriminate|].
  destruct Hl as (_ & Hl & _); [by vm_compute|].
  assert (E : chunks (AddAt 3 [x02; x03] b).2 = [mkChunk 2 [x00; x01]; mkChunk 3 [x02; x03]]) by (vm_compute; reflexivity).
  split; [exact E|]. rewrite E in Hl. exact Hl.
Defined.

(** A cache of two slots, both taken. *)
Definition full_cache : ProfileStore :=
  EnsureSlot "proxy" 2 (EnsureSlot "cart" 1 (NewStore (mkStoreConfig 2 0 64 0))).
Lemma full_cache_reachable : CacheReachable (mkStoreConfig 2 0 64 0) full_cache.
Proof. do 2 (eapply CacheNext; [|by apply StepEnsure]). apply CacheStart. Qed.

Lemma cache_bounded_witness :
  let s := append_to 0 3 [x00; x01] full_cache in
  (totalBytesLocked s <= 128)%Z ∧ totalBytesLocked s = 2%Z.
Proof.
  intros s. destruct (cache_bounded (mkStoreConfig 2 0 64 0) s) as (_ & _ & Ht & _).
  - eapply CacheNext; [exact full_cache_reachable|apply StepAppend].
  - split; [exact Ht|]. by vm_compute.
Defined.

Lemma ensure_slot_evicts_lru_witness : exists k' slot', slots full_cache !! k' = Some slot'
  ∧ forall x, x <> "db" -> slots (EnsureSlot "db" 3 full_cache) !! x = if decide (x = k') then None else slots full_cache !! x.
Proof.
  pose proof (ensure_slot_evicts_lru (mkStoreConfig 2 0 64 0) full_cache "db" 3 full_cache_reachable) as H.
  assert (Hn : slots full_cache !! "db" = None) by (vm_compute; reflexivity). rewrite Hn in H.
  destruct H as [_ H]. rewrite decide_True in H by by vm_compute.
  destruct H as (k' & slot' & Hk & _ & Hx). exists k', slot'. exact (conj Hk Hx).
Defined.
End CacheWitnesses.
