(* ===== verification/CollectorConfig.v ===== *)
(** * Collector configurations (src/common/config)

    The configuration of an OpenTelemetry collector as odigos builds it
    (config.go), the interfaces of what contributes to it, the processors
    that custom resources describe (processor.go) and the merge of the
    configurations of several domains (config.go), with what a merge
    guarantees. *)

From S2P Require Import Prelude.
From S2P Require Import GoStrings.
From S2P Require Import GoSort.
From S2P Require Import K8s.
From S2P Require Import Api.
From S2P Require Import GoLib.

(** ** Values

    A [GenericMap] is a [map[string]interface{}]; these are the values that
    the code puts into one. *)
Inductive gval :=
| GStr (s : string)
| GInt (n : Z)
| GFloat (x : float64)
| GBool (b : bool)
| GStrs (l : list string)
| GList (l : list gval)
| GStrMap (m : gmap string string)
| GMap (m : gmap string gval)
| GMaps (l : list (gmap string gval))
| GUnit.

Abbreviation GenericMap := (gmap string gval).

(** A map literal. *)
Definition gm (l : list (string * gval)) : GenericMap := list_to_map l.

(** ** Configurations (config.go) *)

Record Pipeline := mkPipeline { Receivers : list string; Processors : list string; Exporters : list string }.
Definition zero_pipeline : Pipeline := mkPipeline [] [] [].

Record ResourceAttribute := mkResourceAttribute { ra_Name : string; ra_Value : string }.
Record Telemetry := mkTelemetry
  { metrics_Level : string;
    metrics_Readers : list GenericMap;
    logs_Level : string;
    tel_Resource : option (list ResourceAttribute) }.
Definition zero_telemetry : Telemetry := mkTelemetry "" [] "" None.

(** The maps of a configuration from [GetBasicConfig] are made once and are
    never nil. *)
Record Config := mkConfig
  { receivers : GenericMap;
    exporters : GenericMap;
    processors : GenericMap;
    extensions : GenericMap;
    connectors : GenericMap;
    service_extensions : list string;
    pipelines : gmap string Pipeline;
    telemetry : Telemetry }.
Definition zero_config : Config := mkConfig ∅ ∅ ∅ ∅ ∅ [] ∅ zero_telemetry.

(** Writes to one field. *)
Definition set_receivers (f : GenericMap -> GenericMap) (c : Config) : Config :=
  mkConfig (f (receivers c)) (exporters c) (processors c) (extensions c) (connectors c)
    (service_extensions c) (pipelines c) (telemetry c).
Definition set_exporters (f : GenericMap -> GenericMap) (c : Config) : Config :=
  mkConfig (receivers c) (f (exporters c)) (processors c) (extensions c) (connectors c)
    (service_extensions c) (pipelines c) (telemetry c).
Definition set_processors (f : GenericMap -> GenericMap) (c : Config) : Config :=
  mkConfig (receivers c) (exporters c) (f (processors c)) (extensions c) (connectors c)
    (service_extensions c) (pipelines c) (telemetry c).
Definition set_extensions (f : GenericMap -> GenericMap) (c : Config) : Config :=
  mkConfig (receivers c) (exporters c) (processors c) (f (extensions c)) (connectors c)
    (service_extensions c) (pipelines c) (telemetry c).
Definition set_connectors (f : GenericMap -> GenericMap) (c : Config) : Config :=
  mkConfig (receivers c) (exporters c) (processors c) (extensions c) (f (connectors c))
    (service_extensions c) (pipelines c) (telemetry c).
Definition set_service_extensions (f : list string -> list string) (c : Config) : Config :=
  mkConfig (receivers c) (exporters c) (processors c) (extensions c) (connectors c)
    (f (service_extensions c)) (pipelines c) (telemetry c).
Definition set_pipelines (f : gmap string Pipeline -> gmap string Pipeline) (c : Config) : Config :=
  mkConfig (receivers c) (exporters c) (processors c) (extensions c) (connectors c)
    (service_extensions c) (f (pipelines c)) (telemetry c).
Definition set_telemetry (f : Telemetry -> Telemetry) (c : Config) : Config :=
  mkConfig (receivers c) (exporters c) (processors c) (extensions c) (connectors c)
    (service_extensions c) (pipelines c) (f (telemetry c)).

(** [c.Service.Pipelines[name]]: a missing pipeline reads as the zero value. *)
Definition get_pipeline (name : string) (c : Config) : Pipeline := default zero_pipeline (pipelines c !! name).

Definition add_receiver (name : string) (p : Pipeline) : Pipeline :=
  mkPipeline (Receivers p ++ [name]) (Processors p) (Exporters p).
Definition add_processor (name : string) (p : Pipeline) : Pipeline :=
  mkPipeline (Receivers p) (Processors p ++ [name]) (Exporters p).
Definition add_exporter (name : string) (p : Pipeline) : Pipeline :=
  mkPipeline (Receivers p) (Processors p) (Exporters p ++ [name]).

(** ** What contributes to a configuration *)

(** The values that the methods of an [ExporterConfigurer] return. *)
Record ExporterConfigurer := mkExporterConfigurer
  { GetID : string;
    GetType : string;
    GetConfig : gmap string string;
    GetSignals : list string }.

(** The values that the methods of a [ProcessorConfigurer] return; a
    configuration may be nil. *)
Record ProcessorConfigurer := mkProcessorConfigurer
  { proc_GetType : string;
    proc_GetID : string;
    proc_GetConfig : error + option GenericMap;
    proc_GetSignals : list string;
    proc_GetOrderHint : Z }.

(** ** Signals (root.go) *)
Definition isSignalExists (signals : list string) (signal : string) : bool := bool_decide (signal ∈ signals).
Definition isTracingEnabled (signals : list string) : bool := isSignalExists signals TracesObservabilitySignal.
Definition isMetricsEnabled (signals : list string) : bool := isSignalExists signals MetricsObservabilitySignal.
Definition isLoggingEnabled (signals : list string) : bool := isSignalExists signals LogsObservabilitySignal.
Definition ProfilesObservabilitySignal : string := "PROFILES".
Definition isProfilingEnabled (signals : list string) : bool := isSignalExists signals ProfilesObservabilitySignal.

(** ** Processors (processor.go) *)

Record CrdProcessorResults := mkCrdResults
  { ProcessorsConfig : GenericMap;
    TracesProcessors : list string;
    TracesProcessorsPostSpanMetrics : list string;
    MetricsProcessors : list string;
    LogsProcessors : list string;
    ProfilesProcessors : list string;
    Errs : gmap string error }.

Definition processor_key (p : ProcessorConfigurer) : string := proc_GetType p +:+ "/" +:+ proc_GetID p.

Definition add_if (b : bool) (x : string) (l : list string) : list string := if b then l ++ [x] else l.

Section Crd.
Context `{GoLibrary}.

Definition crd_step (r : CrdProcessorResults) (p : ProcessorConfigurer) : CrdProcessorResults :=
  let processorKey := processor_key p in
  match proc_GetConfig p with
  | inl err =>
      mkCrdResults (ProcessorsConfig r) (TracesProcessors r) (TracesProcessorsPostSpanMetrics r)
        (MetricsProcessors r) (LogsProcessors r) (ProfilesProcessors r)
        (<[proc_GetID p :=
           EWrap ("failed to convert processor " +:+ strconv_Quote (proc_GetID p) +:+ " to collector config") err]> (Errs r))
  | inr None => r
  | inr (Some cfg) =>
      let tracing := isTracingEnabled (proc_GetSignals p) in
      let early := bool_decide (proc_GetOrderHint p < 10)%Z in
      mkCrdResults (<[processorKey := GMap cfg]> (ProcessorsConfig r))
        (add_if (tracing && early) processorKey (TracesProcessors r))
        (add_if (tracing && negb early) processorKey (TracesProcessorsPostSpanMetrics r))
        (add_if (isMetricsEnabled (proc_GetSignals p)) processorKey (MetricsProcessors r))
        (add_if (isLoggingEnabled (proc_GetSignals p)) processorKey (LogsProcessors r))
        (add_if (isProfilingEnabled (proc_GetSignals p)) processorKey (ProfilesProcessors r))
        (Errs r)
  end.

Definition CrdProcessorToConfig (ps : list ProcessorConfigurer) : CrdProcessorResults :=
  foldl crd_step (mkCrdResults ∅ [] [] [] [] [] ∅) ps.
End Crd.

(** ** Merging domains (config.go) *)

Section Merge.
Context `{GoSort} `{GoMapOrder}.

(** [for k, v := range m { if exists { return error }; mergedMap[k] = v }]. *)
Definition merge_entry {A} (what : string) (r : error + gmap string A) (kv : string * A) : error + gmap string A :=
  match r with
  | inl err => inl err
  | inr m =>
      match m !! kv.1 with
      | Some _ => inl (ENew (what +:+ kv.1 +:+ " in configs"))
      | None => inr (<[kv.1 := kv.2]> m)
      end
  end.
Definition merge_map {A} (what : string) (r : error + gmap string A) (m : gmap string A) : error + gmap string A :=
  foldl (merge_entry what) r (map_order (map_to_list m)).

Definition mergeGenericMaps (maps : list GenericMap) : error + GenericMap :=
  foldl (merge_map "duplicate key ") (inr ∅) maps.
Definition mergePipelines (pipelines1 pipelines2 : gmap string Pipeline) : error + gmap string Pipeline :=
  merge_map "duplicate pipeline " (inr pipelines1) pipelines2.
Definition mergeExtensions (extensions1 extensions2 : list string) : list string := extensions1 ++ extensions2.

Definition mergeMetricsLevel (level1 level2 : string) : error + string :=
  if decide (level1 <> "" ∧ level2 <> "" ∧ level1 <> level2) then
    inl (ENew "service telemetry metrics level is allowed to be set only once")
  else inr (if decide (level1 <> "") then level1 else level2).

Definition mergeTelemetryResource (r1 r2 : option (list ResourceAttribute)) : option (list ResourceAttribute) :=
  match r1, r2 with
  | None, _ | Some [], _ => r2
  | _, None | _, Some [] => r1
  | Some l1, Some l2 => Some (l1 ++ l2)
  end.
Definition mergeTelemetryReaders (l1 l2 : list GenericMap) : list GenericMap := l1 ++ l2.

Definition mergeTelemetry (t1 t2 : Telemetry) : error + Telemetry :=
  match mergeMetricsLevel (metrics_Level t1) (metrics_Level t2) with
  | inl err => inl err
  | inr level =>
      let logsLevel := if decide (logs_Level t2 = "") then logs_Level t1 else logs_Level t2 in
      inr (mkTelemetry level (mergeTelemetryReaders (metrics_Readers t1) (metrics_Readers t2)) logsLevel
             (mergeTelemetryResource (tel_Resource t1) (tel_Resource t2)))
  end.

Definition merge_domain (m cfg : Config) : error + Config :=
  match mergeGenericMaps [receivers m; receivers cfg] with inl err => inl err | inr rs =>
  match mergeGenericMaps [exporters m; exporters cfg] with inl err => inl err | inr es =>
  match mergeGenericMaps [processors m; processors cfg] with inl err => inl err | inr ps =>
  match mergeGenericMaps [extensions m; extensions cfg] with inl err => inl err | inr xs =>
  match mergeGenericMaps [connectors m; connectors cfg] with inl err => inl err | inr cs =>
  let se := mergeExtensions (service_extensions m) (service_extensions cfg) in
  match mergePipelines (pipelines m) (pipelines cfg) with inl err => inl err | inr pl =>
  match mergeTelemetry (telemetry m) (telemetry cfg) with inl err => inl err | inr t =>
  inr (mkConfig rs es ps xs cs se pl t)
  end end end end end end end.

Definition MergeConfigs (configDomains : gmap string Config) : error + Config :=
  let domainNames := SortFunc string_compare (map_order (map_to_list configDomains)).*1 in
  foldl (fun r name => match r with inl err => inl err | inr m => merge_domain m (default zero_config (configDomains !! name)) end)
    (inr zero_config) domainNames.
End Merge.

(** *** The merge is the disjoint union *)
Section MergeFacts.
Context `{GoSortLaws} `{GoMapOrderLaws}.

Lemma merge_entries_spec {A} what (l : list (string * A)) (m : gmap string A) :
  NoDup l.*1 ->
  foldl (merge_entry what) (inr m) l
  = match first_match (fun kv => bool_decide (is_Some (m !! kv.1))) l with
    | Some kv => inl (ENew (what +:+ kv.1 +:+ " in configs"))
    | None => inr (list_to_map l ∪ m)
    end.
Proof.
  revert m. induction l as [|[k v] l IH]; intros m Hnd; cbn [foldl]; [by rewrite list_to_map_nil, (left_id_L ∅ (∪))|].
  apply NoDup_cons in Hnd as [Hk Hnd]. cbn [first_match merge_entry fst snd]. destruct (m !! k) as [x|] eqn:Em.
  - rewrite bool_decide_eq_true_2 by done. clear. by induction l.
  - rewrite bool_decide_eq_false_2 by (intros []; naive_solver). rewrite IH by done.
    assert (first_match (fun kv => bool_decide (is_Some (<[k:=v]> m !! kv.1))) l
            = first_match (fun kv => bool_decide (is_Some (m !! kv.1))) l) as ->.
    { apply first_match_ext. intros [k' v'] Hin. simpl. rewrite lookup_insert_ne; [done|].
      intros <-. apply Hk, list_elem_of_fmap. by exists (k, v'). }
    case_match; [done|]. f_equal. rewrite list_to_map_cons. by rewrite <-insert_union_r, insert_union_l
      by (by apply not_elem_of_list_to_map_1).
Qed.

Lemma merge_map_ok {A} what (m1 m2 m : gmap string A) :
  merge_map what (inr m1) m2 = inr m <-> m1 ##ₘ m2 ∧ m = m1 ∪ m2.
Proof.
  unfold merge_map. set (l := map_order (map_to_list m2)).
  assert (Hl : l ≡ₚ map_to_list m2) by apply map_order_perm.
  assert (Hnd : NoDup l.*1) by (rewrite Hl; apply NoDup_fst_map_to_list).
  assert (Hm : list_to_map l = m2) by (rewrite <-(list_to_map_to_list m2); by apply list_to_map_proper).
  rewrite merge_entries_spec by done. rewrite Hm. split.
  - case_match eqn:E; [done|]. rewrite first_match_None in E. intros [= <-].
    assert (Hd : m1 ##ₘ m2).
    { apply map_disjoint_spec. intros k x y Hx Hy. specialize (E (k, y)). simpl in E.
      rewrite bool_decide_eq_false in E. apply E; [|by eexists]. rewrite Hl. by apply elem_of_map_to_list. }
    split; [done|]. by rewrite map_union_comm.
  - intros [Hd ->]. case_match eqn:E; [|by rewrite map_union_comm].
    apply first_match_Some in E as [Hin Hp]. destruct p as [k y]. simpl in Hp. apply bool_decide_eq_true in Hp as [x Hx].
    exfalso. rewrite Hl, elem_of_map_to_list in Hin. by eapply map_disjoint_spec.
Qed.

Lemma merge2_ok (m1 m2 m : GenericMap) : mergeGenericMaps [m1; m2] = inr m <-> m1 ##ₘ m2 ∧ m = m1 ∪ m2.
Proof.
  unfold mergeGenericMaps. cbn [foldl].
  rewrite (proj2 (merge_map_ok "duplicate key " ∅ m1 m1)) by (split; [solve_map_disjoint|by rewrite (left_id_L ∅ (∪))]).
  apply merge_map_ok.
Qed.
End MergeFacts.

(** * The merge of configuration domains

    [MergeConfigs] fails when two domains define the same component or
    pipeline; otherwise its result has what the domains have, and nothing
    else. *)

(** A map has the entries of the maps of [l]. *)
Definition gathers {A} (f : Config -> gmap string A) (l : list Config) (c : Config) : Prop :=
  forall x v, f c !! x = Some v <-> exists d, d ∈ l ∧ f d !! x = Some v.

Record merges (l : list Config) (c : Config) : Prop := {
  mg_receivers : gathers receivers l c;
  mg_exporters : gathers exporters l c;
  mg_processors : gathers processors l c;
  mg_extensions : gathers extensions l c;
  mg_connectors : gathers connectors l c;
  mg_pipelines : gathers pipelines l c;
  mg_service x : x ∈ service_extensions c <-> exists d, d ∈ l ∧ x ∈ service_extensions d;
  mg_level : metrics_Level (telemetry c) = "" ∨ exists d, d ∈ l ∧ metrics_Level (telemetry d) = metrics_Level (telemetry c)
}.

(** Two domains can be merged. *)
Record apart (d1 d2 : Config) : Prop := {
  ap_receivers : receivers d1 ##ₘ receivers d2;
  ap_exporters : exporters d1 ##ₘ exporters d2;
  ap_processors : processors d1 ##ₘ processors d2;
  ap_extensions : extensions d1 ##ₘ extensions d2;
  ap_connectors : connectors d1 ##ₘ connectors d2;
  ap_pipelines : pipelines d1 ##ₘ pipelines d2;
  ap_level : metrics_Level (telemetry d1) = "" ∨ metrics_Level (telemetry d2) = ""
             ∨ metrics_Level (telemetry d1) = metrics_Level (telemetry d2)
}.

Lemma gathers_nil {A} (f : Config -> gmap string A) : f zero_config = ∅ -> gathers f [] zero_config.
Proof. intros E x v. rewrite E, lookup_empty. split; [done|]. by intros (d & ?%elem_of_nil & _). Qed.

Lemma gathers_snoc {A} (f : Config -> gmap string A) l m d c :
  gathers f l m -> f m ##ₘ f d -> f c = f m ∪ f d -> gathers f (l ++ [d]) c.
Proof.
  intros Hm Hd E x v. rewrite E, lookup_union_Some by done. rewrite (Hm x v). setoid_rewrite elem_of_app.
  setoid_rewrite list_elem_of_singleton. naive_solver.
Qed.

(** What is gathered from maps that are apart from [d] is apart from it. *)
Lemma gathers_disjoint {A} (f : Config -> gmap string A) l m d :
  gathers f l m -> (forall d', d' ∈ l -> f d' ##ₘ f d) -> f m ##ₘ f d.
Proof.
  intros Hm Hl. apply map_disjoint_spec. intros x v w (d' & Hd & Hv)%Hm Hw. specialize (Hl d' Hd).
  rewrite map_disjoint_spec in Hl. by eapply Hl.
Qed.

Section Merge.
Context `{GoSortLaws} `{GoMapOrderLaws}.

Lemma merge_level_ok l1 l2 l :
  mergeMetricsLevel l1 l2 = inr l -> l = l1 ∧ (l2 = "" ∨ l2 = l1) ∨ l1 = "" ∧ l = l2.
Proof.
  unfold mergeMetricsLevel. case_decide as Hc; [done|]. case_decide as Hl; intros [= <-].
  - left. split; [done|]. destruct (decide (l2 = "")) as [|Hl2]; [by left|]. destruct (decide (l1 = l2)) as [|Hne]; [by right|tauto].
  - right. split; [|done]. destruct (decide (l1 = "")); tauto.
Qed.

Lemma merge_domain_ok l m d c : merges l m -> merge_domain m d = inr c -> merges (l ++ [d]) c.
Proof.
  intros [Hr He Hp Hx Hc Hpl Hs Hlv]. unfold merge_domain.
  destruct (mergeGenericMaps [receivers m; _]) as [|rs] eqn:E1; [done|]. apply merge2_ok in E1 as [D1 ->].
  destruct (mergeGenericMaps [exporters m; _]) as [|es] eqn:E2; [done|]. apply merge2_ok in E2 as [D2 ->].
  destruct (mergeGenericMaps [processors m; _]) as [|ps] eqn:E3; [done|]. apply merge2_ok in E3 as [D3 ->].
  destruct (mergeGenericMaps [extensions m; _]) as [|xs] eqn:E4; [done|]. apply merge2_ok in E4 as [D4 ->].
  destruct (mergeGenericMaps [connectors m; _]) as [|cs] eqn:E5; [done|]. apply merge2_ok in E5 as [D5 ->].
  unfold mergePipelines. destruct (merge_map _ _ _) as [|pl] eqn:E6; [done|]. apply merge_map_ok in E6 as [D6 ->].
  unfold mergeTelemetry. destruct (mergeMetricsLevel _ _) as [|level] eqn:E7; [done|]. intros [= <-].
  split; try (by eapply gathers_snoc).
  - intros x. cbn [service_extensions]. unfold mergeExtensions. rewrite elem_of_app, Hs. setoid_rewrite elem_of_app.
    setoid_rewrite list_elem_of_singleton. naive_solver.
  - cbn [telemetry metrics_Level]. setoid_rewrite elem_of_app. setoid_rewrite list_elem_of_singleton.
    apply merge_level_ok in E7. naive_solver.
Qed.

Lemma merge_domain_apart l m d :
  merges l m -> (forall d', d' ∈ l -> apart d' d) -> exists c, merge_domain m d = inr c.
Proof.
  intros [Hr He Hp Hx Hc Hpl Hs Hlv] Hl. unfold merge_domain.
  assert (Hok : forall f : Config -> GenericMap, gathers f l m -> (forall d', d' ∈ l -> f d' ##ₘ f d) ->
            mergeGenericMaps [f m; f d] = inr (f m ∪ f d)).
  { intros f Hf Hd. apply merge2_ok. split; [|done]. by eapply gathers_disjoint. }
  rewrite (Hok receivers Hr), (Hok exporters He), (Hok processors Hp), (Hok extensions Hx), (Hok connectors Hc)
    by (intros d' Hd; by apply Hl).
  unfold mergePipelines. rewrite (proj2 (merge_map_ok _ (pipelines m) (pipelines d) (pipelines m ∪ pipelines d))).
  2:{ split; [|done]. eapply gathers_disjoint; [done|]. intros d' Hd. by apply Hl. }
  unfold mergeTelemetry, mergeMetricsLevel. rewrite decide_False; [by eexists|].
  intros (E1 & E2 & E3). destruct Hlv as [|(d' & Hd & Hv)]; [done|]. destruct (ap_level _ _ (Hl d' Hd)) as [E|[E|E]]; congruence.
Qed.

(** The steps of the merge, over the domains in the order of their names. *)
Definition merge_all (r : error + Config) (ds : list Config) : error + Config :=
  foldl (fun r d => match r with inl err => inl err | inr m => merge_domain m d end) r ds.

Lemma merge_all_ok l m ds c : merges l m -> merge_all (inr m) ds = inr c -> merges (l ++ ds) c.
Proof.
  revert l m. induction ds as [|d ds IH]; intros l m Hm; cbn [merge_all foldl].
  - intros [= <-]. by rewrite app_nil_r.
  - destruct (merge_domain m d) as [err|m'] eqn:E.
    + assert (Hinl : forall ds', merge_all (inl err) ds' = inl err) by (induction ds'; done).
      unfold merge_all in Hinl. by rewrite Hinl.
    + intros Hc. change (d :: ds) with ([d] ++ ds). rewrite app_assoc. eapply IH; [|exact Hc]. by eapply merge_domain_ok.
Qed.

(** A merge that succeeds had no processor twice. *)
Lemma merge_domain_processors m d c : merge_domain m d = inr c -> processors m ##ₘ processors d.
Proof.
  unfold merge_domain. do 2 (case_match; [done|]). destruct (mergeGenericMaps [processors m; _]) as [|ps] eqn:E; [done|].
  by apply merge2_ok in E as [? _].
Qed.

Lemma merge_all_processors l m ds c :
  merges l m -> merge_all (inr m) ds = inr c ->
  (forall d d', d ∈ l -> d' ∈ ds -> processors d ##ₘ processors d')
  ∧ forall ds1 d ds2 d', ds = ds1 ++ d :: ds2 -> d' ∈ ds1 -> processors d' ##ₘ processors d.
Proof.
  revert l m. induction ds as [|d ds IH]; intros l m Hm; cbn [merge_all foldl].
  - intros _. split; [by intros ? ? _ ?%elem_of_nil|by intros [] ? ? ?].
  - destruct (merge_domain m d) as [err|m'] eqn:E.
    + assert (Hinl : forall ds', merge_all (inl err) ds' = inl err) by (induction ds'; done).
      unfold merge_all in Hinl. by rewrite Hinl.
    + intros Hc. destruct (IH (l ++ [d]) m') as [Hl Hds]; [by eapply merge_domain_ok|done|].
      assert (Hd : forall d0, d0 ∈ l -> processors d0 ##ₘ processors d).
      { intros d0 Hd0. apply merge_domain_processors in E. apply map_disjoint_spec. intros x v w Hv Hw.
        rewrite map_disjoint_spec in E. eapply (E x v w); [|done]. apply (mg_processors _ _ Hm). by exists d0. }
      split.
      * intros d1 d2 Hd1 [->|Hd2]%elem_of_cons; [by apply Hd|]. apply Hl; [set_solver|done].
      * intros [|d1 ds1] d2 ds2 d' [= E1 E2] Hd'; [by apply elem_of_nil in Hd'|]. subst d1.
        apply elem_of_cons in Hd' as [->|Hd']; [apply Hl; [set_solver|rewrite E2; set_solver]|]. by eapply Hds.
Qed.

Lemma merge_all_apart l m ds :
  merges l m -> (forall d d', d ∈ l -> d' ∈ ds -> apart d d') ->
  (forall ds1 d ds2 d', ds = ds1 ++ d :: ds2 -> d' ∈ ds1 -> apart d' d) -> exists c, merge_all (inr m) ds = inr c.
Proof.
  revert l m. induction ds as [|d ds IH]; intros l m Hm Hl Hds; cbn [merge_all foldl]; [by eexists|].
  destruct (merge_domain_apart l m d) as [m' E]; [done|intros d' Hd; apply Hl; [done|by left]|]. rewrite E.
  apply (IH (l ++ [d]) m'); [by eapply merge_domain_ok| |].
  - intros d1 d2 [Hd1| ->%list_elem_of_singleton]%elem_of_app Hd2; [by apply Hl; [|right]|].
    apply list_elem_of_split in Hd2 as (ds1 & ds2 & ->). apply (Hds (d :: ds1) d2 ds2); [done|by left].
  - intros ds1 d1 ds2 d' -> Hd. apply (Hds (d :: ds1) d1 ds2); [done|by right].
Qed.

(** The domains of a map, in the order of the merge. *)
Lemma merge_configs_all (domains : list (string * Config)) :
  NoDup domains.*1 ->
  exists ds, ds ≡ₚ domains ∧ MergeConfigs (list_to_map domains) = merge_all (inr zero_config) ds.*2.
Proof.
  intros Hnd. unfold MergeConfigs. set (names := SortFunc _ _).
  assert (Hn : names ≡ₚ domains.*1).
  { unfold names. rewrite SortFunc_perm, (map_order_perm (map_to_list (list_to_map domains))), map_to_list_to_map; done. }
  exists ((fun n => (n, default zero_config ((list_to_map domains : gmap string Config) !! n))) <$> names). split.
  - rewrite Hn, <-list_fmap_compose. transitivity (id <$> domains); [|by rewrite list_fmap_id]. apply Permutation_refl'.
    apply list_fmap_ext. intros k [n d] Hk. simpl. f_equal.
    rewrite (proj1 (elem_of_list_to_map domains n d Hnd)); [done|]. by eapply list_elem_of_lookup_2.
  - unfold merge_all. rewrite <-list_fmap_compose. generalize (inr zero_config : error + Config). clear Hn. induction names as [|n names IH]; intros r; [done|].
    cbn [foldl fmap list_fmap]. apply IH.
Qed.

Lemma merges_same l l' c : (forall d, d ∈ l <-> d ∈ l') -> merges l c -> merges l' c.
Proof.
  intros Hl [Hr He Hp Hx Hc Hpl Hs Hlv].
  assert (Hg : forall A (f : Config -> gmap string A), gathers f l c -> gathers f l' c).
  { intros A f Hf x v. rewrite (Hf x v). by setoid_rewrite Hl. }
  split; auto.
  - intros x. rewrite Hs. by setoid_rewrite Hl.
  - setoid_rewrite <-Hl. done.
Qed.

Lemma merges_zero : merges [] zero_config.
Proof.
  split; try by apply gathers_nil.
  - intros x. simpl. split; [by intros ?%elem_of_nil|]. by intros (d & ?%elem_of_nil & _).
  - by left.
Qed.

Theorem merge_configs_merges (domains : list (string * Config)) c :
  NoDup domains.*1 -> MergeConfigs (list_to_map domains) = inr c -> merges domains.*2 c.
Proof.
  intros Hnd. destruct (merge_configs_all domains Hnd) as (ds & Hds & ->). intros Hc.
  apply (merges_same ds.*2); [intros d; by rewrite Hds|]. by apply (merge_all_ok [] zero_config), Hc; apply merges_zero.
Qed.

(** The position of a domain in the merge. *)
Lemma fmap_snd_split (ds : list (string * Config)) ds1 d ds2 :
  ds.*2 = ds1 ++ d :: ds2 -> exists l1 n l2, ds = l1 ++ (n, d) :: l2 ∧ ds1 = l1.*2.
Proof.
  revert ds1. induction ds as [|[n x] ds IH]; intros [|x1 ds1]; [done|done|..]; intros [= E1 E2].
  - subst. exists [], n, ds. done.
  - destruct (IH _ E2) as (l1 & n' & l2 & -> & ->). exists ((n, x) :: l1), n', l2. by subst.
Qed.

Theorem merge_configs_processors (domains : list (string * Config)) c n d n' d' :
  NoDup domains.*1 -> MergeConfigs (list_to_map domains) = inr c ->
  (n, d) ∈ domains -> (n', d') ∈ domains -> n <> n' -> processors d ##ₘ processors d'.
Proof.
  intros Hnd. destruct (merge_configs_all domains Hnd) as (ds & Hds & ->). intros Hc. rewrite <-Hds.
  intros Hd Hd' Hne. destruct (merge_all_processors [] zero_config ds.*2 c merges_zero Hc) as [_ Hp].
  apply list_elem_of_split in Hd as (l1 & l2 & E). rewrite E in Hd'.
  apply elem_of_app in Hd' as [Hd'|[Heq|Hd']%elem_of_cons]; [| congruence |].
  - symmetry. apply (Hp l1.*2 d l2.*2 d'); [by rewrite E, fmap_app|]. by apply (list_elem_of_fmap_2 snd _ (n', d')).
  - apply list_elem_of_split in Hd' as (l3 & l4 & E'). apply (Hp (l1 ++ (n, d) :: l3).*2 d' l4.*2 d).
    + rewrite E, E'. change ((n, d) :: l3 ++ (n', d') :: l4) with (((n, d) :: l3) ++ (n', d') :: l4).
      by rewrite app_assoc, fmap_app.
    + apply (list_elem_of_fmap_2 snd _ (n, d)). set_solver.
Qed.

Theorem merge_configs_apart (domains : list (string * Config)) :
  NoDup domains.*1 ->
  (forall n d n' d', (n, d) ∈ domains -> (n', d') ∈ domains -> n <> n' -> apart d d') ->
  exists c, MergeConfigs (list_to_map domains) = inr c.
Proof.
  intros Hnd Ha. destruct (merge_configs_all domains Hnd) as (ds & Hds & ->).
  assert (Hnd' : NoDup ds.*1) by by rewrite Hds.
  apply (merge_all_apart []); [apply merges_zero|by intros d d' ?%elem_of_nil|].
  intros ds1 d ds2 d' E Hd.
  apply fmap_snd_split in E as (l1 & n & l2 & -> & ->). apply list_elem_of_fmap in Hd as ([n' d''] & -> & Hin).
  apply (Ha n' _ n); [rewrite <-Hds; set_solver..|]. intros ->.
  rewrite fmap_app in Hnd'. apply NoDup_app in Hnd' as (_ & Hno & _). apply (Hno n); [|by left].
  by apply (list_elem_of_fmap_2 fst _ (n, d'')).
Qed.
End Merge.
