(* ===== verification/Destinations.v ===== *)
(** * Destinations of telemetry (src/common/config)

    Each type of destination has a configurer that adds an exporter and its
    pipelines to the collector's configuration.  This file holds the
    interface (root.go, [Configer]), what a configurer may do to the
    configuration it shares with all the others ([contribution]), the proof
    rules that show that it does no more, and the helpers of utils.go and
    secret_env.go.  The configurers themselves are in DestinationTypes. *)

From Stdlib Require Import Ascii.
From S2P Require Import Prelude.
From S2P Require Import GoStrings.
From S2P Require Import K8s.
From S2P Require Import Api.
From S2P Require Import CollectorConfig.

(** ** Code that changes a configuration and may fail

    The configuration is shared and changed in place: what was written before
    an error stays. *)
Definition ConfigM (A : Type) : Type := Config -> (error + A) * Config.

#[export] Instance config_ret : MRet ConfigM := fun A a c => (inr a, c).
#[export] Instance config_bind : MBind ConfigM := fun A B f m c =>
  match m c with (inl err, c') => (inl err, c') | (inr a, c') => f a c' end.

Definition fails {A} (err : error) : ConfigM A := fun c => (inl err, c).
Definition modify (f : Config -> Config) : ConfigM unit := fun c => (inr tt, f c).
Definition try {A} (r : error + A) : ConfigM A := fun c => (r, c).

Definition add_exporter_config (name : string) (cfg : GenericMap) : ConfigM unit :=
  modify (set_exporters (insert name (GMap cfg))).
Definition add_processor_config (name : string) (cfg : GenericMap) : ConfigM unit :=
  modify (set_processors (insert name (GMap cfg))).
(** An extension, and its entry in [Service.Extensions]. *)
Definition add_extension_config (name : string) (cfg : GenericMap) : ConfigM unit :=
  modify (set_extensions (insert name (GMap cfg))).
Definition use_extension (name : string) : ConfigM unit :=
  modify (set_service_extensions (fun l => l ++ [name])).

(** [if enabled { Pipelines[name] = p; pipelineNames = append(pipelineNames, name) }]:
    the names to append. *)
Definition add_pipeline_if (enabled : bool) (name : string) (p : Pipeline) : ConfigM (list string) := fun c =>
  if enabled then (inr [name], set_pipelines (insert name p) c) else (inr [], c).

Definition exports_to (exporterName : string) : Pipeline := mkPipeline [] [] [exporterName].

(** ** The interface (root.go) *)

Record Configer := mkConfiger
  { DestType : string;
    ModifyConfig : ExporterConfigurer -> ConfigM (list string) }.

(** One round of the loop. *)
Definition load_configer (r : error + gmap string Configer) (configer : Configer) : error + gmap string Configer :=
  match r with
  | inl err => inl err
  | inr configers =>
      match configers !! DestType configer with
      | Some _ => inl (ENew ("duplicate configer for " +:+ DestType configer))
      | None => inr (<[DestType configer := configer]> configers)
      end
  end.
Definition LoadConfigers (availableConfigers : list Configer) : error + gmap string Configer :=
  foldl load_configer (inr ∅) availableConfigers.

(** A profiles pipeline of a destination. *)
Definition addProfilesPipeline (prefix destID exporterName : string) : ConfigM string := fun c =>
  let name := "profiles/" +:+ prefix +:+ "-" +:+ destID in
  (inr name, set_pipelines (insert name (exports_to exporterName)) c).

Fixpoint map_bytes (f : ascii -> ascii) (s : string) : string :=
  match s with EmptyString => EmptyString | String c s => String (f c) (map_bytes f s) end.

(** A text in which a back quote stands for a double quote. *)
Definition quoted (s : string) : string := map_bytes (fun c => if decide (c = "`"%char) then "034"%char else c) s.

Definition errorMissingKey (quote : string -> string) (key : string) : error :=
  ENew (quoted "key (`" +:+ quote key +:+ quoted "`) not specified, destination will not be configured").

(** ** Secrets (secret_env.go)

    The name of a destination is a DNS subdomain, so its runes are bytes. *)

Definition env_safe (c : ascii) : bool :=
  let n := Ascii.nat_of_ascii c in
  bool_decide ((97 ≤ n ∧ n ≤ 122) ∨ (65 ≤ n ∧ n ≤ 90) ∨ (48 ≤ n ∧ n ≤ 57) ∨ n = 95).

Definition envSafeDestinationID (destID : string) : string :=
  if decide (destID = "") then "unknown"
  else map_bytes (fun c => if env_safe c then c else "_"%char) destID.

Definition DestSecretEnvPrefix (destID : string) : string := "ODIGOS_DEST_" +:+ envSafeDestinationID destID +:+ "_".
Definition SecretEnvVarName (fieldName destID : string) : string := DestSecretEnvPrefix destID +:+ fieldName.
Definition SecretEnvPlaceholder (fieldName : string) (dest : ExporterConfigurer) : string :=
  "${" +:+ SecretEnvVarName fieldName (GetID dest) +:+ "}".
Definition SanitizeDestinationID (destID : string) : string :=
  if decide (destID = "") then "unknown" else replace_all "." "-" destID.

(** ** What a configurer may do *)

(** The prefixes of pipelines that carry a signal. *)
Definition pipeline_signals : list string := ["traces"; "metrics"; "logs"; "profiles"].

(** A pipeline of a destination before the gateway connects it. *)
Record dest_pipeline_ok (c : Config) (p : Pipeline) : Prop := {
  dp_receivers : Receivers p = [];
  dp_exporters : Exporters p <> [] ∧ Forall (fun e => is_Some (exporters c !! e)) (Exporters p);
  dp_processors : Forall (fun x => is_Some (processors c !! x) ∧ has_prefix "batch/" x = false
                                   ∧ x <> "odigostrafficmetrics") (Processors p)
                  ∧ NoDup (Processors p)
}.

(** The names of the gateway's connectors (GatewayConfig). *)
Definition connector_name (x : string) : bool :=
  has_prefix "forward/" x || has_prefix "odigosrouterconnector/" x
  || bool_decide (x = "servicegraph") || bool_decide (x = "serviceio").

(** The components of [c'] are those of [c], and more exporters, processors
    and extensions. *)
Record extends (c c' : Config) : Prop := {
  ex_receivers : receivers c' = receivers c;
  ex_connectors : connectors c' = connectors c;
  ex_telemetry : telemetry c' = telemetry c;
  ex_exporters : dom (exporters c) ⊆ dom (exporters c');
  ex_new_exporters e : is_Some (exporters c' !! e) -> is_Some (exporters c !! e) ∨ connector_name e = false;
  ex_processors : dom (processors c) ⊆ dom (processors c');
  ex_extensions : dom (extensions c) ⊆ dom (extensions c');
  ex_service : exists l, service_extensions c' = service_extensions c ++ l
                         ∧ Forall (fun x => is_Some (extensions c' !! x)) l
}.

(** After the signals [used] were handled, the pipelines [names] were added;
    their names end in [suffix]. *)
Record builds (suffix : string) (c0 : Config) (used names : list string) (c : Config) : Prop := {
  bu_extends : extends c0 c;
  bu_names : Forall (fun n => exists s, s ∈ used ∧ n = s +:+ "/" +:+ suffix) names ∧ NoDup names;
  bu_used : used ⊆ pipeline_signals;
  bu_new n : n ∈ names -> exists p, pipelines c !! n = Some p ∧ dest_pipeline_ok c p;
  bu_old n : n ∉ names -> pipelines c !! n = pipelines c0 !! n
}.

(** A configurer that succeeds adds pipelines of its own; one that fails
    leaves the pipelines alone. *)
Definition contribution (suffix : string) (c0 : Config) (r : error + list string) (c : Config) : Prop :=
  match r with
  | inl _ => extends c0 c ∧ pipelines c = pipelines c0
  | inr names => exists used, builds suffix c0 used names c
  end.

(** What a configurer promises to the gateway for one destination; the suffix
    sets the pipelines of the destination apart. *)
Definition keeps_promise (configer : Configer) (suffix : string) (dest : ExporterConfigurer) : Prop :=
  forall c0, let r := ModifyConfig configer dest c0 in contribution suffix c0 r.1 r.2.

(** A configurer that keeps it for all of them. *)
Class ConfigerLaws (configer : Configer) (suffix : ExporterConfigurer -> string) : Prop := {
  contributes dest : keeps_promise configer (suffix dest) dest
}.

(** ** Proof rules *)

#[export] Instance extends_preorder : PreOrder extends.
Proof.
  split.
  - intros c. split; try done; [by left|]. exists []. by rewrite app_nil_r.
  - intros c1 c2 c3 H12 H23. split; try (etrans; [apply H23|apply H12]); try (etrans; [apply H12|apply H23]).
    { intros e He. destruct (ex_new_exporters _ _ H23 e He) as [He'|]; [by apply H12|by right]. }
    destruct H12 as [_ _ _ _ _ _ He12 (l1 & E1 & F1)], H23 as [_ _ _ _ _ _ He23 (l2 & E2 & F2)].
    exists (l1 ++ l2). split; [by rewrite E2, E1, app_assoc|]. apply Forall_app. split; [|done].
    eapply Forall_impl; [exact F1|]. intros x. cbn. rewrite <-!elem_of_dom. set_solver.
Qed.

Lemma extends_exporter n v c : connector_name n = false -> extends c (set_exporters (insert n v) c).
Proof.
  intros Hn. split; simpl; try done; [set_solver| |exists []; by rewrite app_nil_r].
  intros e [->|[_ He]]%lookup_insert_is_Some; [by right|by left].
Qed.
Lemma extends_processor n v c : extends c (set_processors (insert n v) c).
Proof. split; simpl; try done; [by left|set_solver|]. exists []. by rewrite app_nil_r. Qed.
Lemma extends_extension n v c : extends c (set_extensions (insert n v) c).
Proof. split; simpl; try done; [by left|set_solver|]. exists []. by rewrite app_nil_r. Qed.
Lemma extends_service n c :
  is_Some (extensions c !! n) -> extends c (set_service_extensions (fun l => l ++ [n]) c).
Proof. intros Hn. split; simpl; try done; [by left|]. exists [n]. split; [done|]. by constructor. Qed.
Lemma extends_pipelines f c : extends c (set_pipelines f c).
Proof. split; simpl; try done; [by left|]. exists []. by rewrite app_nil_r. Qed.

Lemma dest_pipeline_extends c c' p : extends c c' -> dest_pipeline_ok c p -> dest_pipeline_ok c' p.
Proof.
  intros He [Hr [Hx Hf] [Hp Hn]]. split; [done|split; [done|]|split; [|done]].
  - eapply Forall_impl; [exact Hf|]. intros e. cbn. rewrite <-!elem_of_dom. pose proof (ex_exporters _ _ He). set_solver.
  - eapply Forall_impl; [exact Hp|]. intros e. cbn. rewrite <-!elem_of_dom. pose proof (ex_processors _ _ He). set_solver.
Qed.

Lemma builds_start s c : builds s c [] [] c.
Proof. by split; [|split; constructor|set_solver|set_solver|]. Qed.

(** A step that adds components and leaves the pipelines alone. *)
Lemma builds_extends s c0 used names c c' :
  builds s c0 used names c -> extends c c' -> pipelines c' = pipelines c -> builds s c0 used names c'.
Proof.
  intros Hb He Hp. split; [by etrans; [apply Hb|]|apply Hb|by eapply bu_used| |]; intros n Hn; rewrite Hp.
  - destruct (bu_new _ _ _ _ _ Hb n Hn) as (p & Hl & Hok). exists p. split; [done|]. by eapply dest_pipeline_extends.
  - by apply Hb.
Qed.

Lemma str_app_inv_tail (a b t : string) : a +:+ t = b +:+ t -> a = b.
Proof.
  assert (Hlen : forall u v : string, String.length (u +:+ v) = String.length u + String.length v).
  { induction u as [|x u IH]; intros v; [done|]. rewrite str_app_cons. simpl. by rewrite IH. }
  intros E. assert (Hl : String.length a = String.length b).
  { apply (f_equal String.length) in E. rewrite !Hlen in E. lia. }
  clear Hlen. revert b E Hl. induction a as [|x a IH]; intros [|y b] E Hl; [done|done|done|].
  rewrite !str_app_cons in E. simpl in Hl. injection E as <- E. f_equal. apply IH; [done|lia].
Qed.

(** A step that adds a pipeline of a signal that was not handled before. *)
Lemma builds_pipeline s c0 used names c sig n p :
  builds s c0 used names c -> n = sig +:+ "/" +:+ s -> sig ∈ pipeline_signals -> sig ∉ used ->
  dest_pipeline_ok c p ->
  builds s c0 (sig :: used) (names ++ [n]) (set_pipelines (insert n p) c).
Proof.
  intros Hb -> Hsig Hu Hp. set (n := sig +:+ "/" +:+ s).
  assert (Hnew : n ∉ names).
  { intros Hn. destruct (bu_names _ _ _ _ _ Hb) as [Hf _]. rewrite Forall_forall in Hf.
    destruct (Hf n Hn) as (s' & Hs' & E). apply str_app_inv_tail in E. by subst. }
  pose proof (extends_pipelines (insert n p) c) as He. split.
  - etrans; [apply Hb|done].
  - destruct (bu_names _ _ _ _ _ Hb) as [Hf Hnd]. split.
    + apply Forall_app. split; [|constructor; [|done]; exists sig; set_solver].
      eapply Forall_impl; [exact Hf|]. intros n' (s' & Hs' & ->). exists s'. set_solver.
    + apply NoDup_app. split_and!; [done|set_solver|apply NoDup_singleton].
  - pose proof (bu_used _ _ _ _ _ Hb). set_solver.
  - intros n' Hn'. simpl. destruct (decide (n' = n)) as [->|Hne].
    + rewrite lookup_insert_eq. exists p. split; [done|]. by eapply dest_pipeline_extends.
    + rewrite lookup_insert_ne by done. destruct (bu_new _ _ _ _ _ Hb n') as (p' & ? & ?); [set_solver|].
      exists p'. split; [done|]. by eapply dest_pipeline_extends.
  - intros n' Hn'. simpl. rewrite lookup_insert_ne by set_solver. apply Hb. set_solver.
Qed.

(** The signal was handled: it was not asked for. *)
Lemma builds_skip s c0 used names c sig :
  builds s c0 used names c -> sig ∈ pipeline_signals -> builds s c0 (sig :: used) (names ++ []) c.
Proof.
  intros Hb Hsig. rewrite app_nil_r. split; try apply Hb.
  - destruct (bu_names _ _ _ _ _ Hb) as [Hf Hnd]. split; [|done].
    eapply Forall_impl; [exact Hf|]. intros n' (s' & Hs' & ->). exists s'. set_solver.
  - pose proof (bu_used _ _ _ _ _ Hb). set_solver.
Qed.
