(* ===== verification/DestinationTypes.v ===== *)
(** * The configurers (src/common/config, one file per destination)

    The helpers for endpoints (utils.go), configurers, and for each of them
    the proof that it keeps its promise to the gateway ([ConfigerLaws]).
    [Jaeger], [Honeycomb] and the like are named as their Go types; package
    net/url is the class [GoUrl]. *)

From Stdlib Require Import Ascii.
From S2P Require Import Prelude.
From S2P Require Import GoStrings.
From S2P Require Import K8s.
From S2P Require Import Api.
From S2P Require Import GoLib.
From S2P Require Import CollectorConfig.
From S2P Require Import Destinations.

(** ** Endpoints (utils.go) *)

(** A parsed URL; [User] is what the user information prints as. *)
Record URL := mkURL { Scheme : string; User : option string; Host : string; Path : string; RawQuery : string }.

Class GoUrl := {
  url_parse : string -> string + URL;
  url_string : URL -> string;
  url_Port : URL -> string;
  url_Hostname : URL -> string;
  SplitHostPort : string -> string + (string * string);
  JoinHostPort : string -> string -> string
}.

Definition urlHostContainsPort (host : string) : bool :=
  match split_last "]" host with
  | Some (_, rest) => has_prefix ":" rest
  | None => contains ":" host
  end.

Definition getBooleanConfig (currentValue deprecatedValue : string) : bool :=
  let lowerCaseValue := to_lower currentValue in
  bool_decide (lowerCaseValue = "true" ∨ lowerCaseValue = deprecatedValue).

Definition addProtocol (s : string) : string :=
  if has_prefix "http://" s || has_prefix "https://" s then s else "http://" +:+ s.

Section Endpoints.
Context `{GoUrl}.

Definition checkScheme (encrypted : bool) (scheme : string) : option error :=
  let valid := bool_decide (scheme ∈ ["grpc"; "http"; "grpcs"; "https"]) in
  let secure := bool_decide (scheme ∈ ["https"; "grpcs"]) in
  if encrypted then
    if negb valid || negb secure
    then Some (ENew ("unexpected scheme " +:+ scheme +:+ " for encrypted gRPC endpoint")) else None
  else if secure then Some (ENew "grpc endpoint does not support TLS")
  else if negb valid
    then Some (ENew ("unexpected scheme " +:+ scheme +:+ " for unencrypted gRPC endpoint")) else None.

Definition parseOtlpGrpcUrl (rawURL : string) (encrypted : bool) : error + string :=
  let rawURL := trim_space rawURL in
  let defaultScheme := if encrypted then "grpcs" else "grpc" in
  let urlWithScheme := if contains "://" rawURL then rawURL else defaultScheme +:+ "://" +:+ rawURL in
  match url_parse urlWithScheme with
  | inl err => inl (ENew err)
  | inr parsedUrl =>
      match checkScheme encrypted (Scheme parsedUrl) with
      | Some err => inl err
      | None =>
          if decide (Path parsedUrl <> "") then inl (ENew ("unexpected path for gRPC endpoint " +:+ Path parsedUrl))
          else if decide (RawQuery parsedUrl <> "")
          then inl (ENew ("unexpected query for gRPC endpoint " +:+ RawQuery parsedUrl))
          else match User parsedUrl with
          | Some user => inl (ENew ("unexpected user info for gRPC endpoint " +:+ user))
          | None =>
              let hostport := if urlHostContainsPort (Host parsedUrl) then Host parsedUrl
                              else Host parsedUrl +:+ ":4317" in
              match SplitHostPort hostport with
              | inl err => inl (ENew err)
              | inr (host, port) =>
                  if decide (host = "") then inl (ENew ("missing host in gRPC endpoint " +:+ rawURL))
                  else inr ((if contains ":" host then "[" +:+ host +:+ "]" else host) +:+ ":" +:+ port)
              end
          end
      end
  end.

Definition parseOtlpHttpEndpoint (rawUrl defaultPort requiredPath : string) : error + string :=
  match url_parse (trim_space rawUrl) with
  | inl err => inl (EWrap "failed to parse otlp http endpoint" (ENew err))
  | inr u =>
      if decide (Scheme u <> "http" ∧ Scheme u <> "https")
      then inl (ENew ("invalid otlp http endpoint scheme: " +:+ Scheme u))
      else
        let u := if decide (defaultPort <> "" ∧ url_Port u = "")
                 then mkURL (Scheme u) (User u) (JoinHostPort (url_Hostname u) defaultPort) (Path u) (RawQuery u)
                 else u in
        if decide (Path u = "")
        then inr (url_string (mkURL (Scheme u) (User u) (Host u) requiredPath (RawQuery u)))
        else if decide (requiredPath <> "" ∧ Path u <> requiredPath)
        then inl (ENew ("invalid otlp http endpoint path: " +:+ Path u))
        else inr (url_string u)
  end.
End Endpoints.

(** ** Configurers

    [per_signal] is the sequence of the [if isTracingEnabled(dest) { ... }]
    blocks that most of them end with. *)

Fixpoint per_signal (l : list (bool * string * Pipeline)) : ConfigM (list string) :=
  match l with
  | [] => mret []
  | (enabled, name, p) :: l =>
      names ← add_pipeline_if enabled name p;
      rest ← per_signal l;
      mret (names ++ rest)
  end.

Section Types.
Context `{GoUrl} `{GoLibrary}.

Definition tracing (dest : ExporterConfigurer) : bool := isTracingEnabled (GetSignals dest).
Definition metrics (dest : ExporterConfigurer) : bool := isMetricsEnabled (GetSignals dest).
Definition logging (dest : ExporterConfigurer) : bool := isLoggingEnabled (GetSignals dest).
Definition secret (field : string) (dest : ExporterConfigurer) : gval := GStr (SecretEnvPlaceholder field dest).

Definition Lightstep : Configer := mkConfiger "lightstep" (fun dest =>
  let s := "lightstep-" +:+ GetID dest in
  if tracing dest then
    let exporterName := "otlp_grpc/" +:+ s in
    _ ← add_exporter_config exporterName (gm
          [("endpoint", GStr "ingest.lightstep.com:443");
           ("headers", GMap (gm [("lightstep-access-token", secret "LIGHTSTEP_ACCESS_TOKEN" dest)]))]);
    per_signal [(true, "traces/" +:+ s, exports_to exporterName)]
  else mret []).

Definition Sentry : Configer := mkConfiger "sentry" (fun dest =>
  if negb (tracing dest) then fails (ENew "Sentry is not enabled for any supported signals, skipping")
  else
    let exporterName := "sentry/" +:+ GetID dest in
    _ ← add_exporter_config exporterName (gm [("dsn", secret "DSN" dest)]);
    per_signal [(true, "traces/sentry-" +:+ GetID dest, exports_to exporterName)]).

Definition Nop : Configer := mkConfiger "nop" (fun dest =>
  let exporterName := "nop/" +:+ GetID dest in
  _ ← add_exporter_config exporterName (gm []);
  per_signal [(tracing dest, "traces/nop-" +:+ GetID dest, exports_to exporterName);
              (metrics dest, "metrics/nop-" +:+ GetID dest, exports_to exporterName);
              (logging dest, "logs/nop-" +:+ GetID dest, exports_to exporterName)]).

Definition SumoLogic : Configer := mkConfiger "sumologic" (fun dest =>
  let s := "sumologic-" +:+ GetID dest in
  let exporterName := "otlp_http/" +:+ s in
  _ ← add_exporter_config exporterName (gm [("endpoint", secret "SUMOLOGIC_COLLECTION_URL" dest)]);
  per_signal [(tracing dest, "traces/" +:+ s, exports_to exporterName);
              (logging dest, "logs/" +:+ s, exports_to exporterName);
              (metrics dest, "metrics/" +:+ s, exports_to exporterName)]).

Definition TelemetryHub : Configer := mkConfiger "telemetryhub" (fun dest =>
  let uniqueUri := "telemetryhub-" +:+ GetID dest in
  let exporterName := "otlp_grpc/" +:+ uniqueUri in
  _ ← add_exporter_config exporterName (gm
        [("endpoint", GStr "https://otlp.telemetryhub.com:4317");
         ("headers", GMap (gm [("x-telemetryhub-key", secret "TELEMETRY_HUB_API_KEY" dest)]))]);
  per_signal [(tracing dest, "traces/" +:+ uniqueUri, exports_to exporterName);
              (metrics dest, "metrics/" +:+ uniqueUri, exports_to exporterName);
              (logging dest, "logs/" +:+ uniqueUri, exports_to exporterName)]).

Definition KloudMate : Configer := mkConfiger "kloudmate" (fun dest =>
  let uniqueUri := "kloudmate-" +:+ GetID dest in
  let exporterName := "otlp_http/" +:+ uniqueUri in
  _ ← add_exporter_config exporterName (gm
        [("endpoint", GStr "https://otel.kloudmate.com:4318");
         ("headers", GMap (gm [("Authorization", secret "KLOUDMATE_API_KEY" dest)]))]);
  per_signal [(tracing dest, "traces/" +:+ uniqueUri, exports_to exporterName);
              (metrics dest, "metrics/" +:+ uniqueUri, exports_to exporterName);
              (logging dest, "logs/" +:+ uniqueUri, exports_to exporterName)]).

Definition Quickwit : Configer := mkConfiger "quickwit" (fun dest =>
  match GetConfig dest !! "QUICKWIT_URL" with
  | Some url =>
      let s := "quickwit-" +:+ GetID dest in
      let exporterName := "otlp_grpc/" +:+ s in
      _ ← add_exporter_config exporterName (gm
            [("endpoint", GStr url); ("tls", GMap (gm [("insecure", GBool true)]))]);
      per_signal [(tracing dest, "traces/" +:+ s, exports_to exporterName);
                  (logging dest, "logs/" +:+ s, exports_to exporterName)]
  | None => fails (ENew "Quickwit url not specified, gateway will not be configured for Quickwit")
  end).

Definition AlibabaCloud : Configer := mkConfiger "alibabacloud" (fun dest =>
  let uniqueUri := "alibaba-" +:+ GetID dest in
  match GetConfig dest !! "ALIBABA_ENDPOINT" with
  | None => fails (errorMissingKey strconv_Quote "ALIBABA_ENDPOINT")
  | Some endpoint =>
      endpoint ← try (parseOtlpGrpcUrl endpoint false);
      let exporterName := "otlp_grpc/" +:+ uniqueUri in
      _ ← add_exporter_config exporterName (gm
            [("endpoint", GStr endpoint);
             ("headers", GMap (gm [("Authentication", secret "ALIBABA_TOKEN" dest)]));
             ("tls", GMap (gm [("insecure", GBool true)]))]);
      per_signal [(tracing dest, "traces/" +:+ uniqueUri, exports_to exporterName)]
  end).

Definition GoogleCloudStorage : Configer := mkConfiger "gcs" (fun dest =>
  if negb (tracing dest) && negb (logging dest)
  then fails (ENew "GoogleCloudStorage is not enabled for any supported signals, skipping")
  else
    let bucket := default "odigos-otlp" (GetConfig dest !! "GCS_BUCKET") in
    let exporterName := "googlecloudstorage/" +:+ GetID dest in
    _ ← add_exporter_config exporterName (gm [("pcs", GMap (gm [("bucket", GStr bucket)]))]);
    per_signal [(logging dest, "logs/gcs-" +:+ GetID dest, exports_to exporterName);
                (tracing dest, "traces/gcs-" +:+ GetID dest, exports_to exporterName)]).

Definition Axiom_ : Configer := mkConfiger "axiom" (fun dest =>
  let dataset := default "default" (GetConfig dest !! "AXIOM_DATASET") in
  let s := "axiom-" +:+ GetID dest in
  let axiomExporterName := "otlp_http/" +:+ s in
  _ ← add_exporter_config axiomExporterName (gm
        [("compression", GStr "gzip");
         ("endpoint", GStr "https://api.axiom.co");
         ("headers", GMap (gm [("authorization", GStr ("Bearer " +:+ SecretEnvPlaceholder "AXIOM_API_TOKEN" dest));
                               ("x-axiom-dataset", GStr dataset)]))]);
  per_signal [(tracing dest, "traces/" +:+ s, exports_to axiomExporterName);
              (logging dest, "logs/" +:+ s, exports_to axiomExporterName)]).

Definition Last9 : Configer := mkConfiger "last9" (fun dest =>
  match GetConfig dest !! "LAST9_OTLP_ENDPOINT" with
  | None => fails (ENew (quoted
      "Last9 OpenTelemetry Endpoint key(`LAST9_OTLP_ENDPOINT`) not specified, Last9 will not be configured"))
  | Some l9OtlpEndpoint =>
      let s := "last9-" +:+ GetID dest in
      let exporterName := "otlp_grpc/" +:+ s in
      _ ← add_exporter_config exporterName (gm
            [("endpoint", GStr l9OtlpEndpoint);
             ("headers", GMap (gm [("Authorization", secret "LAST9_OTLP_BASIC_AUTH_HEADER" dest)]))]);
      per_signal [(tracing dest, "traces/" +:+ s, exports_to exporterName);
                  (metrics dest, "metrics/" +:+ s, exports_to exporterName);
                  (logging dest, "logs/" +:+ s, exports_to exporterName)]
  end).

(** The metrics pipeline is added whatever the signals of the destination. *)
Definition SignalFx : Configer := mkConfiger "signalfx" (fun dest =>
  let config := GetConfig dest in
  let realm := map_get config "SIGNALFX_REALM" in
  let s := "signalfx-" +:+ GetID dest in
  let exporterName := "signalfx/" +:+ GetID dest in
  let caPem := map_get config "SIGNALFX_CA_PEM" in
  let insecureSkipVerify := bool_decide (map_get config "SIGNALFX_INSECURE_SKIP_VERIFY" = "true") in
  let tlsConfig :=
    (if decide (caPem <> "") then [("ca_file", GStr ("/etc/signalfx/certs" +:+ "/" +:+ "SIGNALFX_CA_PEM"))] else [])
    ++ [("insecure_skip_verify", GBool insecureSkipVerify)] in
  let exporterConfig :=
    [("access_token", secret "SIGNALFX_ACCESS_TOKEN" dest);
     ("realm", GStr realm);
     ("api_url", GStr ("https://api." +:+ realm +:+ ".signalfx.com"));
     ("ingest_url", GStr ("https://ingest." +:+ realm +:+ ".signalfx.com"))] in
  _ ← add_exporter_config exporterName (gm (exporterConfig
        ++ (if bool_decide (caPem <> "") || insecureSkipVerify then [("tls", GMap (gm tlsConfig))] else [])));
  per_signal [(true, "metrics/" +:+ s, exports_to exporterName)]).

Definition Traceloop : Configer := mkConfiger "traceloop" (fun dest =>
  let uniqueUri := "traceloop-" +:+ GetID dest in
  match GetConfig dest !! "TRACELOOP_ENDPOINT" with
  | None => fails (ENew (quoted
      "Traceloop is missing a required field (`TRACELOOP_ENDPOINT`), Traceloop will not be configured"))
  | Some url =>
      endpoint ← try (parseOtlpHttpEndpoint url "" "");
      let exporterName := "otlp_http/" +:+ uniqueUri in
      _ ← add_exporter_config exporterName (gm
            [("endpoint", GStr endpoint);
             ("headers", GMap (gm [("Authorization", GStr ("Bearer " +:+ SecretEnvPlaceholder "TRACELOOP_API_KEY" dest))]))]);
      per_signal [(tracing dest, "traces/" +:+ uniqueUri, exports_to exporterName);
                  (metrics dest, "metrics/" +:+ uniqueUri, exports_to exporterName)]
  end).

(** [if v, exists := config[key]; exists { exporterConfig[name] = v }]. *)
Definition optional (dest : ExporterConfigurer) (key name : string) : list (string * gval) :=
  match GetConfig dest !! key with Some v => [(name, GStr v)] | None => [] end.

Definition GoogleCloud : Configer := mkConfiger "googlecloud" (fun dest =>
  let s := "googlecloud-" +:+ GetID dest in
  let exporterName := "googlecloud/" +:+ GetID dest in
  let common := optional dest "GCP_PROJECT_ID" "project" ++ optional dest "GCP_TIMEOUT" "timeout" in
  traces ← (if tracing dest then
              _ ← add_exporter_config exporterName (gm common);
              per_signal [(true, "traces/" +:+ s, exports_to exporterName)]
            else mret []);
  logs ← (if logging dest then
            _ ← add_exporter_config exporterName
                  (gm (("log", GMap (gm [("default_log_name", GStr "opentelemetry.io/collector-exported-log")])) :: common));
            per_signal [(true, "logs/" +:+ s, exports_to exporterName)]
          else mret []);
  mret (traces ++ logs)).

Definition AzureMonitor : Configer := mkConfiger "azuremonitor" (fun dest =>
  let cfg := GetConfig dest in
  let uniqueUri := "azuremonitor-" +:+ GetID dest in
  let connectionString := map_get cfg "AZURE_MONITOR_CONNECTION_STRING" in
  let instrumentationKey := map_get cfg "AZURE_MONITOR_INSTRUMENTATION_KEY" in
  let endpoint := map_get cfg "AZURE_MONITOR_ENDPOINT" in
  if decide (connectionString = "" ∧ instrumentationKey = "" ∧ endpoint = "")
  then fails (errorMissingKey strconv_Quote "AZURE_MONITOR_CONNECTION_STRING")
  else
    let exporterName := "azuremonitor/" +:+ uniqueUri in
    _ ← add_exporter_config exporterName (gm
          [("connection_string", GStr connectionString);
           ("instrumentation_key", GStr instrumentationKey);
           ("endpoint", GStr endpoint)]);
    per_signal [(tracing dest, "traces/" +:+ uniqueUri, exports_to exporterName);
                (metrics dest, "metrics/" +:+ uniqueUri, exports_to exporterName);
                (logging dest, "logs/" +:+ uniqueUri, exports_to exporterName)]).

Definition Honeycomb : Configer := mkConfiger "honeycomb" (fun dest =>
  if negb (tracing dest)
  then fails (ENew "attempting to configure Honeycomb tracing, but tracing is disabled")
  else
    let endpoint := default "api.honeycomb.io" (GetConfig dest !! "HONEYCOMB_ENDPOINT") in
    let s := "honeycomb-" +:+ GetID dest in
    let exporterName := "otlp_grpc/" +:+ s in
    _ ← add_exporter_config exporterName (gm
          [("endpoint", GStr (endpoint +:+ ":443"));
           ("headers", GMap (gm [("x-honeycomb-team", secret "HONEYCOMB_API_KEY" dest)]))]);
    per_signal [(tracing dest, "traces/" +:+ s, exports_to exporterName);
                (metrics dest, "metrics/" +:+ s, exports_to exporterName);
                (logging dest, "logs/" +:+ s, exports_to exporterName)]).

Definition OneUptime : Configer := mkConfiger "oneuptime" (fun dest =>
  let uniqueUri := "oneuptime-" +:+ GetID dest in
  let exporterName := "otlp_http/" +:+ uniqueUri in
  _ ← add_exporter_config exporterName (gm
        [("endpoint", GStr "https://oneuptime.com/otlp");
         ("encoding", GStr "json");
         ("headers", GMap (gm [("Content-Type", GStr "application/json");
                               ("x-oneuptime-token", secret "ONEUPTIME_INGESTION_KEY" dest)]))]);
  per_signal [(tracing dest, "traces/" +:+ uniqueUri, exports_to exporterName);
              (metrics dest, "metrics/" +:+ uniqueUri, exports_to exporterName);
              (logging dest, "logs/" +:+ uniqueUri, exports_to exporterName)]).

Definition Seq : Configer := mkConfiger "seq" (fun dest =>
  let uniqueUri := "seq-" +:+ GetID dest in
  match GetConfig dest !! "SEQ_ENDPOINT" with
  | None => fails (errorMissingKey strconv_Quote "SEQ_ENDPOINT")
  | Some endpoint =>
      endpoint ← try (parseOtlpHttpEndpoint endpoint "5341" "/ingest/otlp");
      let exporterName := "otlp_http/" +:+ uniqueUri in
      _ ← add_exporter_config exporterName (gm
            [("endpoint", GStr endpoint);
             ("headers", GMap (gm [("X-Seq-ApiKey", secret "SEQ_API_KEY" dest)]))]);
      per_signal [(tracing dest, "traces/" +:+ uniqueUri, exports_to exporterName);
                  (logging dest, "logs/" +:+ uniqueUri, exports_to exporterName)]
  end).

(** [strings.TrimPrefix]. *)
Definition trim_prefix (prefix s : string) : string :=
  if has_prefix prefix s then String.substring (String.length prefix) (String.length s - String.length prefix) s
  else s.

Definition Tempo : Configer := mkConfiger "tempo" (fun dest =>
  match GetConfig dest !! "TEMPO_URL" with
  | None => fails (ENew "Tempo url not specified, gateway will not be configured for Tempo")
  | Some url =>
      if has_prefix "https://" url
      then fails (ENew "Tempo does not currently supports tls export, gateway will not be configured for Tempo")
      else if tracing dest then
        let url := trim_prefix "http://" url in
        let endpoint := if default false (regexp_match ":\d+" url) then url else url +:+ ":4317" in
        let s := "tempo-" +:+ GetID dest in
        let tempoExporterName := "otlp_grpc/" +:+ s in
        _ ← add_exporter_config tempoExporterName (gm
              [("endpoint", GStr endpoint); ("tls", GMap (gm [("insecure", GBool true)]))]);
        per_signal [(true, "traces/" +:+ s, exports_to tempoExporterName)]
      else mret []
  end).

Definition Checkly : Configer := mkConfiger "checkly" (fun dest =>
  let uniqueUri := "checkly-" +:+ GetID dest in
  match GetConfig dest !! "CHECKLY_ENDOINT" with
  | None => fails (errorMissingKey strconv_Quote "CHECKLY_ENDOINT")
  | Some endpoint =>
      endpoint ← try (parseOtlpGrpcUrl endpoint true);
      let exporterName := "otlp_grpc/" +:+ uniqueUri in
      _ ← add_exporter_config exporterName (gm
            [("endpoint", GStr endpoint);
             ("headers", GMap (gm [("authorization", secret "CHECKLY_API_KEY" dest)]))]);
      let processorName := "filter/" +:+ uniqueUri in
      _ ← add_processor_config processorName (gm
            [("error_mode", GStr "ignore");
             ("traces", GMap (gm [("span", GStrs [quoted "trace_state[`checkly`] == `true`"])]))]);
      per_signal [(tracing dest, "traces/" +:+ uniqueUri, mkPipeline [] [processorName] [exporterName])]
  end).

Definition Middleware : Configer := mkConfiger "middleware" (fun dest =>
  if negb (tracing dest) && negb (metrics dest) && negb (logging dest)
  then fails (ENew "Middleware is not enabled for any supported signals, skipping")
  else match GetConfig dest !! "MW_TARGET" with
  | None => fails (ENew "Middleware target not specified, gateway will not be configured for Middleware")
  | Some _ =>
      let s := "middleware-" +:+ GetID dest in
      let exporterName := "otlp_grpc/" +:+ s in
      _ ← add_exporter_config exporterName (gm
            [("endpoint", secret "MW_TARGET" dest);
             ("headers", GMap (gm [("authorization", secret "MW_API_KEY" dest)]))]);
      per_signal [(tracing dest, "traces/" +:+ s, exports_to exporterName);
                  (metrics dest, "metrics/" +:+ s, exports_to exporterName);
                  (logging dest, "logs/" +:+ s, exports_to exporterName)]
  end).

Definition BetterStack : Configer := mkConfiger "betterstack" (fun dest =>
  let uniqueUri := "betterstack-" +:+ GetID dest in
  let processorName := "attributes/" +:+ uniqueUri in
  _ ← add_processor_config processorName (gm
        [("actions", GMaps [gm [("key", GStr "better_stack_source_token");
                                ("value", secret "BETTERSTACK_TOKEN" dest);
                                ("action", GStr "insert")]])]);
  ms ← (if metrics dest then
          let exporterName := "prometheusremotewrite/" +:+ uniqueUri in
          _ ← add_exporter_config exporterName (gm
                [("endpoint", GStr "https://in-otel.logs.betterstack.com/metrics")]);
          per_signal [(true, "metrics/" +:+ uniqueUri, mkPipeline [] [processorName] [exporterName])]
        else mret []);
  ls ← (if logging dest then
          let exporterName := "otlp_grpc/" +:+ uniqueUri in
          _ ← add_exporter_config exporterName (gm
                [("endpoint", GStr "https://in-otel.logs.betterstack.com:443")]);
          per_signal [(true, "logs/" +:+ uniqueUri, mkPipeline [] [processorName] [exporterName])]
        else mret []);
  mret (ms ++ ls)).

(** An error after the traces pipeline was added leaves that pipeline behind. *)
Definition Jaeger : Configer := mkConfiger "jaeger" (fun dest =>
  let config := GetConfig dest in
  let uniqueUri := "jaeger-" +:+ GetID dest in
  match config !! "JAEGER_URL" with
  | None => fails (ENew (quoted "Jaeger is missing a required field (`JAEGER_URL`), Jaeger will not be configured"))
  | Some url =>
      let tlsEnabled := bool_decide (map_get config "JAEGER_TLS_ENABLED" = "true") in
      endpoint ← try (parseOtlpGrpcUrl url tlsEnabled);
      let exporterName := "otlp_grpc/" +:+ uniqueUri in
      let caPem := map_get config "JAEGER_CA_PEM" in
      let tlsConfig := ("insecure", GBool (negb tlsEnabled))
                       :: (if decide (caPem <> "") then [("ca_pem", GStr caPem)] else []) in
      _ ← add_exporter_config exporterName (gm [("endpoint", GStr endpoint); ("tls", GMap (gm tlsConfig))]);
      names ← (if tracing dest then per_signal [(true, "traces/" +:+ uniqueUri, exports_to exporterName)]
               else fails (ENew (quoted
                 "Jaeger is missing a required field (`TRACES`), Jaeger will not be configured")));
      if metrics dest then
        fails (ENew (quoted "Jaeger has a forbidden field (`METRICS`), Jaeger will not be configured"))
      else if logging dest then
        fails (ENew (quoted "Jaeger has a forbidden field (`LOGS`), Jaeger will not be configured"))
      else mret names
  end).

Definition DebugDest : Configer := mkConfiger "debug" (fun dest =>
  let exporterName := "debug/" +:+ GetID dest in
  let verbosity := default "basic" (GetConfig dest !! "VERBOSITY") in
  sampling ← match GetConfig dest !! "ITEMS_PER_SECOND" with
             | None => mret (1, 1)%Z
             | Some itemsPerSecond =>
                 match parse_int64 itemsPerSecond with
                 | None => fails (ENew ("invalid value for ITEMS_PER_SECOND: " +:+ itemsPerSecond))
                 | Some itemsPerSecondInt => mret (itemsPerSecondInt, 0)%Z
                 end
             end;
  _ ← add_exporter_config exporterName (gm
        [("verbosity", GStr verbosity);
         ("sampling_initial", GInt sampling.1);
         ("sampling_thereafter", GInt sampling.2)]);
  per_signal [(tracing dest, "traces/debug-" +:+ GetID dest, exports_to exporterName);
              (metrics dest, "metrics/debug-" +:+ GetID dest, exports_to exporterName);
              (logging dest, "logs/debug-" +:+ GetID dest, exports_to exporterName)]).
End Types.
