(* ===== verification/DestinationLaws.v ===== *)
(** * The configurers keep their promise

    Each configurer of DestinationTypes only adds what is its own
    ([ConfigerLaws]), with one exception: [Jaeger] can fail after it added a
    pipeline. *)

From S2P Require Import Prelude.
From S2P Require Import GoStrings.
From S2P Require Import K8s.
From S2P Require Import Api.
From S2P Require Import GoLib.
From S2P Require Import CollectorConfig.
From S2P Require Import Destinations.
From S2P Require Import DestinationTypes.

(** ** Rules for the steps of a configurer *)
Section Rules.
Context (s : string) (c0 : Config).

(** The step run on [c] ends in a state that satisfies [Q]. *)
Definition runs {A} (m : ConfigM A) (Q : error + A -> Config -> Prop) (c : Config) : Prop := Q (m c).1 (m c).2.

(** What holds of a run that may stop with an error: an error leaves the
    pipelines of [c0], a result satisfies [Q]. *)
Definition step_ok {A} (Q : A -> Config -> Prop) (r : error + A) (c : Config) : Prop :=
  match r with
  | inl _ => extends c0 c ∧ pipelines c = pipelines c0
  | inr a => Q a c
  end.

Lemma runs_bind {A B} (m : ConfigM A) (f : A -> ConfigM B) Q c :
  runs m (step_ok (fun a c' => runs (f a) (step_ok Q) c')) c -> runs (m ≫= f) (step_ok Q) c.
Proof. unfold runs. cbv [mbind config_bind]. by destruct (m c) as [[e|a] c']. Qed.
Lemma runs_ret {A} (a : A) (Q : A -> Config -> Prop) c : Q a c -> runs (mret a) (step_ok Q) c.
Proof. done. Qed.
Lemma runs_fails {A} err (Q : A -> Config -> Prop) used c :
  builds s c0 used [] c -> runs (fails err) (step_ok Q) c.
Proof.
  intros Hb. split; [apply Hb|]. apply map_eq. intros n. apply Hb. set_solver.
Qed.
Lemma runs_try {A} (r : error + A) (Q : A -> Config -> Prop) used c :
  builds s c0 used [] c -> (forall a, r = inr a -> Q a c) -> runs (try r) (step_ok Q) c.
Proof. intros Hb HQ. destruct r as [e|a]; [by eapply (runs_fails e)|]. by apply HQ. Qed.

Lemma runs_exporter n cfg (Q : unit -> Config -> Prop) used names c :
  builds s c0 used names c -> connector_name n = false ->
  (forall c', builds s c0 used names c' -> is_Some (exporters c' !! n) -> processors c' = processors c ->
     extensions c' = extensions c -> (forall e, is_Some (exporters c !! e) -> is_Some (exporters c' !! e)) -> Q tt c') ->
  runs (add_exporter_config n cfg) (step_ok Q) c.
Proof.
  intros Hb Hn HQ. apply HQ; simpl; [|rewrite lookup_insert_eq; by eexists|done..|].
  2: { intros e. rewrite lookup_insert_is_Some'. by right. }
  eapply builds_extends; [done|by apply extends_exporter|done].
Qed.
Lemma runs_processor n cfg (Q : unit -> Config -> Prop) used names c :
  builds s c0 used names c ->
  (forall c', builds s c0 used names c' -> is_Some (processors c' !! n) -> exporters c' = exporters c ->
     extensions c' = extensions c ->
     (forall x, is_Some (processors c !! x) -> is_Some (processors c' !! x)) -> Q tt c') ->
  runs (add_processor_config n cfg) (step_ok Q) c.
Proof.
  intros Hb HQ. apply HQ; simpl; [|rewrite lookup_insert_eq; by eexists|done..|].
  2: { intros e. rewrite lookup_insert_is_Some'. by right. }
  eapply builds_extends; [done|apply extends_processor|done].
Qed.
Lemma runs_extension n cfg (Q : unit -> Config -> Prop) used names c :
  builds s c0 used names c ->
  (forall c', builds s c0 used names c' -> is_Some (extensions c' !! n) -> exporters c' = exporters c ->
     processors c' = processors c -> Q tt c') ->
  runs (add_extension_config n cfg) (step_ok Q) c.
Proof.
  intros Hb HQ. apply HQ; simpl; [|rewrite lookup_insert_eq; by eexists|done..].
  eapply builds_extends; [done|apply extends_extension|done].
Qed.
Lemma runs_service n (Q : unit -> Config -> Prop) used names c :
  builds s c0 used names c -> is_Some (extensions c !! n) ->
  (forall c', builds s c0 used names c' -> exporters c' = exporters c -> processors c' = processors c -> Q tt c') ->
  runs (use_extension n) (step_ok Q) c.
Proof.
  intros Hb Hn HQ. apply HQ; simpl; [|done..]. eapply builds_extends; [done|by apply extends_service|done].
Qed.

(** The blocks of the signals, one after the other. *)
Fixpoint blocks_ok (used : list string) (l : list (bool * string * Pipeline)) (c : Config) : Prop :=
  match l with
  | [] => True
  | (_, n, p) :: l =>
      exists sig, n = (sig +:+ "/" +:+ s) ∧ sig ∈ pipeline_signals ∧ (sig ∉ used) ∧ dest_pipeline_ok c p
      ∧ blocks_ok (sig :: used) l c
  end.

Lemma blocks_extends used l c c' : extends c c' -> blocks_ok used l c -> blocks_ok used l c'.
Proof.
  intros He. revert used. induction l as [|[[b n] p] l IH]; intros used; simpl; [done|].
  intros (sig & ? & ? & ? & Hp & Hl). exists sig. split_and!; try done; [by eapply dest_pipeline_extends|by apply IH].
Qed.

Lemma runs_per_signal l (Q : list string -> Config -> Prop) used names c :
  builds s c0 used names c -> blocks_ok used l c ->
  (forall names' used' c', builds s c0 used' (names ++ names') c' ->
     exporters c' = exporters c -> processors c' = processors c -> extensions c' = extensions c ->
     (forall sig, sig ∈ used' -> sig ∈ used ∨ (sig +:+ "/" +:+ s) ∈ l.*1.*2) -> Q names' c') ->
  runs (per_signal l) (step_ok Q) c.
Proof.
  revert used names c Q. induction l as [|[[b n] p] l IH]; intros used names c Q Hb Hl HQ; simpl.
  - apply runs_ret. eapply (HQ [] used c); [by rewrite app_nil_r|done..|by left].
  - destruct Hl as (sig & -> & Hsig & Hu & Hp & Hl). apply runs_bind.
    assert (Hstep : forall c1 ns, (b = true ∧ ns = [sig +:+ "/" +:+ s] ∧ c1 = set_pipelines (insert (sig +:+ "/" +:+ s) p) c
                                   ∨ ns = [] ∧ c1 = c) ->
              runs (per_signal l ≫= fun rest => mret (ns ++ rest)) (step_ok Q) c1).
    { intros c1 ns Hc1. apply runs_bind.
      assert (He : extends c c1) by (destruct Hc1 as [(_ & _ & ->)|(_ & ->)]; [apply extends_pipelines|done]).
      assert (Hb1 : builds s c0 (sig :: used) (names ++ ns) c1).
      { destruct Hc1 as [(_ & -> & ->)|(-> & ->)]; [by apply builds_pipeline|by apply builds_skip]. }
      assert (Hx1 : exporters c1 = exporters c ∧ processors c1 = processors c ∧ extensions c1 = extensions c)
        by (destruct Hc1 as [(_ & _ & ->)|(_ & ->)]; done).
      eapply (IH _ _ _ _ Hb1); [by eapply blocks_extends|].
      intros names' used' c' Hb' Hx' Hp' He' Hu'. apply runs_ret. destruct Hx1 as (? & ? & ?).
      apply (HQ _ used'); [by rewrite app_assoc|congruence..|].
      intros x Hx. destruct (Hu' x Hx) as [[->|?]%elem_of_cons|?]; [right; left|by left|right; by right]. }
    destruct b; [refine (Hstep _ _ (or_introl _))|refine (Hstep _ _ (or_intror _))]; auto.
Qed.

(** The pipeline of the profiles, whose signal was not handled before. *)
Lemma runs_profiles prefix destID e (Q : string -> Config -> Prop) used names c :
  builds s c0 used names c -> s = prefix +:+ "-" +:+ destID -> "profiles" ∉ used -> is_Some (exporters c !! e) ->
  (forall n c', builds s c0 ("profiles" :: used) (names ++ [n]) c' -> Q n c') ->
  runs (addProfilesPipeline prefix destID e) (step_ok Q) c.
Proof.
  intros Hb Hs Hu He HQ. apply HQ. eapply builds_pipeline; [done|by rewrite Hs|by apply (bool_decide_unpack _)|done|].
  split; simpl; [done|split; [done|by constructor]|split; constructor].
Qed.

Lemma contribution_runs (m : ConfigM (list string)) :
  runs m (step_ok (fun names c => exists used, builds s c0 used names c)) c0 -> contribution s c0 (m c0).1 (m c0).2.
Proof. done. Qed.

(** A pipeline with one exporter, and processors of its own. *)
Lemma exports_to_ok c e : is_Some (exporters c !! e) -> dest_pipeline_ok c (exports_to e).
Proof. intros He. split; simpl; [done|split; [done|by constructor]|split; constructor]. Qed.
Lemma processed_ok c x e :
  is_Some (exporters c !! e) -> is_Some (processors c !! x) -> has_prefix "batch/" x = false ->
  x <> "odigostrafficmetrics" -> dest_pipeline_ok c (mkPipeline [] [x] [e]).
Proof.
  intros He Hx Hb Ho. split; simpl; [done|split; [done|by constructor]|split; [by constructor|]].
  apply NoDup_singleton.
Qed.
End Rules.

(** A component that an earlier step defined. *)
Ltac is_defined :=
  repeat first
    [ eassumption
    | match goal with
      | E : exporters ?c = exporters _ |- is_Some (exporters ?c !! _) => rewrite E
      | E : processors ?c = processors _ |- is_Some (processors ?c !! _) => rewrite E
      | E : extensions ?c = extensions _ |- is_Some (extensions ?c !! _) => rewrite E
      | Hm : forall e, _ -> is_Some (exporters ?c !! e) |- is_Some (exporters ?c !! _) => apply Hm
      | Hm : forall x, _ -> is_Some (processors ?c !! x) |- is_Some (processors ?c !! _) => apply Hm
      end ].

(** The signal was not handled by any block before. *)
Ltac unused_in Hin :=
  lazymatch type of Hin with
  | _ \/ _ => destruct Hin as [Hin|Hin]; unused_in Hin
  | _ = _ => discriminate Hin
  | _ ∈ [] => by apply elem_of_nil in Hin
  | _ ∈ _ :: _ => apply elem_of_cons in Hin; unused_in Hin
  | _ ∈ ?u =>
      match goal with H : forall sig, sig ∈ u -> _ |- _ => apply H in Hin; cbn [fmap list_fmap fst snd] in Hin end;
      unused_in Hin
  end.
Ltac unused := let Hin := fresh in intros Hin; unused_in Hin.

(** The pipeline of a block; a file with rules of its own extends this, and
    [more_steps], with [::=]. *)
Ltac pipeline_ok := first [apply exports_to_ok; is_defined|apply processed_ok; [is_defined|is_defined|done|done]].
Ltac more_steps := fail.

Ltac blocks :=
  repeat match goal with
  | |- blocks_ok _ _ [] _ => exact I
  | |- blocks_ok _ _ (_ :: _) _ =>
      first [exists "traces"; split; [reflexivity|] | exists "metrics"; split; [reflexivity|]
            | exists "logs"; split; [reflexivity|] | exists "profiles"; split; [reflexivity|]];
      split; [by apply (bool_decide_unpack _)|split; [unused|split;
[pipeline_ok|]]]
  end.

(** The helpers of the configurers that the proofs look into. *)
Create HintDb configer.

Ltac run_step :=
  match goal with
  | |- runs (mbind _ _) _ _ => apply runs_bind
  | |- runs (mret _) _ _ => apply runs_ret
  | |- runs (fails _) _ _ => eapply runs_fails; eassumption
  | |- runs (try _) _ _ => eapply runs_try; [eassumption|intros]
  | |- runs (add_exporter_config _ _) _ _ => eapply runs_exporter; [eassumption|first [reflexivity|eassumption]|intros]
  | |- runs (add_processor_config _ _) _ _ => eapply runs_processor; [eassumption|intros]
  | |- runs (add_extension_config _ _) _ _ => eapply runs_extension; [eassumption|intros]
  | |- runs (use_extension _) _ _ => eapply runs_service; [eassumption|is_defined|intros]
  | |- runs (addProfilesPipeline _ _ _) _ _ =>
      eapply runs_profiles; [eassumption|reflexivity|unused|is_defined|intros]
  | |- runs (per_signal _) _ _ => eapply runs_per_signal; [eassumption|blocks|intros]
  | |- runs (if ?b then _ else _) _ _ => destruct b
  | |- runs (match ?x with _ => _ end) _ _ => destruct x
  | |- exists used, builds _ _ used _ _ => rewrite ?app_assoc, ?app_nil_r; eexists; eassumption
  | |- _ => more_steps
  end.

(** Shows that a configurer keeps its promise, to one destination and to all. *)
Ltac keeps_start :=
  intros c0; apply contribution_runs;
  match goal with |- runs (ModifyConfig ?k _) _ _ => let k' := eval hnf in k in change k with k' end;
  cbn [ModifyConfig];
  match goal with |- runs _ (step_ok _ (fun _ _ => exists used, builds ?s _ used _ _)) ?c =>
    pose proof (builds_start s c) end.
Ltac keeps_go := repeat (cbv beta zeta; autounfold with configer; cbn [app]; run_step).
Ltac contribute := split; intros dest; keeps_start; keeps_go.

Section Laws.
Context `{GoUrl} `{GoLibrary}.

(** The names of a destination's pipelines end in its type and its name. *)
Definition ends_in (prefix : string) (dest : ExporterConfigurer) : string := prefix +:+ GetID dest.

#[export] Instance Lightstep_laws : ConfigerLaws Lightstep (ends_in "lightstep-").
Proof. contribute. Qed.
#[export] Instance Sentry_laws : ConfigerLaws Sentry (ends_in "sentry-").
Proof. contribute. Qed.
#[export] Instance Nop_laws : ConfigerLaws Nop (ends_in "nop-").
Proof. contribute. Qed.
#[export] Instance SumoLogic_laws : ConfigerLaws SumoLogic (ends_in "sumologic-").
Proof. contribute. Qed.
#[export] Instance TelemetryHub_laws : ConfigerLaws TelemetryHub (ends_in "telemetryhub-").
Proof. contribute. Qed.
#[export] Instance KloudMate_laws : ConfigerLaws KloudMate (ends_in "kloudmate-").
Proof. contribute. Qed.
#[export] Instance Quickwit_laws : ConfigerLaws Quickwit (ends_in "quickwit-").
Proof. contribute. Qed.
#[export] Instance AlibabaCloud_laws : ConfigerLaws AlibabaCloud (ends_in "alibaba-").
Proof. contribute. Qed.
#[export] Instance GoogleCloudStorage_laws : ConfigerLaws GoogleCloudStorage (ends_in "gcs-").
Proof. contribute. Qed.
#[export] Instance Axiom__laws : ConfigerLaws Axiom_ (ends_in "axiom-").
Proof. contribute. Qed.
#[export] Instance Last9_laws : ConfigerLaws Last9 (ends_in "last9-").
Proof. contribute. Qed.
#[export] Instance SignalFx_laws : ConfigerLaws SignalFx (ends_in "signalfx-").
Proof. contribute. Qed.
#[export] Instance Traceloop_laws : ConfigerLaws Traceloop (ends_in "traceloop-").
Proof. contribute. Qed.
#[export] Instance GoogleCloud_laws : ConfigerLaws GoogleCloud (ends_in "googlecloud-").
Proof. contribute. Qed.
#[export] Instance AzureMonitor_laws : ConfigerLaws AzureMonitor (ends_in "azuremonitor-").
Proof. contribute. Qed.
#[export] Instance Honeycomb_laws : ConfigerLaws Honeycomb (ends_in "honeycomb-").
Proof. contribute. Qed.
#[export] Instance OneUptime_laws : ConfigerLaws OneUptime (ends_in "oneuptime-").
Proof. contribute. Qed.
#[export] Instance Seq_laws : ConfigerLaws Seq (ends_in "seq-").
Proof. contribute. Qed.
#[export] Instance Tempo_laws : ConfigerLaws Tempo (ends_in "tempo-").
Proof. contribute. Qed.
#[export] Instance Checkly_laws : ConfigerLaws Checkly (ends_in "checkly-").
Proof. contribute. Qed.
#[export] Instance Middleware_laws : ConfigerLaws Middleware (ends_in "middleware-").
Proof. contribute. Qed.
#[export] Instance BetterStack_laws : ConfigerLaws BetterStack (ends_in "betterstack-").
Proof. contribute. Qed.
#[export] Instance DebugDest_laws : ConfigerLaws DebugDest (ends_in "debug-").
Proof. contribute. Qed.
End Laws.
