(* ===== verification/DestinationVendors.v ===== *)
(** * More configurers (src/common/config, one file per destination)

    The destinations of one vendor each whose configuration is read from
    plain settings.  Those that decode JSON or build an authenticated endpoint
    are in DestinationDecoders. *)

From Stdlib Require Import Ascii.
From S2P Require Import Prelude.
From S2P Require Import GoStrings.
From S2P Require Import K8s.
From S2P Require Import Api.
From S2P Require Import GoLib.
From S2P Require Import CollectorConfig.
From S2P Require Import Destinations.
From S2P Require Import DestinationTypes.

(** ** Strings *)

Definition has_suffix (suffix s : string) : bool := has_prefix (str_rev suffix) (str_rev s).

(** [strings.TrimSuffix]. *)
Definition trim_suffix (suffix s : string) : string :=
  if has_suffix suffix s then String.substring 0 (String.length s - String.length suffix) s else s.

(** [strings.TrimRight]. *)
Definition trim_right (cutset s : string) : string := str_rev (trim_left cutset (str_rev s)).

Example trim_ex :
  trim_suffix ":4317" "signoz:4317" = "signoz" ∧ trim_suffix "/tempo" "tempo" = "tempo"
  ∧ trim_right "/" "/e/env//" = "/e/env".
Proof. by vm_compute. Qed.

(** [strconv.ParseBool], and false where it fails (utils.go, [parseBool]). *)
Definition parseBool (value : string) : bool :=
  bool_decide (value ∈ ["1"; "t"; "T"; "TRUE"; "true"; "True"]).

(** ** Blocks that several configurers share *)

(** The basic authentication of an exporter. *)
Definition basic_auth (username : string) (password : gval) : GenericMap :=
  gm [("client_auth", GMap (gm [("username", GStr username); ("password", password)]))].
Definition authenticator (name : string) : gval := GMap (gm [("authenticator", GStr name)]).
Definition insecure (b : bool) : gval := GMap (gm [("insecure", GBool b)]).

(** One entry of the [attributes] or [actions] of a processor. *)
Definition insert_attribute (key : string) (value : gval) : GenericMap :=
  gm [("key", GStr key); ("value", value); ("action", GStr "insert")].
Definition attribute_from (key from action : string) : GenericMap :=
  gm [("key", GStr key); ("from_attribute", GStr from); ("action", GStr action)].

Section Vendors.
Context `{GoUrl} `{GoLibrary}.

(** The three blocks [traces], [metrics] and [logs], in this order. *)
Definition all_signals (dest : ExporterConfigurer) (suffix : string) (p : Pipeline) : list (bool * string * Pipeline) :=
  [(tracing dest, "traces/" +:+ suffix, p); (metrics dest, "metrics/" +:+ suffix, p);
   (logging dest, "logs/" +:+ suffix, p)].

(** *** HyperDX, and the processor it shares with Clickhouse *)

(** The statements of the transform processor (hyperdx_log_normalizer.go). *)
Definition HyperdxLogNormalizerProcessor : GenericMap := gm [("log_statements", GMaps [
  gm [("context", GStr "log"); ("error_mode", GStr "ignore"); ("statements", GStrs (quoted <$> [
    "set(log.cache, ExtractPatterns(log.body, `(?P<0>\\{\\s*\`.*\\})`)) where IsString(log.body)";
    "merge_maps(log.attributes, ParseJSON(log.cache[`0`]), `upsert`) where IsString(log.cache[`0`]) and IsMatch(log.cache[`0`], `^\\s*\\{\\s*\``)";
    "flatten(log.attributes) where IsString(log.cache[`0`]) and IsMatch(log.cache[`0`], `^\\s*\\{\\s*\``)";
    "merge_maps(log.attributes, log.body, `upsert`) where IsMap(log.body)"]))];
  gm [("context", GStr "log"); ("error_mode", GStr "ignore");
    ("conditions", GStrs (quoted <$> ["severity_number == 0 and severity_text == ``"]));
    ("statements", GStrs (quoted <$> [
    "set(log.cache[`substr`], log.body.string) where Len(log.body.string) < 256";
    "set(log.cache[`substr`], Substring(log.body.string, 0, 256)) where Len(log.body.string) >= 256";
    "set(log.cache, ExtractPatterns(log.cache[`substr`], `(?i)(?P<0>(alert|crit|emerg|fatal|error|err|warn|notice|debug|dbug|trace))`))";
    "set(log.severity_number, SEVERITY_NUMBER_FATAL) where IsMatch(log.cache[`0`], `(?i)(alert|crit|emerg|fatal)`)";
    "set(log.severity_text, `fatal`) where log.severity_number == SEVERITY_NUMBER_FATAL";
    "set(log.severity_number, SEVERITY_NUMBER_ERROR) where IsMatch(log.cache[`0`], `(?i)(error|err)`)";
    "set(log.severity_text, `error`) where log.severity_number == SEVERITY_NUMBER_ERROR";
    "set(log.severity_number, SEVERITY_NUMBER_WARN) where IsMatch(log.cache[`0`], `(?i)(warn|notice)`)";
    "set(log.severity_text, `warn`) where log.severity_number == SEVERITY_NUMBER_WARN";
    "set(log.severity_number, SEVERITY_NUMBER_DEBUG) where IsMatch(log.cache[`0`], `(?i)(debug|dbug)`)";
    "set(log.severity_text, `debug`) where log.severity_number == SEVERITY_NUMBER_DEBUG";
    "set(log.severity_number, SEVERITY_NUMBER_TRACE) where IsMatch(log.cache[`0`], `(?i)(trace)`)";
    "set(log.severity_text, `trace`) where log.severity_number == SEVERITY_NUMBER_TRACE";
    "set(log.severity_text, `info`) where log.severity_number == 0";
    "set(log.severity_number, SEVERITY_NUMBER_INFO) where log.severity_number == 0"]))];
  gm [("context", GStr "log"); ("error_mode", GStr "ignore"); ("statements", GStrs (quoted <$> [
    "set(log.severity_text, ConvertCase(log.severity_text, `lower`))"]))]])].

Definition normalizes_logs (dest : ExporterConfigurer) : bool :=
  match GetConfig dest !! "HYPERDX_LOG_NORMALIZER" with
  | Some val => getBooleanConfig val "true"
  | None => false
  end.

(** The block of the logs of both: [if isLoggingEnabled(dest) { ... }]. *)
Definition normalized_logs (dest : ExporterConfigurer) (pipeName exporterName : string) : ConfigM (list string) :=
  if logging dest then
    procs ← (if normalizes_logs dest then
               let processorName := "transform/hyperdx-log-normalizer-" +:+ GetID dest in
               _ ← add_processor_config processorName HyperdxLogNormalizerProcessor;
               mret [processorName]
             else mret []);
    per_signal [(true, pipeName, mkPipeline [] procs [exporterName])]
  else mret [].

Definition HyperDX : Configer := mkConfiger "hyperdx" (fun dest =>
  let uniqueUri := "hdx-" +:+ GetID dest in
  let exporterName := "otlp_grpc/" +:+ uniqueUri in
  _ ← add_exporter_config exporterName (gm
        [("endpoint", GStr "in-otel.hyperdx.io:4317");
         ("headers", GMap (gm [("authorization", secret "HYPERDX_API_KEY" dest)]))]);
  names ← per_signal [(tracing dest, "traces/" +:+ uniqueUri, exports_to exporterName);
                      (metrics dest, "metrics/" +:+ uniqueUri, exports_to exporterName)];
  ls ← normalized_logs dest ("logs/" +:+ uniqueUri) exporterName;
  mret (names ++ ls)).

Definition VictoriaMetricsCloud : Configer := mkConfiger "victoriametricscloud" (fun dest =>
  let uniqueUri := "victoriametricscloud-" +:+ GetID dest in
  match GetConfig dest !! "VICTORIA_METRICS_CLOUD_ENDPOINT" with
  | None => fails (errorMissingKey strconv_Quote "VICTORIA_METRICS_CLOUD_ENDPOINT")
  | Some endpoint =>
      endpoint ← try (parseOtlpHttpEndpoint endpoint "" "/opentelemetry");
      let authExtensionName := "bearertokenauth/" +:+ uniqueUri in
      _ ← add_extension_config authExtensionName (gm [("token", secret "VICTORIA_METRICS_CLOUD_TOKEN" dest)]);
      _ ← use_extension authExtensionName;
      let exporterName := "otlp_http/" +:+ uniqueUri in
      _ ← add_exporter_config exporterName (gm
            [("endpoint", GStr endpoint); ("auth", authenticator authExtensionName)]);
      per_signal [(metrics dest, "metrics/" +:+ uniqueUri, exports_to exporterName)]
  end).

Definition Pyroscope : Configer := mkConfiger "pyroscope" (fun dest =>
  if negb (isProfilingEnabled (GetSignals dest))
  then fails (ENew "Pyroscope requires PROFILES signal to be enabled")
  else
    let cfg := GetConfig dest in
    let url := map_get cfg "PYROSCOPE_URL" in
    if decide (url = "")
    then fails (ENew (quoted
      "Pyroscope is missing a required field (`PYROSCOPE_URL`), Pyroscope will not be configured"))
    else
      let tlsEnabled := bool_decide (map_get cfg "PYROSCOPE_TLS_ENABLED" = "true") in
      let scheme := if tlsEnabled then "https" else "http" in
      let exporterName := "otlphttp/pyroscope-" +:+ GetID dest in
      _ ← add_exporter_config exporterName (gm
            [("endpoint", GStr (scheme +:+ "://" +:+ url)); ("tls", insecure (negb tlsEnabled))]);
      profilesPipelineName ← addProfilesPipeline "pyroscope" (GetID dest) exporterName;
      mret [profilesPipelineName]).

Definition GoogleCloudOTLP : Configer := mkConfiger "googlecloudotlp" (fun dest =>
  if tracing dest then
    let exporterName := "otlp_http/gcp-" +:+ GetID dest in
    let extensionName := "googleclientauth/" +:+ GetID dest in
    _ ← add_exporter_config exporterName (gm
          [("encoding", GStr "proto");
           ("endpoint", GStr "https://telemetry.googleapis.com");
           ("auth", authenticator extensionName)]);
    procs ← match GetConfig dest !! "GCP_PROJECT_ID" with
            | Some project =>
                let processorName := "resource/gcp-" +:+ GetID dest in
                _ ← add_processor_config processorName (gm
                      [("attributes", GMaps [insert_attribute "gcp.project_id" (GStr project)])]);
                mret [processorName]
            | None => mret []
            end;
    names ← per_signal [(true, "traces/googlecloudotlp-" +:+ GetID dest, mkPipeline [] procs [exporterName])];
    _ ← add_extension_config extensionName (gm (optional dest "GCP_PROJECT_ID" "project"));
    _ ← use_extension extensionName;
    mret names
  else mret []).

Definition Signoz : Configer := mkConfiger "signoz" (fun dest =>
  match GetConfig dest !! "SIGNOZ_URL" with
  | None => fails (ENew "Signoz url not specified, gateway will not be configured for Signoz")
  | Some url =>
      if has_prefix "https://" url
      then fails (ENew "Signoz does not currently supports tls export, gateway will not be configured for Signoz")
      else
        let url := trim_suffix ":4317" (trim_prefix "http://" url) in
        let signozExporterName := "otlp_grpc/signoz-" +:+ GetID dest in
        _ ← add_exporter_config signozExporterName (gm
              [("endpoint", GStr (url +:+ ":4317")); ("tls", insecure true)]);
        per_signal (all_signals dest ("signoz-" +:+ GetID dest) (exports_to signozExporterName))
  end).

Definition Tingyun : Configer := mkConfiger "tingyun" (fun dest =>
  let uniqueUri := "tingyun-" +:+ GetID dest in
  match GetConfig dest !! "TINGYUN_ENDPOINT" with
  | None => fails (errorMissingKey strconv_Quote "TINGYUN_ENDPOINT")
  | Some endpoint =>
      endpoint ← try (parseOtlpHttpEndpoint endpoint "" "");
      let exporterName := "otlp_http/" +:+ uniqueUri in
      _ ← add_exporter_config exporterName (gm [("endpoint", GStr endpoint)]);
      let resourceProcessorName := "resource/" +:+ uniqueUri in
      _ ← add_processor_config resourceProcessorName (gm
            [("attributes", GMaps [insert_attribute "tingyun.license" (secret "TINGYUN_LICENSE_KEY" dest)])]);
      let p := mkPipeline [] [resourceProcessorName] [exporterName] in
      per_signal [(tracing dest, "traces/" +:+ uniqueUri, p); (metrics dest, "metrics/" +:+ uniqueUri, p)]
  end).

Definition OpenObserve : Configer := mkConfiger "openobserve" (fun dest =>
  let config := GetConfig dest in
  let uniqueUri := "openobserve-" +:+ GetID dest in
  match config !! "OPEN_OBSERVE_ENDPOINT" with
  | None => fails (errorMissingKey strconv_Quote "OPEN_OBSERVE_ENDPOINT")
  | Some endpoint =>
  match config !! "OPEN_OBSERVE_STREAM_NAME" with
  | None => fails (errorMissingKey strconv_Quote "OPEN_OBSERVE_STREAM_NAME")
  | Some streamName =>
      let exporterName := "otlp_http/" +:+ uniqueUri in
      _ ← add_exporter_config exporterName (gm
            [("endpoint", GStr endpoint);
             ("headers", GMap (gm
                [("Authorization", GStr ("Basic " +:+ SecretEnvPlaceholder "OPEN_OBSERVE_API_KEY" dest));
                 ("stream-name", GStr streamName)]))]);
      per_signal (all_signals dest uniqueUri (exports_to exporterName))
  end end).

Definition AzureBlobStorage : Configer := mkConfiger "azureblob" (fun dest =>
  match GetConfig dest !! "AZURE_BLOB_ACCOUNT_NAME" with
  | None => fails (ENew "missing Azure Blob Account Name")
  | Some accountName =>
  match GetConfig dest !! "AZURE_BLOB_CONTAINER_NAME" with
  | None => fails (ENew "missing Azure Blob Container Name")
  | Some containerName =>
      let exporterName := "azureblobstorage/" +:+ GetID dest in
      let exporter := gm [("blob", GMap (gm
            [("account_name", GStr accountName); ("container", GStr containerName)]))] in
      ls ← (if logging dest then
              _ ← add_exporter_config exporterName exporter;
              per_signal [(true, "logs/azureblobstorage-" +:+ GetID dest, exports_to exporterName)]
            else mret []);
      ts ← (if tracing dest then
              _ ← add_exporter_config exporterName exporter;
              per_signal [(true, "traces/azureblobstorage-" +:+ GetID dest, exports_to exporterName)]
            else mret []);
      mret (ls ++ ts)
  end end).

Definition Dash0 : Configer := mkConfiger "dash0" (fun dest =>
  let uniqueUri := "dash0-" +:+ GetID dest in
  match GetConfig dest !! "DASH0_ENDPOINT" with
  | None => fails (ENew (quoted
      "Dash0 is missing a required field (`DASH0_ENDPOINT`), Dash0 will not be configured"))
  | Some url =>
      endpoint ← try (parseOtlpGrpcUrl url true);
      let exporterName := "otlp_grpc/" +:+ uniqueUri in
      _ ← add_exporter_config exporterName (gm
            [("endpoint", GStr endpoint);
             ("headers", GMap (gm [("Authorization", GStr ("Bearer " +:+ SecretEnvPlaceholder "DASH0_TOKEN" dest))]))]);
      per_signal (all_signals dest uniqueUri (exports_to exporterName))
  end).

Definition Lumigo : Configer := mkConfiger "lumigo" (fun dest =>
  let uniqueUri := "lumigo-" +:+ GetID dest in
  match GetConfig dest !! "LUMIGO_ENDPOINT" with
  | None => fails (ENew (quoted
      "Lumigo is missing a required field (`LUMIGO_ENDPOINT`), Lumigo will not be configured"))
  | Some url =>
      endpoint ← try (parseOtlpHttpEndpoint url "" "");
      let exporterName := "otlp_http/" +:+ uniqueUri in
      _ ← add_exporter_config exporterName (gm
            [("endpoint", GStr endpoint);
             ("headers", GMap (gm
                [("Authorization", GStr ("LumigoToken " +:+ SecretEnvPlaceholder "LUMIGO_TOKEN" dest))]))]);
      per_signal (all_signals dest uniqueUri (exports_to exporterName))
  end).

Definition NewRelic : Configer := mkConfiger "newrelic" (fun dest =>
  let s := "newrelic-" +:+ GetID dest in
  match GetConfig dest !! "NEWRELIC_ENDPOINT" with
  | None => fails (ENew "New relic endpoint not specified, gateway will not be configured for New Relic")
  | Some endpoint =>
      let exporterName := "otlp_grpc/" +:+ s in
      _ ← add_exporter_config exporterName (gm
            [("endpoint", GStr (endpoint +:+ ":4317"));
             ("headers", GMap (gm [("api-key", secret "NEWRELIC_API_KEY" dest)]))]);
      ts ← per_signal [(tracing dest, "traces/" +:+ s, exports_to exporterName)];
      ms ← (if metrics dest then
              let cumulativeToDeltaProcessorName := "cumulativetodelta/" +:+ s in
              _ ← add_processor_config cumulativeToDeltaProcessorName (gm
                    [("include", GMap (gm
                       [("metrics", GStrs ["jvm.gc.duration"; "jvm.cpu.time"]);
                        ("match_type", GStr "strict")]))]);
              per_signal [(true, "metrics/" +:+ s, mkPipeline [] [cumulativeToDeltaProcessorName] [exporterName])]
            else mret []);
      ls ← per_signal [(logging dest, "logs/" +:+ s, exports_to exporterName)];
      mret (ts ++ ms ++ ls)
  end).

Definition Uptrace : Configer := mkConfiger "uptrace" (fun dest =>
  match GetConfig dest !! "UPTRACE_DSN" with
  | None => fails (ENew (quoted
      "Uptrace url(`UPTRACE_DSN`) not specified, gateway will not be configured for Uptrace"))
  | Some dsn =>
      let endpoint := default "https://otlp.uptrace.dev:4317" (GetConfig dest !! "UPTRACE_ENDPOINT") in
      let isHttpEndpoint := has_prefix "http://" endpoint in
      let exporterName := "otlp_grpc/uptrace-" +:+ GetID dest in
      _ ← add_exporter_config exporterName (gm
            [("endpoint", GStr endpoint); ("tls", insecure isHttpEndpoint);
             ("headers", GMap (gm [("uptrace-dsn", GStr dsn)]))]);
      per_signal (all_signals dest ("uptrace-" +:+ GetID dest) (exports_to exporterName))
  end).

Definition Greptime : Configer := mkConfiger "greptime" (fun dest =>
  let config := GetConfig dest in
  let uniqueUri := "greptime-" +:+ GetID dest in
  match config !! "GREPTIME_ENDPOINT" with
  | None => fails (errorMissingKey strconv_Quote "GREPTIME_ENDPOINT")
  | Some endpoint =>
      endpoint ← try (parseOtlpHttpEndpoint endpoint "" "/v1/otlp");
      match config !! "GREPTIME_DB_NAME" with
      | None => fails (errorMissingKey strconv_Quote "GREPTIME_DB_NAME")
      | Some dbName =>
      match config !! "GREPTIME_BASIC_USERNAME" with
      | None => fails (errorMissingKey strconv_Quote "GREPTIME_BASIC_USERNAME")
      | Some basicUsername =>
          let authExtensionName := "basicauth/" +:+ uniqueUri in
          _ ← add_extension_config authExtensionName
                (basic_auth basicUsername (secret "GREPTIME_BASIC_PASSWORD" dest));
          let exporterName := "otlp_http/" +:+ uniqueUri in
          _ ← add_exporter_config exporterName (gm
                [("endpoint", GStr endpoint); ("auth", authenticator authExtensionName);
                 ("headers", GMap (gm [("X-Greptime-DB-Name", GStr dbName)]))]);
          _ ← use_extension authExtensionName;
          per_signal [(metrics dest, "metrics/" +:+ uniqueUri, exports_to exporterName)]
      end end
  end).
End Vendors.
