(* ===== verification/DestinationEndpoints.v ===== *)
(** * Configurers with endpoints and settings of their own (src/common/config)

    The destinations that rewrite the endpoint they are given, or choose
    exporters by signal and by setting. *)

From Stdlib Require Import Ascii.
From S2P Require Import Prelude.
From S2P Require Import GoStrings.
From S2P Require Import K8s.
From S2P Require Import Api.
From S2P Require Import GoLib.
From S2P Require Import CollectorConfig.
From S2P Require Import Destinations.
From S2P Require Import DestinationTypes.
From S2P Require Import DestinationVendors.

(** [strings.Replace(s, old, new, 1)]. *)
Fixpoint replace_first (old new s : string) : string :=
  if has_prefix old s then new +:+ trim_prefix old s
  else match s with EmptyString => EmptyString | String c s => String c (replace_first old new s) end.

Example replace_first_ex :
  replace_first "db" "db:9000" "tcp://db/db" = "tcp://db:9000/db" ∧ replace_first "" "x" "ab" = "xab".
Proof. by vm_compute. Qed.

(** [if v := config[key]; v != "" { m[name] = v }]. *)
Definition when_set (config : gmap string string) (key name : string) : list (string * gval) :=
  let v := map_get config key in if decide (v = "") then [] else [(name, GStr v)].
Definition when_set_bool (config : gmap string string) (key name : string) : list (string * gval) :=
  let v := map_get config key in if decide (v = "") then [] else [(name, GBool (parseBool v))].

(** What the code uses of package net/url besides [url.Parse], and the
    number that [strconv.ParseFloat] gives (also with an error). *)
Class GoUrlMore := {
  ParseRequestURI : string -> string + URL;
  (** [url.UserPassword(username, password)] as it prints. *)
  UserPassword : string -> string -> string;
  ParseFloat : string -> float64
}.

Section Endpoints.
Context `{GoUrl} `{GoUrlMore} `{GoLibrary}.

Definition Oracle : Configer := mkConfiger "oracle" (fun dest =>
  let config := GetConfig dest in
  let uniqueUri := "oracle-" +:+ GetID dest in
  match config !! "ORACLE_ENDPOINT" with
  | None => fails (errorMissingKey strconv_Quote "ORACLE_ENDPOINT")
  | Some endpoint =>
      endpoint ← try (parseOtlpHttpEndpoint endpoint "" "");
      let exporterName := "otlp_http/" +:+ uniqueUri in
      let exporterConfig endpoint := gm
        [("endpoint", GStr endpoint);
         ("headers", GMap (gm
            [("Authorization", GStr ("dataKey " +:+ SecretEnvPlaceholder "ORACLE_DATA_KEY" dest))]))] in
      ts ← (if tracing dest then
              match config !! "ORACLE_DATA_KEY_TYPE" with
              | None => fails (errorMissingKey strconv_Quote "ORACLE_DATA_KEY_TYPE")
              | Some dataKeyType =>
                  if decide (dataKeyType <> "private" ∧ dataKeyType <> "public")
                  then fails (ENew "invalid value for ORACLE_DATA_KEY_TYPE, must be one-of [private, public]")
                  else
                    _ ← add_exporter_config exporterName
                          (exporterConfig (endpoint +:+ "/20200101/opentelemetry/" +:+ dataKeyType));
                    per_signal [(true, "traces/" +:+ uniqueUri, exports_to exporterName)]
              end
            else mret []);
      ms ← (if metrics dest then
              _ ← add_exporter_config exporterName (exporterConfig (endpoint +:+ "/20200101/opentelemetry"));
              per_signal [(true, "metrics/" +:+ uniqueUri, exports_to exporterName)]
            else mret []);
      mret (ts ++ ms)
  end).

Definition Groundcover : Configer := mkConfiger "groundcover" (fun dest =>
  let uniqueUri := "groundcover-" +:+ GetID dest in
  match GetConfig dest !! "GROUNDCOVER_ENDPOINT" with
  | None => fails (ENew (quoted
      "Groundcover is missing a required field (`GROUNDCOVER_ENDPOINT`), Groundcover will not be configured"))
  | Some url =>
      endpoint ← try (parseOtlpGrpcUrl url true);
      let exporterName := "otlp_grpc/" +:+ uniqueUri in
      _ ← add_exporter_config exporterName (gm
            [("endpoint", GStr endpoint);
             ("headers", GMap (gm [("apikey", secret "GROUNDCOVER_API_KEY" dest)]))]);
      per_signal (all_signals dest uniqueUri (exports_to exporterName))
  end).

Definition grafanaTempoUrlFromInput (rawUrl : string) : string :=
  let otlpEndpointUrl := trim_suffix "/tempo" (trim_prefix "https://" rawUrl) in
  if contains ":" otlpEndpointUrl then otlpEndpointUrl else otlpEndpointUrl +:+ ":443".

Definition GrafanaCloudTempo : Configer := mkConfiger "grafanacloudtempo" (fun dest =>
  if negb (tracing dest)
  then fails (ENew "Tracing not enabled, gateway will not be configured for grafana cloud Tempo")
  else match GetConfig dest !! "GRAFANA_CLOUD_TEMPO_ENDPOINT" with
  | None => fails (ENew "Grafana Cloud Tempo endpoint not specified, gateway will not be configured for Tempo")
  | Some tempoUrl =>
  match GetConfig dest !! "GRAFANA_CLOUD_TEMPO_USERNAME" with
  | None => fails (ENew "Grafana Cloud Tempo username not specified, gateway will not be configured for Tempo")
  | Some tempoUsername =>
      let grpcEndpointUrl := grafanaTempoUrlFromInput tempoUrl in
      let authExtensionName := "basicauth/grafana" +:+ GetID dest in
      _ ← add_extension_config authExtensionName
            (basic_auth tempoUsername (secret "GRAFANA_CLOUD_TEMPO_PASSWORD" dest));
      let exporterName := "otlp_grpc/grafana-" +:+ GetID dest in
      _ ← add_exporter_config exporterName (gm
            [("endpoint", GStr grpcEndpointUrl); ("auth", authenticator authExtensionName)]);
      _ ← use_extension authExtensionName;
      per_signal [(true, "traces/grafana-" +:+ GetID dest, exports_to exporterName)]
  end end).

(** Every signal has an exporter of its own. *)
Definition Observe : Configer := mkConfiger "observe" (fun dest =>
  let config := GetConfig dest in
  let uniqueUri := "observe-" +:+ GetID dest in
  endpoint ← (let endpoint := map_get config "OBSERVE_ENDPOINT" in
              if decide (endpoint = "") then
                match config !! "OBSERVE_CUSTOMER_ID" with
                | None => fails (errorMissingKey strconv_Quote "OBSERVE_CUSTOMER_ID")
                | Some customerId => mret ("https://" +:+ customerId +:+ ".collect.observeinc.com/v2/otel")
                end
              else mret endpoint);
  let exporter targetPackage := gm
    [("endpoint", GStr endpoint);
     ("headers", GMap (gm
        [("authorization", GStr ("Bearer " +:+ SecretEnvPlaceholder "OBSERVE_TOKEN" dest));
         ("x-observe-target-package", GStr targetPackage)]))] in
  ts ← (if tracing dest then
          let exporterName := "otlp_http/traces-" +:+ uniqueUri in
          _ ← add_exporter_config exporterName (exporter "Tracing");
          per_signal [(true, "traces/" +:+ uniqueUri, exports_to exporterName)]
        else mret []);
  ms ← (if metrics dest then
          let exporterName := "otlp_http/metrics-" +:+ uniqueUri in
          _ ← add_exporter_config exporterName (exporter "Metrics");
          per_signal [(true, "metrics/" +:+ uniqueUri, exports_to exporterName)]
        else mret []);
  ls ← (if logging dest then
          let exporterName := "otlp_http/logs-" +:+ uniqueUri in
          _ ← add_exporter_config exporterName (exporter "Host Explorer");
          per_signal [(true, "logs/" +:+ uniqueUri, exports_to exporterName)]
        else mret []);
  mret (ts ++ ms ++ ls)).

Definition ElasticAPM_parseEndpoint (endpoint : string) : string :=
  let endpoint := trim_prefix "https://" (trim_prefix "http://" endpoint) in
  match split ":" endpoint with
  | host :: port :: _ => host +:+ ":" +:+ port
  | host :: [] => host +:+ ":8200"
  | [] => ":8200"
  end.

Definition ElasticAPM : Configer := mkConfiger "elasticapm" (fun dest =>
  match GetConfig dest !! "ELASTIC_APM_SERVER_ENDPOINT" with
  | None => fails (ENew "ElasticAPM config is missing required variables")
  | Some serverEndpoint =>
      let isTlsDisabled := contains "http://" serverEndpoint in
      let elasticApmEndpoint := ElasticAPM_parseEndpoint serverEndpoint in
      let exporterName := "otlp_grpc/elastic-" +:+ GetID dest in
      _ ← add_exporter_config exporterName (gm
            [("endpoint", GStr elasticApmEndpoint); ("tls", insecure isTlsDisabled);
             ("headers", GMap (gm
                [("authorization", GStr ("Bearer " +:+ SecretEnvPlaceholder "ELASTIC_APM_SECRET_TOKEN" dest))]))]);
      per_signal (all_signals dest ("elastic-" +:+ GetID dest) (exports_to exporterName))
  end).

Definition Instana : Configer := mkConfiger "instana" (fun dest =>
  let uniqueUri := "instana-" +:+ GetID dest in
  match GetConfig dest !! "INSTANA_ENDPOINT" with
  | None => fails (errorMissingKey strconv_Quote "INSTANA_ENDPOINT")
  | Some endpoint =>
      endpoint ← try (parseOtlpGrpcUrl endpoint true);
      let exporterName := "otlp_grpc/" +:+ uniqueUri in
      let processorName := "resource/" +:+ uniqueUri in
      _ ← add_exporter_config exporterName (gm
            [("endpoint", GStr endpoint);
             ("headers", GMap (gm [("x-instana-key", secret "INSTANA_AGENT_KEY" dest)]))]);
      _ ← add_processor_config processorName (gm
            [("attributes", GMaps [attribute_from "host.id" "k8s.node.name" "insert"])]);
      per_signal (all_signals dest uniqueUri (mkPipeline [] [processorName] [exporterName]))
  end).

(** [parsetheDTurl] calls itself on the text with a scheme in front; [fuel]
    bounds the calls ([parsetheDTurl_returns] in AvailableConfigers). *)
Fixpoint parsetheDTurl (fuel : nat) (rawURL : string) : option (string + string) :=
  match fuel with
  | O => None
  | S fuel =>
      match url_parse rawURL with
      | inl err => Some (inl err)
      | inr u =>
          if decide (Scheme u = "") then parsetheDTurl fuel ("https://" +:+ rawURL)
          else Some (inr ("https://" +:+ Host u +:+ trim_right "/" (Path u)))
      end
  end.

Definition Dynatrace : Configer := mkConfiger "dynatrace" (fun dest =>
  match GetConfig dest !! "DYNATRACE_URL" with
  | None => fails (ENew "Dynatrace config is missing required variables")
  | Some url =>
      match parsetheDTurl 2 url with
      | None | Some (inl _) => fails (ENew "Dynatrace url is not a valid")
      | Some (inr baseURL) =>
          let exporterName := "otlp_http/dynatrace-" +:+ GetID dest in
          _ ← add_exporter_config exporterName (gm
                [("endpoint", GStr (baseURL +:+ "/api/v2/otlp"));
                 ("headers", GMap (gm
                    [("Authorization", GStr ("Api-Token " +:+ SecretEnvPlaceholder "DYNATRACE_API_TOKEN" dest))]))]);
          per_signal (all_signals dest ("dynatrace-" +:+ GetID dest) (exports_to exporterName))
      end
  end).

Definition getCompanyNameFromURL (url : string) : string :=
  trim_suffix ".chronosphere.io" (trim_suffix ".chronosphere.io:443" (trim_suffix "/" url)).

Definition Chronosphere : Configer := mkConfiger "chronosphere" (fun dest =>
  match GetConfig dest !! "CHRONOSPHERE_DOMAIN" with
  | None => fails (ENew "missing CHRONOSPHERE_DOMAIN config")
  | Some url =>
      let company := getCompanyNameFromURL url in
      let chronosphereExporterName := "otlp_grpc/chronosphere-" +:+ GetID dest in
      _ ← add_exporter_config chronosphereExporterName (gm
            [("endpoint", GStr (company +:+ ".chronosphere.io:443"));
             ("retry_on_failure", GMap (gm [("enabled", GBool true)]));
             ("compression", GStr "gzip");
             ("headers", GMap (gm [("API-Token", secret "CHRONOSPHERE_API_TOKEN" dest)]))]);
      ts ← per_signal [(tracing dest, "traces/chronosphere-" +:+ GetID dest, exports_to chronosphereExporterName)];
      ms ← (if metrics dest then
              let chronosphereMetricProcessorName := "resource/chornosphere-" +:+ GetID dest in
              _ ← add_processor_config chronosphereMetricProcessorName (gm
                    [("attributes", GMaps
                       [attribute_from "service.instance.id" "k8s.node.name" "insert";
                        attribute_from "service.instance.id" "k8s.pod.name" "upsert";
                        insert_attribute "instrumentation.control.plane" (GStr "odigos")])]);
              per_signal [(true, "metrics/chronosphere-" +:+ GetID dest,
                           mkPipeline [] [chronosphereMetricProcessorName] [chronosphereExporterName])]
            else mret []);
      mret (ts ++ ms)
  end).

Definition Coralogix : Configer := mkConfiger "coralogix" (fun dest =>
  if negb (tracing dest) && negb (logging dest) && negb (metrics dest)
  then fails (ENew "coralogix destination does not have any signals to export")
  else match GetConfig dest !! "CORALOGIX_DOMAIN" with
  | None => fails (ENew "Coralogix domain not specified, gateway will not be configured for Coralogix")
  | Some domain =>
  match GetConfig dest !! "CORALOGIX_APPLICATION_NAME" with
  | None => fails (ENew "Coralogix application name not specified, gateway will not be configured for Coralogix")
  | Some appName =>
  match GetConfig dest !! "CORALOGIX_SUBSYSTEM_NAME" with
  | None => fails (ENew "Coralogix subsystem name not specified, gateway will not be configured for Coralogix")
  | Some subName =>
      let exporterName := "coralogix/" +:+ GetID dest in
      _ ← add_exporter_config exporterName (gm
            [("private_key", secret "CORALOGIX_PRIVATE_KEY" dest); ("domain", GStr domain);
             ("application_name", GStr appName); ("subsystem_name", GStr subName)]);
      ts ← per_signal [(tracing dest, "traces/coralogix-" +:+ GetID dest, exports_to exporterName)];
      ms ← (if metrics dest then
              let transformProcessorName := "transform/coralogix-spanmetrics-" +:+ GetID dest in
              _ ← add_processor_config transformProcessorName (gm
                    [("metric_statements", GMaps [gm
                       [("context", GStr "metric");
                        ("statements", GStrs (quoted <$>
                           ["set(name, `calls`) where name == `traces.span.metrics.calls`";
                            "set(name, `errors`) where name == `traces.span.metrics.errors`";
                            "set(name, `duration`) where name == `traces.span.metrics.duration`"]))]])]);
              per_signal [(true, "metrics/coralogix-" +:+ GetID dest,
                           mkPipeline [] [transformProcessorName] [exporterName])]
            else mret []);
      ls ← per_signal [(logging dest, "logs/coralogix-" +:+ GetID dest, exports_to exporterName)];
      mret (ts ++ ms ++ ls)
  end end end).

Definition validateCauselyUrlInput (rawUrl : string) : error + string :=
  let urlWithScheme := if contains "://" rawUrl then trim_space rawUrl else "http://" +:+ rawUrl in
  match url_parse urlWithScheme with
  | inl err => inl (ENew err)
  | inr u =>
      let scheme := if decide (Scheme u = "https") then "http" else Scheme u in
      let noPath := mkURL scheme (User u) (Host u) "" (RawQuery u) in
      if decide (scheme <> "http")
      then inl (ENew ("Causely endpoint scheme must be http, got " +:+ scheme))
      else if decide (url_Hostname noPath = "") then inl (ENew "Causely endpoint host is required")
      else if decide (url_Port noPath = "")
      then inr (url_string (mkURL scheme (User u) (url_Hostname noPath +:+ ":4317") "" (RawQuery u)))
      else inr (url_string noPath)
  end.

Definition Causely : Configer := mkConfiger "causely" (fun dest =>
  match GetConfig dest !! "CAUSELY_URL" with
  | None => fails (ENew "Causely url not specified, gateway will not be configured for Causely")
  | Some rawUrl =>
      match validateCauselyUrlInput rawUrl with
      | inl err => fails (EJoin err (ENew
          "failed to parse Causely endpoint, gateway will not be configured for Causely"))
      | inr validatedUrl =>
          let exporterName := "otlp_grpc/causely-" +:+ GetID dest in
          _ ← add_exporter_config exporterName (gm [("endpoint", GStr validatedUrl); ("tls", insecure true)]);
          per_signal [(tracing dest, "traces/causely-" +:+ GetID dest, exports_to exporterName);
                      (metrics dest, "metrics/causely-" +:+ GetID dest, exports_to exporterName)]
      end
  end).

Definition GetListenerUrl (region : string) : string :=
  switch region
    [("us", "https://listener.logz.io:8053"); ("ca", "https://listener-ca.logz.io:8053");
     ("eu", "https://listener-eu.logz.io:8053"); ("uk", "https://listener-uk.logz.io:8053");
     ("nl", "https://listener-nl.logz.io:8053"); ("au", "https://listener-au.logz.io:8053");
     ("wa", "https://listener-wa.logz.io:8053")] "https://listener.logz.io:8053".

Definition Logzio : Configer := mkConfiger "logzio" (fun dest =>
  let region := map_get (GetConfig dest) "LOGZIO_REGION" in
  ts ← (if tracing dest then
          let exporterName := "logzio/tracing-" +:+ GetID dest in
          _ ← add_exporter_config exporterName (gm
                [("region", GStr region); ("account_token", secret "LOGZIO_TRACING_TOKEN" dest)]);
          per_signal [(true, "traces/logzio-" +:+ GetID dest, exports_to exporterName)]
        else mret []);
  ms ← (if metrics dest then
          let exporterName := "prometheusremotewrite/logzio-" +:+ GetID dest in
          _ ← add_exporter_config exporterName (gm
                [("endpoint", GStr (GetListenerUrl region));
                 ("external_labels", GMap (gm [("p8s_logzio_name", GStr "odigos")]));
                 ("headers", GMap (gm
                    [("authorization", GStr ("Bearer " +:+ SecretEnvPlaceholder "LOGZIO_METRICS_TOKEN" dest))]))]);
          per_signal [(true, "metrics/logzio-" +:+ GetID dest, exports_to exporterName)]
        else mret []);
  ls ← (if logging dest then
          let exporterName := "logzio/logs-" +:+ GetID dest in
          _ ← add_exporter_config exporterName (gm
                [("region", GStr region); ("account_token", secret "LOGZIO_LOGS_TOKEN" dest)]);
          _ ← add_processor_config "attributes/logzio" (gm
                [("actions", GMaps
                   [gm [("key", GStr "log.file.path"); ("action", GStr "delete")];
                    gm [("key", GStr "log.iostream"); ("action", GStr "delete")];
                    insert_attribute "type" (GStr "odigos")])]);
          per_signal [(true, "logs/logzio-" +:+ GetID dest, mkPipeline [] ["attributes/logzio"] [exporterName])]
        else mret []);
  mret (ts ++ ms ++ ls)).

Definition Splunk : Configer := mkConfiger "splunk" (fun dest =>
  match GetConfig dest !! "SPLUNK_REALM" with
  | None => fails (ENew "Splunk realm not specified, gateway will not be configured for Splunk")
  | Some realm =>
      if tracing dest then
        let exporterName := "sapm/" +:+ GetID dest in
        _ ← add_exporter_config exporterName (gm
              [("access_token", secret "SPLUNK_ACCESS_TOKEN" dest);
               ("endpoint", GStr ("https://ingest." +:+ realm +:+ ".signalfx.com/v2/trace"))]);
        per_signal [(true, "traces/splunk-" +:+ GetID dest, exports_to exporterName)]
      else mret []
  end).

Definition SplunkOTLP : Configer := mkConfiger "splunkotlp" (fun dest =>
  let config := GetConfig dest in
  match config !! "SPLUNK_REALM" with
  | None => fails (ENew "Splunk realm not specified, gateway will not be configured for Splunk")
  | Some realm =>
      let tlsEnabled := bool_decide (map_get config "SPLUNK_OTLP_TLS_ENABLED" = "true") in
      let tlsConfig := ("insecure", GBool (negb tlsEnabled))
        :: when_set config "SPLUNK_OTLP_CA_PEM" "ca_pem"
        ++ when_set_bool config "SPLUNK_OTLP_INSECURE_SKIP_VERIFY" "insecure_skip_verify" in
      if tracing dest then
        let exporterName := "otlp_http/" +:+ GetID dest in
        _ ← add_exporter_config exporterName (gm
              ([("headers", GMap (gm [("X-SF-Token", secret "SPLUNK_ACCESS_TOKEN" dest)]));
                ("traces_endpoint", GStr ("https://ingest." +:+ realm +:+ ".signalfx.com/v2/trace/otlp"))]
               ++ optional dest "SPLUNK_OTLP_COMPRESSION" "compression"
               ++ (if tlsEnabled then [("tls", GMap (gm tlsConfig))] else [])));
        per_signal [(true, "traces/splunkotlp-" +:+ GetID dest, exports_to exporterName)]
      else mret []
  end).

Definition remoteWriteEndpoint (url : string) : string :=
  if existsb (fun suffix => has_suffix suffix url) ["/api/v1/write"; "/api/v1/push"] then url
  else url +:+ "/api/v1/write".

(** The extensions are a map of the basic configuration, hence never nil. *)
Definition Prometheus : Configer := mkConfiger "prometheus" (fun dest =>
  let uniqueUri := "prometheus-" +:+ GetID dest in
  let config := GetConfig dest in
  match config !! "PROMETHEUS_REMOTEWRITE_URL" with
  | None => fails (ENew
      "Prometheus remote writer url not specified, gateway will not be configured for prometheus")
  | Some url =>
      if negb (metrics dest) then fails (ENew
        "metrics not enabled for prometheus destination, gateway will not be configured for prometheus")
      else
        let endpoint := remoteWriteEndpoint (addProtocol url) in
        let rwExporterName := "prometheusremotewrite/" +:+ uniqueUri in
        let exporterConfig :=
          [("endpoint", GStr endpoint);
           ("resource_to_telemetry_conversion", GMap (gm [("enabled", GBool true)]))] in
        let useAuth := bool_decide (map_get config "PROMETHEUS_USE_AUTHENTICATION" = "true") in
        let username := map_get config "PROMETHEUS_BASIC_AUTH_USERNAME" in
        auth ← (if useAuth then
                  if decide (username <> "") then
                    let authExtensionName := "basicauth/" +:+ uniqueUri in
                    _ ← add_extension_config authExtensionName
                          (basic_auth username (secret "PROMETHEUS_BASIC_AUTH_PASSWORD" dest));
                    _ ← use_extension authExtensionName;
                    mret [("auth", authenticator authExtensionName)]
                  else
                    let authExtensionName := "bearertokenauth/" +:+ uniqueUri in
                    _ ← add_extension_config authExtensionName
                          (gm [("token", secret "PROMETHEUS_BEARER_TOKEN" dest)]);
                    _ ← use_extension authExtensionName;
                    mret [("auth", authenticator authExtensionName)]
                else mret []);
        _ ← add_exporter_config rwExporterName (gm (exporterConfig ++ auth));
        per_signal [(true, "metrics/" +:+ uniqueUri, exports_to rwExporterName)]
  end).

Definition s3_partition_format (config : gmap string string) : error + string :=
  match config !! "S3_PARTITION_FORMAT" with
  | Some format => inr format
  | None =>
      switch (default "minute" (config !! "S3_PARTITION"))
        [("minute", inr "year=%Y/month=%m/day=%d/hour=%H/minute=%M");
         ("hour", inr "year=%Y/month=%m/day=%d/hour=%H")]
        (inl (ENew "invalid partition specified, gateway will not be configured for AWS S3"))
  end.

Definition AWSS3 : Configer := mkConfiger "s3" (fun dest =>
  let config := GetConfig dest in
  if negb (logging dest) && negb (tracing dest) && negb (metrics dest)
  then fails (ENew "no metrics, logs or traces enabled, gateway will not be configured for AWS S3")
  else match config !! "S3_BUCKET" with
  | None => fails (ENew "s3 bucket not specified")
  | Some bucket =>
  match config !! "S3_REGION" with
  | None => fails (ENew "s3 region not specified")
  | Some region =>
      partitionFormat ← try (s3_partition_format config);
      let marshaler := default "otlp_json" (config !! "S3_MARSHALER") in
      if decide (marshaler <> "otlp_json" ∧ marshaler <> "otlp_proto")
      then fails (ENew "invalid marshaller specified, gateway will not be configured for AWS S3")
      else
        let exporterName := "awss3/" +:+ GetID dest in
        _ ← add_exporter_config exporterName (gm
              [("s3uploader", GMap (gm
                  [("region", GStr region); ("s3_bucket", GStr bucket);
                   ("s3_partition_format", GStr partitionFormat)]));
               ("marshaler", GStr marshaler)]);
        per_signal [(logging dest, "logs/awss3-" +:+ GetID dest, exports_to exporterName);
                    (metrics dest, "metrics/awss3-" +:+ GetID dest, exports_to exporterName);
                    (tracing dest, "traces/awss3-" +:+ GetID dest, exports_to exporterName)]
  end end).

(** [strings.Split] gives at least one part. *)
Definition appdynamics_host (endpoint accountName : string) : string :=
  match split "." endpoint with
  | [] => ""
  | _ :: parts => join "." (accountName :: parts)
  end.

Definition AppDynamics : Configer := mkConfiger "appdynamics" (fun dest =>
  let config := GetConfig dest in
  let uniqueUri := "appdynamics-" +:+ GetID dest in
  match config !! "APPDYNAMICS_ENDPOINT_URL" with
  | None => fails (ENew (quoted
      "AppDynamics Endpoint URL (`APPDYNAMICS_ENDPOINT_URL`) not specified, AppDynamics will not be configured"))
  | Some endpoint =>
      if negb (has_prefix "http://" endpoint) && negb (has_prefix "https://" endpoint)
      then fails (ENew (quoted ("AppDynamics Endpoint URL (`APPDYNAMICS_ENDPOINT_URL`) malformed, " +:+
                                "HTTP prefix is required, AppDynamics will not be configured")))
      else match config !! "APPDYNAMICS_ACCOUNT_NAME" with
      | None => fails (ENew (quoted
          "AppDynamics Account Name (`APPDYNAMICS_ACCOUNT_NAME`) not specified, AppDynamics will not be configured"))
      | Some accountName =>
          let applicationName := default "odigos" (config !! "APPDYNAMICS_APPLICATION_NAME") in
          let host := appdynamics_host endpoint accountName in
          let exporterName := "otlp_http/" +:+ uniqueUri in
          _ ← add_exporter_config exporterName (gm
                [("endpoint", GStr endpoint);
                 ("headers", GMap (gm [("x-api-key", secret "APPDYNAMICS_API_KEY" dest)]))]);
          let processorName := "resource/" +:+ uniqueUri in
          _ ← add_processor_config processorName (gm
                [("attributes", GMaps
                   [insert_attribute "service.namespace" (GStr applicationName);
                    insert_attribute "appdynamics.controller.account" (GStr accountName);
                    insert_attribute "appdynamics.controller.host" (GStr host);
                    insert_attribute "appdynamics.controller.port" (GInt 443)])]);
          per_signal (all_signals dest uniqueUri (mkPipeline [] [processorName] [exporterName]))
      end
  end).

Definition Mock : Configer := mkConfiger "mock" (fun dest =>
  let config := GetConfig dest in
  let exporterName := "mockdestination/" +:+ GetID dest in
  _ ← add_exporter_config exporterName (gm
        ([("response_duration", GStr (map_get config "MOCK_RESPONSE_DURATION_MS" +:+ "ms"));
          ("reject_fraction", GFloat (ParseFloat (map_get config "MOCK_REJECT_FRACTION")))]
         ++ when_set config "MOCK_ENCODING" "encoding"));
  per_signal (all_signals dest ("mockdestination-" +:+ GetID dest) (exports_to exporterName))).

(** *** Elasticsearch and Clickhouse *)

Definition SanitizeURL (link : string) : error + string :=
  match ParseRequestURI link with
  | inl err => inl (ENew err)
  | inr u =>
      if decide (Scheme u = "" ∨ Host u = "") then inl (ENew "invalid URL")
      else
        let host := if urlHostContainsPort (Host u) then Host u else Host u +:+ ":9200" in
        inr (url_string (mkURL (Scheme u) (User u) host (Path u) (RawQuery u)))
  end.

Definition Elasticsearch : Configer := mkConfiger "elasticsearch" (fun dest =>
  let config := GetConfig dest in
  match config !! "ELASTICSEARCH_URL" with
  | None => fails (ENew "ElasticSearch url not specified, gateway will not be configured for ElasticSearch")
  | Some rawURL =>
      match SanitizeURL rawURL with
      | inl err => fails (EJoin err (ENew ("failed to sanitize URL. elasticsearch-url: " +:+ rawURL)))
      | inr parsedURL =>
          let caPem := map_get config "ELASTICSEARCH_CA_PEM" in
          let basicAuthUsername := map_get config "ELASTICSEARCH_USERNAME" in
          let exporterName := "elasticsearch/" +:+ GetID dest in
          _ ← add_exporter_config exporterName (gm
                ([("endpoints", GStrs [parsedURL]);
                  ("traces_index", GStr (default "trace_index" (config !! "ES_TRACES_INDEX")));
                  ("logs_index", GStr (default "log_index" (config !! "ES_LOGS_INDEX")))]
                 ++ (if decide (caPem <> "") then [("tls", GMap (gm [("ca_pem", GStr caPem)]))] else [])
                 ++ (if decide (basicAuthUsername <> "")
                     then [("user", GStr basicAuthUsername); ("password", secret "ELASTICSEARCH_PASSWORD" dest)]
                     else [])));
          per_signal [(tracing dest, "traces/elasticsearch-" +:+ GetID dest, exports_to exporterName);
                      (logging dest, "logs/elasticsearch-" +:+ GetID dest, exports_to exporterName)]
      end
  end).

Definition clickhouseTlsConfig (dest : ExporterConfigurer) : GenericMap :=
  let config := GetConfig dest in
  gm (("insecure", GBool false)
      :: when_set_bool config "CLICKHOUSE_INSECURE_SKIP_VERIFY" "insecure_skip_verify"
      ++ (if decide (map_get config "CLICKHOUSE_USE_CUSTOM_CA" = "true")
          then [("ca_file", GStr ("/etc/clickhouse/certs" +:+ "/" +:+ GetID dest +:+ "/" +:+ "CLICKHOUSE_CA_PEM"))]
          else [])).

Definition clickhouse_metrics_tables (dest : ExporterConfigurer) : GenericMap :=
  let table key name := match GetConfig dest !! key with
                        | Some v => [(name, GMap (gm [("name", GStr v)]))]
                        | None => []
                        end in
  gm (table "CLICKHOUSE_METRICS_TABLE_SUM" "sum" ++ table "CLICKHOUSE_METRICS_TABLE_GAUGE" "gauge"
      ++ table "CLICKHOUSE_METRICS_TABLE_HISTOGRAM" "histogram" ++ table "CLICKHOUSE_METRICS_TABLE_SUMMARY" "summary"
      ++ table "CLICKHOUSE_METRICS_TABLE_EXP_HISTOGRAM" "exponential_histogram").

Definition Clickhouse : Configer := mkConfiger "clickhouse" (fun dest =>
  let config := GetConfig dest in
  match config !! "CLICKHOUSE_ENDPOINT" with
  | None => fails (ENew "clickhouse endpoint not specified, gateway will not be configured for Clickhouse")
  | Some endpoint =>
      let endpoint := if contains "://" endpoint then endpoint else "tcp://" +:+ endpoint in
      match url_parse endpoint with
      | inl _ => fails (ENew "clickhouse endpoint is not a valid URL")
      | inr parsedUrl =>
          let endpoint := if decide (url_Port parsedUrl = "")
                          then replace_first (Host parsedUrl) (Host parsedUrl +:+ ":9000") endpoint
                          else endpoint in
          let exporterName := "clickhouse/clickhouse-" +:+ GetID dest in
          match config !! "CLICKHOUSE_DATABASE_NAME" with
          | None => fails (ENew
              "clickhouse database name not specified, gateway will not be configured for Clickhouse")
          | Some dbName =>
              _ ← add_exporter_config exporterName (gm
                    ([("endpoint", GStr endpoint)]
                     ++ match config !! "CLICKHOUSE_USERNAME" with
                        | Some username => [("username", GStr username); ("password", secret "CLICKHOUSE_PASSWORD" dest)]
                        | None => []
                        end
                     ++ [("create_schema", GBool (getBooleanConfig (map_get config "CLICKHOUSE_CREATE_SCHEME") "create"));
                         ("database", GStr dbName)]
                     ++ (if decide (map_get config "CLICKHOUSE_TLS_ENABLED" = "true")
                         then [("tls", GMap (clickhouseTlsConfig dest))] else [])
                     ++ optional dest "CLICKHOUSE_TRACES_TABLE" "traces_table_name"
                     ++ optional dest "CLICKHOUSE_LOGS_TABLE" "logs_table_name"
                     ++ [("metrics_tables", GMap (clickhouse_metrics_tables dest))]));
              names ← per_signal [(tracing dest, "traces/clickhouse-" +:+ GetID dest, exports_to exporterName);
                                  (metrics dest, "metrics/clickhouse-" +:+ GetID dest, exports_to exporterName)];
              ls ← normalized_logs dest ("logs/clickhouse-" +:+ GetID dest) exporterName;
              mret (names ++ ls)
          end
      end
  end).
End Endpoints.
