(* ===== verification/DestinationDecoders.v ===== *)
(** * Configurers that decode structured settings (src/common/config)

    The destinations with JSON lists in their settings, with OAuth2 or basic
    authentication, and those that connect pipelines of their own ([Bonree],
    [Datadog]) or name the exporter in a setting ([Dynamic]). *)

From Stdlib Require Import Ascii.
From S2P Require Import Prelude.
From S2P Require Import GoStrings.
From S2P Require Import K8s.
From S2P Require Import Api.
From S2P Require Import GoLib.
From S2P Require Import CollectorConfig.
From S2P Require Import Destinations.
From S2P Require Import DestinationTypes.
From S2P Require Import DestinationVendors.
From S2P Require Import DestinationEndpoints.

(** [json.Unmarshal] into the types that the code decodes, the entries of a
    list in order; [yaml.Unmarshal] into a map; [rand.Uint64], in decimal
    (the argument tells the calls apart). *)
Class GoDecode := {
  json_strings : string -> string + list string;
  json_pairs : string -> string + list (string * string);
  json_string_map : string -> string + gmap string string;
  yaml_map : string -> string + GenericMap;
  rand_Uint64 : string -> string
}.

Definition add_connector_config (name : string) (v : gval) : ConfigM unit := modify (set_connectors (insert name v)).

(** [for k, v := range ps { Processors[k] = v; names = append(names, k) }]. *)
Fixpoint add_processors (ps : list (string * gval)) : ConfigM (list string) :=
  match ps with
  | [] => mret []
  | (k, v) :: ps =>
      _ ← modify (set_processors (insert k v));
      rest ← add_processors ps;
      mret (k :: rest)
  end.

(** The last entry of a key stays. *)
Definition pairs_map (l : list (string * string)) : gval :=
  GStrMap (foldl (fun m kv => <[kv.1 := kv.2]> m) ∅ l).

(** [parseInt] (utils.go). *)
Definition parseInt `{GoLibrary} (key value : string) : error + Z :=
  match parse_int64 value with
  | None => inl (ENew ("destination parameter " +:+ strconv_Quote key +:+ " must be a whole number, got "
                       +:+ strconv_Quote value))
  | Some n => inr n
  end.

(** [addHeader] (utils.go): the headers that are there already are kept when
    they are a map of strings. *)
Definition addHeader (exporterConfig : GenericMap) (headerName headerValue : string) : GenericMap :=
  let headers := match exporterConfig !! "headers" with Some (GStrMap m) => m | _ => ∅ end in
  <["headers" := GStrMap (<[headerName := headerValue]> headers)]> exporterConfig.

Section Decoders.
Context `{GoUrl} `{GoUrlMore} `{GoLibrary} `{GoMapOrder} `{GoDecode}.

(** *** AWS CloudWatch *)

(** [if v, exists := config[key]; exists { conf[name] = parseBool(v) }]. *)
Definition optional_flag (dest : ExporterConfigurer) (key name : string) : list (string * gval) :=
  match GetConfig dest !! key with Some v => [(name, GBool (parseBool v))] | None => [] end.

Definition cloudwatch_retention (dest : ExporterConfigurer) : error + list (string * gval) :=
  match GetConfig dest !! "AWS_CLOUDWATCH_LOG_RETENTION" with
  | None => inr []
  | Some logRetention =>
      match parseInt "AWS_CLOUDWATCH_LOG_RETENTION" logRetention with
      | inl err => inl err
      | inr n => inr [("log_retention", GInt n)]
      end
  end.

Definition cloudwatch_tags (dest : ExporterConfigurer) : error + list (string * gval) :=
  match GetConfig dest !! "AWS_CLOUDWATCH_TAGS" with
  | None => inr []
  | Some tags =>
      match json_pairs tags with
      | inl err => inl (EJoin (ENew err) (ENew ("failed to parse awscloudwatch destination AWS_CLOUDWATCH_TAGS " +:+
                          "parameter as json string in the form {key: string, value: string}[]")))
      | inr tagList => inr [("tags", pairs_map tagList)]
      end
  end.

Definition sharedConfig (dest : ExporterConfigurer) : error + list (string * gval) :=
  let config := GetConfig dest in
  match config !! "AWS_CLOUDWATCH_LOG_GROUP_NAME" with
  | None => inl (errorMissingKey strconv_Quote "AWS_CLOUDWATCH_LOG_GROUP_NAME")
  | Some logGroupName =>
  match config !! "AWS_CLOUDWATCH_LOG_STREAM_NAME" with
  | None => inl (errorMissingKey strconv_Quote "AWS_CLOUDWATCH_LOG_STREAM_NAME")
  | Some logStreamName =>
  match cloudwatch_retention dest with inl err => inl err | inr retention =>
  match cloudwatch_tags dest with inl err => inl err | inr tags =>
      inr ([("log_group_name", GStr logGroupName); ("log_stream_name", GStr logStreamName)]
           ++ optional dest "AWS_CLOUDWATCH_REGION" "region" ++ optional dest "AWS_CLOUDWATCH_ENDPOINT" "endpoint"
           ++ retention ++ tags)
  end end end end.

Definition logsConfig (dest : ExporterConfigurer) : error + GenericMap :=
  match sharedConfig dest with
  | inl err => inl err
  | inr l => inr (gm (l ++ optional_flag dest "AWS_CLOUDWATCH_RAW_LOG" "raw_log"))
  end.

Definition metricsConfig (dest : ExporterConfigurer) : error + GenericMap :=
  match sharedConfig dest with
  | inl err => inl err
  | inr l => inr (gm (l
      ++ [("output_destination", GStr "cloudwatch");
          ("resource_to_telemetry_conversion", GMap (gm [("enabled", GBool true)]))]
      ++ optional dest "AWS_CLOUDWATCH_METRICS_NAMESPACE" "namespace"
      ++ optional dest "AWS_CLOUDWATCH_METRICS_DIMENSION_ROLLUP" "dimension_rollup_option"
      ++ optional_flag dest "AWS_CLOUDWATCH_METRICS_DETAILED" "detailed_metrics"
      ++ optional_flag dest "AWS_CLOUDWATCH_RETAIN_INITIAL_VALUE_OF_DELTA_METRIC"
           "retain_initial_value_of_delta_metric"))
  end.

Definition AWSCloudWatch : Configer := mkConfiger "cloudwatch" (fun dest =>
  let uniqueUri := "awscloudwatch-" +:+ GetID dest in
  let logsExporterName := "awscloudwatchlogs/" +:+ uniqueUri in
  logsExporterConfig ← try (logsConfig dest);
  _ ← add_exporter_config logsExporterName logsExporterConfig;
  let metricsExporterName := "awsemf/" +:+ uniqueUri in
  metricsExporterConfig ← try (metricsConfig dest);
  _ ← add_exporter_config metricsExporterName metricsExporterConfig;
  per_signal [(logging dest, "logs/" +:+ uniqueUri, exports_to logsExporterName);
              (metrics dest, "metrics/" +:+ uniqueUri, exports_to metricsExporterName)]).

(** *** AWS X-Ray *)

Definition splitField (field : string) : list string := split "." field.

(** The type assertion on an existing part never fails: the fields below have
    no field that is a prefix of another. *)
Fixpoint set_nested (m : GenericMap) (parts : list string) (value : gval) : GenericMap :=
  match parts with
  | [] => m
  | [part] => <[part := value]> m
  | part :: parts =>
      let sub := match m !! part with Some (GMap sub) => sub | _ => ∅ end in
      <[part := GMap (set_nested sub parts value)]> m
  end.
Definition setNestedMapValue (m : GenericMap) (field : string) (value : gval) : GenericMap :=
  set_nested m (splitField field) value.

Example setNestedMapValue_ex :
  setNestedMapValue (gm [("telemetry", GMap (gm [("enabled", GBool true)]))]) "telemetry.hostname" (GStr "h")
  = gm [("telemetry", GMap (gm [("enabled", GBool true); ("hostname", GStr "h")]))].
Proof. by vm_compute. Qed.

Definition xray_strings : list (string * string) :=
  [("AWS_XRAY_REGION", "region"); ("AWS_XRAY_ENDPOINT", "endpoint"); ("AWS_XRAY_PROXY_ADDRESS", "proxy_address");
   ("AWS_XRAY_RESOURCE_ARN", "resource_arn"); ("AWS_XRAY_ROLE_ARN", "role_arn");
   ("AWS_XRAY_EXTERNAL_ID", "external_id"); ("AWS_XRAY_TELEMETRY_HOSTNAME", "telemetry.hostname");
   ("AWS_XRAY_TELEMETRY_INSTANCE_ID", "telemetry.instance_id");
   ("AWS_XRAY_TELEMETRY_RESOURCE_ARN", "telemetry.resource_arn")].
Definition xray_flags : list (string * string) :=
  [("AWS_XRAY_DISABLE_SSL", "no_verify_ssl"); ("AWS_XRAY_LOCAL_MODE", "local_mode");
   ("AWS_XRAY_INDEX_ALL_ATTRIBUTES", "index_all_attributes"); ("AWS_XRAY_TELEMETRY_ENABLED", "telemetry.enabled");
   ("AWS_XRAY_TELEMETRY_INCLUDE_METADATA", "telemetry.include_metadata")].
Definition xray_lists : list (string * string) :=
  [("AWS_XRAY_INDEXED_ATTRIBUTES", "indexed_attributes"); ("AWS_XRAY_LOG_GROUPS", "aws_log_groups");
   ("AWS_XRAY_TELEMETRY_CONTRIBUTORS", "telemetry.contributors")].

(** One [for key, field := range fields { ... }]. *)
Definition apply_fields (config : gmap string string) (f : string -> gval) (fields : list (string * string))
    (m : GenericMap) : GenericMap :=
  foldl (fun m kf => match config !! kf.1 with
                     | Some value => setNestedMapValue m kf.2 (f value)
                     | None => m
                     end) m (map_order fields).

Definition parseJSONStringArray (config : gmap string string) (key : string) (m : GenericMap) (field : string) :
    error + GenericMap :=
  match config !! key with
  | None => inr m
  | Some value =>
      match json_strings value with
      | inl err => inl (EJoin (ENew err) (ENew (quoted ("failed to parse AWS X-Ray destination parameter `" +:+ key
                          +:+ "` as JSON string in the format: string[]"))))
      | inr l => inr (setNestedMapValue m field (GStrs l))
      end
  end.

Definition xray_config (dest : ExporterConfigurer) : error + GenericMap :=
  let config := GetConfig dest in
  let m := apply_fields config GStr xray_strings ∅ in
  let m := apply_fields config (fun v => GBool (parseBool v)) xray_flags m in
  foldl (fun r kf => match r with
                     | inl err => inl err
                     | inr m => parseJSONStringArray config kf.1 m kf.2
                     end) (inr m) (map_order xray_lists).

Definition AWSXRay : Configer := mkConfiger "xray" (fun dest =>
  let uniqueUri := "awsxray-" +:+ GetID dest in
  let exporterName := "awsxray/" +:+ uniqueUri in
  exporterConfig ← try (xray_config dest);
  _ ← add_exporter_config exporterName exporterConfig;
  per_signal [(tracing dest, "traces/" +:+ uniqueUri, exports_to exporterName)]).

(** *** Loki *)

(** [errors.Join(err, errors.New(msg))] for a step that failed. *)
Definition or_join {A} (r : error + A) (msg : string) : error + A :=
  match r with inl err => inl (EJoin err (ENew msg)) | inr a => inr a end.

Definition lokiUrlFromInput (rawUrl : string) : error + string :=
  let rawUrl := trim_space rawUrl in
  let urlWithScheme := if contains "://" rawUrl then rawUrl else "http://" +:+ rawUrl in
  match url_parse urlWithScheme with
  | inl err => inl (ENew err)
  | inr u =>
      if decide (Scheme u <> "http" ∧ Scheme u <> "https")
      then inl (ENew ("loki endpoint scheme must be http or https got " +:+ Scheme u))
      else
        let u := mkURL (Scheme u) (User u) (Host u) (if decide (Path u = "") then "/otlp" else Path u) (RawQuery u) in
        if decide (url_Port u = "") then
          if decide (Host u = "") then inl (ENew "loki endpoint host is required")
          else inr (url_string (mkURL (Scheme u) (User u) (Host u +:+ ":3100") (Path u) (RawQuery u)))
        else inr (url_string u)
  end.

Definition label_hint (list_name key value : string) : gval :=
  GMap (gm [(list_name, GMaps [gm [("key", GStr key); ("action", GStr "insert"); ("value", GStr value)]])]).

(** [rawLabels] is [None] where the setting is absent. *)
Definition lokiLabelsProcessors (rawLabels : option string) (destName : string) : error + GenericMap :=
  match rawLabels with
  | None => inr (gm [("attributes/loki-" +:+ destName,
                      label_hint "actions" "loki.attribute.labels"
                        "k8s.container.name, k8s.pod.name, k8s.namespace.name")])
  | Some rawLabels =>
      if decide (rawLabels = "" ∨ rawLabels = "[]") then inr ∅
      else match json_strings rawLabels with
      | inl err => inl (ENew err)
      | inr attributeNames =>
          let attributeHint := join ", " attributeNames in
          inr (gm [("attributes/loki-" +:+ destName, label_hint "actions" "loki.attribute.labels" attributeHint);
                   ("resource/loki-" +:+ destName, label_hint "attributes" "loki.resource.labels" attributeHint)])
      end
  end.

Definition Loki : Configer := mkConfiger "loki" (fun dest =>
  if negb (logging dest) then fails (ENew "logging not enabled, gateway will not be configured for Loki")
  else
    let destConfig := GetConfig dest in
    let uniqueUri := "loki-" +:+ GetID dest in
    match destConfig !! "LOKI_URL" with
    | None => fails (ENew "Loki endpoint not specified, gateway will not be configured for Loki")
    | Some rawUrl =>
        lokiUrl ← try (or_join (lokiUrlFromInput rawUrl)
                         "failed to parse loki endpoint, gateway will not be configured for Loki");
        lokiProcessors ← try (or_join (lokiLabelsProcessors (destConfig !! "LOKI_LABELS") (GetID dest))
                         "failed to parse loki labels, gateway will not be configured for Loki");
        let lokiUsername := map_get destConfig "LOKI_USERNAME" in
        auth ← (if decide (lokiUsername <> "") then
                  let authExtensionName := "basicauth/" +:+ uniqueUri in
                  _ ← add_extension_config authExtensionName (basic_auth lokiUsername (secret "LOKI_PASSWORD" dest));
                  _ ← use_extension authExtensionName;
                  mret [("auth", authenticator authExtensionName)]
                else mret []);
        let exporterConf := gm (("endpoint", GStr lokiUrl) :: auth) in
        let scopeOrgIdHeader := map_get destConfig "LOKI_SCOPE_ORG_ID" in
        let lokiExporterName := "otlp_http/" +:+ uniqueUri in
        _ ← add_exporter_config lokiExporterName
              (if decide (scopeOrgIdHeader <> "") then addHeader exporterConf "X-Scope-OrgID" scopeOrgIdHeader
               else exporterConf);
        processorNames ← add_processors (map_order (map_to_list lokiProcessors));
        per_signal [(true, "logs/" +:+ uniqueUri, mkPipeline [] processorNames [lokiExporterName])]
    end).

Definition grafanaLokiUrlFromInput (rawUrl : string) : error + string :=
  let rawUrl := trim_space rawUrl in
  let urlWithScheme := if contains "://" rawUrl then rawUrl else "https://" +:+ rawUrl in
  match url_parse urlWithScheme with
  | inl err => inl (ENew err)
  | inr u =>
      if decide (Scheme u <> "https")
      then inl (ENew ("unexpected scheme " +:+ Scheme u +:+ ", only https is supported"))
      else
        let path := if decide (Path u = "") then "/otlp" else Path u in
        if decide (path <> "/otlp") then inl (ENew ("unexpected path for loki endpoint " +:+ path))
        else match User u with
        | Some user => inl (ENew ("unexpected user info for loki endpoint url " +:+ user))
        | None => inr (url_string (mkURL (Scheme u) (User u) (Host u) path (RawQuery u)))
        end
  end.

Definition GrafanaCloudLoki : Configer := mkConfiger "grafanacloudloki" (fun dest =>
  if negb (logging dest)
  then fails (ENew "logging not enabled, gateway will not be configured for Grafana Cloud Loki")
  else
    let destConfig := GetConfig dest in
    let uniqueUri := "grafana-" +:+ GetID dest in
    match destConfig !! "GRAFANA_CLOUD_LOKI_ENDPOINT" with
    | None => fails (ENew "Grafana Cloud Loki endpoint not specified, gateway will not be configured for Loki")
    | Some lokiUrl =>
        lokiExporterEndpoint ← try (or_join (grafanaLokiUrlFromInput lokiUrl)
          "failed to parse grafana cloud loki endpoint, gateway will not be configured for Loki");
        match destConfig !! "GRAFANA_CLOUD_LOKI_USERNAME" with
        | None => fails (ENew "Grafana Cloud Loki username not specified, gateway will not be configured for Loki")
        | Some lokiUsername =>
            lokiProcessors ← try (or_join (lokiLabelsProcessors (destConfig !! "GRAFANA_CLOUD_LOKI_LABELS") (GetID dest))
              "failed to parse grafana cloud loki labels, gateway will not be configured for Loki");
            let authExtensionName := "basicauth/" +:+ uniqueUri in
            _ ← add_extension_config authExtensionName
                  (basic_auth lokiUsername (secret "GRAFANA_CLOUD_LOKI_PASSWORD" dest));
            let exporterName := "otlp_http/" +:+ uniqueUri in
            _ ← add_exporter_config exporterName (gm
                  [("endpoint", GStr lokiExporterEndpoint); ("auth", authenticator authExtensionName)]);
            processorNames ← add_processors (map_order (map_to_list lokiProcessors));
            _ ← use_extension authExtensionName;
            per_signal [(true, "logs/" +:+ uniqueUri, mkPipeline [] processorNames [exporterName])]
        end
    end).

(** *** Grafana Cloud Prometheus *)

Definition validateGrafanaPrometheusUrl (input : string) : error + unit :=
  match url_parse input with
  | inl err => inl (ENew err)
  | inr u =>
      if decide (Scheme u <> "https")
      then inl (ENew "grafana cloud prometheus remote writer endpoint scheme must be https")
      else if decide (Path u <> "/api/prom/push")
      then inl (ENew "grafana cloud prometheus remote writer endpoint path should be /api/prom/push")
      else inr tt
  end.

Definition promResourceAttributesProcessors (rawLabels : option string) (destUniqueUri : string) : error + GenericMap :=
  match rawLabels with
  | None => inr ∅
  | Some rawLabels =>
      if decide (rawLabels = "" ∨ rawLabels = "[]") then inr ∅
      else match json_strings rawLabels with
      | inl err => inl (ENew err)
      | inr attributeNames =>
          let statement attr := "set(attributes[" +:+ strconv_Quote attr +:+ "], resource.attributes["
                                +:+ strconv_Quote attr +:+ "])" in
          inr (gm [("transform/" +:+ destUniqueUri, GMap (gm [("metric_statements", GMaps [gm
                      [("context", GStr "datapoint"); ("statements", GStrs (statement <$> attributeNames))]])]))])
      end
  end.

Definition external_labels (dest : ExporterConfigurer) : error + list (string * gval) :=
  match GetConfig dest !! "PROMETHEUS_RESOURCE_EXTERNAL_LABELS" with
  | None => inr []
  | Some externalLabels =>
      match json_string_map externalLabels with
      | inl err => inl (EJoin (ENew err) (ENew ("failed to parse grafana cloud prometheus external labels, gateway will " +:+
                                               "not be configured for Prometheus")))
      | inr labels => inr [("external_labels", GStrMap labels)]
      end
  end.

(** Malformed external labels leave an extension behind that no service
    enables. *)
Definition GrafanaCloudPrometheus : Configer := mkConfiger "grafanacloudprometheus" (fun dest =>
  if negb (metrics dest)
  then fails (ENew "metrics not enabled, gateway will not be configured for grafana cloud prometheus")
  else
    let config := GetConfig dest in
    let uniqueUri := "grafana-" +:+ GetID dest in
    match config !! "GRAFANA_CLOUD_PROMETHEUS_RW_ENDPOINT" with
    | None => fails (ENew ("Grafana Cloud Prometheus remote write endpoint not specified, gateway will not be configured"
                           +:+ " for Prometheus"))
    | Some promRwUrl =>
        _ ← try (or_join (validateGrafanaPrometheusUrl promRwUrl)
              ("failed to validate grafana cloud prometheus remote write endpoint, gateway will " +:+
               "not be configured for Prometheus"));
        match config !! "GRAFANA_CLOUD_PROMETHEUS_USERNAME" with
        | None => fails (ENew
            "Grafana Cloud Prometheus username not specified, gateway will not be configured for Prometheus")
        | Some prometheusUsername =>
            processors ← try (or_join
              (promResourceAttributesProcessors (config !! "PROMETHEUS_RESOURCE_ATTRIBUTES_LABELS") uniqueUri)
              ("failed to parse grafana cloud prometheus resource attributes labels, gateway will " +:+
               "not be configured for Prometheus"));
            let authExtensionName := "basicauth/grafana" +:+ GetID dest in
            _ ← add_extension_config authExtensionName
                  (basic_auth prometheusUsername (secret "GRAFANA_CLOUD_PROMETHEUS_PASSWORD" dest));
            labels ← try (external_labels dest);
            let rwExporterName := "prometheusremotewrite/grafana-" +:+ GetID dest in
            _ ← add_exporter_config rwExporterName (gm
                  ([("endpoint", GStr promRwUrl); ("add_metric_suffixes", GBool false);
                    ("auth", authenticator authExtensionName)] ++ labels));
            processorNames ← add_processors (map_order (map_to_list processors));
            _ ← use_extension authExtensionName;
            per_signal [(true, "metrics/grafana-" +:+ GetID dest, mkPipeline [] processorNames [rwExporterName])]
        end
    end).

(** *** OTLP, over gRPC and over HTTP *)

(** The names of the settings of either protocol. *)
Record OAuth2Keys := mkOAuth2Keys
  { oauth2_enabled : string; oauth2_client_id : string; oauth2_client_secret : string;
    oauth2_token_url : string; oauth2_scopes : string; oauth2_audience : string }.

(** The extension, when OAuth2 is enabled. *)
Definition apply_oauth2 (k : OAuth2Keys) (extensionName : string) (dest : ExporterConfigurer) :
    error + option (string * GenericMap) :=
  let config := GetConfig dest in
  if decide (map_get config (oauth2_enabled k) <> "true") then inr None
  else
    let clientId := map_get config (oauth2_client_id k) in
    let tokenUrl := map_get config (oauth2_token_url k) in
    if decide (clientId = "" ∨ tokenUrl = "")
    then inl (ENew "when OAuth2 is enabled, client ID and token URL must be provided")
    else
      let audience := map_get config (oauth2_audience k) in
      let scopes := map_get config (oauth2_scopes k) in
      inr (Some (extensionName, gm
        ([("client_id", GStr clientId); ("client_secret", secret (oauth2_client_secret k) dest);
          ("token_url", GStr tokenUrl)]
         ++ (if decide (audience <> "") then [("endpoint_params", GMap (gm [("audience", GStr audience)]))] else [])
         ++ (if decide (scopes <> "") then [("scopes", GStrs (trim_space <$> split "," scopes))] else [])))).

Definition applyGrpcOAuth2Auth (dest : ExporterConfigurer) : error + option (string * GenericMap) :=
  apply_oauth2 (mkOAuth2Keys "OTLP_GRPC_OAUTH2_ENABLED" "OTLP_GRPC_OAUTH2_CLIENT_ID" "OTLP_GRPC_OAUTH2_CLIENT_SECRET"
                  "OTLP_GRPC_OAUTH2_TOKEN_URL" "OTLP_GRPC_OAUTH2_SCOPES" "OTLP_GRPC_OAUTH2_AUDIENCE")
    ("oauth2client/otlpgrpc-" +:+ GetID dest) dest.
Definition applyOAuth2Auth (dest : ExporterConfigurer) : error + option (string * GenericMap) :=
  apply_oauth2 (mkOAuth2Keys "OTLP_HTTP_OAUTH2_ENABLED" "OTLP_HTTP_OAUTH2_CLIENT_ID" "OTLP_HTTP_OAUTH2_CLIENT_SECRET"
                  "OTLP_HTTP_OAUTH2_TOKEN_URL" "OTLP_HTTP_OAUTH2_SCOPES" "OTLP_HTTP_OAUTH2_AUDIENCE")
    ("oauth2client/otlphttp-" +:+ GetID dest) dest.

Definition applyBasicAuth (dest : ExporterConfigurer) : option (string * GenericMap) :=
  let username := map_get (GetConfig dest) "OTLP_HTTP_BASIC_AUTH_USERNAME" in
  if decide (username = "") then None
  else Some ("basicauth/otlphttp-" +:+ GetID dest, basic_auth username (secret "OTLP_HTTP_BASIC_AUTH_PASSWORD" dest)).

(** The settings of TLS that the keys with this prefix give. *)
Definition tls_settings (prefix : string) (mtlsEnabled : bool) (dest : ExporterConfigurer) : list (string * gval) :=
  when_set (GetConfig dest) (prefix +:+ "_CA_PEM") "ca_pem"
  ++ when_set_bool (GetConfig dest) (prefix +:+ "_INSECURE_SKIP_VERIFY") "insecure_skip_verify"
  ++ (if mtlsEnabled then [("cert_pem", secret (prefix +:+ "_CLIENT_CERT_PEM") dest);
                           ("key_pem", secret (prefix +:+ "_CLIENT_KEY_PEM") dest)] else []).

Definition buildGenericOtlpTlsConfig (dest : ExporterConfigurer) (finalTlsEnabled mtlsEnabled : bool) : GenericMap :=
  gm (("insecure", GBool (negb finalTlsEnabled))
      :: (if finalTlsEnabled then tls_settings "OTLP_GRPC" mtlsEnabled dest else [])).

(** The headers of the setting [key]: [what] is the text of the error. *)
Definition otlp_headers (key what : string) (dest : ExporterConfigurer) : error + list (string * gval) :=
  let headers := map_get (GetConfig dest) key in
  if decide (headers = "") then inr []
  else match json_pairs headers with
       | inl err => inl (EJoin (ENew err) (ENew ("failed to parse " +:+ what +:+ " destination " +:+ key +:+
                           " parameter as json string in the form {key: string, value: string}[]")))
       | inr headersList => inr [("headers", pairs_map headersList)]
       end.

Definition add_auth (ext : option (string * GenericMap)) : ConfigM unit :=
  match ext with
  | Some (name, conf) => _ ← add_extension_config name conf; use_extension name
  | None => mret tt
  end.
Definition auth_setting (ext : option (string * GenericMap)) : list (string * gval) :=
  match ext with Some (name, _) => [("auth", authenticator name)] | None => [] end.

Definition profiles_if (prefix : string) (dest : ExporterConfigurer) (exporterName : string) : ConfigM (list string) :=
  if isProfilingEnabled (GetSignals dest) then
    name ← addProfilesPipeline prefix (GetID dest) exporterName;
    mret [name]
  else mret [].

(** A malformed endpoint is reported as a missing one. *)
Definition GenericOTLP : Configer := mkConfiger "otlp" (fun dest =>
  let config := GetConfig dest in
  match config !! "OTLP_GRPC_ENDPOINT" with
  | None => fails (ENew "generic OTLP gRPC endpoint not specified, gateway will not be configured for otlp")
  | Some url =>
      let userTlsEnabled := bool_decide (map_get config "OTLP_GRPC_TLS_ENABLED" = "true") in
      let mtlsEnabled := bool_decide (map_get config "OTLP_GRPC_MTLS_ENABLED" = "true") in
      oauth2 ← try (applyGrpcOAuth2Auth dest);
      let finalTlsEnabled := userTlsEnabled || bool_decide (is_Some oauth2) || mtlsEnabled in
      match parseOtlpGrpcUrl url finalTlsEnabled with
      | inl _ => fails (errorMissingKey strconv_Quote "OTLP_GRPC_ENDPOINT")
      | inr grpcEndpoint =>
          _ ← add_auth oauth2;
          let genericOtlpExporterName := "otlp_grpc/generic-" +:+ GetID dest in
          headers ← try (otlp_headers "OTLP_GRPC_HEADERS" "otlpGrpc" dest);
          _ ← add_exporter_config genericOtlpExporterName (gm
                ([("endpoint", GStr grpcEndpoint);
                  ("tls", GMap (buildGenericOtlpTlsConfig dest finalTlsEnabled mtlsEnabled))]
                 ++ auth_setting oauth2 ++ optional dest "OTLP_GRPC_COMPRESSION" "compression" ++ headers));
          names ← per_signal (all_signals dest ("generic-" +:+ GetID dest) (exports_to genericOtlpExporterName));
          profiles ← profiles_if "generic" dest genericOtlpExporterName;
          mret (names ++ profiles)
      end
  end).

(** [if url != "" { parsed, err := parse(url); conf[name] = parsed }]. *)
Definition signal_endpoint (url key name : string) : error + list (string * gval) :=
  if decide (url = "") then inr []
  else match or_join (parseOtlpHttpEndpoint url "" "") (key +:+ " invalid") with
       | inl err => inl err
       | inr parsed => inr [(name, GStr parsed)]
       end.

Definition OTLPHttp : Configer := mkConfiger "otlphttp" (fun dest =>
  let config := GetConfig dest in
  let baseURL := config !! "OTLP_HTTP_ENDPOINT" in
  let tracesURL := trim_space (map_get config "OTLP_HTTP_TRACES_ENDPOINT") in
  let metricsURL := trim_space (map_get config "OTLP_HTTP_METRICS_ENDPOINT") in
  let logsURL := trim_space (map_get config "OTLP_HTTP_LOGS_ENDPOINT") in
  let profilesURL := trim_space (map_get config "OTLP_HTTP_PROFILES_ENDPOINT") in
  if decide (baseURL = None ∧ tracesURL = "" ∧ metricsURL = "" ∧ logsURL = "" ∧ profilesURL = "")
  then fails (ENew "OTLP http endpoint not specified, gateway will not be configured for otlp http")
  else
    let userTlsEnabled := bool_decide (map_get config "OTLP_HTTP_TLS_ENABLED" = "true") in
    let mtlsEnabled := bool_decide (map_get config "OTLP_HTTP_MTLS_ENABLED" = "true") in
    let finalTlsEnabled := userTlsEnabled || mtlsEnabled in
    parsedBase ← try (match baseURL with
                      | None => inr ""
                      | Some baseURL => or_join (parseOtlpHttpEndpoint baseURL "" "")
                          "otlp http endpoint invalid, gateway will not be configured for otlp http"
                      end);
    oauth2 ← try (applyOAuth2Auth dest);
    let auth := match oauth2 with Some a => Some a | None => applyBasicAuth dest end in
    _ ← add_auth auth;
    let otlpHttpExporterName := "otlp_http/generic-" +:+ GetID dest in
    let tlsConfig := ("insecure", GBool (negb finalTlsEnabled))
      :: (if finalTlsEnabled || bool_decide (is_Some auth) then tls_settings "OTLP_HTTP" mtlsEnabled dest else []) in
    headers ← try (otlp_headers "OTLP_HTTP_HEADERS" "otlphttp" dest);
    tracesEndpoint ← try (signal_endpoint tracesURL "OTLP_HTTP_TRACES_ENDPOINT" "traces_endpoint");
    metricsEndpoint ← try (signal_endpoint metricsURL "OTLP_HTTP_METRICS_ENDPOINT" "metrics_endpoint");
    logsEndpoint ← try (signal_endpoint logsURL "OTLP_HTTP_LOGS_ENDPOINT" "logs_endpoint");
    profilesEndpoint ← try (signal_endpoint profilesURL "OTLP_HTTP_PROFILES_ENDPOINT" "profiles_endpoint");
    _ ← add_exporter_config otlpHttpExporterName (gm
          ((if decide (parsedBase <> "") then [("endpoint", GStr parsedBase)] else [])
           ++ [("tls", GMap (gm tlsConfig))] ++ auth_setting auth
           ++ optional dest "OTLP_HTTP_COMPRESSION" "compression" ++ headers
           ++ tracesEndpoint ++ metricsEndpoint ++ logsEndpoint ++ profilesEndpoint));
    names ← per_signal (all_signals dest ("otlphttp-" +:+ GetID dest) (exports_to otlpHttpExporterName));
    profiles ← profiles_if "otlphttp" dest otlpHttpExporterName;
    mret (names ++ profiles)).

(** *** Kafka *)

Definition parseKafkaBrokers (rawBrokers : string) : error + list string :=
  let trimmed := trim_space rawBrokers in
  let brokers :=
    if has_prefix "[" trimmed then
      match json_strings trimmed with
      | inl err => inl (EJoin (ENew err) (ENew (quoted
          "failed to parse kafka destination parameter `KAFKA_BROKERS` as JSON string in the format: string[]")))
      | inr l => inr l
      end
    else inr (split "," trimmed) in
  match brokers with
  | inl err => inl err
  | inr brokers =>
      let nonEmptyBrokers := filter (fun broker => broker <> "") (trim_space <$> brokers) in
      if nonempty nonEmptyBrokers then inr nonEmptyBrokers
      else inl (ENew (quoted "kafka destination parameter `KAFKA_BROKERS` must list at least one broker"))
  end.

(** The exporter's configuration with the topic of the setting. *)
Definition kafka_config (dest : ExporterConfigurer) (protocolVersion : string) (brokers : list string)
    (topic : string) (metadataMaxRetry maxMessageBytes requiredAcks flushMaxMessages : Z) : GenericMap :=
  let setting key dflt := default dflt (GetConfig dest !! key) in
  let text name key dflt := (name, GStr (setting key dflt)) in
  let flag name key dflt := (name, GBool (parseBool (setting key dflt))) in
  gm [("protocol_version", GStr protocolVersion);
      ("brokers", GStrs brokers);
      flag "resolve_canonical_bootstrap_servers_only" "KAFKA_RESOLVE_CANONICAL_BOOTSTRAP_SERVERS_ONLY" "false";
      text "client_id" "KAFKA_CLIENT_ID" "sarama";
      ("topic", GStr topic);
      text "topic_from_attribute" "KAFKA_TOPIC_FROM_ATTRIBUTE" "";
      text "encoding" "KAFKA_ENCODING" "otlp_proto";
      flag "partition_traces_by_id" "KAFKA_PARTITION_TRACES_BY_ID" "false";
      flag "partition_metrics_by_resource_attributes" "KAFKA_PARTITION_METRICS_BY_RESOURCE_ATTRIBUTES" "false";
      flag "partition_logs_by_resource_attributes" "KAFKA_PARTITION_LOGS_BY_RESOURCE_ATTRIBUTES" "false";
      ("metadata", GMap (gm
         [flag "full" "KAFKA_METADATA_FULL" "false";
          ("retry", GMap (gm [("max", GInt metadataMaxRetry);
                              text "backoff" "KAFKA_METADATA_BACKOFF_RETRY" "250ms"]))]));
      text "timeout" "KAFKA_TIMEOUT" "5s";
      ("retry_on_failure", GMap (gm
         [flag "enabled" "KAFKA_RETRY_ON_FAILURE_ENABLED" "true";
          text "initial_interval" "KAFKA_RETRY_ON_FAILURE_INITIAL_INTERVAL" "5s";
          text "max_interval" "KAFKA_RETRY_ON_FAILURE_MAX_INTERVAL" "30s";
          text "max_elapsed_time" "KAFKA_RETRY_ON_FAILURE_MAX_ELAPSED_TIME" "120s"]));
      ("producer", GMap (gm
         [("max_message_bytes", GInt maxMessageBytes); ("required_acks", GInt requiredAcks);
          text "compression" "KAFKA_PRODUCER_COMPRESSION" "none";
          ("flush_max_messages", GInt flushMaxMessages)]));
      ("auth", GMap (gm (("tls", insecure true)
         :: (if decide (setting "KAFKA_AUTH_METHOD" "none" = "plain_text")
             then [("plain_text", GMap (gm [text "username" "KAFKA_USERNAME" "";
                                            ("password", secret "KAFKA_PASSWORD" dest)]))]
             else []))))].

(** The function literal [registerExporter]. *)
Definition registerExporter (exporterName topic : string) (exporterConfig : GenericMap) (sig defaultTopic : string) :
    ConfigM string :=
  if decide (topic <> "") then
    _ ← add_exporter_config exporterName exporterConfig;
    mret exporterName
  else
    let signalExporterName := exporterName +:+ "-" +:+ sig in
    _ ← add_exporter_config signalExporterName (<["topic" := GStr defaultTopic]> exporterConfig);
    mret signalExporterName.

(** One of the blocks of the signals at the end. *)
Definition kafka_signal (enabled : bool) (exporterName topic : string) (exporterConfig : GenericMap)
    (sig defaultTopic uniqueUri : string) : ConfigM (list string) :=
  if enabled then
    signalExporterName ← registerExporter exporterName topic exporterConfig sig defaultTopic;
    per_signal [(true, sig +:+ "/" +:+ uniqueUri, exports_to signalExporterName)]
  else mret [].

Definition Kafka : Configer := mkConfiger "kafka" (fun dest =>
  let config := GetConfig dest in
  let uniqueUri := "kafka-" +:+ GetID dest in
  let int key dflt := parseInt key (default dflt (config !! key)) in
  match config !! "KAFKA_PROTOCOL_VERSION" with
  | None => fails (errorMissingKey strconv_Quote "KAFKA_PROTOCOL_VERSION")
  | Some protocolVersion =>
      brokers ← try (parseKafkaBrokers (default (quoted "[`localhost:9092`]") (config !! "KAFKA_BROKERS")));
      let topic := map_get config "KAFKA_TOPIC" in
      metadataMaxRetry ← try (int "KAFKA_METADATA_MAX_RETRY" "3");
      producerMaxMessageBytes ← try (int "KAFKA_PRODUCER_MAX_MESSAGE_BYTES" "1000000");
      producerRequiredAcks ← try (int "KAFKA_PRODUCER_REQUIRED_ACKS" "1");
      producerFlushMaxMessages ← try (int "KAFKA_PRODUCER_FLUSH_MAX_MESSAGES" "0");
      let exporterName := "kafka/" +:+ uniqueUri in
      let exporterConfig := kafka_config dest protocolVersion brokers topic metadataMaxRetry producerMaxMessageBytes
                              producerRequiredAcks producerFlushMaxMessages in
      ts ← kafka_signal (tracing dest) exporterName topic exporterConfig "traces" "otlp_spans" uniqueUri;
      ms ← kafka_signal (metrics dest) exporterName topic exporterConfig "metrics" "otlp_metrics" uniqueUri;
      ls ← kafka_signal (logging dest) exporterName topic exporterConfig "logs" "otlp_logs" uniqueUri;
      mret (ts ++ ms ++ ls)
  end).

(** *** Qryn *)

Record qrynConf := mkQrynConf
  { q_host : string; q_key : string; q_addExporterName : bool; q_resourceToTelemetryConversion : bool;
    q_secretsOptional : bool; q_passwordFieldName : string }.

(** The deprecated value has an upper case letter, so it never matches. *)
Definition qryn_getConfigs (dest : ExporterConfigurer) : qrynConf :=
  let config := GetConfig dest in
  mkQrynConf (map_get config "QRYN_URL") (map_get config "QRYN_API_KEY")
    (getBooleanConfig (map_get config "QRYN_ADD_EXPORTER_NAME") "Yes")
    (getBooleanConfig (map_get config "QRYN_RESOURCE_TO_TELEMETRY_CONVERSION") "Yes")
    (bool_decide (map_get config "__QRYN_SECRETS_OPTIONAL__" = "1"))
    (map_get config "__QRYN_PASSWORD_FIELD_NAME__").

Definition qryn_checkConfigs (conf : qrynConf) : error + unit :=
  if decide (q_host conf = "") then inl (ENew "missing URL")
  else if negb (q_secretsOptional conf) && bool_decide (q_key conf = "") then inl (ENew "missing API key")
  else inr tt.

(** The placeholder of the secret must not be escaped, so a random text takes
    its place while the URL is printed. *)
Definition parseURL (rawURL apiKey apiSecret : string) : error + string :=
  let rawURL := trim_space rawURL in
  let rawURL := if has_prefix "http://" rawURL || has_prefix "https://" rawURL then rawURL else "https://" +:+ rawURL in
  match url_parse rawURL with
  | inl err => inl (ENew err)
  | inr u =>
      let n := rand_Uint64 rawURL in
      let apiSecretPlaceholder := "____" +:+ n +:+ "_SECRET_PLACEHOLDER_" +:+ n +:+ "____" in
      if decide (apiKey <> "") then
        let u := mkURL (Scheme u) (Some (UserPassword apiKey apiSecretPlaceholder)) (Host u) (Path u) (RawQuery u) in
        inr (replace_all (":" +:+ apiSecretPlaceholder +:+ "@") (":" +:+ apiSecret +:+ "@") (url_string u))
      else inr (url_string u)
  end.

(** The processors of the pipeline. *)
Definition maybeAddExporterName (conf : qrynConf) (processorName name : string) : ConfigM (list string) :=
  if q_addExporterName conf then
    _ ← add_processor_config processorName (gm
          [("attributes", GMaps [gm [("action", GStr "upsert"); ("key", GStr "qryn_exporter"); ("value", GStr name)]])]);
    mret [processorName]
  else mret [].

(** The OTLP exporter is added after the pipelines that name it. *)
Definition qryn_otlp (conf : qrynConf) (baseURL : string) (dest : ExporterConfigurer) : ConfigM (list string) :=
  let otlpHttpExporterName := "otlp_http/qryn-" +:+ GetID dest in
  ts ← (if tracing dest then
          ps ← maybeAddExporterName conf ("resource/qryn-traces-name-" +:+ GetID dest) "odigos-qryn-traces";
          per_signal [(true, "traces/qryn-" +:+ GetID dest, mkPipeline [] ps [otlpHttpExporterName])]
        else mret []);
  ls ← (if logging dest then
          ps ← maybeAddExporterName conf ("resource/qryn-logs-name-" +:+ GetID dest) "odigos-qryn-logs";
          per_signal [(true, "logs/qryn-" +:+ GetID dest, mkPipeline [] ps [otlpHttpExporterName])]
        else mret []);
  _ ← (if tracing dest || logging dest then
         add_exporter_config otlpHttpExporterName (gm
           ((if tracing dest then [("traces_endpoint", GStr (baseURL +:+ "/v1/traces"))] else [])
            ++ (if logging dest then [("logs_endpoint", GStr (baseURL +:+ "/v1/logs"))] else [])
            ++ [("encoding", GStr "proto"); ("compression", GStr "none")]))
       else mret tt);
  mret (ts ++ ls).

Definition qryn_ModifyConfig (dest : ExporterConfigurer) : ConfigM (list string) :=
  let conf := qryn_getConfigs dest in
  _ ← try (qryn_checkConfigs conf);
  let passwordPlaceholder :=
    SecretEnvPlaceholder (if decide (q_passwordFieldName conf <> "") then q_passwordFieldName conf
                          else "QRYN_API_SECRET") dest in
  baseURL ← try (or_join (parseURL (q_host conf) (q_key conf) passwordPlaceholder)
                   "invalid qryn endpoint. gateway will not be configured with qryn");
  ms ← (if metrics dest then
          let rwExporterName := "prometheusremotewrite/qryn-" +:+ GetID dest in
          _ ← add_exporter_config rwExporterName (gm
                [("endpoint", GStr (baseURL +:+ "/api/v1/prom/remote/write"));
                 ("resource_to_telemetry_conversion",
                  GMap (gm [("enabled", GBool (q_resourceToTelemetryConversion conf))]))]);
          ps ← maybeAddExporterName conf ("resource/qryn-metrics-name-" +:+ GetID dest) "odigos-qryn-metrics";
          per_signal [(true, "metrics/qryn-" +:+ GetID dest, mkPipeline [] ps [rwExporterName])]
        else mret []);
  rest ← qryn_otlp conf baseURL dest;
  mret (ms ++ rest).

Definition Qryn : Configer := mkConfiger "qryn" qryn_ModifyConfig.

(** The settings are written into the map of the destination, which has to be
    there. *)
Definition QrynOss_GetConfig (conf : gmap string string) : gmap string string :=
  let yes key := if decide (map_get conf key = "true" ∨ map_get conf key = "Yes") then "true" else "false" in
  <["__QRYN_PASSWORD_FIELD_NAME__" := "QRYN_OSS_PASSWORD"]>
  (<["__QRYN_SECRETS_OPTIONAL__" := "1"]>
  (<["QRYN_ADD_EXPORTER_NAME" := yes "QRYN_OSS_ADD_EXPORTER_NAME"]>
  (<["QRYN_RESOURCE_TO_TELEMETRY_CONVERSION" := yes "QRYN_OSS_RESOURCE_TO_TELEMETRY_CONVERSION"]>
  (<["QRYN_API_KEY" := map_get conf "QRYN_OSS_USERNAME"]>
  (<["QRYN_URL" := map_get conf "QRYN_OSS_URL"]> conf))))).

Definition QrynOSS : Configer := mkConfiger "qryn-oss" (fun dest =>
  qryn_ModifyConfig (mkExporterConfigurer (GetID dest) (GetType dest) (QrynOss_GetConfig (GetConfig dest))
                       (GetSignals dest))).

(** *** Configurers that connect pipelines themselves *)

Definition Bonree : Configer := mkConfiger "bonree" (fun dest =>
  let uniqueUri := "bonree-" +:+ GetID dest in
  match GetConfig dest !! "BONREE_ENDPOINT" with
  | None => fails (errorMissingKey strconv_Quote "BONREE_ENDPOINT")
  | Some endpoint =>
      endpoint ← try (parseOtlpHttpEndpoint endpoint "" "");
      let exporterName := "otlp_http/" +:+ uniqueUri in
      _ ← add_exporter_config exporterName (gm
            [("endpoint", GStr endpoint);
             ("headers", GMap (gm [("x-br-acid", secret "BONREE_ACCOUNT_ID" dest);
                                   ("x-br-eid", secret "BONREE_ENVIRONMENT_ID" dest)]))]);
      _ ← (fun c => match connectors c !! "servicegraph" with
                    | Some _ => (inr tt, c)
                    | None => add_connector_config "servicegraph" (GMap (gm
                        [("metrics_exporter", GStr exporterName);
                         ("store", GMap (gm [("ttl", GStr "60s"); ("max_items", GInt 100000)]))])) c
                    end);
      per_signal [(tracing dest, "traces/" +:+ uniqueUri, mkPipeline [] [] [exporterName; "servicegraph"]);
                  (metrics dest, "metrics/servicegraph/" +:+ uniqueUri, mkPipeline ["servicegraph"] [] [exporterName])]
  end).

Definition Datadog : Configer := mkConfiger "datadog" (fun dest =>
  if negb (tracing dest) && negb (logging dest) && negb (metrics dest)
  then fails (ENew "Datadog destination does not have any signals to export")
  else match GetConfig dest !! "DATADOG_SITE" with
  | None => fails (ENew "Datadog site not specified, gateway will not be configured for Datadog")
  | Some site =>
      let exporterName := "datadog/" +:+ GetID dest in
      _ ← add_exporter_config exporterName (gm
            [("hostname", GStr "odigos-gateway");
             ("api", GMap (gm [("key", secret "DATADOG_API_KEY" dest); ("site", GStr site)]))]);
      let connectorName := "datadog/connector-" +:+ GetID dest in
      let connectorEnabled := tracing dest && metrics dest in
      _ ← (if connectorEnabled then add_connector_config connectorName GUnit else mret tt);
      let linked := if connectorEnabled then [connectorName] else [] in
      per_signal [(tracing dest, "traces/datadog-" +:+ GetID dest, mkPipeline [] [] (exporterName :: linked));
                  (metrics dest, "metrics/datadog-" +:+ GetID dest, mkPipeline linked [] [exporterName]);
                  (logging dest, "logs/datadog-" +:+ GetID dest, exports_to exporterName)]
  end).

(** The error of a missing type names the empty value, not the key. *)
Definition Dynamic : Configer := mkConfiger "dynamic" (fun dest =>
  let config := GetConfig dest in
  match config !! "DYNAMIC_CONFIGURATION_DATA" with
  | None => fails (errorMissingKey strconv_Quote "DYNAMIC_CONFIGURATION_DATA")
  | Some dynamicConfData =>
      match yaml_map dynamicConfData with
      | inl err => fails (ENew err)
      | inr parsedConfig =>
          match config !! "DYNAMIC_DESTINATION_TYPE" with
          | None => fails (errorMissingKey strconv_Quote "")
          | Some destinationType =>
              let exporterName := destinationType +:+ "/" +:+ GetID dest in
              _ ← add_exporter_config exporterName parsedConfig;
              per_signal (all_signals dest (GetID dest) (exports_to exporterName))
          end
      end
  end).
End Decoders.
