(* ===== verification/AvailableConfigers.v ===== *)
(** * The configurers of the vendors keep their promise

    The configurers of DestinationVendors and DestinationEndpoints only add
    what is their own ([ConfigerLaws]); the proofs are the ones of
    DestinationLaws. *)


From Stdlib Require Import Ascii.
From S2P Require Import Prelude.
From S2P Require Import GoStrings.
From S2P Require Import K8s.
From S2P Require Import Api.
From S2P Require Import GoLib.
From S2P Require Import CollectorConfig.
From S2P Require Import Destinations.
From S2P Require Import DestinationTypes.
From S2P Require Import DestinationLaws.
From S2P Require Import DestinationVendors.
From S2P Require Import DestinationEndpoints.
From S2P Require Import DestinationDecoders.

#[export] Hint Unfold all_signals normalized_logs : configer.

Section Laws.
Context `{GoUrl} `{GoUrlMore} `{GoLibrary}.

#[export] Instance HyperDX_laws : ConfigerLaws HyperDX (ends_in "hdx-").
Proof. contribute. Qed.
#[export] Instance VictoriaMetricsCloud_laws : ConfigerLaws VictoriaMetricsCloud (ends_in "victoriametricscloud-").
Proof. contribute. Qed.
#[export] Instance Pyroscope_laws : ConfigerLaws Pyroscope (ends_in "pyroscope-").
Proof. contribute. Qed.
#[export] Instance GoogleCloudOTLP_laws : ConfigerLaws GoogleCloudOTLP (ends_in "googlecloudotlp-").
Proof. contribute. Qed.
#[export] Instance Signoz_laws : ConfigerLaws Signoz (ends_in "signoz-").
Proof. contribute. Qed.
#[export] Instance Tingyun_laws : ConfigerLaws Tingyun (ends_in "tingyun-").
Proof. contribute. Qed.
#[export] Instance OpenObserve_laws : ConfigerLaws OpenObserve (ends_in "openobserve-").
Proof. contribute. Qed.
#[export] Instance AzureBlobStorage_laws : ConfigerLaws AzureBlobStorage (ends_in "azureblobstorage-").
Proof. contribute. Qed.
#[export] Instance Dash0_laws : ConfigerLaws Dash0 (ends_in "dash0-").
Proof. contribute. Qed.
#[export] Instance Lumigo_laws : ConfigerLaws Lumigo (ends_in "lumigo-").
Proof. contribute. Qed.
#[export] Instance NewRelic_laws : ConfigerLaws NewRelic (ends_in "newrelic-").
Proof. contribute. Qed.
#[export] Instance Uptrace_laws : ConfigerLaws Uptrace (ends_in "uptrace-").
Proof. contribute. Qed.
#[export] Instance Greptime_laws : ConfigerLaws Greptime (ends_in "greptime-").
Proof. contribute. Qed.
#[export] Instance Oracle_laws : ConfigerLaws Oracle (ends_in "oracle-").
Proof. contribute. Qed.
#[export] Instance Groundcover_laws : ConfigerLaws Groundcover (ends_in "groundcover-").
Proof. contribute. Qed.
#[export] Instance GrafanaCloudTempo_laws : ConfigerLaws GrafanaCloudTempo (ends_in "grafana-").
Proof. contribute. Qed.
#[export] Instance Observe_laws : ConfigerLaws Observe (ends_in "observe-").
Proof. contribute. Qed.
#[export] Instance ElasticAPM_laws : ConfigerLaws ElasticAPM (ends_in "elastic-").
Proof. contribute. Qed.
#[export] Instance Instana_laws : ConfigerLaws Instana (ends_in "instana-").
Proof. contribute. Qed.
#[export] Instance Dynatrace_laws : ConfigerLaws Dynatrace (ends_in "dynatrace-").
Proof. contribute. Qed.
#[export] Instance Chronosphere_laws : ConfigerLaws Chronosphere (ends_in "chronosphere-").
Proof. contribute. Qed.
#[export] Instance Coralogix_laws : ConfigerLaws Coralogix (ends_in "coralogix-").
Proof. contribute. Qed.
#[export] Instance Causely_laws : ConfigerLaws Causely (ends_in "causely-").
Proof. contribute. Qed.
#[export] Instance Logzio_laws : ConfigerLaws Logzio (ends_in "logzio-").
Proof. contribute. Qed.
#[export] Instance Splunk_laws : ConfigerLaws Splunk (ends_in "splunk-").
Proof. contribute. Qed.
#[export] Instance SplunkOTLP_laws : ConfigerLaws SplunkOTLP (ends_in "splunkotlp-").
Proof. contribute. Qed.
#[export] Instance Prometheus_laws : ConfigerLaws Prometheus (ends_in "prometheus-").
Proof. contribute. Qed.
#[export] Instance AWSS3_laws : ConfigerLaws AWSS3 (ends_in "awss3-").
Proof. contribute. Qed.
#[export] Instance AppDynamics_laws : ConfigerLaws AppDynamics (ends_in "appdynamics-").
Proof. contribute. Qed.
#[export] Instance Mock_laws : ConfigerLaws Mock (ends_in "mockdestination-").
Proof. contribute. Qed.
#[export] Instance Elasticsearch_laws : ConfigerLaws Elasticsearch (ends_in "elasticsearch-").
Proof. contribute. Qed.
#[export] Instance Clickhouse_laws : ConfigerLaws Clickhouse (ends_in "clickhouse-").
Proof. contribute. Qed.
End Laws.

(** ** The endpoint of Dynatrace

    A URL that starts with a scheme parses with one, so the second call of
    [parsetheDTurl] is the last. *)
Class GoUrlLaws `{GoUrl} : Prop := {
  parse_scheme s u : url_parse ("https://" +:+ s) = inr u -> Scheme u = "https"
}.

Lemma parsetheDTurl_returns `{GoUrlLaws} fuel rawURL :
  is_Some (parsetheDTurl 2 rawURL) ∧ parsetheDTurl (2 + fuel) rawURL = parsetheDTurl 2 rawURL.
Proof.
  cbn [parsetheDTurl Nat.add]. destruct (url_parse rawURL) as [err|u]; [by split|].
  case_decide; [|by split]. destruct (url_parse ("https://" +:+ rawURL)) as [err|u'] eqn:E; [by split|].
  apply parse_scheme in E. rewrite E. by split.
Qed.

(** ** Observations *)

(** With both signals, the traces of Oracle go to the endpoint of the metrics:
    both blocks write the same exporter. *)
Lemma oracle_traces_endpoint_lost `{GoUrl} `{GoUrlMore} `{GoLibrary} dest c url endpoint keyType :
  GetConfig dest !! "ORACLE_ENDPOINT" = Some url -> parseOtlpHttpEndpoint url "" "" = inr endpoint ->
  GetConfig dest !! "ORACLE_DATA_KEY_TYPE" = Some keyType -> (keyType = "private" ∨ keyType = "public") ->
  tracing dest = true -> metrics dest = true ->
  let exporterName := "otlp_http/oracle-" +:+ GetID dest in
  let c' := (ModifyConfig Oracle dest c).2 in
  (exists v, exporters c' !! exporterName = Some (GMap v)
             ∧ v !! "endpoint" = Some (GStr (endpoint +:+ "/20200101/opentelemetry")))
  ∧ pipelines c' !! ("traces/oracle-" +:+ GetID dest) = Some (exports_to exporterName).
Proof.
  intros Hu Hp Hk Hkt Ht Hm. cbv zeta. cbn [ModifyConfig Oracle]. rewrite Hu. cbv beta zeta.
  cbv [mbind config_bind try]. rewrite Hp, Ht, Hk, Hm.
  rewrite decide_False by (destruct Hkt as [->| ->]; naive_solver). simpl. split.
  - rewrite lookup_insert_eq. eexists. split; [done|]. by rewrite lookup_insert_eq.
  - rewrite lookup_insert_ne by done. by rewrite lookup_insert_eq.
Qed.

(** The host name of an IPv6 address has no brackets, so the default port
    becomes a part of the address. *)
Example causely_ipv6 :
  @validateCauselyUrlInput {|
    url_parse s := inr (mkURL "http" None "[::1]" "" "");
    url_string u := Scheme u +:+ "://" +:+ Host u;
    url_Port _ := "";
    url_Hostname _ := "::1";
    SplitHostPort _ := inl "too many colons in address";
    JoinHostPort h p := "[" +:+ h +:+ "]:" +:+ p |} "http://[::1]"
  = inr "http://::1:4317".
Proof. by vm_compute. Qed.

(** * The configurers that decode settings

    All of DestinationDecoders but three keep their promise to the gateway
    ([ConfigerLaws]).  [Dynamic] keeps it for the exporters that are no
    connector of the gateway, [Jaeger] and [Datadog] for the destinations
    whose signals they serve; [Bonree] connects its pipelines through the
    gateway's own service graph. *)

#[export] Hint Unfold kafka_signal registerExporter add_auth profiles_if maybeAddExporterName : configer.

(** ** Processors from a map *)

(** Names that the gateway leaves to the destinations. *)
Definition own_processor (k : string) : Prop := has_prefix "batch/" k = false ∧ k <> "odigostrafficmetrics".

Definition insert_processors (ps : list (string * gval)) (c : Config) : Config :=
  foldl (fun c kv => set_processors (insert kv.1 kv.2) c) c ps.

Lemma add_processors_eq ps c : add_processors ps c = (inr ps.*1, insert_processors ps c).
Proof.
  revert c. induction ps as [|[k v] ps IH]; intros c; [done|]. cbn [add_processors].
  cbv [mbind config_bind modify]. by rewrite IH.
Qed.

Lemma insert_processors_spec ps c :
  let c' := insert_processors ps c in
  extends c c' ∧ pipelines c' = pipelines c ∧ exporters c' = exporters c ∧ extensions c' = extensions c
  ∧ Forall (fun k => is_Some (processors c' !! k)) ps.*1.
Proof.
  revert c. induction ps as [|[k v] ps IH]; intros c; cbn zeta; [by split_and!|].
  destruct (IH (set_processors (insert k v) c)) as (He & Hp & Hx & Hn & Hf).
  split_and!; [etrans; [apply extends_processor|exact He]|done..|].
  constructor; [|done]. apply elem_of_dom, (ex_processors _ _ He), elem_of_dom. simpl. rewrite lookup_insert_eq. by eexists.
Qed.

Section Processors.
Context (s : string) (c0 : Config).

Lemma runs_processors ps (Q : list string -> Config -> Prop) used names c :
  builds s c0 used names c ->
  (forall c', builds s c0 used names c' -> Forall (fun k => is_Some (processors c' !! k)) ps.*1 ->
     exporters c' = exporters c -> extensions c' = extensions c -> Q ps.*1 c') ->
  runs (add_processors ps) (step_ok c0 Q) c.
Proof.
  intros Hb HQ. unfold runs. rewrite add_processors_eq. cbn [fst snd step_ok].
  destruct (insert_processors_spec ps c) as (He & Hp & Hx & Hn & Hf). apply HQ; [|done..]. by eapply builds_extends.
Qed.

(** A pipeline whose processors come from a map. *)
Lemma map_processed_ok `{GoMapOrderLaws} (m : GenericMap) c e :
  map_Forall (fun k _ => own_processor k) m ->
  Forall (fun k => is_Some (processors c !! k)) (map_order (map_to_list m)).*1 -> is_Some (exporters c !! e) ->
  dest_pipeline_ok c (mkPipeline [] (map_order (map_to_list m)).*1 [e]).
Proof.
  intros Hm Hp He. assert (Hl : map_order (map_to_list m) ≡ₚ map_to_list m) by apply map_order_perm.
  split; simpl; [done|split; [done|by constructor]|split].
  - apply Forall_forall. intros k Hk. rewrite Forall_forall in Hp. split; [by apply Hp|].
    apply list_elem_of_fmap in Hk as ([k' v] & -> & Hk). rewrite Hl, elem_of_map_to_list in Hk. by apply (Hm k' v).
  - rewrite Hl. apply NoDup_fst_map_to_list.
Qed.
End Processors.

Lemma or_join_ok {A} (r : error + A) msg a : or_join r msg = inr a -> r = inr a.
Proof. destruct r; [done|]. by intros [= ->]. Qed.

Lemma inr_inj {A B} (a b : B) : @inr A B a = inr b -> a = b.
Proof. by intros [= ->]. Qed.

Lemma own_gm l : Forall own_processor l.*1 -> map_Forall (fun k _ => own_processor k) (gm l).
Proof.
  rewrite Forall_forall. intros Hl k v Hk. apply Hl. apply elem_of_list_to_map_2 in Hk.
  by apply (list_elem_of_fmap_2 fst) in Hk.
Qed.

Lemma loki_own rawLabels destName (m : GenericMap) `{GoDecode} :
  lokiLabelsProcessors rawLabels destName = inr m -> map_Forall (fun k _ => own_processor k) m.
Proof.
  unfold lokiLabelsProcessors. destruct rawLabels as [l|].
  - case_decide; [intros <-%inr_inj; apply map_Forall_empty|]. destruct (json_strings l); [done|]. intros <-%inr_inj.
    apply own_gm. by repeat constructor.
  - intros <-%inr_inj. apply own_gm. by repeat constructor.
Qed.

Lemma prometheus_own rawLabels s (m : GenericMap) `{GoLibrary} `{GoDecode} :
  promResourceAttributesProcessors rawLabels s = inr m -> map_Forall (fun k _ => own_processor k) m.
Proof.
  unfold promResourceAttributesProcessors. destruct rawLabels as [l|]; [|intros <-%inr_inj; apply map_Forall_empty].
  case_decide; [intros <-%inr_inj; apply map_Forall_empty|]. destruct (json_strings l); [done|]. intros <-%inr_inj.
  apply own_gm. by repeat constructor.
Qed.

Ltac map_defined :=
  repeat match goal with E : processors ?c = processors _ |- context [processors ?c] => rewrite E end; eassumption.

Ltac pipeline_ok ::= first
  [ apply exports_to_ok; is_defined
  | apply processed_ok; [is_defined|is_defined|done|done]
  | apply map_processed_ok;
      [first [by eapply loki_own, or_join_ok|by eapply prometheus_own, or_join_ok]|map_defined|is_defined] ].
Ltac more_steps ::=
  match goal with
  | |- runs (add_processors _) _ _ => eapply runs_processors; [eassumption|intros]
  end.

Section Laws.
Context `{GoUrl} `{GoUrlMore} `{GoLibrary} `{GoMapOrderLaws} `{GoDecode}.

#[export] Instance AWSCloudWatch_laws : ConfigerLaws AWSCloudWatch (ends_in "awscloudwatch-").
Proof. contribute. Qed.
#[export] Instance AWSXRay_laws : ConfigerLaws AWSXRay (ends_in "awsxray-").
Proof. contribute. Qed.
#[export] Instance Loki_laws : ConfigerLaws Loki (ends_in "loki-").
Proof. contribute. Qed.
#[export] Instance GrafanaCloudLoki_laws : ConfigerLaws GrafanaCloudLoki (ends_in "grafana-").
Proof. contribute. Qed.
#[export] Instance GrafanaCloudPrometheus_laws : ConfigerLaws GrafanaCloudPrometheus (ends_in "grafana-").
Proof. contribute. Qed.
#[export] Instance GenericOTLP_laws : ConfigerLaws GenericOTLP (ends_in "generic-").
Proof. contribute. Qed.
#[export] Instance OTLPHttp_laws : ConfigerLaws OTLPHttp (ends_in "otlphttp-").
Proof. contribute. Qed.
#[export] Instance Kafka_laws : ConfigerLaws Kafka (ends_in "kafka-").
Proof. contribute. Qed.
End Laws.

(** ** Qryn adds an exporter after the pipelines that name it *)

Section Qryn.
Context `{GoUrl} `{GoUrlMore} `{GoLibrary} `{GoMapOrder} `{GoDecode}.

(** The same steps with the exporter first. *)
Definition qryn_otlp_first (conf : qrynConf) (baseURL : string) (dest : ExporterConfigurer) : ConfigM (list string) :=
  let otlpHttpExporterName := "otlp_http/qryn-" +:+ GetID dest in
  _ ← (if tracing dest || logging dest then
         add_exporter_config otlpHttpExporterName (gm
           ((if tracing dest then [("traces_endpoint", GStr (baseURL +:+ "/v1/traces"))] else [])
            ++ (if logging dest then [("logs_endpoint", GStr (baseURL +:+ "/v1/logs"))] else [])
            ++ [("encoding", GStr "proto"); ("compression", GStr "none")]))
       else mret tt);
  ts ← (if tracing dest then
          ps ← maybeAddExporterName conf ("resource/qryn-traces-name-" +:+ GetID dest) "odigos-qryn-traces";
          per_signal [(true, "traces/qryn-" +:+ GetID dest, mkPipeline [] ps [otlpHttpExporterName])]
        else mret []);
  ls ← (if logging dest then
          ps ← maybeAddExporterName conf ("resource/qryn-logs-name-" +:+ GetID dest) "odigos-qryn-logs";
          per_signal [(true, "logs/qryn-" +:+ GetID dest, mkPipeline [] ps [otlpHttpExporterName])]
        else mret []);
  mret (ts ++ ls).

Lemma qryn_otlp_commutes conf baseURL dest c : qryn_otlp conf baseURL dest c = qryn_otlp_first conf baseURL dest c.
Proof.
  unfold qryn_otlp, qryn_otlp_first, maybeAddExporterName.
  by destruct (tracing dest), (logging dest), (q_addExporterName conf).
Qed.

Lemma runs_ext {A} (m m' : ConfigM A) Q c : m c = m' c -> runs m' Q c -> runs m Q c.
Proof. unfold runs. by intros ->. Qed.

Lemma qryn_keeps name dest :
  keeps_promise (mkConfiger name qryn_ModifyConfig) ("qryn-" +:+ GetID dest) dest.
Proof.
  keeps_start. unfold qryn_ModifyConfig.
  repeat (cbv beta zeta; autounfold with configer; cbn [app];
          first [ match goal with |- runs (qryn_otlp _ _ _) _ _ =>
                    eapply runs_ext; [apply qryn_otlp_commutes|unfold qryn_otlp_first; destruct (tracing dest), (logging dest); cbn [orb]] end
                | run_step ]).
Qed.

#[export] Instance Qryn_laws : ConfigerLaws Qryn (ends_in "qryn-").
Proof. split. intros dest. apply qryn_keeps. Qed.
#[export] Instance QrynOSS_laws : ConfigerLaws QrynOSS (ends_in "qryn-").
Proof.
  split. intros dest. unfold QrynOSS. intros c0. cbn [ModifyConfig]. set (dest' := mkExporterConfigurer _ _ _ _).
  apply (qryn_keeps "qryn" dest' c0).
Qed.

(** ** Promises to some destinations *)

Lemma Datadog_keeps dest :
  tracing dest && metrics dest = false -> keeps_promise Datadog (ends_in "datadog-" dest) dest.
Proof. intros E. keeps_start. cbv zeta. rewrite E. keeps_go. Qed.

Lemma Jaeger_keeps dest :
  metrics dest || logging dest = false -> keeps_promise Jaeger (ends_in "jaeger-" dest) dest.
Proof. intros [Em El]%orb_false_iff. keeps_start. cbv zeta. rewrite Em, El. keeps_go. Qed.

Lemma Dynamic_keeps dest :
  connector_name (map_get (GetConfig dest) "DYNAMIC_DESTINATION_TYPE" +:+ "/" +:+ GetID dest) = false ->
  keeps_promise Dynamic (GetID dest) dest.
Proof.
  intros E. keeps_start. cbv zeta. unfold map_get in E.
  destruct (GetConfig dest !! "DYNAMIC_DESTINATION_TYPE"); [cbn [default id from_option] in E|]; keeps_go.
Qed.
End Qryn.

(** The deprecated setting of Qryn is compared in lower case, and never
    matches. *)
Lemma qryn_deprecated_ignored value : getBooleanConfig value "Yes" = bool_decide (to_lower value = "true").
Proof.
  unfold getBooleanConfig. apply bool_decide_ext. split; [|by left]. intros [?|E]; [done|]. exfalso.
  destruct value as [|a s]; [done|]. simpl in E. injection E as E _. revert E. clear.
  unfold lower_byte. by destruct a as [[] [] [] [] [] [] [] []].
Qed.

(** * The configurers that odigos ships (src/common/config/root.go)

    The list of all configurers, the suffix that each gives to the pipelines
    of its destinations, and which destinations they keep their promise to. *)

(** ** Loading a list of configurers *)

Lemma load_from l m0 :
  (exists m, foldl load_configer (inr m0) l = inr m)
  <-> NoDup (DestType <$> l) ∧ (forall k, k ∈ l -> m0 !! DestType k = None).
Proof.
  assert (Hnone : forall err l, foldl load_configer (inl err) l = inl err) by (intros err l'; by induction l').
  revert m0. induction l as [|x l IH]; intros m0; cbn [foldl].
  - split; [|by eexists]. intros _. split; [constructor|]. by intros k ?%elem_of_nil.
  - rewrite fmap_cons, NoDup_cons. unfold load_configer at 2. destruct (m0 !! DestType x) eqn:Ex.
    + rewrite Hnone. split; [by intros [m Hm]|]. intros [_ Hk]. rewrite (Hk x) in Ex; [done|left].
    + rewrite IH. split.
      * intros [Hnd Hk]. assert (Hx : DestType x ∉ DestType <$> l).
        { intros (k & E & Hin)%list_elem_of_fmap. specialize (Hk k Hin). by rewrite <-E, lookup_insert_eq in Hk. }
        split_and!; [done|done|]. intros k [->|Hin]%elem_of_cons; [done|]. specialize (Hk k Hin).
        by apply lookup_insert_None in Hk as [? _].
      * intros [[Hx Hnd] Hk]. split; [done|]. intros k Hin. rewrite lookup_insert_ne; [apply Hk; by right|].
        intros E. apply Hx. rewrite E. by apply list_elem_of_fmap_2.
Qed.

(** Loading fails exactly when two configurers have the same type. *)
Lemma load_configers_ok l : (exists m, LoadConfigers l = inr m) <-> NoDup (DestType <$> l).
Proof. unfold LoadConfigers. rewrite load_from. split; [by intros []|].
  intros Hnd. split; [done|]. intros k _. apply lookup_empty.
Qed.

Lemma load_configers_inv l m t configer :
  LoadConfigers l = inr m -> m !! t = Some configer -> configer ∈ l ∧ DestType configer = t.
Proof.
  unfold LoadConfigers.
  revert m. induction l as [|x l IH] using rev_ind; intros m; [cbn [foldl]; by intros [= <-] ?%lookup_empty_Some|].
  rewrite foldl_snoc. destruct (foldl load_configer (inr ∅) l) as [|m0] eqn:E; [done|]. cbn [load_configer].
  destruct (m0 !! DestType x) eqn:Ex; [done|]. intros [= <-] [[<- <-]|[_ Hm]]%lookup_insert_Some; [set_solver|].
  destruct (IH m0 eq_refl Hm). set_solver.
Qed.

(** ** The list (root.go) *)

Section Available.
Context `{GoUrl} `{GoUrlMore} `{GoLibrary} `{GoMapOrder} `{GoDecode}.

Definition availableConfigers : list Configer :=
  [AlibabaCloud; AppDynamics; AWSCloudWatch; AWSS3; AWSXRay; Axiom_; AzureBlobStorage; AzureMonitor; BetterStack;
   Bonree; Causely; Checkly; Chronosphere; Clickhouse; Coralogix; Dash0; Datadog; DebugDest; Dynamic; Dynatrace;
   ElasticAPM; Elasticsearch; GenericOTLP; GoogleCloud; GoogleCloudOTLP; GoogleCloudStorage; GrafanaCloudLoki;
   GrafanaCloudPrometheus; GrafanaCloudTempo; Greptime; Groundcover; Honeycomb; HyperDX; Instana; Jaeger; Kafka;
   KloudMate; Last9; Lightstep; Logzio; Loki; Lumigo; Middleware; Mock; NewRelic; Nop; Observe; OneUptime;
   OpenObserve; Oracle; OTLPHttp; Prometheus; Qryn; QrynOSS; Quickwit; Sentry; Seq; SignalFx; Signoz; Splunk;
   SplunkOTLP; SumoLogic; TelemetryHub; Tempo; Tingyun; Traceloop; Uptrace; VictoriaMetricsCloud; Pyroscope].

Lemma available_types : NoDup (DestType <$> availableConfigers).
Proof. apply (bool_decide_unpack _). by vm_compute. Qed.

(** The pipelines of a destination end in a prefix of its type, which is
    mostly the type itself, and its name. *)
Definition pipeline_prefix (type : string) : string :=
  switch type
    [("alibabacloud", "alibaba-"); ("cloudwatch", "awscloudwatch-"); ("s3", "awss3-"); ("xray", "awsxray-");
     ("azureblob", "azureblobstorage-"); ("dynamic", ""); ("elasticapm", "elastic-"); ("otlp", "generic-");
     ("grafanacloudloki", "grafana-"); ("grafanacloudprometheus", "grafana-"); ("grafanacloudtempo", "grafana-");
     ("hyperdx", "hdx-"); ("mock", "mockdestination-"); ("qryn-oss", "qryn-")] (type +:+ "-").
Definition pipeline_suffix (dest : ExporterConfigurer) : string := pipeline_prefix (GetType dest) +:+ GetID dest.

(** The destinations that are not served as the others are: Bonree connects
    through the gateway's service graph, Datadog through a connector of its
    own, Jaeger stops half way, and the type of a dynamic exporter may be the
    one of a connector. *)
Definition well_behaved (dest : ExporterConfigurer) : bool :=
  let type := GetType dest in
  if decide (type = "bonree") then false
  else if decide (type = "datadog") then negb (tracing dest && metrics dest)
  else if decide (type = "jaeger") then negb (metrics dest || logging dest)
  else if decide (type = "dynamic")
  then negb (connector_name (map_get (GetConfig dest) "DYNAMIC_DESTINATION_TYPE" +:+ "/" +:+ GetID dest))
  else true.

Definition serves (configer : Configer) : Prop := forall dest,
  DestType configer = GetType dest -> well_behaved dest = true -> keeps_promise configer (pipeline_suffix dest) dest.

Lemma lawful_serves configer prefix :
  ConfigerLaws configer (ends_in prefix) -> pipeline_prefix (DestType configer) = prefix -> serves configer.
Proof. intros Hl Hp dest Ht _. unfold pipeline_suffix. rewrite <-Ht, Hp. apply Hl. Qed.

Lemma Bonree_serves : serves Bonree.
Proof. intros dest Ht Hw. unfold well_behaved in Hw. by rewrite <-Ht in Hw. Qed.
Lemma Datadog_serves : serves Datadog.
Proof.
  intros dest Ht Hw. unfold well_behaved, pipeline_suffix in *. rewrite <-Ht in *. cbn in Hw.
  apply Datadog_keeps. by apply negb_true_iff.
Qed.
Lemma Jaeger_serves : serves Jaeger.
Proof.
  intros dest Ht Hw. unfold well_behaved, pipeline_suffix in *. rewrite <-Ht in *. cbn in Hw.
  apply Jaeger_keeps. by apply negb_true_iff.
Qed.
Lemma Dynamic_serves : serves Dynamic.
Proof.
  intros dest Ht Hw. unfold well_behaved, pipeline_suffix in *. rewrite <-Ht in *.
  apply Dynamic_keeps. by apply negb_true_iff.
Qed.
End Available.

Section Serves.
Context `{GoUrl} `{GoUrlMore} `{GoLibrary} `{GoMapOrderLaws} `{GoDecode}.

Lemma available_serve : Forall serves availableConfigers.
Proof.
  repeat (constructor; [first [apply Bonree_serves|apply Datadog_serves|apply Jaeger_serves|apply Dynamic_serves
                              |eapply lawful_serves; [apply _|reflexivity]]|]).
  constructor.
Qed.
End Serves.
