(* ===== verification/DataStreams.v ===== *)
(** * Data streams

    A destination belongs to the data streams that its source selector names,
    or to the default one (autoscaler, clustercollector/configmap.go,
    [calculateDataStreams]); each data stream gets one pipeline per signal
    from the router to its destinations (pipelinegen/pipeline_builder.go). *)

From Stdlib Require Import Ascii.
From S2P Require Import Prelude.
From S2P Require Import GoStrings.
From S2P Require Import GoSort.
From S2P Require Import K8s.
From S2P Require Import Api.
From S2P Require Import GoLib.
From S2P Require Import CollectorConfig.

(** ** Destinations (api/odigos/v1alpha1/destination_types.go) *)

Record SourceSelector := mkSourceSelector { ss_Namespaces : list string; ss_DataStreams : list string }.
Record Destination := mkDestination
  { dest_Name : string;
    dest_Type : string;
    dest_Data : gmap string string;
    dest_Signals : list string;
    dest_Disabled : option bool;
    dest_SourceSelector : option SourceSelector }.

Definition to_exporter (d : Destination) : ExporterConfigurer :=
  mkExporterConfigurer (dest_Name d) (dest_Type d) (dest_Data d) (dest_Signals d).

(** ** Data streams (pipelinegen/datastreams.go) *)

Record StreamDestination := mkStreamDestination { DestinationName : string; ConfiguredSignals : list string }.
Record DataStream := mkDataStream { ds_Name : string; ds_Destinations : list StreamDestination }.

Definition DefaultDataStream : string := "default".

(** [calculateDataStreams]: the body of the loops over the destinations and
    their streams. *)
Definition destinationExists (existing : list StreamDestination) (name : string) : bool :=
  existsb (fun v => bool_decide (DestinationName v = name)) existing.

Definition selected_streams (d : Destination) : list string :=
  match dest_SourceSelector d with None => [DefaultDataStream] | Some sel => ss_DataStreams sel end.

Definition add_to_stream (d : Destination) (m : gmap string (list StreamDestination)) (stream : string) :
    gmap string (list StreamDestination) :=
  let l := default [] (m !! stream) in
  <[stream := if destinationExists l (dest_Name d) then l
              else l ++ [mkStreamDestination (dest_Name d) (dest_Signals d)]]> m.

Definition add_destination (m : gmap string (list StreamDestination)) (d : Destination) :
    gmap string (list StreamDestination) :=
  foldl (add_to_stream d) m (selected_streams d).

Section Streams.
Context `{GoSort} `{GoMapOrder}.

Definition calculateDataStreams (dests : list Destination) : list DataStream :=
  let dataStreamsMap := foldl add_destination ∅ dests in
  let l := (fun kv => mkDataStream kv.1 kv.2) <$> map_order (map_to_list dataStreamsMap) in
  (fun ds => mkDataStream (ds_Name ds) (SortFunc (compare_on DestinationName string_compare) (ds_Destinations ds)))
    <$> SortFunc (compare_on ds_Name string_compare) l.
End Streams.

(** ** Pipelines of the data streams (pipelinegen/pipeline_builder.go) *)

Definition GenericBatchProcessorConfigKey : string := "batch/generic-batch-processor".

Definition stream_exporters (signal : string) (dests : list StreamDestination)
    (forwardConnectorByDest : gmap string (list string)) : list string :=
  dests ≫= fun dest =>
    filter (fun connectorName => has_prefix ("forward/" +:+ signal +:+ "/") connectorName = true)
      (default [] (forwardConnectorByDest !! DestinationName dest)).

Definition stream_pipeline (signal : string) (ds : DataStream)
    (forwardConnectorByDest : gmap string (list string)) : Pipeline :=
  mkPipeline ["odigosrouterconnector/" +:+ signal]
    (if decide (signal <> "profiles") then [GenericBatchProcessorConfigKey] else [])
    (stream_exporters signal (ds_Destinations ds) forwardConnectorByDest).

Definition stream_step (forwardConnectorByDest : gmap string (list string)) (ds : DataStream)
    (pipelines : gmap string Pipeline) (signal : string) : gmap string Pipeline :=
  let p := stream_pipeline signal ds forwardConnectorByDest in
  match Exporters p with [] => pipelines | _ => <[signal +:+ "/" +:+ ds_Name ds := p]> pipelines end.

Definition buildDataStreamPipelines (dataStreams : list DataStream)
    (forwardConnectorByDest : gmap string (list string)) : gmap string Pipeline :=
  foldl (fun m ds => foldl (stream_step forwardConnectorByDest ds) m ["logs"; "metrics"; "traces"; "profiles"])
    ∅ dataStreams.

(** ** What the data streams are *)

(** The destination [d] is in stream [s] of [dests]. *)
Definition in_stream (dests : list Destination) (s : string) (x : StreamDestination) : Prop :=
  exists d, d ∈ dests ∧ s ∈ selected_streams d ∧ x = mkStreamDestination (dest_Name d) (dest_Signals d).

Section StreamFacts.

Lemma destinationExists_true l n : destinationExists l n = true <-> n ∈ DestinationName <$> l.
Proof.
  unfold destinationExists. rewrite existsb_exists, list_elem_of_fmap. split.
  - intros (x & Hx & E%bool_decide_eq_true). exists x. split; [done|]. by apply list_elem_of_In.
  - intros (x & -> & Hx). exists x. split; [by apply list_elem_of_In|by apply bool_decide_eq_true].
Qed.

(** What the map holds after the streams [ss] of the destinations [done]. *)
Definition holds (m : gmap string (list StreamDestination)) (P : string -> StreamDestination -> Prop) : Prop :=
  (forall s x, P s x <-> exists l, m !! s = Some l ∧ x ∈ l)
  ∧ (forall s l, m !! s = Some l -> NoDup (DestinationName <$> l) ∧ l <> []).

Lemma add_to_stream_holds d s m P :
  holds m P ->
  (forall s' x, P s' x -> DestinationName x = dest_Name d -> x = mkStreamDestination (dest_Name d) (dest_Signals d)) ->
  holds (add_to_stream d m s)
    (fun s' x => P s' x ∨ s' = s ∧ x = mkStreamDestination (dest_Name d) (dest_Signals d)).
Proof.
  intros [H1 H2] Huniq. unfold add_to_stream. set (l := default [] (m !! s)).
  assert (Hl : forall x, x ∈ l <-> P s x).
  { intros x. rewrite H1. unfold l. destruct (m !! s) as [l'|] eqn:E; simpl; [naive_solver|]. rewrite elem_of_nil. naive_solver. }
  assert (Hnd : NoDup (DestinationName <$> l)).
  { unfold l. destruct (m !! s) eqn:E; [by apply (H2 s)|constructor]. }
  set (x0 := mkStreamDestination (dest_Name d) (dest_Signals d)).
  destruct (destinationExists l (dest_Name d)) eqn:Ed.
  - apply destinationExists_true, list_elem_of_fmap in Ed as (x & Ex & Hx).
    assert (x = x0) as -> by (apply (Huniq s); [by apply Hl|done]). split.
    + intros s' x. destruct (decide (s' = s)) as [->|Hne].
      * rewrite lookup_insert_eq. rewrite <-Hl. split; [|naive_solver].
        intros [?|[_ ->]]; by exists l.
      * rewrite lookup_insert_ne, <-H1 by done. naive_solver.
    + intros s' l'. destruct (decide (s' = s)) as [->|Hne].
      * rewrite lookup_insert_eq. intros [= <-]. split; [done|]. intros E. rewrite E in Hx. by apply elem_of_nil in Hx.
      * rewrite lookup_insert_ne by done. apply H2.
  - assert (Hn : dest_Name d ∉ DestinationName <$> l) by (rewrite <-destinationExists_true; congruence). split.
    + intros s' x. destruct (decide (s' = s)) as [->|Hne].
      * rewrite lookup_insert_eq, <-Hl. split.
        -- intros Hx. exists (l ++ [x0]). split; [done|]. rewrite elem_of_app, list_elem_of_singleton. naive_solver.
        -- intros (l' & [= <-] & Hx). rewrite elem_of_app, list_elem_of_singleton in Hx. naive_solver.
      * rewrite lookup_insert_ne, <-H1 by done. naive_solver.
    + intros s' l'. destruct (decide (s' = s)) as [->|Hne].
      * rewrite lookup_insert_eq. intros [= <-]. split; [|by destruct l].
        rewrite fmap_app. apply NoDup_app. split_and!; [done| |apply NoDup_singleton].
        intros y Hy. simpl. intros ->%list_elem_of_singleton. done.
      * rewrite lookup_insert_ne by done. apply H2.
Qed.

Lemma holds_proper m P Q : (forall s x, P s x <-> Q s x) -> holds m P -> holds m Q.
Proof. intros HPQ [H1 H2]. split; [|done]. intros s x. by rewrite <-HPQ. Qed.

Lemma add_destination_holds d m P :
  holds m P -> (forall s x, P s x -> DestinationName x <> dest_Name d) ->
  holds (add_destination m d)
    (fun s x => P s x ∨ s ∈ selected_streams d ∧ x = mkStreamDestination (dest_Name d) (dest_Signals d)).
Proof.
  intros Hm Hfresh. unfold add_destination. set (x0 := mkStreamDestination (dest_Name d) (dest_Signals d)).
  assert (Hgen : forall ss m Q, holds m Q -> (forall s x, Q s x -> DestinationName x = dest_Name d -> x = x0) ->
    holds (foldl (add_to_stream d) m ss) (fun s x => Q s x ∨ s ∈ ss ∧ x = x0)).
  { induction ss as [|s ss IH]; intros m' Q Hm' HQ; cbn [foldl].
    - eapply holds_proper; [|exact Hm']. intros s x. rewrite elem_of_nil. naive_solver.
    - eapply holds_proper; [|eapply IH; [by apply add_to_stream_holds|]].
      + intros s' x. cbn. rewrite elem_of_cons. naive_solver.
      + intros s' x [Hx|[-> ->]]; [by eapply HQ|done]. }
  apply Hgen; [done|]. intros s x Hx E. by destruct (Hfresh s x Hx).
Qed.

Lemma streams_hold dests :
  NoDup (dest_Name <$> dests) -> holds (foldl add_destination ∅ dests) (in_stream dests).
Proof.
  induction dests as [|d dests IH] using rev_ind; intros Hnd.
  - cbn [foldl]. split; [|by intros ?? ?%lookup_empty_Some]. intros s x. split.
    + intros (d & Hd & _). by apply elem_of_nil in Hd.
    + intros (l & ?%lookup_empty_Some & _). done.
  - rewrite fmap_app in Hnd. apply NoDup_app in Hnd as (Hnd & Hdis & _). rewrite foldl_snoc.
    eapply holds_proper; [|apply add_destination_holds; [by apply IH|]].
    + intros s x. unfold in_stream. setoid_rewrite elem_of_app. setoid_rewrite list_elem_of_singleton. naive_solver.
    + intros s x (d' & Hd' & _ & ->). simpl. intros E. apply (Hdis (dest_Name d')); [by apply list_elem_of_fmap_2|].
      rewrite E. by left.
Qed.
End StreamFacts.

Section StreamTheory.
Context `{GoSortLaws} `{GoMapOrderLaws}.

Lemma data_stream_elem dests ds :
  ds ∈ calculateDataStreams dests <->
  exists l, foldl add_destination ∅ dests !! ds_Name ds = Some l
            ∧ ds_Destinations ds = SortFunc (compare_on DestinationName string_compare) l.
Proof.
  unfold calculateDataStreams. rewrite list_elem_of_fmap. split.
  - intros (ds' & -> & Hds). rewrite SortFunc_perm in Hds. apply list_elem_of_fmap in Hds as ([k l] & -> & Hkl).
    rewrite map_order_perm in Hkl. apply elem_of_map_to_list in Hkl. simpl. by exists l.
  - destruct ds as [k l']. simpl. intros (l & Hl & ->). exists (mkDataStream k l). split; [done|].
    rewrite SortFunc_perm. apply list_elem_of_fmap. exists (k, l). split; [done|].
    rewrite map_order_perm. by apply elem_of_map_to_list.
Qed.

Lemma data_stream_names dests : NoDup (ds_Name <$> calculateDataStreams dests).
Proof.
  unfold calculateDataStreams. rewrite <-list_fmap_compose. cbn.
  rewrite SortFunc_perm, <-list_fmap_compose, map_order_perm. cbn. apply NoDup_fst_map_to_list.
Qed.

(** The streams of the destinations, each with the destinations that select
    it. *)
Lemma data_streams_elem dests s x :
  NoDup (dest_Name <$> dests) ->
  in_stream dests s x <-> exists ds, ds ∈ calculateDataStreams dests ∧ ds_Name ds = s ∧ x ∈ ds_Destinations ds.
Proof.
  intros Hnd. rewrite (proj1 (streams_hold dests Hnd)). split.
  - intros (l & Hl & Hx). exists (mkDataStream s (SortFunc (compare_on DestinationName string_compare) l)).
    split_and!; [apply data_stream_elem; by exists l|done|]. simpl. by rewrite SortFunc_perm.
  - intros (ds & (l & Hl & El)%data_stream_elem & <- & Hx). exists l. split; [done|]. by rewrite El, SortFunc_perm in Hx.
Qed.

Lemma data_streams_sorted dests :
  StronglySorted (not_less (compare_on ds_Name string_compare)) (calculateDataStreams dests).
Proof.
  unfold calculateDataStreams. set (l := SortFunc _ _).
  assert (Hs : StronglySorted (not_less (compare_on ds_Name string_compare)) l) by (apply SortFunc_sorted; apply _).
  clearbody l. induction Hs as [|ds l Hs IH Hf]; [constructor|]. rewrite fmap_cons. constructor; [done|].
  apply Forall_fmap. eapply Forall_impl; [exact Hf|]. intros y Hy. exact Hy.
Qed.

(** Comparison of a string key does not tell elements apart only when the
    keys are the same. *)
Lemma not_less_key {A} (key : A -> string) x y :
  not_less (compare_on key string_compare) x y -> not_less (compare_on key string_compare) y x -> key x = key y.
Proof.
  unfold not_less, compare_on. intros Hxy Hyx. apply string_compare_eq.
  pose proof (total_opp (cmp:=string_compare) (key y) (key x)). lia.
Qed.
End StreamTheory.

Lemma NoDup_key_inj {A B} (key : A -> B) (l : list A) x y :
  NoDup (key <$> l) -> x ∈ l -> y ∈ l -> key x = key y -> x = y.
Proof.
  intros Hnd [i Hi]%list_elem_of_lookup [j Hj]%list_elem_of_lookup E.
  assert (i = j) as ->; [|congruence].
  eapply NoDup_lookup; [exact Hnd|by rewrite list_lookup_fmap, Hi|]. rewrite list_lookup_fmap, Hj. simpl. by f_equal.
Qed.
Lemma NoDup_of_keys {A B} (key : A -> B) (l : list A) : NoDup (key <$> l) -> NoDup l.
Proof. apply NoDup_fmap_1. Qed.

(** *** The pipelines of the streams *)

Definition stream_signals : list string := ["logs"; "metrics"; "traces"; "profiles"].

(** Inserting the values of a list, some of them. *)
Section FoldInsert.
Context {A V : Type} (key : A -> string) (val : A -> V) (keep : A -> bool).
Definition insert_kept (m : gmap string V) (x : A) : gmap string V := if keep x then <[key x := val x]> m else m.

Lemma fold_insert_inv l n v :
  foldl insert_kept ∅ l !! n = Some v -> exists x, x ∈ l ∧ keep x = true ∧ key x = n ∧ val x = v.
Proof.
  induction l as [|x l IH] using rev_ind; [cbn [foldl]; by intros ?%lookup_empty_Some|]. rewrite foldl_snoc.
  unfold insert_kept at 1. destruct (keep x) eqn:E.
  - destruct (decide (key x = n)) as [<-|Hne].
    + rewrite lookup_insert_eq. intros [= <-]. exists x. set_solver.
    + rewrite lookup_insert_ne by done. intros (y & ? & ?)%IH. exists y. set_solver.
  - intros (y & ? & ?)%IH. exists y. set_solver.
Qed.

Lemma fold_insert_at l x :
  NoDup (key <$> l) -> x ∈ l -> keep x = true -> foldl insert_kept ∅ l !! key x = Some (val x).
Proof.
  induction l as [|y l IH] using rev_ind; intros Hnd Hx Hk; [by apply elem_of_nil in Hx|].
  rewrite fmap_app in Hnd. apply NoDup_app in Hnd as (Hnd & Hdis & _). rewrite foldl_snoc. unfold insert_kept at 1.
  apply elem_of_app in Hx as [Hx| ->%list_elem_of_singleton].
  - assert (key y <> key x).
    { intros E. apply (Hdis (key x)); [by apply list_elem_of_fmap_2|]. rewrite <-E. by left. }
    destruct (keep y); [rewrite lookup_insert_ne by done|]; by apply IH.
  - rewrite Hk. apply lookup_insert_eq.
Qed.
End FoldInsert.

Section StreamPipelines.
Context (fwd : gmap string (list string)).

Definition stream_pairs (dss : list DataStream) : list (DataStream * string) :=
  dss ≫= fun ds => (fun sig => (ds, sig)) <$> stream_signals.
Definition pair_key (x : DataStream * string) : string := x.2 +:+ "/" +:+ ds_Name x.1.
Definition pair_pipeline (x : DataStream * string) : Pipeline := stream_pipeline x.2 x.1 fwd.
Definition pair_keep (x : DataStream * string) : bool := nonempty (Exporters (pair_pipeline x)).

Lemma build_fold dss :
  buildDataStreamPipelines dss fwd = foldl (insert_kept pair_key pair_pipeline pair_keep) ∅ (stream_pairs dss).
Proof.
  unfold buildDataStreamPipelines. generalize (∅ : gmap string Pipeline).
  induction dss as [|ds dss IH]; intros m; [done|]. unfold stream_pairs. cbn [foldl mbind list_bind].
  rewrite foldl_app, IH. unfold stream_pairs. f_equal. unfold stream_signals. cbn [fmap list_fmap foldl].
  assert (Hstep : forall m sig, stream_step fwd ds m sig = insert_kept pair_key pair_pipeline pair_keep m (ds, sig)).
  { intros m' sig. unfold stream_step, insert_kept, pair_keep, pair_pipeline, pair_key. cbn [fst snd].
    by destruct (Exporters (stream_pipeline sig ds fwd)). }
  by rewrite !Hstep.
Qed.

Lemma stream_pairs_elem dss ds sig : (ds, sig) ∈ stream_pairs dss <-> ds ∈ dss ∧ sig ∈ stream_signals.
Proof.
  unfold stream_pairs. rewrite list_elem_of_bind. split.
  - intros (ds' & Hin & Hds). apply list_elem_of_fmap in Hin as (s & [= <- <-] & Hs). done.
  - intros [Hds Hs]. exists ds. split; [|done]. by apply list_elem_of_fmap_2 with (f := fun sig => (ds, sig)).
Qed.

Lemma signal_no_slash sig : sig ∈ stream_signals -> has_byte "/"%char sig = false.
Proof. intros Hs. unfold stream_signals in Hs. repeat (apply elem_of_cons in Hs as [->|Hs]; [done|]). by apply elem_of_nil in Hs. Qed.

Lemma stream_key_inj sig1 n1 sig2 n2 :
  sig1 ∈ stream_signals -> sig2 ∈ stream_signals -> sig1 +:+ "/" +:+ n1 = sig2 +:+ "/" +:+ n2 -> sig1 = sig2 ∧ n1 = n2.
Proof.
  intros ?%signal_no_slash ?%signal_no_slash E. by apply (str_app_inj_sep "/"%char sig1 n1 sig2 n2).
Qed.

Lemma stream_keys_NoDup dss : NoDup (ds_Name <$> dss) -> NoDup (pair_key <$> stream_pairs dss).
Proof.
  induction dss as [|ds dss IH]; [constructor|]. intros [Hds Hnd]%NoDup_cons.
  change (stream_pairs (ds :: dss)) with (((fun sig => (ds, sig)) <$> stream_signals) ++ stream_pairs dss).
  rewrite fmap_app. apply NoDup_app. split_and!; [| |by apply IH].
  - rewrite <-list_fmap_compose. apply NoDup_fmap_2_strong.
    + intros s1 s2 H1 H2 E. unfold pair_key in E. cbn in E. by apply stream_key_inj in E as [-> _].
    + by apply (bool_decide_unpack _).
  - intros k (x & -> & Hx)%list_elem_of_fmap (y & E & Hy)%list_elem_of_fmap.
    apply list_elem_of_fmap in Hx as (s1 & -> & Hs1). destruct y as [ds2 s2].
    apply stream_pairs_elem in Hy as [Hds2 Hs2]. unfold pair_key in E. cbn in E.
    apply stream_key_inj in E as [_ E]; [|done..]. apply Hds. rewrite E. by apply list_elem_of_fmap_2.
Qed.

Lemma build_inv dss n p :
  buildDataStreamPipelines dss fwd !! n = Some p ->
  exists ds sig, ds ∈ dss ∧ sig ∈ stream_signals ∧ n = sig +:+ "/" +:+ ds_Name ds
  ∧ p = stream_pipeline sig ds fwd ∧ Exporters p <> [].
Proof.
  rewrite build_fold. intros ([ds sig] & Hx & Hk & <- & <-)%fold_insert_inv.
  apply stream_pairs_elem in Hx as [? ?]. exists ds, sig. split_and!; try done. by apply nonempty_true.
Qed.

Lemma build_at dss ds sig :
  NoDup (ds_Name <$> dss) -> ds ∈ dss -> sig ∈ stream_signals ->
  Exporters (stream_pipeline sig ds fwd) <> [] ->
  buildDataStreamPipelines dss fwd !! (sig +:+ "/" +:+ ds_Name ds) = Some (stream_pipeline sig ds fwd).
Proof.
  intros Hnd Hds Hsig Hne. rewrite build_fold.
  apply (fold_insert_at pair_key pair_pipeline pair_keep (stream_pairs dss) (ds, sig)).
  - by apply stream_keys_NoDup.
  - by apply stream_pairs_elem.
  - by apply nonempty_true.
Qed.

(** A connector is exported to from the pipelines of the streams that its
    destination is in. *)
Lemma stream_exporters_elem sig dests x :
  x ∈ stream_exporters sig dests fwd <->
  exists d l, d ∈ dests ∧ fwd !! DestinationName d = Some l ∧ x ∈ l
  ∧ has_prefix ("forward/" +:+ sig +:+ "/") x = true.
Proof.
  unfold stream_exporters. rewrite list_elem_of_bind. split.
  - intros (d & Hin & Hd). apply list_elem_of_filter in Hin as [Hp Hin]. exists d.
    destruct (fwd !! DestinationName d) as [l|] eqn:E; simpl in Hin; [|by apply elem_of_nil in Hin]. by exists l.
  - intros (d & l & Hd & E & Hx & Hp). exists d. split; [|done]. rewrite E. by apply list_elem_of_filter.
Qed.
End StreamPipelines.

(** ** The streams do not depend on the listing *)

(** Two listings of the destinations, in any order, and any two orders of map
    iteration give the same data streams. *)
Theorem data_streams_canonical `{GoSortLaws} (o1 o2 : GoMapOrder) (dests dests' : list Destination) :
  @GoMapOrderLaws o1 -> @GoMapOrderLaws o2 -> NoDup (dest_Name <$> dests) -> dests ≡ₚ dests' ->
  @calculateDataStreams _ o1 dests = @calculateDataStreams _ o2 dests'.
Proof.
  intros L1 L2 Hnd Hp. assert (Hnd' : NoDup (dest_Name <$> dests')) by (by rewrite <-Hp).
  set (r1 := @calculateDataStreams _ o1 dests). set (r2 := @calculateDataStreams _ o2 dests').
  assert (Hsame : forall ds, ds ∈ r1 <-> ds ∈ r2).
  { assert (Hs : forall s x, in_stream dests s x <-> in_stream dests' s x).
    { intros s x. unfold in_stream. split; intros (d & Hd & Hx); exists d; (split; [|done]); revert Hd; by rewrite Hp. }
    destruct (streams_hold dests Hnd) as [Hin1 N1], (streams_hold dests' Hnd') as [Hin2 N2].
    set (m1 := foldl add_destination ∅ dests) in *. set (m2 := foldl add_destination ∅ dests') in *.
    assert (Hl : forall s l1 l2, m1 !! s = Some l1 -> m2 !! s = Some l2 ->
      SortFunc (compare_on DestinationName string_compare) l1 = SortFunc (compare_on DestinationName string_compare) l2).
    { intros s l1 l2 E1 E2. apply SortFunc_canonical; [apply _| |].
      - intros x y Hx Hy Hxy Hyx. eapply NoDup_key_inj; [by eapply (N1 s)|done|done|]. by apply not_less_key.
      - apply NoDup_Permutation; [eapply NoDup_of_keys; by eapply (N1 s)|eapply NoDup_of_keys; by eapply (N2 s)|].
        intros x. specialize (Hin1 s x). specialize (Hin2 s x). specialize (Hs s x). naive_solver. }
    assert (Hd : forall s, is_Some (m1 !! s) <-> is_Some (m2 !! s)).
    { intros s. split; intros [l E].
      - destruct (N1 s l E) as [_ Hne]. destruct l as [|x l]; [done|].
        destruct (proj1 (Hin2 s x)) as (l' & E' & _); [|by eexists]. apply Hs, Hin1. eexists. split; [done|by left].
      - destruct (N2 s l E) as [_ Hne]. destruct l as [|x l]; [done|].
        destruct (proj1 (Hin1 s x)) as (l' & E' & _); [|by eexists]. apply Hs, Hin2. eexists. split; [done|by left]. }
    intros ds. unfold r1, r2. rewrite !data_stream_elem. fold m1 m2. split; intros (l & E & Ed).
    - destruct (proj1 (Hd _) (ex_intro _ l E)) as [l' E']. exists l'. split; [done|]. rewrite Ed. by eapply Hl.
    - destruct (proj2 (Hd _) (ex_intro _ l E)) as [l' E']. exists l'. split; [done|]. rewrite Ed. symmetry. by eapply Hl. }
  assert (P1 : NoDup (ds_Name <$> r1)) by apply data_stream_names.
  assert (P2 : NoDup (ds_Name <$> r2)) by apply data_stream_names.
  apply (StronglySorted_unique_strong (not_less (compare_on ds_Name string_compare))).
  - intros x y Hx Hy Hxy Hyx. apply Hsame in Hy. eapply (NoDup_key_inj ds_Name r1); [done..|]. by apply not_less_key.
  - apply data_streams_sorted.
  - apply data_streams_sorted.
  - apply NoDup_Permutation; [by eapply NoDup_of_keys|by eapply NoDup_of_keys|done].
Qed.

Lemma data_streams_canonical_witness :
  let d1 := mkDestination "d1" "nop" ∅ [] None (Some (mkSourceSelector [] ["payments"; "default"])) in
  let d2 := mkDestination "d2" "debug" ∅ [] None None in
  @calculateDataStreams _ order_forward [d1; d2] = @calculateDataStreams _ order_backward [d2; d1].
Proof.
  intros d1 d2. apply data_streams_canonical; [apply order_forward_laws|apply order_backward_laws| |constructor].
  by apply (bool_decide_unpack _).
Defined.
