(* ===== verification/GatewayConfig.v ===== *)
(** * The configuration of the gateway (src/common/pipelinegen)

    [CalculateGatewayConfig] (config_builder.go) composes the collector
    configuration of the cluster gateway:

<<
    otlp -> <signal>/in -> odigosrouterconnector/<signal>
         -> <signal>/<data stream> -> forward/<destination pipeline>
         -> <destination pipeline> -> exporter
>>

    with the processors of the custom resources on the root pipelines and,
    where traces are aggregated, a second traces pipeline traces/exporting
    behind forward/traces-post-groupby. *)

From S2P Require Import Prelude.
From S2P Require Import GoStrings.
From S2P Require Import GoSort.
From S2P Require Import K8s.
From S2P Require Import Api.
From S2P Require Import GoLib.
From S2P Require Import CollectorConfig.
From S2P Require Import Destinations.
From S2P Require Import DataStreams.

(** ** Options *)

Record ServiceGraphOptions := mkServiceGraph
  { sg_Disabled : option bool;
    sg_ExtraDimensions : list string;
    sg_VirtualNodePeerAttributes : list string }.
Record SpanSamplingAttributesConfiguration := mkSpanSamplingAttributes
  { ssa_Disabled : option bool;
    ssa_SamplingCategoryDisabled : option bool;
    ssa_TraceDecidingRuleDisabled : option bool;
    ssa_SpanDecisionAttributesDisabled : option bool }.
Record TraceCorrelationsServiceIOConfiguration := mkServiceIO
  { sio_Enabled : option bool;
    sio_InputSpanAttributes : list string;
    sio_OutputSpanAttributes : list string;
    sio_MetricsFlushInterval : string }.
Record InsightsConfiguration := mkInsights { ins_Enabled : option bool }.

Record GatewayConfigOptions := mkGatewayOptions
  { ServiceGraph : ServiceGraphOptions;
    ClusterMetricsEnabled : option bool;
    OdigosNamespace : string;
    OdigosConfigExtensionName : option string;
    TraceAggregationWaitDuration : option string;
    TailSamplingEnabled : option bool;
    SamplingDryRun : bool;
    SamplingSpanAttributes : option SpanSamplingAttributesConfiguration;
    Insights : option InsightsConfiguration;
    InsightsOtlpEndpoint : string;
    TraceCorrelationsServiceIO : option TraceCorrelationsServiceIOConfiguration }.

Definition InsightsPipelineActive (a : option InsightsConfiguration) : bool :=
  match a with Some a => deref_bool (ins_Enabled a) | None => false end.
(** [TraceCorrelationsServiceIOPipelineActive] of a configuration that holds [t]. *)
Definition ServiceIOPipelineActive (t : option TraceCorrelationsServiceIOConfiguration) : bool :=
  match t with Some t => deref_bool (sio_Enabled t) | None => false end.

(** ** Names (consts.go, datastreams.go) *)

Definition OdigosTailSamplingProcessorName : string := "odigostailsampling".
Definition OdigosTraceStateProcessorName : string := "odigostracestate".
Definition GroupByTraceProcessor : string := "groupbytrace".
Definition TracesPostGroupByForwardConnectorName : string := "forward/traces-post-groupby".
Definition TracesExportingPipelineName : string := "traces/exporting".
Definition ServiceGraphConnectorName : string := "servicegraph".
Definition ServiceGraphInsightsExporterName : string := "otlp_grpc/servicegraph-insights".
Definition ServiceIOConnectorName : string := "serviceio".
Definition TraceCorrelationsMetricsPipelineName : string := "metrics/tracecorrelations".
Definition TraceCorrelationsVictoriaMetricsExporterName : string := "otlp_http/odigos-correlations-metrics".

(** [telemetryRootPipelinesBySignal]. *)
Definition GetTelemetryRootPipelineName (signal : string) : string :=
  if decide (signal ∈ [TracesObservabilitySignal; MetricsObservabilitySignal; LogsObservabilitySignal;
                       ProfilesObservabilitySignal])
  then to_lower signal +:+ "/in" else "".
Definition GetSignalsRootPipelineNames : list string :=
  GetTelemetryRootPipelineName <$> [TracesObservabilitySignal; MetricsObservabilitySignal; LogsObservabilitySignal;
                                    ProfilesObservabilitySignal].

(** ** Processors of the traces pipelines *)

Definition traceAggregationNeeded (o : GatewayConfigOptions) : bool :=
  deref_bool (TailSamplingEnabled o) || ServiceIOPipelineActive (TraceCorrelationsServiceIO o)
  || InsightsPipelineActive (Insights o).

Definition with_TracesProcessors (l : list string) (r : CrdProcessorResults) : CrdProcessorResults :=
  mkCrdResults (ProcessorsConfig r) l (TracesProcessorsPostSpanMetrics r) (MetricsProcessors r) (LogsProcessors r)
    (ProfilesProcessors r) (Errs r).

Definition defaultTraceAggregationWaitDuration : string := "30s".

Definition ensureGroupByTraceProcessor (o : GatewayConfigOptions) (s : Config * CrdProcessorResults) :
    Config * CrdProcessorResults :=
  if decide (GroupByTraceProcessor ∈ TracesProcessors s.2) then s
  else
    let waitDuration := match TraceAggregationWaitDuration o with
                        | Some d => if decide (d <> "") then d else defaultTraceAggregationWaitDuration
                        | None => defaultTraceAggregationWaitDuration
                        end in
    (set_processors (insert GroupByTraceProcessor (GMap (gm [("wait_duration", GStr waitDuration)]))) s.1,
     with_TracesProcessors (GroupByTraceProcessor :: TracesProcessors s.2) s.2).

Definition optional_bool (name : string) (b : option bool) : list (string * gval) :=
  match b with Some b => [(name, GBool b)] | None => [] end.

(** The configuration of the processor; [ext] is the extension's name. *)
Definition getTailSamplingProcessors (ext : string) (o : GatewayConfigOptions) : GenericMap :=
  gm ([("odigos_config_extension", GStr ext)]
      ++ (if SamplingDryRun o then [("dry_run", GBool true)] else [])
      ++ match SamplingSpanAttributes o with
         | None => []
         | Some a =>
             [("span_sampling_attributes", GMap (gm
                (optional_bool "disabled" (ssa_Disabled a)
                 ++ optional_bool "sampling_category_disabled" (ssa_SamplingCategoryDisabled a)
                 ++ optional_bool "trace_deciding_rule_disabled" (ssa_TraceDecidingRuleDisabled a)
                 ++ optional_bool "span_decision_attributes_disabled" (ssa_SpanDecisionAttributesDisabled a))))]
         end).

Definition orderExportingPipelineProcessors (ps : list string) : list string :=
  filter (fun p => p ∈ ps) [OdigosTailSamplingProcessorName; GenericBatchProcessorConfigKey]
  ++ filter (fun p => p <> OdigosTailSamplingProcessorName ∧ p <> GenericBatchProcessorConfigKey) ps.

Definition is_exporting_processor (p : string) : bool :=
  bool_decide (p <> GroupByTraceProcessor ∧ p ∈ [OdigosTailSamplingProcessorName; GenericBatchProcessorConfigKey]).

Definition splitTracesProcessorsForPipelines (tracesProcessors tracesPostForwardProcessors : list string) :
    list string * list string :=
  let tracesIn := filter (fun p => is_exporting_processor p = false) tracesProcessors in
  let tracesExporting := filter (fun p => is_exporting_processor p = true) tracesProcessors in
  (tracesIn, orderExportingPipelineProcessors tracesExporting ++ tracesPostForwardProcessors).

(** ** Root pipelines *)

Definition router_config (ext : option string) : GenericMap :=
  match ext with Some ext => gm [("odigos_config_extension", GStr ext)] | None => gm [] end.

Definition set_pipeline (name : string) (p : Pipeline) : Config -> Config := set_pipelines (insert name p).

Definition applyRootPipelineForSignal (signal : string) (ps : list string) (ext : option string) (c : Config) : Config :=
  let connectorName := "odigosrouterconnector/" +:+ to_lower signal in
  set_pipeline (GetTelemetryRootPipelineName signal)
    (mkPipeline ["otlp"] ("resource/odigos-version" :: ps) [connectorName])
    (set_connectors (insert connectorName (GMap (router_config ext))) c).

Definition applySplitTracesRootPipelines (tracesProcessors tracesPostForwardProcessors : list string)
    (ext : option string) (hasTracesDestination : bool) (c : Config) : Config :=
  let '(tracesIn, tracesExporting) := splitTracesProcessorsForPipelines tracesProcessors tracesPostForwardProcessors in
  let root := GetTelemetryRootPipelineName TracesObservabilitySignal in
  if negb hasTracesDestination then
    set_pipeline root (mkPipeline ["otlp"] ("resource/odigos-version" :: tracesIn) []) c
  else
    let forward := TracesPostGroupByForwardConnectorName in
    let router := "odigosrouterconnector/" +:+ to_lower TracesObservabilitySignal in
    let c := set_connectors (insert forward (GMap (gm []))) c in
    let c := set_pipeline root (mkPipeline ["otlp"] ("resource/odigos-version" :: tracesIn) [forward]) c in
    let c := set_connectors (insert router (GMap (router_config ext))) c in
    set_pipeline TracesExportingPipelineName (mkPipeline [forward] tracesExporting [router]) c.

(** The root pipelines of the enabled signals. *)
Definition insertRootPipelinesToConfig (tracesProcessors tracesPostForwardProcessors metricsProcessors logsProcessors
    profilesProcessors : list string) (signals : list string) (hasTracesDestination : bool)
    (o : GatewayConfigOptions) (c : Config) : Config :=
  let ext := OdigosConfigExtensionName o in
  let c := if isTracingEnabled signals then
             if traceAggregationNeeded o
             then applySplitTracesRootPipelines tracesProcessors tracesPostForwardProcessors ext hasTracesDestination c
             else applyRootPipelineForSignal TracesObservabilitySignal
                    (tracesProcessors ++ tracesPostForwardProcessors) ext c
           else c in
  let c := if isMetricsEnabled signals
           then applyRootPipelineForSignal MetricsObservabilitySignal metricsProcessors ext c else c in
  let c := if isLoggingEnabled signals
           then applyRootPipelineForSignal LogsObservabilitySignal logsProcessors ext c else c in
  if isProfilingEnabled signals
  then applyRootPipelineForSignal ProfilesObservabilitySignal profilesProcessors ext c else c.

Definition tracesPipelineForDownstreamConnectors (c : Config) : string :=
  match pipelines c !! TracesExportingPipelineName with
  | Some _ => TracesExportingPipelineName
  | None => GetTelemetryRootPipelineName TracesObservabilitySignal
  end.

(** ** Connectors behind the traces pipelines *)

Definition defaultServiceGraphPeerAttributes : list string :=
  ["peer.service"; "db.name"; "db.system"; "server.address"; "net.peer.name"; "rpc.service"].

(** The scrape configuration is added to a receiver that has the expected
    shape. *)
Definition servicegraphScrape : GenericMap :=
  gm [("job_name", GStr ServiceGraphConnectorName);
      ("scrape_interval", GStr "10s");
      ("static_configs", GMaps [gm [("targets", GStrs ["127.0.0.1:9090"])]]);
      ("metric_relabel_configs", GMaps [gm
         [("source_labels", GStrs ["__name__"]);
          ("regex", GStr "^servicegraph_traces_service_graph_request_total$");
          ("action", GStr "keep")]])].

Definition AddServiceGraphScrapeConfig (c : Config) : error + Config :=
  match receivers c !! "prometheus/self-metrics" with
  | Some (GMap receiver) =>
      match receiver !! "config" with
      | Some (GMap configMap) =>
          match configMap !! "scrape_configs" with
          | Some (GMaps scrapeConfigs) =>
              let configMap := <["scrape_configs" := GMaps (scrapeConfigs ++ [servicegraphScrape])]> configMap in
              let receiver := <["config" := GMap configMap]> receiver in
              inr (set_receivers (insert "prometheus/self-metrics" (GMap receiver)) c)
          | _ => inl (ENew "scrape configs is not a list")
          end
      | _ => inl (ENew "scrape configs is not a list")
      end
  | _ => inl (ENew "receiver config is not a map")
  end.

Definition add_if_missing (x : string) (l : list string) : list string := if decide (x ∈ l) then l else l ++ [x].

(** The exporter to insights, with the processor that its metrics need. *)
Definition pod_name_processor : gval :=
  GMap (gm [("attributes", GMaps [gm [("key", GStr "k8s.pod.name"); ("value", GStr "${POD_NAME}"); ("action", GStr "upsert")]])]).

Definition servicegraph_insights (o : GatewayConfigOptions) (c : Config) : Config :=
  let c := match processors c !! "resource/pod-name" with
           | Some _ => c
           | None => set_processors (insert "resource/pod-name" pod_name_processor) c
           end in
  set_exporters (insert ServiceGraphInsightsExporterName (GMap (gm
    [("endpoint", GStr (InsightsOtlpEndpoint o));
     ("balancer_name", GStr "round_robin");
     ("tls", GMap (gm [("insecure", GBool true)]));
     ("compression", GStr "none");
     ("retry_on_failure", GMap (gm [("enabled", GBool false)]))]))) c.

(** Adds [name] to the exporters of a pipeline, if there is one. *)
Definition export_from (pipelineName name : string) (c : Config) : Config :=
  match pipelines c !! pipelineName with
  | None => c
  | Some p => set_pipeline pipelineName (add_exporter name p) c
  end.

Definition servicegraph_connector (insightsOn : bool) (sg : ServiceGraphOptions) : GenericMap :=
  let dimensions := "service.name" :: sg_ExtraDimensions sg in
  let dimensions := if insightsOn then add_if_missing "k8s.namespace.name" dimensions else dimensions in
  let peers := match sg_VirtualNodePeerAttributes sg with [] => defaultServiceGraphPeerAttributes | l => l end in
  gm [("store", GMap (gm [("ttl", GStr "15s")]));
      ("store_expiration_loop", GStr "5s");
      ("dimensions", GStrs dimensions);
      ("virtual_node_peer_attributes", GStrs peers)].

Definition insertServiceGraphPipeline (o : GatewayConfigOptions) (c : Config) : Config :=
  let insightsOn := InsightsPipelineActive (Insights o) && bool_decide (InsightsOtlpEndpoint o <> "") in
  let c := set_exporters (insert "prometheus/servicegraph" (GMap (gm
             [("endpoint", GStr "localhost:9090"); ("namespace", GStr "servicegraph")]))) c in
  match AddServiceGraphScrapeConfig c with
  | inl _ => c
  | inr c =>
      let c := set_connectors (insert ServiceGraphConnectorName
                 (GMap (servicegraph_connector insightsOn (ServiceGraph o)))) c in
      let c := if insightsOn then servicegraph_insights o c else c in
      let c := set_pipeline "metrics/servicegraph"
                 (mkPipeline [ServiceGraphConnectorName]
                    (if insightsOn then ["resource/pod-name"] else [])
                    ("prometheus/servicegraph" :: (if insightsOn then [ServiceGraphInsightsExporterName] else []))) c in
      export_from (tracesPipelineForDownstreamConnectors c) ServiceGraphConnectorName c
  end.

Definition traceCorrelationsVictoriaMetricsExporter (odigosNamespace : string) : GenericMap :=
  gm [("endpoint", GStr ("http://odigos-correlations-metrics." +:+ odigosNamespace +:+ ":8428/opentelemetry"));
      ("retry_on_failure", GMap (gm [("enabled", GBool false)]));
      ("tls", GMap (gm [("insecure", GBool true)]))].

Definition serviceio_connector (cfg : TraceCorrelationsServiceIOConfiguration) (ext : option string) : GenericMap :=
  gm ((if nonempty (sio_InputSpanAttributes cfg)
       then [("input_span_attributes", GStrs (sio_InputSpanAttributes cfg))] else [])
      ++ (if nonempty (sio_OutputSpanAttributes cfg)
          then [("output_span_attributes", GStrs (sio_OutputSpanAttributes cfg))] else [])
      ++ (if decide (sio_MetricsFlushInterval cfg <> "")
          then [("metrics_flush_interval", GStr (sio_MetricsFlushInterval cfg))] else [])
      ++ match ext with Some ext => [("odigos_config_extension", GStr ext)] | None => [] end).

Definition insertTraceCorrelationsServiceIOPipeline (o : GatewayConfigOptions) (c : Config) : Config :=
  match TraceCorrelationsServiceIO o with
  | Some cfg =>
      if negb (ServiceIOPipelineActive (Some cfg)) then c
      else
        let c := set_connectors (insert ServiceIOConnectorName
                   (GMap (serviceio_connector cfg (OdigosConfigExtensionName o)))) c in
        let exporterName := TraceCorrelationsVictoriaMetricsExporterName in
        let c := set_exporters (insert exporterName
                   (GMap (traceCorrelationsVictoriaMetricsExporter (OdigosNamespace o)))) c in
        let c := set_pipeline TraceCorrelationsMetricsPipelineName
                   (mkPipeline [ServiceIOConnectorName] [] [exporterName]) c in
        let root := GetTelemetryRootPipelineName TracesObservabilitySignal in
        match pipelines c !! root with
        | None => c
        | Some p =>
            set_pipeline root (mkPipeline (Receivers p) (Processors p)
                                 (add_if_missing ServiceIOConnectorName (Exporters p))) c
        end
  | None => c
  end.

Definition insertClusterMetricsResources (odigosNs : string) (c : Config) : Config :=
  let c := set_extensions (insert "k8s_leader_elector" (GMap (gm
             [("lease_name", GStr "odigos-gateway-leader"); ("lease_namespace", GStr odigosNs)]))) c in
  let c := set_service_extensions (fun l => l ++ ["k8s_leader_elector"]) c in
  let c := set_receivers (insert "k8s_cluster" (GMap (gm [("k8s_leader_elector", GStr "k8s_leader_elector")]))) c in
  let root := GetTelemetryRootPipelineName MetricsObservabilitySignal in
  match pipelines c !! root with
  | None => c
  | Some p => set_pipeline root (add_receiver "k8s_cluster" p) c
  end.

(** ** The whole configuration *)

Definition GetBasicConfig : Config :=
  mkConfig
    (gm [("otlp", GMap (gm [("protocols", GMap (gm
       [("grpc", GMap (gm
           [("max_recv_msg_size_mib", GInt 128);
            ("endpoint", GStr "0.0.0.0:4317");
            ("keepalive", GMap (gm [("server_parameters", GMap (gm
               [("max_connection_age", GStr "15s"); ("max_connection_age_grace", GStr "2s")]))]))]));
        ("http", GMap (gm [("endpoint", GStr "0.0.0.0:4318")]))]))]))])
    ∅
    (gm [("resource/odigos-version", GMap (gm [("attributes", GMaps [gm
            [("key", GStr "odigos.version"); ("value", GStr "${ODIGOS_VERSION}"); ("action", GStr "upsert")]])]));
         (GenericBatchProcessorConfigKey, GMap (gm []))])
    (gm [("health_check", GMap (gm [("endpoint", GStr "0.0.0.0:13133")]));
         ("pprof", GMap (gm [("endpoint", GStr "0.0.0.0:1777")]))])
    ∅ ["health_check"; "pprof"] ∅ zero_telemetry.

Record ResourceStatuses := mkStatuses
  { DestinationStatus : gmap string (option error); ProcessorStatus : gmap string error }.

(** The signals that some destination pipeline carries. *)
Record EnabledBy := mkEnabled { by_traces : bool; by_metrics : bool; by_logs : bool; by_profiles : bool }.

(** The state of the loop over the destinations. *)
Record DestLoop := mkDestLoop
  { dl_config : Config;
    dl_status : gmap string (option error);
    dl_unified : list string;
    dl_forward : gmap string (list string);
    dl_enabled : EnabledBy }.

Definition enable (e : EnabledBy) (pipelineName : string) : EnabledBy :=
  if has_prefix "traces/" pipelineName then mkEnabled true (by_metrics e) (by_logs e) (by_profiles e)
  else if has_prefix "metrics/" pipelineName then mkEnabled (by_traces e) true (by_logs e) (by_profiles e)
  else if has_prefix "logs/" pipelineName then mkEnabled (by_traces e) (by_metrics e) true (by_profiles e)
  else if has_prefix "profiles/" pipelineName then mkEnabled (by_traces e) (by_metrics e) (by_logs e) true
  else e.

(** One pipeline of a destination: its forward connector and its batch
    processor. *)
Definition forward_pipeline (pipelineName : string) (p : Pipeline) : Pipeline :=
  let p := add_receiver ("forward/" +:+ pipelineName) p in
  if negb (has_prefix "profiles/" pipelineName) then add_processor GenericBatchProcessorConfigKey p else p.

Definition connect_pipeline (destID : string) (s : DestLoop) (pipelineName : string) : DestLoop :=
  let connectorName := "forward/" +:+ pipelineName in
  let c := set_connectors (insert connectorName (GMap (gm []))) (dl_config s) in
  mkDestLoop (set_pipeline pipelineName (forward_pipeline pipelineName (get_pipeline pipelineName c)) c)
    (dl_status s) (dl_unified s)
    (<[destID := default [] (dl_forward s !! destID) ++ [connectorName]]> (dl_forward s))
    (enable (dl_enabled s) pipelineName).

Definition with_status (destID : string) (st : option error) (c : Config) (s : DestLoop) : DestLoop :=
  mkDestLoop c (<[destID := st]> (dl_status s)) (dl_unified s) (dl_forward s) (dl_enabled s).

Definition add_dest (configers : gmap string Configer) (s : DestLoop) (dest : ExporterConfigurer) : DestLoop :=
  match configers !! GetType dest with
  | None => with_status (GetID dest) (Some (ENew ("no configer for " +:+ GetType dest))) (dl_config s) s
  | Some configer =>
      match ModifyConfig configer dest (dl_config s) with
      | (inl err, c) => with_status (GetID dest) (Some err) c s
      | (inr names, c) =>
          let s := mkDestLoop c (dl_status s) (dl_unified s ++ names) (dl_forward s) (dl_enabled s) in
          let s := foldl (connect_pipeline (GetID dest)) s names in
          with_status (GetID dest) None (dl_config s) s
      end
  end.

Definition start_loop (c : Config) : DestLoop := mkDestLoop c ∅ [] ∅ (mkEnabled false false false false).

(** The processors of the custom resources, in the configuration and in the
    order of the traces pipeline. *)
Definition prepare_processors (o : GatewayConfigOptions) (r : CrdProcessorResults) (c : Config) :
    Config * CrdProcessorResults :=
  let c := set_processors (union (ProcessorsConfig r)) c in
  let s := if traceAggregationNeeded o then ensureGroupByTraceProcessor o (c, r) else (c, r) in
  match TailSamplingEnabled o, OdigosConfigExtensionName o with
  | Some true, Some ext =>
      (set_processors (insert OdigosTailSamplingProcessorName (GMap (getTailSamplingProcessors ext o))) s.1,
       with_TracesProcessors (OdigosTailSamplingProcessorName :: TracesProcessors s.2) s.2)
  | _, _ => s
  end.

Definition enabled_signals (tracesEnabled : bool) (e : EnabledBy) : list string :=
  (if tracesEnabled then [TracesObservabilitySignal] else [])
  ++ (if by_metrics e then [MetricsObservabilitySignal] else [])
  ++ (if by_logs e then [LogsObservabilitySignal] else [])
  ++ (if by_profiles e then [ProfilesObservabilitySignal] else []).

(** The connectors and receivers that the options ask for. *)
Definition insert_optional (tracesEnabled metricsEnabled : bool) (o : GatewayConfigOptions) (c : Config) : Config :=
  let c := if tracesEnabled && negb (deref_bool (sg_Disabled (ServiceGraph o)))
           then insertServiceGraphPipeline o c else c in
  let c := if tracesEnabled then insertTraceCorrelationsServiceIOPipeline o c else c in
  let c := if metricsEnabled && deref_bool (ClusterMetricsEnabled o)
           then insertClusterMetricsResources (OdigosNamespace o) c else c in
  match OdigosConfigExtensionName o with
  | None => c
  | Some ext => set_extensions (insert ext (GMap (gm []))) (set_service_extensions (fun l => l ++ [ext]) c)
  end.

Section Gateway.
Context `{GoLibrary}.

(** The routes: data streams, then root pipelines. *)
Definition insert_routes (dataStreamsDetails : list DataStream) (o : GatewayConfigOptions)
    (r : CrdProcessorResults) (s : DestLoop) : Config :=
  let hasTracesDestination := by_traces (dl_enabled s) in
  let tracesEnabled := hasTracesDestination || InsightsPipelineActive (Insights o) in
  let c := if tracesEnabled
           then set_processors (insert OdigosTraceStateProcessorName (GMap (gm []))) (dl_config s)
           else dl_config s in
  let c := set_pipelines (union (buildDataStreamPipelines dataStreamsDetails (dl_forward s))) c in
  let postForward := TracesProcessorsPostSpanMetrics r
                     ++ (if tracesEnabled then [OdigosTraceStateProcessorName] else []) in
  insertRootPipelinesToConfig (TracesProcessors r) postForward (MetricsProcessors r) (LogsProcessors r)
    (ProfilesProcessors r) (enabled_signals tracesEnabled (dl_enabled s)) hasTracesDestination o c.

Definition SelfTelemetry : Type := Config -> list string -> list string -> option error * Config.

(** The configuration with the enabled signals, or an error; and the
    statuses, which are nil when the configurers cannot be loaded. *)
Definition CalculateGatewayConfig (availableConfigers : list Configer) (dests : list ExporterConfigurer)
    (ps : list ProcessorConfigurer) (applySelfTelemetry : option SelfTelemetry)
    (dataStreamsDetails : list DataStream) (o : GatewayConfigOptions) :
    (error + Config * list string) * option ResourceStatuses :=
  match LoadConfigers availableConfigers with
  | inl err => (inl err, None)
  | inr configers =>
      match receivers GetBasicConfig !! "otlp" with
      | None => (inl (ENew "missing required receiver 'otlp' on config"), Some (mkStatuses ∅ ∅))
      | Some _ =>
      let crd := CrdProcessorToConfig ps in
      let '(c, r) := prepare_processors o crd GetBasicConfig in
      let s := foldl (add_dest configers) (start_loop c) dests in
      let status := Some (mkStatuses (dl_status s) (Errs crd)) in
      let tracesEnabled := by_traces (dl_enabled s) || InsightsPipelineActive (Insights o) in
      let c := insert_routes dataStreamsDetails o r s in
      let '(err, c) := match applySelfTelemetry with
                       | Some apply => apply c (dl_unified s) GetSignalsRootPipelineNames
                       | None => (None, c)
                       end in
      match err with
      | Some err => (inl err, status)
      | None =>
          let c := insert_optional tracesEnabled (by_metrics (dl_enabled s)) o c in
          (inr (c, enabled_signals tracesEnabled (dl_enabled s)), status)
      end
      end
  end.
End Gateway.

(** [GetGatewayConfig]: the configuration as text; [marshal] is
    [yaml.Marshal]. *)
Definition GetGatewayConfig `{GoLibrary} `{GoSort} (marshal : Config -> error + string)
    (availableConfigers : list Configer) (dests : list ExporterConfigurer) (ps : list ProcessorConfigurer)
    (applySelfTelemetry : option SelfTelemetry) (dataStreamsDetails : list DataStream) (o : GatewayConfigOptions) :
    (error + string * list string) * option ResourceStatuses :=
  let '(r, status) := CalculateGatewayConfig availableConfigers dests ps applySelfTelemetry dataStreamsDetails o in
  match r with
  | inl err => (inl err, status)
  | inr (cfg, signals) =>
      match marshal (set_service_extensions (SortFunc string_compare) cfg) with
      | inl err => (inl err, status)
      | inr data => (inr (data, signals), status)
      end
  end.
