(* ===== verification/GatewayTelemetry.v ===== *)
(** * The gateway's own telemetry and its options (src/autoscaler/controllers)

    What the autoscaler adds to the configuration of GatewayConfig: the
    pipelines that carry the gateway's own metrics, profiles and insights
    (clustercollector/configmap.go, obimetrics.go, ownmetrics.go,
    profiling_pipeline.go, insights_exporter.go, enterpriseauth.go), the
    selection of destinations and processors (sync.go, common/processors.go,
    common/profiling_otlp.go) and the options that it derives from the
    collectors group.  The API calls of [syncConfigMap] are not modelled: its
    inputs are arguments, its result is the data of the config map. *)

From stdpp Require Import pretty.
From S2P Require Import Prelude.
From S2P Require Import GoStrings.
From S2P Require Import GoSort.
From S2P Require Import K8s.
From S2P Require Import Api.
From S2P Require Import GoLib.
From S2P Require Import CollectorConfig.
From S2P Require Import Destinations.
From S2P Require Import DataStreams.
From S2P Require Import GatewayConfig.

(** ** OBI metrics (obimetrics.go) *)

Definition obiMetricsRenameProcessorName : string := "transform/odigos-obi-metrics-rename".
Definition obiMetricsRenameProcessorConfig : GenericMap :=
  gm [("error_mode", GStr "ignore");
      ("metric_statements", GMaps [gm
         [("context", GStr "metric");
          ("statements", GStrs [quoted "replace_pattern(name, `^obi`, `odigos`) where IsMatch(name, `^obi[._]`)"])]])].

(** The processor goes right behind the one that stamps the version. *)
Definition insert_rename (ps : list string) : list string :=
  match ps with
  | p :: rest => if decide (p = "resource/odigos-version") then p :: obiMetricsRenameProcessorName :: rest
                 else obiMetricsRenameProcessorName :: ps
  | [] => [obiMetricsRenameProcessorName]
  end.

Definition addObiMetricsRenamePipeline (c : Config) : Config :=
  let root := GetTelemetryRootPipelineName MetricsObservabilitySignal in
  match pipelines c !! root with
  | None => c
  | Some p =>
      set_pipeline root (mkPipeline (Receivers p) (insert_rename (Processors p)) (Exporters p))
        (set_processors (insert obiMetricsRenameProcessorName (GMap obiMetricsRenameProcessorConfig)) c)
  end.

(** ** Self telemetry (configmap.go) *)

Definition self_metrics_receiver (ownTelemetryPort : Z) : GenericMap :=
  gm [("config", GMap (gm [("scrape_configs", GMaps [gm
        [("job_name", GStr "otelcol");
         ("scrape_interval", GStr "10s");
         ("enable_compression", GBool false);
         ("static_configs", GMaps [gm [("targets", GStrs ["127.0.0.1:" +:+ pretty ownTelemetryPort])]]);
         ("metric_relabel_configs", GMaps [gm
            [("source_labels", GStrs ["__name__"]);
             ("regex", GStr "(.*odigos.*|^otelcol_exporter_sent.*)");
             ("action", GStr "keep")]])]])]))].

Definition upsert_attribute (key value : string) : gval :=
  GMap (gm [("attributes", GMaps [gm [("key", GStr key); ("value", GStr value); ("action", GStr "upsert")]])]).

Definition own_telemetry (ownTelemetryPort : Z) : Telemetry :=
  mkTelemetry "detailed"
    [gm [("pull", GMap (gm [("exporter", GMap (gm [("prometheus", GMap (gm
           [("host", GStr "0.0.0.0");
            ("port", GInt ownTelemetryPort);
            ("without_units", GBool false);
            ("without_type_suffix", GBool false)]))]))]))]]
    "" (Some [mkResourceAttribute "k8s.pod.name" "${POD_NAME}"]).

Definition isOdigosTrafficMetricsProcessorRelevant (name : string) (destinationPipelines : list string) : bool :=
  if decide (name = "metrics/otelcol") then false else bool_decide (name ∈ destinationPipelines).

(** The traffic metrics are measured at the end of every destination pipeline. *)
Definition add_traffic_metrics (destinationPipelineNames : list string) (c : Config) : Config :=
  set_pipelines (map_imap (fun name p =>
    Some (if isOdigosTrafficMetricsProcessorRelevant name destinationPipelineNames
          then add_processor "odigostrafficmetrics" p else p))) c.

Definition addSelfTelemetryPipeline (odigosNs : string) (ownTelemetryPort : Z)
    (destinationPipelineNames : list string) (c : Config) : Config :=
  let c := set_receivers (insert "prometheus/self-metrics" (GMap (self_metrics_receiver ownTelemetryPort))) c in
  let c := set_processors (fun m =>
             <["odigostrafficmetrics" := GUnit]>
             (<["resource/odigos-collector-role" := upsert_attribute "odigos.collector.role" "CLUSTER_GATEWAY"]>
             (<["resource/pod-name" := upsert_attribute "k8s.pod.name" "${POD_NAME}"]> m))) c in
  let c := set_exporters (insert "otlp_grpc/odigos-own-telemetry-ui" (GMap (gm
             [("endpoint", GStr ("ui." +:+ odigosNs +:+ ":4317"));
              ("compression", GStr "none");
              ("tls", GMap (gm [("insecure", GBool true)]));
              ("retry_on_failure", GMap (gm [("enabled", GBool false)]))]))) c in
  let c := set_pipeline "metrics/otelcol"
             (mkPipeline ["prometheus/self-metrics"] ["resource/pod-name"; "resource/odigos-collector-role"]
                ["otlp_grpc/odigos-own-telemetry-ui"]) c in
  let c := set_telemetry (fun _ => own_telemetry ownTelemetryPort) c in
  add_traffic_metrics destinationPipelineNames c.

(** ** Profiles (profiling_pipeline.go, profiling_otlp.go) *)

Record RetryOnFailure := mkRetry
  { rf_Enabled : option bool; rf_InitialInterval : string; rf_MaxInterval : string; rf_MaxElapsedTime : string }.
Record OtlpExporterConfiguration := mkOtlpExporter
  { oe_EnableDataCompression : option bool; oe_Timeout : string; oe_RetryOnFailure : option RetryOnFailure }.
Record ProfilingConfiguration := mkProfiling
  { prof_Enabled : option bool; prof_Exporter : option OtlpExporterConfiguration }.

Definition ProfilingPipelineActive (p : option ProfilingConfiguration) : bool :=
  match p with Some p => deref_bool (prof_Enabled p) | None => false end.

Definition unless_empty (name value : string) : list (string * gval) :=
  if decide (value <> "") then [(name, GStr value)] else [].

Definition retry_config (r : RetryOnFailure) : GenericMap :=
  gm ([("enabled", GBool (default true (rf_Enabled r)))]
      ++ unless_empty "initial_interval" (rf_InitialInterval r)
      ++ unless_empty "max_interval" (rf_MaxInterval r)
      ++ unless_empty "max_elapsed_time" (rf_MaxElapsedTime r)).

Definition MergeProfilingOtlpExporter (base : GenericMap) (otlp : option OtlpExporterConfiguration) : GenericMap :=
  match otlp with
  | None => base
  | Some otlp =>
      let out := gm (unless_empty "timeout" (oe_Timeout otlp)) ∪ base in
      match oe_RetryOnFailure otlp with
      | None => out
      | Some r => <["retry_on_failure" := GMap (retry_config r)]> out
      end
  end.

Definition UiOtlpGrpcEndpoint (namespace : string) : string := "ui." +:+ namespace +:+ ":4317".
Definition ProfilingGatewayToUIExporter : string := "otlp_grpc/profiles-to-ui".

Definition addProfilingGatewayPipeline (odigosNs : string) (profiling : option ProfilingConfiguration) (c : Config) :
    Config :=
  match profiling with
  | Some p =>
      if negb (ProfilingPipelineActive (Some p)) then c
      else
        let exp := MergeProfilingOtlpExporter (gm
                     [("endpoint", GStr (UiOtlpGrpcEndpoint odigosNs));
                      ("tls", GMap (gm [("insecure", GBool true)]));
                      ("compression", GStr "none")]) (prof_Exporter p) in
        set_pipeline "profiles" (mkPipeline ["otlp"] [] [ProfilingGatewayToUIExporter])
          (set_exporters (insert ProfilingGatewayToUIExporter (GMap exp)) c)
  | None => c
  end.

(** ** Enterprise (enterpriseauth.go, tiers.go) *)

Definition CommunityOdigosTier : string := "community".
Definition IsEnterprise (tier : string) : bool := bool_decide (tier <> CommunityOdigosTier).

Definition odigosEnterpriseAuthExtensionName : string := "odigos_enterprise_auth".
Definition addEnterpriseAuthExtension (c : Config) : Config :=
  set_service_extensions (add_if_missing odigosEnterpriseAuthExtensionName)
    (set_extensions (insert odigosEnterpriseAuthExtensionName (GMap (gm []))) c).

(** ** Insights (insights_exporter.go) *)

Definition InsightsGatewayExporter : string := "otlp_grpc/insights".
Definition InsightsOtlpGrpcDNSEndpoint (namespace : string) : string :=
  "dns:///odigos-insights-headless." +:+ namespace +:+ ":4317".

Definition effectiveInsightsConfig (insights : option InsightsConfiguration) (tier : string) :
    option InsightsConfiguration :=
  if negb (IsEnterprise tier) then None else insights.

Definition addInsightsGatewayExporter (odigosNs : string) (insights : option InsightsConfiguration) (c : Config) :
    Config :=
  if negb (InsightsPipelineActive insights) then c
  else
    let root := GetTelemetryRootPipelineName TracesObservabilitySignal in
    match pipelines c !! root with
    | None => c
    | Some p =>
        let c := set_exporters (insert InsightsGatewayExporter (GMap (gm
                   [("endpoint", GStr (InsightsOtlpGrpcDNSEndpoint odigosNs));
                    ("balancer_name", GStr "round_robin");
                    ("tls", GMap (gm [("insecure", GBool true)]));
                    ("compression", GStr "none");
                    ("retry_on_failure", GMap (gm [("enabled", GBool false)]))]))) c in
        set_pipeline root (add_exporter InsightsGatewayExporter p) c
    end.

(** ** Own metrics (ownmetrics.go) *)

Record OdigosOwnMetricsSettings := mkOwnMetrics
  { om_SendToMetricsDestinations : bool; om_SendToOdigosMetricsStore : bool; om_Interval : string }.

Definition odigosOwnTelemetryOtlpReceiverName : string := "otlp/odigos-own-metrics-in".
Definition gatewayPrometheusReceiverName : string := "prometheus/gateway-own-metrics".
Definition ownMetricsStorePipelineName : string := "metrics/own-metrics".
Definition odigosVictoriametricsExporterName : string := "otlp_http/odigos-victoriametrics".

Definition receiversConfigForOwnMetricsPrometheus : GenericMap :=
  gm [("protocols", GMap (gm [("http", GMap (gm [("endpoint", GStr "0.0.0.0:44318")]))]))].
Definition gatewayPrometheusReceiverConfig (ownTelemetryPort : Z) (interval : string) : GenericMap :=
  gm [("config", GMap (gm [("scrape_configs", GMaps [gm
        [("job_name", GStr "otelcol-gateway");
         ("scrape_interval", GStr (if decide (interval = "") then "10s" else interval));
         ("static_configs", GMaps [gm [("targets", GStrs ["127.0.0.1:" +:+ pretty ownTelemetryPort])]])]])]))].
Definition victoriaMetricsExporter (odigosNamespace : string) : GenericMap :=
  gm [("endpoint", GStr ("http://odigos-victoriametrics." +:+ odigosNamespace +:+ ":8428/opentelemetry"));
      ("retry_on_failure", GMap (gm [("enabled", GBool false)]));
      ("tls", GMap (gm [("insecure", GBool true)]))].

Definition addOwnMetricsPipeline (own : OdigosOwnMetricsSettings) (odigosNs : string) (ownTelemetryPort : Z)
    (destinationPipelineNames : list string) (c : Config) : Config :=
  let store := om_SendToOdigosMetricsStore own in
  let c := if store then
             set_receivers (insert gatewayPrometheusReceiverName
                 (GMap (gatewayPrometheusReceiverConfig ownTelemetryPort (om_Interval own))))
               (set_exporters (insert odigosVictoriametricsExporterName (GMap (victoriaMetricsExporter odigosNs))) c)
           else c in
  let rs := odigosOwnTelemetryOtlpReceiverName :: (if store then [gatewayPrometheusReceiverName] else []) in
  let es := (if store then [odigosVictoriametricsExporterName] else [])
            ++ (if om_SendToMetricsDestinations own then
                  filter (fun name => has_prefix "metrics/" name = true) destinationPipelineNames
                    ≫= fun name => Exporters (get_pipeline name c)
                else []) in
  match es with
  | [] => c
  | _ =>
      set_pipeline ownMetricsStorePipelineName (mkPipeline rs [] es)
        (set_receivers (insert odigosOwnTelemetryOtlpReceiverName (GMap receiversConfigForOwnMetricsPrometheus)) c)
  end.

(** ** What the gateway is configured from (configmap.go, sync.go) *)

Record TailSamplingConfiguration := mkTailSampling
  { ts_Disabled : option bool; ts_TraceAggregationWaitDuration : option string }.

(** The fields of the cluster collectors group's spec that the configuration
    depends on; [gg_TraceCorrelations] is [TraceCorrelations], its [ServiceIO],
    and [gg_OwnMetrics] is [Metrics.OdigosOwnMetrics]. *)
Record GatewayGroup := mkGatewayGroup
  { gg_CollectorOwnMetricsPort : Z;
    gg_ServiceGraph : ServiceGraphOptions;
    gg_ClusterMetricsEnabled : option bool;
    gg_SpanSamplingAttributes : option SpanSamplingAttributesConfiguration;
    gg_TraceCorrelations : option (option TraceCorrelationsServiceIOConfiguration);
    gg_TailSampling : option TailSamplingConfiguration;
    gg_SamplingDryRun : option bool;
    gg_OwnMetrics : option OdigosOwnMetricsSettings }.

Record ComponentLogLevels := mkLogLevels { cl_Default : string; cl_Collector : string }.
(** [Resolve("collector")]. *)
Definition Resolve_collector (c : ComponentLogLevels) : string :=
  if decide (cl_Collector c <> "") then cl_Collector c
  else if decide (cl_Default c <> "") then cl_Default c else "info".

(** The fields of the effective configuration that are read, if it can be. *)
Record GatewayEffective := mkGatewayEffective
  { ge_Profiling : option ProfilingConfiguration;
    ge_Insights : option InsightsConfiguration;
    ge_ComponentLogLevels : option ComponentLogLevels }.

Definition profiling_of (conf : option GatewayEffective) : option ProfilingConfiguration := conf ≫= ge_Profiling.
Definition insights_of (conf : option GatewayEffective) (tier : string) : option InsightsConfiguration :=
  match conf with Some e => effectiveInsightsConfig (ge_Insights e) tier | None => None end.
Definition log_level_of (conf : option GatewayEffective) : string :=
  match conf ≫= ge_ComponentLogLevels with Some l => Resolve_collector l | None => "info" end.

Definition OdigosConfigK8sExtensionType : string := "odigos_config_k8s".

Definition tail_sampling_enabled (gateway : GatewayGroup) : bool :=
  match gg_TailSampling gateway with
  | Some ts => match ts_Disabled ts with Some disabled => negb disabled | None => false end
  | None => false
  end.

Definition wait_duration (gateway : GatewayGroup) : string :=
  match gg_TailSampling gateway ≫= ts_TraceAggregationWaitDuration with
  | Some d => if decide (d <> "") then d else "30s"
  | None => "30s"
  end.

Definition gateway_options (odigosNs : string) (gateway : GatewayGroup) (insightsCfg : option InsightsConfiguration) :
    GatewayConfigOptions :=
  let tailSamplingEnabled := tail_sampling_enabled gateway in
  let traceCorrelationsEnabled := bool_decide (is_Some (gg_TraceCorrelations gateway)) in
  let active := InsightsPipelineActive insightsCfg in
  {| ServiceGraph := gg_ServiceGraph gateway;
     ClusterMetricsEnabled := gg_ClusterMetricsEnabled gateway;
     OdigosNamespace := odigosNs;
     OdigosConfigExtensionName := Some OdigosConfigK8sExtensionType;
     TraceAggregationWaitDuration :=
       if tailSamplingEnabled || traceCorrelationsEnabled then Some (wait_duration gateway)
       else if active then Some "30s" else None;
     TailSamplingEnabled := Some tailSamplingEnabled;
     SamplingDryRun := tailSamplingEnabled && deref_bool (gg_SamplingDryRun gateway);
     SamplingSpanAttributes := gg_SpanSamplingAttributes gateway;
     Insights := insightsCfg;
     InsightsOtlpEndpoint := if active then InsightsOtlpGrpcDNSEndpoint odigosNs else "";
     TraceCorrelationsServiceIO := default None (gg_TraceCorrelations gateway) |}.

(** The function that [syncConfigMap] passes as [applySelfTelemetry]. *)
Definition self_telemetry (odigosNs tier : string) (gateway : GatewayGroup) (conf : option GatewayEffective) :
    SelfTelemetry := fun c destinationPipelineNames signalsRootPipelines =>
  let c := addObiMetricsRenamePipeline c in
  let c := addSelfTelemetryPipeline odigosNs (gg_CollectorOwnMetricsPort gateway) destinationPipelineNames c in
  let c := if IsEnterprise tier
           then addEnterpriseAuthExtension (addProfilingGatewayPipeline odigosNs (profiling_of conf) c) else c in
  let c := addInsightsGatewayExporter odigosNs (insights_of conf tier) c in
  let c := set_telemetry (fun t => mkTelemetry (metrics_Level t) (metrics_Readers t) (log_level_of conf)
                                     (tel_Resource t)) c in
  let c := match gg_OwnMetrics gateway with
           | Some own =>
               if om_SendToMetricsDestinations own || om_SendToOdigosMetricsStore own
               then addOwnMetricsPipeline own odigosNs (gg_CollectorOwnMetricsPort gateway) destinationPipelineNames c
               else c
           | None => c
           end in
  (None, c).

(** ** Destinations and processors *)

Record Processor := mkProcessor
  { pr_Name : string;
    pr_Type : string;
    pr_Disabled : bool;
    pr_Signals : list string;
    pr_CollectorRoles : list string;
    pr_OrderHint : Z;
    pr_GetConfig : error + option GenericMap (** what [GetConfig] returns *) }.

Definition to_processor (p : Processor) : ProcessorConfigurer :=
  mkProcessorConfigurer (pr_Type p) (pr_Name p) (pr_GetConfig p) (pr_Signals p) (pr_OrderHint p).

(** Once for each role that matches. *)
Definition role_matches (role : string) (p : Processor) : list Processor :=
  if pr_Disabled p then [] else (fun _ => p) <$> filter (fun r => r = role) (pr_CollectorRoles p).

Definition order_hint_compare : comparer Processor :=
  compare_lex (fun a b => (pr_OrderHint a - pr_OrderHint b)%Z) (compare_on pr_Name string_compare).

Definition FilterAndSortProcessorsByOrderHint `{GoSort} (ps : list Processor) (collectorRole : string) : list Processor :=
  SortFunc order_hint_compare (ps ≫= role_matches collectorRole).

Definition CollectorsGroupRoleClusterGateway : string := "CLUSTER_GATEWAY".
Definition CollectorsGroupRoleNodeCollector : string := "NODE_COLLECTOR".

Definition GetGenericBatchProcessor : Processor :=
  mkProcessor "generic-batch-processor" "batch" false
    [TracesObservabilitySignal; MetricsObservabilitySignal; LogsObservabilitySignal]
    [CollectorsGroupRoleClusterGateway; CollectorsGroupRoleNodeCollector] 0 (inr (Some ∅)).

(** The destinations that are not disabled, by name. *)
Definition enabled_destinations `{GoSort} (dests : list Destination) : list Destination :=
  SortFunc (compare_on dest_Name string_compare) (filter (fun d => deref_bool (dest_Disabled d) = false) dests).

(** The processors of the gateway; [ps] are those of the cluster,
    [configExtProcessors] those of the actions. *)
Definition gateway_processors `{GoSort} (ps configExtProcessors : list Processor) : list Processor :=
  FilterAndSortProcessorsByOrderHint (ps ++ [GetGenericBatchProcessor] ++ configExtProcessors)
    CollectorsGroupRoleClusterGateway.

(** The configuration that a reconciliation writes. *)
Definition gateway_config `{GoLibrary} `{GoSort} `{GoMapOrder} (availableConfigers : list Configer)
    (odigosNs tier : string) (gateway : GatewayGroup) (conf : option GatewayEffective)
    (dests : list Destination) (ps configExtProcessors : list Processor) :
    (error + Config * list string) * option ResourceStatuses :=
  let enabledDests := enabled_destinations dests in
  CalculateGatewayConfig availableConfigers (to_exporter <$> enabledDests)
    (to_processor <$> gateway_processors ps configExtProcessors)
    (Some (self_telemetry odigosNs tier gateway conf)) (calculateDataStreams enabledDests)
    (gateway_options odigosNs gateway (insights_of conf tier)).
