(* ===== verification/GatewayValid.v ===== *)
(** * The gateway's configuration is one that the collector accepts

    [collector_accepts] is what the OpenTelemetry collector checks before it
    starts: every component of a pipeline is defined, no processor runs twice
    in a pipeline, and every connector is exported to and received from by
    pipelines of signals that it connects, without a cycle.  The theorems of
    GatewayProperties show that [gateway_config] builds such configurations;
    this file has the predicate and the links between pipelines. *)

From Stdlib Require Import Ascii.
From S2P Require Import Prelude.
From S2P Require Import GoStrings.
From S2P Require Import GoSort.
From S2P Require Import K8s.
From S2P Require Import Api.
From S2P Require Import GoLib.
From S2P Require Import CollectorConfig.
From S2P Require Import Destinations.
From S2P Require Import DataStreams.
From S2P Require Import GatewayConfig.
From S2P Require Import GatewayTelemetry.

(** ** What the collector accepts *)

(** The signal of a pipeline: the type part of its name. *)
Definition signal_of (name : string) : string :=
  match split2 "/"%char name with Some (signal, _) => signal | None => name end.

(** The signals that a connector connects. *)
Definition connector_supports (x s s' : string) : Prop :=
  if decide (x ∈ [ServiceGraphConnectorName; ServiceIOConnectorName; "spanmetrics"]) then s = "traces" ∧ s' = "metrics" else s = s'.

Definition is_receiver (c : Config) (x : string) : Prop := is_Some (receivers c !! x).
Definition is_exporter (c : Config) (x : string) : Prop := is_Some (exporters c !! x).
Definition is_connector (c : Config) (x : string) : Prop := is_Some (connectors c !! x).

Definition exported_from (c : Config) (x n : string) : Prop :=
  exists p, pipelines c !! n = Some p ∧ x ∈ Exporters p.
Definition received_in (c : Config) (x n : string) : Prop :=
  exists p, pipelines c !! n = Some p ∧ x ∈ Receivers p.

Record pipeline_accepted (c : Config) (p : Pipeline) : Prop := {
  pa_receivers : Receivers p <> [] ∧ Forall (fun r => is_receiver c r ∨ is_connector c r) (Receivers p);
  pa_exporters : Exporters p <> [] ∧ Forall (fun e => is_exporter c e ∨ is_connector c e) (Exporters p);
  pa_processors : Forall (fun x => is_Some (processors c !! x)) (Processors p) ∧ NoDup (Processors p)
}.

Record collector_accepts (c : Config) : Prop := {
  ca_pipelines n p : pipelines c !! n = Some p -> pipeline_accepted c p;
  ca_extensions : Forall (fun x => is_Some (extensions c !! x)) (service_extensions c);
  ca_unambiguous x : is_connector c x -> ~ is_receiver c x ∧ ~ is_exporter c x;
  (** what is exported to a connector is received somewhere, and the other
      way round *)
  ca_received x n :
    is_connector c x -> exported_from c x n ->
    exists m, received_in c x m ∧ connector_supports x (signal_of n) (signal_of m);
  ca_exported x m :
    is_connector c x -> received_in c x m ->
    exists n, exported_from c x n ∧ connector_supports x (signal_of n) (signal_of m);
  ca_acyclic :
    exists rank : string -> nat, forall x n m,
      is_connector c x -> exported_from c x n -> received_in c x m -> rank n < rank m
}.

(** ** The links of a run

    [U] are the pipelines of the destinations, [S] the names of the data
    streams. *)
Section Links.
Context (U S : list string).

(** Pipeline [n] may export to connector [x]. *)
Inductive link_out : string -> string -> Prop :=
| out_root sig : sig ∈ pipeline_signals -> link_out ("odigosrouterconnector/" +:+ sig) (sig +:+ "/in")
| out_grouped : link_out TracesPostGroupByForwardConnectorName "traces/in"
| out_exporting : link_out "odigosrouterconnector/traces" TracesExportingPipelineName
| out_stream u sig s :
    u ∈ U -> sig ∈ pipeline_signals -> s ∈ S -> signal_of u = sig -> link_out ("forward/" +:+ u) (sig +:+ "/" +:+ s)
| out_servicegraph n : n ∈ ["traces/in"; TracesExportingPipelineName] -> link_out ServiceGraphConnectorName n
| out_serviceio : link_out ServiceIOConnectorName "traces/in".

(** Pipeline [n] may receive from connector [x]. *)
Inductive link_in : string -> string -> Prop :=
| in_grouped : link_in TracesPostGroupByForwardConnectorName TracesExportingPipelineName
| in_stream sig s :
    sig ∈ pipeline_signals -> s ∈ S -> link_in ("odigosrouterconnector/" +:+ sig) (sig +:+ "/" +:+ s)
| in_dest u : u ∈ U -> link_in ("forward/" +:+ u) u
| in_servicegraph : link_in ServiceGraphConnectorName "metrics/servicegraph"
| in_serviceio : link_in ServiceIOConnectorName TraceCorrelationsMetricsPipelineName.

(** Everything that the pipelines refer to is defined, and connectors are
    used along the links. *)
Record pipeline_open (c : Config) (n : string) (p : Pipeline) : Prop := {
  po_receivers : Receivers p <> [] ∧
    Forall (fun r => is_receiver c r ∨ is_connector c r ∧ link_in r n) (Receivers p);
  po_exporters : Forall (fun e => is_exporter c e ∨ is_connector c e ∧ link_out e n) (Exporters p);
  po_processors : Forall (fun x => is_Some (processors c !! x)) (Processors p) ∧ NoDup (Processors p)
}.

Record config_open (c : Config) : Prop := {
  co_pipelines n p : pipelines c !! n = Some p -> pipeline_open c n p;
  co_extensions : Forall (fun x => is_Some (extensions c !! x)) (service_extensions c);
  co_plain x : is_receiver c x ∨ is_exporter c x -> connector_name x = false;
  co_connectors x : is_connector c x -> connector_name x = true
}.

(** *** Growth: components and links are only added *)

Definition more (l l' : list string) : Prop := forall x, x ∈ l -> x ∈ l'.

Record grows (c c' : Config) : Prop := {
  gr_receivers x : is_receiver c x -> is_receiver c' x;
  gr_exporters x : is_exporter c x -> is_exporter c' x;
  gr_connectors x : is_connector c x -> is_connector c' x;
  gr_processors x : is_Some (processors c !! x) -> is_Some (processors c' !! x);
  gr_pipelines n p : pipelines c !! n = Some p ->
    exists p', pipelines c' !! n = Some p' ∧ more (Receivers p) (Receivers p') ∧ more (Exporters p) (Exporters p')
}.
End Links.

#[export] Instance grows_preorder : PreOrder grows.
Proof.
  split.
  - intros c. split; auto. intros n p Hp. by exists p.
  - intros c1 c2 c3 H12 H23. split; try (intros x Hx; by apply H23, H12).
    intros n p Hp. destruct (gr_pipelines _ _ H12 n p Hp) as (p2 & Hp2 & R2 & X2).
    destruct (gr_pipelines _ _ H23 n p2 Hp2) as (p3 & Hp3 & R3 & X3). exists p3. unfold more in *.
    split_and!; eauto.
Qed.

Lemma grows_exported c c' x n : grows c c' -> exported_from c x n -> exported_from c' x n.
Proof. intros Hg (p & Hp & Hx). destruct (gr_pipelines _ _ Hg n p Hp) as (p' & ? & _ & Hm). exists p'. split; auto. Qed.
Lemma grows_received c c' x n : grows c c' -> received_in c x n -> received_in c' x n.
Proof. intros Hg (p & Hp & Hx). destruct (gr_pipelines _ _ Hg n p Hp) as (p' & ? & Hm & _). exists p'. split; auto. Qed.

Lemma pipeline_open_grows U S c c' n p : grows c c' -> pipeline_open U S c n p -> pipeline_open U S c' n p.
Proof.
  intros Hg [[Hr Fr] Fe [Fp Hn]]. split; [split; [done|]| |split; [|done]].
  - eapply Forall_impl; [exact Fr|]. intros r [?|[? ?]]; [left|right]; eauto using gr_receivers, gr_connectors.
  - eapply Forall_impl; [exact Fe|]. intros r [?|[? ?]]; [left|right]; eauto using gr_exporters, gr_connectors.
  - eapply Forall_impl; [exact Fp|]. intros x. apply (gr_processors _ _ Hg).
Qed.

(** *** Single steps *)

Lemma grows_same_pipelines c c' :
  (forall x, is_receiver c x -> is_receiver c' x) -> (forall x, is_exporter c x -> is_exporter c' x) ->
  (forall x, is_connector c x -> is_connector c' x) ->
  (forall x, is_Some (processors c !! x) -> is_Some (processors c' !! x)) -> pipelines c' = pipelines c -> grows c c'.
Proof. intros Hr Hx Hc Hp E. split; try done. intros n p Hn. exists p. rewrite E. unfold more. auto. Qed.

Lemma insert_is_Some {A} (m : gmap string A) n v x : is_Some (m !! x) -> is_Some (<[n:=v]> m !! x).
Proof. intros ?. apply lookup_insert_is_Some'. by right. Qed.

Lemma grows_receiver n v c : grows c (set_receivers (insert n v) c).
Proof. apply grows_same_pipelines; try done. intros x. apply insert_is_Some. Qed.
Lemma grows_exporter n v c : grows c (set_exporters (insert n v) c).
Proof. apply grows_same_pipelines; try done. intros x. apply insert_is_Some. Qed.
Lemma grows_processor n v c : grows c (set_processors (insert n v) c).
Proof. apply grows_same_pipelines; try done. intros x. apply insert_is_Some. Qed.
Lemma grows_connector n v c : grows c (set_connectors (insert n v) c).
Proof. apply grows_same_pipelines; try done. intros x. apply insert_is_Some. Qed.
Lemma grows_extension f c : grows c (set_extensions f c).
Proof. by apply grows_same_pipelines. Qed.
Lemma grows_service_extensions f c : grows c (set_service_extensions f c).
Proof. by apply grows_same_pipelines. Qed.
Lemma grows_telemetry f c : grows c (set_telemetry f c).
Proof. by apply grows_same_pipelines. Qed.

(** A pipeline is added, or extended. *)
Lemma grows_pipeline n p c :
  (forall p0, pipelines c !! n = Some p0 -> more (Receivers p0) (Receivers p) ∧ more (Exporters p0) (Exporters p)) ->
  grows c (set_pipeline n p c).
Proof.
  intros Hm. split; try done. intros m q Hq. simpl. destruct (decide (m = n)) as [->|Hne].
  - exists p. rewrite lookup_insert_eq. split; [done|]. by apply Hm.
  - exists q. rewrite lookup_insert_ne by done. unfold more. auto.
Qed.

Section OpenSteps.
Context {U S : list string}.

Lemma open_grows c c' :
  config_open U S c -> grows c c' -> pipelines c' = pipelines c ->
  Forall (fun x => is_Some (extensions c' !! x)) (service_extensions c') ->
  (forall x, is_receiver c' x ∨ is_exporter c' x -> connector_name x = false) ->
  (forall x, is_connector c' x -> connector_name x = true) -> config_open U S c'.
Proof.
  intros Ho Hg E He Hp Hc. split; [|done..]. intros n p. rewrite E. intros Hn.
  eapply pipeline_open_grows; [done|]. by apply Ho.
Qed.

Lemma open_receiver n v c :
  connector_name n = false -> config_open U S c -> config_open U S (set_receivers (insert n v) c).
Proof.
  intros Hn Ho. eapply open_grows; [done|apply grows_receiver|done|apply Ho| |apply Ho].
  unfold is_receiver, is_exporter. simpl. intros x [[->|[_ ?]]%lookup_insert_is_Some|?]; [done|by apply Ho; left|by apply Ho; right].
Qed.
Lemma open_exporter n v c :
  connector_name n = false -> config_open U S c -> config_open U S (set_exporters (insert n v) c).
Proof.
  intros Hn Ho. eapply open_grows; [done|apply grows_exporter|done|apply Ho| |apply Ho].
  unfold is_receiver, is_exporter. simpl. intros x [?|[->|[_ ?]]%lookup_insert_is_Some]; [by apply Ho; left|done|by apply Ho; right].
Qed.
Lemma open_processor n v c : config_open U S c -> config_open U S (set_processors (insert n v) c).
Proof. intros Ho. eapply open_grows; [done|apply grows_processor|done|apply Ho|apply Ho|apply Ho]. Qed.
Lemma open_connector n v c :
  connector_name n = true -> config_open U S c -> config_open U S (set_connectors (insert n v) c).
Proof.
  intros Hn Ho. eapply open_grows; [done|apply grows_connector|done|apply Ho|apply Ho|].
  unfold is_connector. simpl. intros x [->|[_ ?]]%lookup_insert_is_Some; [done|by apply Ho].
Qed.
Lemma open_extension n v (f : list string -> list string) c :
  (forall x, x ∈ f (service_extensions c) -> x = n ∨ x ∈ service_extensions c) -> config_open U S c ->
  config_open U S (set_service_extensions f (set_extensions (insert n v) c)).
Proof.
  intros Hf Ho. eapply open_grows; [done| |done| |apply Ho|apply Ho].
  - by apply grows_same_pipelines.
  - apply Forall_forall. intros x [->|Hx]%Hf; simpl; [rewrite lookup_insert_eq; by eexists|].
    apply insert_is_Some. revert x Hx. apply Forall_forall, Ho.
Qed.
Lemma open_telemetry f c : config_open U S c -> config_open U S (set_telemetry f c).
Proof. intros Ho. eapply open_grows; [done|apply grows_telemetry|done|apply Ho|apply Ho|apply Ho]. Qed.
Lemma open_pipeline n p c :
  pipeline_open U S c n p -> config_open U S c -> config_open U S (set_pipeline n p c).
Proof.
  intros Hp Ho. split; try apply Ho. intros m q. simpl. destruct (decide (m = n)) as [->|Hne].
  - rewrite lookup_insert_eq. intros [= <-]. destruct Hp. by split.
  - rewrite lookup_insert_ne by done. intros Hq. destruct (co_pipelines _ _ _ Ho m q Hq). by split.
Qed.

(** One more reference in a pipeline. *)
Lemma open_add_exporter n e p c :
  pipelines c !! n = Some p -> is_exporter c e ∨ is_connector c e ∧ link_out U S e n -> config_open U S c ->
  config_open U S (set_pipeline n (add_exporter e p) c).
Proof.
  intros Hp He Ho. apply open_pipeline; [|done]. destruct (co_pipelines _ _ _ Ho n p Hp) as [Hr Hx Hpr].
  split; simpl; [done| |done]. apply Forall_app. split; [done|by constructor].
Qed.
Lemma open_add_receiver n r p c :
  pipelines c !! n = Some p -> is_receiver c r -> config_open U S c ->
  config_open U S (set_pipeline n (add_receiver r p) c).
Proof.
  intros Hp He Ho. apply open_pipeline; [|done]. destruct (co_pipelines _ _ _ Ho n p Hp) as [[Hr Hf] Hx Hpr].
  split; simpl; [|done|done]. split; [by destruct (Receivers p)|]. apply Forall_app. split; [done|]. constructor; [by left|done].
Qed.
End OpenSteps.

(** ** From links to acceptance *)

(** The parts of pipeline names that the gateway uses itself. *)
Definition reserved_names : list string :=
  ["in"; "exporting"; "otelcol"; "servicegraph"; "tracecorrelations"; "own-metrics"].

(** Pipelines of destinations, data streams and the gateway itself have
    different names. *)
Record names_ok (U S : list string) : Prop := {
  no_dests u : u ∈ U -> exists sig suffix, sig ∈ pipeline_signals ∧ u = sig +:+ "/" +:+ suffix
                                          ∧ (suffix ∉ reserved_names) ∧ suffix ∉ S;
  no_streams s : s ∈ S -> s ∉ reserved_names
}.

Lemma pipeline_signal_no_slash sig : sig ∈ pipeline_signals -> has_byte "/"%char sig = false.
Proof. intros Hs. unfold pipeline_signals in Hs. repeat (apply elem_of_cons in Hs as [->|Hs]; [done|]). by apply elem_of_nil in Hs. Qed.

Lemma signal_of_app sig s : sig ∈ pipeline_signals -> signal_of (sig +:+ "/" +:+ s) = sig.
Proof.
  intros Hs. unfold signal_of. change (sig +:+ "/" +:+ s) with (sig +:+ String "/"%char s).
  by rewrite split2_app by by apply pipeline_signal_no_slash.
Qed.

Lemma pipeline_name_inj sig s sig' s' :
  sig ∈ pipeline_signals -> sig' ∈ pipeline_signals -> sig +:+ "/" +:+ s = sig' +:+ "/" +:+ s' -> sig = sig' ∧ s = s'.
Proof.
  intros ?%pipeline_signal_no_slash ?%pipeline_signal_no_slash E. by apply (str_app_inj_sep "/"%char sig s sig' s').
Qed.

Definition root_pipelines : list string := (fun sig => sig +:+ "/in") <$> pipeline_signals.

(** The position of a pipeline on the way of the telemetry. *)
Definition rank_of (U : list string) (n : string) : nat :=
  if decide (n ∈ root_pipelines) then 0
  else if decide (n = TracesExportingPipelineName) then 1
  else if decide (n ∈ U ∨ n = "metrics/servicegraph" ∨ n = TraceCorrelationsMetricsPipelineName) then 3 else 2.

Definition gateway_pipelines : list string :=
  ["traces/in"; "metrics/in"; "logs/in"; "profiles/in"; TracesExportingPipelineName; "metrics/servicegraph";
   TraceCorrelationsMetricsPipelineName].
Lemma root_gateway n : n ∈ root_pipelines -> n ∈ gateway_pipelines.
Proof.
  change root_pipelines with ["traces/in"; "metrics/in"; "logs/in"; "profiles/in"]. unfold gateway_pipelines. set_solver.
Qed.

Section Accept.
Context (U S : list string) (Hnames : names_ok U S).

(** A name with a suffix of its own is none of the gateway's. *)
Lemma own_suffix sig s n :
  sig ∈ pipeline_signals -> s ∉ reserved_names ->
  n ∈ gateway_pipelines -> sig +:+ "/" +:+ s <> n.
Proof.
  intros Hsig Hs Hn E.
  assert (Hn' : exists sig' s', sig' ∈ pipeline_signals ∧ n = sig' +:+ "/" +:+ s' ∧ s' ∈ reserved_names).
  { repeat (apply elem_of_cons in Hn as [->|Hn];
      [|]); [..|by apply elem_of_nil in Hn].
    - exists "traces", "in". split_and!; [by apply (bool_decide_unpack _)|done|by apply (bool_decide_unpack _)].
    - exists "metrics", "in". split_and!; [by apply (bool_decide_unpack _)|done|by apply (bool_decide_unpack _)].
    - exists "logs", "in". split_and!; [by apply (bool_decide_unpack _)|done|by apply (bool_decide_unpack _)].
    - exists "profiles", "in". split_and!; [by apply (bool_decide_unpack _)|done|by apply (bool_decide_unpack _)].
    - exists "traces", "exporting". split_and!; [by apply (bool_decide_unpack _)|done|by apply (bool_decide_unpack _)].
    - exists "metrics", "servicegraph". split_and!; [by apply (bool_decide_unpack _)|done|by apply (bool_decide_unpack _)].
    - exists "metrics", "tracecorrelations". split_and!; [by apply (bool_decide_unpack _)|done|by apply (bool_decide_unpack _)]. }
  destruct Hn' as (sig' & s' & Hsig' & -> & Hs'). by apply pipeline_name_inj in E as [_ ->].
Qed.

Lemma rank_root n : n ∈ root_pipelines -> rank_of U n = 0.
Proof. intros Hn. unfold rank_of. by rewrite decide_True. Qed.
Lemma rank_exporting : rank_of U TracesExportingPipelineName = 1.
Proof. done. Qed.
Lemma rank_stream sig s : sig ∈ pipeline_signals -> s ∈ S -> rank_of U (sig +:+ "/" +:+ s) = 2.
Proof.
  intros Hsig Hs. pose proof (no_streams _ _ Hnames s Hs) as Hr. pose proof (own_suffix sig s) as Ho. unfold rank_of.
  rewrite decide_False by (intros Hin; by eapply Ho; [..|apply root_gateway|]).
  rewrite decide_False by (apply Ho; [done|done|by apply (bool_decide_unpack _)]). apply decide_False. intros [Hu|[E|E]].
  - destruct (no_dests _ _ Hnames _ Hu) as (sig' & s' & Hsig' & E & _ & Hns). apply pipeline_name_inj in E as [_ ->]; done.
  - revert E. apply Ho; [done|done|by apply (bool_decide_unpack _)].
  - revert E. apply Ho; [done|done|by apply (bool_decide_unpack _)].
Qed.
Lemma rank_dest u : u ∈ U -> rank_of U u = 3.
Proof.
  intros Hu. destruct (no_dests _ _ Hnames _ Hu) as (sig & s & Hsig & -> & Hr & _).
  pose proof (own_suffix sig s) as Ho. unfold rank_of.
  rewrite decide_False by (intros Hin; by eapply Ho; [..|apply root_gateway|]).
  rewrite decide_False by (apply Ho; [done|done|by apply (bool_decide_unpack _)]). apply decide_True. by left.
Qed.

Lemma dest_signal u : u ∈ U -> exists sig s, sig ∈ pipeline_signals ∧ u = sig +:+ "/" +:+ s ∧ signal_of u = sig.
Proof.
  intros Hu. destruct (no_dests _ _ Hnames _ Hu) as (sig & s & Hsig & -> & _). exists sig, s.
  split_and!; [done|done|by apply signal_of_app].
Qed.
Lemma dest_not_grouped u : u ∈ U -> "forward/" +:+ u <> TracesPostGroupByForwardConnectorName.
Proof.
  intros (sig & s & Hsig & -> & _)%dest_signal E. apply (f_equal (fun x => String.substring 8 100 x)) in E.
  unfold pipeline_signals in Hsig. repeat (apply elem_of_cons in Hsig as [->|Hsig]; [done|]). by apply elem_of_nil in Hsig.
Qed.

Lemma str_app_inv_head (p a b : string) : p +:+ a = p +:+ b -> a = b.
Proof. induction p as [|c p IH]; [done|]. rewrite !str_app_cons. intros E. injection E as E. by apply IH. Qed.

(** Where a connector is received. *)
Lemma link_in_inv x m :
  link_in U S x m ->
  (forall sig, x = "odigosrouterconnector/" +:+ sig -> exists s, s ∈ S ∧ sig ∈ pipeline_signals ∧ m = sig +:+ "/" +:+ s)
  ∧ (forall u, u ∈ U -> x = "forward/" +:+ u -> m = u)
  ∧ (x = TracesPostGroupByForwardConnectorName -> m = TracesExportingPipelineName)
  ∧ (x = ServiceGraphConnectorName -> m = "metrics/servicegraph")
  ∧ (x = ServiceIOConnectorName -> m = TraceCorrelationsMetricsPipelineName).
Proof.
  intros [|sig s Hsig Hs|u Hu| |]; split_and!; try (intros; discriminate); try done.
  - intros u Hu E. by destruct (dest_not_grouped u Hu).
  - intros sig' E%str_app_inv_head. subst. by exists s.
  - intros u' _ E. by apply str_app_inv_head in E.
  - intros E. by destruct (dest_not_grouped u Hu).
Qed.

Lemma router_supports pre x s : pre ∈ ["forward/"; "odigosrouterconnector/"] -> connector_supports (pre +:+ x) s s.
Proof.
  intros Hp. unfold connector_supports. rewrite decide_False; [done|]. intros Hin.
  repeat (apply elem_of_cons in Hp as [->|Hp]; [|]); [..|by apply elem_of_nil in Hp];
    repeat (apply elem_of_cons in Hin as [Hin|Hin]; [discriminate|]); by apply elem_of_nil in Hin.
Qed.

Lemma rank_last n : n ∈ ["metrics/servicegraph"; TraceCorrelationsMetricsPipelineName] -> rank_of U n = 3.
Proof.
  intros Hn. unfold rank_of. repeat (apply elem_of_cons in Hn as [->|Hn]; [|]); [..|by apply elem_of_nil in Hn];
    rewrite !decide_False by (by apply (bool_decide_unpack _)); apply decide_True; auto.
Qed.

(** The pipelines of the destinations come last. *)
Lemma link_out_rank x n : link_out U S x n -> rank_of U n <= 2.
Proof.
  intros [sig Hsig| | |u sig s Hu Hsig Hs Hsu|m Hm|].
  - rewrite rank_root; [lia|]. unfold root_pipelines. by apply list_elem_of_fmap_2 with (f := fun s => s +:+ "/in").
  - rewrite rank_root; [lia|]. by apply (bool_decide_unpack _).
  - rewrite rank_exporting. lia.
  - rewrite rank_stream by done. lia.
  - repeat (apply elem_of_cons in Hm as [->|Hm]; [unfold rank_of; simpl; lia|]). by apply elem_of_nil in Hm.
  - rewrite rank_root; [lia|]. by apply (bool_decide_unpack _).
Qed.

(** A pipeline that exports to a connector and one that receives from it have
    signals that it connects, and come one after the other. *)
Lemma linked x n m :
  link_out U S x n -> link_in U S x m ->
  connector_supports x (signal_of n) (signal_of m) ∧ rank_of U n < rank_of U m.
Proof.
  assert (Hroot : forall sig, sig ∈ pipeline_signals -> rank_of U (sig +:+ "/in") = 0).
  { intros sig Hsig. apply rank_root. unfold root_pipelines. by apply list_elem_of_fmap_2 with (f := fun s => s +:+ "/in"). }
  intros Hout (Hr & Hf & Hg & Hsg & Hio)%link_in_inv. destruct Hout as [sig Hsig| | |u sig s Hu Hsig Hs Hsu|n Hn|].
  - (* a root pipeline, to a stream *) destruct (Hr sig eq_refl) as (s & Hs & _ & ->).
    rewrite rank_stream, Hroot by done. split; [|lia].
    change (sig +:+ "/in") with (sig +:+ "/" +:+ "in"). rewrite !signal_of_app by done.
    apply (router_supports "odigosrouterconnector/"). by apply (bool_decide_unpack _).
  - (* traces/in to traces/exporting *) rewrite Hg by done. split; [|unfold rank_of; simpl; lia].
    apply (router_supports "forward/" "traces-post-groupby"). by apply (bool_decide_unpack _).
  - (* traces/exporting to a stream *) destruct (Hr "traces" eq_refl) as (s & Hs & Hsig & ->).
    rewrite rank_stream, rank_exporting by done. split; [|lia]. rewrite signal_of_app by done.
    apply (router_supports "odigosrouterconnector/" "traces"). by apply (bool_decide_unpack _).
  - (* a stream to a destination *) rewrite (Hf u Hu eq_refl), rank_stream, rank_dest by done. split; [|lia].
    rewrite signal_of_app, Hsu by done. apply (router_supports "forward/"). by apply (bool_decide_unpack _).
  - (* service graph *) rewrite Hsg by done. rewrite (rank_last "metrics/servicegraph") by by apply (bool_decide_unpack _).
    repeat (apply elem_of_cons in Hn as [->|Hn]; [split; [done|unfold rank_of; simpl; lia]|]). by apply elem_of_nil in Hn.
  - (* service I/O *) rewrite Hio by done. rewrite (rank_last TraceCorrelationsMetricsPipelineName) by by apply (bool_decide_unpack _).
    split; [done|]. unfold rank_of. simpl. lia.
Qed.

(** A configuration whose pipelines only use defined components and the
    links is accepted once every connector is used at both ends. *)
Lemma accepts_of_open c :
  config_open U S c ->
  (forall n p, pipelines c !! n = Some p -> Exporters p <> []) ->
  (forall x, is_connector c x -> (exists n, exported_from c x n) ∧ (exists m, received_in c x m)) ->
  collector_accepts c.
Proof.
  intros Ho Hne Hboth.
  assert (Hout : forall x n, is_connector c x -> exported_from c x n -> link_out U S x n).
  { intros x n Hx (p & Hp & Hxp). destruct (co_pipelines _ _ _ Ho n p Hp) as [_ Hf _].
    rewrite Forall_forall in Hf. destruct (Hf x Hxp) as [He|[_ Hl]]; [|done].
    pose proof (co_connectors _ _ _ Ho x Hx). pose proof (co_plain _ _ _ Ho x (or_intror He)). congruence. }
  assert (Hin : forall x n, is_connector c x -> received_in c x n -> link_in U S x n).
  { intros x n Hx (p & Hp & Hxp). destruct (co_pipelines _ _ _ Ho n p Hp) as [[_ Hf] _ _].
    rewrite Forall_forall in Hf. destruct (Hf x Hxp) as [He|[_ Hl]]; [|done].
    pose proof (co_connectors _ _ _ Ho x Hx). pose proof (co_plain _ _ _ Ho x (or_introl He)). congruence. }
  split.
  - intros n p Hp. destruct (co_pipelines _ _ _ Ho n p Hp) as [[Hr Fr] Fe Hpr]. split; [split; [done|]|split; [by eapply Hne|]|done].
    + eapply Forall_impl; [exact Fr|]. intros r [?|[? _]]; auto.
    + eapply Forall_impl; [exact Fe|]. intros r [?|[? _]]; auto.
  - apply Ho.
  - intros x Hx. pose proof (co_connectors _ _ _ Ho x Hx).
    split; intros Hy; [pose proof (co_plain _ _ _ Ho x (or_introl Hy))|pose proof (co_plain _ _ _ Ho x (or_intror Hy))]; congruence.
  - intros x n Hx Hn. destruct (Hboth x Hx) as [_ [m Hm]]. exists m. split; [done|]. eapply linked; auto.
  - intros x m Hx Hm. destruct (Hboth x Hx) as [[n Hn] _]. exists n. split; [done|]. eapply linked; auto.
  - exists (rank_of U). intros x n m Hx Hn Hm. eapply linked; eauto.
Qed.
End Accept.
