(* ===== verification/GatewayRoutes.v ===== *)
(** * From the destinations to the routes

    What the configuration is after the destinations were configured
    ([loop_inv]), and after the data streams and the root pipelines were
    inserted. *)

From Stdlib Require Import Ascii.
From S2P Require Import Prelude.
From S2P Require Import GoStrings.
From S2P Require Import GoSort.
From S2P Require Import K8s.
From S2P Require Import Api.
From S2P Require Import GoLib.
From S2P Require Import CollectorConfig.
From S2P Require Import Destinations.
From S2P Require Import DataStreams.
From S2P Require Import GatewayConfig.
From S2P Require Import GatewayTelemetry.
From S2P Require Import GatewayValid.

(** ** The destinations *)

(** A pipeline of a destination with its forward connector. *)
Record connected (c : Config) (n : string) (p : Pipeline) : Prop := {
  cn_receivers : Receivers p = ["forward/" +:+ n];
  cn_exporters : Exporters p <> [] ∧ Forall (is_exporter c) (Exporters p);
  cn_processors : Forall (fun x => is_Some (processors c !! x) ∧ x <> "odigostrafficmetrics") (Processors p)
                  ∧ NoDup (Processors p)
}.

Lemma connected_grows c c' n p : grows c c' -> connected c n p -> connected c' n p.
Proof.
  intros Hg [Hr [Hx Hf] [Hp Hn]]. split; [done|split; [done|]|split; [|done]].
  - eapply Forall_impl; [exact Hf|]. intros e. apply (gr_exporters _ _ Hg).
  - eapply Forall_impl; [exact Hp|]. intros e [He ?]. split; [|done]. by apply (gr_processors _ _ Hg).
Qed.

(** Which signals the pipelines [K] carry. *)
Definition carries (K : list string) (sig : string) : Prop := exists n, n ∈ K ∧ signal_of n = sig.

Record enabled_by (K : list string) (e : EnabledBy) : Prop := {
  eb_traces : by_traces e = true <-> carries K "traces";
  eb_metrics : by_metrics e = true <-> carries K "metrics";
  eb_logs : by_logs e = true <-> carries K "logs";
  eb_profiles : by_profiles e = true <-> carries K "profiles"
}.

Section Loop.
Context (c00 : Config) (suffix : ExporterConfigurer -> string).

(** The pipelines [K] are connected, the pipelines [P] are not yet. *)
Record loop_inv (done : list ExporterConfigurer) (K P : list string) (s : DestLoop) : Prop := {
  li_receivers : receivers (dl_config s) = receivers c00;
  li_connectors x : is_connector (dl_config s) x <-> exists n, (n ∈ K) ∧ x = "forward/" +:+ n;
  li_exporters x : is_exporter (dl_config s) x -> connector_name x = false;
  li_processors x : is_Some (processors c00 !! x) -> is_Some (processors (dl_config s) !! x);
  li_extensions : Forall (fun x => is_Some (extensions (dl_config s) !! x)) (service_extensions (dl_config s));
  li_pipelines n p : pipelines (dl_config s) !! n = Some p ->
    (n ∈ K ∧ connected (dl_config s) n p) ∨ (n ∈ P ∧ dest_pipeline_ok (dl_config s) p);
  li_known n : n ∈ K ++ P -> is_Some (pipelines (dl_config s) !! n);
  li_unified : dl_unified s = K ++ P;
  li_NoDup : NoDup (K ++ P);
  li_owner n : n ∈ K ++ P -> exists d sig, d ∈ done ∧ sig ∈ pipeline_signals ∧ n = sig +:+ "/" +:+ suffix d;
  li_complete n : n ∈ K -> exists d sig l, d ∈ done ∧ sig ∈ pipeline_signals ∧ n = sig +:+ "/" +:+ suffix d
                                          ∧ dl_forward s !! GetID d = Some l ∧ "forward/" +:+ n ∈ l;
  li_sound id l x : dl_forward s !! id = Some l -> x ∈ l -> exists n, (n ∈ K) ∧ x = "forward/" +:+ n;
  li_enabled : enabled_by K (dl_enabled s)
}.

Lemma has_prefix_signal sig sig' t :
  sig ∈ pipeline_signals -> sig' ∈ pipeline_signals ->
  has_prefix (sig +:+ "/") (sig' +:+ "/" +:+ t) = bool_decide (sig = sig').
Proof.
  intros Hs Hs'. unfold pipeline_signals in *.
  repeat (apply elem_of_cons in Hs as [->|Hs]; [|]); [..|by apply elem_of_nil in Hs];
    repeat (apply elem_of_cons in Hs' as [->|Hs']; [|]); try done; by apply elem_of_nil in Hs'.
Qed.

Lemma carries_snoc K n sig : carries (K ++ [n]) sig <-> carries K sig ∨ signal_of n = sig.
Proof. unfold carries. set_solver. Qed.

Lemma enable_ok K e sig t :
  sig ∈ pipeline_signals -> enabled_by K e -> enabled_by (K ++ [sig +:+ "/" +:+ t]) (enable e (sig +:+ "/" +:+ t)).
Proof.
  intros Hsig [Ht Hm Hl Hp]. unfold enable.
  assert (Hpre : forall s, s ∈ pipeline_signals -> has_prefix (s +:+ "/") (sig +:+ "/" +:+ t) = bool_decide (s = sig))
    by (intros; by apply has_prefix_signal).
  pose proof (Hpre "traces" ltac:(by apply (bool_decide_unpack _))) as H1.
  pose proof (Hpre "metrics" ltac:(by apply (bool_decide_unpack _))) as H2.
  pose proof (Hpre "logs" ltac:(by apply (bool_decide_unpack _))) as H3.
  pose proof (Hpre "profiles" ltac:(by apply (bool_decide_unpack _))) as H4.
  change ("traces" +:+ "/") with "traces/" in H1. change ("metrics" +:+ "/") with "metrics/" in H2.
  change ("logs" +:+ "/") with "logs/" in H3. change ("profiles" +:+ "/") with "profiles/" in H4.
  rewrite H1, H2, H3, H4. clear H1 H2 H3 H4 Hpre.
  split; rewrite carries_snoc, signal_of_app by done;
    unfold pipeline_signals in Hsig; repeat (apply elem_of_cons in Hsig as [->|Hsig]; [simpl; naive_solver|]);
    by apply elem_of_nil in Hsig.
Qed.

Lemma connect_pipeline_inv done K P s dest sig n :
  loop_inv done K (n :: P) s -> dest ∈ done -> sig ∈ pipeline_signals -> n = sig +:+ "/" +:+ suffix dest ->
  is_Some (processors c00 !! GenericBatchProcessorConfigKey) ->
  loop_inv done (K ++ [n]) P (connect_pipeline (GetID dest) s n).
Proof.
  intros Hi Hd Hsig Hn Hbatch. unfold connect_pipeline.
  set (c1 := set_connectors (insert ("forward/" +:+ n) (GMap (gm []))) (dl_config s)).
  assert (HnK : (n ∉ K) ∧ (n ∉ P)).
  { pose proof (li_NoDup _ _ _ _ Hi) as Hnd. apply NoDup_app in Hnd as (_ & Hdis & Hnd).
    apply NoDup_cons in Hnd as [? _]. split; [|done]. intros Hin. apply (Hdis n Hin). by left. }
  destruct (li_known _ _ _ _ Hi n) as [p0 Hp0]; [set_solver|].
  destruct (li_pipelines _ _ _ _ Hi n p0 Hp0) as [[? _]|[_ Hok]]; [naive_solver|].
  assert (Hget : get_pipeline n c1 = p0) by (unfold get_pipeline; simpl; by rewrite Hp0). rewrite Hget.
  set (p := forward_pipeline n p0).
  assert (Hconn : connected (dl_config s) n p).
  { destruct Hok as [Hr [Hx Hf] [Hp Hnd]]. unfold p, forward_pipeline.
    assert (Hproc : Forall (fun x => is_Some (processors (dl_config s) !! x) ∧ x <> "odigostrafficmetrics") (Processors p0)).
    { eapply Forall_impl; [exact Hp|]. naive_solver. }
    destruct (negb _); split; simpl; try by rewrite Hr.
    - done.
    - split.
      + apply Forall_app. split; [done|]. constructor; [|done]. split; [by apply (li_processors _ _ _ _ Hi)|done].
      + apply NoDup_app. split_and!; [done| |apply NoDup_singleton]. intros x Hx' ->%list_elem_of_singleton.
        rewrite Forall_forall in Hp. by destruct (Hp _ Hx') as (_ & ? & _).
    - done.
    - done. }
  assert (Hother : forall m q, m <> n -> pipelines (dl_config s) !! m = Some q ->
            (m ∈ K ∧ connected (dl_config s) m q) ∨ (m ∈ P ∧ dest_pipeline_ok (dl_config s) q)).
  { intros m q Hm Hq. destruct (li_pipelines _ _ _ _ Hi m q Hq) as [?|[Hin ?]]; [by left|].
    apply elem_of_cons in Hin as [->|]; [done|by right]. }
  split; simpl.
  - apply Hi.
  - intros x. unfold is_connector. simpl. rewrite lookup_insert_is_Some'. fold (is_connector (dl_config s) x).
    rewrite (li_connectors _ _ _ _ Hi). set_solver.
  - intros x Hx. by apply Hi.
  - intros x Hx. by apply (li_processors _ _ _ _ Hi).
  - apply Hi.
  - intros m q. destruct (decide (m = n)) as [->|Hne].
    + rewrite lookup_insert_eq. intros [= <-]. left. split; [set_solver|]. destruct Hconn. by split.
    + rewrite lookup_insert_ne by done. intros Hq. destruct (Hother m q Hne Hq) as [[? Hc]|[? Hc]]; [left|right].
      * split; [set_solver|]. destruct Hc. by split.
      * split; [done|]. destruct Hc. by split.
  - intros m Hm. apply lookup_insert_is_Some'. destruct (decide (n = m)) as [|Hne]; [by left|right].
    apply Hi. set_solver.
  - rewrite (li_unified _ _ _ _ Hi). by rewrite <-app_assoc.
  - pose proof (li_NoDup _ _ _ _ Hi). by rewrite <-app_assoc.
  - intros m Hm. apply Hi. set_solver.
  - intros m [Hm| ->%list_elem_of_singleton]%elem_of_app.
    + destruct (li_complete _ _ _ _ Hi m Hm) as (d & sg & l & ? & ? & ? & Hl & Hin). exists d, sg.
      destruct (decide (GetID d = GetID dest)) as [E|Hne].
      * eexists. rewrite E, lookup_insert_eq. split_and!; try done. rewrite <-E, Hl. simpl. set_solver.
      * exists l. rewrite lookup_insert_ne by done. done.
    + exists dest, sig. eexists. rewrite lookup_insert_eq. split_and!; try done. set_solver.
  - intros id l x. destruct (decide (id = GetID dest)) as [->|Hne].
    + rewrite lookup_insert_eq. intros [= <-] [Hx| ->%list_elem_of_singleton]%elem_of_app; [|exists n; set_solver].
      destruct (dl_forward s !! GetID dest) as [l0|] eqn:El; [|by apply elem_of_nil in Hx].
      destruct (li_sound _ _ _ _ Hi _ _ x El Hx) as (m & ? & ->). exists m. set_solver.
    + rewrite lookup_insert_ne by done. intros Hl Hx. destruct (li_sound _ _ _ _ Hi id l x Hl Hx) as (m & ? & ->).
      exists m. set_solver.
  - rewrite Hn. apply enable_ok; [done|]. apply Hi.
Qed.

Context (Hbatch : is_Some (processors c00 !! GenericBatchProcessorConfigKey)).

Lemma connect_pipelines_inv done dest P : forall K s,
  loop_inv done K P s -> dest ∈ done ->
  (forall n, n ∈ P -> exists sig, sig ∈ pipeline_signals ∧ n = sig +:+ "/" +:+ suffix dest) ->
  loop_inv done (K ++ P) [] (foldl (connect_pipeline (GetID dest)) s P).
Proof.
  induction P as [|n P IH]; intros K s Hi Hd HP; cbn [foldl]; [by rewrite app_nil_r|].
  destruct (HP n) as (sig & Hsig & Hn); [by left|]. replace (K ++ n :: P) with ((K ++ [n]) ++ P) by by rewrite <-app_assoc.
  apply IH; [|done|intros m Hm; apply HP; by right]. by eapply connect_pipeline_inv.
Qed.

(** A configurer ran: its pipelines are not connected yet. *)
Lemma configured_inv done dest K s c used names :
  loop_inv done K [] s -> suffix dest ∉ suffix <$> done ->
  builds (suffix dest) (dl_config s) used names c ->
  loop_inv (done ++ [dest]) K names
    (mkDestLoop c (dl_status s) (dl_unified s ++ names) (dl_forward s) (dl_enabled s)).
Proof.
  intros Hi Hfresh [He [Hn Hnd] Hu Hnew Hold]. rewrite Forall_forall in Hn.
  assert (Hdis : forall n, n ∈ K -> n ∉ names).
  { intros n Hk (sig & Hsig & E)%Hn. destruct (li_owner _ _ _ _ Hi n) as (d & sig' & Hd & Hsig' & E'); [set_solver|].
    subst n. apply pipeline_name_inj in E' as [_ E']; [|by apply Hu|done]. apply Hfresh. rewrite E'. by apply list_elem_of_fmap_2. }
  assert (Hproc : forall x, is_Some (processors (dl_config s) !! x) -> is_Some (processors c !! x)).
  { intros x. rewrite <-!elem_of_dom. pose proof (ex_processors _ _ He). set_solver. }
  assert (Hexp : forall x, is_exporter (dl_config s) x -> is_exporter c x).
  { intros x. unfold is_exporter. rewrite <-!elem_of_dom. pose proof (ex_exporters _ _ He). set_solver. }
  split; simpl.
  - rewrite (ex_receivers _ _ He). apply Hi.
  - intros x. unfold is_connector. rewrite (ex_connectors _ _ He). apply (li_connectors _ _ _ _ Hi).
  - intros x [Hx|Hx]%(ex_new_exporters _ _ He); [by apply (li_exporters _ _ _ _ Hi)|done].
  - intros x Hx. apply Hproc. by apply (li_processors _ _ _ _ Hi).
  - destruct (ex_service _ _ He) as (l & -> & Hl). apply Forall_app. split; [|done].
    eapply Forall_impl; [apply (li_extensions _ _ _ _ Hi)|]. intros x. cbn. rewrite <-!elem_of_dom.
    pose proof (ex_extensions _ _ He). set_solver.
  - intros n p Hp. destruct (decide (n ∈ names)) as [Hin|Hin].
    + right. split; [done|]. destruct (Hnew n Hin) as (p' & Hp' & Hok). by replace p with p' by congruence.
    + left. rewrite Hold in Hp by done. destruct (li_pipelines _ _ _ _ Hi n p Hp) as [[? [Hr [Hx Hf] [Hpr ?]]]|[[]%elem_of_nil _]].
      split; [done|]. split; [done|split; [done|]|split; [|done]].
      * eapply Forall_impl; [exact Hf|]. exact Hexp.
      * eapply Forall_impl; [exact Hpr|]. intros x [? ?]. split; [by apply Hproc|done].
  - intros n [Hk|Hin]%elem_of_app.
    + rewrite Hold by by apply Hdis. apply Hi. set_solver.
    + destruct (Hnew n Hin) as (p & -> & _). by eexists.
  - rewrite (li_unified _ _ _ _ Hi). by rewrite app_nil_r.
  - apply NoDup_app. pose proof (li_NoDup _ _ _ _ Hi) as HK. rewrite app_nil_r in HK. done.
  - intros n [Hk|(sig & ? & ->)%Hn]%elem_of_app.
    + destruct (li_owner _ _ _ _ Hi n) as (d & sig & ? & ? & ?); [set_solver|]. exists d, sig. set_solver.
    + exists dest, sig. split_and!; [set_solver|by apply Hu|done].
  - intros n Hk. destruct (li_complete _ _ _ _ Hi n Hk) as (d & sig & l & ? & ?). exists d, sig, l. set_solver.
  - apply Hi.
  - apply Hi.
Qed.

Lemma failed_inv done dest K s c :
  loop_inv done K [] s -> extends (dl_config s) c -> pipelines c = pipelines (dl_config s) ->
  suffix dest ∉ suffix <$> done ->
  loop_inv (done ++ [dest]) K [] (mkDestLoop c (dl_status s) (dl_unified s) (dl_forward s) (dl_enabled s)).
Proof.
  intros Hi He Hp Hf.
  assert (Hb : builds (suffix dest) (dl_config s) [] [] c).
  { eapply builds_extends; [apply builds_start|done|done]. }
  pose proof (configured_inv _ _ _ _ _ _ _ Hi Hf Hb) as Hi'. by rewrite app_nil_r in Hi'.
Qed.

Lemma with_status_inv done K P id st s :
  loop_inv done K P s -> loop_inv done K P (with_status id st (dl_config s) s).
Proof. intros []. by split. Qed.

Lemma add_dest_inv configers done dest K s :
  loop_inv done K [] s -> suffix dest ∉ suffix <$> done ->
  (forall configer c0, configers !! GetType dest = Some configer ->
     contribution (suffix dest) c0 (ModifyConfig configer dest c0).1 (ModifyConfig configer dest c0).2) ->
  exists K', loop_inv (done ++ [dest]) K' [] (add_dest configers s dest).
Proof.
  intros Hi Hf Hlaw. unfold add_dest. destruct (configers !! GetType dest) as [configer|].
  - specialize (Hlaw configer (dl_config s) eq_refl). destruct (ModifyConfig configer dest (dl_config s)) as [[err|names] c]; simpl in Hlaw.
    + exists K. destruct Hlaw as [He Hp].
      exact (with_status_inv _ _ _ (GetID dest) (Some err) _ (failed_inv _ _ _ _ _ Hi He Hp Hf)).
    + destruct Hlaw as [used Hb]. exists (K ++ names). apply with_status_inv. apply connect_pipelines_inv.
      * by eapply configured_inv.
      * set_solver.
      * intros n Hn. destruct (bu_names _ _ _ _ _ Hb) as [Hn' _]. rewrite Forall_forall in Hn'.
        destruct (Hn' n Hn) as (sig & ? & ->). exists sig. split; [by eapply bu_used|done].
  - exists K. pose proof (failed_inv done dest K s (dl_config s) Hi) as Hi'. destruct s. apply with_status_inv.
    by apply Hi'.
Qed.

Lemma destinations_inv configers dests :
  connectors c00 = ∅ -> pipelines c00 = ∅ -> (forall x, is_exporter c00 x -> connector_name x = false) ->
  Forall (fun x => is_Some (extensions c00 !! x)) (service_extensions c00) ->
  NoDup (suffix <$> dests) ->
  (forall dest configer c0, dest ∈ dests -> configers !! GetType dest = Some configer ->
     contribution (suffix dest) c0 (ModifyConfig configer dest c0).1 (ModifyConfig configer dest c0).2) ->
  exists K, loop_inv dests K [] (foldl (add_dest configers) (start_loop c00) dests).
Proof.
  intros Hc Hp Hx Hs. induction dests as [|dest dests IH] using rev_ind; intros Hnd Hlaw.
  - exists []. cbn [foldl start_loop]. split; simpl; try done.
    + intros x. unfold is_connector. simpl. rewrite Hc, lookup_empty. split; [by intros []|]. intros (n & []%elem_of_nil & _).
    + intros n p. by rewrite Hp, lookup_empty.
    + intros n []%elem_of_nil.
    + intros n []%elem_of_nil.
    + intros n []%elem_of_nil.
    + split; (split; [done|]); intros (n & []%elem_of_nil & _).
  - rewrite fmap_app in Hnd. apply NoDup_app in Hnd as (Hnd & Hdis & _). destruct IH as [K Hi]; [done| |].
    { intros d cf c0 Hd. apply Hlaw. set_solver. }
    rewrite foldl_snoc. eapply add_dest_inv; [exact Hi| |].
    + intros Hin. apply (Hdis _ Hin). by left.
    + intros cf c0. apply Hlaw. set_solver.
Qed.
End Loop.
