(* ===== verification/GatewayRoots.v ===== *)
(** * The routes of the gateway: data streams and root pipelines

    [insert_routes] connects the pipelines of the destinations to the
    pipelines of the data streams, and these to the root pipelines of their
    signals: the result is [routed], every connector is exported to and
    received from. *)

From Stdlib Require Import Ascii.
From S2P Require Import Prelude.
From S2P Require Import GoStrings.
From S2P Require Import GoSort.
From S2P Require Import K8s.
From S2P Require Import Api.
From S2P Require Import GoLib.
From S2P Require Import CollectorConfig.
From S2P Require Import Destinations.
From S2P Require Import DataStreams.
From S2P Require Import GatewayConfig.
From S2P Require Import GatewayTelemetry.
From S2P Require Import GatewayValid.
From S2P Require Import GatewayRoutes.

(** ** Routed configurations *)

(** All that [collector_accepts] needs but the exporters of the pipelines
    [lacking]. *)
Record routed (U S lacking : list string) (c : Config) : Prop := {
  rt_open : config_open U S c;
  rt_exporters n p : pipelines c !! n = Some p -> Exporters p <> [] ∨ n ∈ lacking;
  rt_connectors x : is_connector c x -> (exists n, exported_from c x n) ∧ (exists m, received_in c x m)
}.

(** [x] does not run in the pipelines [n]. *)
Definition not_run (x n : string) (c : Config) : Prop := forall p, pipelines c !! n = Some p -> x ∉ Processors p.

(** ** Root pipelines *)

Section Roots.
Context (K S lacking : list string).

(** A connector of the root pipelines, received by the pipelines that the
    signal has. *)
Definition root_connector (c : Config) (x : string) : Prop :=
  (exists n, exported_from c x n)
  ∧ ((exists sig, sig ∈ pipeline_signals ∧ carries K sig ∧ x = "odigosrouterconnector/" +:+ sig)
     ∨ x = TracesPostGroupByForwardConnectorName ∧ exists m, received_in c x m).

(** The pipelines [L] were added, and what they need. *)
Record roots_added (L : list string) (c c' : Config) : Prop := {
  ra_receivers : receivers c' = receivers c;
  ra_exporters : exporters c' = exporters c;
  ra_processors : processors c' = processors c;
  ra_extensions : extensions c' = extensions c;
  ra_service : service_extensions c' = service_extensions c;
  ra_connectors x : is_connector c x -> is_connector c' x;
  ra_new_connectors x : is_connector c' x -> is_connector c x ∨ root_connector c' x;
  ra_absent n : n ∈ L -> pipelines c !! n = None;
  ra_old n : n ∉ L -> pipelines c' !! n = pipelines c !! n;
  ra_new n p : n ∈ L -> pipelines c' !! n = Some p ->
    pipeline_open K S c' n p ∧ (Exporters p <> [] ∨ n ∈ lacking)
}.

Lemma roots_grows L c c' : roots_added L c c' -> grows c c'.
Proof.
  intros [Hr Hx Hp _ _ Hc _ Ha Ho _]. split; try done.
  - intros x. unfold is_receiver. by rewrite Hr.
  - intros x. unfold is_exporter. by rewrite Hx.
  - intros x. by rewrite Hp.
  - intros n p Hn. exists p. assert (n ∉ L) as HL by (intros HL; by rewrite (Ha n HL) in Hn).
    rewrite Ho by done. unfold more. auto.
Qed.

Lemma root_connector_grows c c' x : grows c c' -> root_connector c x -> root_connector c' x.
Proof.
  intros Hg [[n Hn] H2]. split; [exists n; by eapply grows_exported|].
  destruct H2 as [?|[? [m Hm]]]; [by left|right]. split; [done|]. exists m. by eapply grows_received.
Qed.

Lemma roots_none L c : (forall n, n ∈ L -> pipelines c !! n = None) -> roots_added L c c.
Proof. intros Ha. split; try done; [by left|]. intros n p Hn. by rewrite (Ha n Hn). Qed.

Lemma roots_trans L1 L2 c c1 c2 :
  roots_added L1 c c1 -> roots_added L2 c1 c2 -> (forall n, n ∈ L1 -> n ∉ L2) -> roots_added (L1 ++ L2) c c2.
Proof.
  intros R1 R2 Hdis. pose proof (roots_grows _ _ _ R2) as G2. split.
  - etrans; [apply (ra_receivers _ _ _ R2)|apply R1].
  - etrans; [apply (ra_exporters _ _ _ R2)|apply R1].
  - etrans; [apply (ra_processors _ _ _ R2)|apply R1].
  - etrans; [apply (ra_extensions _ _ _ R2)|apply R1].
  - etrans; [apply (ra_service _ _ _ R2)|apply R1].
  - intros x Hx. by apply (ra_connectors _ _ _ R2), (ra_connectors _ _ _ R1).
  - intros x [Hx|?]%(ra_new_connectors _ _ _ R2); [|by right].
    apply (ra_new_connectors _ _ _ R1) in Hx as [?|?]; [by left|right]. by eapply root_connector_grows.
  - intros n [Hn|Hn]%elem_of_app; [by apply R1|]. rewrite <-(ra_old _ _ _ R1); [by apply R2|].
    intros Hn'. by apply (Hdis n).
  - intros n [Hn1 Hn2]%not_elem_of_app. rewrite (ra_old _ _ _ R2) by done. by apply R1.
  - intros n p [Hn|Hn]%elem_of_app Hp.
    + rewrite (ra_old _ _ _ R2) in Hp by by apply Hdis. destruct (ra_new _ _ _ R1 n p Hn Hp) as [Hop ?].
      split; [|done]. by eapply pipeline_open_grows.
    + by apply (ra_new _ _ _ R2).
Qed.

Lemma roots_if (b : bool) L c c' :
  (forall n, n ∈ L -> pipelines c !! n = None) -> (b = true -> roots_added L c c') ->
  roots_added L c (if b then c' else c).
Proof. destruct b; auto using roots_none. Qed.

Lemma roots_more L L' c c' :
  roots_added L c c' -> (forall n, n ∈ L -> n ∈ L') -> (forall n, n ∈ L' -> pipelines c !! n = None) ->
  roots_added L' c c'.
Proof.
  intros R Hsub Habs. destruct R as [? ? ? ? ? ? ? ? Ho Hn]. split; auto.
  intros n p HL' Hp. destruct (decide (n ∈ L)) as [|HL]; [by apply Hn|].
  rewrite Ho, Habs in Hp by done. done.
Qed.

Lemma exported_at c n p x : pipelines c !! n = Some p -> x ∈ Exporters p -> exported_from c x n.
Proof. by exists p. Qed.

(** The processors of a root pipeline. *)
Definition root_processors (c : Config) (ps : list string) : Prop :=
  Forall (fun x => is_Some (processors c !! x)) ("resource/odigos-version" :: ps)
  ∧ NoDup ("resource/odigos-version" :: ps).

Lemma signal_in sig : sig ∈ pipeline_signals -> sig +:+ "/in" ∈ root_pipelines.
Proof. intros Hs. unfold root_pipelines. by apply list_elem_of_fmap_2 with (f := fun s => s +:+ "/in"). Qed.

Lemma root_added signal sig ps ext c :
  sig ∈ pipeline_signals -> to_lower signal = sig -> GetTelemetryRootPipelineName signal = sig +:+ "/in" ->
  carries K sig -> is_receiver c "otlp" -> root_processors c ps -> pipelines c !! (sig +:+ "/in") = None ->
  roots_added [sig +:+ "/in"] c (applyRootPipelineForSignal signal ps ext c).
Proof.
  intros Hsig Hlow Hname Hcar Hotlp [Hps Hnd] Habs. unfold applyRootPipelineForSignal. rewrite Hlow, Hname.
  set (x := "odigosrouterconnector/" +:+ sig). set (n := sig +:+ "/in") in *.
  set (p := mkPipeline ["otlp"] ("resource/odigos-version" :: ps) [x]).
  set (c' := set_pipeline n p _).
  assert (Hat : pipelines c' !! n = Some p) by (unfold c'; simpl; by rewrite lookup_insert_eq).
  assert (Hx : exported_from c' x n) by (eapply exported_at; [exact Hat|by left]).
  split; try done.
  - intros y Hy. unfold is_connector. simpl. by apply insert_is_Some.
  - intros y. unfold is_connector. simpl. intros [<-|[_ ?]]%lookup_insert_is_Some; [right|by left].
    split; [by exists n|]. left. by exists sig.
  - intros m ->%list_elem_of_singleton. done.
  - intros m [Hm _]%not_elem_of_cons. simpl. by rewrite lookup_insert_ne.
  - intros m q ->%list_elem_of_singleton. rewrite Hat. intros [= <-]. split; [|by left]. split; simpl.
    + split; [done|]. constructor; [|done]. by left.
    + constructor; [|done]. right. split; [|by constructor].
      unfold is_connector. simpl. rewrite lookup_insert_eq. by eexists.
    + by split.
Qed.

(** The split of the processors of the traces pipelines. *)
Lemma elem_of_ordered x ps : x ∈ orderExportingPipelineProcessors ps <-> x ∈ ps.
Proof.
  unfold orderExportingPipelineProcessors. rewrite elem_of_app, !list_elem_of_filter. split; [naive_solver|].
  intros Hx. destruct (decide (x = OdigosTailSamplingProcessorName)) as [->|]; [left; split; [done|by left]|].
  destruct (decide (x = GenericBatchProcessorConfigKey)) as [->|]; [left; split; [done|by right; left]|]. by right.
Qed.

Lemma ordered_NoDup ps : NoDup ps -> NoDup (orderExportingPipelineProcessors ps).
Proof.
  intros Hnd. unfold orderExportingPipelineProcessors. apply NoDup_app. split_and!.
  - apply NoDup_filter. by apply (bool_decide_unpack _).
  - intros x [_ Hx]%list_elem_of_filter [[? ?] _]%list_elem_of_filter.
    repeat (apply elem_of_cons in Hx as [->|Hx]; [done|]). by apply elem_of_nil in Hx.
  - by apply NoDup_filter.
Qed.

Lemma split_processors c ps post :
  root_processors c (ps ++ post) ->
  let '(tracesIn, tracesExporting) := splitTracesProcessorsForPipelines ps post in
  root_processors c tracesIn
  ∧ Forall (fun x => is_Some (processors c !! x)) tracesExporting ∧ NoDup tracesExporting.
Proof.
  intros [Hps Hnd]. rewrite Forall_forall in Hps. apply NoDup_cons in Hnd as [Hv Hnd].
  apply NoDup_app in Hnd as (Hnd & Hdis & Hnd'). unfold splitTracesProcessorsForPipelines. split_and!.
  - split.
    + apply Forall_forall. intros x [->|[_ Hx]%list_elem_of_filter]%elem_of_cons; apply Hps; set_solver.
    + constructor; [|by apply NoDup_filter]. intros [_ Hx]%list_elem_of_filter. apply Hv. set_solver.
  - apply Forall_forall. intros x [[_ Hx]%elem_of_ordered%list_elem_of_filter|Hx]%elem_of_app; apply Hps; set_solver.
  - apply NoDup_app. split_and!; [by apply ordered_NoDup, NoDup_filter| |done].
    intros x [_ Hx]%elem_of_ordered%list_elem_of_filter. by apply Hdis.
Qed.

Lemma split_added ps post ext b c :
  (b = true -> carries K "traces") -> (b = false -> "traces/in" ∈ lacking) ->
  is_receiver c "otlp" -> root_processors c (ps ++ post) ->
  (forall n, n ∈ ["traces/in"; TracesExportingPipelineName] -> pipelines c !! n = None) ->
  roots_added ["traces/in"; TracesExportingPipelineName] c (applySplitTracesRootPipelines ps post ext b c).
Proof.
  intros Hb Hlack Hotlp Hps Habs. unfold applySplitTracesRootPipelines.
  pose proof (split_processors c ps post Hps) as Hsplit.
  destruct (splitTracesProcessorsForPipelines ps post) as [tin tex]. destruct Hsplit as [[Hin Hnin] [Hex Hnex]].
  change (GetTelemetryRootPipelineName TracesObservabilitySignal) with "traces/in".
  destruct b; cbn [negb].
  - set (pin := mkPipeline ["otlp"] _ _). change (to_lower TracesObservabilitySignal) with "traces".
    set (x := "odigosrouterconnector/" +:+ "traces").
    set (pex := mkPipeline [TracesPostGroupByForwardConnectorName] tex [x]).
    set (c' := set_pipeline TracesExportingPipelineName pex _).
    assert (Hat : pipelines c' !! "traces/in" = Some pin) by (unfold c'; simpl; by rewrite lookup_insert_ne, lookup_insert_eq by done).
    assert (Hat' : pipelines c' !! TracesExportingPipelineName = Some pex) by (unfold c'; simpl; by rewrite lookup_insert_eq).
    assert (Hcx : is_connector c' x) by (unfold is_connector; simpl; rewrite lookup_insert_eq; by eexists).
    assert (Hcf : is_connector c' TracesPostGroupByForwardConnectorName).
    { unfold is_connector. simpl. rewrite lookup_insert_ne, lookup_insert_eq by done. by eexists. }
    split; try done.
    + intros y Hy. unfold is_connector. simpl. by do 2 apply insert_is_Some.
    + intros y. unfold is_connector. simpl. rewrite !lookup_insert_is_Some. intros [<-|[_ [<-|[_ ?]]]]; [right|right|by left].
      * split; [exists TracesExportingPipelineName; eapply exported_at; [exact Hat'|by left]|].
        left. exists "traces". split_and!; [by apply (bool_decide_unpack _)|by apply Hb|done].
      * split; [exists "traces/in"; eapply exported_at; [exact Hat|by left]|].
        right. split; [done|]. exists TracesExportingPipelineName, pex. split; [done|by left].
    + intros m Hm. simpl. rewrite !lookup_insert_ne by set_solver. done.
    + intros m q [->|[->|[]%elem_of_nil]%elem_of_cons]%elem_of_cons.
      * rewrite Hat. intros [= <-]. split; [|by left]. split; simpl; [split; [done|]| |done].
        -- constructor; [|done]. by left.
        -- constructor; [|done]. right. split; [done|constructor].
      * rewrite Hat'. intros [= <-]. split; [|by left]. split; simpl; [split; [done|]| |done].
        -- constructor; [|done]. right. split; [done|constructor].
        -- constructor; [|done]. right. split; [done|constructor].
  - set (pin := mkPipeline ["otlp"] _ _). split; try done.
    + by left.
    + intros m Hm. simpl. rewrite lookup_insert_ne by set_solver. done.
    + intros m q Hm. simpl. rewrite lookup_insert_Some. intros [[<- <-]|[Hne Hq]]; [|by rewrite (Habs m Hm) in Hq].
      split; [|right; by apply Hlack]. split; simpl; [split; [done|]|done|done]. constructor; [|done]. by left.
Qed.
End Roots.

(** ** The streams and the root pipelines *)

(** The processors of the custom resources can run in the root pipelines. *)
Record results_ready (c : Config) (r : CrdProcessorResults) : Prop := {
  rr_version : is_Some (processors c !! "resource/odigos-version");
  rr_batch : is_Some (processors c !! GenericBatchProcessorConfigKey);
  rr_defined x :
    x ∈ TracesProcessors r ++ TracesProcessorsPostSpanMetrics r ++ MetricsProcessors r ++ LogsProcessors r
        ++ ProfilesProcessors r -> is_Some (processors c !! x);
  rr_traces : NoDup ("resource/odigos-version" :: TracesProcessors r ++ TracesProcessorsPostSpanMetrics r
                       ++ [OdigosTraceStateProcessorName]);
  rr_metrics : NoDup (obiMetricsRenameProcessorName :: "resource/odigos-version" :: MetricsProcessors r);
  rr_logs : NoDup ("resource/odigos-version" :: LogsProcessors r);
  rr_profiles : NoDup ("resource/odigos-version" :: ProfilesProcessors r)
}.

Lemma enabled_signals_tests t e :
  isTracingEnabled (enabled_signals t e) = t ∧ isMetricsEnabled (enabled_signals t e) = by_metrics e
  ∧ isLoggingEnabled (enabled_signals t e) = by_logs e ∧ isProfilingEnabled (enabled_signals t e) = by_profiles e.
Proof. by destruct t, e as [[] [] [] []]. Qed.

Lemma has_prefix_app p a b : has_prefix (p +:+ a) (p +:+ b) = has_prefix a b.
Proof.
  induction p as [|x p IH]; [done|]. rewrite !str_app_cons. cbn [has_prefix]. by rewrite bool_decide_eq_true_2, IH.
Qed.

Section Routes.
Context `{GoSortLaws} `{GoMapOrderLaws}.
Context (c00 : Config) (suffix : ExporterConfigurer -> string) (dests : list Destination).
Abbreviation streams := (ds_Name <$> calculateDataStreams dests).
Context (K : list string) (s : DestLoop) (Hloop : loop_inv c00 suffix (to_exporter <$> dests) K [] s).
Context (HNoDup : NoDup (dest_Name <$> dests)).
Context (Hselect : forall d, d ∈ dests -> selected_streams d <> []).
Context (Hsuffix : forall d, d ∈ dests -> (suffix (to_exporter d) ∉ reserved_names) ∧ (suffix (to_exporter d) ∉ streams)).
Context (Hstreams : forall n, n ∈ streams -> n ∉ reserved_names).
Context (r : CrdProcessorResults) (Hready : results_ready c00 r).
Context (Hotlp : is_receiver c00 "otlp") (Hplain : forall x, is_receiver c00 x -> connector_name x = false).

Lemma dest_name n : n ∈ K -> exists d sig, d ∈ dests ∧ sig ∈ pipeline_signals ∧ n = sig +:+ "/" +:+ suffix (to_exporter d).
Proof.
  intros Hn. destruct (li_owner _ _ _ _ _ _ Hloop n) as (e & sig & (d & -> & Hd)%list_elem_of_fmap & ? & ?); [set_solver|].
  by exists d, sig.
Qed.

Lemma routes_names_ok : names_ok K streams.
Proof.
  split; [|exact Hstreams]. intros u (d & sig & Hd & Hsig & ->)%dest_name. exists sig, (suffix (to_exporter d)).
  split; [done|split; [done|]]. by apply Hsuffix.
Qed.

Lemma stream_signal_iff sig : sig ∈ stream_signals <-> sig ∈ pipeline_signals.
Proof. unfold stream_signals, pipeline_signals. set_solver. Qed.

(** A connector of a stream's pipeline leads to a destination of its signal. *)
Lemma stream_export sig l x :
  sig ∈ pipeline_signals -> x ∈ stream_exporters sig l (dl_forward s) -> exists u, (u ∈ K) ∧ x = "forward/" +:+ u ∧ signal_of u = sig.
Proof.
  intros Hsig (d & l' & _ & Hl & Hx & Hp)%stream_exporters_elem.
  destruct (li_sound _ _ _ _ _ _ Hloop _ _ _ Hl Hx) as (u & Hu & ->). exists u. split_and!; [done|done|].
  rewrite has_prefix_app in Hp. destruct (dest_name u Hu) as (e & sig' & _ & Hsig' & ->).
  rewrite has_prefix_signal in Hp by done. apply bool_decide_eq_true in Hp as ->. by apply signal_of_app.
Qed.

(** Every pipeline of a destination is behind a stream of its signal. *)
Lemma stream_of u :
  u ∈ K -> exists st p, (st ∈ streams)
    ∧ buildDataStreamPipelines (calculateDataStreams dests) (dl_forward s) !! (signal_of u +:+ "/" +:+ st) = Some p
    ∧ Receivers p = ["odigosrouterconnector/" +:+ signal_of u] ∧ ("forward/" +:+ u) ∈ Exporters p.
Proof.
  intros Hu. destruct (li_complete _ _ _ _ _ _ Hloop u Hu) as (e & sig & l & (d & -> & Hd)%list_elem_of_fmap & Hsig & Hn & Hl & Hin).
  assert (Hs : signal_of u = sig) by (rewrite Hn; by apply signal_of_app). rewrite Hs.
  destruct (selected_streams d) as [|st sel] eqn:Esel; [by destruct (Hselect d Hd)|].
  assert (Hst : DataStreams.in_stream dests st (mkStreamDestination (dest_Name d) (dest_Signals d))).
  { exists d. split_and!; [done| |done]. rewrite Esel. by left. }
  apply data_streams_elem in Hst as (ds & Hds & <- & Hx); [|done]. exists (ds_Name ds), (stream_pipeline sig ds (dl_forward s)).
  assert (Hexp : ("forward/" +:+ u) ∈ stream_exporters sig (ds_Destinations ds) (dl_forward s)).
  { apply stream_exporters_elem. eexists _, l. split_and!; [exact Hx|exact Hl|done|].
    rewrite has_prefix_app, Hn. rewrite has_prefix_signal by done. by apply bool_decide_eq_true. }
  split_and!; [by apply list_elem_of_fmap_2| |done|done].
  apply build_at; [apply data_stream_names|done|by apply stream_signal_iff|].
  intros E. simpl in E. rewrite E in Hexp. by apply elem_of_nil in Hexp.
Qed.

(** *** Before the root pipelines *)
Context (t : bool) (Ht : by_traces (dl_enabled s) = true -> t = true).
Definition with_streams : Config :=
  set_pipelines (union (buildDataStreamPipelines (calculateDataStreams dests) (dl_forward s)))
    (if t then set_processors (insert OdigosTraceStateProcessorName (GMap (gm []))) (dl_config s) else dl_config s).

Lemma ws_receivers : receivers with_streams = receivers c00.
Proof. unfold with_streams. destruct t; apply Hloop. Qed.
Lemma ws_exporters : exporters with_streams = exporters (dl_config s).
Proof. unfold with_streams. by destruct t. Qed.
Lemma ws_connectors : connectors with_streams = connectors (dl_config s).
Proof. unfold with_streams. by destruct t. Qed.
Lemma ws_pipelines :
  pipelines with_streams = buildDataStreamPipelines (calculateDataStreams dests) (dl_forward s) ∪ pipelines (dl_config s).
Proof. unfold with_streams. by destruct t. Qed.
Lemma ws_extensions : Forall (fun x => is_Some (extensions with_streams !! x)) (service_extensions with_streams).
Proof. unfold with_streams. destruct t; apply Hloop. Qed.
Lemma ws_loop_processors x : is_Some (processors (dl_config s) !! x) -> is_Some (processors with_streams !! x).
Proof. intros Hx. unfold with_streams. destruct t; simpl; [by apply insert_is_Some|done]. Qed.
Lemma ws_processors x : is_Some (processors c00 !! x) -> is_Some (processors with_streams !! x).
Proof. intros Hx. by apply ws_loop_processors, (li_processors _ _ _ _ _ _ Hloop). Qed.
Lemma ws_tracestate : t = true -> is_Some (processors with_streams !! OdigosTraceStateProcessorName).
Proof. intros E. unfold with_streams. rewrite E. simpl. rewrite lookup_insert_eq. by eexists. Qed.

Lemma ws_inv n p :
  pipelines with_streams !! n = Some p ->
  (exists sig ds, sig ∈ pipeline_signals ∧ ds ∈ calculateDataStreams dests ∧ n = sig +:+ "/" +:+ ds_Name ds
                  ∧ p = stream_pipeline sig ds (dl_forward s) ∧ Exporters p <> [])
  ∨ (n ∈ K) ∧ connected (dl_config s) n p.
Proof.
  rewrite ws_pipelines. intros [Hn|[_ Hn]]%lookup_union_Some_raw.
  - left. apply build_inv in Hn as (ds & sig & ? & Hsig%stream_signal_iff & ?). by exists sig, ds.
  - right. by destruct (li_pipelines _ _ _ _ _ _ Hloop n p Hn) as [?|[[]%elem_of_nil _]].
Qed.

Lemma ws_gateway_absent n : n ∈ gateway_pipelines -> pipelines with_streams !! n = None.
Proof.
  intros Hn. apply eq_None_not_Some. intros [p [(sig & ds & Hsig & Hds & -> & _)|[Hk _]]%ws_inv].
  - eapply own_suffix; [exact Hsig| |exact Hn|done]. apply Hstreams. by apply list_elem_of_fmap_2.
  - destruct (dest_name n Hk) as (d & sig & Hd & Hsig & ->). eapply own_suffix; [exact Hsig| |exact Hn|done].
    by apply Hsuffix.
Qed.

Lemma ws_dest u : u ∈ K -> exists p, pipelines with_streams !! u = Some p ∧ connected (dl_config s) u p.
Proof.
  intros Hu. destruct (li_known _ _ _ _ _ _ Hloop u) as [p Hp]; [set_solver|]. exists p.
  destruct (li_pipelines _ _ _ _ _ _ Hloop u p Hp) as [[_ Hc]|[[]%elem_of_nil _]]. split; [|done].
  rewrite ws_pipelines. apply lookup_union_Some_raw. right. split; [|done].
  apply eq_None_not_Some. intros [q (ds & sig & Hds & Hsig%stream_signal_iff & E & _)%build_inv].
  destruct (dest_name u Hu) as (d & sig' & Hd & Hsig' & E'). rewrite E' in E. apply pipeline_name_inj in E as [_ E]; [|done..].
  destruct (Hsuffix d Hd) as [_ []]. rewrite E. by apply list_elem_of_fmap_2.
Qed.

(** *** The root pipelines *)
Context (o : GatewayConfigOptions) (Ht' : t = true -> by_traces (dl_enabled s) = false -> traceAggregationNeeded o = true).
Definition lacking_traces : list string := if by_traces (dl_enabled s) then [] else ["traces/in"].
Definition post_forward : list string :=
  TracesProcessorsPostSpanMetrics r ++ (if t then [OdigosTraceStateProcessorName] else []).
Definition with_roots : Config :=
  insertRootPipelinesToConfig (TracesProcessors r) post_forward (MetricsProcessors r) (LogsProcessors r)
    (ProfilesProcessors r) (enabled_signals t (dl_enabled s)) (by_traces (dl_enabled s)) o with_streams.

Lemma ws_otlp : is_receiver with_streams "otlp".
Proof. unfold is_receiver. by rewrite ws_receivers. Qed.

Lemma ready_in ps :
  (forall x, x ∈ ps -> is_Some (processors with_streams !! x)) -> NoDup ("resource/odigos-version" :: ps) ->
  root_processors with_streams ps.
Proof.
  intros Hps Hnd. split; [|done]. constructor; [by apply ws_processors, Hready|]. by apply Forall_forall.
Qed.

Lemma traces_ready : t = true -> root_processors with_streams (TracesProcessors r ++ post_forward).
Proof.
  intros E. apply ready_in; unfold post_forward; rewrite E; [|apply Hready].
  intros x [Hx|[Hx| ->%list_elem_of_singleton]%elem_of_app]%elem_of_app; [| |by apply ws_tracestate];
    apply ws_processors, (rr_defined _ _ Hready); set_solver.
Qed.

Lemma traces_added :
  t = true ->
  roots_added K streams lacking_traces ["traces/in"; TracesExportingPipelineName] with_streams
    (if traceAggregationNeeded o
     then applySplitTracesRootPipelines (TracesProcessors r) post_forward (OdigosConfigExtensionName o)
            (by_traces (dl_enabled s)) with_streams
     else applyRootPipelineForSignal TracesObservabilitySignal (TracesProcessors r ++ post_forward)
            (OdigosConfigExtensionName o) with_streams).
Proof using All.
  intros Et. pose proof (traces_ready Et) as Hps.
  assert (Habs : forall n, n ∈ ["traces/in"; TracesExportingPipelineName] -> pipelines with_streams !! n = None).
  { intros n Hn. apply ws_gateway_absent. unfold gateway_pipelines. set_solver. }
  pose proof (eb_traces _ _ (li_enabled _ _ _ _ _ _ Hloop)) as Hcar.
  destruct (traceAggregationNeeded o) eqn:Ea.
  - apply split_added; [by apply Hcar| |apply ws_otlp|done|done].
    intros E. unfold lacking_traces. rewrite E. by left.
  - assert (Eb : by_traces (dl_enabled s) = true).
    { apply not_false_iff_true. intros Eb. pose proof (Ht' Et Eb). congruence. }
    pose proof (root_added K streams lacking_traces TracesObservabilitySignal "traces"
      (TracesProcessors r ++ post_forward) (OdigosConfigExtensionName o) with_streams) as Hroot.
    apply roots_more with (L := ["traces/in"]); [|set_solver|done].
    apply Hroot; [by apply (bool_decide_unpack _)|done|done|by apply Hcar|apply ws_otlp|done|].
    apply Habs. by left.
Qed.

Definition all_roots : list string :=
  ["traces/in"; TracesExportingPipelineName] ++ ["metrics/in"] ++ ["logs/in"] ++ ["profiles/in"].

(** The root pipeline of a signal other than traces. *)
Lemma signal_added L c signal sig (b : bool) ps :
  roots_added K streams lacking_traces L with_streams c -> (sig +:+ "/in") ∉ L -> (sig +:+ "/in") ∈ gateway_pipelines ->
  sig ∈ pipeline_signals -> to_lower signal = sig -> GetTelemetryRootPipelineName signal = sig +:+ "/in" ->
  (b = true -> carries K sig) -> root_processors with_streams ps ->
  roots_added K streams lacking_traces (L ++ [sig +:+ "/in"]) with_streams
    (if b then applyRootPipelineForSignal signal ps (OdigosConfigExtensionName o) c else c).
Proof.
  intros R HL Hg Hsig Hlow Hname Hcar Hps. eapply roots_trans; [exact R| |].
  - assert (Habs : pipelines c !! (sig +:+ "/in") = None).
    { rewrite (ra_old _ _ _ _ _ _ R) by done. by apply ws_gateway_absent. }
    apply roots_if; [by intros n ->%list_elem_of_singleton|]. intros Eb. apply root_added; auto.
    + unfold is_receiver. rewrite (ra_receivers _ _ _ _ _ _ R). apply ws_otlp.
    + unfold root_processors. rewrite (ra_processors _ _ _ _ _ _ R). exact Hps.
  - intros n Hn ->%list_elem_of_singleton. done.
Qed.

Lemma roots_all : roots_added K streams lacking_traces all_roots with_streams with_roots.
Proof using All.
  unfold with_roots, insertRootPipelinesToConfig.
  destruct (enabled_signals_tests t (dl_enabled s)) as (-> & -> & -> & ->).
  pose proof (li_enabled _ _ _ _ _ _ Hloop) as [_ Hm Hl Hp].
  assert (Hps : forall ps, (forall x, x ∈ ps -> x ∈ TracesProcessors r ++ TracesProcessorsPostSpanMetrics r
      ++ MetricsProcessors r ++ LogsProcessors r ++ ProfilesProcessors r) ->
      NoDup ("resource/odigos-version" :: ps) -> root_processors with_streams ps).
  { intros ps Hsub Hnd. apply ready_in; [|done]. intros x Hx. by apply ws_processors, (rr_defined _ _ Hready), Hsub. }
  assert (Hmn : NoDup ("resource/odigos-version" :: MetricsProcessors r))
    by (pose proof (rr_metrics _ _ Hready) as [_ ?]%NoDup_cons; done).
  unfold all_roots. rewrite !app_assoc.
  apply (signal_added _ _ ProfilesObservabilitySignal "profiles");
    [|try (by apply (bool_decide_unpack _))..|done|done|apply Hp|apply Hps; [set_solver|apply Hready]].
  apply (signal_added _ _ LogsObservabilitySignal "logs");
    [|try (by apply (bool_decide_unpack _))..|done|done|apply Hl|apply Hps; [set_solver|apply Hready]].
  apply (signal_added _ _ MetricsObservabilitySignal "metrics");
    [|try (by apply (bool_decide_unpack _))..|done|done|apply Hm|apply Hps; [set_solver|done]].
  apply roots_if; [|apply traces_added].
  intros n Hn. apply ws_gateway_absent. unfold gateway_pipelines. set_solver.
Qed.

(** *** All routes *)
Lemma roots_connector u : u ∈ K -> is_connector with_roots ("forward/" +:+ u).
Proof.
  intros Hu. apply (ra_connectors _ _ _ _ _ _ roots_all). unfold is_connector. rewrite ws_connectors.
  apply (li_connectors _ _ _ _ _ _ Hloop). by exists u.
Qed.

Lemma roots_router sig : sig ∈ pipeline_signals -> carries K sig -> is_connector with_roots ("odigosrouterconnector/" +:+ sig).
Proof using All.
  intros Hsig Hcar. unfold with_roots, insertRootPipelinesToConfig.
  destruct (enabled_signals_tests t (dl_enabled s)) as (-> & -> & -> & ->).
  pose proof (li_enabled _ _ _ _ _ _ Hloop) as [Et Em El Ep].
  assert (Hins : forall signal ps ext c x, is_connector c x -> is_connector (applyRootPipelineForSignal signal ps ext c) x).
  { intros signal ps ext c x Hx. unfold is_connector. simpl. by apply insert_is_Some. }
  assert (Hat : forall signal ps ext c, is_connector (applyRootPipelineForSignal signal ps ext c) ("odigosrouterconnector/" +:+ to_lower signal)).
  { intros signal ps ext c. unfold is_connector. simpl. rewrite lookup_insert_eq. by eexists. }
  assert (Hif : forall (b : bool) signal ps ext c x, is_connector c x ->
      is_connector (if b then applyRootPipelineForSignal signal ps ext c else c) x) by (intros []; auto).
  unfold pipeline_signals in Hsig. repeat (apply elem_of_cons in Hsig as [->|Hsig]; [|]); [..|by apply elem_of_nil in Hsig].
  - do 3 apply Hif. apply Et in Hcar. rewrite (Ht Hcar). rewrite Hcar.
    destruct (traceAggregationNeeded o); [|apply (Hat TracesObservabilitySignal)].
    unfold applySplitTracesRootPipelines. destruct (splitTracesProcessorsForPipelines _ _) as [? ?]. cbn [negb].
    unfold is_connector. simpl. rewrite lookup_insert_eq. by eexists.
  - do 2 apply Hif. apply Em in Hcar. rewrite Hcar. apply (Hat MetricsObservabilitySignal).
  - apply Hif. apply El in Hcar. rewrite Hcar. apply (Hat LogsObservabilitySignal).
  - apply Ep in Hcar. rewrite Hcar. apply (Hat ProfilesObservabilitySignal).
Qed.

Lemma stream_open n p c :
  (exists sig ds, sig ∈ pipeline_signals ∧ ds ∈ calculateDataStreams dests ∧ n = sig +:+ "/" +:+ ds_Name ds
                  ∧ p = stream_pipeline sig ds (dl_forward s) ∧ Exporters p <> []) ->
  is_Some (processors c !! GenericBatchProcessorConfigKey) ->
  (forall u, u ∈ K -> is_connector c ("forward/" +:+ u)) ->
  (forall sig, sig ∈ pipeline_signals -> carries K sig -> is_connector c ("odigosrouterconnector/" +:+ sig)) ->
  pipeline_open K streams c n p.
Proof using All.
  intros (sig & ds & Hsig & Hds & -> & -> & Hne) Hbatch Hfwd Hrouter.
  assert (Hst : ds_Name ds ∈ streams) by by apply list_elem_of_fmap_2. simpl in Hne.
  split; simpl.
  - split; [done|]. constructor; [|done]. right. split; [|by constructor]. apply Hrouter; [done|].
    destruct (stream_exporters sig (ds_Destinations ds) (dl_forward s)) as [|x l] eqn:E; [done|].
    destruct (stream_export sig (ds_Destinations ds) x Hsig) as (u & Hu & _ & Hs); [rewrite E; by left|]. by exists u.
  - apply Forall_forall. intros x (u & Hu & -> & Hs)%stream_export; [|done]. right. split; [by apply Hfwd|].
    by constructor.
  - destruct (decide _); [|by split; constructor]. split; [by constructor|apply NoDup_singleton].
Qed.

Lemma dest_open u p c :
  u ∈ K -> connected (dl_config s) u p ->
  (forall x, is_exporter (dl_config s) x -> is_exporter c x) ->
  (forall x, is_Some (processors (dl_config s) !! x) -> is_Some (processors c !! x)) ->
  is_connector c ("forward/" +:+ u) -> pipeline_open K streams c u p.
Proof.
  intros Hu [Hr [_ Hf] [Hp Hnd]] Hx Hproc Hc. split.
  - rewrite Hr. split; [done|]. constructor; [|done]. right. split; [done|]. by constructor.
  - eapply Forall_impl; [exact Hf|]. intros x He. left. by apply Hx.
  - split; [|done]. eapply Forall_impl; [exact Hp|]. intros x [He _]. by apply Hproc.
Qed.

Lemma roots_inv n p :
  pipelines with_roots !! n = Some p -> (n ∈ all_roots) ∨ (n ∉ all_roots) ∧ pipelines with_streams !! n = Some p.
Proof.
  intros Hp. destruct (decide (n ∈ all_roots)); [by left|right]. split; [done|].
  by rewrite <-(ra_old _ _ _ _ _ _ roots_all).
Qed.

Lemma roots_routed : routed K streams lacking_traces with_roots.
Proof using All.
  pose proof roots_all as R. pose proof (roots_grows _ _ _ _ _ _ R) as G.
  assert (Hdest : forall u, u ∈ K -> exists p, pipelines with_roots !! u = Some p ∧ connected (dl_config s) u p).
  { intros u Hu. destruct (ws_dest u Hu) as (p & Hp & Hc). exists p. split; [|done].
    rewrite (ra_old _ _ _ _ _ _ R); [done|]. intros Hin. by rewrite (ra_absent _ _ _ _ _ _ R u Hin) in Hp. }
  assert (Hstream : forall u, u ∈ K -> exists st p, (st ∈ streams) ∧ pipelines with_roots !! (signal_of u +:+ "/" +:+ st) = Some p
      ∧ Receivers p = ["odigosrouterconnector/" +:+ signal_of u] ∧ ("forward/" +:+ u) ∈ Exporters p).
  { intros u Hu. destruct (stream_of u Hu) as (st & p & Hst & Hp & Hrx). exists st, p. split_and!; [done| |apply Hrx..].
    assert (Hw : pipelines with_streams !! (signal_of u +:+ "/" +:+ st) = Some p).
    { rewrite ws_pipelines. apply lookup_union_Some_raw. by left. }
    rewrite (ra_old _ _ _ _ _ _ R); [done|]. intros Hin. by rewrite (ra_absent _ _ _ _ _ _ R _ Hin) in Hw. }
  split.
  - split.
    + intros n p Hnp. destruct (roots_inv n p Hnp) as [Hn|[Hn Hp]]; [|destruct (ws_inv n p Hp) as [Hst|[Hk Hc]]].
      * by eapply (ra_new _ _ _ _ _ _ R).
      * apply stream_open; [done| |apply roots_connector|apply roots_router].
        apply (gr_processors _ _ G), ws_processors, Hready.
      * eapply dest_open; [done|exact Hc| | |by apply roots_connector].
        -- intros x Hx. apply (gr_exporters _ _ G). unfold is_exporter. by rewrite ws_exporters.
        -- intros x Hx. by apply (gr_processors _ _ G), ws_loop_processors.
    + rewrite (ra_service _ _ _ _ _ _ R), (ra_extensions _ _ _ _ _ _ R). apply ws_extensions.
    + intros x. unfold is_receiver, is_exporter. rewrite (ra_receivers _ _ _ _ _ _ R), (ra_exporters _ _ _ _ _ _ R).
      rewrite ws_receivers, ws_exporters. intros [Hx|Hx]; [by apply Hplain|]. by apply (li_exporters _ _ _ _ _ _ Hloop).
    + intros x [Hx|[_ Hx]]%(ra_new_connectors _ _ _ _ _ _ R).
      * unfold is_connector in Hx. rewrite ws_connectors in Hx.
        by apply (li_connectors _ _ _ _ _ _ Hloop) in Hx as (u & _ & ->).
      * by destruct Hx as [(sig & _ & _ & ->)|[-> _]].
  - intros n p Hp. destruct (roots_inv n p Hp) as [Hn|[_ Hw]]; [by eapply (ra_new _ _ _ _ _ _ R)|].
    left. destruct (ws_inv n p Hw) as [(? & ? & _ & _ & _ & _ & Hne)|[_ Hc]]; [done|apply Hc].
  - intros x [Hx|[Hx Hr]]%(ra_new_connectors _ _ _ _ _ _ R).
    + unfold is_connector in Hx. rewrite ws_connectors in Hx.
      apply (li_connectors _ _ _ _ _ _ Hloop) in Hx as (u & Hu & ->). split.
      * destruct (Hstream u Hu) as (st & p & _ & Hp & _ & Hin). eexists. by exists p.
      * destruct (Hdest u Hu) as (p & Hp & Hc). exists u, p. split; [done|]. rewrite (cn_receivers _ _ _ Hc). by left.
    + split; [done|]. destruct Hr as [(sig & Hsig & (u & Hu & Es) & ->)|[_ ?]]; [|done].
      destruct (Hstream u Hu) as (st & p & _ & Hp & Hr & _). eexists. exists p. split; [exact Hp|]. rewrite Hr, Es. by left.
Qed.

(** The names of the pipelines. *)
Lemma roots_names n :
  is_Some (pipelines with_roots !! n) -> n ∈ all_roots ∨ exists sig st, sig ∈ pipeline_signals ∧ n = sig +:+ "/" +:+ st ∧ st ∉ reserved_names.
Proof using All.
  intros [p [Hn|[_ [(sig & ds & ? & ? & ? & _)|[Hk _]]%ws_inv]]%roots_inv]; [by left|right..].
  - exists sig, (ds_Name ds). split_and!; [done..|]. apply Hstreams. by apply list_elem_of_fmap_2.
  - destruct (dest_name n Hk) as (d & sig & Hd & ? & ?). exists sig, (suffix (to_exporter d)). split_and!; [done..|]. by apply Hsuffix.
Qed.

Lemma roots_traces : t = true -> is_Some (pipelines with_roots !! "traces/in").
Proof using All.
  intros Et. unfold with_roots, insertRootPipelinesToConfig.
  destruct (enabled_signals_tests t (dl_enabled s)) as (-> & -> & -> & ->). rewrite Et.
  assert (Hif : forall (b : bool) signal ps ext c n, is_Some (pipelines c !! n) ->
      is_Some (pipelines (if b then applyRootPipelineForSignal signal ps ext c else c) !! n)).
  { intros [] signal ps ext c n Hn; [|done]. simpl. by apply insert_is_Some. }
  do 3 apply Hif. destruct (traceAggregationNeeded o).
  - unfold applySplitTracesRootPipelines. destruct (splitTracesProcessorsForPipelines _ _) as [? ?]. destruct (by_traces _); cbn [negb].
    + simpl. apply insert_is_Some. rewrite lookup_insert_eq. by eexists.
    + simpl. rewrite lookup_insert_eq. by eexists.
  - simpl. rewrite lookup_insert_eq. by eexists.
Qed.

Lemma roots_no_traces : t = false -> pipelines with_roots !! "traces/in" = None.
Proof using All.
  intros Et. unfold with_roots, insertRootPipelinesToConfig.
  destruct (enabled_signals_tests t (dl_enabled s)) as (-> & -> & -> & ->). rewrite Et.
  assert (Hws : pipelines with_streams !! "traces/in" = None) by (apply ws_gateway_absent; by apply (bool_decide_unpack _)).
  destruct (by_profiles _), (by_logs _), (by_metrics _); simpl; by rewrite ?lookup_insert_ne.
Qed.

Lemma roots_receivers : receivers with_roots = receivers c00.
Proof using All. rewrite (ra_receivers _ _ _ _ _ _ roots_all). apply ws_receivers. Qed.

(** The traffic of a destination's pipeline is not measured yet. *)
Lemma roots_not_run u : u ∈ K -> not_run "odigostrafficmetrics" u with_roots.
Proof using All.
  intros Hu p [Hn|[_ [(sig & ds & ? & _ & -> & -> & _)|[_ Hc]]%ws_inv]]%roots_inv.
  - destruct (ws_dest u Hu) as (q & Hq & _). by rewrite (ra_absent _ _ _ _ _ _ roots_all u Hn) in Hq.
  - simpl. destruct (decide _); set_solver.
  - destruct (cn_processors _ _ _ Hc) as [Hp _]. rewrite Forall_forall in Hp. intros Hin. by apply Hp in Hin as [_ ?].
Qed.

Lemma roots_rename : not_run obiMetricsRenameProcessorName "metrics/in" with_roots.
Proof using All.
  pose proof (rr_metrics _ _ Hready) as [Hm%not_elem_of_cons _]%NoDup_cons.
  assert (Hws : pipelines with_streams !! "metrics/in" = None) by (apply ws_gateway_absent; by apply (bool_decide_unpack _)).
  intros p. unfold with_roots, insertRootPipelinesToConfig.
  destruct (enabled_signals_tests t (dl_enabled s)) as (-> & -> & -> & ->).
  set (c1 := if t then _ else _).
  assert (Hc1 : pipelines c1 !! "metrics/in" = None).
  { unfold c1. destruct t; [|done]. destruct (traceAggregationNeeded o); [|simpl; by rewrite lookup_insert_ne].
    unfold applySplitTracesRootPipelines. destruct (splitTracesProcessorsForPipelines _ _) as [? ?].
    destruct (by_traces _); simpl; by rewrite !lookup_insert_ne. }
  clearbody c1.
  destruct (by_profiles _), (by_logs _), (by_metrics _); simpl; rewrite ?lookup_insert_ne by done;
    rewrite ?lookup_insert_eq, ?Hc1; intros [= <-]; simpl; naive_solver set_solver.
Qed.
End Routes.
