(* ===== verification/GatewayProcessors.v ===== *)
(** * The stages behind the routes

    The gateway's own telemetry and the optional parts of the configuration
    keep a routed configuration routed. *)


From Stdlib Require Import Ascii.
From S2P Require Import Prelude.
From S2P Require Import GoStrings.
From S2P Require Import GoSort.
From S2P Require Import K8s.
From S2P Require Import Api.
From S2P Require Import GoLib.
From S2P Require Import CollectorConfig.
From S2P Require Import Destinations.
From S2P Require Import DataStreams.
From S2P Require Import GatewayConfig.
From S2P Require Import GatewayTelemetry.
From S2P Require Import GatewayValid.
From S2P Require Import GatewayRoutes.
From S2P Require Import GatewayRoots.

Section Stages.
Context (U S : list string).

(** A routed configuration in which the pipelines [P] are there and the
    pipelines [A] are not. *)
Record stage (P A lacking : list string) (c : Config) : Prop := {
  sg_routed : routed U S lacking c;
  sg_present n : n ∈ P -> is_Some (pipelines c !! n);
  sg_absent n : n ∈ A -> pipelines c !! n = None
}.

(** ** Single steps *)

Lemma stage_step P A lacking c c' :
  stage P A lacking c -> grows c c' -> config_open U S c' -> (forall x, is_connector c' x -> is_connector c x) ->
  (forall n p, pipelines c' !! n = Some p -> Exporters p <> [] ∨ n ∈ lacking) ->
  (forall n, n ∈ A -> pipelines c' !! n = None) -> stage P A lacking c'.
Proof.
  intros [[_ _ Hc] Hp _] Hg Ho Hc' Hx Ha. split; [split|..]; try done.
  - intros x Hx'. apply Hc', Hc in Hx' as [[n Hn] [m Hm]].
    split; [exists n; by eapply grows_exported|exists m; by eapply grows_received].
  - intros n [p Hn]%Hp. destruct (gr_pipelines _ _ Hg n p Hn) as (p' & Hp' & _). by exists p'.
Qed.

Lemma stage_components P A lacking c c' :
  stage P A lacking c -> grows c c' -> config_open U S c' -> connectors c' = connectors c ->
  pipelines c' = pipelines c -> stage P A lacking c'.
Proof.
  intros Hs Hg Ho Hc Hp. eapply stage_step; [exact Hs|done|done| | |].
  - intros x. unfold is_connector. by rewrite Hc.
  - rewrite Hp. apply Hs.
  - rewrite Hp. apply Hs.
Qed.

Lemma stage_receiver P A lacking n v c :
  connector_name n = false -> stage P A lacking c -> stage P A lacking (set_receivers (insert n v) c).
Proof. intros Hn Hs. eapply stage_components; [done|apply grows_receiver|apply open_receiver; [done|apply Hs]|done..]. Qed.
Lemma stage_exporter P A lacking n v c :
  connector_name n = false -> stage P A lacking c -> stage P A lacking (set_exporters (insert n v) c).
Proof. intros Hn Hs. eapply stage_components; [done|apply grows_exporter|apply open_exporter; [done|apply Hs]|done..]. Qed.
Lemma stage_processor P A lacking n v c : stage P A lacking c -> stage P A lacking (set_processors (insert n v) c).
Proof. intros Hs. eapply stage_components; [done|apply grows_processor|apply open_processor; apply Hs|done..]. Qed.
Lemma stage_telemetry P A lacking f c : stage P A lacking c -> stage P A lacking (set_telemetry f c).
Proof. intros Hs. eapply stage_components; [done|apply grows_telemetry|apply open_telemetry; apply Hs|done..]. Qed.
Lemma stage_extension P A lacking n v (f : list string -> list string) c :
  (forall x, x ∈ f (service_extensions c) -> x = n ∨ x ∈ service_extensions c) -> stage P A lacking c ->
  stage P A lacking (set_service_extensions f (set_extensions (insert n v) c)).
Proof.
  intros Hf Hs. eapply stage_components; [done| |apply open_extension; [done|apply Hs]|done..].
  by apply grows_same_pipelines.
Qed.

(** A new pipeline. *)
Lemma stage_pipeline P A lacking n p c :
  n ∈ A -> pipeline_open U S c n p -> Exporters p <> [] -> stage P A lacking c ->
  stage P (filter (fun m => m <> n) A) lacking (set_pipeline n p c).
Proof.
  intros Hn Hp Hx Hs.
  assert (Hs' : stage P (filter (fun m => m <> n) A) lacking c).
  { destruct Hs as [Hr Hpr Ha]. split; [done|done|]. intros m [_ Hm]%list_elem_of_filter. by apply Ha. }
  pose proof (sg_absent _ _ _ _ Hs n Hn) as Habs. eapply stage_step; [exact Hs'| |apply open_pipeline; [done|apply Hs]|done| |].
  - apply grows_pipeline. intros p0. by rewrite Habs.
  - intros m q. simpl. rewrite lookup_insert_Some. intros [[<- <-]|[_ Hq]]; [by left|]. by eapply Hs.
  - intros m [Hm Hin]%list_elem_of_filter. simpl. rewrite lookup_insert_ne by done. by apply Hs.
Qed.

(** A change of a pipeline that is there. *)
Lemma stage_change P A lacking n p p' c :
  pipelines c !! n = Some p -> pipeline_open U S c n p' -> more (Receivers p) (Receivers p') ->
  more (Exporters p) (Exporters p') -> stage P A lacking c -> stage P A lacking (set_pipeline n p' c).
Proof.
  intros Hp Hp' Hr Hx Hs. eapply stage_step; [exact Hs| |apply open_pipeline; [done|apply Hs]|done| |].
  - apply grows_pipeline. intros p0. rewrite Hp. by intros [= <-].
  - intros m q. simpl. rewrite lookup_insert_Some. intros [[<- <-]|[_ Hq]]; [|by eapply Hs].
    destruct (rt_exporters _ _ _ _ (sg_routed _ _ _ _ Hs) n p Hp) as [Hne|]; [left|by right].
    intros E. destruct (Exporters p) as [|x l]; [done|]. specialize (Hx x). rewrite E in Hx. set_solver.
  - intros m Hm. simpl. apply lookup_insert_None. split; [by apply Hs|]. intros <-.
    by rewrite (sg_absent _ _ _ _ Hs n Hm) in Hp.
Qed.

Lemma stage_open P A lacking c n p : stage P A lacking c -> pipelines c !! n = Some p -> pipeline_open U S c n p.
Proof. intros Hs. by apply Hs. Qed.

(** A pipeline of plain components. *)
Lemma plain_open c n rs ps es :
  rs <> [] -> Forall (is_receiver c) rs -> Forall (is_exporter c) es ->
  Forall (fun x => is_Some (processors c !! x)) ps -> NoDup ps -> pipeline_open U S c n (mkPipeline rs ps es).
Proof.
  intros Hr Fr Fe Fp Hnd. split; simpl; [split; [done|]| |done].
  - eapply Forall_impl; [exact Fr|]. by left.
  - eapply Forall_impl; [exact Fe|]. by left.
Qed.

(** A connector with both ends: pipeline [n] exports to it, the new pipeline
    [m] receives from it. *)
Lemma stage_connect P A lacking x v n p es m q c :
  stage P A lacking c -> connector_name x = true ->
  pipelines c !! n = Some p -> link_out U S x n -> x ∈ es ->
  more (Exporters p) es -> (forall y, y ∈ es -> y = x ∨ y ∈ Exporters p) ->
  m ∈ A -> link_in U S x m -> Receivers q = [x] -> Exporters q <> [] -> Forall (is_exporter c) (Exporters q) ->
  Forall (fun y => is_Some (processors c !! y)) (Processors q) -> NoDup (Processors q) ->
  stage P (filter (fun k => k <> m) A) lacking
    (set_pipeline n (mkPipeline (Receivers p) (Processors p) es)
       (set_pipeline m q (set_connectors (insert x v) c))).
Proof.
  intros Hs Hx Hp Hout Hin Hmore Hes Hm Hlin Hrq Hne Feq Fpq Hnd.
  pose proof (sg_absent _ _ _ _ Hs m Hm) as Habs. assert (Hnm : n <> m) by congruence.
  set (c1 := set_connectors (insert x v) c).
  assert (Ho1 : config_open U S c1) by (apply open_connector; [done|apply Hs]).
  assert (Hc1 : is_connector c1 x) by (unfold is_connector; simpl; rewrite lookup_insert_eq; by eexists).
  set (c2 := set_pipeline m q c1).
  assert (Ho2 : config_open U S c2).
  { apply open_pipeline; [|done]. split; [|eapply Forall_impl; [exact Feq|]; by left|by split].
    rewrite Hrq. split; [done|]. constructor; [|done]. by right. }
  set (p' := mkPipeline (Receivers p) (Processors p) es). set (c3 := set_pipeline n p' c2).
  assert (Hp2 : pipelines c2 !! n = Some p) by (unfold c2; simpl; by rewrite lookup_insert_ne).
  assert (Ho3 : config_open U S c3).
  { apply open_pipeline; [|done]. destruct (co_pipelines _ _ _ Ho2 n p Hp2) as [Hr Hf Hpr]. split; [done| |done].
    simpl. apply Forall_forall. intros y [->|Hy]%Hes; [by right|]. rewrite Forall_forall in Hf. by apply Hf. }
  assert (Hg : grows c c3).
  { etrans; [apply grows_connector|]. etrans; [apply (grows_pipeline m q); simpl; by rewrite Habs|].
    apply grows_pipeline. fold c1 c2. rewrite Hp2. intros p0 [= <-]. by split. }
  assert (Hat : pipelines c3 !! n = Some p') by (unfold c3; simpl; by rewrite lookup_insert_eq).
  assert (Hatm : pipelines c3 !! m = Some q) by (unfold c3; simpl; by rewrite lookup_insert_ne, lookup_insert_eq).
  split; [split|..].
  - done.
  - intros k r. simpl. rewrite !lookup_insert_Some. intros [[<- <-]|[_ [[<- <-]|[_ Hk]]]].
    + left. simpl. intros ->. by apply elem_of_nil in Hin.
    + by left.
    + by eapply Hs.
  - intros y Hy. unfold is_connector in Hy. simpl in Hy. apply lookup_insert_is_Some in Hy as [<-|[_ Hy]].
    + split; [exists n, p'; done|]. exists m, q. rewrite Hrq. split; [done|by left].
    + apply Hs in Hy as [[i Hi] [j Hj]]. split; [exists i; by eapply grows_exported|exists j; by eapply grows_received].
  - intros k [r Hk]%(sg_present _ _ _ _ Hs). destruct (gr_pipelines _ _ Hg k r Hk) as (r' & ? & _). by exists r'.
  - intros k [Hkm Hk]%list_elem_of_filter. simpl. apply lookup_insert_None. split; [apply lookup_insert_None; split; [|done]|].
    + by apply Hs.
    + intros <-. pose proof (sg_absent _ _ _ _ Hs n Hk). congruence.
Qed.

(** ** The optional parts *)

Lemma stage_servicegraph P A lacking o c :
  stage P A lacking c -> "traces/in" ∈ P -> "metrics/servicegraph" ∈ A ->
  stage P (filter (fun k => k <> "metrics/servicegraph") A) lacking (insertServiceGraphPipeline o c).
Proof.
  intros Hs HP HA. unfold insertServiceGraphPipeline.
  set (insightsOn := InsightsPipelineActive (Insights o) && _).
  set (c1 := set_exporters (insert "prometheus/servicegraph" _) c).
  assert (Hs1 : stage P A lacking c1) by by apply stage_exporter.
  assert (Hfil : forall c', stage P A lacking c' -> stage P (filter (fun k => k <> "metrics/servicegraph") A) lacking c').
  { intros c' [? ? Ha]. split; [done|done|]. intros m [_ ?]%list_elem_of_filter. by apply Ha. }
  destruct (AddServiceGraphScrapeConfig c1) as [err|c2] eqn:E; [by apply Hfil|].
  assert (Hs2 : stage P A lacking c2).
  { unfold AddServiceGraphScrapeConfig in E. repeat (case_match; try discriminate). injection E as <-. by apply stage_receiver. }
  assert (Hsg : is_exporter c2 "prometheus/servicegraph").
  { unfold AddServiceGraphScrapeConfig in E. repeat (case_match; try discriminate). injection E as <-.
    unfold is_exporter. simpl. rewrite lookup_insert_eq. by eexists. }
  clear E. set (c3 := if insightsOn then servicegraph_insights o c2 else c2).
  assert (Hs3 : stage P A lacking c3).
  { unfold c3. destruct insightsOn; [|done]. unfold servicegraph_insights. apply stage_exporter; [done|].
    destruct (processors c2 !! "resource/pod-name"); [done|]. by apply stage_processor. }
  set (q := mkPipeline [ServiceGraphConnectorName] (if insightsOn then ["resource/pod-name"] else [])
              ("prometheus/servicegraph" :: (if insightsOn then [ServiceGraphInsightsExporterName] else []))).
  assert (Hq : Forall (is_exporter c3) (Exporters q) ∧ Forall (fun y => is_Some (processors c3 !! y)) (Processors q)).
  { unfold q, c3. destruct insightsOn; simpl; [|by split; [constructor|]].
    unfold servicegraph_insights. split.
    - constructor; [|constructor; [|done]]; unfold is_exporter; simpl.
      + apply insert_is_Some. by destruct (processors c2 !! "resource/pod-name").
      + rewrite lookup_insert_eq. by eexists.
    - constructor; [|done]. simpl. destruct (processors c2 !! "resource/pod-name") eqn:Er; simpl; [by rewrite Er; eexists|].
      rewrite lookup_insert_eq. by eexists. }
  destruct Hq as [Hqe Hqp].
  set (v := GMap (servicegraph_connector insightsOn (ServiceGraph o))).
  assert (Hfinal : forall n p, pipelines c3 !! n = Some p -> n ∈ ["traces/in"; TracesExportingPipelineName] ->
      stage P (filter (fun k => k <> "metrics/servicegraph") A) lacking
        (set_pipeline n (add_exporter ServiceGraphConnectorName p)
           (set_pipeline "metrics/servicegraph" q (set_connectors (insert ServiceGraphConnectorName v) c3)))).
  { intros n p Hp Hn. eapply (stage_connect P A lacking ServiceGraphConnectorName v n p); try done.
    - by constructor.
    - set_solver.
    - intros y Hy. set_solver.
    - intros y [|Hy%list_elem_of_singleton]%elem_of_app; auto.
    - constructor.
    - unfold q. simpl. by destruct insightsOn; simpl; [apply NoDup_singleton|constructor]. }
  replace (if insightsOn then servicegraph_insights o (set_connectors (insert ServiceGraphConnectorName v) c2)
           else set_connectors (insert ServiceGraphConnectorName v) c2)
    with (set_connectors (insert ServiceGraphConnectorName v) c3).
  2: { unfold c3, servicegraph_insights. destruct insightsOn; [|done]. simpl. by destruct (processors c2 !! "resource/pod-name"). }
  fold q. set (c5 := set_pipeline "metrics/servicegraph" q _).
  assert (Hl : forall n, n ∈ ["traces/in"; TracesExportingPipelineName] -> pipelines c5 !! n = pipelines c3 !! n).
  { intros n Hn. unfold c5. simpl. apply lookup_insert_ne. intros <-. revert Hn. by apply (bool_decide_unpack _). }
  unfold tracesPipelineForDownstreamConnectors, export_from.
  rewrite (Hl TracesExportingPipelineName) by by apply (bool_decide_unpack _).
  destruct (pipelines c3 !! TracesExportingPipelineName) as [p|] eqn:E.
  - rewrite Hl, E by by apply (bool_decide_unpack _). apply Hfinal; [done|]. by apply (bool_decide_unpack _).
  - change (GetTelemetryRootPipelineName TracesObservabilitySignal) with "traces/in".
    rewrite Hl by by apply (bool_decide_unpack _). destruct (sg_present _ _ _ _ Hs3 _ HP) as [p Hp]. rewrite Hp.
    apply Hfinal; [done|]. by apply (bool_decide_unpack _).
Qed.

Lemma stage_serviceio P A lacking o c :
  stage P A lacking c -> "traces/in" ∈ P -> TraceCorrelationsMetricsPipelineName ∈ A ->
  stage P (filter (fun k => k <> TraceCorrelationsMetricsPipelineName) A) lacking
    (insertTraceCorrelationsServiceIOPipeline o c).
Proof.
  intros Hs HP HA. unfold insertTraceCorrelationsServiceIOPipeline.
  assert (Hfil : stage P (filter (fun k => k <> TraceCorrelationsMetricsPipelineName) A) lacking c).
  { destruct Hs as [? ? Ha]. split; [done|done|]. intros m [_ ?]%list_elem_of_filter. by apply Ha. }
  destruct (TraceCorrelationsServiceIO o) as [cfg|]; [|done]. destruct (negb _); [done|]. clear Hfil.
  set (v := GMap (serviceio_connector cfg (OdigosConfigExtensionName o))).
  set (c1 := set_exporters (insert TraceCorrelationsVictoriaMetricsExporterName
               (GMap (traceCorrelationsVictoriaMetricsExporter (OdigosNamespace o)))) c).
  assert (Hs1 : stage P A lacking c1) by by apply stage_exporter.
  set (q := mkPipeline [ServiceIOConnectorName] [] [TraceCorrelationsVictoriaMetricsExporterName]).
  change (GetTelemetryRootPipelineName TracesObservabilitySignal) with "traces/in".
  destruct (sg_present _ _ _ _ Hs1 _ HP) as [p Hp].
  match goal with |- context [pipelines ?x !! "traces/in"] => assert (Hl : pipelines x !! "traces/in" = Some p) end.
  { simpl. by rewrite lookup_insert_ne. }
  rewrite Hl. refine (stage_connect P A lacking ServiceIOConnectorName v "traces/in" p
    (add_if_missing ServiceIOConnectorName (Exporters p)) TraceCorrelationsMetricsPipelineName q c1 _ _ _ _ _ _ _ _ _ _ _ _ _ _);
    try done; unfold add_if_missing.
  - constructor.
  - case_decide; set_solver.
  - intros y Hy. case_decide; set_solver.
  - intros y. case_decide; set_solver.
  - constructor.
  - constructor; [|done]. unfold is_exporter. simpl. rewrite lookup_insert_eq. by eexists.
  - constructor.
Qed.

Lemma stage_add_receiver P A lacking n r p c :
  pipelines c !! n = Some p -> is_receiver c r -> stage P A lacking c -> stage P A lacking (set_pipeline n (add_receiver r p) c).
Proof.
  intros Hp Hr Hs. eapply stage_change; [exact Hp| | | |done].
  - destruct (stage_open _ _ _ _ _ _ Hs Hp) as [[Hne Hf] Hx Hpr]. split; [split|done|done].
    + simpl. by destruct (Receivers p).
    + apply Forall_app. split; [done|]. constructor; [by left|done].
  - unfold more. set_solver.
  - done.
Qed.

Lemma stage_add_exporter P A lacking n e p c :
  pipelines c !! n = Some p -> is_exporter c e -> stage P A lacking c -> stage P A lacking (set_pipeline n (add_exporter e p) c).
Proof.
  intros Hp He Hs. eapply stage_change; [exact Hp| |done| |done].
  - destruct (stage_open _ _ _ _ _ _ Hs Hp) as [Hr Hx Hpr]. split; [done| |done].
    apply Forall_app. split; [done|]. constructor; [by left|done].
  - unfold more. set_solver.
Qed.

Lemma stage_cluster_metrics P A lacking ns c :
  stage P A lacking c -> stage P A lacking (insertClusterMetricsResources ns c).
Proof.
  intros Hs. unfold insertClusterMetricsResources.
  set (c1 := set_receivers _ _).
  assert (Hs1 : stage P A lacking c1).
  { apply stage_receiver; [done|]. apply stage_extension; [|done]. intros x [?|Hx%list_elem_of_singleton]%elem_of_app; auto. }
  destruct (pipelines c1 !! _) as [p|] eqn:E; [|done]. apply stage_add_receiver; [done| |done].
  unfold is_receiver, c1. simpl. rewrite lookup_insert_eq. by eexists.
Qed.

(** A stage in which fewer pipelines are known to be absent. *)
Lemma stage_less P A A' lacking c : (forall n, n ∈ A' -> n ∈ A) -> stage P A lacking c -> stage P A' lacking c.
Proof. intros Hsub [? ? Ha]. split; auto. Qed.

Lemma stage_optional P A lacking t m o c :
  stage P A lacking c -> (t = true -> "traces/in" ∈ P) -> "metrics/servicegraph" ∈ A ->
  TraceCorrelationsMetricsPipelineName ∈ A -> stage P [] lacking (insert_optional t m o c).
Proof.
  intros Hs HP HA1 HA2. unfold insert_optional.
  set (c1 := if t && _ then insertServiceGraphPipeline o c else c).
  assert (Hs1 : stage P (filter (fun k => k <> "metrics/servicegraph") A) lacking c1).
  { unfold c1. destruct t; simpl; [destruct (negb _)|].
    - apply stage_servicegraph; auto.
    - eapply stage_less; [|exact Hs]. by intros n [_ ?]%list_elem_of_filter.
    - eapply stage_less; [|exact Hs]. by intros n [_ ?]%list_elem_of_filter. }
  clearbody c1. set (c2 := if t then insertTraceCorrelationsServiceIOPipeline o c1 else c1).
  assert (Hs2 : stage P [] lacking c2).
  { unfold c2. destruct t; [|eapply stage_less; [|exact Hs1]; set_solver].
    eapply stage_less; [|apply stage_serviceio; [exact Hs1|by apply HP|by apply list_elem_of_filter]]. set_solver. }
  clearbody c2. set (c3 := if m && _ then insertClusterMetricsResources (OdigosNamespace o) c2 else c2).
  assert (Hs3 : stage P [] lacking c3) by (unfold c3; destruct (m && _); [by apply stage_cluster_metrics|done]).
  clearbody c3. destruct (OdigosConfigExtensionName o) as [ext|]; [|done].
  apply (stage_extension P [] lacking ext (GMap (gm [])) (fun l => l ++ [ext])); [|done].
  intros x [?|Hx%list_elem_of_singleton]%elem_of_app; auto.
Qed.

(** ** The gateway's own telemetry *)

Lemma insert_rename_elem x ps : x ∈ insert_rename ps <-> x = obiMetricsRenameProcessorName ∨ x ∈ ps.
Proof. destruct ps as [|p ps]; simpl; [set_solver|]. destruct (decide _); set_solver. Qed.

Lemma insert_rename_NoDup ps : obiMetricsRenameProcessorName ∉ ps -> NoDup ps -> NoDup (insert_rename ps).
Proof.
  intros Hn Hnd. destruct ps as [|p ps]; simpl; [apply NoDup_singleton|]. destruct (decide _); [|by constructor].
  apply NoDup_cons in Hnd as [Hp Hnd]. apply not_elem_of_cons in Hn as [Hne Hn].
  constructor; [|by constructor]. by intros [->|]%elem_of_cons.
Qed.

Lemma stage_obi P A lacking c :
  stage P A lacking c -> not_run obiMetricsRenameProcessorName "metrics/in" c ->
  stage P A lacking (addObiMetricsRenamePipeline c).
Proof.
  intros Hs Hn. unfold addObiMetricsRenamePipeline.
  change (GetTelemetryRootPipelineName MetricsObservabilitySignal) with "metrics/in".
  destruct (pipelines c !! "metrics/in") as [p|] eqn:E; [|done].
  set (c1 := set_processors _ c). assert (Hs1 : stage P A lacking c1) by by apply stage_processor.
  eapply stage_change; [exact E| |by unfold more|by unfold more|exact Hs1].
  destruct (stage_open _ _ _ _ "metrics/in" p Hs1 E) as [Hr Hx [Hp Hnd]]. split; [done|done|]. simpl. split.
  - rewrite Forall_forall in Hp. apply Forall_forall. intros x [->|Hx']%insert_rename_elem; [|by apply Hp].
    unfold c1. simpl. rewrite lookup_insert_eq. by eexists.
  - apply insert_rename_NoDup; [by apply Hn|done].
Qed.

Lemma not_run_set_pipeline x n m p c :
  not_run x n c -> (n = m -> x ∉ Processors p) -> not_run x n (set_pipeline m p c).
Proof.
  intros Hn Hm q. simpl. rewrite lookup_insert_Some. intros [[<- <-]|[_ Hq]]; [by apply Hm|by apply Hn].
Qed.

Lemma not_run_obi n c : not_run "odigostrafficmetrics" n c -> not_run "odigostrafficmetrics" n (addObiMetricsRenamePipeline c).
Proof.
  intros Hn. unfold addObiMetricsRenamePipeline.
  change (GetTelemetryRootPipelineName MetricsObservabilitySignal) with "metrics/in".
  destruct (pipelines c !! "metrics/in") as [p|] eqn:E; [|done].
  apply not_run_set_pipeline; [exact Hn|]. intros ->. simpl. intros [?|Hin]%insert_rename_elem; [done|]. by eapply Hn.
Qed.

Lemma stage_traffic P A lacking names c :
  stage P A lacking c -> is_Some (processors c !! "odigostrafficmetrics") ->
  (forall n, n ∈ names -> not_run "odigostrafficmetrics" n c) ->
  stage P A lacking (add_traffic_metrics names c).
Proof.
  intros Hs Hproc Hn. unfold add_traffic_metrics.
  set (f := fun name p => if isOdigosTrafficMetricsProcessorRelevant name names then add_processor "odigostrafficmetrics" p else p).
  set (c' := set_pipelines _ c).
  assert (Hl : forall n, pipelines c' !! n = f n <$> pipelines c !! n).
  { intros n. unfold c'. simpl. rewrite map_lookup_imap. by destruct (pipelines c !! n). }
  assert (Hf : forall n p, Receivers (f n p) = Receivers p ∧ Exporters (f n p) = Exporters p).
  { intros n p. unfold f. by destruct (isOdigosTrafficMetricsProcessorRelevant n names). }
  assert (Hg : grows c c').
  { split; try done. intros n p Hp. exists (f n p). rewrite Hl, Hp. split; [done|].
    destruct (Hf n p) as [-> ->]. unfold more. auto. }
  eapply stage_step; [exact Hs|done| |done| |].
  - split; try apply Hs. intros n p'. rewrite Hl. destruct (pipelines c !! n) as [p|] eqn:E; [|done]. intros [= <-].
    destruct (pipeline_open_grows _ _ _ _ _ _ Hg (stage_open _ _ _ _ _ _ Hs E)) as [Hr Hx [Hp Hnd]].
    destruct (Hf n p) as [Er Ex]. split; [by rewrite Er|by rewrite Ex|]. unfold f.
    destruct (isOdigosTrafficMetricsProcessorRelevant n names) eqn:Erel; [|done]. simpl. split.
    + apply Forall_app. split; [done|]. by constructor.
    + apply NoDup_app. split_and!; [done| |apply NoDup_singleton]. intros x Hx' ->%list_elem_of_singleton.
      unfold isOdigosTrafficMetricsProcessorRelevant in Erel. destruct (decide _); [done|].
      apply bool_decide_eq_true in Erel. by eapply Hn.
  - intros n p'. rewrite Hl. destruct (pipelines c !! n) as [p|] eqn:E; [|done]. intros [= <-].
    destruct (Hf n p) as [_ ->]. by eapply Hs.
  - intros n HA. rewrite Hl. by rewrite (sg_absent _ _ _ _ Hs n HA).
Qed.

Lemma stage_self_telemetry P A lacking ns port names c :
  stage P A lacking c -> "metrics/otelcol" ∈ A ->
  (forall n, n ∈ names -> not_run "odigostrafficmetrics" n c) ->
  stage P (filter (fun m => m <> "metrics/otelcol") A) lacking (addSelfTelemetryPipeline ns port names c).
Proof.
  intros Hs HA Hn. unfold addSelfTelemetryPipeline.
  set (c1 := set_exporters _ (set_processors _ _)).
  assert (Hs1 : stage P A lacking c1).
  { unfold c1. apply stage_exporter; [done|].
    pose proof (stage_receiver P A lacking "prometheus/self-metrics" (GMap (self_metrics_receiver port)) c eq_refl Hs) as Hr.
    apply (stage_processor _ _ _ "resource/pod-name" (upsert_attribute "k8s.pod.name" "${POD_NAME}")) in Hr.
    apply (stage_processor _ _ _ "resource/odigos-collector-role" (upsert_attribute "odigos.collector.role" "CLUSTER_GATEWAY")) in Hr.
    apply (stage_processor _ _ _ "odigostrafficmetrics" GUnit) in Hr. exact Hr. }
  assert (Hproc : Forall (fun x => is_Some (processors c1 !! x)) ["resource/pod-name"; "resource/odigos-collector-role"; "odigostrafficmetrics"]).
  { unfold c1. cbn [processors set_exporters set_processors]. repeat (apply Forall_cons; split); [..|done];
      rewrite !lookup_insert_is_Some'; naive_solver. }
  apply Forall_cons in Hproc as [Hp1 Hproc]. apply Forall_cons in Hproc as [Hp2 Hproc].
  apply Forall_cons in Hproc as [Hp3 _].
  set (p := mkPipeline ["prometheus/self-metrics"] _ _).
  assert (Hs2 : stage P (filter (fun m => m <> "metrics/otelcol") A) lacking (set_pipeline "metrics/otelcol" p c1)).
  { apply stage_pipeline; [done| |done|done]. apply plain_open; [done|..].
    - constructor; [|done]. unfold is_receiver, c1. simpl. rewrite lookup_insert_eq. by eexists.
    - constructor; [|done]. unfold is_exporter, c1. simpl. rewrite lookup_insert_eq. by eexists.
    - constructor; [done|]. by constructor.
    - by apply (bool_decide_unpack _). }
  apply stage_traffic; [apply stage_telemetry; exact Hs2|exact Hp3|].
  intros n Hin. apply (not_run_set_pipeline _ n "metrics/otelcol" p c1); [by apply Hn|].
  intros _. by apply (bool_decide_unpack _).
Qed.

Lemma stage_enterprise P A lacking ns prof c :
  stage P A lacking c -> "profiles" ∈ A -> is_receiver c "otlp" ->
  stage P (filter (fun m => m <> "profiles") A) lacking (addEnterpriseAuthExtension (addProfilingGatewayPipeline ns prof c)).
Proof.
  intros Hs HA Ho. unfold addEnterpriseAuthExtension.
  apply stage_extension; [unfold add_if_missing; intros x; case_decide; set_solver|].
  assert (Hl : stage P (filter (fun m => m <> "profiles") A) lacking c).
  { eapply stage_less; [|exact Hs]. by intros n [_ ?]%list_elem_of_filter. }
  unfold addProfilingGatewayPipeline. destruct prof as [prof|]; [|done]. destruct (negb _); [done|].
  apply stage_pipeline; [done| |done|by apply stage_exporter]. apply plain_open; [done|by constructor| |constructor|constructor].
  constructor; [|done]. unfold is_exporter. simpl. rewrite lookup_insert_eq. by eexists.
Qed.

(** With insights the traces root pipeline has an exporter. *)
Lemma stage_insights P A lacking ns ins c :
  stage P A lacking c -> (forall n, n ∈ lacking -> n = "traces/in") ->
  (InsightsPipelineActive ins = false -> lacking <> [] -> pipelines c !! "traces/in" = None) ->
  stage P A [] (addInsightsGatewayExporter ns ins c).
Proof.
  intros Hs Hlack Hact.
  assert (Hdone : forall c', stage P A lacking c' -> (forall p, pipelines c' !! "traces/in" = Some p -> Exporters p <> [] ∨ lacking = []) ->
      stage P A [] c').
  { intros c' [[Ho Hx Hc] Hp Ha] Hin. split; [split|..]; try done. intros n p Hn.
    destruct (Hx n p Hn) as [?|Hl]; [by left|]. pose proof (Hlack n Hl) as ->. destruct (Hin p Hn) as [?| ->]; [by left|by right]. }
  unfold addInsightsGatewayExporter. change (GetTelemetryRootPipelineName TracesObservabilitySignal) with "traces/in".
  destruct (InsightsPipelineActive ins) eqn:Ei; cbn [negb].
  - destruct (pipelines c !! "traces/in") as [p|] eqn:E; [|apply Hdone; [done|]; intros p; by rewrite E].
    apply Hdone.
    + apply stage_add_exporter; [done| |by apply stage_exporter]. unfold is_exporter. simpl. rewrite lookup_insert_eq. by eexists.
    + intros q. simpl. rewrite lookup_insert_eq. intros [= <-]. left. simpl. by destruct (Exporters p).
  - apply Hdone; [done|]. intros p Hp. destruct lacking as [|n l]; [by right|]. by rewrite Hact in Hp.
Qed.

(** The exporters of a destination's pipeline are no connectors. *)
Lemma dest_exporters c u :
  names_ok U S -> config_open U S c -> u ∈ U -> Forall (is_exporter c) (Exporters (get_pipeline u c)).
Proof.
  intros Hn Ho Hu. unfold get_pipeline. destruct (pipelines c !! u) as [p|] eqn:E; [|constructor]. simpl.
  eapply Forall_impl; [apply (co_pipelines _ _ _ Ho u p E)|]. intros x [?|[_ Hl]]; [done|]. exfalso.
  pose proof (rank_dest U S Hn u Hu). pose proof (link_out_rank U S Hn x u Hl). lia.
Qed.

Lemma stage_own_metrics P A own ns port names c :
  names_ok U S -> (forall n, n ∈ names -> n ∈ U) ->
  stage P A [] c -> ownMetricsStorePipelineName ∈ A ->
  stage P (filter (fun m => m <> ownMetricsStorePipelineName) A) [] (addOwnMetricsPipeline own ns port names c).
Proof.
  intros Hok Hnames Hs HA. unfold addOwnMetricsPipeline. set (store := om_SendToOdigosMetricsStore own).
  set (c1 := if store then _ else c).
  assert (Hs1 : stage P A [] c1) by (unfold c1; destruct store; [by apply stage_receiver, stage_exporter|done]).
  set (es := (if store then _ else []) ++ _). set (rs := odigosOwnTelemetryOtlpReceiverName :: _).
  assert (Hes : Forall (is_exporter c1) es).
  { apply Forall_app. split.
    - unfold c1. destruct store; [|constructor]. constructor; [|done]. unfold is_exporter. simpl. rewrite lookup_insert_eq. by eexists.
    - destruct (om_SendToMetricsDestinations own); [|constructor]. apply Forall_bind, Forall_forall.
      intros n [_ Hn]%list_elem_of_filter. apply dest_exporters; [done|apply Hs1|auto]. }
  clearbody es. destruct es as [|e es'] eqn:Ees.
  - eapply stage_less; [|exact Hs1]. by intros n [_ ?]%list_elem_of_filter.
  - rewrite <-Ees in *. apply stage_pipeline; [done| |by rewrite Ees|by apply stage_receiver].
    apply plain_open; [done| |done|constructor|constructor]. unfold rs, is_receiver. simpl.
    constructor; [rewrite lookup_insert_eq; by eexists|]. unfold c1. destruct store; [|constructor]. constructor; [|done].
    simpl. rewrite lookup_insert_ne, lookup_insert_eq by done. by eexists.
Qed.
End Stages.

(** ** All stages *)

(** The pipelines that the stages add. *)
Definition staged_pipelines : list string :=
  ["metrics/otelcol"; "profiles"; ownMetricsStorePipelineName; "metrics/servicegraph"; TraceCorrelationsMetricsPipelineName].

Lemma staged_absent c n :
  (forall m, is_Some (pipelines c !! m) ->
     m ∈ all_roots ∨ exists sig st, sig ∈ pipeline_signals ∧ m = sig +:+ "/" +:+ st ∧ st ∉ reserved_names) ->
  n ∈ staged_pipelines -> pipelines c !! n = None.
Proof.
  intros Hc Hn. apply eq_None_not_Some. intros [Hr|(sig & st & Hsig & E & Hst)]%Hc.
  - revert Hn. unfold staged_pipelines. unfold all_roots in Hr. cbn [app] in Hr.
    repeat (apply elem_of_cons in Hr as [->|Hr]; [by apply (bool_decide_unpack _)|]). by apply elem_of_nil in Hr.
  - subst n.
    assert (Hcases : sig +:+ "/" +:+ st = "profiles" ∨ exists s', s' ∈ reserved_names ∧ sig +:+ "/" +:+ st = "metrics" +:+ "/" +:+ s').
    { unfold staged_pipelines in Hn. apply elem_of_cons in Hn as [E|Hn]; [right; exists "otelcol"; split; [by apply (bool_decide_unpack _)|done]|].
      apply elem_of_cons in Hn as [E|Hn]; [by left|]. right.
      apply elem_of_cons in Hn as [E|Hn]; [exists "own-metrics"; split; [by apply (bool_decide_unpack _)|done]|].
      apply elem_of_cons in Hn as [E|Hn]; [exists "servicegraph"; split; [by apply (bool_decide_unpack _)|done]|].
      apply elem_of_cons in Hn as [E|Hn]; [exists "tracecorrelations"; split; [by apply (bool_decide_unpack _)|done]|].
      by apply elem_of_nil in Hn. }
    destruct Hcases as [E|(s' & Hs' & E)].
    + apply (f_equal (has_byte "/"%char)) in E. rewrite !has_byte_app in E. simpl in E. by rewrite orb_true_r in E.
    + apply pipeline_name_inj in E as [_ ->]; [done|done|by apply (bool_decide_unpack _)].
Qed.

Lemma stage_telemetry_all U S P lacking ns tier gateway conf names roots c :
  names_ok U S -> (forall n, n ∈ names -> n ∈ U) ->
  (forall n, n ∈ names -> not_run "odigostrafficmetrics" n c) -> not_run obiMetricsRenameProcessorName "metrics/in" c ->
  (forall n, n ∈ lacking -> n = "traces/in") ->
  (InsightsPipelineActive (insights_of conf tier) = false -> lacking <> [] -> pipelines c !! "traces/in" = None) ->
  is_receiver c "otlp" -> stage U S P staged_pipelines lacking c ->
  stage U S P ["metrics/servicegraph"; TraceCorrelationsMetricsPipelineName] []
    (self_telemetry ns tier gateway conf c names roots).2.
Proof.
  intros Hok Hnames Hrun Hobi Hlack Hins Hotlp Hs. unfold self_telemetry. cbn [snd].
  set (c1 := addObiMetricsRenamePipeline c).
  assert (Hs1 : stage U S P staged_pipelines lacking c1) by by apply stage_obi.
  assert (Hrun1 : forall n, n ∈ names -> not_run "odigostrafficmetrics" n c1) by (intros n Hn; by apply not_run_obi, Hrun).
  assert (Ho1 : is_receiver c1 "otlp").
  { unfold c1, addObiMetricsRenamePipeline. destruct (pipelines c !! GetTelemetryRootPipelineName MetricsObservabilitySignal); exact Hotlp. }
  assert (Hi1 : InsightsPipelineActive (insights_of conf tier) = false -> lacking <> [] -> pipelines c1 !! "traces/in" = None).
  { intros Ha Hl. specialize (Hins Ha Hl). unfold c1, addObiMetricsRenamePipeline.
    destruct (pipelines c !! GetTelemetryRootPipelineName MetricsObservabilitySignal); [|done].
    simpl. by rewrite lookup_insert_ne. }
  clearbody c1. set (c2 := addSelfTelemetryPipeline ns (gg_CollectorOwnMetricsPort gateway) names c1).
  assert (Hs2 : stage U S P ["profiles"; ownMetricsStorePipelineName; "metrics/servicegraph"; TraceCorrelationsMetricsPipelineName] lacking c2).
  { eapply stage_less; [|apply (stage_self_telemetry _ _ _ _ _ ns (gg_CollectorOwnMetricsPort gateway) names c1 Hs1)].
    - intros n Hn. apply list_elem_of_filter. revert n Hn. apply Forall_forall. by apply (bool_decide_unpack _).
    - by left.
    - done. }
  assert (Ho2 : is_receiver c2 "otlp") by (unfold c2, is_receiver; simpl; by rewrite lookup_insert_ne).
  assert (Hi2 : InsightsPipelineActive (insights_of conf tier) = false -> lacking <> [] -> pipelines c2 !! "traces/in" = None).
  { intros Ha Hl. unfold c2. simpl. rewrite map_lookup_imap, lookup_insert_ne, Hi1 by done. done. }
  clearbody c2. set (c3 := if IsEnterprise tier then _ else c2).
  assert (Hs3 : stage U S P [ownMetricsStorePipelineName; "metrics/servicegraph"; TraceCorrelationsMetricsPipelineName] lacking c3).
  { unfold c3. destruct (IsEnterprise tier); (eapply stage_less; [|first [apply stage_enterprise; [exact Hs2|by left|done]|exact Hs2]]).
    - intros n Hn. apply list_elem_of_filter. revert n Hn. apply Forall_forall. by apply (bool_decide_unpack _).
    - intros n Hn. by right. }
  assert (Hi3 : InsightsPipelineActive (insights_of conf tier) = false -> lacking <> [] -> pipelines c3 !! "traces/in" = None).
  { intros Ha Hl. unfold c3, addEnterpriseAuthExtension, addProfilingGatewayPipeline. destruct (IsEnterprise tier); [|auto].
    simpl. destruct (profiling_of conf); [|auto]. destruct (negb _); [auto|]. simpl. rewrite lookup_insert_ne by done. auto. }
  clearbody c3. set (c4 := set_telemetry _ _).
  assert (Hs4 : stage U S P [ownMetricsStorePipelineName; "metrics/servicegraph"; TraceCorrelationsMetricsPipelineName] [] c4).
  { unfold c4. apply stage_telemetry. by eapply stage_insights. }
  clearbody c4.
  assert (Hless : stage U S P ["metrics/servicegraph"; TraceCorrelationsMetricsPipelineName] [] c4).
  { eapply stage_less; [|exact Hs4]. intros n Hn. by right. }
  destruct (gg_OwnMetrics gateway) as [own|]; [|done]. destruct (_ || _); [|done].
  eapply stage_less; [|apply stage_own_metrics; [done|done|exact Hs4|by left]].
  intros n Hn. apply list_elem_of_filter. revert n Hn. apply Forall_forall. by apply (bool_decide_unpack _).
Qed.

(** What the stages need of the routes. *)
Section RoutesStage.
Context `{GoSortLaws} `{GoMapOrderLaws}.

Lemma routes_stage c00 suffix dests K s
  (Hloop : loop_inv c00 suffix (to_exporter <$> dests) K [] s) (HNoDup : NoDup (dest_Name <$> dests))
  (Hselect : forall d, d ∈ dests -> selected_streams d <> [])
  (Hsuffix : forall d, d ∈ dests -> (suffix (to_exporter d) ∉ reserved_names)
                        ∧ (suffix (to_exporter d) ∉ ds_Name <$> calculateDataStreams dests))
  (Hstreams : forall n, n ∈ ds_Name <$> calculateDataStreams dests -> n ∉ reserved_names)
  r (Hready : results_ready c00 r) (Hotlp : is_receiver c00 "otlp")
  (Hplain : forall x, is_receiver c00 x -> connector_name x = false)
  t (Ht : by_traces (dl_enabled s) = true -> t = true)
  o (Ht' : t = true -> by_traces (dl_enabled s) = false -> traceAggregationNeeded o = true) :
  let S := ds_Name <$> calculateDataStreams dests in
  let c := with_roots dests s r t o in
  names_ok K S
  ∧ stage K S (if t then ["traces/in"] else []) staged_pipelines (lacking_traces s) c
  ∧ (forall n, n ∈ K -> not_run "odigostrafficmetrics" n c)
  ∧ not_run obiMetricsRenameProcessorName "metrics/in" c
  ∧ (t = false -> pipelines c !! "traces/in" = None)
  ∧ is_receiver c "otlp".
Proof.
  split_and!.
  - by eapply (routes_names_ok c00 suffix dests K s).
  - split.
    + by eapply (roots_routed c00 suffix dests K s).
    + intros n Hn. assert (Et : t = true ∧ n = "traces/in") by (clear -Hn; destruct t; set_solver).
      destruct Et as [Et ->]. by eapply (roots_traces c00 suffix dests K s).
    + intros n Hn. eapply staged_absent; [|done]. by eapply (roots_names c00 suffix dests K s).
  - by eapply (roots_not_run c00 suffix dests K s).
  - by eapply (roots_rename c00 suffix dests K s).
  - by eapply (roots_no_traces c00 suffix dests K s).
  - unfold is_receiver. by erewrite (roots_receivers c00 suffix dests K s).
Qed.
End RoutesStage.

(** * The processors of the custom resources

    [CrdProcessorToConfig] and [prepare_processors] give the root pipelines
    processors that are defined and run once. *)

(** ** The processors of the custom resources *)

(** Names of processors that the gateway uses itself. *)
Definition reserved_processors : list string := ["resource/odigos-version"; obiMetricsRenameProcessorName].

Section Crd.
Context `{GoLibrary}.

Definition all_processors (r : CrdProcessorResults) : list string :=
  TracesProcessors r ++ TracesProcessorsPostSpanMetrics r ++ MetricsProcessors r ++ LogsProcessors r ++ ProfilesProcessors r.

Record crd_inv (ps : list ProcessorConfigurer) (r : CrdProcessorResults) : Prop := {
  ci_defined x : x ∈ all_processors r -> is_Some (ProcessorsConfig r !! x);
  ci_keys x : is_Some (ProcessorsConfig r !! x) -> x ∈ processor_key <$> ps;
  ci_traces : NoDup (TracesProcessors r ++ TracesProcessorsPostSpanMetrics r);
  ci_metrics : NoDup (MetricsProcessors r);
  ci_logs : NoDup (LogsProcessors r);
  ci_profiles : NoDup (ProfilesProcessors r)
}.

Lemma add_if_elem b (x y : string) l : y ∈ add_if b x l <-> y ∈ l ∨ b = true ∧ y = x.
Proof. destruct b; simpl; rewrite ?elem_of_app, ?list_elem_of_singleton; naive_solver. Qed.
Lemma add_if_NoDup b (x : string) l : x ∉ l -> NoDup l -> NoDup (add_if b x l).
Proof. intros Hx Hl. destruct b; [|done]. apply NoDup_app. split_and!; [done|set_solver|apply NoDup_singleton]. Qed.

Lemma crd_step_inv ps r p :
  crd_inv ps r -> processor_key p ∉ processor_key <$> ps -> crd_inv (ps ++ [p]) (crd_step r p).
Proof.
  intros [Hd Hk Ht Hm Hl Hp] Hf.
  assert (Hsub : forall x, x ∈ processor_key <$> ps -> x ∈ processor_key <$> (ps ++ [p])) by (intros x; rewrite fmap_app; set_solver).
  assert (Hnot : forall x, x ∈ all_processors r -> x <> processor_key p) by (intros x Hx%Hd%Hk ->; done).
  unfold all_processors in *. set (key := processor_key p) in *.
  unfold crd_step. fold key. destruct (proc_GetConfig p) as [err|[cfg|]]; [split; simpl; auto| |split; simpl; auto].
  split; simpl.
  - intros x. unfold all_processors. simpl. rewrite !elem_of_app, !add_if_elem. intros Hx. apply lookup_insert_is_Some'.
    destruct (decide (key = x)); [by left|right]. apply Hd. rewrite !elem_of_app. naive_solver.
  - intros x [<-|[_ Hx]]%lookup_insert_is_Some; [|by apply Hsub, Hk]. rewrite fmap_app. set_solver.
  - set (t1 := _ && _). set (t2 := _ && _).
    assert (Ht12 : ~ (t1 = true ∧ t2 = true)).
    { unfold t1, t2. intros [[_ E1]%andb_prop [_ E2]%andb_prop]. by rewrite E1 in E2. }
    apply NoDup_app in Ht as (Ht1 & Hdis & Ht2). apply NoDup_app. split_and!.
    + apply add_if_NoDup; [|done]. intros Hx. apply (Hnot key); [set_solver|done].
    + intros x. rewrite !add_if_elem. intros [Hx|[? ->]] [Hy|[? Hy]]; subst.
      * by apply (Hdis x).
      * apply (Hnot key); [set_solver|done].
      * apply (Hnot key); [set_solver|done].
      * by apply Ht12.
    + apply add_if_NoDup; [|done]. intros Hx. apply (Hnot key); [set_solver|done].
  - apply add_if_NoDup; [|done]. intros Hx. apply (Hnot key); [set_solver|done].
  - apply add_if_NoDup; [|done]. intros Hx. apply (Hnot key); [set_solver|done].
  - apply add_if_NoDup; [|done]. intros Hx. apply (Hnot key); [set_solver|done].
Qed.

Lemma crd_inv_all ps : NoDup (processor_key <$> ps) -> crd_inv ps (CrdProcessorToConfig ps).
Proof.
  unfold CrdProcessorToConfig. induction ps as [|p ps IH] using rev_ind; intros Hnd.
  - cbn [foldl]. split; simpl; try constructor; unfold all_processors; simpl.
    + by intros x ?%elem_of_nil.
    + intros x []. by rewrite lookup_empty in *.
  - rewrite fmap_app in Hnd. apply NoDup_app in Hnd as (Hnd & Hdis & _). rewrite foldl_snoc.
    apply crd_step_inv; [by apply IH|]. intros Hin. apply (Hdis _ Hin). by left.
Qed.

Lemma key_slash p : has_byte "/"%char (processor_key p) = true.
Proof. unfold processor_key. rewrite has_byte_app. by rewrite orb_true_r. Qed.

(** *** The processors are ready for the root pipelines *)

Context (ps : list ProcessorConfigurer) (HNoDup : NoDup (processor_key <$> ps)).
Context (Hreserved : forall p, p ∈ ps -> processor_key p ∉ reserved_processors).
Abbreviation r := (CrdProcessorToConfig ps) (only parsing).

Lemma crd_fresh y (l : list string) :
  has_byte "/"%char y = false ∨ y ∈ reserved_processors -> (forall x, x ∈ l -> x ∈ all_processors r) -> y ∉ l.
Proof.
  intros Hy Hsub Hin%Hsub. pose proof (crd_inv_all ps HNoDup) as Hi.
  apply (ci_defined _ _ Hi), (ci_keys _ _ Hi), list_elem_of_fmap in Hin as (p & -> & Hp).
  destruct Hy as [Hy|Hy]; [by rewrite key_slash in Hy|]. by apply (Hreserved p Hp).
Qed.

(** The traces processors, with those that are put in front of them. *)
Lemma traces_NoDup pre :
  NoDup ("resource/odigos-version" :: OdigosTraceStateProcessorName :: pre) ->
  (forall x, x ∈ pre -> has_byte "/"%char x = false) ->
  NoDup ("resource/odigos-version" :: (pre ++ TracesProcessors r) ++ TracesProcessorsPostSpanMetrics r
           ++ [OdigosTraceStateProcessorName]).
Proof.
  intros [Hv [Hs Hpre]%NoDup_cons]%NoDup_cons Hns. rewrite <-app_assoc, (app_assoc (TracesProcessors r)).
  assert (Hin : forall x, x ∈ TracesProcessors r ++ TracesProcessorsPostSpanMetrics r -> x ∈ all_processors r)
    by (unfold all_processors; set_solver).
  constructor.
  - apply not_elem_of_cons in Hv as [_ Hv]. intros [?|[?|?%list_elem_of_singleton]%elem_of_app]%elem_of_app; try done.
    eapply (crd_fresh "resource/odigos-version"); [right; by apply (bool_decide_unpack _)|exact Hin|done].
  - apply NoDup_app. split_and!; [done| |].
    + intros x Hx [Hy| ->%list_elem_of_singleton]%elem_of_app; [|done].
      by eapply (crd_fresh x); [left; apply Hns|exact Hin|].
    + apply NoDup_app. split_and!; [apply (crd_inv_all ps HNoDup)| |apply NoDup_singleton].
      intros x Hx ->%list_elem_of_singleton. by eapply (crd_fresh OdigosTraceStateProcessorName); [by left|exact Hin|].
Qed.

(** The configuration with the processors of the custom resources. *)
Definition crd_config : Config := set_processors (union (ProcessorsConfig r)) GetBasicConfig.

(** What may be put in front of the traces processors. *)
Definition fronts : list (list string) :=
  [[]; [GroupByTraceProcessor]; [OdigosTailSamplingProcessorName];
   [OdigosTailSamplingProcessorName; GroupByTraceProcessor]].

Lemma front_plain pre x : pre ∈ fronts -> x ∈ pre -> has_byte "/"%char x = false.
Proof.
  intros Hpre Hx. assert (Hx' : x ∈ [GroupByTraceProcessor; OdigosTailSamplingProcessorName]).
  { unfold fronts in Hpre. repeat (apply elem_of_cons in Hpre as [->|Hpre]; [set_solver|]). by apply elem_of_nil in Hpre. }
  repeat (apply elem_of_cons in Hx' as [->|Hx']; [done|]). by apply elem_of_nil in Hx'.
Qed.

Lemma front_ready pre v :
  pre ∈ fronts -> (forall x, is_Some (processors crd_config !! x) -> is_Some (v (processors crd_config) !! x)) ->
  (forall x, x ∈ pre -> is_Some (v (processors crd_config) !! x)) ->
  results_ready (set_processors v crd_config) (with_TracesProcessors (pre ++ TracesProcessors r) r).
Proof.
  intros Hpre Hv Hd. pose proof (crd_inv_all ps HNoDup) as Hi.
  assert (Hone : forall y l, y ∈ reserved_processors -> (forall x, x ∈ l -> x ∈ all_processors r) -> NoDup l -> NoDup (y :: l)).
  { intros y l Hy Hsub Hl. constructor; [|done]. apply crd_fresh; auto. }
  split; simpl.
  - apply Hv. unfold crd_config. simpl. apply lookup_union_is_Some. right. by eexists.
  - apply Hv. unfold crd_config. simpl. apply lookup_union_is_Some. right. by eexists.
  - intros x Hx. destruct (decide (x ∈ pre)) as [|Hn]; [by apply Hd|]. apply Hv. unfold crd_config. simpl.
    apply lookup_union_is_Some. left. apply (ci_defined _ _ Hi). unfold all_processors. set_solver.
  - apply traces_NoDup; [|intros x Hx; by eapply front_plain].
    unfold fronts in Hpre. repeat (apply elem_of_cons in Hpre as [->|Hpre]; [by apply (bool_decide_unpack _)|]).
    by apply elem_of_nil in Hpre.
  - constructor; [apply not_elem_of_cons; split; [done|]; apply crd_fresh|apply Hone; [| |apply Hi]];
      try (right; by apply (bool_decide_unpack _)); try (by apply (bool_decide_unpack _)); unfold all_processors; set_solver.
  - apply Hone; [by apply (bool_decide_unpack _)|unfold all_processors; set_solver|apply Hi].
  - apply Hone; [by apply (bool_decide_unpack _)|unfold all_processors; set_solver|apply Hi].
Qed.

Lemma prepared o :
  let '(c, r') := prepare_processors o r GetBasicConfig in
  results_ready c r' ∧ c = set_processors (fun _ => processors c) GetBasicConfig.
Proof.
  unfold prepare_processors. fold crd_config.
  set (s1 := if traceAggregationNeeded o then _ else _).
  assert (Hs1 : exists pre v, s1 = (set_processors v crd_config, with_TracesProcessors (pre ++ TracesProcessors r) r)
     ∧ pre ∈ [[]; [GroupByTraceProcessor]]
     ∧ (forall x, is_Some (processors crd_config !! x) -> is_Some (v (processors crd_config) !! x))
     ∧ (forall x, x ∈ pre -> is_Some (v (processors crd_config) !! x))).
  { unfold s1. destruct (traceAggregationNeeded o).
    - unfold ensureGroupByTraceProcessor. rewrite decide_False.
      2: { simpl. apply (crd_fresh GroupByTraceProcessor); [by left|unfold all_processors; set_solver]. }
      eexists [GroupByTraceProcessor], _. split_and!; [reflexivity|right; by left|intros; by apply insert_is_Some|].
      intros x ->%list_elem_of_singleton. rewrite lookup_insert_eq. by eexists.
    - exists [], (fun m => m). split_and!; [by destruct r|by left|done|]. by intros x ?%elem_of_nil. }
  destruct Hs1 as (pre & v & -> & Hpre & Hv & Hvpre).
  assert (Hno : results_ready (set_processors v crd_config) (with_TracesProcessors (pre ++ TracesProcessors r) r)
      ∧ set_processors v crd_config = set_processors (fun _ => processors (set_processors v crd_config)) GetBasicConfig).
  { split; [|done]. apply front_ready; [unfold fronts; set_solver|done|done]. }
  destruct (TailSamplingEnabled o) as [[]|]; [|exact Hno..]. destruct (OdigosConfigExtensionName o) as [ext|]; [|exact Hno].
  cbn [fst snd]. split; [|done].
  apply (front_ready (OdigosTailSamplingProcessorName :: pre)
           (fun m => <[OdigosTailSamplingProcessorName := GMap (getTailSamplingProcessors ext o)]> (v m))).
  - unfold fronts. set_solver.
  - intros x Hx. apply insert_is_Some. by apply Hv.
  - intros x Hx. apply lookup_insert_is_Some'. apply elem_of_cons in Hx as [->|Hx]; [by left|right]. by apply Hvpre.
Qed.
End Crd.
