(* ===== verification/GatewayProperties.v ===== *)
(** * What the gateway's configuration guarantees *)

From Stdlib Require Import Ascii.
From S2P Require Import Prelude.
From S2P Require Import GoStrings.
From S2P Require Import GoSort.
From S2P Require Import K8s.
From S2P Require Import Api.
From S2P Require Import GoLib.
From S2P Require Import CollectorConfig.
From S2P Require Import Destinations.
From S2P Require Import DataStreams.
From S2P Require Import GatewayConfig.
From S2P Require Import GatewayTelemetry.
From S2P Require Import GatewayValid.
From S2P Require Import GatewayRoutes.
From S2P Require Import GatewayRoots.
From S2P Require Import DestinationTypes.
From S2P Require Import DestinationLaws.
From S2P Require Import DestinationEndpoints.
From S2P Require Import DestinationDecoders.
From S2P Require Import AvailableConfigers.
From S2P Require Import GatewayProcessors.

(** ** The configuration is accepted *)

(** Names that a cluster's resources must keep apart: [suffix] sets the
    pipelines of a destination apart from all others. *)
Record names_apart (suffix : ExporterConfigurer -> string) (dests : list Destination) (ps : list Processor) : Prop := {
  na_names : NoDup (dest_Name <$> dests);
  na_suffixes : NoDup (suffix <$> (to_exporter <$> dests));
  na_suffix d : d ∈ dests -> suffix (to_exporter d) ∉ reserved_names;
  (** every destination is in a data stream *)
  na_selected d : d ∈ dests -> selected_streams d <> [];
  na_streams d st :
    d ∈ dests -> st ∈ selected_streams d -> (st ∉ reserved_names) ∧ (st ∉ suffix <$> (to_exporter <$> dests));
  na_keys : NoDup (processor_key <$> (to_processor <$> ps));
  na_processors p : p ∈ ps -> processor_key (to_processor p) ∉ reserved_processors
}.

(** What the custom resources of a cluster have to satisfy, for any list of
    configurers. *)
Record gateway_input (availableConfigers : list Configer) (suffix : ExporterConfigurer -> string)
    (dests : list Destination) (ps : list Processor) : Prop := {
  gi_configers : exists m, LoadConfigers availableConfigers = inr m;
  gi_lawful d configer :
    d ∈ dests -> configer ∈ availableConfigers -> DestType configer = dest_Type d ->
    keeps_promise configer (suffix (to_exporter d)) (to_exporter d);
  gi_apart : names_apart suffix dests ps
}.

Section Accepted.
Context `{GoLibrary} `{GoSortLaws} `{GoMapOrderLaws}.

Lemma stream_names_inv dests n :
  NoDup (dest_Name <$> dests) -> n ∈ ds_Name <$> calculateDataStreams dests ->
  exists d, d ∈ dests ∧ n ∈ selected_streams d.
Proof.
  intros Hnd (ds & -> & Hds)%list_elem_of_fmap. pose proof Hds as Hds'.
  apply data_stream_elem in Hds as (l & Hl & El). destruct (proj2 (streams_hold dests Hnd) _ _ Hl) as [_ Hne].
  destruct l as [|x l]; [done|].
  assert (Hin : DataStreams.in_stream dests (ds_Name ds) x).
  { apply (proj1 (streams_hold dests Hnd)). exists (x :: l). split; [done|by left]. }
  destruct Hin as (d & Hd & Hs & _). by exists d.
Qed.

(** *** From the input to the routes *)

Section Input.
Context (availableConfigers : list Configer) (suffix : ExporterConfigurer -> string) (enabled : list Destination)
  (procs : list Processor) (Hin : gateway_input availableConfigers suffix enabled procs).
Abbreviation streams := (ds_Name <$> calculateDataStreams enabled).

Lemma input_streams n : n ∈ streams -> (n ∉ reserved_names) ∧ (n ∉ suffix <$> (to_exporter <$> enabled)).
Proof. intros (d & Hd & Hn)%stream_names_inv; [|apply (gi_apart _ _ _ _ Hin)]. by eapply (na_streams _ _ _ (gi_apart _ _ _ _ Hin)). Qed.

Lemma input_suffixes d :
  d ∈ enabled -> (suffix (to_exporter d) ∉ reserved_names) ∧ (suffix (to_exporter d) ∉ streams).
Proof.
  intros Hd. split; [by apply (na_suffix _ _ _ (gi_apart _ _ _ _ Hin))|]. intros [_ Hn]%input_streams. apply Hn.
  by do 2 apply list_elem_of_fmap_2.
Qed.

Lemma input_prepared o :
  let '(c, r) := prepare_processors o (CrdProcessorToConfig (to_processor <$> procs)) GetBasicConfig in
  results_ready c r ∧ c = set_processors (fun _ => processors c) GetBasicConfig.
Proof.
  apply prepared; [apply (gi_apart _ _ _ _ Hin)|]. intros p (q & -> & Hq)%list_elem_of_fmap. by apply (na_processors _ _ _ (gi_apart _ _ _ _ Hin)).
Qed.

Lemma input_loop m c00 :
  LoadConfigers availableConfigers = inr m -> is_Some (processors c00 !! GenericBatchProcessorConfigKey) ->
  c00 = set_processors (fun _ => processors c00) GetBasicConfig ->
  exists K, loop_inv c00 suffix (to_exporter <$> enabled) K []
              (foldl (add_dest m) (start_loop c00) (to_exporter <$> enabled)).
Proof.
  intros Hm Hbatch Ec00. apply destinations_inv; try (rewrite Ec00; done); [| |apply (gi_apart _ _ _ _ Hin)|].
  - rewrite Ec00. intros x [v Hv]. done.
  - rewrite Ec00. by apply (bool_decide_unpack _).
  - intros d configer c0 (d' & -> & Hd)%list_elem_of_fmap Hc. apply (load_configers_inv _ _ _ _ Hm) in Hc as [Hc Ht].
    by apply (gi_lawful _ _ _ _ Hin d' configer).
Qed.
End Input.

Lemma basic_receivers c00 :
  c00 = set_processors (fun _ => processors c00) GetBasicConfig ->
  is_receiver c00 "otlp" ∧ forall x, is_receiver c00 x -> connector_name x = false.
Proof.
  intros ->. split; [by eexists|]. intros x [v Hv]. simpl in Hv. unfold gm in Hv. simpl in Hv.
  apply lookup_insert_Some in Hv as [[<- _]|[_ Hv]]; [done|]. by apply lookup_empty_Some in Hv.
Qed.

(** With any list of configurers, the configuration that the gateway gets is
    one that the collector accepts. *)
Lemma gateway_accepts availableConfigers odigosNs tier gateway conf dests ps configExtProcessors suffix :
  gateway_input availableConfigers suffix (enabled_destinations dests) (gateway_processors ps configExtProcessors) ->
  exists c signals status,
    gateway_config availableConfigers odigosNs tier gateway conf dests ps configExtProcessors
    = (inr (c, signals), Some status)
    ∧ collector_accepts c.
Proof.
  intros Hin. destruct (gi_configers _ _ _ _ Hin) as [m Hm]. unfold gateway_config, CalculateGatewayConfig. rewrite Hm.
  set (enabled := enabled_destinations dests) in *. set (o := gateway_options odigosNs gateway (insights_of conf tier)).
  change (receivers GetBasicConfig !! "otlp") with (Some (default GUnit (receivers GetBasicConfig !! "otlp"))).
  cbv beta iota zeta. pose proof (input_prepared _ _ _ _ Hin o) as Hprep.
  destruct (prepare_processors o _ GetBasicConfig) as [c00 r]. destruct Hprep as [Hready Ec00].
  destruct (basic_receivers c00 Ec00) as [Hotlp Hplain].
  set (s := foldl (add_dest m) (start_loop c00) (to_exporter <$> enabled)).
  destruct (input_loop _ _ _ _ Hin m c00 Hm (rr_batch _ _ Hready) Ec00) as [K Hloop]. fold s in Hloop.
  set (t := by_traces (dl_enabled s) || InsightsPipelineActive (Insights o)).
  assert (Ht : by_traces (dl_enabled s) = true -> t = true) by (unfold t; by intros ->).
  assert (Ht' : t = true -> by_traces (dl_enabled s) = false -> traceAggregationNeeded o = true).
  { unfold t, traceAggregationNeeded. intros E1 E2. rewrite E2 in E1. cbn [orb] in E1. rewrite E1. by rewrite !orb_true_r. }
  pose proof (fun n Hn => proj1 (input_streams _ _ _ _ Hin n Hn)) as Hstr.
  destruct (routes_stage c00 suffix enabled K s Hloop (na_names _ _ _ (gi_apart _ _ _ _ Hin)) (na_selected _ _ _ (gi_apart _ _ _ _ Hin))
    (input_suffixes _ _ _ _ Hin) Hstr r Hready Hotlp Hplain t Ht o Ht') as (Hok & Hroutes & Hrun & Hobi & Hnot & Hotlp').
  set (streams := ds_Name <$> calculateDataStreams enabled) in *. change (with_roots enabled s r t o) with
    (insert_routes (calculateDataStreams enabled) o r s) in *. set (c1 := insert_routes _ o r s) in *.
  assert (HK : dl_unified s = K) by (rewrite (li_unified _ _ _ _ _ _ Hloop); apply app_nil_r).
  set (P := if t then ["traces/in"] else []) in *.
  assert (Htel : stage K streams P ["metrics/servicegraph"; TraceCorrelationsMetricsPipelineName] []
                   (self_telemetry odigosNs tier gateway conf c1 (dl_unified s) GetSignalsRootPipelineNames).2).
  { rewrite HK. apply (stage_telemetry_all K streams _ (lacking_traces s)); [done|done|done|done| | |done|done].
    - unfold lacking_traces. intros n. destruct (by_traces _); [by intros ?%elem_of_nil|by intros ?%list_elem_of_singleton].
    - intros Ha Hl. apply Hnot. unfold t. change (Insights o) with (insights_of conf tier). rewrite Ha.
      unfold lacking_traces in Hl. by destruct (by_traces _). }
  set (c2 := (self_telemetry _ _ _ _ _ _ _).2) in Htel.
  eexists _, _, _. split; [reflexivity|].
  assert (Hfin : stage K streams P [] [] (insert_optional t (by_metrics (dl_enabled s)) o c2)).
  { apply (stage_optional K streams P _ [] t _ o c2 Htel); [unfold P; intros ->; by left|by left|by right; left]. }
  eapply (accepts_of_open K streams Hok); [apply Hfin| |apply Hfin].
  intros n p Hp. destruct (rt_exporters _ _ _ _ (sg_routed _ _ _ _ _ _ Hfin) n p Hp) as [?|?%elem_of_nil]; done.
Qed.
End Accepted.

(** *** The configurers that odigos ships *)

Section Shipped.
Context `{GoUrl} `{GoUrlMore} `{GoDecode} `{GoLibrary} `{GoSortLaws} `{GoMapOrderLaws}.

Lemma shipped_input dests ps :
  (forall d, d ∈ dests -> well_behaved (to_exporter d) = true) -> names_apart pipeline_suffix dests ps ->
  gateway_input availableConfigers pipeline_suffix dests ps.
Proof.
  intros Hw Ha. split; [apply load_configers_ok, available_types| |done].
  intros d configer Hd Hc Ht. pose proof available_serve as Hs. rewrite Forall_forall in Hs.
  by apply (Hs configer Hc); [|apply Hw].
Qed.

(** C10: The configuration that the gateway gets from the destinations,
    processors and settings of a cluster is one that the collector accepts,
    whatever their number and settings, under two conditions.  The
    destinations are served as the others are ([well_behaved]): none is a
    Bonree, a Datadog does not take traces and metrics both, a Jaeger takes
    traces only, and the type of a dynamic one is not a connector's.  And the
    names are kept apart ([names_apart]): the destinations have names of
    their own, as have their pipelines, each is in a data stream, no stream or
    pipeline has one of the gateway's own names or another pipeline's, and the
    processors are listed once and have none of the gateway's own names.
    Without them the configuration may be refused
    ([bonree_metrics_rejected], [jaeger_spoils_gateway],
    [namespace_selector_rejected]). *)
Theorem gateway_config_accepted odigosNs tier gateway conf dests ps configExtProcessors :
  (forall d, d ∈ enabled_destinations dests -> well_behaved (to_exporter d) = true) ->
  names_apart pipeline_suffix (enabled_destinations dests) (gateway_processors ps configExtProcessors) ->
  exists c signals status,
    gateway_config availableConfigers odigosNs tier gateway conf dests ps configExtProcessors
    = (inr (c, signals), Some status)
    ∧ collector_accepts c.
Proof. intros Hw Ha. by eapply gateway_accepts, shipped_input. Qed.
End Shipped.

(** *** A cluster with four destinations *)

#[local] Existing Instances sample_library order_forward order_forward_laws.

(** The one endpoint of the examples. *)
Definition sample_url : GoUrl := {|
  url_parse s := if decide (s = "grpc://jaeger:4317") then inr (mkURL "grpc" None "jaeger:4317" "" "") else inl "invalid";
  url_string _ := "grpc://jaeger:4317";
  url_Port _ := "4317";
  url_Hostname _ := "jaeger";
  SplitHostPort _ := inr ("jaeger", "4317");
  JoinHostPort h p := h +:+ ":" +:+ p
|}.
Definition sample_url_more : GoUrlMore := {|
  ParseRequestURI s := inr (mkURL "http" None s "" "");
  UserPassword u p := u +:+ ":" +:+ p;
  ParseFloat _ := float_zero
|}.
Definition sample_decode : GoDecode := {|
  json_strings s := if decide (s = "{") then inl "unexpected end of JSON input" else inr [s];
  json_pairs s := inr [("key", s)];
  json_string_map s := inr ∅;
  yaml_map s := inr (gm [("endpoint", GStr s)]);
  rand_Uint64 _ := "7"
|}.
#[local] Existing Instances sample_url sample_url_more sample_decode.

Definition sample_dests : list Destination :=
  [mkDestination "d2" "debug" ∅ [TracesObservabilitySignal; LogsObservabilitySignal] None None;
   mkDestination "d1" "nop" ∅ [TracesObservabilitySignal; MetricsObservabilitySignal] None
     (Some (mkSourceSelector [] ["payments"; "default"]));
   mkDestination "d3" "kafka" (<["KAFKA_PROTOCOL_VERSION" := "2.0.0"]> ∅)
     [TracesObservabilitySignal; MetricsObservabilitySignal] None (Some (mkSourceSelector [] ["payments"]));
   mkDestination "j2" "jaeger" (<["JAEGER_URL" := "jaeger:4317"]> ∅) [TracesObservabilitySignal] None None;
   mkDestination "d0" "honeycomb" ∅ [TracesObservabilitySignal] (Some true) None].
Definition sample_processors : list Processor :=
  [mkProcessor "late" "attributes" false [TracesObservabilitySignal] [CollectorsGroupRoleClusterGateway] 20 (inr (Some ∅));
   mkProcessor "early" "filter" false [TracesObservabilitySignal; LogsObservabilitySignal]
     [CollectorsGroupRoleClusterGateway; CollectorsGroupRoleNodeCollector] 1 (inr (Some ∅))].
Definition sample_gateway : GatewayGroup :=
  mkGatewayGroup 8888 (mkServiceGraph None [] []) (Some true) None None
    (Some (mkTailSampling (Some false) (Some "10s"))) (Some true) (Some (mkOwnMetrics true true "")).

Lemma sample_apart :
  names_apart pipeline_suffix (enabled_destinations sample_dests) (gateway_processors sample_processors []).
Proof.
  split.
  - by apply (bool_decide_unpack _).
  - by apply (bool_decide_unpack _).
  - apply Forall_forall. by apply (bool_decide_unpack _).
  - apply Forall_forall. by apply (bool_decide_unpack _).
  - intros d st Hd Hst. revert st Hst. apply Forall_forall. revert d Hd. apply Forall_forall. by apply (bool_decide_unpack _).
  - by apply (bool_decide_unpack _).
  - apply Forall_forall. by apply (bool_decide_unpack _).
Qed.

Lemma gateway_config_accepted_witness :
  exists c signals status,
    gateway_config availableConfigers "odigos-system" "onprem" sample_gateway None sample_dests sample_processors []
    = (inr (c, signals), Some status)
    ∧ collector_accepts c.
Proof.
  apply (gateway_config_accepted "odigos-system" "onprem" sample_gateway None sample_dests sample_processors []).
  - apply Forall_forall. by apply (bool_decide_unpack _).
  - apply sample_apart.
Defined.

(** ** Routing by data stream *)

Section StreamRoutes.
Context `{GoSortLaws} `{GoMapOrderLaws}.

(** The pipeline of a data stream exports a signal to the pipelines of
    exactly the destinations that select the stream. *)
Theorem stream_routes (dests : list Destination) (fwd : gmap string (list string)) (sig st x : string) :
  NoDup (dest_Name <$> dests) -> sig ∈ stream_signals ->
  (exists p, buildDataStreamPipelines (calculateDataStreams dests) fwd !! (sig +:+ "/" +:+ st) = Some p ∧ x ∈ Exporters p)
  <-> (exists d l, d ∈ dests ∧ st ∈ selected_streams d ∧ fwd !! dest_Name d = Some l ∧ x ∈ l
       ∧ has_prefix ("forward/" +:+ sig +:+ "/") x = true).
Proof.
  intros Hnd Hsig. split.
  - intros (p & Hp & Hx). apply build_inv in Hp as (ds & sig' & Hds & Hsig' & E & -> & _).
    apply stream_key_inj in E as [<- ->]; [|done..].
    apply stream_exporters_elem in Hx as (y & l & Hy & Hl & Hin & Hpre).
    destruct (proj2 (data_streams_elem dests (ds_Name ds) y Hnd)) as (d & Hd & Hs & ->); [by exists ds|].
    by exists d, l.
  - intros (d & l & Hd & Hs & Hl & Hin & Hpre).
    destruct (proj1 (data_streams_elem dests st (mkStreamDestination (dest_Name d) (dest_Signals d)) Hnd)) as (ds & Hds & <- & Hy).
    { by exists d. }
    assert (Hx : x ∈ stream_exporters sig (ds_Destinations ds) fwd).
    { apply stream_exporters_elem. eexists _, l. split_and!; [exact Hy|exact Hl|done|done]. }
    exists (stream_pipeline sig ds fwd). split; [|done].
    apply build_at; [apply data_stream_names|done|done|]. intros E. simpl in E. rewrite E in Hx. by apply elem_of_nil in Hx.
Qed.
End StreamRoutes.

Lemma stream_routes_witness :
  exists p, buildDataStreamPipelines (calculateDataStreams (enabled_destinations sample_dests))
              (<["d1" := ["forward/traces/nop-d1"; "forward/metrics/nop-d1"]]> ∅) !! "metrics/payments" = Some p
            ∧ "forward/metrics/nop-d1" ∈ Exporters p.
Proof.
  refine (proj2 (stream_routes _ _ "metrics" "payments" _ _ _) _); [by apply (bool_decide_unpack _)..|].
  eexists _, _. split_and!; [left| |reflexivity| |reflexivity]; by apply (bool_decide_unpack _).
Defined.

(** ** What the collector refuses *)

Lemma rejected_pipeline c n p : pipelines c !! n = Some p -> Receivers p = [] -> ~ collector_accepts c.
Proof. intros Hp Hr [Ha _ _ _ _ _]. by destruct (Ha n p Hp) as [[? _] _ _]. Qed.

(** A Jaeger destination that also selects metrics or logs is refused with
    an error, but its traces pipeline stays behind: no collector accepts the
    configuration that it leaves. *)
Theorem jaeger_error_leaves_pipeline `{GoUrl} (dest : ExporterConfigurer) (c : Config) (url endpoint : string) :
  GetConfig dest !! "JAEGER_URL" = Some url ->
  parseOtlpGrpcUrl url (bool_decide (map_get (GetConfig dest) "JAEGER_TLS_ENABLED" = "true")) = inr endpoint ->
  tracing dest = true -> metrics dest || logging dest = true ->
  let '(r, c') := ModifyConfig Jaeger dest c in
  (exists err, r = inl err)
  ∧ pipelines c' !! ("traces/jaeger-" +:+ GetID dest) = Some (exports_to ("otlp_grpc/jaeger-" +:+ GetID dest))
  ∧ ~ collector_accepts c'.
Proof.
  intros Hu Hp Ht Hml. cbn [ModifyConfig Jaeger]. rewrite Hu. cbv beta zeta.
  assert (Hrun : exists err c', ModifyConfig Jaeger dest c = (inl err, c')
     ∧ pipelines c' !! ("traces/jaeger-" +:+ GetID dest) = Some (exports_to ("otlp_grpc/jaeger-" +:+ GetID dest))).
  { cbn [ModifyConfig Jaeger]. rewrite Hu. cbv beta zeta. rewrite Hp, Ht. cbv [mbind config_bind try].
    destruct (metrics dest), (logging dest); try done; eexists _, _; (split; [reflexivity|]); simpl; by rewrite lookup_insert_eq. }
  destruct Hrun as (err & c' & E & Hl). cbn [ModifyConfig Jaeger] in E. rewrite Hu in E. cbv beta zeta in E. rewrite E.
  split_and!; [by eexists|done|]. by eapply rejected_pipeline.
Qed.

Definition sample_jaeger : ExporterConfigurer :=
  mkExporterConfigurer "j1" "jaeger" (<["JAEGER_URL" := "jaeger:4317"]> ∅)
    [TracesObservabilitySignal; MetricsObservabilitySignal].

Lemma jaeger_error_leaves_pipeline_witness :
  let '(r, c') := ModifyConfig Jaeger sample_jaeger GetBasicConfig in
  (exists err, r = inl err)
  ∧ pipelines c' !! "traces/jaeger-j1" = Some (exports_to "otlp_grpc/jaeger-j1")
  ∧ ~ collector_accepts c'.
Proof.
  apply (jaeger_error_leaves_pipeline sample_jaeger GetBasicConfig "jaeger:4317" "jaeger:4317");
    by apply (bool_decide_unpack _).
Defined.

(** The pipelines of a result. *)
Definition result_pipelines (r : error + Config * list string) : gmap string Pipeline :=
  match r with inr (c, _) => pipelines c | inl _ => ∅ end.
Definition rejected (r : error + Config * list string) : Prop :=
  exists c signals, r = inr (c, signals) ∧ ~ collector_accepts c.

(** Such a destination spoils the configuration of all others. *)
Example jaeger_spoils_gateway :
  rejected (gateway_config availableConfigers "odigos-system" "onprem" sample_gateway None
    (mkDestination "j1" "jaeger" (GetConfig sample_jaeger) (GetSignals sample_jaeger) None None :: sample_dests)
    sample_processors []).1.
Proof.
  set (r := (gateway_config _ _ _ _ _ _ _ _).1).
  assert (Hr : result_pipelines r !! "traces/jaeger-j1" = Some (exports_to "otlp_grpc/jaeger-j1")) by by vm_compute.
  clearbody r. destruct r as [err|[c signals]]; [discriminate Hr|].
  exists c, signals. split; [done|]. by eapply rejected_pipeline.
Qed.

(** A connector that some pipeline receives from and none exports to. *)
Definition never_exported (x m : string) (c : Config) : bool :=
  bool_decide (is_Some (connectors c !! x)) && bool_decide (x ∈ default [] (Receivers <$> pipelines c !! m))
  && bool_decide (map_Forall (fun _ p => x ∉ Exporters p) (pipelines c)).
Definition check_result (f : Config -> bool) (r : error + Config * list string) : bool :=
  match r with inr (c, _) => f c | inl _ => false end.

Lemma never_exported_rejected x m c : never_exported x m c = true -> ~ collector_accepts c.
Proof.
  intros [[Hin Hr]%andb_true_iff Hx]%andb_true_iff. apply bool_decide_eq_true in Hin, Hr, Hx.
  intros [_ _ _ _ He _]. destruct (He x m Hin) as (n & (p & Hp & Hpx) & _).
  - unfold received_in. destruct (pipelines c !! m) as [p|]; [by exists p|by apply elem_of_nil in Hr].
  - by apply (Hx n p Hp).
Qed.
Lemma check_rejected f r :
  (forall c, f c = true -> ~ collector_accepts c) -> check_result f r = true -> rejected r.
Proof. intros Hf Hr. destruct r as [err|[c signals]]; [done|]. exists c, signals. split; [done|]. by apply Hf. Qed.

(** A destination that selects sources by namespace only is in no data stream:
    its forward connector is received from and never exported to. *)
Example namespace_selector_rejected :
  rejected (gateway_config availableConfigers "odigos-system" "onprem" sample_gateway None
    (mkDestination "n1" "nop" ∅ [TracesObservabilitySignal] None (Some (mkSourceSelector ["shop"] [])) :: sample_dests)
    sample_processors []).1.
Proof. eapply check_rejected; [apply (never_exported_rejected "forward/traces/nop-n1" "traces/nop-n1")|by vm_compute]. Qed.

(** An endpoint that parses, for Bonree. *)
Definition sample_https : GoUrl := {|
  url_parse s := inr (mkURL "https" None s "" "");
  url_string u := Scheme u +:+ "://" +:+ Host u;
  url_Port _ := "";
  url_Hostname := Host;
  SplitHostPort s := inr (s, "4317");
  JoinHostPort h p := h +:+ ":" +:+ p
|}.

(** A Bonree destination for metrics only takes them from the service graph,
    and nothing feeds it. *)
Example bonree_metrics_rejected :
  rejected (gateway_config (@availableConfigers sample_https _ _ _ _) "odigos-system" "onprem" sample_gateway None
    [mkDestination "b1" "bonree" (<["BONREE_ENDPOINT" := "bonree"]> ∅) [MetricsObservabilitySignal] None None] [] []).1.
Proof.
  eapply check_rejected; [apply (never_exported_rejected "servicegraph" "metrics/servicegraph/bonree-b1")|by vm_compute].
Qed.
