(* ===== verification/OdigosConfig.v ===== *)
(** * The configuration of odigos (src/common/odigos_config.go)

    The whole [OdigosConfiguration] as the configuration controller of the
    instrumentor reads, merges and persists it.  The other components read
    slices of it: [Api.OdigosConfiguration] is the slice of the agents'
    controllers and of the pods webhook, [GatewayTelemetry.GatewayEffective]
    the slice of the gateway.

    A pointer is an [option]; a slice whose nil value the code tells apart
    from an empty one is an [option] of a list. *)

From S2P Require Import Prelude.
From S2P Require Import GoStrings.
From S2P Require Import K8s.
From S2P Require Import Api.
From S2P Require Import GatewayConfig.
From S2P Require Import GatewayTelemetry.

(** ** Collectors *)

(** [ResourceDetectorConfig] is its [Enabled]. *)
Record ResourceDetectorsConfiguration := mkDetectors
  { det_EC2 : option (option bool);
    det_EKS : option (option bool);
    det_Azure : option (option bool);
    det_AKS : option (option bool);
    det_GCP : option (option bool) }.

Record CollectorNodeConfiguration := mkNodeConf
  { nd_CollectorOwnMetricsPort : Z;
    nd_RequestMemoryMiB : Z;
    nd_LimitMemoryMiB : Z;
    nd_RequestCPUm : Z;
    nd_LimitCPUm : Z;
    nd_MemoryLimiterLimitMiB : Z;
    nd_MemoryLimiterSpikeLimitMiB : Z;
    nd_GoMemLimitMib : Z;
    nd_EnableDataCompression : option bool;
    nd_OtlpExporterConfiguration : option OtlpExporterConfiguration;
    nd_ResourceDetectors : option ResourceDetectorsConfiguration }.

Record CollectorGatewayConfiguration := mkGatewayConf
  { gw_MinReplicas : Z;
    gw_MaxReplicas : Z;
    gw_RequestMemoryMiB : Z;
    gw_LimitMemoryMiB : Z;
    gw_RequestCPUm : Z;
    gw_LimitCPUm : Z;
    gw_MemoryLimiterLimitMiB : Z;
    gw_MemoryLimiterSpikeLimitMiB : Z;
    gw_GoMemLimitMib : Z;
    gw_ServiceGraph : option ServiceGraphOptions;
    gw_ClusterMetricsEnabled : option bool;
    gw_HttpsProxyAddress : option string;
    gw_NodeSelector : option (gmap string string);
    gw_DeploymentName : string }.

(** ** Metrics sources *)

Record MetricsSourceSpanMetricsConfiguration := mkSpanMetricsSource
  { msp_Disabled : option bool;
    msp_Interval : string;
    msp_MetricsExpiration : string;
    msp_AdditionalDimensions : list string;
    msp_HistogramDisabled : bool;
    msp_ExplicitHistogramBuckets : list string;
    msp_IncludedProcessInDimensions : option bool;
    msp_ExcludedResourceAttributes : list string;
    msp_ResourceMetricsKeyAttributes : list string;
    msp_SpanMetricsMode : option string }.
(** [MetricsSourceHostMetricsConfiguration] and [MetricsSourceKubeletStatsConfiguration]
    have the same two fields. *)
Record MetricsSourceHostMetricsConfiguration := mkHostMetrics
  { mh_Disabled : option bool; mh_Interval : string }.
Record MetricsSourceKubeletStatsConfiguration := mkKubeletStats
  { mk_Disabled : option bool; mk_Interval : string }.
(** [OdigosOwnMetrics] is its [Interval]. *)
Record MetricsSources := mkMetricsSources
  { src_SpanMetrics : option MetricsSourceSpanMetricsConfiguration;
    src_HostMetrics : option MetricsSourceHostMetricsConfiguration;
    src_KubeletStats : option MetricsSourceKubeletStatsConfiguration;
    src_OdigosOwnMetrics : option string;
    src_AgentMetrics : option AgentMetricsConfiguration }.

(** ** Traces, profiles and logs *)

(** [TraceCorrelationsServiceIOConfiguration]; the configuration tells an
    absent list of attributes from an empty one. *)
Record ServiceIOSettings := mkServiceIOSettings
  { sios_Enabled : option bool;
    sios_InputSpanAttributes : option (list string);
    sios_OutputSpanAttributes : option (list string);
    sios_MetricsFlushInterval : string }.

Record SamplingSettings := mkSamplingSettings
  { smps_DryRun : option bool;
    smps_SpanSamplingAttributes : option SpanSamplingAttributesConfiguration;
    smps_TailSampling : option TailSamplingConfiguration;
    smps_K8sHealthProbesSampling : option HealthProbesSamplingConfiguration }.

Record ProfilingUiConfiguration := mkProfilingUi
  { pui_SlotTTLSeconds : Z; pui_MaxSlots : Z; pui_SlotMaxBytes : Z }.
(** [Symbolization] is its [Native]. *)
Record ProfilingSettings := mkProfilingSettings
  { pfs_Enabled : option bool;
    pfs_Exporter : option OtlpExporterConfiguration;
    pfs_Symbolization : option (option bool);
    pfs_Ui : option ProfilingUiConfiguration }.

Record LogLevels := mkAllLogLevels
  { ll_Default : string; ll_Autoscaler : string; ll_Scheduler : string; ll_Instrumentor : string;
    ll_Odiglet : string; ll_Deviceplugin : string; ll_UI : string; ll_Collector : string }.

(** ** The configuration *)

Record OidcConfiguration := mkOidc { oidc_TenantUrl : string; oidc_ClientId : string; oidc_ClientSecret : string }.

(** The fields that no controller of the instrumentor writes;
    [ins_OwnTelemetryStore] is [OdigosOwnTelemetryStore], its [MetricsStoreDisabled]. *)
Record InstallationConfiguration := mkInstallation
  { in_ConfigVersion : Z;
    in_OpenshiftEnabled : bool;
    in_Psp : bool;
    in_ImagePrefix : string;
    in_SkipWebhookIssuerCreation : bool;
    in_UiMode : string;
    in_UiPaginationLimit : Z;
    in_UiRemoteUrl : string;
    in_CentralBackendURL : string;
    in_CustomContainerRuntimeSocketPath : string;
    in_UserInstrumentationEnvs : option (gmap string LanguageConfig);
    in_NodeSelector : gmap string string;
    in_KarpenterEnabled : option bool;
    in_Oidc : option OidcConfiguration;
    in_OdigletHealthProbeBindPort : Z;
    in_ClickhouseJsonTypeEnabledProperty : option bool;
    in_TraceIdSuffix : string;
    in_AllowedTestConnectionHosts : list string;
    in_OwnTelemetryStore : option (option bool);
    in_ImagePullSecrets : list string;
    in_Insights : option InsightsConfiguration }.

(** [oc_TraceCorrelations] is [TraceCorrelations], its [ServiceIO]. *)
Record Configuration := mkConfiguration
  { oc_Installation : InstallationConfiguration;
    oc_TelemetryEnabled : bool;
    oc_IgnoredNamespaces : option (list string);
    oc_IgnoredContainers : option (list string);
    oc_IgnoreOdigosNamespace : option bool;
    oc_CollectorGateway : option CollectorGatewayConfiguration;
    oc_CollectorNode : option CollectorNodeConfiguration;
    oc_Profiles : list string;
    oc_AllowConcurrentAgents : option bool;
    oc_McpAccessMode : string;
    oc_McpEnabled : option bool;
    oc_ClusterName : string;
    oc_MountMethod : option string;
    oc_AgentEnvVarsInjectionMethod : option string;
    oc_Rollout : option RolloutConfiguration;
    oc_RollbackDisabled : option bool;
    oc_RollbackGraceTime : string;
    oc_RollbackStabilityWindow : string;
    oc_GoAutoOffsetsCron : string;
    oc_GoAutoOffsetsMode : string;
    oc_CheckDeviceHealthBeforeInjection : option bool;
    oc_ResourceSizePreset : string;
    oc_MetricsSources : option MetricsSources;
    oc_TraceCorrelations : option (option ServiceIOSettings);
    oc_AgentsInitContainerResources : option AgentsInitContainerResources;
    oc_Sampling : option SamplingSettings;
    oc_ComponentLogLevels : option LogLevels;
    oc_Profiling : option ProfilingSettings }.

(** ** Assignments to fields *)

Definition set_IgnoredNamespaces (x : option (list string)) (c : Configuration) : Configuration :=
  mkConfiguration (oc_Installation c) (oc_TelemetryEnabled c) x (oc_IgnoredContainers c)
    (oc_IgnoreOdigosNamespace c) (oc_CollectorGateway c) (oc_CollectorNode c) (oc_Profiles c)
    (oc_AllowConcurrentAgents c) (oc_McpAccessMode c) (oc_McpEnabled c) (oc_ClusterName c) (oc_MountMethod c)
    (oc_AgentEnvVarsInjectionMethod c) (oc_Rollout c) (oc_RollbackDisabled c) (oc_RollbackGraceTime c)
    (oc_RollbackStabilityWindow c) (oc_GoAutoOffsetsCron c) (oc_GoAutoOffsetsMode c)
    (oc_CheckDeviceHealthBeforeInjection c) (oc_ResourceSizePreset c) (oc_MetricsSources c)
    (oc_TraceCorrelations c) (oc_AgentsInitContainerResources c) (oc_Sampling c) (oc_ComponentLogLevels c)
    (oc_Profiling c).
Definition set_CollectorGateway (x : option CollectorGatewayConfiguration) (c : Configuration) : Configuration :=
  mkConfiguration (oc_Installation c) (oc_TelemetryEnabled c) (oc_IgnoredNamespaces c) (oc_IgnoredContainers c)
    (oc_IgnoreOdigosNamespace c) x (oc_CollectorNode c) (oc_Profiles c) (oc_AllowConcurrentAgents c)
    (oc_McpAccessMode c) (oc_McpEnabled c) (oc_ClusterName c) (oc_MountMethod c)
    (oc_AgentEnvVarsInjectionMethod c) (oc_Rollout c) (oc_RollbackDisabled c) (oc_RollbackGraceTime c)
    (oc_RollbackStabilityWindow c) (oc_GoAutoOffsetsCron c) (oc_GoAutoOffsetsMode c)
    (oc_CheckDeviceHealthBeforeInjection c) (oc_ResourceSizePreset c) (oc_MetricsSources c)
    (oc_TraceCorrelations c) (oc_AgentsInitContainerResources c) (oc_Sampling c) (oc_ComponentLogLevels c)
    (oc_Profiling c).
Definition set_CollectorNode (x : option CollectorNodeConfiguration) (c : Configuration) : Configuration :=
  mkConfiguration (oc_Installation c) (oc_TelemetryEnabled c) (oc_IgnoredNamespaces c) (oc_IgnoredContainers c)
    (oc_IgnoreOdigosNamespace c) (oc_CollectorGateway c) x (oc_Profiles c) (oc_AllowConcurrentAgents c)
    (oc_McpAccessMode c) (oc_McpEnabled c) (oc_ClusterName c) (oc_MountMethod c)
    (oc_AgentEnvVarsInjectionMethod c) (oc_Rollout c) (oc_RollbackDisabled c) (oc_RollbackGraceTime c)
    (oc_RollbackStabilityWindow c) (oc_GoAutoOffsetsCron c) (oc_GoAutoOffsetsMode c)
    (oc_CheckDeviceHealthBeforeInjection c) (oc_ResourceSizePreset c) (oc_MetricsSources c)
    (oc_TraceCorrelations c) (oc_AgentsInitContainerResources c) (oc_Sampling c) (oc_ComponentLogLevels c)
    (oc_Profiling c).
Definition set_Profiles (x : list string) (c : Configuration) : Configuration :=
  mkConfiguration (oc_Installation c) (oc_TelemetryEnabled c) (oc_IgnoredNamespaces c) (oc_IgnoredContainers c)
    (oc_IgnoreOdigosNamespace c) (oc_CollectorGateway c) (oc_CollectorNode c) x (oc_AllowConcurrentAgents c)
    (oc_McpAccessMode c) (oc_McpEnabled c) (oc_ClusterName c) (oc_MountMethod c)
    (oc_AgentEnvVarsInjectionMethod c) (oc_Rollout c) (oc_RollbackDisabled c) (oc_RollbackGraceTime c)
    (oc_RollbackStabilityWindow c) (oc_GoAutoOffsetsCron c) (oc_GoAutoOffsetsMode c)
    (oc_CheckDeviceHealthBeforeInjection c) (oc_ResourceSizePreset c) (oc_MetricsSources c)
    (oc_TraceCorrelations c) (oc_AgentsInitContainerResources c) (oc_Sampling c) (oc_ComponentLogLevels c)
    (oc_Profiling c).
Definition set_AllowConcurrentAgents (x : option bool) (c : Configuration) : Configuration :=
  mkConfiguration (oc_Installation c) (oc_TelemetryEnabled c) (oc_IgnoredNamespaces c) (oc_IgnoredContainers c)
    (oc_IgnoreOdigosNamespace c) (oc_CollectorGateway c) (oc_CollectorNode c) (oc_Profiles c) x
    (oc_McpAccessMode c) (oc_McpEnabled c) (oc_ClusterName c) (oc_MountMethod c)
    (oc_AgentEnvVarsInjectionMethod c) (oc_Rollout c) (oc_RollbackDisabled c) (oc_RollbackGraceTime c)
    (oc_RollbackStabilityWindow c) (oc_GoAutoOffsetsCron c) (oc_GoAutoOffsetsMode c)
    (oc_CheckDeviceHealthBeforeInjection c) (oc_ResourceSizePreset c) (oc_MetricsSources c)
    (oc_TraceCorrelations c) (oc_AgentsInitContainerResources c) (oc_Sampling c) (oc_ComponentLogLevels c)
    (oc_Profiling c).
Definition set_MountMethod (x : option string) (c : Configuration) : Configuration :=
  mkConfiguration (oc_Installation c) (oc_TelemetryEnabled c) (oc_IgnoredNamespaces c) (oc_IgnoredContainers c)
    (oc_IgnoreOdigosNamespace c) (oc_CollectorGateway c) (oc_CollectorNode c) (oc_Profiles c)
    (oc_AllowConcurrentAgents c) (oc_McpAccessMode c) (oc_McpEnabled c) (oc_ClusterName c) x
    (oc_AgentEnvVarsInjectionMethod c) (oc_Rollout c) (oc_RollbackDisabled c) (oc_RollbackGraceTime c)
    (oc_RollbackStabilityWindow c) (oc_GoAutoOffsetsCron c) (oc_GoAutoOffsetsMode c)
    (oc_CheckDeviceHealthBeforeInjection c) (oc_ResourceSizePreset c) (oc_MetricsSources c)
    (oc_TraceCorrelations c) (oc_AgentsInitContainerResources c) (oc_Sampling c) (oc_ComponentLogLevels c)
    (oc_Profiling c).
Definition set_AgentEnvVarsInjectionMethod (x : option string) (c : Configuration) : Configuration :=
  mkConfiguration (oc_Installation c) (oc_TelemetryEnabled c) (oc_IgnoredNamespaces c) (oc_IgnoredContainers c)
    (oc_IgnoreOdigosNamespace c) (oc_CollectorGateway c) (oc_CollectorNode c) (oc_Profiles c)
    (oc_AllowConcurrentAgents c) (oc_McpAccessMode c) (oc_McpEnabled c) (oc_ClusterName c) (oc_MountMethod c) x
    (oc_Rollout c) (oc_RollbackDisabled c) (oc_RollbackGraceTime c) (oc_RollbackStabilityWindow c)
    (oc_GoAutoOffsetsCron c) (oc_GoAutoOffsetsMode c) (oc_CheckDeviceHealthBeforeInjection c)
    (oc_ResourceSizePreset c) (oc_MetricsSources c) (oc_TraceCorrelations c) (oc_AgentsInitContainerResources c)
    (oc_Sampling c) (oc_ComponentLogLevels c) (oc_Profiling c).
Definition set_RollbackDisabled (x : option bool) (c : Configuration) : Configuration :=
  mkConfiguration (oc_Installation c) (oc_TelemetryEnabled c) (oc_IgnoredNamespaces c) (oc_IgnoredContainers c)
    (oc_IgnoreOdigosNamespace c) (oc_CollectorGateway c) (oc_CollectorNode c) (oc_Profiles c)
    (oc_AllowConcurrentAgents c) (oc_McpAccessMode c) (oc_McpEnabled c) (oc_ClusterName c) (oc_MountMethod c)
    (oc_AgentEnvVarsInjectionMethod c) (oc_Rollout c) x (oc_RollbackGraceTime c) (oc_RollbackStabilityWindow c)
    (oc_GoAutoOffsetsCron c) (oc_GoAutoOffsetsMode c) (oc_CheckDeviceHealthBeforeInjection c)
    (oc_ResourceSizePreset c) (oc_MetricsSources c) (oc_TraceCorrelations c) (oc_AgentsInitContainerResources c)
    (oc_Sampling c) (oc_ComponentLogLevels c) (oc_Profiling c).
Definition set_CheckDeviceHealthBeforeInjection (x : option bool) (c : Configuration) : Configuration :=
  mkConfiguration (oc_Installation c) (oc_TelemetryEnabled c) (oc_IgnoredNamespaces c) (oc_IgnoredContainers c)
    (oc_IgnoreOdigosNamespace c) (oc_CollectorGateway c) (oc_CollectorNode c) (oc_Profiles c)
    (oc_AllowConcurrentAgents c) (oc_McpAccessMode c) (oc_McpEnabled c) (oc_ClusterName c) (oc_MountMethod c)
    (oc_AgentEnvVarsInjectionMethod c) (oc_Rollout c) (oc_RollbackDisabled c) (oc_RollbackGraceTime c)
    (oc_RollbackStabilityWindow c) (oc_GoAutoOffsetsCron c) (oc_GoAutoOffsetsMode c) x (oc_ResourceSizePreset c)
    (oc_MetricsSources c) (oc_TraceCorrelations c) (oc_AgentsInitContainerResources c) (oc_Sampling c)
    (oc_ComponentLogLevels c) (oc_Profiling c).
Definition set_ResourceSizePreset (x : string) (c : Configuration) : Configuration :=
  mkConfiguration (oc_Installation c) (oc_TelemetryEnabled c) (oc_IgnoredNamespaces c) (oc_IgnoredContainers c)
    (oc_IgnoreOdigosNamespace c) (oc_CollectorGateway c) (oc_CollectorNode c) (oc_Profiles c)
    (oc_AllowConcurrentAgents c) (oc_McpAccessMode c) (oc_McpEnabled c) (oc_ClusterName c) (oc_MountMethod c)
    (oc_AgentEnvVarsInjectionMethod c) (oc_Rollout c) (oc_RollbackDisabled c) (oc_RollbackGraceTime c)
    (oc_RollbackStabilityWindow c) (oc_GoAutoOffsetsCron c) (oc_GoAutoOffsetsMode c)
    (oc_CheckDeviceHealthBeforeInjection c) x (oc_MetricsSources c) (oc_TraceCorrelations c)
    (oc_AgentsInitContainerResources c) (oc_Sampling c) (oc_ComponentLogLevels c) (oc_Profiling c).
Definition set_MetricsSources (x : option MetricsSources) (c : Configuration) : Configuration :=
  mkConfiguration (oc_Installation c) (oc_TelemetryEnabled c) (oc_IgnoredNamespaces c) (oc_IgnoredContainers c)
    (oc_IgnoreOdigosNamespace c) (oc_CollectorGateway c) (oc_CollectorNode c) (oc_Profiles c)
    (oc_AllowConcurrentAgents c) (oc_McpAccessMode c) (oc_McpEnabled c) (oc_ClusterName c) (oc_MountMethod c)
    (oc_AgentEnvVarsInjectionMethod c) (oc_Rollout c) (oc_RollbackDisabled c) (oc_RollbackGraceTime c)
    (oc_RollbackStabilityWindow c) (oc_GoAutoOffsetsCron c) (oc_GoAutoOffsetsMode c)
    (oc_CheckDeviceHealthBeforeInjection c) (oc_ResourceSizePreset c) x (oc_TraceCorrelations c)
    (oc_AgentsInitContainerResources c) (oc_Sampling c) (oc_ComponentLogLevels c) (oc_Profiling c).
Definition set_AgentsInitContainerResources (x : option AgentsInitContainerResources) (c : Configuration) : Configuration :=
  mkConfiguration (oc_Installation c) (oc_TelemetryEnabled c) (oc_IgnoredNamespaces c) (oc_IgnoredContainers c)
    (oc_IgnoreOdigosNamespace c) (oc_CollectorGateway c) (oc_CollectorNode c) (oc_Profiles c)
    (oc_AllowConcurrentAgents c) (oc_McpAccessMode c) (oc_McpEnabled c) (oc_ClusterName c) (oc_MountMethod c)
    (oc_AgentEnvVarsInjectionMethod c) (oc_Rollout c) (oc_RollbackDisabled c) (oc_RollbackGraceTime c)
    (oc_RollbackStabilityWindow c) (oc_GoAutoOffsetsCron c) (oc_GoAutoOffsetsMode c)
    (oc_CheckDeviceHealthBeforeInjection c) (oc_ResourceSizePreset c) (oc_MetricsSources c)
    (oc_TraceCorrelations c) x (oc_Sampling c) (oc_ComponentLogLevels c) (oc_Profiling c).

(** The component's own level, else the default, else [info]. *)
Definition Resolve (c : option LogLevels) (component : string) : string :=
  match c with
  | None => "info"
  | Some c =>
      let v := switch component
                 [("autoscaler", ll_Autoscaler c); ("scheduler", ll_Scheduler c);
                  ("instrumentor", ll_Instrumentor c); ("odiglet", ll_Odiglet c);
                  ("deviceplugin", ll_Deviceplugin c); ("ui", ll_UI c); ("collector", ll_Collector c)] "" in
      if decide (v <> "") then v
      else if decide (ll_Default c <> "") then ll_Default c else "info"
  end.

Definition NativeSymbolizationEnabled (p : option ProfilingSettings) : bool :=
  match p with
  | None => false
  | Some p =>
      if negb (deref_bool (pfs_Enabled p)) then false
      else match pfs_Symbolization p with Some (Some native) => native | _ => true end
  end.

(** [TraceCorrelationsServiceIOPipelineActive]. *)
Definition TraceCorrelationsActive (t : option (option ServiceIOSettings)) : bool :=
  match t with Some (Some s) => deref_bool (sios_Enabled s) | _ => false end.

(** ** What the other components read of it *)

(** The settings of the serviceio connector, as the collectors group carries them. *)
Definition serviceio_spec (s : ServiceIOSettings) : TraceCorrelationsServiceIOConfiguration :=
  mkServiceIO (sios_Enabled s) (default [] (sios_InputSpanAttributes s)) (default [] (sios_OutputSpanAttributes s))
    (sios_MetricsFlushInterval s).

(** The effective configuration is persisted without its empty lists. *)
Definition omitempty {A} (l : list A) : option (list A) := match l with [] => None | _ => Some l end.

Definition span_metrics_view (s : MetricsSourceSpanMetricsConfiguration) : SpanMetricsConfiguration :=
  mkSpanMetricsConf (msp_Disabled s) (msp_Interval s) (omitempty (msp_AdditionalDimensions s))
    (msp_ExplicitHistogramBuckets s) (msp_SpanMetricsMode s).

(** The slice of the agents' controllers and of the pods webhook. *)
Definition agents_view (c : Configuration) : OdigosConfiguration :=
  let i := oc_Installation c in
  {| conf_ignored_containers := default [] (oc_IgnoredContainers c);
     conf_allow_concurrent_agents := oc_AllowConcurrentAgents c;
     conf_env_injection := oc_AgentEnvVarsInjectionMethod c;
     conf_rollout := oc_Rollout c;
     conf_rollback_disabled := oc_RollbackDisabled c;
     conf_rollback_grace_time := oc_RollbackGraceTime c;
     conf_rollback_stability_window := oc_RollbackStabilityWindow c;
     conf_metrics_sources :=
       (fun m => mkMetricsSource (span_metrics_view <$> src_SpanMetrics m) (src_AgentMetrics m)) <$> oc_MetricsSources c;
     conf_trace_id_suffix := in_TraceIdSuffix i;
     conf_sampling :=
       (fun s => mkSamplingConf (smps_DryRun s) (smps_K8sHealthProbesSampling s)) <$> oc_Sampling c;
     conf_pods := mkPodsConf (oc_MountMethod c) (in_KarpenterEnabled i) (oc_CheckDeviceHealthBeforeInjection c)
       (in_ImagePrefix i) (in_ImagePullSecrets i) (in_UserInstrumentationEnvs i) (oc_AgentsInitContainerResources c) |}.

(** The slice of the gateway. *)
Definition gateway_view (c : Configuration) : GatewayEffective :=
  {| ge_Profiling := (fun p => mkProfiling (pfs_Enabled p) (pfs_Exporter p)) <$> oc_Profiling c;
     ge_Insights := in_Insights (oc_Installation c);
     ge_ComponentLogLevels := (fun l => mkLogLevels (ll_Default l) (ll_Collector l)) <$> oc_ComponentLogLevels c |}.

(** The log level of the gateway is the collector's level of the configuration. *)
Lemma gateway_log_level c : log_level_of (Some (gateway_view c)) = Resolve (oc_ComponentLogLevels c) "collector".
Proof. unfold log_level_of, gateway_view, Resolve. simpl. by destruct (oc_ComponentLogLevels c) as [l|]. Qed.

(** ** Configurations for concrete runs *)

Definition no_installation : InstallationConfiguration :=
  mkInstallation 0 false false "" false "" 0 "" "" "" None ∅ None None 0 None "" [] None [] None.
(** The zero value of the Go struct. *)
Definition zero_configuration : Configuration :=
  mkConfiguration no_installation false None None None None None [] None "" None "" None None None None "" "" "" ""
    None "" None None None None None None.
