(* ===== verification/Profiles.v ===== *)
(** * Profiles (src/profiles, src/instrumentor/controllers/odigosconfiguration/profileutils.go)

    The profiles of the repository, which of them a tier may use, the closure
    of a list of profiles under their dependencies, and what the profiles
    change in the configuration.

    The closure recurses along the dependencies without a guard: it runs with
    fuel, and [None] is a recursion that has not returned.  A rank that
    decreases along the dependencies bounds it ([effective_profiles_rank]);
    the shipped profiles have the rank 0 or 1. *)

From S2P Require Import Prelude.
From S2P Require Import GoStrings.
From S2P Require Import GoSort.
From S2P Require Import K8s.
From S2P Require Import Api.
From S2P Require Import PodEnv.
From S2P Require Import GatewayConfig.
From S2P Require Import GatewayTelemetry.
From S2P Require Import OdigosConfig.

(** ** Profiles (profile/profile.go) *)

Record Profile := mkProfile
  { ProfileName : string;
    MinimumTier : string;
    Dependencies : list string;
    ModifyConfigFunc : option (Configuration -> Configuration) }.

Definition FindProfileByName (profileName : string) (profiles : list Profile) : option Profile :=
  first_match (fun p => bool_decide (ProfileName p = profileName)) profiles.

(** ** What profiles change (aggregators, instrumentation) *)

(** The configurations that the kratos profile creates where they are nil. *)
Definition java_runtime_disabled (r : option RuntimeMetricsConfiguration) : RuntimeMetricsConfiguration :=
  mkRuntimeMetrics (Some (Some true, default [] (snd <$> (r ≫= rm_java)))).
Definition agent_metrics_kratos (a : option AgentMetricsConfiguration) : AgentMetricsConfiguration :=
  mkAgentMetricsConf (a ≫= amc_span_metrics) (Some (java_runtime_disabled (a ≫= amc_runtime_metrics))).
Definition no_metrics_sources : MetricsSources := mkMetricsSources None None None None None.
Definition metrics_sources_kratos (m : option MetricsSources) : MetricsSources :=
  let m := default no_metrics_sources m in
  mkMetricsSources (src_SpanMetrics m) (src_HostMetrics m) (src_KubeletStats m) (src_OdigosOwnMetrics m)
    (Some (agent_metrics_kratos (src_AgentMetrics m))).

Definition kratos_modify (c : Configuration) : Configuration :=
  set_MetricsSources (Some (metrics_sources_kratos (oc_MetricsSources c))) (set_RollbackDisabled (Some true) c).

Definition empty_node_configuration : CollectorNodeConfiguration := mkNodeConf 0 0 0 0 0 0 0 0 None None None.
Definition or_else {A} (p : option A) (a : A) : option A := match p with Some _ => p | None => Some a end.

Definition greatwall_modify (c : Configuration) : Configuration :=
  set_CheckDeviceHealthBeforeInjection (or_else (oc_CheckDeviceHealthBeforeInjection c) true)
    (set_CollectorNode (or_else (oc_CollectorNode c) empty_node_configuration) c).
Definition allow_concurrent_modify (c : Configuration) : Configuration :=
  set_AllowConcurrentAgents (or_else (oc_AllowConcurrentAgents c) true) c.
Definition pod_manifest_modify (c : Configuration) : Configuration :=
  set_AgentEnvVarsInjectionMethod (or_else (oc_AgentEnvVarsInjectionMethod c) PodManifestEnvInjectionMethod) c.
Definition host_path_modify (c : Configuration) : Configuration :=
  set_MountMethod (or_else (oc_MountMethod c) K8sHostPathMountMethod) c.
(** The user's choice is overwritten. *)
Definition virtual_device_modify (c : Configuration) : Configuration :=
  set_MountMethod (Some K8sVirtualDeviceMountMethod) c.

(** ** The list (allprofiles.go) *)

Definition OnPremOdigosTier : string := "onprem".

Definition plain_profile (tier name : string) : Profile := mkProfile name tier [] None.

Definition KratosProfile : Profile :=
  mkProfile "kratos" OnPremOdigosTier
    ["db-payload-collection"; "semconv"; "copy-scope"; "hostname-as-podname"; "code-attributes";
     "allow_concurrent_agents"; "reduce-span-name-cardinality"; "disable-gin"; "disable-golang-gin";
     "semconvdynamo"; "semconvredis"; "java-enterprise"]
    (Some kratos_modify).
Definition GreatwallProfile : Profile :=
  mkProfile "greatwall" OnPremOdigosTier ["legacy-dotnet-instrumentation"; "pod-manifest-env-var-injection"]
    (Some greatwall_modify).
Definition InsightsProfile : Profile :=
  mkProfile "insights" OnPremOdigosTier ["infer-db-attributes"; "url-template"; "full-payload-collection"] None.
Definition AllowConcurrentAgents : Profile :=
  mkProfile "allow_concurrent_agents" CommunityOdigosTier [] (Some allow_concurrent_modify).
Definition PodManifestEnvVarInjection : Profile :=
  mkProfile "pod-manifest-env-var-injection" CommunityOdigosTier [] (Some pod_manifest_modify).
Definition MountMethodK8sHostPathProfile : Profile :=
  mkProfile "mount-method-k8s-host-path" CommunityOdigosTier [] (Some host_path_modify).
Definition MountMethodK8sVirtualDevice : Profile :=
  mkProfile "mount-method-k8s-virtual-device" CommunityOdigosTier [] (Some virtual_device_modify).

Definition AllProfiles : list Profile :=
  [KratosProfile; GreatwallProfile; InsightsProfile;
   plain_profile OnPremOdigosTier "category-attributes";
   plain_profile OnPremOdigosTier "code-attributes";
   plain_profile CommunityOdigosTier "copy-scope";
   plain_profile OnPremOdigosTier "hostname-as-podname";
   plain_profile OnPremOdigosTier "full-payload-collection";
   plain_profile OnPremOdigosTier "db-payload-collection";
   plain_profile OnPremOdigosTier "query-operation-detector";
   plain_profile CommunityOdigosTier "url-template";
   plain_profile CommunityOdigosTier "infer-db-attributes";
   plain_profile CommunityOdigosTier "semconv";
   plain_profile CommunityOdigosTier "semconvdynamo";
   plain_profile CommunityOdigosTier "semconvredis";
   plain_profile OnPremOdigosTier "reduce-span-name-cardinality";
   AllowConcurrentAgents;
   plain_profile OnPremOdigosTier "ebpf-log-capture";
   plain_profile OnPremOdigosTier "java-ebpf-instrumentations";
   plain_profile OnPremOdigosTier "java-enterprise";
   plain_profile OnPremOdigosTier "java-native-instrumentations";
   plain_profile OnPremOdigosTier "legacy-dotnet-instrumentation";
   plain_profile OnPremOdigosTier "legacy-ruby-instrumentation";
   MountMethodK8sHostPathProfile;
   MountMethodK8sVirtualDevice;
   PodManifestEnvVarInjection;
   plain_profile OnPremOdigosTier "disable-gin";
   plain_profile OnPremOdigosTier "disable-golang-gin";
   plain_profile CommunityOdigosTier "disable-nodejs-express";
   plain_profile CommunityOdigosTier "nodejs-verbosity-full"].

(** [init]: a later profile replaces an earlier one of the same name. *)
Definition ProfilesByName : gmap string Profile := foldl (fun m p => <[ProfileName p := p]> m) ∅ AllProfiles.
Definition CommunityProfiles : list Profile := filter (fun p => MinimumTier p = CommunityOdigosTier) AllProfiles.
Definition OnPremProfiles : list Profile :=
  filter (fun p => MinimumTier p = CommunityOdigosTier ∨ MinimumTier p = OnPremOdigosTier) AllProfiles.

Definition GetAvailableProfilesForTier (odigosTier : string) : list Profile :=
  switch odigosTier [(CommunityOdigosTier, CommunityProfiles); (OnPremOdigosTier, OnPremProfiles)] [].

(** ** The profiles that are in effect (profileutils.go) *)

Fixpoint calculateEffectiveProfiles (fuel : nat) (configProfiles : list string) (availableProfiles : list Profile) :
    option (list string) :=
  match fuel with
  | O => None
  | S fuel =>
      mjoin <$> mapM (fun profileName =>
        match FindProfileByName profileName availableProfiles with
        | None => Some []
        | Some p =>
            match Dependencies p with
            | [] => Some [profileName]
            | deps => (fun l => profileName :: l) <$> calculateEffectiveProfiles fuel deps availableProfiles
            end
        end) configProfiles
  end.

(** Looked up in the map of all profiles; a missing one is the zero value. *)
Definition apply_profile (profileName : string) (c : Configuration) : Configuration :=
  match ProfilesByName !! profileName ≫= ModifyConfigFunc with Some f => f c | None => c end.
Definition modifyConfigWithEffectiveProfiles (effectiveProfiles : list string) (c : Configuration) : Configuration :=
  foldl (fun c profileName => apply_profile profileName c) c effectiveProfiles.

(** The hash that marks the objects of a deployment; [digest] is sha256, 16
    bytes of it in hex. *)
Definition calculateProfilesDeploymentHash `{GoSort} (digest : string -> string) (profiles : list string)
    (odigosVersion : string) : string :=
  digest (join "" (SortFunc string_compare (profiles ++ [odigosVersion]))).

Example kratos_first : default [] (calculateEffectiveProfiles 2 ["insights"; "typo"] OnPremProfiles)
  = ["insights"; "infer-db-attributes"; "url-template"; "full-payload-collection"].
Proof. vm_compute. reflexivity. Qed.

(** * The effective profiles, and that their order does not matter

    The closure under dependencies returns for acyclic profiles and is the
    least set that holds the available profiles of the list and their
    available dependencies; the changes of the profiles commute, so the
    effective configuration only depends on which profiles are in effect. *)

(** ** The closure *)

(** A profile is in effect when it is available and asked for, by the
    configuration or by a profile that is in effect. *)
Inductive in_effect (available : list Profile) (asked : list string) : string -> Prop :=
| effect_asked n : n ∈ asked -> is_Some (FindProfileByName n available) -> in_effect available asked n
| effect_dependency p n :
    in_effect available asked (ProfileName p) -> FindProfileByName (ProfileName p) available = Some p ->
    n ∈ Dependencies p -> is_Some (FindProfileByName n available) -> in_effect available asked n.

Lemma FindProfileByName_name n l p : FindProfileByName n l = Some p -> ProfileName p = n ∧ p ∈ l.
Proof. unfold FindProfileByName. intros [Hin Hb]%first_match_Some.
  by apply bool_decide_eq_true in Hb. Qed.

Lemma in_effect_trans available asked p n :
  in_effect available asked (ProfileName p) -> FindProfileByName (ProfileName p) available = Some p ->
  in_effect available (Dependencies p) n -> in_effect available asked n.
Proof. intros Hp Hf. induction 1; eauto using in_effect. Qed.

Lemma in_effect_mono available asked asked' n :
  asked ⊆ asked' -> in_effect available asked n -> in_effect available asked' n.
Proof. intros Hs. induction 1; eauto using in_effect. Qed.

(** One profile of the list, with what it brings. *)
Definition profile_closure (fuel : nat) (available : list Profile) (profileName : string) : option (list string) :=
  match FindProfileByName profileName available with
  | None => Some []
  | Some p =>
      match Dependencies p with
      | [] => Some [profileName]
      | deps => (fun l => profileName :: l) <$> calculateEffectiveProfiles fuel deps available
      end
  end.

Lemma calculate_step fuel asked available :
  calculateEffectiveProfiles (S fuel) asked available = mjoin <$> mapM (profile_closure fuel available) asked.
Proof. done. Qed.

(** A rank that decreases along the dependencies. *)
Definition ranked (available : list Profile) (rank : string -> nat) : Prop :=
  forall p, p ∈ available -> Forall (fun n => rank n < rank (ProfileName p)) (Dependencies p).

Lemma effective_profiles_rank available rank fuel asked :
  ranked available rank -> 0 < fuel -> Forall (fun n => rank n < fuel) asked ->
  is_Some (calculateEffectiveProfiles fuel asked available).
Proof.
  intros Hr. revert asked. induction fuel as [|fuel IH]; intros asked Hf Ha; [lia|].
  rewrite calculate_step, fmap_is_Some. apply mapM_is_Some. eapply Forall_impl; [exact Ha|].
  intros n Hn. cbn. unfold profile_closure. destruct (FindProfileByName n available) as [p|] eqn:Ep; [|by eexists].
  apply FindProfileByName_name in Ep as [<- Hp]. specialize (Hr p Hp).
  destruct (Dependencies p) as [|d deps]; [by eexists|]. rewrite fmap_is_Some.
  apply IH; [inversion Hr; lia|]. eapply Forall_impl; [exact Hr|]. simpl. lia.
Qed.

(** One profile: what it brings is what is in effect when it alone is asked for. *)
Lemma profile_closure_in_effect available fuel a l :
  (forall asked l, calculateEffectiveProfiles fuel asked available = Some l ->
     forall n, n ∈ l <-> in_effect available asked n) ->
  profile_closure fuel available a = Some l -> forall n, n ∈ l <-> in_effect available [a] n.
Proof.
  intros IH Ha n. unfold profile_closure in Ha. destruct (FindProfileByName a available) as [p|] eqn:Ep.
  2:{ injection Ha as <-. split; [by intros ?%elem_of_nil|]. induction 1 as [m Hm Hs|q m _ IHq _ _ _]; [|by apply elem_of_nil in IHq].
      apply list_elem_of_singleton in Hm as ->. rewrite Ep in Hs. by destruct Hs. }
  pose proof (FindProfileByName_name _ _ _ Ep) as [<- _].
  assert (Hroot : in_effect available [ProfileName p] (ProfileName p)).
  { apply effect_asked; [set_solver|by eexists]. }
  destruct (Dependencies p) as [|d deps] eqn:Ed.
  - injection Ha as <-. split; [by intros ->%list_elem_of_singleton|].
    induction 1 as [m Hm _|q m _ Hq Hf Hd _]; [done|].
    apply list_elem_of_singleton in Hq. rewrite Hq, Ep in Hf. simplify_eq. rewrite Ed in Hd. by apply elem_of_nil in Hd.
  - apply fmap_Some in Ha as (l' & Hl' & ->). specialize (IH _ _ Hl'). rewrite <-Ed in IH. split.
    + intros [->|Hn]%elem_of_cons; [done|]. by eapply in_effect_trans, IH.
    + induction 1 as [m Hm _|q m _ Hq Hf Hd Hm]; [set_solver|]. right.
      apply elem_of_cons in Hq as [Hq|Hq].
      * rewrite Hq, Ep in Hf. simplify_eq. by apply IH, effect_asked.
      * apply IH. by eapply effect_dependency; [apply IH|..].
Qed.

Lemma in_effect_root available asked n :
  in_effect available asked n -> exists a, a ∈ asked ∧ in_effect available [a] n.
Proof.
  induction 1 as [n Hn Hs|p n _ (a & Ha & Hp) Hf Hd Hs].
  - exists n. split; [done|]. apply effect_asked; [set_solver|done].
  - exists a. split; [done|]. by eapply effect_dependency.
Qed.

(** What is computed is what is in effect. *)
Lemma effective_profiles_in_effect available fuel asked l :
  calculateEffectiveProfiles fuel asked available = Some l -> forall n, n ∈ l <-> in_effect available asked n.
Proof.
  revert asked l. induction fuel as [|fuel IH]; intros asked l; [done|]. rewrite calculate_step.
  intros (ls & Hls & ->)%fmap_Some n. apply mapM_Some in Hls. unfold mjoin. rewrite list_elem_of_join. split.
  - intros (l' & Hn & [i Hi]%list_elem_of_lookup). destruct (Forall2_lookup_r _ _ _ _ _ Hls Hi) as (a & Ha & Hc).
    apply (profile_closure_in_effect _ _ _ _ IH Hc) in Hn. apply list_elem_of_lookup_2 in Ha.
    eapply in_effect_mono; [|exact Hn]. set_solver.
  - intros (a & [i Hi]%list_elem_of_lookup & Hr)%in_effect_root.
    destruct (Forall2_lookup_l _ _ _ _ _ Hls Hi) as (l' & Hl' & Hc). exists l'.
    split; [by apply (profile_closure_in_effect _ _ _ _ IH Hc)|by eapply list_elem_of_lookup_2].
Qed.

(** ** The shipped profiles *)

(** Only bundles have dependencies, and no bundle depends on a bundle. *)
Definition bundle_rank (n : string) : nat := if decide (n ∈ ["kratos"; "greatwall"; "insights"]) then 1 else 0.

Lemma shipped_ranked available : available ⊆ AllProfiles -> ranked available bundle_rank.
Proof.
  intros Hs p Hp%Hs. revert p Hp. apply Forall_forall, (bool_decide_unpack _). by vm_compute.
Qed.

Lemma available_shipped tier : GetAvailableProfilesForTier tier ⊆ AllProfiles.
Proof.
  assert (Hf : forall (P : Profile -> Prop) `{!forall p, Decision (P p)}, filter P AllProfiles ⊆ AllProfiles).
  { intros P HP p Hp. by apply list_elem_of_filter in Hp as [_ ?]. }
  unfold GetAvailableProfilesForTier. simpl. unfold CommunityProfiles, OnPremProfiles.
  repeat case_decide; auto. apply list_subseteq_nil.
Qed.

Lemma shipped_effective_profiles tier asked fuel :
  2 <= fuel -> is_Some (calculateEffectiveProfiles fuel asked (GetAvailableProfilesForTier tier)).
Proof.
  intros Hf. eapply effective_profiles_rank; [apply shipped_ranked, available_shipped|lia|].
  apply Forall_forall. intros n _. unfold bundle_rank. case_decide; lia.
Qed.

(** The dependencies of an available profile are available. *)
Lemma shipped_dependencies tier p n :
  p ∈ GetAvailableProfilesForTier tier -> n ∈ Dependencies p -> is_Some (FindProfileByName n (GetAvailableProfilesForTier tier)).
Proof.
  assert (Hall : forall l, l ∈ [CommunityProfiles; OnPremProfiles; []] ->
            Forall (fun p => Forall (fun n => is_Some (FindProfileByName n l)) (Dependencies p)) l).
  { apply Forall_forall. repeat constructor; apply (bool_decide_unpack _); by vm_compute. }
  assert (Hl : GetAvailableProfilesForTier tier ∈ [CommunityProfiles; OnPremProfiles; []]).
  { unfold GetAvailableProfilesForTier. simpl. repeat case_decide; set_solver. }
  intros Hp Hn. specialize (Hall _ Hl). rewrite Forall_forall in Hall. specialize (Hall p Hp).
  rewrite Forall_forall in Hall. by apply Hall.
Qed.

(** ** The changes commute *)

Definition modifiers : list (Configuration -> Configuration) :=
  [id; kratos_modify; greatwall_modify; allow_concurrent_modify; pod_manifest_modify; host_path_modify;
   virtual_device_modify].

Lemma or_else_idem {A} (p : option A) a : or_else (or_else p a) a = or_else p a.
Proof. by destruct p. Qed.

Lemma modifiers_commute f g c : f ∈ modifiers -> g ∈ modifiers -> f (g c) = g (f c).
Proof.
  unfold modifiers. rewrite !elem_of_cons, !elem_of_nil. intros Hf Hg. destruct c.
  destruct Hf as [->|[->|[->|[->|[->|[->|[->|[]]]]]]]]; destruct Hg as [->|[->|[->|[->|[->|[->|[->|[]]]]]]]];
    try reflexivity;
    unfold host_path_modify, virtual_device_modify, set_MountMethod, or_else; simpl; by destruct oc_MountMethod.
Qed.

Lemma kratos_metrics_idem m : metrics_sources_kratos (Some (metrics_sources_kratos m)) = metrics_sources_kratos m.
Proof. done. Qed.

Lemma modifiers_idem f c : f ∈ modifiers -> f (f c) = f c.
Proof.
  unfold modifiers. rewrite !elem_of_cons, elem_of_nil. intros Hf. destruct c.
  destruct Hf as [->|[->|[->|[->|[->|[->|[->|[]]]]]]]]; try reflexivity;
    unfold greatwall_modify, allow_concurrent_modify, pod_manifest_modify, host_path_modify; cbn; by rewrite !or_else_idem.
Qed.

Lemma ProfilesByName_in n p : ProfilesByName !! n = Some p -> p ∈ AllProfiles.
Proof.
  unfold ProfilesByName. generalize AllProfiles. intros l. induction l as [|q l IH] using rev_ind; [done|].
  rewrite foldl_snoc. intros [[_ ->]|[_ Hp]]%lookup_insert_Some; [set_solver|]. apply IH in Hp. set_solver.
Qed.

Lemma shipped_modifiers : Forall (fun p => default id (ModifyConfigFunc p) ∈ modifiers) AllProfiles.
Proof. unfold AllProfiles. repeat constructor; simpl; unfold modifiers; repeat (first [by left|right]). Qed.

Lemma apply_profile_modifier n : exists f, f ∈ modifiers ∧ forall c, apply_profile n c = f c.
Proof.
  unfold apply_profile. destruct (ProfilesByName !! n) as [p|] eqn:Ep; [|by exists id; split; [left|]].
  exists (default id (ModifyConfigFunc p)). split; [|intros c; simpl; by destruct (ModifyConfigFunc p)].
  apply ProfilesByName_in in Ep. revert p Ep. apply Forall_forall, shipped_modifiers.
Qed.

Lemma apply_profile_commute n n' c : apply_profile n (apply_profile n' c) = apply_profile n' (apply_profile n c).
Proof.
  destruct (apply_profile_modifier n) as (f & Hf & E), (apply_profile_modifier n') as (g & Hg & E').
  rewrite !E, !E'. by apply modifiers_commute.
Qed.
Lemma apply_profile_idem n c : apply_profile n (apply_profile n c) = apply_profile n c.
Proof. destruct (apply_profile_modifier n) as (f & Hf & E). rewrite !E. by apply modifiers_idem. Qed.

Lemma modify_cons n l c : modifyConfigWithEffectiveProfiles (n :: l) c = modifyConfigWithEffectiveProfiles l (apply_profile n c).
Proof. done. Qed.
Lemma modify_app l l' c :
  modifyConfigWithEffectiveProfiles (l ++ l') c = modifyConfigWithEffectiveProfiles l' (modifyConfigWithEffectiveProfiles l c).
Proof. apply foldl_app. Qed.

Lemma modify_after n l c :
  modifyConfigWithEffectiveProfiles l (apply_profile n c) = apply_profile n (modifyConfigWithEffectiveProfiles l c).
Proof. revert c. induction l as [|m l IH]; intros c; [done|]. by rewrite !modify_cons, apply_profile_commute, IH. Qed.

Lemma modify_permuted l l' c : l ≡ₚ l' -> modifyConfigWithEffectiveProfiles l c = modifyConfigWithEffectiveProfiles l' c.
Proof.
  intros Hl. apply (foldl_permuted eq); [congruence| |done..]. intros b x y. apply apply_profile_commute.
Qed.

Lemma modify_absorbs n l c : n ∈ l -> apply_profile n (modifyConfigWithEffectiveProfiles l c) = modifyConfigWithEffectiveProfiles l c.
Proof.
  intros Hn. rewrite <-modify_after. revert c. induction l as [|m l IH]; intros c; [by apply elem_of_nil in Hn|].
  rewrite !modify_cons. apply elem_of_cons in Hn as [->|Hn].
  - by rewrite apply_profile_idem.
  - rewrite (apply_profile_commute m n). by apply IH.
Qed.

Lemma modify_subsumes l l' c : l' ⊆ l -> modifyConfigWithEffectiveProfiles (l ++ l') c = modifyConfigWithEffectiveProfiles l c.
Proof.
  rewrite modify_app. induction l' as [|n l' IH]; intros Hl; [done|].
  rewrite modify_cons, modify_absorbs by set_solver. apply IH. set_solver.
Qed.

Lemma modify_same_elements l l' c : (forall n, n ∈ l <-> n ∈ l') ->
  modifyConfigWithEffectiveProfiles l c = modifyConfigWithEffectiveProfiles l' c.
Proof.
  intros Hl. rewrite <-(modify_subsumes l l'), <-(modify_subsumes l' l) by set_solver.
  apply modify_permuted, Permutation_app_comm.
Qed.

(** C31: Computing the effective profiles of a tier returns for every list of
    profiles that is asked for, and its answer holds exactly the available
    profiles of the list and, through any number of steps, their
    dependencies; a dependency of an available profile is always available. *)
Theorem effective_profiles_exact tier asked fuel :
  2 <= fuel ->
  exists l, calculateEffectiveProfiles fuel asked (GetAvailableProfilesForTier tier) = Some l
  ∧ (forall n, n ∈ l <-> in_effect (GetAvailableProfilesForTier tier) asked n)
  ∧ (forall n p, n ∈ l -> FindProfileByName n (GetAvailableProfilesForTier tier) = Some p -> Dependencies p ⊆ l).
Proof.
  intros Hf. destruct (shipped_effective_profiles tier asked fuel Hf) as [l Hl]. exists l.
  pose proof (effective_profiles_in_effect _ _ _ _ Hl) as Hin. split_and!; [done|done|].
  intros n p Hn Hp d Hd. pose proof (FindProfileByName_name _ _ _ Hp) as [<- Hp'].
  apply Hin. eapply effect_dependency; [by apply Hin|done..|]. by eapply shipped_dependencies.
Qed.

Lemma effective_profiles_exact_witness :
  exists l, calculateEffectiveProfiles 2 ["kratos"] (GetAvailableProfilesForTier OnPremOdigosTier) = Some l
  ∧ "java-enterprise" ∈ l ∧ "insights" ∉ l.
Proof.
  destruct (effective_profiles_exact OnPremOdigosTier ["kratos"] 2 ltac:(lia)) as (l & Hl & _). exists l.
  vm_compute in Hl. injection Hl as <-. split_and!; [by vm_compute|apply (bool_decide_unpack _); by vm_compute..].
Defined.

(** What the profiles change in the configuration depends only on which
    profiles are in effect: not on their order in the list, nor on how often
    a profile is named or brought in by others. *)
Theorem profile_order_irrelevant tier asked asked' fuel l l' c :
  2 <= fuel -> (forall n, n ∈ asked <-> n ∈ asked') ->
  calculateEffectiveProfiles fuel asked (GetAvailableProfilesForTier tier) = Some l ->
  calculateEffectiveProfiles fuel asked' (GetAvailableProfilesForTier tier) = Some l' ->
  modifyConfigWithEffectiveProfiles l c = modifyConfigWithEffectiveProfiles l' c.
Proof.
  intros Hf Ha Hl Hl'. apply modify_same_elements. intros n.
  rewrite (effective_profiles_in_effect _ _ _ _ Hl), (effective_profiles_in_effect _ _ _ _ Hl').
  split; apply in_effect_mono; set_solver.
Qed.

Lemma profile_order_irrelevant_witness :
  modifyConfigWithEffectiveProfiles
    ["mount-method-k8s-host-path"; "mount-method-k8s-virtual-device"; "mount-method-k8s-host-path"] zero_configuration
  = modifyConfigWithEffectiveProfiles ["mount-method-k8s-virtual-device"; "mount-method-k8s-host-path"] zero_configuration.
Proof.
  apply (profile_order_irrelevant CommunityOdigosTier
    ["mount-method-k8s-host-path"; "mount-method-k8s-virtual-device"; "mount-method-k8s-host-path"]
    ["mount-method-k8s-virtual-device"; "mount-method-k8s-host-path"] 2); [lia|set_solver|by vm_compute..].
Defined.

(** The virtual device profile overwrites the method that the user chose. *)
Lemma virtual_device_overrides c m :
  oc_MountMethod (modifyConfigWithEffectiveProfiles ["mount-method-k8s-virtual-device"] (set_MountMethod (Some m) c))
  = Some K8sVirtualDeviceMountMethod
  ∧ oc_MountMethod (modifyConfigWithEffectiveProfiles ["mount-method-k8s-host-path"] (set_MountMethod (Some m) c)) = Some m.
Proof. by destruct c. Qed.
