(* ===== verification/CollectorsGroups.v ===== *)
(** * The collectors groups
    (src/instrumentor/controllers/{clustercollectorsgroup,nodecollectorsgroup}/common.go)

    What the two controllers derive from the effective configuration, the
    destinations and the sampling objects, and their [sync] functions.  Each
    call to the API server happens at most once in a [sync]: its reply is a
    field of [ClusterReplies] or [NodeReplies], and the result says which
    write was made. *)

From S2P Require Import Prelude.
From S2P Require Import GoStrings.
From S2P Require Import GoSort.
From S2P Require Import K8s.
From S2P Require Import Api.
From S2P Require Import GoLib.
From S2P Require Import CollectorConfig.
From S2P Require Import Destinations.
From S2P Require Import DataStreams.
From S2P Require Import GatewayConfig.
From S2P Require Import GatewayTelemetry.
From S2P Require Import OdigosConfig.
From S2P Require Import Sizing.

(** ** Data (collectorsgroup_types.go, destination_types.go) *)

Record DestinationMetricsSettings := mkDestMetrics
  { dms_CollectSpanMetrics : option bool;
    dms_CollectHostMetrics : option bool;
    dms_CollectKubeletStats : option bool;
    dms_CollectServiceGraph : option bool;
    dms_CollectOdigosOwnMetrics : option bool;
    dms_CollectAgentsTelemetry : option bool }.

(** A destination with its [Spec.MetricsSettings]. *)
Record MetricsDestination := mkMetricsDestination
  { md_Destination : Destination; md_MetricsSettings : option DestinationMetricsSettings }.

(** [ServiceGraph] is never set; [AgentsTelemetrySettings] has no fields. *)
Record MetricsCollectionSettings := mkMetricsCollection
  { mcs_SpanMetrics : option MetricsSourceSpanMetricsConfiguration;
    mcs_HostMetrics : option MetricsSourceHostMetricsConfiguration;
    mcs_KubeletStats : option MetricsSourceKubeletStatsConfiguration;
    mcs_OdigosOwnMetrics : option OdigosOwnMetricsSettings;
    mcs_AgentsTelemetry : option unit }.
Definition no_metrics_collection : MetricsCollectionSettings := mkMetricsCollection None None None None None.

Record CollectorsGroupSpec := mkGroupSpec
  { cs_Role : string;
    cs_CollectorOwnMetricsPort : Z;
    cs_ResourcesSettings : ResourcesSettings;
    cs_ServiceGraphDisabled : option bool;
    cs_ServiceGraphExtraDimensions : list string;
    cs_ServiceGraphVirtualNodePeerAttributes : list string;
    cs_OtlpExporterConfiguration : option OtlpExporterConfiguration;
    cs_ResourceDetectors : option ResourceDetectorsConfiguration;
    cs_ClusterMetricsEnabled : option bool;
    cs_HttpsProxyAddress : option string;
    cs_Metrics : option MetricsCollectionSettings;
    cs_TraceCorrelations : option (option TraceCorrelationsServiceIOConfiguration);
    cs_NodeSelector : option (gmap string string);
    cs_DeploymentName : string;
    cs_TailSampling : option TailSamplingConfiguration;
    cs_SamplingDryRun : option bool;
    cs_SpanSamplingAttributes : option SpanSamplingAttributesConfiguration }.

Record Group := mkGroup { grp_Name : string; grp_Namespace : string; grp_Spec : CollectorsGroupSpec }.

Definition OdigosClusterCollectorCollectorGroupName : string := "odigos-gateway".
Definition OdigosNodeCollectorCollectorGroupName : string := "odigos-data-collection".
Definition OdigosClusterCollectorOwnTelemetryPortDefault : Z := 8888.
Definition OdigosNodeCollectorOwnTelemetryPortDefault : Z := 55682.

(** ** Shared by both groups *)

(** The destination is not disabled. *)
Definition dest_enabled (d : Destination) : bool := negb (deref_bool (dest_Disabled d)).
Definition dest_has_signal (signal : string) (d : Destination) : bool := bool_decide (signal ∈ dest_Signals d).

(** The interval of the own metrics, unless it is empty. *)
Definition own_metrics_interval (c : Configuration) : string :=
  match oc_MetricsSources c ≫= src_OdigosOwnMetrics with
  | Some interval => if decide (interval <> "") then interval else "10s"
  | None => "10s"
  end.
(** [OdigosOwnTelemetryStore.MetricsStoreDisabled] is not set. *)
Definition own_metrics_store_enabled (c : Configuration) : bool :=
  negb (deref_bool (default None (in_OwnTelemetryStore (oc_Installation c)))).

(** ** The cluster collectors group (clustercollectorsgroup/common.go) *)

Definition wants_own_metrics (d : MetricsDestination) : bool :=
  match md_MetricsSettings d with Some s => deref_bool (dms_CollectOdigosOwnMetrics s) | None => false end.

(** Some enabled metrics destination asks for the own metrics: the loop
    breaks at the first. *)
Definition sends_own_metrics (allDestinations : list MetricsDestination) : bool :=
  existsb (fun d => dest_enabled (md_Destination d) && dest_has_signal MetricsObservabilitySignal (md_Destination d)
                    && wants_own_metrics d) allDestinations.

Definition getOwnMetricsConfig (c : Configuration) (allDestinations : list MetricsDestination) :
    option MetricsCollectionSettings :=
  let store := own_metrics_store_enabled c in
  let sendToMetricsDestinations := sends_own_metrics allDestinations in
  if negb store && negb sendToMetricsDestinations then None
  else Some (mkMetricsCollection None None None
               (Some (mkOwnMetrics sendToMetricsDestinations store (own_metrics_interval c))) None).

Definition with_flush_interval (s : ServiceIOSettings) : ServiceIOSettings :=
  mkServiceIOSettings (sios_Enabled s) (sios_InputSpanAttributes s) (sios_OutputSpanAttributes s)
    (if decide (sios_MetricsFlushInterval s = "") then "60s" else sios_MetricsFlushInterval s).

Definition getTraceCorrelationsSettings (c : Configuration) : option (option TraceCorrelationsServiceIOConfiguration) :=
  if negb (TraceCorrelationsActive (oc_TraceCorrelations c)) then None
  else match oc_TraceCorrelations c with
       | Some (Some s) => Some (Some (serviceio_spec (with_flush_interval s)))
       | _ => None
       end.

Definition newClusterCollectorGroup (namespace : string) (resourcesSettings : ResourcesSettings)
    (serviceGraph : ServiceGraphOptions) (clusterMetricsEnabled : option bool) (httpsProxyAddress : option string)
    (nodeSelector : option (gmap string string)) (deploymentName : string)
    (metricsConfig : option MetricsCollectionSettings) (tailSampling : option TailSamplingConfiguration)
    (dryRun : option bool) (spanSamplingAttributes : option SpanSamplingAttributesConfiguration)
    (traceCorrelations : option (option TraceCorrelationsServiceIOConfiguration)) : Group :=
  mkGroup OdigosClusterCollectorCollectorGroupName namespace
    (mkGroupSpec CollectorsGroupRoleClusterGateway OdigosClusterCollectorOwnTelemetryPortDefault resourcesSettings
       (sg_Disabled serviceGraph) (sg_ExtraDimensions serviceGraph) (sg_VirtualNodePeerAttributes serviceGraph)
       None None clusterMetricsEnabled httpsProxyAddress metricsConfig traceCorrelations nodeSelector deploymentName
       tailSampling dryRun spanSamplingAttributes).

(** [Sampling.TailSampling]. *)
Definition tail_sampling_of (c : Configuration) : option TailSamplingConfiguration := oc_Sampling c ≫= smps_TailSampling.

(** The list of sampling objects is only read when tail sampling is not
    disabled; a failed read disables it. *)
Definition isTailSamplingEnabled (listSamplings : error + nat) (c : Configuration) : bool :=
  if deref_bool (tail_sampling_of c ≫= ts_Disabled) then false
  else match listSamplings with inl _ => false | inr n => 0 <? n end.

Section Duration.
Context `{GoLibrary}.

Definition resolveTailSamplingConfig (c : Configuration) (enabled : bool) : TailSamplingConfiguration :=
  let resolvedDuration :=
    match tail_sampling_of c ≫= ts_TraceAggregationWaitDuration with
    | Some configured =>
        match ParseDuration configured with
        | inl _ => "30s"
        | inr d => if (d <=? 0)%Z then "30s" else configured
        end
    | None => "30s"
    end in
  mkTailSampling (Some (negb enabled)) (Some resolvedDuration).

(** What the API server replies; [cr_Samplings] is the number of sampling
    objects, [cr_Owner] covers the read of the owner and the reference. *)
Record ClusterReplies := mkClusterReplies
  { cr_Configuration : error + Configuration;
    cr_Destinations : error + list MetricsDestination;
    cr_Samplings : error + nat;
    cr_Owner : option error;
    cr_Apply : option error }.

(** A nil pointer to a bool is replaced by one to [false]. *)
Definition or_false (p : option bool) : option bool := Some (deref_bool p).

(** The service graph's options, with [Disabled] defaulted. *)
Definition default_service_graph (sg : ServiceGraphOptions) : ServiceGraphOptions :=
  mkServiceGraph (or_false (sg_Disabled sg)) (sg_ExtraDimensions sg) (sg_VirtualNodePeerAttributes sg).

(** The group that is applied, for a configuration with a gateway and a
    service graph block. *)
Definition cluster_group (namespace : string) (c : Configuration) (gateway : CollectorGatewayConfiguration)
    (sg : ServiceGraphOptions) (allDestinations : list MetricsDestination) (samplings : error + nat) : Group :=
  newClusterCollectorGroup namespace (getGatewayResourceSettings (oc_CollectorGateway c)) (default_service_graph sg)
    (or_false (gw_ClusterMetricsEnabled gateway)) (gw_HttpsProxyAddress gateway) (gw_NodeSelector gateway)
    (gw_DeploymentName gateway) (getOwnMetricsConfig c allDestinations)
    (if isTailSamplingEnabled samplings c then Some (resolveTailSamplingConfig c true) else None)
    (oc_Sampling c ≫= smps_DryRun) (oc_Sampling c ≫= smps_SpanSamplingAttributes) (getTraceCorrelationsSettings c).

(** The error, and the group that was applied: its write may have failed.
    [CollectorGateway] and its [ServiceGraph] are dereferenced without a check. *)
Definition cluster_sync (namespace : string) (replies : ClusterReplies) : go (option error * option Group) :=
  match cr_Configuration replies with
  | inl err => Done (Some err, None)
  | inr c =>
      go_bind (go_deref (oc_CollectorGateway c)) (fun gateway =>
      go_bind (go_deref (gw_ServiceGraph gateway)) (fun sg =>
      match cr_Destinations replies with
      | inl err => Done (Some err, None)
      | inr allDestinations =>
          let group := cluster_group namespace c gateway sg allDestinations (cr_Samplings replies) in
          match cr_Owner replies with
          | Some err => Done (Some err, None)
          | None => Done (cr_Apply replies, Some group)
          end
      end))
  end.
End Duration.

(** What the autoscaler reads of the group. *)
Definition gateway_group_view (s : CollectorsGroupSpec) : GatewayGroup :=
  {| gg_CollectorOwnMetricsPort := cs_CollectorOwnMetricsPort s;
     gg_ServiceGraph := mkServiceGraph (cs_ServiceGraphDisabled s) (cs_ServiceGraphExtraDimensions s)
                          (cs_ServiceGraphVirtualNodePeerAttributes s);
     gg_ClusterMetricsEnabled := cs_ClusterMetricsEnabled s;
     gg_SpanSamplingAttributes := cs_SpanSamplingAttributes s;
     gg_TraceCorrelations := cs_TraceCorrelations s;
     gg_TailSampling := cs_TailSampling s;
     gg_SamplingDryRun := cs_SamplingDryRun s;
     gg_OwnMetrics := cs_Metrics s ≫= mcs_OdigosOwnMetrics |}.

(** [nodecollector.isTracingLoadBalancingNeeded]: whether the node
    collectors send all spans of a trace to the same gateway replica. *)
Definition isTracingLoadBalancingNeeded (s : CollectorsGroupSpec) : bool :=
  let serviceGraphEnabled := negb (deref_bool (cs_ServiceGraphDisabled s)) in
  let tailSamplingEnabled := match cs_TailSampling s with
                             | Some ts => match ts_Disabled ts with Some disabled => negb disabled | None => false end
                             | None => false
                             end in
  let traceCorrelationsEnabled := bool_decide (is_Some (cs_TraceCorrelations s)) in
  serviceGraphEnabled || tailSamplingEnabled || traceCorrelationsEnabled.

(** ** The node collectors group (nodecollectorsgroup/common.go) *)

Definition or_string (s dflt : string) : string := if decide (s = "") then dflt else s.

Definition getHostMetricsConfiguration (c : Configuration) : option MetricsSourceHostMetricsConfiguration :=
  let copy := default (mkHostMetrics None "") (oc_MetricsSources c ≫= src_HostMetrics) in
  if deref_bool (mh_Disabled copy) then None
  else Some (mkHostMetrics (mh_Disabled copy) (or_string (mh_Interval copy) "10s")).

Definition getKubeletStatsConfiguration (c : Configuration) : option MetricsSourceKubeletStatsConfiguration :=
  let copy := default (mkKubeletStats None "") (oc_MetricsSources c ≫= src_KubeletStats) in
  if deref_bool (mk_Disabled copy) then None
  else Some (mkKubeletStats (mk_Disabled copy) (or_string (mk_Interval copy) "10s")).

Definition default_histogram_buckets : list string :=
  ["2ms"; "4ms"; "6ms"; "8ms"; "10ms"; "50ms"; "100ms"; "200ms"; "400ms"; "800ms"; "1s"; "1400ms"; "2s"; "5s"; "10s"; "15s"].
Definition no_span_metrics : MetricsSourceSpanMetricsConfiguration := mkSpanMetricsSource None "" "" [] false [] None [] [] None.

Definition getSpanMetricsConfiguration (c : Configuration) : option MetricsSourceSpanMetricsConfiguration :=
  let copy := default no_span_metrics (oc_MetricsSources c ≫= src_SpanMetrics) in
  if deref_bool (msp_Disabled copy) then None
  else Some {| msp_Disabled := msp_Disabled copy;
               msp_Interval := or_string (msp_Interval copy) "60s";
               msp_MetricsExpiration := or_string (msp_MetricsExpiration copy) "5m";
               msp_AdditionalDimensions := msp_AdditionalDimensions copy;
               msp_HistogramDisabled := msp_HistogramDisabled copy;
               msp_ExplicitHistogramBuckets :=
                 match msp_ExplicitHistogramBuckets copy with [] => default_histogram_buckets | l => l end;
               msp_IncludedProcessInDimensions := msp_IncludedProcessInDimensions copy;
               msp_ExcludedResourceAttributes := msp_ExcludedResourceAttributes copy;
               msp_ResourceMetricsKeyAttributes := msp_ResourceMetricsKeyAttributes copy;
               msp_SpanMetricsMode := msp_SpanMetricsMode copy |}.

Definition unless_false (p : option bool) : bool := default true p.

Definition updateMetricsSettingsForDestination (c : Configuration) (m : MetricsCollectionSettings)
    (destination : MetricsDestination) : MetricsCollectionSettings :=
  match md_MetricsSettings destination with
  | None =>
      mkMetricsCollection (getSpanMetricsConfiguration c) (getHostMetricsConfiguration c)
        (getKubeletStatsConfiguration c) (mcs_OdigosOwnMetrics m) (Some tt)
  | Some s =>
      mkMetricsCollection
        (if unless_false (dms_CollectSpanMetrics s) then getSpanMetricsConfiguration c else mcs_SpanMetrics m)
        (if unless_false (dms_CollectHostMetrics s) then getHostMetricsConfiguration c else mcs_HostMetrics m)
        (if unless_false (dms_CollectKubeletStats s) then getKubeletStatsConfiguration c else mcs_KubeletStats m)
        (if deref_bool (dms_CollectOdigosOwnMetrics s) then Some (mkOwnMetrics false false "")
         else mcs_OdigosOwnMetrics m)
        (if unless_false (dms_CollectAgentsTelemetry s) then Some tt else mcs_AgentsTelemetry m)
  end.

Definition getOwnMetricsSettings (c : Configuration) : option OdigosOwnMetricsSettings :=
  if negb (own_metrics_store_enabled c) then None
  else Some (mkOwnMetrics false false (own_metrics_interval c)).

(** The types of the manifests in src/destinations/data. *)
Definition manifest_types : list string :=
  ["alibabacloud"; "appdynamics"; "axiom"; "azureblob"; "azuremonitor"; "betterstack"; "bonree"; "causely"; "checkly";
   "chronosphere"; "clickhouse"; "cloudwatch"; "coralogix"; "dash0"; "datadog"; "dynamic"; "dynatrace"; "elasticapm";
   "elasticsearch"; "googlecloud"; "googlecloudotlp"; "grafanacloudloki"; "grafanacloudprometheus";
   "grafanacloudtempo"; "greptime"; "groundcover"; "honeycomb"; "hyperdx"; "instana"; "jaeger"; "kafka"; "kloudmate";
   "last9"; "lightstep"; "logzio"; "loki"; "lumigo"; "middleware"; "newrelic"; "observe"; "oneuptime"; "openobserve";
   "oracle"; "otlp"; "otlphttp"; "prometheus"; "pyroscope"; "qryn"; "qryn-oss"; "quickwit"; "s3"; "seq"; "signalfx";
   "signoz"; "splunk"; "splunkotlp"; "sumologic"; "telemetryhub"; "tempo"; "tingyun"; "traceloop"; "uptrace";
   "victoriametricscloud"; "xray"].
Definition GetDestinationByType (destType : string) : bool := bool_decide (destType ∈ manifest_types).

(** The destination takes part in the collection of metrics. *)
Definition collects_metrics (d : MetricsDestination) : bool :=
  dest_enabled (md_Destination d) && GetDestinationByType (dest_Type (md_Destination d))
  && dest_has_signal MetricsObservabilitySignal (md_Destination d).

Definition metrics_step (c : Configuration) (m : option MetricsCollectionSettings) (d : MetricsDestination) :
    option MetricsCollectionSettings :=
  if collects_metrics d then Some (updateMetricsSettingsForDestination c (default no_metrics_collection m) d) else m.

Definition with_own_metrics (own : option OdigosOwnMetricsSettings) (m : option MetricsCollectionSettings) :
    option MetricsCollectionSettings :=
  match own with
  | None => m
  | Some own =>
      let m := default no_metrics_collection m in
      Some (mkMetricsCollection (mcs_SpanMetrics m) (mcs_HostMetrics m) (mcs_KubeletStats m) (Some own) (mcs_AgentsTelemetry m))
  end.

Definition node_metrics (c : Configuration) (allDestinations : list MetricsDestination) : option MetricsCollectionSettings :=
  with_own_metrics (getOwnMetricsSettings c) (foldl (metrics_step c) None allDestinations).

(** The node configuration is dereferenced without a check. *)
Definition newNodeCollectorGroup (namespace : string) (c : Configuration) (allDestinations : list MetricsDestination) :
    go Group :=
  go_bind (go_deref (oc_CollectorNode c)) (fun node =>
    let port := nd_CollectorOwnMetricsPort node in
    Done (mkGroup OdigosNodeCollectorCollectorGroupName namespace
      (mkGroupSpec CollectorsGroupRoleNodeCollector
         (if decide (port <> 0%Z) then port else OdigosNodeCollectorOwnTelemetryPortDefault)
         (getResourceSettings (oc_CollectorNode c)) None [] []
         (match nd_OtlpExporterConfiguration node with
          | Some otlp => Some otlp
          | None => Some (mkOtlpExporter (nd_EnableDataCompression node) "" None)
          end)
         (nd_ResourceDetectors node) None None (node_metrics c allDestinations) None None "" None None None))).

(** The replies of the API server; [nr_NodeGroup] is the read in
    [DeleteCollectorGroup], [nr_Delete] the delete of the object that was
    read, the zero object when the read failed. *)
Record NodeReplies := mkNodeReplies
  { nr_InstrumentationConfigs : error + nat;
    nr_NodeGroup : option error;
    nr_Delete : option error;
    nr_ClusterGroup : error + bool;  (** its [Status.Ready] *)
    nr_Configuration : error + Configuration;
    nr_Destinations : error + list MetricsDestination;
    nr_Owner : option error;
    nr_Apply : option error }.

Inductive NodeWrite := NoWrite | DeletedGroup | AppliedGroup (g : Group).

(** [k8sutils.DeleteCollectorGroup]: an error of the read other than not
    found is not looked at. *)
Definition DeleteCollectorGroup (replies : NodeReplies) : option error * NodeWrite :=
  match nr_NodeGroup replies with
  | Some err => if IsNotFound err then (None, NoWrite) else (nr_Delete replies, DeletedGroup)
  | None => (nr_Delete replies, DeletedGroup)
  end.

Definition node_sync (namespace : string) (replies : NodeReplies) : go (option error * NodeWrite) :=
  match nr_InstrumentationConfigs replies with
  | inl err => Done (Some (EJoin (ENew "failed to list InstrumentationConfigs") err), NoWrite)
  | inr 0 => Done (DeleteCollectorGroup replies)
  | inr _ =>
      match nr_ClusterGroup replies with
      | inl err => Done (IgnoreNotFound err, NoWrite)
      | inr ready =>
          match nr_Configuration replies with
          | inl err => Done (Some err, NoWrite)
          | inr c =>
              match nr_Destinations replies with
              | inl err => Done (Some err, NoWrite)
              | inr allDestinations =>
                  go_bind (newNodeCollectorGroup namespace c allDestinations) (fun group =>
                  match nr_Owner replies with
                  | Some err => Done (Some err, NoWrite)
                  | None => Done (if ready : bool then (nr_Apply replies, AppliedGroup group) else (None, NoWrite))
                  end)
              end
          end
      end
  end.
