(* ===== verification/CollectorsGroupsProperties.v ===== *)
(** * What the collectors groups establish

    The cluster group: every outcome of its sync, and what the group it
    applies means to the autoscaler ([cluster_sync_exact]).  The node group: its metrics
    sources are a function of which destinations ask for what, whatever their
    order ([node_metrics_exact]).  The two collectors agree on the
    aggregation of traces except for insights ([load_balancing_in_sync]). *)

From S2P Require Import Prelude.
From S2P Require Import GoStrings.
From S2P Require Import GoSort.
From S2P Require Import K8s.
From S2P Require Import Api.
From S2P Require Import GoLib.
From S2P Require Import CollectorConfig.
From S2P Require Import Destinations.
From S2P Require Import DataStreams.
From S2P Require Import DestinationTypes.
From S2P Require Import DestinationVendors.
From S2P Require Import DestinationEndpoints.
From S2P Require Import DestinationDecoders.
From S2P Require Import AvailableConfigers.
From S2P Require Import GatewayConfig.
From S2P Require Import GatewayTelemetry.
From S2P Require Import OdigosConfig.
From S2P Require Import Sizing.
From S2P Require Import CollectorsGroups.

(** ** The metrics of the node collector *)

(** Some metrics destination takes a source: one without settings takes
    every source, one with settings those that it does not refuse. *)
Definition some_takes (field : DestinationMetricsSettings -> option bool) (ds : list MetricsDestination) : bool :=
  existsb (fun d => collects_metrics d
                    && match md_MetricsSettings d with Some s => unless_false (field s) | None => true end) ds.
(** Some metrics destination asks for the own metrics. *)
Definition some_wants_own (ds : list MetricsDestination) : bool :=
  existsb (fun d => collects_metrics d && wants_own_metrics d) ds.

(** The settings as a function of the sets of destinations. *)
Definition metrics_spec (c : Configuration) (ds : list MetricsDestination) : option MetricsCollectionSettings :=
  if negb (existsb collects_metrics ds || own_metrics_store_enabled c) then None
  else Some (mkMetricsCollection
    (if some_takes dms_CollectSpanMetrics ds then getSpanMetricsConfiguration c else None)
    (if some_takes dms_CollectHostMetrics ds then getHostMetricsConfiguration c else None)
    (if some_takes dms_CollectKubeletStats ds then getKubeletStatsConfiguration c else None)
    (if own_metrics_store_enabled c then Some (mkOwnMetrics false false (own_metrics_interval c))
     else if some_wants_own ds then Some (mkOwnMetrics false false "") else None)
    (if some_takes dms_CollectAgentsTelemetry ds then Some tt else None)).

(** The state of the loop after the destinations [ds]. *)
Definition loop_spec (c : Configuration) (ds : list MetricsDestination) : option MetricsCollectionSettings :=
  if negb (existsb collects_metrics ds) then None
  else Some (mkMetricsCollection
    (if some_takes dms_CollectSpanMetrics ds then getSpanMetricsConfiguration c else None)
    (if some_takes dms_CollectHostMetrics ds then getHostMetricsConfiguration c else None)
    (if some_takes dms_CollectKubeletStats ds then getKubeletStatsConfiguration c else None)
    (if some_wants_own ds then Some (mkOwnMetrics false false "") else None)
    (if some_takes dms_CollectAgentsTelemetry ds then Some tt else None)).

Lemma existsb_snoc {A} (p : A -> bool) l x : existsb p (l ++ [x]) = existsb p l || p x.
Proof. rewrite existsb_app. simpl. by rewrite orb_false_r. Qed.

Lemma existsb_none {A} (p q : A -> bool) l : existsb p l = false -> existsb (fun x => p x && q x) l = false.
Proof. induction l as [|x l IH]; simpl; [done|]. intros [-> Hl]%orb_false_iff. by rewrite IH. Qed.

Lemma metrics_loop c ds : foldl (metrics_step c) None ds = loop_spec c ds.
Proof.
  induction ds as [|d ds IH] using rev_ind; [done|]. rewrite foldl_snoc, IH. clear IH.
  unfold loop_spec, some_takes, some_wants_own. rewrite !existsb_snoc. unfold metrics_step.
  destruct (collects_metrics d) eqn:Hd; simpl; rewrite ?orb_false_r, ?orb_true_r; [|done].
  unfold updateMetricsSettingsForDestination, wants_own_metrics.
  destruct (existsb collects_metrics ds) eqn:Hds; simpl;
    (destruct (md_MetricsSettings d) as [s|]; simpl; rewrite ?orb_true_r, ?orb_false_r;
     [destruct (unless_false (dms_CollectSpanMetrics s)), (unless_false (dms_CollectHostMetrics s)),
        (unless_false (dms_CollectKubeletStats s)), (deref_bool (dms_CollectOdigosOwnMetrics s)),
        (unless_false (dms_CollectAgentsTelemetry s))|]; rewrite ?orb_true_r, ?orb_false_r;
     rewrite ?(existsb_none collects_metrics _ ds Hds); done).
Qed.

Lemma node_metrics_spec c ds : node_metrics c ds = metrics_spec c ds.
Proof.
  unfold node_metrics. rewrite metrics_loop. unfold getOwnMetricsSettings, metrics_spec, loop_spec.
  destruct (own_metrics_store_enabled c); simpl; [|by rewrite orb_false_r].
  rewrite orb_true_r. simpl. destruct (existsb collects_metrics ds) eqn:Hds; [done|]. simpl.
  unfold some_takes, some_wants_own. by rewrite !(existsb_none collects_metrics _ ds Hds).
Qed.

(** The metrics that the node collectors collect are a function of the
    destinations and the configuration: a source is collected exactly when
    an enabled metrics destination of a known type takes it (by default or
    explicitly) and the configuration does not disable it, the own metrics
    when their store is enabled or a destination asks for them, and nothing
    depends on the order in which the destinations are listed. *)
Theorem node_metrics_exact c ds ds' :
  ds ≡ₚ ds' -> node_metrics c ds = metrics_spec c ds ∧ node_metrics c ds' = node_metrics c ds.
Proof.
  intros Hds. split; [apply node_metrics_spec|]. rewrite !node_metrics_spec.
  unfold metrics_spec, some_takes, some_wants_own. by rewrite !(existsb_permuted _ _ _ Hds).
Qed.

(** ** The cluster group *)

Section Cluster.
Context `{GoLibrary}.

(** A duration that the collector accepts as a wait. *)
Definition positive_duration (s : string) : Prop := exists d, ParseDuration s = inr d ∧ (0 < d)%Z.

Lemma resolved_duration_positive c enabled :
  positive_duration "30s" ->
  exists s, ts_TraceAggregationWaitDuration (resolveTailSamplingConfig c enabled) = Some s ∧ positive_duration s.
Proof.
  intros H30. unfold resolveTailSamplingConfig. eexists. split; [done|].
  destruct (tail_sampling_of c ≫= ts_TraceAggregationWaitDuration) as [s|]; [|done].
  destruct (ParseDuration s) as [|d] eqn:E; [done|]. destruct (Z.leb_spec d 0); [done|]. by exists d.
Qed.

(** What the gateway is told of the group. *)
Definition group_options (odigosNs : string) (g : Group) (insights : option InsightsConfiguration) : GatewayConfigOptions :=
  gateway_options odigosNs (gateway_group_view (grp_Spec g)) insights.

Lemma serviceio_active c :
  (exists s, getTraceCorrelationsSettings c = Some (Some s) ∧ sio_Enabled s = Some true ∧ sio_MetricsFlushInterval s <> "")
    ∧ TraceCorrelationsActive (oc_TraceCorrelations c) = true
  ∨ getTraceCorrelationsSettings c = None ∧ TraceCorrelationsActive (oc_TraceCorrelations c) = false.
Proof.
  unfold getTraceCorrelationsSettings, TraceCorrelationsActive.
  destruct (oc_TraceCorrelations c) as [[s|]|]; simpl; [|by right..].
  destruct (sios_Enabled s) as [[]|] eqn:E; simpl; [|by right..]. left. split; [|done].
  eexists. split_and!; [done|done|]. simpl. by case_decide.
Qed.

Lemma cluster_tail_sampling odigosNs ns c gateway sg ds samplings insights :
  TailSamplingEnabled (group_options odigosNs (cluster_group ns c gateway sg ds samplings) insights)
  = Some (isTailSamplingEnabled samplings c).
Proof.
  unfold group_options, gateway_options, tail_sampling_enabled, cluster_group. simpl.
  by destruct (isTailSamplingEnabled samplings c).
Qed.

Lemma cluster_serviceio odigosNs ns c gateway sg ds samplings insights :
  TraceCorrelationsServiceIO (group_options odigosNs (cluster_group ns c gateway sg ds samplings) insights)
  = default None (getTraceCorrelationsSettings c).
Proof. done. Qed.

Lemma cluster_wait_duration odigosNs ns c gateway sg ds samplings insights d :
  positive_duration "30s" ->
  TraceAggregationWaitDuration (group_options odigosNs (cluster_group ns c gateway sg ds samplings) insights) = Some d ->
  positive_duration d.
Proof.
  intros H30. unfold group_options, gateway_options. cbn [TraceAggregationWaitDuration].
  destruct (tail_sampling_enabled _ || _); [|destruct (InsightsPipelineActive insights); [by intros [= <-]|done]].
  intros [= <-]. unfold wait_duration, cluster_group. simpl.
  destruct (isTailSamplingEnabled samplings c); [|done]. simpl.
  destruct (resolved_duration_positive c true H30) as (s & [= ->] & Hs). case_decide; done.
Qed.

Lemma own_metrics_spec c ds :
  match getOwnMetricsConfig c ds ≫= mcs_OdigosOwnMetrics with
  | None => own_metrics_store_enabled c = false ∧ sends_own_metrics ds = false
  | Some own => om_SendToOdigosMetricsStore own = own_metrics_store_enabled c
                ∧ om_SendToMetricsDestinations own = sends_own_metrics ds ∧ om_Interval own <> ""
  end.
Proof.
  unfold getOwnMetricsConfig, own_metrics_interval. destruct (own_metrics_store_enabled c), (sends_own_metrics ds); simpl;
    try done; split_and!; try done; destruct (oc_MetricsSources c ≫= src_OdigosOwnMetrics); simpl; try case_decide; done.
Qed.

(** What the group tells the autoscaler and the gateway, for the
    configuration [c] with the block [gateway], its service graph [sg], and
    the destinations [ds]. *)
Definition group_means (ns odigosNs : string) (insights : option InsightsConfiguration) (c : Configuration)
    (gateway : CollectorGatewayConfiguration) (sg : ServiceGraphOptions) (ds : list MetricsDestination)
    (samplings : error + nat) (g : Group) : Prop :=
  let options := group_options odigosNs g insights in
  (grp_Name g = OdigosClusterCollectorCollectorGroupName ∧ grp_Namespace g = ns
   ∧ cs_Role (grp_Spec g) = CollectorsGroupRoleClusterGateway)
  ∧ cs_ResourcesSettings (grp_Spec g) = getGatewayResourceSettings (Some gateway)
  ∧ (cs_HttpsProxyAddress (grp_Spec g), cs_NodeSelector (grp_Spec g), cs_DeploymentName (grp_Spec g))
    = (gw_HttpsProxyAddress gateway, gw_NodeSelector gateway, gw_DeploymentName gateway)
  ∧ (cs_ServiceGraphDisabled (grp_Spec g) = Some (deref_bool (sg_Disabled sg))
     ∧ cs_ClusterMetricsEnabled (grp_Spec g) = Some (deref_bool (gw_ClusterMetricsEnabled gateway)))
  ∧ (cs_SamplingDryRun (grp_Spec g), cs_SpanSamplingAttributes (grp_Spec g))
    = (oc_Sampling c ≫= smps_DryRun, oc_Sampling c ≫= smps_SpanSamplingAttributes)
  ∧ (TailSamplingEnabled options = Some true
     <-> deref_bool (tail_sampling_of c ≫= ts_Disabled) = false ∧ exists n, samplings = inr (S n))
  ∧ (forall d, TraceAggregationWaitDuration options = Some d -> positive_duration d)
  ∧ ServiceIOPipelineActive (TraceCorrelationsServiceIO options) = TraceCorrelationsActive (oc_TraceCorrelations c)
  ∧ (forall s, TraceCorrelationsServiceIO options = Some s -> sio_MetricsFlushInterval s <> "")
  ∧ match gg_OwnMetrics (gateway_group_view (grp_Spec g)) with
    | None => own_metrics_store_enabled c = false ∧ sends_own_metrics ds = false
    | Some own => om_SendToOdigosMetricsStore own = own_metrics_store_enabled c
                  ∧ om_SendToMetricsDestinations own = sends_own_metrics ds ∧ om_Interval own <> ""
    end.

Lemma cluster_group_means ns odigosNs insights c gateway sg ds samplings :
  positive_duration "30s" -> oc_CollectorGateway c = Some gateway ->
  group_means ns odigosNs insights c gateway sg ds samplings (cluster_group ns c gateway sg ds samplings).
Proof.
  intros H30 Hg. unfold group_means. cbv zeta. rewrite cluster_tail_sampling, cluster_serviceio, <-Hg.
  split_and!; [done..| | | | |].
  - unfold isTailSamplingEnabled. destruct (deref_bool _); [naive_solver|].
    destruct samplings as [|[|n]]; simpl; naive_solver.
  - intros d. by apply cluster_wait_duration.
  - destruct (serviceio_active c) as [[(s & -> & Hs & _) ->]|[-> ->]]; [|done]. simpl. by rewrite Hs.
  - intros s. destruct (serviceio_active c) as [[(s' & -> & _ & Hs) _]|[-> _]]; [|done]. by intros [= <-].
  - apply own_metrics_spec.
Qed.

(** C32: A sync of the cluster collectors group ends as the replies of the
    API server say.  The error of the configuration, of the list of
    destinations or of the read of the owner is returned, in this order, and
    nothing is applied; without a gateway or a service graph block in the
    configuration it panics; otherwise a group is applied, and the error is
    that of the apply.  The group passes the gateway's settings on, tells the
    gateway to sample tails exactly when tail sampling is not disabled and a
    sampling object exists (a failed list counts as none), to correlate
    service I/O exactly when that is enabled, to wait for traces for a
    positive duration whatever is configured, to flush and to scrape its own
    metrics at a given interval, and to report them exactly where they are
    wanted. *)
Theorem cluster_sync_exact ns odigosNs insights replies :
  positive_duration "30s" ->
  match cr_Configuration replies with
  | inl err => cluster_sync ns replies = Done (Some err, None)
  | inr c =>
      match oc_CollectorGateway c with
      | None => cluster_sync ns replies = Panic
      | Some gateway =>
          match gw_ServiceGraph gateway, cr_Destinations replies, cr_Owner replies with
          | None, _, _ => cluster_sync ns replies = Panic
          | Some _, inl err, _ | Some _, inr _, Some err => cluster_sync ns replies = Done (Some err, None)
          | Some sg, inr ds, None =>
              exists g, cluster_sync ns replies = Done (cr_Apply replies, Some g)
                ∧ group_means ns odigosNs insights c gateway sg ds (cr_Samplings replies) g
          end
      end
  end.
Proof.
  intros H30. unfold cluster_sync. destruct (cr_Configuration replies) as [|c]; [done|].
  destruct (oc_CollectorGateway c) as [gateway|] eqn:Hg; [|done]. cbn [go_deref go_bind].
  destruct (gw_ServiceGraph gateway) as [sg|]; [|done]. cbn [go_deref go_bind].
  destruct (cr_Destinations replies) as [|ds]; [done|]. destruct (cr_Owner replies); [done|].
  eexists. split; [done|]. by apply cluster_group_means.
Qed.

(** The node collectors keep the spans of a trace together whenever the
    gateway aggregates traces, with one exception: the insights pipeline
    alone, with the service graph disabled, aggregates traces that are spread
    over the gateway's replicas. *)
Theorem load_balancing_in_sync ns odigosNs insights c gateway sg ds samplings :
  let g := cluster_group ns c gateway sg ds samplings in
  traceAggregationNeeded (group_options odigosNs g insights) && negb (isTracingLoadBalancingNeeded (grp_Spec g))
  = InsightsPipelineActive insights && deref_bool (sg_Disabled sg) && negb (isTailSamplingEnabled samplings c)
    && negb (TraceCorrelationsActive (oc_TraceCorrelations c)).
Proof.
  cbv zeta. unfold traceAggregationNeeded. rewrite cluster_tail_sampling, cluster_serviceio.
  replace (Insights (group_options odigosNs (cluster_group ns c gateway sg ds samplings) insights)) with insights by done.
  assert (Hlb : isTracingLoadBalancingNeeded (grp_Spec (cluster_group ns c gateway sg ds samplings))
    = negb (deref_bool (sg_Disabled sg)) || isTailSamplingEnabled samplings c || TraceCorrelationsActive (oc_TraceCorrelations c)).
  { unfold isTracingLoadBalancingNeeded, cluster_group. simpl.
    destruct (serviceio_active c) as [[(s & -> & _) ->]|[-> ->]], (isTailSamplingEnabled samplings c); done. }
  rewrite Hlb. simpl.
  destruct (serviceio_active c) as [[(s & -> & Hs & _) ->]|[-> ->]]; simpl; rewrite ?Hs; simpl;
    by destruct (isTailSamplingEnabled samplings c), (InsightsPipelineActive insights), (deref_bool (sg_Disabled sg)).
Qed.
End Cluster.

(** ** The destinations that the node collectors know *)

Section Manifests.
Context `{GoUrl} `{GoUrlMore} `{GoLibrary} `{GoMapOrder} `{GoDecode}.

(** Every type with a manifest has a configurer; five configurers have no
    manifest, so their destinations never turn the collection of metrics on. *)
Lemma manifests_have_configurers t :
  t ∈ DestType <$> availableConfigers
  <-> GetDestinationByType t = true ∨ t ∈ ["debug"; "gcs"; "mock"; "nop"; "sentry"].
Proof.
  unfold GetDestinationByType. rewrite bool_decide_eq_true, <-elem_of_app.
  set (others := ["debug"; "gcs"; "mock"; "nop"; "sentry"]).
  assert (Ha : Forall (fun t => t ∈ manifest_types ++ others) (DestType <$> availableConfigers)).
  { apply (bool_decide_unpack _). by vm_compute. }
  assert (Hb : Forall (fun t => t ∈ DestType <$> availableConfigers) (manifest_types ++ others)).
  { apply (bool_decide_unpack _). by vm_compute. }
  rewrite Forall_forall in Ha, Hb. split; [apply Ha|apply Hb].
Qed.
End Manifests.

(** ** Concrete clusters *)

Definition sample_duration : GoLibrary := {|
  regexp_match := @regexp_match sample_library;
  regexp_error := @regexp_error sample_library;
  ParseDuration s := switch s [("30s", inr (30 * Second)%Z); ("45s", inr (45 * Second)%Z); ("0s", inr 0%Z)]
                       (inl "time: invalid duration");
  strconv_Quote := @strconv_Quote sample_library;
  url_Parse := @url_Parse sample_library;
  rule_digest := @rule_digest sample_library;
  overrides_digest := @overrides_digest sample_library;
  agents_digest := @agents_digest sample_library
|}.

(** A gateway with a service graph block; tail sampling waits for [wait]. *)
Definition sample_gateway : CollectorGatewayConfiguration :=
  mkGatewayConf 0 0 0 0 0 0 0 0 0 (Some (mkServiceGraph None [] [])) None None None "".
Definition sample_conf (wait : string) : Configuration :=
  let c := set_CollectorGateway (Some sample_gateway) zero_configuration in
  mkConfiguration (oc_Installation c) false None None None (oc_CollectorGateway c) (Some zero_node) [] None "" None "" None
    None None None "" "" "" "" None "" None None None
    (Some (mkSamplingSettings None None (Some (mkTailSampling None (Some wait))) None)) None None.

Definition sample_replies (wait : string) : ClusterReplies :=
  mkClusterReplies (inr (sample_conf wait)) (inr []) (inr 1) None None.

Definition metrics_dest (name type : string) (s : option DestinationMetricsSettings) : MetricsDestination :=
  mkMetricsDestination (mkDestination name type ∅ [MetricsObservabilitySignal] None None) s.
Definition sample_metrics_dests : list MetricsDestination :=
  [metrics_dest "a" "prometheus" (Some (mkDestMetrics (Some false) (Some true) None None (Some true) None));
   metrics_dest "b" "debug" None].

Lemma node_metrics_exact_witness :
  node_metrics zero_configuration (reverse sample_metrics_dests) = node_metrics zero_configuration sample_metrics_dests
  ∧ mcs_SpanMetrics <$> node_metrics zero_configuration sample_metrics_dests = Some None
  ∧ mcs_AgentsTelemetry <$> node_metrics zero_configuration sample_metrics_dests = Some (Some tt).
Proof.
  destruct (node_metrics_exact zero_configuration sample_metrics_dests (reverse sample_metrics_dests)) as [-> ->];
    [symmetry; apply reverse_Permutation|]. by vm_compute.
Defined.

(** An invalid and a null duration fall back, a valid one is used; a sync
    whose list of destinations fails applies nothing. *)
Lemma cluster_sync_exact_witness :
  (exists g, @cluster_sync sample_duration "odigos-system" (sample_replies "0s") = Done (None, Some g)
   ∧ @group_means sample_duration "odigos-system" "odigos-system" None (sample_conf "0s") sample_gateway (mkServiceGraph None [] []) []
       (inr 1) g
   ∧ TraceAggregationWaitDuration (group_options "odigos-system" g None) = Some "30s")
  ∧ (exists g, @cluster_sync sample_duration "odigos-system" (sample_replies "45s") = Done (None, Some g)
   ∧ TraceAggregationWaitDuration (group_options "odigos-system" g None) = Some "45s")
  ∧ @cluster_sync sample_duration "odigos-system"
      (mkClusterReplies (inr (sample_conf "45s")) (inl (ENew "timeout")) (inr 1) None None) = Done (Some (ENew "timeout"), None).
Proof.
  assert (H30 : @positive_duration sample_duration "30s") by (by exists (30 * Second)%Z).
  split_and!.
  - destruct (@cluster_sync_exact sample_duration "odigos-system" "odigos-system" None (sample_replies "0s") H30) as (g & E & Hg).
    exists g. split; [exact E|]. split; [exact Hg|]. cbn in E. injection E as <-. done.
  - destruct (@cluster_sync_exact sample_duration "odigos-system" "odigos-system" None (sample_replies "45s") H30) as (g & E & _).
    exists g. split; [exact E|]. cbn in E. injection E as <-. done.
  - exact (@cluster_sync_exact sample_duration "odigos-system" "odigos-system" None
             (mkClusterReplies (inr (sample_conf "45s")) (inl (ENew "timeout")) (inr 1) None None) H30).
Defined.

(** Without the service graph block of the Helm chart the sync panics. *)
Lemma no_service_graph_panics :
  @cluster_sync sample_duration "odigos-system"
    (mkClusterReplies (inr (set_CollectorGateway (Some zero_gateway) zero_configuration)) (inr []) (inr 0) None None) = Panic.
Proof. done. Qed.

(** Insights with the service graph disabled: the gateway aggregates what
    the node collectors do not keep together. *)
Lemma insights_without_load_balancing :
  let g := @cluster_group sample_duration "odigos-system" zero_configuration zero_gateway (mkServiceGraph (Some true) [] []) []
             (inr 0) in
  traceAggregationNeeded (group_options "odigos-system" g (Some (mkInsights (Some true)))) = true
  ∧ isTracingLoadBalancingNeeded (grp_Spec g) = false.
Proof. by vm_compute. Qed.

(** A failed read of the group to delete is not looked at: the delete is
    sent for the zero object. *)
Lemma delete_after_failed_read namespace err replies :
  IsNotFound err = false -> nr_InstrumentationConfigs replies = inr 0 -> nr_NodeGroup replies = Some err ->
  node_sync namespace replies = Done (nr_Delete replies, DeletedGroup).
Proof. intros Hn Hc Hg. unfold node_sync, DeleteCollectorGroup. by rewrite Hc, Hg, Hn. Qed.
