(* ===== verification/ConfigMerge.v ===== *)
(** * Merging configurations (odigosconfiguration_controller.go, [mergeConfigs])

    The overlays of the central backend and of the local UI are merged into
    the configuration that Helm manages.  A field is merged in one of a few
    ways, each an operator on its type; every operator is a band
    (associative and idempotent), and so is the merge of whole
    configurations.  [mergeConfigs] shares the overlay's objects where it
    copies a pointer; nothing is written through these pointers afterwards,
    so the model copies values. *)

From S2P Require Import Prelude.
From S2P Require Import GoStrings.
From S2P Require Import K8s.
From S2P Require Import Api.
From S2P Require Import GatewayConfig.
From S2P Require Import GatewayTelemetry.
From S2P Require Import OdigosConfig.

(** ** Operators *)

(** [if add.F != nil { base.F = add.F }]. *)
Definition take_ptr {A} (base add : option A) : option A := match add with Some _ => add | None => base end.
(** [if add.F != "" { base.F = add.F }]. *)
Definition take_str (base add : string) : string := if decide (add <> "") then add else base.
(** [if add.F != 0 { base.F = add.F }]. *)
Definition take_int (base add : Z) : Z := if decide (add <> 0%Z) then add else base.
(** A field that is not merged. *)
Definition leave {A} (base add : A) : A := base.
(** [if add.F != nil { if base.F == nil { base.F = &T{} }; merge add.F into base.F }]. *)
Definition into {A} (merge : A -> A -> A) (zero : A) (base add : option A) : option A :=
  match add with Some a => Some (merge (default zero base) a) | None => base end.

(** ** [mergeConfigs] *)

Definition merge_rollout (b a : RolloutConfiguration) : RolloutConfiguration :=
  mkRolloutConf (take_ptr (rc_automatic_disabled b) (rc_automatic_disabled a))
    (take_int (rc_max_concurrent b) (rc_max_concurrent a)).

Definition merge_span_sampling (b a : SpanSamplingAttributesConfiguration) : SpanSamplingAttributesConfiguration :=
  mkSpanSamplingAttributes (take_ptr (ssa_Disabled b) (ssa_Disabled a))
    (take_ptr (ssa_SamplingCategoryDisabled b) (ssa_SamplingCategoryDisabled a))
    (take_ptr (ssa_TraceDecidingRuleDisabled b) (ssa_TraceDecidingRuleDisabled a))
    (take_ptr (ssa_SpanDecisionAttributesDisabled b) (ssa_SpanDecisionAttributesDisabled a)).

Definition merge_tail_sampling (b a : TailSamplingConfiguration) : TailSamplingConfiguration :=
  mkTailSampling (take_ptr (ts_Disabled b) (ts_Disabled a))
    (take_ptr (ts_TraceAggregationWaitDuration b) (ts_TraceAggregationWaitDuration a)).

Definition merge_health_probes (b a : HealthProbesSamplingConfiguration) : HealthProbesSamplingConfiguration :=
  mkHealthProbes (take_ptr (hps_enabled b) (hps_enabled a)) (take_ptr (hps_keep_percentage b) (hps_keep_percentage a)).

Definition merge_sampling (b a : SamplingSettings) : SamplingSettings :=
  mkSamplingSettings (take_ptr (smps_DryRun b) (smps_DryRun a))
    (into merge_span_sampling (mkSpanSamplingAttributes None None None None)
       (smps_SpanSamplingAttributes b) (smps_SpanSamplingAttributes a))
    (into merge_tail_sampling (mkTailSampling None None) (smps_TailSampling b) (smps_TailSampling a))
    (into merge_health_probes (mkHealthProbes None None)
       (smps_K8sHealthProbesSampling b) (smps_K8sHealthProbesSampling a)).

Definition merge_log_levels (b a : LogLevels) : LogLevels :=
  mkAllLogLevels (take_str (ll_Default b) (ll_Default a)) (take_str (ll_Autoscaler b) (ll_Autoscaler a))
    (take_str (ll_Scheduler b) (ll_Scheduler a)) (take_str (ll_Instrumentor b) (ll_Instrumentor a))
    (take_str (ll_Odiglet b) (ll_Odiglet a)) (take_str (ll_Deviceplugin b) (ll_Deviceplugin a))
    (take_str (ll_UI b) (ll_UI a)) (take_str (ll_Collector b) (ll_Collector a)).

Definition merge_profiling_ui (b a : ProfilingUiConfiguration) : ProfilingUiConfiguration :=
  mkProfilingUi (take_int (pui_SlotTTLSeconds b) (pui_SlotTTLSeconds a)) (take_int (pui_MaxSlots b) (pui_MaxSlots a))
    (take_int (pui_SlotMaxBytes b) (pui_SlotMaxBytes a)).

(** [Symbolization] is not merged. *)
Definition merge_profiling (b a : ProfilingSettings) : ProfilingSettings :=
  mkProfilingSettings (take_ptr (pfs_Enabled b) (pfs_Enabled a)) (take_ptr (pfs_Exporter b) (pfs_Exporter a))
    (leave (pfs_Symbolization b) (pfs_Symbolization a))
    (into merge_profiling_ui (mkProfilingUi 0 0 0) (pfs_Ui b) (pfs_Ui a)).

Definition merge_serviceio (b a : ServiceIOSettings) : ServiceIOSettings :=
  mkServiceIOSettings (take_ptr (sios_Enabled b) (sios_Enabled a))
    (take_ptr (sios_InputSpanAttributes b) (sios_InputSpanAttributes a))
    (take_ptr (sios_OutputSpanAttributes b) (sios_OutputSpanAttributes a))
    (take_str (sios_MetricsFlushInterval b) (sios_MetricsFlushInterval a)).

(** Merged only when both [TraceCorrelations] and its [ServiceIO] are there. *)
Definition merge_trace_correlations (b a : option (option ServiceIOSettings)) : option (option ServiceIOSettings) :=
  match a with
  | Some (Some s) => Some (Some (merge_serviceio (default (mkServiceIOSettings None None None "") (default None b)) s))
  | _ => b
  end.

Definition mergeConfigs (b a : Configuration) : Configuration :=
  {| oc_Installation := leave (oc_Installation b) (oc_Installation a);
     oc_TelemetryEnabled := orb (oc_TelemetryEnabled b) (oc_TelemetryEnabled a);
     oc_IgnoredNamespaces := take_ptr (oc_IgnoredNamespaces b) (oc_IgnoredNamespaces a);
     oc_IgnoredContainers := take_ptr (oc_IgnoredContainers b) (oc_IgnoredContainers a);
     oc_IgnoreOdigosNamespace := take_ptr (oc_IgnoreOdigosNamespace b) (oc_IgnoreOdigosNamespace a);
     oc_CollectorGateway := leave (oc_CollectorGateway b) (oc_CollectorGateway a);
     oc_CollectorNode := leave (oc_CollectorNode b) (oc_CollectorNode a);
     oc_Profiles := leave (oc_Profiles b) (oc_Profiles a);
     oc_AllowConcurrentAgents := take_ptr (oc_AllowConcurrentAgents b) (oc_AllowConcurrentAgents a);
     oc_McpAccessMode := take_str (oc_McpAccessMode b) (oc_McpAccessMode a);
     oc_McpEnabled := take_ptr (oc_McpEnabled b) (oc_McpEnabled a);
     oc_ClusterName := take_str (oc_ClusterName b) (oc_ClusterName a);
     oc_MountMethod := leave (oc_MountMethod b) (oc_MountMethod a);
     oc_AgentEnvVarsInjectionMethod := take_ptr (oc_AgentEnvVarsInjectionMethod b) (oc_AgentEnvVarsInjectionMethod a);
     oc_Rollout := into merge_rollout (mkRolloutConf None 0) (oc_Rollout b) (oc_Rollout a);
     oc_RollbackDisabled := take_ptr (oc_RollbackDisabled b) (oc_RollbackDisabled a);
     oc_RollbackGraceTime := take_str (oc_RollbackGraceTime b) (oc_RollbackGraceTime a);
     oc_RollbackStabilityWindow := take_str (oc_RollbackStabilityWindow b) (oc_RollbackStabilityWindow a);
     oc_GoAutoOffsetsCron := take_str (oc_GoAutoOffsetsCron b) (oc_GoAutoOffsetsCron a);
     oc_GoAutoOffsetsMode := take_str (oc_GoAutoOffsetsMode b) (oc_GoAutoOffsetsMode a);
     oc_CheckDeviceHealthBeforeInjection :=
       take_ptr (oc_CheckDeviceHealthBeforeInjection b) (oc_CheckDeviceHealthBeforeInjection a);
     oc_ResourceSizePreset := leave (oc_ResourceSizePreset b) (oc_ResourceSizePreset a);
     oc_MetricsSources := leave (oc_MetricsSources b) (oc_MetricsSources a);
     oc_TraceCorrelations := merge_trace_correlations (oc_TraceCorrelations b) (oc_TraceCorrelations a);
     oc_AgentsInitContainerResources := leave (oc_AgentsInitContainerResources b) (oc_AgentsInitContainerResources a);
     oc_Sampling := into merge_sampling (mkSamplingSettings None None None None) (oc_Sampling b) (oc_Sampling a);
     oc_ComponentLogLevels :=
       into merge_log_levels (mkAllLogLevels "" "" "" "" "" "" "" "") (oc_ComponentLogLevels b) (oc_ComponentLogLevels a);
     oc_Profiling := into merge_profiling (mkProfilingSettings None None None None) (oc_Profiling b) (oc_Profiling a) |}.

(** A nil overlay changes nothing. *)
Definition merge_overlay (base : Configuration) (overlay : option Configuration) : Configuration :=
  match overlay with Some a => mergeConfigs base a | None => base end.

(** ** Laws *)

(** Merging one overlay after another is merging their merge, and merging an
    overlay again changes nothing. *)
Class Band {A} (op : A -> A -> A) : Prop := {
  band_assoc b x y : op (op b x) y = op b (op x y);
  band_idem x : op x x = x
}.

(** The zero value as an overlay changes nothing. *)
Class ZeroOverlay {A} (op : A -> A -> A) (zero : A) : Prop := zero_overlay b : op b zero = b.

#[export] Instance take_ptr_zero {A} : ZeroOverlay (@take_ptr A) None.
Proof. done. Qed.
#[export] Instance take_str_zero : ZeroOverlay take_str "".
Proof. done. Qed.
#[export] Instance take_int_zero : ZeroOverlay take_int 0%Z.
Proof. done. Qed.
#[export] Instance leave_zero {A} (zero : A) : ZeroOverlay leave zero.
Proof. done. Qed.
#[export] Instance into_zero {A} (merge : A -> A -> A) zero : ZeroOverlay (into merge zero) None.
Proof. done. Qed.

#[export] Instance take_ptr_band {A} : Band (@take_ptr A).
Proof. by split; [intros [] [] []|intros []]. Qed.
#[export] Instance take_str_band : Band take_str.
Proof. split; unfold take_str; intros; repeat case_decide; done. Qed.
#[export] Instance take_int_band : Band take_int.
Proof. split; unfold take_int; intros; repeat case_decide; done. Qed.
#[export] Instance leave_band {A} : Band (@leave A).
Proof. by split. Qed.
#[export] Instance orb_band : Band orb.
Proof. by split; [intros [] [] []|intros []]. Qed.
#[export] Instance into_band {A} (merge : A -> A -> A) zero `{!Band merge, !ZeroOverlay merge zero} :
  Band (into merge zero).
Proof.
  assert (Hz : forall b, merge b zero = b) by exact zero_overlay.
  split; [intros [b|] [x|] [y|]|intros [x|]]; simpl; try done; f_equal; rewrite <-?band_assoc, ?Hz; try done.
  apply band_idem.
Qed.

#[local] Arguments take_ptr : simpl never.
#[local] Arguments take_str : simpl never.
#[local] Arguments take_int : simpl never.
#[local] Arguments leave : simpl never.
#[local] Arguments into : simpl never.
#[local] Arguments orb : simpl never.
#[local] Arguments merge_trace_correlations : simpl never.

(** A record merged field by field. *)
Ltac record_band :=
  split; [intros b x y; cbn; by rewrite ?band_assoc|intros x; destruct x; cbn; by rewrite ?band_idem].
Ltac record_zero := intros b; destruct b; cbn; by rewrite ?zero_overlay.

#[export] Instance merge_rollout_zero : ZeroOverlay merge_rollout (mkRolloutConf None 0).
Proof. unfold merge_rollout. record_zero. Qed.
#[export] Instance merge_rollout_band : Band merge_rollout.
Proof. unfold merge_rollout. record_band. Qed.
#[export] Instance merge_span_sampling_zero : ZeroOverlay merge_span_sampling (mkSpanSamplingAttributes None None None None).
Proof. unfold merge_span_sampling. record_zero. Qed.
#[export] Instance merge_span_sampling_band : Band merge_span_sampling.
Proof. unfold merge_span_sampling. record_band. Qed.
#[export] Instance merge_tail_sampling_zero : ZeroOverlay merge_tail_sampling (mkTailSampling None None).
Proof. unfold merge_tail_sampling. record_zero. Qed.
#[export] Instance merge_tail_sampling_band : Band merge_tail_sampling.
Proof. unfold merge_tail_sampling. record_band. Qed.
#[export] Instance merge_health_probes_zero : ZeroOverlay merge_health_probes (mkHealthProbes None None).
Proof. unfold merge_health_probes. record_zero. Qed.
#[export] Instance merge_health_probes_band : Band merge_health_probes.
Proof. unfold merge_health_probes. record_band. Qed.
#[export] Instance merge_sampling_zero : ZeroOverlay merge_sampling (mkSamplingSettings None None None None).
Proof. unfold merge_sampling. record_zero. Qed.
#[export] Instance merge_sampling_band : Band merge_sampling.
Proof. unfold merge_sampling. record_band. Qed.
#[export] Instance merge_log_levels_zero : ZeroOverlay merge_log_levels (mkAllLogLevels "" "" "" "" "" "" "" "").
Proof. unfold merge_log_levels. record_zero. Qed.
#[export] Instance merge_log_levels_band : Band merge_log_levels.
Proof. unfold merge_log_levels. record_band. Qed.
#[export] Instance merge_profiling_ui_zero : ZeroOverlay merge_profiling_ui (mkProfilingUi 0 0 0).
Proof. unfold merge_profiling_ui. record_zero. Qed.
#[export] Instance merge_profiling_ui_band : Band merge_profiling_ui.
Proof. unfold merge_profiling_ui. record_band. Qed.
#[export] Instance merge_profiling_zero : ZeroOverlay merge_profiling (mkProfilingSettings None None None None).
Proof. unfold merge_profiling. record_zero. Qed.
#[export] Instance merge_profiling_band : Band merge_profiling.
Proof. unfold merge_profiling. record_band. Qed.
#[export] Instance merge_serviceio_zero : ZeroOverlay merge_serviceio (mkServiceIOSettings None None None "").
Proof. unfold merge_serviceio. record_zero. Qed.
#[export] Instance merge_serviceio_band : Band merge_serviceio.
Proof. unfold merge_serviceio. record_band. Qed.
#[export] Instance merge_trace_correlations_band : Band merge_trace_correlations.
Proof.
  unfold merge_trace_correlations. split.
  - assert (Hz := merge_serviceio_zero).
    intros [[b|]|] [[x|]|] [[y|]|]; simpl; try done; do 2 f_equal; rewrite <-?band_assoc, ?Hz; done.
  - intros [[x|]|]; simpl; try done. by rewrite band_idem.
Qed.
#[export] Instance mergeConfigs_band : Band mergeConfigs.
Proof. unfold mergeConfigs. record_band. Qed.

(** ** Which fields are merged *)

(** A field that an overlay can set; a pointer, string or number that is not
    the zero value is set. *)
Record Field := mkField { fld_Type : Type; fld_get : Configuration -> fld_Type; fld_set : fld_Type -> bool }.

Definition ptr_field {A} (get : Configuration -> option A) : Field :=
  mkField (option A) get (fun p => match p with Some _ => true | None => false end).
Definition str_field (get : Configuration -> string) : Field := mkField string get (fun s => bool_decide (s <> "")).
Definition int_field (get : Configuration -> Z) : Field := mkField Z get (fun n => bool_decide (n <> 0%Z)).
(** [TelemetryEnabled]: [false] cannot be told from not set. *)
Definition bool_field (get : Configuration -> bool) : Field := mkField bool get id.

Definition serviceio_of (c : Configuration) : option ServiceIOSettings := default None (oc_TraceCorrelations c).
Definition level_field (f : LogLevels -> string) : Field :=
  str_field (fun c => default "" (f <$> oc_ComponentLogLevels c)).
Definition ui_field (f : ProfilingUiConfiguration -> Z) : Field :=
  int_field (fun c => default 0%Z (f <$> (oc_Profiling c ≫= pfs_Ui))).
Definition sampling_field {A} (f : SamplingSettings -> option A) : Field := ptr_field (fun c => oc_Sampling c ≫= f).

Definition supported_fields : list Field :=
  [bool_field oc_TelemetryEnabled; ptr_field oc_IgnoredNamespaces; ptr_field oc_IgnoredContainers;
   ptr_field oc_IgnoreOdigosNamespace; str_field oc_ClusterName; str_field oc_McpAccessMode; ptr_field oc_McpEnabled;
   ptr_field oc_AgentEnvVarsInjectionMethod; ptr_field oc_CheckDeviceHealthBeforeInjection;
   ptr_field oc_AllowConcurrentAgents;
   ptr_field (fun c => oc_Rollout c ≫= rc_automatic_disabled);
   int_field (fun c => default 0%Z (rc_max_concurrent <$> oc_Rollout c));
   ptr_field oc_RollbackDisabled; str_field oc_RollbackGraceTime; str_field oc_RollbackStabilityWindow;
   str_field oc_GoAutoOffsetsCron; str_field oc_GoAutoOffsetsMode;
   sampling_field smps_DryRun;
   sampling_field (fun s => smps_SpanSamplingAttributes s ≫= ssa_Disabled);
   sampling_field (fun s => smps_SpanSamplingAttributes s ≫= ssa_SamplingCategoryDisabled);
   sampling_field (fun s => smps_SpanSamplingAttributes s ≫= ssa_TraceDecidingRuleDisabled);
   sampling_field (fun s => smps_SpanSamplingAttributes s ≫= ssa_SpanDecisionAttributesDisabled);
   sampling_field (fun s => smps_TailSampling s ≫= ts_Disabled);
   sampling_field (fun s => smps_TailSampling s ≫= ts_TraceAggregationWaitDuration);
   sampling_field (fun s => smps_K8sHealthProbesSampling s ≫= hps_enabled);
   sampling_field (fun s => smps_K8sHealthProbesSampling s ≫= hps_keep_percentage);
   level_field ll_Default; level_field ll_Autoscaler; level_field ll_Scheduler; level_field ll_Instrumentor;
   level_field ll_Odiglet; level_field ll_Deviceplugin; level_field ll_UI; level_field ll_Collector;
   ptr_field (fun c => oc_Profiling c ≫= pfs_Enabled); ptr_field (fun c => oc_Profiling c ≫= pfs_Exporter);
   ui_field pui_MaxSlots; ui_field pui_SlotMaxBytes; ui_field pui_SlotTTLSeconds;
   ptr_field (fun c => serviceio_of c ≫= sios_Enabled); ptr_field (fun c => serviceio_of c ≫= sios_InputSpanAttributes);
   ptr_field (fun c => serviceio_of c ≫= sios_OutputSpanAttributes);
   str_field (fun c => default "" (sios_MetricsFlushInterval <$> serviceio_of c))].

(** The fields that only Helm sets. *)
Definition helm_fields (c : Configuration) :=
  (oc_Installation c, oc_CollectorGateway c, oc_CollectorNode c, oc_Profiles c, oc_MountMethod c,
   oc_ResourceSizePreset c, oc_MetricsSources c, oc_AgentsInitContainerResources c,
   oc_Profiling c ≫= pfs_Symbolization).

(** The overlay's value where it is set. *)
Definition overlaid (f : Field) : Prop := forall b a,
  fld_get f (mergeConfigs b a) = if fld_set f (fld_get f a) then fld_get f a else fld_get f b.

Lemma helm_fields_kept b a : helm_fields (mergeConfigs b a) = helm_fields b.
Proof. unfold helm_fields, mergeConfigs. simpl. by destruct (oc_Profiling a), (oc_Profiling b). Qed.

Lemma take_str_if b a : take_str b a = if bool_decide (a <> "") then a else b.
Proof. unfold take_str. case_bool_decide; case_decide; done. Qed.
Lemma take_int_if b a : take_int b a = if bool_decide (a <> 0%Z) then a else b.
Proof. unfold take_int. case_bool_decide; case_decide; done. Qed.

Ltac overlaid_field :=
  intros b a;
  repeat first
    [progress (cbn; rewrite ?take_str_if, ?take_int_if;
               unfold take_ptr, into, merge_trace_correlations, serviceio_of, orb, id, from_option,
                 mbind, option_bind, fmap, option_fmap, option_map)
    |case_match; simplify_eq/=; try done];
  repeat match goal with Hb : bool_decide _ = true |- _ => apply bool_decide_eq_true in Hb end; by try congruence.

Lemma ui_overlaid f :
  (forall b a, f (merge_profiling_ui b a) = take_int (f b) (f a)) -> f (mkProfilingUi 0 0 0) = 0%Z -> overlaid (ui_field f).
Proof.
  intros Hm Hz b a. cbn. destruct (oc_Profiling a) as [[ea xa sa [ua|]]|]; [| |done];
    destruct (oc_Profiling b) as [[eb xb sb [ub|]]|]; do 2 (cbn; unfold into); cbn;
      by rewrite ?Hm, ?Hz, ?take_int_if.
Qed.

Lemma supported_overlaid : Forall overlaid supported_fields.
Proof. unfold supported_fields. repeat (constructor; [first [by apply ui_overlaid|overlaid_field]|]). constructor. Qed.

(** The value that two overlays leave. *)
Definition last_set (f : Field) (helm remote localUi : Configuration) : fld_Type f :=
  if fld_set f (fld_get f localUi) then fld_get f localUi
  else if fld_set f (fld_get f remote) then fld_get f remote else fld_get f helm.

(** C29: The configuration merged from Helm, the central backend and the
    local UI has, in each of the supported fields, the value of the last of
    the three that sets it, and Helm's value in every other field.  Merging
    the two overlays one after the other is merging their merge, and merging
    an overlay again changes nothing. *)
Theorem merge_configs_last_wins helm remote localUi :
  let merged := mergeConfigs (mergeConfigs helm remote) localUi in
  Forall (fun f => fld_get f merged = last_set f helm remote localUi) supported_fields
  ∧ helm_fields merged = helm_fields helm
  ∧ merged = mergeConfigs helm (mergeConfigs remote localUi)
  ∧ mergeConfigs merged localUi = merged.
Proof.
  cbv zeta. split_and!.
  - eapply Forall_impl; [exact supported_overlaid|]. intros f Hf. unfold last_set. by rewrite !Hf.
  - by rewrite !helm_fields_kept.
  - apply band_assoc.
  - by rewrite band_assoc, band_idem.
Qed.

(** An overlay cannot turn telemetry off nor lift the limit of concurrent
    rollouts: [false] and [0] are the values of a field that is not set. *)
Lemma overlay_cannot_reset b a :
  oc_TelemetryEnabled b = true -> oc_TelemetryEnabled (mergeConfigs b a) = true.
Proof. simpl. by intros ->. Qed.
Lemma overlay_cannot_unlimit b n :
  let unlimited := mkConfiguration (oc_Installation zero_configuration) false None None None None None [] None "" None ""
    None None (Some (mkRolloutConf None 0)) None "" "" "" "" None "" None None None None None None in
  rc_max_concurrent <$> oc_Rollout b = Some n -> rc_max_concurrent <$> oc_Rollout (mergeConfigs b unlimited) = Some n.
Proof. simpl. by destruct (oc_Rollout b). Qed.
