(* ===== verification/EffectiveConfig.v ===== *)
(** * The effective configuration
    (src/instrumentor/controllers/odigosconfiguration)

    The controller reads the configuration that Helm manages and two
    overlays, merges them, applies the manifests of the profiles that are in
    effect, lets the profiles change the configuration, fills in what is
    left open, and persists the result for every other component.

    The objects of the profiles live in a [Store]: the processors,
    instrumentation rules and actions of the odigos namespace with their
    labels.  Every write asks an oracle how it ends ([WriteReply]): it may
    fail before or after it was made.  Decoding YAML, reading the embedded
    manifests and the API server's replies to reads are arguments. *)

From Stdlib Require Import Ascii.
From stdpp Require Import pretty.
From S2P Require Import Prelude.
From S2P Require Import GoStrings.
From S2P Require Import GoSort.
From S2P Require Import K8s.
From S2P Require Import Api.
From S2P Require Import GoLib.
From S2P Require Import GoState.
From S2P Require Import PodEnv.
From S2P Require Import GatewayConfig.
From S2P Require Import GatewayTelemetry.
From S2P Require Import OdigosConfig.
From S2P Require Import Sizing.
From S2P Require Import Profiles.
From S2P Require Import ConfigMerge.

(** ** Lists (utils.go) *)

(** The merged set is ranged over in map order. *)
Definition mergeIgnoredItemLists `{GoMapOrder} (l1 l2 : list string) : list string :=
  map_order (elements (list_to_set (l1 ++ l2) : gset string)).

Definition removeItemFromList (l : list string) (itemToRemove : string) : list string :=
  filter (fun item => item <> itemToRemove) l.

(** [strings.Split(s, sep)] for a separator that is not empty. *)
Fixpoint split_from (sep s : string) (skip : nat) (acc : string) : list string :=
  match s with
  | EmptyString => [str_rev acc]
  | String c s' =>
      match skip with
      | S k => split_from sep s' k acc
      | O => if has_prefix sep s then str_rev acc :: split_from sep s' (String.length sep - 1) ""
             else split_from sep s' 0 (String c acc)
      end
  end.
Definition strings_Split (s sep : string) : list string := split_from sep s 0 "".

(** ** The namespaces of OpenShift (api/k8sconsts/consts.go) *)

Definition OpenshiftIgnoredNamespaces : list string :=
  ["openshift"; "openshift-apiserver"; "openshift-apiserver-operator"; "openshift-authentication";
   "openshift-authentication-operator"; "openshift-cloud-network-config-controller";
   "openshift-cloud-platform-infra"; "openshift-cluster-machine-approver"; "openshift-cluster-samples-operator";
   "openshift-cluster-storage-operator"; "openshift-cluster-version"; "openshift-config";
   "openshift-config-managed"; "openshift-config-operator"; "openshift-console"; "openshift-console-operator";
   "openshift-console-user-settings"; "openshift-controller-manager"; "openshift-controller-manager-operator";
   "openshift-dns"; "openshift-dns-operator"; "openshift-etcd"; "openshift-etcd-operator";
   "openshift-host-network"; "openshift-image-registry"; "openshift-infra"; "openshift-ingress";
   "openshift-ingress-canary"; "openshift-ingress-operator"; "openshift-kni-infra"; "openshift-kube-apiserver";
   "openshift-kube-apiserver-operator"; "openshift-kube-controller-manager";
   "openshift-kube-controller-manager-operator"; "openshift-kube-scheduler"; "openshift-kube-scheduler-operator";
   "openshift-kube-storage-version-migrator"; "openshift-kube-storage-version-migrator-operator";
   "openshift-machine-api"; "openshift-machine-config-operator"; "openshift-marketplace"; "openshift-monitoring";
   "openshift-multus"; "openshift-network-console"; "openshift-network-diagnostics";
   "openshift-network-node-identity"; "openshift-network-operator"; "openshift-node"; "openshift-nutanix-infra";
   "openshift-oauth-apiserver"; "openshift-openstack-infra"; "openshift-operator-lifecycle-manager";
   "openshift-operators"; "openshift-ovirt-infra"; "openshift-ovn-kubernetes";
   "openshift-route-controller-manager"; "openshift-service-ca"; "openshift-service-ca-operator";
   "openshift-user-workload-monitoring"; "openshift-vsphere-infra"].

(** ** Manifests of profiles (profiles/manifests/render.go) *)

(** What the controller reads of a manifest: kind, name, labels. *)
Record Manifest := mkManifest { mf_Kind : string; mf_Name : string; mf_Labels : gmap string string }.

Definition plain_manifest (kind name : string) : string * Manifest := (name, mkManifest kind name ∅).

(** The embedded files, by profile. *)
Definition embedded_manifests : list (string * Manifest) :=
  [("category-attributes", mkManifest "Processor" "category-attributes-node-collector" ∅);
   plain_manifest "InstrumentationRule" "code-attributes"; plain_manifest "Processor" "copy-scope";
   plain_manifest "InstrumentationRule" "db-payload-collection"; plain_manifest "InstrumentationRule" "disable-gin";
   plain_manifest "InstrumentationRule" "disable-golang-gin";
   plain_manifest "InstrumentationRule" "disable-nodejs-express";
   plain_manifest "InstrumentationRule" "ebpf-log-capture";
   plain_manifest "InstrumentationRule" "full-payload-collection"; plain_manifest "Processor" "hostname-as-podname";
   plain_manifest "Action" "infer-db-attributes"; plain_manifest "InstrumentationRule" "java-ebpf-instrumentations";
   plain_manifest "InstrumentationRule" "java-enterprise";
   plain_manifest "InstrumentationRule" "legacy-dotnet-instrumentation";
   plain_manifest "InstrumentationRule" "legacy-ruby-instrumentation";
   plain_manifest "InstrumentationRule" "nodejs-verbosity-full"; plain_manifest "Processor" "query-operation-detector";
   plain_manifest "Processor" "reduce-span-name-cardinality"; plain_manifest "Processor" "semconv";
   plain_manifest "Processor" "semconvdynamo"; plain_manifest "Processor" "semconvredis";
   plain_manifest "Action" "url-template"].

(** A profile without a file has no manifests. *)
Definition ReadProfileYamlManifests (profileName : string) : list Manifest :=
  snd <$> filter (fun m => m.1 = profileName) embedded_manifests.

Definition supportedKinds : list string := ["Processor"; "InstrumentationRule"; "Action"].

(** ** The store of the profiles' objects *)

Definition Labels : Type := gmap string string.
(** The objects by kind and name, and the number of writes so far. *)
Record Store := mkStore { objects : gmap (string * string) Labels; writes : nat }.

(** A write succeeds, or fails with an error and was or was not made. *)
Inductive WriteReply := WriteOk | WriteFailed (err : error) (made : bool).

Definition OdigosProfilesHashLabel : string := "odigos.io/profiles-hash".
Definition OdigosProfilesManagedByLabel : string := "odigos.io/managed-by".
Definition OdigosProfilesManagedByValue : string := "profile".

Section Manifests.
Context (replies : nat -> WriteReply) (lists : nat -> option error).

(** A write to the objects, as it ends; the number of writes selects the reply. *)
Definition write_objects (f : gmap (string * string) Labels -> gmap (string * string) Labels) : gost Store (option error) :=
  fun s => match replies (writes s) with
           | WriteOk => Done (None, mkStore (f (objects s)) (S (writes s)))
           | WriteFailed err made => Done (Some err, mkStore (if made then f (objects s) else objects s) (S (writes s)))
           end.

(** Run [k] unless there was an error. *)
Definition unless_error (m : gost Store (option error)) (k : gost Store (option error)) : gost Store (option error) :=
  m ≫= fun err => match err with Some err => mret (Some err) | None => k end.

(** [for x in l { if err := f(x); err != nil { return err } }]. *)
Fixpoint each {A} (f : A -> gost Store (option error)) (l : list A) : gost Store (option error) :=
  match l with [] => mret None | x :: l => unless_error (f x) (each f l) end.

(** The labels of an applied manifest; a server-side apply leaves the other
    labels of an existing object. *)
Definition profile_labels (hash : string) (m : Manifest) : Labels :=
  <[OdigosProfilesManagedByLabel := OdigosProfilesManagedByValue]> (<[OdigosProfilesHashLabel := hash]> (mf_Labels m)).
Definition apply_labels (labels : Labels) (old : option Labels) : option Labels := Some (labels ∪ default ∅ old).

Definition applySingleProfileManifest (hash : string) (m : Manifest) : gost Store (option error) :=
  if decide (mf_Kind m ∈ supportedKinds)
  then write_objects (partial_alter (apply_labels (profile_labels hash m)) (mf_Kind m, mf_Name m))
  else mret (Some (ENew ("unsupported kind for profile manifest " +:+ mf_Kind m))).

(** The selector: managed by a profile, and the hash is missing or differs. *)
Definition is_stale (hash : string) (labels : Labels) : bool :=
  bool_decide (labels !! OdigosProfilesManagedByLabel = Some OdigosProfilesManagedByValue)
  && bool_decide (labels !! OdigosProfilesHashLabel <> Some hash).

(** The names of the stale objects of a kind, as the server lists them. *)
Definition stale_names (hash kind : string) (objs : gmap (string * string) Labels) : list string :=
  snd <$> (filter (fun k => k.1 = kind) (fst <$> filter (fun kv => is_stale hash kv.2 = true) (map_to_list objs))).

(** List and delete the stale objects of one kind; [i] selects the reply to
    the list. *)
Definition delete_stale (hash : string) (i : nat) (kind : string) : gost Store (option error) :=
  match lists i with
  | Some err => mret (Some err)
  | None => gets (fun s => stale_names hash kind (objects s)) ≫=
            each (fun name => write_objects (delete (kind, name)))
  end.

Definition applyProfileManifests (hash : string) (effectiveProfiles : list string) : gost Store (option error) :=
  unless_error (each (fun profileName => each (applySingleProfileManifest hash) (ReadProfileYamlManifests profileName))
                  effectiveProfiles)
  (unless_error (delete_stale hash 0 "Processor")
  (unless_error (delete_stale hash 1 "InstrumentationRule")
  (delete_stale hash 2 "Action"))).
End Manifests.

(** ** Filling in what is left open *)

(** [getInitContainerResources]; [parses] tells whether a quantity is valid. *)
Definition valid_size (parses : string -> bool) (suffix : string) (n : Z) : Z :=
  if parses (pretty n +:+ suffix) then n else 300%Z.
Definition getInitContainerResources (parses : string -> bool) (c : Configuration) : AgentsInitContainerResources :=
  let size f := match oc_AgentsInitContainerResources c with
                | Some r => if (0 <? f r)%Z then f r else 300%Z
                | None => 300%Z
                end in
  mkInitResources (valid_size parses "m" (size air_request_cpu)) (valid_size parses "m" (size air_limit_cpu))
    (valid_size parses "Mi" (size air_request_memory)) (valid_size parses "Mi" (size air_limit_memory)).

Definition resolveMountMethod (parses : string -> bool) (c : Configuration) : Configuration :=
  match oc_MountMethod c with
  | None => set_MountMethod (Some K8sVirtualDeviceMountMethod) c
  | Some method =>
      switch method
        [(K8sHostPathMountMethod, c);
         (K8sVirtualDeviceMountMethod, c);
         (K8sInitContainerMountMethod, set_AgentsInitContainerResources (Some (getInitContainerResources parses c)) c);
         (K8sCsiDriverMountMethod, c)]
        (set_MountMethod (Some K8sVirtualDeviceMountMethod) c)
  end.

Definition resolveEnvInjectionMethod (c : Configuration) : Configuration :=
  match oc_AgentEnvVarsInjectionMethod c with
  | None => set_AgentEnvVarsInjectionMethod (Some LoaderFallbackToPodManifestInjectionMethod) c
  | Some method =>
      switch method
        [(LoaderFallbackToPodManifestInjectionMethod, c); (LoaderEnvInjectionMethod, c);
         (PodManifestEnvInjectionMethod, c)]
        (set_AgentEnvVarsInjectionMethod (Some LoaderFallbackToPodManifestInjectionMethod) c)
  end.

Section Verify.
Context `{GoLibrary}.

(** An interval that is set must be a duration. *)
Definition check_interval (name : string) (interval : option string) : option error :=
  match interval with
  | Some s => if decide (s <> "") then
                match ParseDuration s with
                | inl err => Some (EWrap ("failed to parse " +:+ name +:+ " interval") (ENew err))
                | inr _ => None
                end
              else None
  | None => None
  end.

Definition set_span_interval (interval : string) (s : MetricsSourceSpanMetricsConfiguration) : MetricsSourceSpanMetricsConfiguration :=
  mkSpanMetricsSource (msp_Disabled s) interval (msp_MetricsExpiration s) (msp_AdditionalDimensions s)
    (msp_HistogramDisabled s) (msp_ExplicitHistogramBuckets s) (msp_IncludedProcessInDimensions s)
    (msp_ExcludedResourceAttributes s) (msp_ResourceMetricsKeyAttributes s) (msp_SpanMetricsMode s).
Definition with_span_metrics (s : MetricsSourceSpanMetricsConfiguration) (m : MetricsSources) : MetricsSources :=
  mkMetricsSources (Some s) (src_HostMetrics m) (src_KubeletStats m) (src_OdigosOwnMetrics m) (src_AgentMetrics m).

(** The interval of the span metrics is defaulted in the configuration. *)
Definition verifyMetricsConfig (c : Configuration) : error + Configuration :=
  match oc_MetricsSources c with
  | None => inr c
  | Some m =>
      match check_interval "odigos own metrics" (src_OdigosOwnMetrics m) with
      | Some err => inl err
      | None =>
      match check_interval "kubelet stats" (mk_Interval <$> src_KubeletStats m) with
      | Some err => inl err
      | None =>
      match check_interval "host metrics" (mh_Interval <$> src_HostMetrics m) with
      | Some err => inl err
      | None =>
      match src_SpanMetrics m with
      | None => inr c
      | Some s =>
          if decide (msp_Interval s = "")
          then inr (set_MetricsSources (Some (with_span_metrics (set_span_interval "60s" s) m)) c)
          else match check_interval "span metrics" (Some (msp_Interval s)) with
               | Some err => inl err
               | None => inr c
               end
      end end end end
  end.
End Verify.

(** ** [Reconcile] *)

(** The replies of the API server and of the YAML decoder.  A config map is
    its entry for the configuration file, empty when it has none. *)
Record ConfigReplies := mkConfigReplies
  { rr_ConfigMap : error + string;
    rr_Deployment : error + gmap string string;
    rr_Remote : error + string;
    rr_LocalUi : error + string;
    rr_Unmarshal : string -> error + Configuration;
    rr_Persist : option error }.

(** What [getAdditionalConfig] returns: no configuration, one, or an error. *)
Definition getAdditionalConfig (unmarshal : string -> error + Configuration) (reply : error + string) :
    error + option Configuration :=
  match reply with
  | inl err => if IsNotFound err then inr None else inl (EWrap "failed to get remote config ConfigMap" err)
  | inr text =>
      if decide (text = "") then inr None
      else match unmarshal text with
           | inl err => inl (EWrap "failed to parse additional config" err)
           | inr c => inr (Some c)
           end
  end.

(** An overlay that cannot be read is logged and left out. *)
Definition readable (overlay : error + option Configuration) : option Configuration :=
  match overlay with inl _ => None | inr c => c end.

Definition OdigosDeploymentConfigMapOnPremClientProfilesKey : string := "onprem-profiles".
(** The profiles of the configuration, then those of the client's token. *)
Definition asked_profiles (c : Configuration) (deployment : gmap string string) : list string :=
  oc_Profiles c ++
  match deployment !! OdigosDeploymentConfigMapOnPremClientProfilesKey with
  | Some tokenProfilesString => strings_Split tokenProfilesString ", "
  | None => []
  end.

(** The recursion along the dependencies, which are one level deep. *)
Definition profiles_fuel : nat := 2.

Section Reconcile.
Context `{GoLibrary} `{GoSort} `{GoMapOrder}.
Context (parses : string -> bool) (digest : string -> string) (namespace tier version : string).

Definition ignored_namespaces (c : Configuration) : option (list string) :=
  let l := if in_OpenshiftEnabled (oc_Installation c)
           then Some (mergeIgnoredItemLists (default [] (oc_IgnoredNamespaces c)) OpenshiftIgnoredNamespaces)
           else oc_IgnoredNamespaces c in
  if default true (oc_IgnoreOdigosNamespace c) then Some (default [] l ++ [namespace])
  else Some (removeItemFromList (default [] l) namespace).

(** From the merged configuration and the effective profiles to the
    configuration that is persisted. *)
Definition complete_config (effectiveProfiles : list string) (c : Configuration) : error + Configuration :=
  let c := set_IgnoredNamespaces (ignored_namespaces c) c in
  let c := set_Profiles effectiveProfiles (modifyConfigWithEffectiveProfiles effectiveProfiles c) in
  let eff := ComputeEffectiveCollectorConfig c in
  let c := set_CollectorNode (Some eff.1.2) (set_CollectorGateway (Some eff.1.1) eff.2) in
  verifyMetricsConfig (resolveEnvInjectionMethod (resolveMountMethod parses c)).

(** The merged configuration. *)
Definition merged_config (r : ConfigReplies) (helm : Configuration) : Configuration :=
  let c := merge_overlay helm (readable (getAdditionalConfig (rr_Unmarshal r) (rr_Remote r))) in
  merge_overlay c (readable (getAdditionalConfig (rr_Unmarshal r) (rr_LocalUi r))).

(** The error of the reconciliation and the configuration that was sent to
    be persisted; the store of the profiles' objects is the state. *)
Definition Reconcile (replies : nat -> WriteReply) (lists : nat -> option error) (r : ConfigReplies) :
    gost Store (option error * option Configuration) :=
  match rr_ConfigMap r with
  | inl err => mret (Some err, None)
  | inr text =>
  match rr_Deployment r with
  | inl err => mret (Some err, None)
  | inr deployment =>
  match rr_Unmarshal r text with
  | inl err => mret (Some err, None)
  | inr helm =>
      let c := merged_config r helm in
      match calculateEffectiveProfiles profiles_fuel (asked_profiles c deployment) (GetAvailableProfilesForTier tier) with
      | None => fun _ => Hang
      | Some effectiveProfiles =>
          applyProfileManifests replies lists (calculateProfilesDeploymentHash digest effectiveProfiles version)
            effectiveProfiles ≫= fun err =>
          match err with
          | Some err => mret (Some err, None)
          | None =>
              match complete_config effectiveProfiles c with
              | inl err => mret (Some (ETerminal err), None)
              | inr effective => mret (rr_Persist r, Some effective)
              end
          end
      end
  end end end.
End Reconcile.
