(* ===== verification/EffectiveConfigProperties.v ===== *)
(** * The effective configuration is complete, and the profiles' objects converge

    A reconciliation of the configuration always returns.  What it persists
    is resolved - a valid mount method, injection method and preset, both
    collectors' configurations, intervals that parse - and is, field by field,
    what Helm's configuration, the overlays and the profiles in effect ask for
    ([effective_config_resolved]); the objects of the profiles are those of the
    profiles in effect, whatever was there before, and no object is touched
    that is neither managed by a profile nor named like a manifest in effect
    ([profile_objects_converge]). *)

From stdpp Require Import pretty.
From S2P Require Import Prelude.
From S2P Require Import GoStrings.
From S2P Require Import GoSort.
From S2P Require Import K8s.
From S2P Require Import Api.
From S2P Require Import GoLib.
From S2P Require Import GoState.
From S2P Require Import PodEnv.
From S2P Require Import GatewayConfig.
From S2P Require Import GatewayTelemetry.
From S2P Require Import OdigosConfig.
From S2P Require Import Sizing.
From S2P Require Import Profiles.
From S2P Require Import ConfigMerge.
From S2P Require Import EffectiveConfig.

(** ** The objects of the profiles *)

Section Objects.
Context (replies : nat -> WriteReply) (lists : nat -> option error) (hash : string).

Definition key_of (m : Manifest) : string * string := (mf_Kind m, mf_Name m).

(** Labelled by the deployment [hash]. *)
Definition current (l : Labels) : Prop :=
  l !! OdigosProfilesManagedByLabel = Some OdigosProfilesManagedByValue ∧ l !! OdigosProfilesHashLabel = Some hash.

(** Objects other than [keys] are kept, unless they are stale. *)
Definition safe (keys : list (string * string)) (s s' : Store) : Prop := forall k, k ∉ keys ->
  objects s' !! k = objects s !! k
  ∨ objects s' !! k = None ∧ exists l, objects s !! k = Some l ∧ is_stale hash l = true.
Definition applied (ms : list Manifest) (s : Store) : Prop := forall m, m ∈ ms ->
  exists l, objects s !! key_of m = Some l ∧ current l.
Definition fresh (kinds : list string) (s : Store) : Prop := forall kind name l, kind ∈ kinds ->
  objects s !! (kind, name) = Some l -> is_stale hash l = false.

#[local] Instance safe_preorder keys : PreOrder (safe keys).
Proof.
  split.
  - intros s k _. by left.
  - intros s1 s2 s3 H12 H23 k Hk. specialize (H12 k Hk). destruct (H23 k Hk) as [->|[E (l & El & Hl)]]; [done|].
    right. split; [done|]. exists l. destruct H12 as [<-|[E' _]]; [done|congruence].
Qed.

Lemma current_not_stale l : current l -> is_stale hash l = false.
Proof. intros [_ Hh]. unfold is_stale. rewrite Hh. apply andb_false_intro2, bool_decide_eq_false. naive_solver. Qed.

Lemma current_applied m old : exists l, apply_labels (profile_labels hash m) old = Some l ∧ current l.
Proof.
  exists (profile_labels hash m ∪ default ∅ old). split; [done|]. unfold current.
  split; apply lookup_union_Some_l; unfold profile_labels; by simplify_map_eq.
Qed.

(** *** Steps *)

(** The outcome of a step: [E] after an error, [Q] otherwise. *)
Definition outcome (E Q : Store -> Prop) (err : option error) (s : Store) : Prop :=
  match err with Some _ => E s | None => Q s end.

Lemma returns_unless m k E P Q s :
  returns m (outcome E P) s -> (forall s', P s' -> returns k (outcome E Q) s') ->
  returns (unless_error m k) (outcome E Q) s.
Proof.
  intros Hm Hk. unfold unless_error. apply returns_bind. eapply returns_mono; [exact Hm|].
  intros [err|] s' Hs'; [by apply returns_ret|by apply Hk].
Qed.

Lemma returns_each {A} (f : A -> gost Store (option error)) (I : list A -> Store -> Prop) E l s :
  I l s -> (forall x l s, I (x :: l) s -> returns (f x) (outcome E (I l)) s) ->
  returns (each f l) (outcome E (I [])) s.
Proof.
  intros HI Hf. revert s HI. induction l as [|x l IH]; intros s HI; simpl; [by apply returns_ret|].
  eapply returns_unless; [by apply Hf|]. intros s' Hs'. by apply IH.
Qed.

Lemma returns_write f E Q s :
  (forall n, E (mkStore (objects s) n)) ->
  (forall n, E (mkStore (f (objects s)) n)) -> (forall n, Q (mkStore (f (objects s)) n)) ->
  returns (write_objects replies f) (outcome E Q) s.
Proof.
  intros HE HE' HQ. unfold write_objects.
  destruct (replies (writes s)) as [|err []] eqn:Er; do 2 eexists; (rewrite Er; split; [done|simpl; auto]).
Qed.

(** Every step below also keeps [safe], whatever its outcome. *)
Lemma returns_apply keys s0 ms m s :
  key_of m ∈ keys -> safe keys s0 s -> applied ms s ->
  returns (applySingleProfileManifest replies hash m)
    (outcome (safe keys s0) (fun s' => safe keys s0 s' ∧ applied (ms ++ [m]) s')) s.
Proof.
  intros Hk Hs Ha. unfold applySingleProfileManifest. case_decide; [|by apply returns_ret].
  assert (Hsafe : forall n, safe keys s0 (mkStore (partial_alter (apply_labels (profile_labels hash m)) (key_of m) (objects s)) n)).
  { intros n. etransitivity; [exact Hs|]. intros k Hkk. left. simpl. rewrite lookup_partial_alter_ne; [done|]. by intros <-. }
  apply returns_write; [intros n k; by apply Hs|exact Hsafe|]. intros n. split; [apply Hsafe|].
  intros m' [Hm| ->%list_elem_of_singleton]%elem_of_app; simpl.
  - destruct (decide (key_of m' = key_of m)) as [E|E].
    + rewrite E, lookup_partial_alter_eq. apply current_applied.
    + rewrite lookup_partial_alter_ne by done. by apply Ha.
  - rewrite lookup_partial_alter_eq. apply current_applied.
Qed.

(** The objects of a kind that are stale are among [names], and every one of
    [names] that is there is stale. *)
Definition to_delete (kind : string) (names : list string) (s : Store) : Prop :=
  (forall name l, objects s !! (kind, name) = Some l -> is_stale hash l = true -> name ∈ names)
  ∧ (forall name l, name ∈ names -> objects s !! (kind, name) = Some l -> is_stale hash l = true).

Lemma stale_names_spec kind s name :
  name ∈ stale_names hash kind (objects s) <-> exists l, objects s !! (kind, name) = Some l ∧ is_stale hash l = true.
Proof.
  unfold stale_names. rewrite list_elem_of_fmap. setoid_rewrite list_elem_of_filter. setoid_rewrite list_elem_of_fmap.
  setoid_rewrite list_elem_of_filter. split.
  - intros ([k n] & -> & Hk & ([k' l] & Heq & Hl & Hin)). simpl in *. subst. exists l.
    by apply elem_of_map_to_list in Hin.
  - intros (l & Hl & Hs). exists (kind, name). split_and!; [done|done|]. exists (kind, name, l).
    split_and!; [done|done|]. by apply elem_of_map_to_list.
Qed.

(** What holds between two deletes: everything but the objects of [kind]. *)
Definition deleting (keys : list (string * string)) (s0 : Store) (ms : list Manifest) (kinds : list string) (s : Store) : Prop :=
  safe keys s0 s ∧ applied ms s ∧ fresh kinds s.

Lemma deleting_delete keys s0 ms kinds kind name names s n :
  deleting keys s0 ms kinds s -> to_delete kind (name :: names) s ->
  let s' := mkStore (delete (kind, name) (objects s)) n in
  deleting keys s0 ms kinds s' ∧ to_delete kind names s'.
Proof.
  intros (Hs & Ha & Hf) [Hin Hst]. unfold deleting, to_delete. simpl. split_and!.
  - etransitivity; [exact Hs|]. intros k _. simpl. destruct (decide (k = (kind, name))) as [->|Hne].
    + rewrite lookup_delete_eq. destruct (objects s !! (kind, name)) as [l|] eqn:El; [|by left].
      right. split; [done|]. exists l. split; [done|]. eapply Hst; [left|done].
    + left. by rewrite lookup_delete_ne.
  - intros m Hm. destruct (Ha m Hm) as (l & Hl & Hc). exists l. split; [|done]. simpl.
    rewrite lookup_delete_ne; [done|]. intros E. rewrite <-E in Hl.
    assert (is_stale hash l = true) by (eapply Hst; [left|done]). apply current_not_stale in Hc. congruence.
  - intros k' name' l Hk' Hl. simpl in Hl. apply lookup_delete_Some in Hl as [_ Hl]. by eapply Hf.
  - intros name' l [Hne Hl]%lookup_delete_Some Hsl. specialize (Hin name' l Hl Hsl).
    apply elem_of_cons in Hin as [->|?]; [by destruct Hne|done].
  - intros name' l Hn' [Hne Hl]%lookup_delete_Some. eapply Hst; [by right|done].
Qed.

Lemma returns_delete_stale keys s0 ms kinds i kind s :
  deleting keys s0 ms kinds s ->
  returns (delete_stale replies lists hash i kind) (outcome (safe keys s0) (deleting keys s0 ms (kind :: kinds))) s.
Proof.
  intros Hd. unfold delete_stale. destruct (lists i) as [err|]; [apply returns_ret, Hd|].
  apply returns_bind, returns_gets.
  eapply returns_mono; [apply (returns_each _ (fun names s => deleting keys s0 ms kinds s ∧ to_delete kind names s)
                                    (safe keys s0))|].
  - split; [done|]. split; [intros name l Hl Hs; apply stale_names_spec; by exists l|].
    intros name l (l' & Hl' & Hs)%stale_names_spec Hl. by simplify_eq.
  - intros name names s1 [Hd1 Ht1].
    assert (Hdel := fun n => deleting_delete _ _ _ _ _ _ _ _ n Hd1 Ht1). apply returns_write.
    + intros n k. apply Hd1.
    + intros n. by apply Hdel.
    + intros n. apply Hdel.
  - intros [err|] s'; [done|]. intros [(Hs & Ha & Hf) [Hin _]]. split_and!; [done|done|].
    intros kind' name l Hk Hl. destruct (is_stale hash l) eqn:El; [|done].
    apply elem_of_cons in Hk as [->|Hk]; [by specialize (Hin name l Hl El); apply elem_of_nil in Hin|].
    specialize (Hf kind' name l Hk Hl). congruence.
Qed.

(** *** The whole deployment *)

Lemma each_flatten {A B} (f : B -> gost Store (option error)) (g : A -> list B) l s :
  each (fun a => each f (g a)) l s = each f (l ≫= g) s.
Proof.
  assert (Happ : forall xs ys s, unless_error (each f xs) (each f ys) s = each f (xs ++ ys) s).
  { intros xs ys. induction xs as [|x xs IH]; intros s'; [done|]. simpl. unfold unless_error, mbind, gost_bind.
    destruct (f x s') as [[[err|] s1]| |]; simpl; try done. apply IH. }
  revert s. induction l as [|a l IH]; intros s; [done|]. cbn [each mbind list_bind].
  rewrite <-Happ. unfold unless_error, mbind, gost_bind.
  destruct (each f (g a) s) as [[[err|] s1]| |]; simpl; done.
Qed.

(** The manifests of a list of profiles. *)
Definition manifests_of (profiles : list string) : list Manifest := profiles ≫= ReadProfileYamlManifests.

Lemma returns_apply_all keys s0 ms s :
  (forall m, m ∈ ms -> key_of m ∈ keys) -> safe keys s0 s ->
  returns (each (applySingleProfileManifest replies hash) ms)
    (outcome (safe keys s0) (fun s' => safe keys s0 s' ∧ applied ms s')) s.
Proof.
  intros Hk Hs.
  eapply returns_mono;
    [apply (returns_each _ (fun rest s => exists done', ms = done' ++ rest ∧ safe keys s0 s ∧ applied done' s)
             (safe keys s0))|].
  - exists []. split_and!; [done|done|]. by intros m ?%elem_of_nil.
  - intros m rest s1 (done' & E & Hs1 & Ha1).
    eapply returns_mono; [apply (returns_apply keys s0 done'); [apply Hk; set_solver|done..]|].
    intros [err|] s2; [done|]. intros [Hs2 Ha2]. exists (done' ++ [m]). by rewrite <-app_assoc.
  - intros [err|] s1; [done|]. intros (done' & E & Hs1 & Ha1). rewrite app_nil_r in E. by subst.
Qed.

Lemma returns_manifests profiles s :
  returns (applyProfileManifests replies lists hash profiles)
    (outcome (safe (key_of <$> manifests_of profiles) s)
       (deleting (key_of <$> manifests_of profiles) s (manifests_of profiles) (reverse supportedKinds))) s.
Proof.
  set (ms := manifests_of profiles). set (keys := key_of <$> ms). unfold applyProfileManifests.
  eapply (returns_unless _ _ _ (fun s' => safe keys s s' ∧ applied ms s')).
  { unfold returns. setoid_rewrite each_flatten.
    apply (returns_apply_all _ s); [|reflexivity]. intros m. apply list_elem_of_fmap_2. }
  intros s1 [Hs Ha]. eapply returns_unless.
  { apply (returns_delete_stale keys s ms []). split_and!; [done|done|]. by intros ? ? ? ?%elem_of_nil. }
  intros s2 Hs2. eapply returns_unless; [by apply returns_delete_stale|].
  intros s3 Hs3. by apply returns_delete_stale.
Qed.

(** *** Runs without a fault *)

Lemma unless_ok (m k : gost Store (option error)) s :
  (exists s', m s = Done (None, s')) -> (forall s, exists s', k s = Done (None, s')) ->
  exists s', unless_error m k s = Done (None, s').
Proof. intros [s1 E1] Hk. destruct (Hk s1) as [s2 E2]. exists s2. unfold unless_error, mbind, gost_bind. by rewrite E1. Qed.

Lemma each_ok {A} (f : A -> gost Store (option error)) l s :
  (forall x s, x ∈ l -> exists s', f x s = Done (None, s')) -> exists s', each f l s = Done (None, s').
Proof.
  revert s. induction l as [|x l IH]; intros s Hf; [by exists s|]. apply unless_ok; [apply Hf; by left|].
  intros s1. apply IH. intros y s2 Hy. apply Hf. by right.
Qed.

Lemma write_accepted f s : (forall n, replies n = WriteOk) -> exists s', write_objects replies f s = Done (None, s').
Proof. intros Hr. unfold write_objects. rewrite Hr. by eexists. Qed.

Lemma embedded_supported : Forall (fun m => mf_Kind m.2 ∈ supportedKinds) embedded_manifests.
Proof. unfold embedded_manifests. repeat constructor; cbn; unfold supportedKinds; rewrite !elem_of_cons; tauto. Qed.

Lemma delete_stale_ok i kind s :
  (forall n, replies n = WriteOk) -> (forall i, lists i = None) -> exists s', delete_stale replies lists hash i kind s = Done (None, s').
Proof.
  intros Hr Hl. unfold delete_stale. rewrite Hl. unfold mbind, gost_bind, gets. apply each_ok. intros x s' _. by apply write_accepted.
Qed.

(** With a server that does what it is asked to, the manifests are applied. *)
Lemma manifests_faultless profiles s :
  returns (applyProfileManifests replies lists hash profiles)
    (fun err _ => (forall n, replies n = WriteOk) -> (forall i, lists i = None) -> err = None) s.
Proof.
  destruct (returns_manifests profiles s) as (err & s' & E & _). exists err, s'. split; [done|]. intros Hr Hl.
  assert (Hok : exists s'', applyProfileManifests replies lists hash profiles s = Done (None, s'')).
  { unfold applyProfileManifests. apply unless_ok.
    - apply each_ok. intros p s1 _. apply each_ok. intros m s2 Hm. unfold applySingleProfileManifest.
      rewrite decide_True; [by apply write_accepted|].
      unfold ReadProfileYamlManifests in Hm. apply list_elem_of_fmap in Hm as (pm & -> & [_ Hm]%list_elem_of_filter).
      pose proof embedded_supported as Hall. rewrite Forall_forall in Hall. by apply (Hall pm).
    - intros s1. apply unless_ok; [by apply delete_stale_ok|]. intros s2. apply unless_ok; [by apply delete_stale_ok|].
      intros s3. by apply delete_stale_ok. }
  destruct Hok as [s'' E']. congruence.
Qed.
End Objects.

Lemma returns_conj {S A} (m : gost S A) (P Q : A -> S -> Prop) s :
  returns m P s -> returns m Q s -> returns m (fun a s' => P a s' ∧ Q a s') s.
Proof. intros (a & s' & E & Hp) (a' & s'' & E' & Hq). exists a, s'. split; [done|]. rewrite E in E'. by injection E' as -> ->. Qed.

(** ** The configuration *)

Definition mount_methods : list string :=
  [K8sHostPathMountMethod; K8sVirtualDeviceMountMethod; K8sInitContainerMountMethod; K8sCsiDriverMountMethod].
Definition injection_methods : list string :=
  [LoaderFallbackToPodManifestInjectionMethod; LoaderEnvInjectionMethod; PodManifestEnvInjectionMethod].

Section Resolved.
Context `{GoLibrary} `{GoSort} `{GoMapOrder}.
Context (parses : string -> bool) (digest : string -> string) (namespace tier version : string).

Definition interval_ok (interval : option string) : Prop :=
  forall s, interval = Some s -> s <> "" -> exists d, ParseDuration s = inr d.

(** The metrics intervals that are set parse, and that of the span metrics is set. *)
Definition intervals_ok (c : Configuration) : Prop := forall m, oc_MetricsSources c = Some m ->
  interval_ok (src_OdigosOwnMetrics m) ∧ interval_ok (mk_Interval <$> src_KubeletStats m)
  ∧ interval_ok (mh_Interval <$> src_HostMetrics m)
  ∧ forall s, src_SpanMetrics m = Some s ->
      msp_Interval s <> "" ∧ (msp_Interval s = "60s" ∨ exists d, ParseDuration (msp_Interval s) = inr d).

Definition positive_resources (r : AgentsInitContainerResources) : Prop :=
  (0 < air_request_cpu r)%Z ∧ (0 < air_limit_cpu r)%Z ∧ (0 < air_request_memory r)%Z ∧ (0 < air_limit_memory r)%Z.

(** The choices are made. *)
Definition chosen (c : Configuration) : Prop :=
  (exists m, oc_MountMethod c = Some m ∧ m ∈ mount_methods
     ∧ (m = K8sInitContainerMountMethod -> exists r, oc_AgentsInitContainerResources c = Some r ∧ positive_resources r))
  ∧ (exists m, oc_AgentEnvVarsInjectionMethod c = Some m ∧ m ∈ injection_methods)
  ∧ is_Some (oc_CollectorGateway c) ∧ is_Some (oc_CollectorNode c)
  ∧ IsValidSizing (oc_ResourceSizePreset c) = true.
(** What the other components may rely on. *)
Definition resolved (c : Configuration) : Prop := chosen c ∧ intervals_ok c.

(** The namespaces that the settings [c] ask to ignore: the user's, on
    OpenShift its own, and the odigos namespace unless that is turned off. *)
Definition ignores (c : Configuration) (n : string) : Prop :=
  if decide (n = namespace) then default true (oc_IgnoreOdigosNamespace c) = true
  else n ∈ default [] (oc_IgnoredNamespaces c)
       ∨ (in_OpenshiftEnabled (oc_Installation c) = true ∧ n ∈ OpenshiftIgnoredNamespaces).

(** A choice that is asked for is kept when there is such a method. *)
Definition known_or (methods : list string) (otherwise : string) (asked : option string) : string :=
  match asked with Some m => if decide (m ∈ methods) then m else otherwise | None => otherwise end.

(** The interval of the span metrics, 60 seconds when it is left open. *)
Definition default_span_interval (m : MetricsSources) : MetricsSources :=
  match src_SpanMetrics m with
  | Some s => if decide (msp_Interval s = "") then with_span_metrics (set_span_interval "60s" s) m else m
  | None => m
  end.

(** The configuration without the fields that the completion may change. *)
Definition rest_of (c : Configuration) : Configuration :=
  set_IgnoredNamespaces None (set_Profiles [] (set_CollectorGateway None (set_CollectorNode None
    (set_ResourceSizePreset "" (set_MountMethod None (set_AgentsInitContainerResources None
      (set_AgentEnvVarsInjectionMethod None (set_MetricsSources None c)))))))).

(** [e] is what the settings [c], as the profiles [l] change them, ask for. *)
Definition honours (l : list string) (c e : Configuration) : Prop :=
  let asked := modifyConfigWithEffectiveProfiles l c in
  oc_Profiles e = l
  ∧ (exists ns, oc_IgnoredNamespaces e = Some ns ∧ forall n, n ∈ ns <-> ignores c n)
  ∧ oc_MountMethod e = Some (known_or mount_methods K8sVirtualDeviceMountMethod (oc_MountMethod asked))
  ∧ oc_AgentEnvVarsInjectionMethod e
    = Some (known_or injection_methods LoaderFallbackToPodManifestInjectionMethod (oc_AgentEnvVarsInjectionMethod asked))
  ∧ oc_ResourceSizePreset e = valid_or_medium (oc_ResourceSizePreset asked)
  ∧ oc_CollectorGateway e = Some (ComputeEffectiveCollectorConfig asked).1.1
  ∧ oc_CollectorNode e = Some (ComputeEffectiveCollectorConfig asked).1.2
  ∧ oc_MetricsSources e = default_span_interval <$> oc_MetricsSources asked
  ∧ rest_of e = rest_of asked.

(** An overlay is merged over [c] when it can be read and is not empty. *)
Inductive overlaid (unmarshal : string -> error + Configuration) (reply : error + string) (c : Configuration) : Configuration -> Prop :=
| overlaid_read text overlay : reply = inr text -> text <> "" -> unmarshal text = inr overlay ->
    overlaid unmarshal reply c (mergeConfigs c overlay)
| overlaid_absent : (forall text overlay, reply = inr text -> text <> "" -> unmarshal text <> inr overlay) ->
    overlaid unmarshal reply c c.

Lemma readable_overlaid unmarshal reply c :
  overlaid unmarshal reply c (merge_overlay c (readable (getAdditionalConfig unmarshal reply))).
Proof.
  unfold getAdditionalConfig. destruct reply as [err|text]; [destruct (IsNotFound err); by right|].
  case_decide as Ht; [by right; intros ? ? [= <-]|].
  destruct (unmarshal text) as [err|o] eqn:E; [right; intros ? ? [= <-]; congruence|]. by apply (overlaid_read _ _ _ text).
Qed.

(** The settings [c] and the profiles [l] that a reconciliation with the
    replies [r] works with: Helm's configuration, the remote overlay, then
    that of the UI; the profiles of the result and of the token. *)
Definition works_with (r : ConfigReplies) (c : Configuration) (l : list string) : Prop :=
  exists text deployment helm remote,
    rr_ConfigMap r = inr text ∧ rr_Deployment r = inr deployment ∧ rr_Unmarshal r text = inr helm
    ∧ overlaid (rr_Unmarshal r) (rr_Remote r) helm remote ∧ overlaid (rr_Unmarshal r) (rr_LocalUi r) remote c
    ∧ calculateEffectiveProfiles profiles_fuel (asked_profiles c deployment) (GetAvailableProfilesForTier tier) = Some l.

(** Every interval that is set parses. *)
Definition intervals_parse (c : Configuration) : Prop := forall m, oc_MetricsSources c = Some m ->
  interval_ok (src_OdigosOwnMetrics m) ∧ interval_ok (mk_Interval <$> src_KubeletStats m)
  ∧ interval_ok (mh_Interval <$> src_HostMetrics m) ∧ interval_ok (msp_Interval <$> src_SpanMetrics m).

Lemma mount_method_resolved c :
  let c' := resolveMountMethod parses c in
  exists m, oc_MountMethod c' = Some m ∧ m ∈ mount_methods
  ∧ (m = K8sInitContainerMountMethod -> exists r, oc_AgentsInitContainerResources c' = Some r ∧ positive_resources r).
Proof.
  cbv zeta. unfold resolveMountMethod. destruct (oc_MountMethod c) as [m|] eqn:Em.
  - simpl. repeat (case_decide; [subst m; rewrite ?Em; eexists; split_and!; [done|set_solver|]|]); try done.
    + intros _. eexists. split; [done|]. unfold getInitContainerResources, positive_resources, valid_size. simpl.
      split_and!; repeat case_match; lia.
    + eexists. split_and!; [done|set_solver|done].
  - eexists. split_and!; [done|set_solver|done].
Qed.

Lemma env_injection_resolved c :
  exists m, oc_AgentEnvVarsInjectionMethod (resolveEnvInjectionMethod c) = Some m ∧ m ∈ injection_methods.
Proof.
  unfold resolveEnvInjectionMethod. destruct (oc_AgentEnvVarsInjectionMethod c) as [m|] eqn:Em.
  - simpl. repeat (case_decide; [subst m; rewrite Em; eexists; split; [done|set_solver]|]).
    eexists. split; [done|set_solver].
  - eexists. split; [done|set_solver].
Qed.

(** What the ignored namespaces are computed from. *)
Definition places (c : Configuration) : InstallationConfiguration * option (list string) * option bool :=
  (oc_Installation c, oc_IgnoredNamespaces c, oc_IgnoreOdigosNamespace c).

Lemma modify_places l c : places (modifyConfigWithEffectiveProfiles l c) = places c.
Proof.
  revert c. induction l as [|n l IH]; intros c; [done|]. rewrite modify_cons, IH.
  destruct (apply_profile_modifier n) as (f & Hf & ->). revert Hf. unfold modifiers. rewrite !elem_of_cons, elem_of_nil.
  intros Hf. destruct c. by destruct Hf as [->|[->|[->|[->|[->|[->|[->|[]]]]]]]].
Qed.

Lemma check_interval_None name i : check_interval name i = None -> interval_ok i.
Proof.
  unfold check_interval, interval_ok. intros Hc s -> Hs. rewrite decide_True in Hc by done.
  destruct (ParseDuration s) as [|d]; [done|by exists d].
Qed.

Lemma check_interval_Some name i err : check_interval name i = Some err -> ~ interval_ok i.
Proof.
  unfold check_interval, interval_ok. destruct i as [s|]; [|done]. case_decide as Hs; [|done].
  destruct (ParseDuration s) as [msg|d] eqn:E; [|done]. intros _ Hi. destruct (Hi s) as [d Hd]; [done..|congruence].
Qed.

Lemma verify_fails c err : verifyMetricsConfig c = inl err -> ~ intervals_parse c.
Proof.
  unfold verifyMetricsConfig, intervals_parse. destruct (oc_MetricsSources c) as [m|]; [|done].
  intros Hv Hp. destruct (Hp m eq_refl) as (I1 & I2 & I3 & I4). revert Hv.
  destruct (check_interval "odigos own metrics" _) eqn:E1; [by apply check_interval_Some in E1|].
  destruct (check_interval "kubelet stats" _) eqn:E2; [by apply check_interval_Some in E2|].
  destruct (check_interval "host metrics" _) eqn:E3; [by apply check_interval_Some in E3|].
  destruct (src_SpanMetrics m) as [s|]; [|done]. case_decide; [done|].
  destruct (check_interval "span metrics" _) eqn:E4; [by apply check_interval_Some in E4|done].
Qed.

Lemma verify_metrics c e : verifyMetricsConfig c = inr e -> e = set_MetricsSources (default_span_interval <$> oc_MetricsSources c) c.
Proof.
  unfold verifyMetricsConfig. destruct (oc_MetricsSources c) as [m|] eqn:Em; [|intros [= <-]; cbn; rewrite <-Em; by destruct c].
  repeat (destruct (check_interval _ _); [done|]). cbn [fmap option_fmap option_map]. unfold default_span_interval.
  destruct (src_SpanMetrics m) as [s|]; [case_decide|]; [by intros [= <-]| |];
    [destruct (check_interval _ _); [done|]|]; intros [= <-]; rewrite <-Em; by destruct c.
Qed.

Lemma verify_resolved c e : verifyMetricsConfig c = inr e ->
  intervals_ok e ∧ exists m, e = set_MetricsSources m c.
Proof.
  unfold verifyMetricsConfig, intervals_ok. destruct (oc_MetricsSources c) as [m|] eqn:Em.
  2:{ intros [= <-]. split; [intros m Hm; congruence|]. exists None. rewrite <-Em. by destruct c. }
  destruct (check_interval "odigos own metrics" _) eqn:E1; [done|]. apply check_interval_None in E1.
  destruct (check_interval "kubelet stats" _) eqn:E2; [done|]. apply check_interval_None in E2.
  destruct (check_interval "host metrics" _) eqn:E3; [done|]. apply check_interval_None in E3.
  destruct (src_SpanMetrics m) as [s|] eqn:Es; [case_decide as Hi|]; [intros [= <-]|..].
  - split; [|by eexists]. simpl. intros m' [= <-]. split_and!; [done..|]. simpl. intros s' [= <-]. simpl. auto.
  - destruct (check_interval "span metrics" _) eqn:E4; [done|]. apply check_interval_None in E4. intros [= <-].
    split; [|exists (Some m); rewrite <-Em; by destruct c].
    intros m' Hm. simplify_eq. split_and!; [done..|]. intros s' Hs. simplify_eq. split; [done|]. right. by apply E4.
  - intros [= <-]. split; [|exists (Some m); rewrite <-Em; by destruct c].
    intros m' Hm. simplify_eq. split_and!; [done..|]. intros s' Hs. congruence.
Qed.

(** The two choices leave the other fields. *)
Lemma choices_keep c :
  let c' := resolveEnvInjectionMethod (resolveMountMethod parses c) in
  places c' = places c ∧ oc_CollectorGateway c' = oc_CollectorGateway c ∧ oc_CollectorNode c' = oc_CollectorNode c
  ∧ oc_ResourceSizePreset c' = oc_ResourceSizePreset c ∧ oc_Profiles c' = oc_Profiles c.
Proof.
  cbv zeta. unfold resolveEnvInjectionMethod, resolveMountMethod, places. simpl.
  destruct (oc_MountMethod c) as [m|]; simpl; repeat case_decide; simpl;
    destruct (oc_AgentEnvVarsInjectionMethod c) as [i|]; simpl; repeat case_decide; done.
Qed.

Lemma env_choice_keeps c :
  oc_MountMethod (resolveEnvInjectionMethod c) = oc_MountMethod c
  ∧ oc_AgentsInitContainerResources (resolveEnvInjectionMethod c) = oc_AgentsInitContainerResources c.
Proof.
  unfold resolveEnvInjectionMethod. destruct (oc_AgentEnvVarsInjectionMethod c); simpl; repeat case_decide; done.
Qed.

(** The last steps of the completion. *)
Definition finish_config (c : Configuration) : error + Configuration :=
  verifyMetricsConfig (resolveEnvInjectionMethod (resolveMountMethod parses (with_effective_sizes c))).
Definition before_finish (l : list string) (c : Configuration) : Configuration :=
  set_Profiles l (modifyConfigWithEffectiveProfiles l (set_IgnoredNamespaces (ignored_namespaces namespace c) c)).

Lemma complete_finish l c : complete_config parses namespace l c = finish_config (before_finish l c).
Proof. unfold complete_config, finish_config, with_effective_sizes. fold (before_finish l c). reflexivity. Qed.

Lemma sizes_keep c : places (with_effective_sizes c) = places c ∧ oc_Profiles (with_effective_sizes c) = oc_Profiles c.
Proof. unfold with_effective_sizes. destruct (compute_leaves c) as [->|[-> _]]; done. Qed.

Lemma metrics_keep m c : places (set_MetricsSources m c) = places c ∧ oc_Profiles (set_MetricsSources m c) = oc_Profiles c.
Proof. done. Qed.

Lemma finish_keeps c e : finish_config c = inr e -> oc_Profiles e = oc_Profiles c ∧ places e = places c.
Proof.
  unfold finish_config. intros (_ & m & ->)%verify_resolved.
  destruct (choices_keep (with_effective_sizes c)) as (Ep & _ & _ & _ & El), (sizes_keep c) as [<- <-].
  rewrite <-Ep, <-El. split; apply metrics_keep.
Qed.

Lemma before_finish_keeps l c :
  oc_Profiles (before_finish l c) = l
  ∧ places (before_finish l c) = (oc_Installation c, ignored_namespaces namespace c, oc_IgnoreOdigosNamespace c).
Proof.
  unfold before_finish. generalize (ignored_namespaces namespace c). intros ns. split; [done|].
  assert (E : forall x, places (set_Profiles l x) = places x) by done. rewrite E, modify_places. done.
Qed.

Lemma chosen_resolved c : chosen (resolveEnvInjectionMethod (resolveMountMethod parses (with_effective_sizes c))).
Proof.
  destruct (effective_preset c) as [Hv _], (choices_keep (with_effective_sizes c)) as (_ & Eg & En & Er & _).
  destruct (env_choice_keeps (resolveMountMethod parses (with_effective_sizes c))) as [Em Ea].
  unfold chosen. rewrite Em, Ea, Eg, En, Er.
  split_and!; [apply mount_method_resolved|apply env_injection_resolved|by eexists..|exact Hv].
Qed.

Lemma chosen_metrics m c : chosen c -> chosen (set_MetricsSources m c).
Proof. done. Qed.

(** The profiles of what is persisted. *)
Lemma complete_config_profiles l c e : complete_config parses namespace l c = inr e -> oc_Profiles e = l.
Proof. rewrite complete_finish. intros [-> _]%finish_keeps. apply before_finish_keeps. Qed.

Context `{!GoMapOrderLaws}.

Lemma elem_of_merged n l1 l2 : n ∈ mergeIgnoredItemLists l1 l2 <-> n ∈ l1 ∨ n ∈ l2.
Proof. unfold mergeIgnoredItemLists. rewrite map_order_perm, elem_of_elements, elem_of_list_to_set, elem_of_app. done. Qed.

Lemma ignored_namespaces_spec c :
  exists ns, ignored_namespaces namespace c = Some ns ∧ forall n, n ∈ ns <-> ignores c n.
Proof.
  unfold ignored_namespaces, removeItemFromList, ignores.
  destruct (default true (oc_IgnoreOdigosNamespace c)), (in_OpenshiftEnabled (oc_Installation c));
    eexists; (split; [done|]); cbn [from_option id]; intros n;
    rewrite ?elem_of_app, ?list_elem_of_filter, ?elem_of_merged, ?list_elem_of_singleton;
    destruct (decide (n = namespace)); intuition congruence.
Qed.

(** The steps of the completion, on the settings as the profiles change them. *)
Lemma modify_set_ignored ns l c :
  modifyConfigWithEffectiveProfiles l (set_IgnoredNamespaces ns c) = set_IgnoredNamespaces ns (modifyConfigWithEffectiveProfiles l c).
Proof.
  revert c. induction l as [|n l IH]; intros c; [done|]. rewrite !modify_cons, <-IH. f_equal.
  destruct (apply_profile_modifier n) as (f & Hf & E). rewrite !E. clear E. revert Hf. unfold modifiers.
  rewrite !elem_of_cons, elem_of_nil. destruct c. by intros [->|[->|[->|[->|[->|[->|[->|[]]]]]]]].
Qed.

Lemma mount_choice c :
  oc_MountMethod (resolveMountMethod parses c) = Some (known_or mount_methods K8sVirtualDeviceMountMethod (oc_MountMethod c)).
Proof.
  unfold resolveMountMethod, known_or. destruct (oc_MountMethod c) as [m|] eqn:Em; [|done]. cbn [switch].
  destruct (decide (m ∈ mount_methods)) as [Hin|Hout]; revert Em; unfold mount_methods in *; rewrite !elem_of_cons, elem_of_nil in *.
  - by destruct Hin as [->|[->|[->|[->|[]]]]].
  - intros _. by rewrite !decide_False by tauto.
Qed.
Lemma injection_choice c :
  oc_AgentEnvVarsInjectionMethod (resolveEnvInjectionMethod c)
  = Some (known_or injection_methods LoaderFallbackToPodManifestInjectionMethod (oc_AgentEnvVarsInjectionMethod c)).
Proof.
  unfold resolveEnvInjectionMethod, known_or. destruct (oc_AgentEnvVarsInjectionMethod c) as [m|] eqn:Em; [|done]. cbn [switch].
  destruct (decide (m ∈ injection_methods)) as [Hin|Hout]; revert Em; unfold injection_methods in *; rewrite !elem_of_cons, elem_of_nil in *.
  - by destruct Hin as [->|[->|[->|[]]]].
  - intros _. by rewrite !decide_False by tauto.
Qed.

Lemma mount_rest c : let c' := resolveMountMethod parses c in
  rest_of c' = rest_of c ∧ oc_MetricsSources c' = oc_MetricsSources c
  ∧ oc_AgentEnvVarsInjectionMethod c' = oc_AgentEnvVarsInjectionMethod c.
Proof.
  cbv zeta. unfold resolveMountMethod. destruct (oc_MountMethod c) as [m|]; [|done]. cbn [switch]. by repeat case_decide.
Qed.
Lemma injection_rest c : let c' := resolveEnvInjectionMethod c in
  rest_of c' = rest_of c ∧ oc_MetricsSources c' = oc_MetricsSources c.
Proof.
  cbv zeta. unfold resolveEnvInjectionMethod. destruct (oc_AgentEnvVarsInjectionMethod c) as [m|]; [|done]. cbn [switch].
  by repeat case_decide.
Qed.
Lemma sizes_rest c : let c' := with_effective_sizes c in
  rest_of c' = rest_of c ∧ oc_MetricsSources c' = oc_MetricsSources c ∧ oc_MountMethod c' = oc_MountMethod c
  ∧ oc_AgentEnvVarsInjectionMethod c' = oc_AgentEnvVarsInjectionMethod c
  ∧ oc_CollectorGateway c' = Some (ComputeEffectiveCollectorConfig c).1.1
  ∧ oc_CollectorNode c' = Some (ComputeEffectiveCollectorConfig c).1.2
  ∧ oc_ResourceSizePreset c' = valid_or_medium (oc_ResourceSizePreset c).
Proof.
  cbv zeta. assert (Hp : oc_ResourceSizePreset (with_effective_sizes c) = valid_or_medium (oc_ResourceSizePreset c)).
  { unfold with_effective_sizes, ComputeEffectiveCollectorConfig, ComputeResourceSizePreset, valid_or_medium. cbn.
    by destruct (IsValidSizing (oc_ResourceSizePreset c)). }
  rewrite Hp. clear Hp. unfold with_effective_sizes. by destruct (compute_leaves c) as [->|[-> _]].
Qed.

Lemma metrics_rest m c : let c' := set_MetricsSources m c in
  rest_of c' = rest_of c ∧ oc_MetricsSources c' = m ∧ oc_MountMethod c' = oc_MountMethod c
  ∧ oc_AgentEnvVarsInjectionMethod c' = oc_AgentEnvVarsInjectionMethod c ∧ oc_CollectorGateway c' = oc_CollectorGateway c
  ∧ oc_CollectorNode c' = oc_CollectorNode c ∧ oc_ResourceSizePreset c' = oc_ResourceSizePreset c
  ∧ oc_IgnoredNamespaces c' = oc_IgnoredNamespaces c.
Proof. done. Qed.
Lemma lists_rest l ns c : let c' := set_Profiles l (set_IgnoredNamespaces ns c) in
  rest_of c' = rest_of c ∧ oc_MetricsSources c' = oc_MetricsSources c ∧ oc_MountMethod c' = oc_MountMethod c
  ∧ oc_AgentEnvVarsInjectionMethod c' = oc_AgentEnvVarsInjectionMethod c
  ∧ (ComputeEffectiveCollectorConfig c').1 = (ComputeEffectiveCollectorConfig c).1
  ∧ oc_ResourceSizePreset c' = oc_ResourceSizePreset c.
Proof. split_and!; try done. cbv zeta. unfold ComputeEffectiveCollectorConfig. by rewrite !compute_preset. Qed.

(** The choices, on any configuration. *)
Lemma finish_choices c e : finish_config c = inr e ->
  oc_MountMethod e = Some (known_or mount_methods K8sVirtualDeviceMountMethod (oc_MountMethod c))
  ∧ oc_AgentEnvVarsInjectionMethod e
    = Some (known_or injection_methods LoaderFallbackToPodManifestInjectionMethod (oc_AgentEnvVarsInjectionMethod c))
  ∧ oc_ResourceSizePreset e = valid_or_medium (oc_ResourceSizePreset c)
  ∧ oc_CollectorGateway e = Some (ComputeEffectiveCollectorConfig c).1.1
  ∧ oc_CollectorNode e = Some (ComputeEffectiveCollectorConfig c).1.2
  ∧ oc_MetricsSources e = default_span_interval <$> oc_MetricsSources c
  ∧ rest_of e = rest_of c.
Proof.
  unfold finish_config. intros ->%verify_metrics.
  destruct (sizes_rest c) as (R1 & M1 & T1 & I1 & G1 & N1 & P1). revert R1 M1 T1 I1 G1 N1 P1. generalize (with_effective_sizes c). intros c1 R1 M1 T1 I1 G1 N1 P1.
  destruct (mount_rest c1) as (R2 & M2 & I2), (injection_rest (resolveMountMethod parses c1)) as (R3 & M3),
    (choices_keep c1) as (_ & G4 & N4 & P4 & _), (env_choice_keeps (resolveMountMethod parses c1)) as [T4 _].
  pose proof (mount_choice c1) as T5. pose proof (injection_choice (resolveMountMethod parses c1)) as I5.
  revert R2 M2 I2 R3 M3 G4 N4 P4 T4 T5 I5. generalize (resolveMountMethod parses c1). intros c2. generalize (resolveEnvInjectionMethod c2).
  intros c3 R2 M2 I2 R3 M3 G4 N4 P4 T4 T5 I5.
  destruct (metrics_rest (default_span_interval <$> oc_MetricsSources c3) c3) as (-> & -> & -> & -> & -> & -> & -> & _).
  split_and!; congruence.
Qed.

(** The persisted configuration is the asked one with the choices made. *)
Lemma complete_config_honours l c e : complete_config parses namespace l c = inr e -> honours l c e.
Proof.
  rewrite complete_finish. intros He. pose proof He as [El Ep]%finish_keeps. apply finish_choices in He.
  destruct (before_finish_keeps l c) as [El' Ep']. rewrite El' in El. rewrite Ep' in Ep. clear El' Ep'.
  unfold before_finish in He. rewrite modify_set_ignored in He. unfold honours. revert He.
  generalize (modifyConfigWithEffectiveProfiles l c). intros asked He.
  destruct (lists_rest l (ignored_namespaces namespace c) asked) as (R & M & T & I & C & P). rewrite R, M, T, I, C, P in He.
  split; [done|]. split; [|done]. destruct (ignored_namespaces_spec c) as (ns & Hns & Hin). exists ns. split; [|done].
  rewrite <-Hns. exact (f_equal (fun p => p.1.2) Ep).
Qed.

Lemma complete_config_resolved l c e : complete_config parses namespace l c = inr e -> resolved e.
Proof.
  rewrite complete_finish. unfold finish_config. intros (Hi & m & E)%verify_resolved. split; [|done].
  rewrite E. apply chosen_metrics, chosen_resolved.
Qed.

(** The completion fails only for an interval that does not parse. *)
Lemma complete_config_fails l c err :
  complete_config parses namespace l c = inl err -> ~ intervals_parse (modifyConfigWithEffectiveProfiles l c).
Proof.
  rewrite complete_finish. unfold finish_config, before_finish. rewrite modify_set_ignored.
  generalize (modifyConfigWithEffectiveProfiles l c). intros asked Hf%verify_fails. contradict Hf. revert Hf. unfold intervals_parse.
  destruct (lists_rest l (ignored_namespaces namespace c) asked) as (_ & M & _). rewrite <-M. clear M.
  generalize (set_Profiles l (set_IgnoredNamespaces (ignored_namespaces namespace c) asked)). intros c1.
  destruct (injection_rest (resolveMountMethod parses (with_effective_sizes c1))) as [_ ->].
  destruct (mount_rest (with_effective_sizes c1)) as (_ & -> & _). by destruct (sizes_rest c1) as (_ & -> & _).
Qed.

(** *** The reconciliation *)

Lemma overlaid_unique unmarshal reply c c1 c2 :
  overlaid unmarshal reply c c1 -> overlaid unmarshal reply c c2 -> c1 = c2.
Proof.
  intros [t1 o1 E1 N1 U1|Hn1] [t2 o2 E2 N2 U2|Hn2]; [|by destruct (Hn2 t1 o1)|by destruct (Hn1 t2 o2)|done].
  assert (t1 = t2) as -> by congruence. congruence.
Qed.
Lemma works_with_unique r c1 l1 c2 l2 : works_with r c1 l1 -> works_with r c2 l2 -> c1 = c2 ∧ l1 = l2.
Proof.
  intros (t1 & d1 & h1 & m1 & T1 & D1 & U1 & R1 & C1 & P1) (t2 & d2 & h2 & m2 & T2 & D2 & U2 & R2 & C2 & P2).
  rewrite T1 in T2. injection T2 as <-. rewrite D1 in D2. injection D2 as <-. rewrite U1 in U2. injection U2 as <-.
  assert (m1 = m2) as -> by (by eapply overlaid_unique). assert (c1 = c2) as -> by (by eapply overlaid_unique).
  split; [done|congruence].
Qed.

(** Every reconciliation, seen through its last two steps. *)
Lemma returns_reconcile replies lists r (Q : option error * option Configuration -> Store -> Prop) s :
  ((forall c l, ~ works_with r c l) -> forall err, Q (Some err, None) s) ->
  (forall profiles c, works_with r c profiles -> let hash := calculateProfilesDeploymentHash digest profiles version in
     returns (applyProfileManifests replies lists hash profiles)
       (outcome (fun s' => forall err, Q (Some err, None) s')
          (fun s' => match complete_config parses namespace profiles c with
                     | inl err => Q (Some (ETerminal err), None) s'
                     | inr e => Q (rr_Persist r, Some e) s'
                     end)) s) ->
  returns (Reconcile parses digest namespace tier version replies lists r) Q s.
Proof.
  intros He Hq. unfold Reconcile, works_with in *.
  destruct (rr_ConfigMap r) as [err|text]; [apply returns_ret, He; intros ? ? (? & ? & ? & ? & ? & ? & ? & ? & ? & ?); congruence|].
  destruct (rr_Deployment r) as [err|deployment]; [apply returns_ret, He; intros ? ? (? & ? & ? & ? & ? & ? & ? & ? & ? & ?); congruence|].
  destruct (rr_Unmarshal r text) as [err|helm] eqn:Eu; [apply returns_ret, He; intros ? ? (? & ? & ? & ? & ? & ? & ? & ? & ? & ?); congruence|].
  cbv zeta. set (c := merged_config r helm). destruct (shipped_effective_profiles tier (asked_profiles c deployment) profiles_fuel (le_n 2)) as [profiles Hp].
  rewrite Hp. apply returns_bind. eapply returns_mono.
  - apply (Hq profiles c). exists text, deployment, helm. eexists. split_and!; [done..|apply readable_overlaid|apply readable_overlaid|done].
  - unfold outcome. intros [err|] s'; [by intros Hs'; apply returns_ret|].
    destruct (complete_config _ _ _ _); intros Hs'; apply returns_ret, Hs'.
Qed.

End Resolved.

(** C28: whatever the store held and whichever writes failed before, after a
    reconciliation that gets to persist a configuration every manifest of its
    profiles is there with the current hash, and no stale object of a
    supported kind is left.  A reconciliation, even one that fails, changes no
    object that is not managed by a profile, unless it has the kind and the
    name of a manifest of the profiles in effect: such an object is taken
    over, as the first part says. *)
Theorem profile_objects_converge `{GoLibrary} `{GoSort} `{GoMapOrder} parses digest namespace tier version replies lists r s :
  returns (Reconcile parses digest namespace tier version replies lists r)
    (fun '(_, persisted) s' =>
       (forall e, persisted = Some e ->
          let hash := calculateProfilesDeploymentHash digest (oc_Profiles e) version in
          (forall m, m ∈ manifests_of (oc_Profiles e) -> exists l, objects s' !! key_of m = Some l ∧ current hash l)
          ∧ (forall kind name l, kind ∈ supportedKinds -> objects s' !! (kind, name) = Some l -> is_stale hash l = false))
       ∧ forall k l, (forall c profiles, works_with tier r c profiles -> k ∉ key_of <$> manifests_of profiles) ->
           l !! OdigosProfilesManagedByLabel <> Some OdigosProfilesManagedByValue ->
           objects s !! k = Some l -> objects s' !! k = Some l) s.
Proof.
  apply returns_reconcile; [done|]. intros profiles c Hw hash.
  assert (Hsafe : forall s', safe hash (key_of <$> manifests_of profiles) s s' ->
            forall k l, (forall c profiles, works_with tier r c profiles -> k ∉ key_of <$> manifests_of profiles) ->
              l !! OdigosProfilesManagedByLabel <> Some OdigosProfilesManagedByValue ->
              objects s !! k = Some l -> objects s' !! k = Some l).
  { intros s' Hs k l Hk Hl El. destruct (Hs k (Hk _ _ Hw)) as [->|(_ & l' & El' & Hst)]; [done|].
    assert (l' = l) as -> by congruence. apply andb_true_iff in Hst as [Hb _]. by apply bool_decide_eq_true in Hb. }
  eapply returns_mono; [apply returns_manifests|]. intros [err|] s' Hs'; simpl in Hs' |- *; [intros _; split; [done|by apply Hsafe]|].
  destruct Hs' as (Hs & Ha & Hf). destruct (complete_config _ _ _ _) as [err|e] eqn:E; [split; [done|by apply Hsafe]|].
  split; [|by apply Hsafe]. intros e' [= <-].
  apply complete_config_profiles in E as ->. split; [done|].
  intros kind name l Hk. apply Hf. by rewrite elem_of_reverse.
Qed.

(** ** Concrete runs *)

(** Helm asks for two profiles and a mount method, which the second profile
    leaves; the UI's overlay sets a field; the remote overlay does not parse. *)
Definition sample_helm : Configuration :=
  set_IgnoredNamespaces (Some ["kube-system"]) (set_Profiles ["semconv"; "mount-method-k8s-host-path"; "unknown"]
    (set_MountMethod (Some K8sInitContainerMountMethod) zero_configuration)).
Definition sample_ui : Configuration := set_AllowConcurrentAgents (Some true) zero_configuration.
Definition sample_replies : ConfigReplies :=
  {| rr_ConfigMap := inr "helm"; rr_Deployment := inr ∅; rr_Remote := inr "broken"; rr_LocalUi := inr "ui";
     rr_Unmarshal text := switch text [("helm", inr sample_helm); ("ui", inr sample_ui)] (inl (ENew "yaml: line 1"));
     rr_Persist := None |}.
(** A stale processor of a profile, and a user's. *)
Definition sample_store : Store :=
  mkStore {[ ("Processor", "copy-scope") := profile_labels "old" (mkManifest "Processor" "copy-scope" ∅);
             ("Processor", "mine") := ∅ ]} 0.

#[local] Instance sample_lib : GoLibrary := sample_library.
#[local] Instance sample_order : GoMapOrder := order_forward.
Definition sample_run (replies : nat -> WriteReply) : go ((option error * option Configuration) * Store) :=
  Reconcile (fun _ => true) (fun s => "hash of " +:+ s) "odigos-system" CommunityOdigosTier "v1" replies (fun _ => None)
    sample_replies sample_store.


(** The stale processor is deleted; the user's stays.  A failed write stops
    the run, and the next one makes up for it. *)
Example sample_objects :
  match sample_run (fun _ => WriteOk) with
  | Done (_, s) => (map_to_list ((fun _ => tt) <$> objects s), writes s)
  | _ => ([], 0)
  end = ([("Processor", "semconv", tt); ("Processor", "mine", tt)], 2).
Proof. vm_compute. reflexivity. Qed.
Example sample_failure :
  match sample_run (fun n => if decide (n = 1) then WriteFailed (ENew "timeout") false else WriteOk) with
  | Done ((err, p), s) => (err, bool_decide (p = None), writes s)
  | _ => (None, false, 0)
  end = (Some (ENew "timeout"), true, 2).
Proof. vm_compute. reflexivity. Qed.
