(* ===== verification/NodeCollector.v ===== *)
(** * The node collector's configuration (src/autoscaler/controllers/nodecollector)

    The configuration is built from domains, each a configuration of its own
    (collectorconfig/*.go), which are merged into one (configmap.go).  This
    file has the domains, their composition and the signals that are read back
    from the result.  The API calls of [SyncConfigMap] are not modelled: what
    it reads are arguments, YAML is left out. *)

From stdpp Require Import pretty.
From S2P Require Import Prelude.
From S2P Require Import GoStrings.
From S2P Require Import GoSort.
From S2P Require Import K8s.
From S2P Require Import Api.
From S2P Require Import GoLib.
From S2P Require Import CollectorConfig.
From S2P Require Import Destinations.
From S2P Require Import DataStreams.
From S2P Require Import GatewayConfig.
From S2P Require Import GatewayTelemetry.
From S2P Require Import OdigosConfig.
From S2P Require Import Sizing.
From S2P Require Import CollectorsGroups.

(** ** Names (common.go, traces.go, logs.go, metrics.go, spanmetrics.go) *)

Definition OTLPInReceiverName : string := "otlp/in".
Definition odigosEbpfReceiverName : string := "odigosebpf".
Definition batchProcessorName : string := "batch".
Definition memoryLimiterProcessorName : string := "memory_limiter".
Definition nodeNameProcessorName : string := "resource/node-name".
Definition resourceDetectionProcessorName : string := "resourcedetection".
Definition odigosLogsResourceAttrsProcessorName : string := "odigoslogsresourceattrsprocessor".
Definition odigosTrafficMetricsProcessorName : string := "odigostrafficmetrics".
Definition clusterCollectorTracesExporterName : string := "otlp_grpc/out-cluster-collector-traces".
Definition clusterCollectorMetricsExporterName : string := "otlp_grpc/out-cluster-collector-metrics".
Definition clusterCollectorLogsExporterName : string := "otlp_grpc/out-cluster-collector-logs".
Definition odigosTracesLoadbalancingExporterName : string := "loadbalancing/traces".
Definition odigosTracesExportingForwardConnectorName : string := "forward/traces-exporting".
Definition odigosTracesExportingPipelineName : string := "traces/exporting".
Definition spanMetricsConnectorName : string := "spanmetrics".
Definition spanMetricsTracesInConnectorName : string := "forward/trace/spanmetrics".
Definition spanMetricsPipelineName : string := "traces/spanmetrics".
Definition spanMetricsExportingPipelineName : string := "metrics/spanmetrics-exporting".
Definition spanMetricsResourceRemoveDimensionsProcessorName : string := "resource/spanmetrics/remove-dimensions".
Definition spanMetricsCopyScopeSpanMetricsProcessorName : string := "transform/copy-scope-span-metrics".
Definition odigosTraceFilterProcessorName : string := "odigos_trace_filter".
Definition odigletMetricsExporterName : string := "otlp_http/odiglet-metrics-out".
Definition OdigosClusterCollectorServiceName : string := "odigos-gateway".

(** A configuration with one kind of component, and pipelines. *)
Definition with_components (rs es ps xs cs : GenericMap) (se : list string) (pl : gmap string Pipeline) : Config :=
  mkConfig rs es ps xs cs se pl zero_telemetry.

(** ** Common (common.go) *)

Definition isDetectorEnabled (cfg : option (option bool)) : bool := match cfg with Some e => deref_bool e | None => false end.

Definition BuildResourceDetectors (cfg : option ResourceDetectorsConfiguration) (runningOnGKE : bool) : list string :=
  match cfg with
  | None => []
  | Some cfg =>
      if runningOnGKE then (if isDetectorEnabled (det_GCP cfg) then ["gcp"] else [])
      else (if isDetectorEnabled (det_EC2 cfg) then ["ec2"] else [])
           ++ (if isDetectorEnabled (det_EKS cfg) then ["eks"] else [])
           ++ (if isDetectorEnabled (det_Azure cfg) then ["azure"] else [])
           ++ (if isDetectorEnabled (det_AKS cfg) then ["aks"] else [])
  end.
Definition ResourceDetectionEnabled (detectors : list string) : bool := nonempty detectors.

Definition GetMemoryLimiterConfig (r : ResourcesSettings) : GenericMap :=
  gm [("check_interval", GStr "500ms");
      ("limit_mib", GInt (rs_MemoryLimiterLimitMiB r));
      ("spike_limit_mib", GInt (rs_MemoryLimiterSpikeLimitMiB r))].

Definition staticProcessors : GenericMap :=
  gm [(batchProcessorName, GMap ∅);
      (odigosLogsResourceAttrsProcessorName, GMap ∅);
      (nodeNameProcessorName, upsert_attribute "k8s.node.name" "${NODE_NAME}")].

Definition commonProcessors (spec : CollectorsGroupSpec) (detectors : list string) : GenericMap :=
  let all := <[memoryLimiterProcessorName := GMap (GetMemoryLimiterConfig (cs_ResourcesSettings spec))]> staticProcessors in
  if ResourceDetectionEnabled detectors
  then <[resourceDetectionProcessorName := GMap (gm [("detectors", GStrs detectors); ("timeout", GStr "2s")])]> all
  else all.

Definition compression_of (o : option OtlpExporterConfiguration) : string :=
  if deref_bool (o ≫= oe_EnableDataCompression) then "gzip" else "none".

Definition buildBaseExporterConfig (odigosNamespace compression : string) : GenericMap :=
  gm [("endpoint", GStr ("dns:///" +:+ OdigosClusterCollectorServiceName +:+ "." +:+ odigosNamespace +:+ ":4317"));
      ("tls", GMap (gm [("insecure", GBool true)]));
      ("compression", GStr compression);
      ("balancer_name", GStr "round_robin")].

(** The timeout and the retries are set like those of the profiles' exporter. *)
Definition getCommonExporters (o : option OtlpExporterConfiguration) (odigosNamespace : string) : GenericMap :=
  let base := buildBaseExporterConfig odigosNamespace (compression_of o) in
  let traces := MergeProfilingOtlpExporter base o in
  gm [(clusterCollectorTracesExporterName, GMap traces);
      (clusterCollectorMetricsExporterName, GMap base);
      (clusterCollectorLogsExporterName, GMap base)].

Definition commonReceivers (tier : string) : GenericMap :=
  let rs := gm [(OTLPInReceiverName, GMap (gm [("protocols", GMap (gm
                  [("grpc", GMap (gm [("endpoint", GStr "0.0.0.0:4317"); ("drop_on_overload", GBool true)]));
                   ("http", GMap (gm [("endpoint", GStr "0.0.0.0:4318")]))]))]))] in
  if IsEnterprise tier then <[odigosEbpfReceiverName := GMap ∅]> rs else rs.

Definition commonExtensions (tier : string) : GenericMap :=
  let xs := gm [("health_check", GMap (gm [("endpoint", GStr "0.0.0.0:13133")]));
                ("pprof", GMap (gm [("endpoint", GStr "0.0.0.0:1777")]));
                ("odigos_capabilities", GMap ∅)] in
  if IsEnterprise tier then <[odigosEnterpriseAuthExtensionName := GMap ∅]> xs else xs.
Definition commonService (tier : string) : list string :=
  ["health_check"; "pprof"; "odigos_capabilities"]
  ++ (if IsEnterprise tier then [odigosEnterpriseAuthExtensionName] else []).

Definition CommonConfig (tier : string) : Config :=
  with_components ∅ ∅ ∅ (commonExtensions tier) ∅ (commonService tier) ∅.
Definition CommonApplicationTelemetryConfig (spec : CollectorsGroupSpec) (odigosNamespace : string)
    (detectors : list string) (tier : string) : Config :=
  with_components (commonReceivers tier) (getCommonExporters (cs_OtlpExporterConfiguration spec) odigosNamespace)
    (commonProcessors spec detectors) ∅ ∅ [] ∅.

(** ** The extension (odigos_config_extension.go) *)

Definition ProfilingActive (p : option ProfilingSettings) : bool := deref_bool (p ≫= pfs_Enabled).

Definition NodeHasURLTemplateProcessor (ps : list Processor) : bool :=
  existsb (fun p => bool_decide (pr_Type p = "odigosurltemplate")) ps.
Definition NodeHasSQLQueryProcessor (ps : list Processor) : bool :=
  existsb (fun p => bool_decide (pr_Type p = "odigossqlquery")) ps.
Definition NodeNeedsOdigosConfigK8sExtension (ps : list Processor) (profiling : option ProfilingSettings) : bool :=
  if NodeHasURLTemplateProcessor ps then true
  else if NodeHasSQLQueryProcessor ps then true
  else if ProfilingActive profiling then true else false.
Definition NodeOdigosExtDomain : Config :=
  with_components ∅ ∅ ∅ (gm [(OdigosConfigK8sExtensionType, GMap ∅)]) ∅ [OdigosConfigK8sExtensionType] ∅.

(** ** The UI's metrics (ownmetrics-ui.go) *)

Definition staticOwnMetricsUiProcessors : GenericMap :=
  gm [(odigosTrafficMetricsProcessorName, GMap (gm [("res_attributes_keys", GStrs
        ["service.name"; "k8s.namespace.name"; "k8s.deployment.name"; "k8s.statefulset.name"; "k8s.daemonset.name";
         "k8s.cronjob.name"; "k8s.argoproj.rollout.name"; "odigos.workload.kind"; "odigos.workload.name"])]));
      ("resource/pod-name", upsert_attribute "k8s.pod.name" "${POD_NAME}");
      ("resource/odigos-collector-role", upsert_attribute "odigos.collector.role" CollectorsGroupRoleNodeCollector)].

(** A prometheus receiver that scrapes one target and keeps what matches. *)
Definition scrape_receiver (job target regex : string) : GenericMap :=
  gm [("config", GMap (gm [("scrape_configs", GMaps [gm
        [("job_name", GStr job);
         ("scrape_interval", GStr "10s");
         ("enable_compression", GBool false);
         ("static_configs", GMaps [gm [("targets", GStrs [target])]]);
         ("metric_relabel_configs", GMaps [gm
            [("source_labels", GStrs ["__name__"]); ("regex", GStr regex); ("action", GStr "keep")]])]])]))].

Definition receiversConfigForOwnMetricsUi (ownMetricsPort : Z) : GenericMap :=
  gm [("prometheus/self-metrics-ui", GMap (scrape_receiver "otelcol" ("127.0.0.1:" +:+ pretty ownMetricsPort) "(.*odigos.*)"))].

Definition serviceTelemetryConfigForOwnMetricsUi (ownMetricsPort : Z) : Telemetry :=
  mkTelemetry "detailed"
    [gm [("pull", GMap (gm [("exporter", GMap (gm [("prometheus", GMap (gm
           [("host", GStr "0.0.0.0");
            ("port", GInt ownMetricsPort);
            ("without_units", GBool false);
            ("without_type_suffix", GBool false)]))]))]))]]
    "info" (Some [mkResourceAttribute "k8s.node.name" "${NODE_NAME}"; mkResourceAttribute "k8s.pod.name" "${POD_NAME}"]).

Definition ownMetricsExportersUi (odigosNamespace : string) : GenericMap :=
  gm [("otlp_grpc/odigos-own-telemetry-ui", GMap (gm
        [("endpoint", GStr (UiOtlpGrpcEndpoint odigosNamespace));
         ("compression", GStr "none");
         ("retry_on_failure", GMap (gm [("enabled", GBool false)]));
         ("tls", GMap (gm [("insecure", GBool true)]))]))].

Definition ownMetricsPipelinesUi : gmap string Pipeline :=
  {[ "metrics/own-metrics-ui" :=
       mkPipeline ["prometheus/self-metrics-ui"] ["resource/pod-name"; "resource/odigos-collector-role"]
         ["otlp_grpc/odigos-own-telemetry-ui"] ]}.

Definition OwnMetricsConfigUi (odigosNamespace : string) (ownMetricsPort : Z) : Config :=
  mkConfig (receiversConfigForOwnMetricsUi ownMetricsPort) (ownMetricsExportersUi odigosNamespace)
    staticOwnMetricsUiProcessors ∅ ∅ [] ownMetricsPipelinesUi (serviceTelemetryConfigForOwnMetricsUi ownMetricsPort).

(** ** Metrics (metrics.go) *)

(** What the pipelines of all signals share: whether resources are detected,
    the tier, and the processors of the custom resources. *)
Record CommonSignalConfig := mkSignalConfig
  { sc_OdigosNamespace : string;
    sc_ManifestProcessorNames : list string;
    sc_ResourceDetectionEnabled : bool;
    sc_Tier : string }.

Definition enabled_metric : gval := GMap (gm [("enabled", GBool true)]).
Definition utilization_scraper (metric : string) : list (string * gval) :=
  [("metrics", GMap (gm [(metric, enabled_metric)]))].

Definition kubeletstats_receiver (k : MetricsSourceKubeletStatsConfiguration) : GenericMap :=
  gm [("auth_type", GStr "serviceAccount");
      ("endpoint", GStr "https://${env:NODE_IP}:10250");
      ("insecure_skip_verify", GBool true);
      ("collection_interval", GStr (mk_Interval k))].
Definition hostmetrics_receiver (h : MetricsSourceHostMetricsConfiguration) : GenericMap :=
  gm [("collection_interval", GStr (mh_Interval h));
      ("root_path", GStr "/hostfs");
      ("scrapers", GMap (gm
         [("paging", GMap (gm (utilization_scraper "system.paging.utilization")));
          ("cpu", GMap (gm (utilization_scraper "system.cpu.utilization")));
          ("disk", GUnit);
          ("filesystem", GMap (gm (utilization_scraper "system.filesystem.utilization"
             ++ [("exclude_mount_points", GMap (gm
                    [("match_type", GStr "regexp"); ("mount_points", GStrs ["/var/lib/kubelet/*"])]))])));
          ("load", GUnit); ("memory", GUnit); ("network", GUnit); ("processes", GUnit)]))].

Definition metricsReceivers (m : MetricsCollectionSettings) : GenericMap * list string :=
  (gm ((match mcs_KubeletStats m with Some k => [("kubeletstats", GMap (kubeletstats_receiver k))] | None => [] end)
       ++ match mcs_HostMetrics m with Some h => [("hostmetrics", GMap (hostmetrics_receiver h))] | None => [] end),
   (match mcs_AgentsTelemetry m with Some _ => [OTLPInReceiverName] | None => [] end)
   ++ (match mcs_KubeletStats m with Some _ => ["kubeletstats"] | None => [] end)
   ++ match mcs_HostMetrics m with Some _ => ["hostmetrics"] | None => [] end).

Definition detection_if (b : bool) : list string := if b then [resourceDetectionProcessorName] else [].

Definition MetricsConfig (opts : CommonSignalConfig) (m : MetricsCollectionSettings) : Config :=
  let ps := [batchProcessorName; memoryLimiterProcessorName; nodeNameProcessorName]
            ++ detection_if (sc_ResourceDetectionEnabled opts)
            ++ sc_ManifestProcessorNames opts ++ [odigosTrafficMetricsProcessorName] in
  let '(rs, names) := metricsReceivers m in
  match names with
  | [] => zero_config
  | _ => with_components rs ∅ ∅ ∅ ∅ [] {[ "metrics" := mkPipeline names ps [clusterCollectorMetricsExporterName] ]}
  end.

(** ** Span metrics (spanmetrics.go) *)

(** [slices.Compact]: equal neighbours become one. *)
Fixpoint compact (l : list string) : list string :=
  match l with
  | x :: ((y :: _) as l') => if decide (x = y) then compact l' else x :: compact l'
  | _ => l
  end.

Definition SpanInstrumentationScopeNameAttributeName : string := "span.instrumentation.scope.name".

Definition getSpanMetricsConnectorConfig (s : MetricsSourceSpanMetricsConfiguration) : GenericMap :=
  let histogram := if msp_HistogramDisabled s then gm [("disabled", GBool true)]
                   else match msp_ExplicitHistogramBuckets s with
                        | [] => ∅
                        | buckets => gm [("explicit", GMap (gm [("buckets", GStrs buckets)]))]
                        end in
  let dimensions := ["http.method"; "http.request.method"; "http.status_code"; "http.response.status_code"; "http.route";
                     SpanInstrumentationScopeNameAttributeName] ++ msp_AdditionalDimensions s in
  gm ([("histogram", GMap histogram);
       ("dimensions", GMaps ((fun n => gm [("name", GStr n)]) <$> dimensions));
       ("exemplars", GMap (gm [("enabled", GBool false)]));
       ("aggregation_temporality", GStr "AGGREGATION_TEMPORALITY_CUMULATIVE");
       ("metrics_flush_interval", GStr (msp_Interval s));
       ("metrics_expiration", GStr (msp_MetricsExpiration s));
       ("events", GMap (gm [("enabled", GBool true);
          ("dimensions", GMaps [gm [("name", GStr "exception.type")]; gm [("name", GStr "exception.message")]])]))]
      ++ match msp_ResourceMetricsKeyAttributes s with
         | [] => []
         | l => [("resource_metrics_key_attributes", GStrs l)]
         end).

Definition getSpanMetricsConnectors (s : MetricsSourceSpanMetricsConfiguration) : GenericMap :=
  gm [(spanMetricsConnectorName, GMap (getSpanMetricsConnectorConfig s)); (spanMetricsTracesInConnectorName, GMap ∅)].

Section Span.
Context `{GoSort}.

Definition resourceAttrToExclude (s : MetricsSourceSpanMetricsConfiguration) : list string :=
  compact (SortFunc string_compare
    (["telemetry.sdk.name"; "telemetry.sdk.version"]
     ++ (if deref_bool (msp_IncludedProcessInDimensions s) then []
         else ["process.command"; "process.command_args"; "process.executable.name"; "process.executable.path";
               "process.pid"; "process.vpid"; "process.parent_pid"])
     ++ msp_ExcludedResourceAttributes s)).

Definition getSpanMetricsPipelineProcessors (s : MetricsSourceSpanMetricsConfiguration) : GenericMap * list string :=
  (gm [(spanMetricsCopyScopeSpanMetricsProcessorName, GMap (gm
          [("trace_statements", GMaps [gm
              [("context", GStr "span");
               ("statements", GStrs [quoted ("set(span.attributes[`" +:+ SpanInstrumentationScopeNameAttributeName
                                             +:+ "`], instrumentation_scope.name)")])]])]));
       (spanMetricsResourceRemoveDimensionsProcessorName, GMap (gm
          [("attributes", GMaps ((fun a => gm [("key", GStr a); ("action", GStr "delete")]) <$> resourceAttrToExclude s))]))],
   [spanMetricsCopyScopeSpanMetricsProcessorName; spanMetricsResourceRemoveDimensionsProcessorName]).

Definition all_spans_mode (s : MetricsSourceSpanMetricsConfiguration) : bool :=
  bool_decide (msp_SpanMetricsMode s = Some SpanMetricsModeAllSpans).

(** The domain, the exporters to add to the traces pipeline and the
    processors to run behind the span metrics; the receivers for the metrics
    pipeline are not used. *)
Definition GetSpanMetricsConfig (s : MetricsSourceSpanMetricsConfiguration) : Config * list string * list string :=
  let '(ps, names) := getSpanMetricsPipelineProcessors s in
  let ps := if all_spans_mode s then <[odigosTraceFilterProcessorName := GMap (gm [("drop_unsampled", GBool true)])]> ps else ps in
  (with_components ∅ ∅ ps ∅ (getSpanMetricsConnectors s) []
     {[ spanMetricsPipelineName := mkPipeline [spanMetricsTracesInConnectorName] names [spanMetricsConnectorName];
        spanMetricsExportingPipelineName :=
          mkPipeline [spanMetricsConnectorName] [] [clusterCollectorMetricsExporterName] ]},
   [spanMetricsTracesInConnectorName],
   if all_spans_mode s then [odigosTraceFilterProcessorName] else []).
End Span.

(** ** Odiglet's metrics and the collector's own (ownmetrics-victoriametrics.go, ownmetrics-kubelet.go) *)

Section OwnMetrics.
Context `{GoLibrary}.

Definition odigletMetricsReceiverConfig : GenericMap :=
  gm [("prometheus/odiglet-metrics", GMap (scrape_receiver "odiglet" "localhost:8080"
    ("odigos_(java|python|nodejs)_ebpf_instrumentation_.*|odigos_ebpf_events_(sent|send_failed)_.*"
     +:+ "|odigos_ebpf_ring_pending_bytes|odigos_ebpf_probe_handler_duration_us_microseconds.*")))].
Definition odigletMetricsExporterConfig (odigosNamespace : string) : GenericMap :=
  gm [(odigletMetricsExporterName, GMap (gm
        [("endpoint", GStr ("http://" +:+ OdigosClusterCollectorServiceName +:+ "." +:+ odigosNamespace +:+ ":44318"));
         ("retry_on_failure", GMap (gm [("enabled", GBool false)]));
         ("tls", GMap (gm [("insecure", GBool true)]))]))].
Definition odigletMetricsProcessorConfig : GenericMap :=
  gm [("resource/odiglet-pod-name", upsert_attribute "k8s.pod.name" "${POD_NAME}")].
Definition odigletMetricsPipeline : gmap string Pipeline :=
  {[ "metrics/odiglet-metrics" :=
       mkPipeline ["prometheus/odiglet-metrics"] ["resource/odiglet-pod-name"] [odigletMetricsExporterName] ]}.
Definition OdigletMetricsConfig (odigosNamespace : string) : Config :=
  with_components odigletMetricsReceiverConfig (odigletMetricsExporterConfig odigosNamespace)
    odigletMetricsProcessorConfig ∅ ∅ [] odigletMetricsPipeline.

(** [resource.attributes[key] != value]. *)
Definition differs (key value : string) : string :=
  "resource.attributes[" +:+ strconv_Quote key +:+ "] != " +:+ strconv_Quote value.
Definition ownMetricsKubeletProcessorConfig (odigosNamespace : string) : GenericMap :=
  gm [("filter/own-kubelet", GMap (gm
        [("error_mode", GStr "ignore");
         ("metrics", GMap (gm [("metric", GStrs
            [differs "k8s.namespace.name" odigosNamespace;
             join " and " (differs "k8s.container.name" <$> ["odiglet"; "data-collection"; "gateway"]);
             join " and " ((fun n => "name != " +:+ strconv_Quote n) <$> ["container.cpu.usage"; "container.memory.usage"])])]))]))].
Definition ownKubeletPipeline : gmap string Pipeline :=
  {[ "metrics/own-kubelet" := mkPipeline ["kubeletstats"] ["filter/own-kubelet"] [odigletMetricsExporterName] ]}.

(** [maps.Copy]: the source wins. *)
Definition AddKubeletStatsToOwnMetrics (c : Config) (odigosNamespace : string) : Config :=
  set_pipelines (union ownKubeletPipeline) (set_processors (union (ownMetricsKubeletProcessorConfig odigosNamespace)) c).

Definition DEFAULT_OWNMETRICS_PERIODIC_READER_SCRAPE_INTERVAL : Z := (10 * Second)%Z.
Definition ownMetricsTelemetryConfig (own : OdigosOwnMetricsSettings) (odigosNamespace : string) : Config :=
  let duration := match ParseDuration (om_Interval own) with
                  | inr d => d
                  | inl _ => DEFAULT_OWNMETRICS_PERIODIC_READER_SCRAPE_INTERVAL
                  end in
  mkConfig ∅ ∅ ∅ ∅ ∅ [] ∅ (mkTelemetry ""
    [gm [("periodic", GMap (gm
       [("interval", GInt (Z.quot duration 1000000));
        ("exporter", GMap (gm [("otlp", GMap (gm
           [("endpoint", GStr (OdigosClusterCollectorServiceName +:+ "." +:+ odigosNamespace +:+ ":44318"));
            ("insecure", GBool true);
            ("protocol", GStr "http/protobuf")]))]))]))]] "" None).
End OwnMetrics.

(** ** Traces (traces.go) *)

Definition tracesPipelineReceivers (tier : string) : list string :=
  OTLPInReceiverName :: (if IsEnterprise tier then [odigosEbpfReceiverName] else []).

Definition loadbalancing_exporter (o : option OtlpExporterConfiguration) (odigosNamespace : string) : GenericMap :=
  let otlpConfig := MergeProfilingOtlpExporter
        (gm [("compression", GStr (compression_of o)); ("tls", GMap (gm [("insecure", GBool true)]))]) o in
  gm [("protocol", GMap (gm [("otlp", GMap otlpConfig)]));
      ("resolver", GMap (gm [("k8s", GMap (gm
         [("service", GStr (OdigosClusterCollectorServiceName +:+ "." +:+ odigosNamespace))]))]))].

Definition tracesExporters (o : option OtlpExporterConfiguration) (odigosNamespace : string)
    (tracesEnabledInClusterCollector loadBalancingNeeded : bool) : GenericMap * list string :=
  if tracesEnabledInClusterCollector then
    if loadBalancingNeeded
    then (gm [(odigosTracesLoadbalancingExporterName, GMap (loadbalancing_exporter o odigosNamespace))],
          [odigosTracesLoadbalancingExporterName])
    else (∅, [clusterCollectorTracesExporterName])
  else (∅, []).

Definition TracesConfig (o : option OtlpExporterConfiguration) (opts : CommonSignalConfig)
    (postSpanMetricsProcessorNames additionalTraceExporters : list string)
    (tracesEnabledInClusterCollector loadBalancingNeeded : bool) : Config :=
  let '(es, names) := tracesExporters o (sc_OdigosNamespace opts) tracesEnabledInClusterCollector loadBalancingNeeded in
  let ps := [batchProcessorName; memoryLimiterProcessorName; nodeNameProcessorName]
            ++ detection_if (sc_ResourceDetectionEnabled opts)
            ++ sc_ManifestProcessorNames opts ++ [odigosTrafficMetricsProcessorName] in
  let main := mkPipeline (tracesPipelineReceivers (sc_Tier opts)) ps in
  match postSpanMetricsProcessorNames with
  | [] => with_components ∅ es ∅ ∅ ∅ [] {[ "traces" := main (names ++ additionalTraceExporters) ]}
  | _ =>
      let '(es, names) := match names with [] => (<["nop" := GMap ∅]> es, ["nop"]) | _ => (es, names) end in
      with_components ∅ es ∅ ∅ (gm [(odigosTracesExportingForwardConnectorName, GMap ∅)]) []
        {[ "traces" := main (additionalTraceExporters ++ [odigosTracesExportingForwardConnectorName]);
           odigosTracesExportingPipelineName :=
             mkPipeline [odigosTracesExportingForwardConnectorName] postSpanMetricsProcessorNames names ]}
  end.

(** ** Logs (logs.go) *)

(** What is read of an instrumentation config: its name, its owners, and for
    each container [Logs.EbpfLogCapture.Enabled], absent without the pointers
    on the way. *)
Record LogSource := mkLogSource
  { ls_Name : string;
    ls_Namespace : string;
    ls_OwnerReferences : list OwnerReference;
    ls_EbpfLogCapture : list (option bool) }.

Definition isEbpfLogCaptureEnabled (sources : list LogSource) : bool :=
  existsb (fun ic => existsb deref_bool (ls_EbpfLogCapture ic)) sources.

(** The log files of a source that has exactly one owner. *)
Definition log_include (element : LogSource) : list string :=
  match ls_OwnerReferences element with
  | [owner] => ["/var/log/pods/" +:+ ls_Namespace element +:+ "_" +:+ or_name owner +:+ "-*_*/*/*.log"]
  | _ => []
  end.

Definition filelog_receiver (includes : list string) (odigosNamespace : string) : GenericMap :=
  gm [("include", GStrs includes);
      ("exclude", GStrs ["/var/log/pods/kube-system_*/**/*"; "/var/log/pods/" +:+ odigosNamespace +:+ "_*/**/*"]);
      ("poll_interval", GStr "5s");
      ("start_at", GStr "end");
      ("include_file_path", GBool true);
      ("include_file_name", GBool false);
      ("operators", GMaps [gm [("id", GStr "container-parser"); ("type", GStr "container")]]);
      ("retry_on_failure", GMap (gm [("enabled", GBool true)]))].

Definition getReceivers (sources : list LogSource) (odigosNamespace tier : string) : GenericMap * list string :=
  if IsEnterprise tier && isEbpfLogCaptureEnabled sources then (∅, [odigosEbpfReceiverName])
  else (gm [("filelog", GMap (filelog_receiver (sources ≫= log_include) odigosNamespace))], ["filelog"]).

Definition LogsConfig (opts : CommonSignalConfig) (sources : list LogSource) : Config :=
  let ps := [memoryLimiterProcessorName; nodeNameProcessorName] ++ detection_if (sc_ResourceDetectionEnabled opts)
            ++ [odigosLogsResourceAttrsProcessorName] ++ sc_ManifestProcessorNames opts
            ++ [odigosTrafficMetricsProcessorName] in
  let '(rs, names) := getReceivers sources (sc_OdigosNamespace opts) (sc_Tier opts) in
  with_components rs ∅ ∅ ∅ ∅ [] {[ "logs" := mkPipeline names ps [clusterCollectorLogsExporterName] ]}.

(** ** Profiles (profiles.go, common/profiling_otlp.go) *)

Definition K8sAttributesProfilesProcessorConfig : GenericMap :=
  let from (name : string) := gm [("sources", GMaps [gm [("from", GStr "resource_attribute"); ("name", GStr name)]])] in
  gm [("auth_type", GStr "serviceAccount");
      ("passthrough", GBool false);
      ("extract", GMap (gm [("metadata", GStrs
         ["k8s.namespace.name"; "k8s.pod.name"; "k8s.pod.uid"; "k8s.deployment.name"; "k8s.statefulset.name";
          "k8s.daemonset.name"; "k8s.job.name"; "k8s.cronjob.name"; "container.id"])]));
      ("pod_association", GMaps [from "container.id"; from "k8s.pod.ip"])].

Definition ProfilingProfileDropConditions : list string := [quoted "resource.attributes[`container.id`] == nil"].
Definition ProfilingFilterProcessorConfig : GenericMap :=
  gm [("error_mode", GStr "ignore"); ("profile_conditions", GStrs ProfilingProfileDropConditions)].
Definition OdigosProfilesProcessorConfig : GenericMap := gm [("odigos_config_extension", GStr OdigosConfigK8sExtensionType)].
Definition OdigosSymbolizeProcessorConfig : GenericMap := ∅.

Definition resource_attribute (a : string) : string := "resource.attributes[`" +:+ a +:+ "`]".
(** The name comes from the first attribute that is there. *)
Definition service_name_statement (missing : list string) (a : string) : string :=
  quoted ("set(" +:+ resource_attribute "service.name" +:+ ", " +:+ resource_attribute a +:+ ") where "
          +:+ join " and " (((fun m => resource_attribute m +:+ " == nil") <$> missing)
                            ++ [resource_attribute a +:+ " != nil"])).
Definition ProfilingServiceNameTransformConfig : GenericMap :=
  let kinds := ["k8s.deployment.name"; "k8s.statefulset.name"; "k8s.daemonset.name"; "k8s.cronjob.name"; "k8s.job.name";
                "k8s.pod.name"] in
  gm [("error_mode", GStr "ignore");
      ("profile_statements", GStrs (imap (fun i a => service_name_statement (take i kinds) a) kinds))].

Definition ProfilingPipelineConfig (odigosNamespace : string) (profiling : option ProfilingSettings)
    (manifestProcessorNames : list string) : Config :=
  if negb (ProfilingActive profiling) then zero_config
  else
    let exp := MergeProfilingOtlpExporter
          (gm [("endpoint", GStr ("dns:///" +:+ OdigosClusterCollectorServiceName +:+ "." +:+ odigosNamespace +:+ ":4317"));
               ("tls", GMap (gm [("insecure", GBool true)]));
               ("compression", GStr "none")]) (profiling ≫= pfs_Exporter) in
    let native := NativeSymbolizationEnabled profiling in
    let ps := gm ([("filter/profiles-node", GMap ProfilingFilterProcessorConfig);
                   ("k8s_attributes/profiles-node", GMap K8sAttributesProfilesProcessorConfig);
                   ("odigosprofilesprocessor/profiles-node", GMap OdigosProfilesProcessorConfig);
                   ("transform/profiles-service-name", GMap ProfilingServiceNameTransformConfig)]
                  ++ if native then [("odigossymbolizeprocessor/profiles-node", GMap OdigosSymbolizeProcessorConfig)] else []) in
    let names := [memoryLimiterProcessorName; "filter/profiles-node"; "k8s_attributes/profiles-node";
                  "odigosprofilesprocessor/profiles-node"]
                 ++ (if native then ["odigossymbolizeprocessor/profiles-node"] else [])
                 ++ ["transform/profiles-service-name"] ++ manifestProcessorNames ++ [odigosTrafficMetricsProcessorName] in
    with_components (gm [("profiling", GMap ∅)]) (gm [("otlp_grpc/profiles-to-gateway", GMap exp)]) ps ∅ ∅ []
      {[ "profiles" := mkPipeline ["profiling"] names ["otlp_grpc/profiles-to-gateway"] ]}.

(** ** The composition (configmap.go) *)

Section Compose.
Context `{GoLibrary} `{GoSort} `{GoMapOrder}.

(** What [SyncConfigMap] passes on; [ni_Group] is the spec of the node
    collectors group, if there is one. *)
Record NodeInput := mkNodeInput
  { ni_OdigosNamespace : string;
    ni_Group : option CollectorsGroupSpec;
    ni_Sources : list LogSource;
    ni_ClusterCollectorSignals : list string;
    ni_Processors : list Processor;
    ni_OnGKE : bool;
    ni_LoadBalancingNeeded : bool;
    ni_Profiling : option ProfilingSettings;
    ni_Tier : string }.

Definition domain_if (b : bool) (name : string) (c : Config) : list (string * Config) := if b then [(name, c)] else [].

Definition has_signal (i : NodeInput) (signal : string) : bool := bool_decide (signal ∈ ni_ClusterCollectorSignals i).

(** The domains that are always there. *)
Definition base_domains (i : NodeInput) : list (string * Config) :=
  [("common", CommonConfig (ni_Tier i));
   ("own_metrics_ui", OwnMetricsConfigUi (ni_OdigosNamespace i) OdigosNodeCollectorOwnTelemetryPortDefault)].

(** The span metrics: their settings, if they are collected. *)
Definition span_settings (i : NodeInput) (spec : CollectorsGroupSpec) : option MetricsSourceSpanMetricsConfiguration :=
  if has_signal i MetricsObservabilitySignal then cs_Metrics spec ≫= mcs_SpanMetrics else None.
Definition own_settings (spec : CollectorsGroupSpec) : option OdigosOwnMetricsSettings :=
  cs_Metrics spec ≫= mcs_OdigosOwnMetrics.

Definition odiglet_domain (i : NodeInput) (spec : CollectorsGroupSpec) : Config :=
  let c := OdigletMetricsConfig (ni_OdigosNamespace i) in
  if has_signal i MetricsObservabilitySignal && bool_decide (is_Some (cs_Metrics spec ≫= mcs_KubeletStats))
  then AddKubeletStatsToOwnMetrics c (ni_OdigosNamespace i) else c.

(** The domains of a group, given the processors of the custom resources. *)
Definition group_domains (i : NodeInput) (spec : CollectorsGroupSpec) (r : CrdProcessorResults) : list (string * Config) :=
  let ns := ni_OdigosNamespace i in
  let detectors := BuildResourceDetectors (cs_ResourceDetectors spec) (ni_OnGKE i) in
  let opts names := mkSignalConfig ns names (ResourceDetectionEnabled detectors) (ni_Tier i) in
  let span := GetSpanMetricsConfig <$> span_settings i spec in
  let additionalTraceExporters := from_option (fun s => s.1.2) [] span in
  let postSpanMetricsProcessorNames := from_option snd [] span in
  let traces := has_signal i TracesObservabilitySignal in
  [("processors", with_components ∅ ∅ (ProcessorsConfig r) ∅ ∅ [] ∅)]
  ++ domain_if (NodeNeedsOdigosConfigK8sExtension (ni_Processors i) (ni_Profiling i)) "odigos_config_extension" NodeOdigosExtDomain
  ++ [("common_application_telemetry", CommonApplicationTelemetryConfig spec ns detectors (ni_Tier i))]
  ++ from_option (fun s => [("span_metrics", s.1.1)]) [] span
  ++ (if has_signal i MetricsObservabilitySignal
      then from_option (fun m => [("metrics", MetricsConfig (opts (MetricsProcessors r)) m)]) [] (cs_Metrics spec) else [])
  ++ from_option (fun own => [("own_metrics", ownMetricsTelemetryConfig own ns); ("odiglet_metrics", odiglet_domain i spec)])
       [] (own_settings spec)
  ++ domain_if (traces || nonempty additionalTraceExporters) "traces"
       (TracesConfig (cs_OtlpExporterConfiguration spec) (opts (TracesProcessors r))
          (TracesProcessorsPostSpanMetrics r ++ postSpanMetricsProcessorNames) additionalTraceExporters traces
          (ni_LoadBalancingNeeded i))
  ++ domain_if (has_signal i LogsObservabilitySignal) "logs" (LogsConfig (opts (LogsProcessors r)) (ni_Sources i))
  ++ domain_if (IsEnterprise (ni_Tier i) && ProfilingActive (ni_Profiling i)) "profiling"
       (ProfilingPipelineConfig ns (ni_Profiling i) (ProfilesProcessors r)).

(** The error of a processor: the first that the map's iteration finds. *)
Definition first_error (errs : gmap string error) : option error := snd <$> head (map_order (map_to_list errs)).

Definition merge_domains (domains : list (string * Config)) : error + (gmap string Config * Config) :=
  let configDomains : gmap string Config := list_to_map domains in
  match MergeConfigs configDomains with
  | inl err => inl (EJoin err (ENew "failed to merge collector config domains"))
  | inr merged => inr (configDomains, merged)
  end.

Definition calculateCollectorConfigDomains (i : NodeInput) : error + (gmap string Config * Config) :=
  match ni_Group i with
  | None => merge_domains (base_domains i)
  | Some spec =>
      let r := CrdProcessorToConfig (to_processor <$> ni_Processors i) in
      match first_error (Errs r) with
      | Some err => inl err
      | None => merge_domains (base_domains i ++ group_domains i spec r)
      end
  end.

(** [SyncConfigMap], from what it reads to the configuration that it
    persists; [conf] is the effective configuration, if it can be read. *)
Definition SyncConfigMap (odigosNamespace tier : string) (onGKE : bool) (sources : list LogSource)
    (clusterCollectorGroup : CollectorsGroupSpec) (receiverSignals : list string) (allProcessors : list Processor)
    (datacollection : option CollectorsGroupSpec) (conf : option Configuration) : error + (gmap string Config * Config) :=
  match calculateCollectorConfigDomains
    {| ni_OdigosNamespace := odigosNamespace;
       ni_Group := datacollection;
       ni_Sources := sources;
       ni_ClusterCollectorSignals := receiverSignals;
       ni_Processors := FilterAndSortProcessorsByOrderHint allProcessors CollectorsGroupRoleNodeCollector;
       ni_OnGKE := onGKE;
       ni_LoadBalancingNeeded := isTracingLoadBalancingNeeded clusterCollectorGroup;
       ni_Profiling := conf ≫= oc_Profiling;
       ni_Tier := tier |} with
  | inl err => inl (EJoin err (ENew "failed to calculate collector config domains"))
  | inr r => inr r
  end.

(** ** The signals of a configuration *)

(** One pipeline: only those that receive from agents count. *)
Definition signals_step (found : bool * bool * bool) (np : string * Pipeline) : bool * bool * bool :=
  let '(traces, metrics, logs) := found in
  if negb (bool_decide (OTLPInReceiverName ∈ Receivers np.2)) then found
  else if has_prefix "traces" np.1 then (true, metrics, logs)
  else if has_prefix "metrics" np.1 then (traces, true, logs)
  else if has_prefix "logs" np.1 then (traces, metrics, true)
  else found.

Definition getSignalsFromOtelcolConfig (c : Config) : list string :=
  let '(traces, metrics, logs) := foldl signals_step (false, false, false) (map_order (map_to_list (pipelines c))) in
  (if traces then [TracesObservabilitySignal] else [])
  ++ (if metrics then [MetricsObservabilitySignal] else [])
  ++ (if logs then [LogsObservabilitySignal] else []).
End Compose.
