(* ===== verification/NodeDomains.v ===== *)
(** * What the domains of the node collector define

    Each domain has names of its own ([owned]), so that the merge succeeds
    unless a custom resource's processor takes one of them; the pipelines of
    the merged configuration are those of the table [node_pipeline]. *)

From Stdlib Require Import Ascii.
From S2P Require Import Prelude.
From S2P Require Import GoStrings.
From S2P Require Import GoSort.
From S2P Require Import K8s.
From S2P Require Import Api.
From S2P Require Import GoLib.
From S2P Require Import CollectorConfig.
From S2P Require Import Destinations.
From S2P Require Import DataStreams.
From S2P Require Import GatewayConfig.
From S2P Require Import GatewayTelemetry.
From S2P Require Import GatewayValid.
From S2P Require Import GatewayProcessors.
From S2P Require Import OdigosConfig.
From S2P Require Import Sizing.
From S2P Require Import CollectorsGroups.
From S2P Require Import NodeCollector.

(** ** The names of the domains *)

Record Owned := mkOwned
  { ow_receivers : list string;
    ow_exporters : list string;
    ow_processors : list string;
    ow_extensions : list string;
    ow_connectors : list string;
    ow_pipelines : list string }.
Definition nothing : Owned := mkOwned [] [] [] [] [] [].

Definition owned_names : list (string * Owned) :=
  [("common", mkOwned [] [] [] ["health_check"; "pprof"; "odigos_capabilities"; odigosEnterpriseAuthExtensionName] [] []);
   ("own_metrics_ui", mkOwned ["prometheus/self-metrics-ui"] ["otlp_grpc/odigos-own-telemetry-ui"]
      [odigosTrafficMetricsProcessorName; "resource/pod-name"; "resource/odigos-collector-role"] [] []
      ["metrics/own-metrics-ui"]);
   ("odigos_config_extension", mkOwned [] [] [] [OdigosConfigK8sExtensionType] [] []);
   ("common_application_telemetry", mkOwned [OTLPInReceiverName; odigosEbpfReceiverName]
      [clusterCollectorTracesExporterName; clusterCollectorMetricsExporterName; clusterCollectorLogsExporterName]
      [batchProcessorName; odigosLogsResourceAttrsProcessorName; nodeNameProcessorName; memoryLimiterProcessorName;
       resourceDetectionProcessorName] [] [] []);
   ("span_metrics", mkOwned [] []
      [spanMetricsCopyScopeSpanMetricsProcessorName; spanMetricsResourceRemoveDimensionsProcessorName;
       odigosTraceFilterProcessorName] [] [spanMetricsConnectorName; spanMetricsTracesInConnectorName]
      [spanMetricsPipelineName; spanMetricsExportingPipelineName]);
   ("metrics", mkOwned ["kubeletstats"; "hostmetrics"] [] [] [] [] ["metrics"]);
   ("own_metrics", nothing);
   ("odiglet_metrics", mkOwned ["prometheus/odiglet-metrics"] [odigletMetricsExporterName]
      ["resource/odiglet-pod-name"; "filter/own-kubelet"] [] [] ["metrics/odiglet-metrics"; "metrics/own-kubelet"]);
   ("traces", mkOwned [] [odigosTracesLoadbalancingExporterName; "nop"] [] []
      [odigosTracesExportingForwardConnectorName] ["traces"; odigosTracesExportingPipelineName]);
   ("logs", mkOwned ["filelog"] [] [] [] [] ["logs"]);
   ("profiling", mkOwned ["profiling"] ["otlp_grpc/profiles-to-gateway"]
      ["filter/profiles-node"; "k8s_attributes/profiles-node"; "odigosprofilesprocessor/profiles-node";
       "odigossymbolizeprocessor/profiles-node"; "transform/profiles-service-name"] [] [] ["profiles"])].

Definition node_processors : list string := owned_names ≫= fun no => ow_processors no.2.

(** The keys of a map are among the names. *)
Definition keys_in {A} (m : gmap string A) (names : list string) : Prop := Forall (fun kv => kv.1 ∈ names) (map_to_list m).

Record within (c : Config) (o : Owned) : Prop := {
  wi_receivers : keys_in (receivers c) (ow_receivers o);
  wi_exporters : keys_in (exporters c) (ow_exporters o);
  wi_processors : keys_in (processors c) (ow_processors o);
  wi_extensions : keys_in (extensions c) (ow_extensions o);
  wi_connectors : keys_in (connectors c) (ow_connectors o);
  wi_pipelines : keys_in (pipelines c) (ow_pipelines o)
}.

Lemma keys_in_spec {A} (m : gmap string A) names x : keys_in m names -> is_Some (m !! x) -> x ∈ names.
Proof. unfold keys_in. rewrite Forall_forall. intros Hk [v Hv]. apply (Hk (x, v)). by apply elem_of_map_to_list. Qed.

Lemma keys_in_disjoint {A} (m1 m2 : gmap string A) l1 l2 :
  keys_in m1 l1 -> keys_in m2 l2 -> (forall x, x ∈ l1 -> x ∉ l2) -> m1 ##ₘ m2.
Proof.
  intros H1 H2 Hl. apply map_disjoint_spec. intros x v w Hv Hw.
  apply (Hl x); [eapply keys_in_spec; [exact H1|]|eapply keys_in_spec; [exact H2|]]; by eexists.
Qed.

(** The names of two domains have nothing in common. *)
Definition owned_apart (o1 o2 : Owned) : Prop :=
  ow_receivers o1 ## ow_receivers o2 ∧ ow_exporters o1 ## ow_exporters o2 ∧ ow_processors o1 ## ow_processors o2
  ∧ ow_extensions o1 ## ow_extensions o2 ∧ ow_connectors o1 ## ow_connectors o2 ∧ ow_pipelines o1 ## ow_pipelines o2.

Definition disjoint_b (l1 l2 : list string) : bool := forallb (fun x => negb (bool_decide (x ∈ l2))) l1.
Definition owned_apart_b (o1 o2 : Owned) : bool :=
  disjoint_b (ow_receivers o1) (ow_receivers o2) && disjoint_b (ow_exporters o1) (ow_exporters o2)
  && disjoint_b (ow_processors o1) (ow_processors o2) && disjoint_b (ow_extensions o1) (ow_extensions o2)
  && disjoint_b (ow_connectors o1) (ow_connectors o2) && disjoint_b (ow_pipelines o1) (ow_pipelines o2).

Lemma disjoint_b_spec l1 l2 : disjoint_b l1 l2 = true -> l1 ## l2.
Proof.
  intros Hb x H1 H2. unfold disjoint_b in Hb. rewrite forallb_forall in Hb.
  specialize (Hb x (proj1 (list_elem_of_In _ _) H1)). by rewrite bool_decide_true in Hb.
Qed.

Definition owned (n : string) : Owned := switch n owned_names nothing.

Lemma owned_names_apart n n' : n ∈ owned_names.*1 -> n' ∈ owned_names.*1 -> n <> n' -> owned_apart (owned n) (owned n').
Proof.
  assert (Hall : forallb (fun a => forallb (fun b => bool_decide (a = b) || owned_apart_b (owned a) (owned b)) owned_names.*1)
                   owned_names.*1 = true) by by vm_compute.
  intros H1 H2 Hne. rewrite forallb_forall in Hall. specialize (Hall n (proj1 (list_elem_of_In _ _) H1)).
  rewrite forallb_forall in Hall. specialize (Hall n' (proj1 (list_elem_of_In _ _) H2)).
  rewrite bool_decide_false in Hall by done. unfold owned_apart_b in Hall. cbn [orb] in Hall.
  rewrite !andb_true_iff in Hall. destruct_and!. unfold owned_apart. split_and!; by apply disjoint_b_spec.
Qed.

Ltac owns := split; apply (bool_decide_unpack _); vm_compute; reflexivity.

Section Domains.
Context `{GoLibrary} `{GoSort} `{GoMapOrder} (i : NodeInput) (spec : CollectorsGroupSpec).
Abbreviation r := (CrdProcessorToConfig (to_processor <$> ni_Processors i)) (only parsing).
Abbreviation ns := (ni_OdigosNamespace i) (only parsing).
Definition node_detectors : list string := BuildResourceDetectors (cs_ResourceDetectors spec) (ni_OnGKE i).
Definition signal_opts (names : list string) : CommonSignalConfig :=
  mkSignalConfig ns names (ResourceDetectionEnabled node_detectors) (ni_Tier i).

Lemma common_within tier : within (CommonConfig tier) (owned "common").
Proof. unfold CommonConfig, commonExtensions. destruct (IsEnterprise tier); owns. Qed.
Lemma ui_within port : within (OwnMetricsConfigUi ns port) (owned "own_metrics_ui").
Proof. owns. Qed.
Lemma extension_within : within NodeOdigosExtDomain (owned "odigos_config_extension").
Proof. owns. Qed.
Lemma telemetry_within detectors tier :
  within (CommonApplicationTelemetryConfig spec ns detectors tier) (owned "common_application_telemetry").
Proof.
  unfold CommonApplicationTelemetryConfig, commonReceivers, commonProcessors.
  destruct (IsEnterprise tier), (ResourceDetectionEnabled detectors); owns.
Qed.
Lemma span_within s : within (GetSpanMetricsConfig s).1.1 (owned "span_metrics").
Proof. unfold GetSpanMetricsConfig. destruct (getSpanMetricsPipelineProcessors s) eqn:E. injection E as <- <-. destruct (all_spans_mode s); owns. Qed.
Lemma metrics_within opts m : within (MetricsConfig opts m) (owned "metrics").
Proof.
  unfold MetricsConfig, metricsReceivers.
  destruct (mcs_AgentsTelemetry m), (mcs_KubeletStats m), (mcs_HostMetrics m); owns.
Qed.
Lemma own_metrics_within own : within (ownMetricsTelemetryConfig own ns) (owned "own_metrics").
Proof. owns. Qed.
Lemma odiglet_within : within (odiglet_domain i spec) (owned "odiglet_metrics").
Proof. unfold odiglet_domain. destruct (_ && _); owns. Qed.
Lemma traces_within o opts post additional enabled balanced :
  within (TracesConfig o opts post additional enabled balanced) (owned "traces").
Proof.
  unfold TracesConfig, tracesExporters. destruct enabled, balanced, post; owns.
Qed.
Lemma logs_within opts : within (LogsConfig opts (ni_Sources i)) (owned "logs").
Proof. unfold LogsConfig, getReceivers. destruct (_ && _); owns. Qed.
Lemma profiling_within profiling names : within (ProfilingPipelineConfig ns profiling names) (owned "profiling").
Proof.
  unfold ProfilingPipelineConfig. destruct (ProfilingActive profiling); [|owns]. cbn [negb].
  destruct (NativeSymbolizationEnabled profiling); owns.
Qed.

(** ** The pipelines *)

Definition span_on : option MetricsSourceSpanMetricsConfiguration := span_settings i spec.
Definition forward_spans : list string := match span_on with Some _ => [spanMetricsTracesInConnectorName] | None => [] end.
Definition post_processors : list string :=
  TracesProcessorsPostSpanMetrics r
  ++ match span_on with Some s => if all_spans_mode s then [odigosTraceFilterProcessorName] else [] | None => [] end.
Definition traces_on : bool := has_signal i TracesObservabilitySignal || bool_decide (is_Some span_on).
Definition trace_exporters : list string :=
  if has_signal i TracesObservabilitySignal
  then [if ni_LoadBalancingNeeded i then odigosTracesLoadbalancingExporterName else clusterCollectorTracesExporterName]
  else [].
Definition main_exporters : list string :=
  match post_processors with
  | [] => trace_exporters ++ forward_spans
  | _ => forward_spans ++ [odigosTracesExportingForwardConnectorName]
  end.
Definition exporting_exporters : list string := match trace_exporters with [] => ["nop"] | l => l end.
Definition batched (names : list string) : list string :=
  [batchProcessorName; memoryLimiterProcessorName; nodeNameProcessorName]
  ++ detection_if (ResourceDetectionEnabled node_detectors) ++ names ++ [odigosTrafficMetricsProcessorName].
Definition log_processors : list string :=
  [memoryLimiterProcessorName; nodeNameProcessorName] ++ detection_if (ResourceDetectionEnabled node_detectors)
  ++ [odigosLogsResourceAttrsProcessorName] ++ LogsProcessors r ++ [odigosTrafficMetricsProcessorName].
Definition profile_processors : list string :=
  [memoryLimiterProcessorName; "filter/profiles-node"; "k8s_attributes/profiles-node"; "odigosprofilesprocessor/profiles-node"]
  ++ (if NativeSymbolizationEnabled (ni_Profiling i) then ["odigossymbolizeprocessor/profiles-node"] else [])
  ++ ["transform/profiles-service-name"] ++ ProfilesProcessors r ++ [odigosTrafficMetricsProcessorName].

(** The pipelines of a node collector with a group. *)
Inductive node_pipeline : string -> Pipeline -> Prop :=
| np_ui : node_pipeline "metrics/own-metrics-ui"
    (mkPipeline ["prometheus/self-metrics-ui"] ["resource/pod-name"; "resource/odigos-collector-role"]
       ["otlp_grpc/odigos-own-telemetry-ui"])
| np_span s : span_on = Some s -> node_pipeline spanMetricsPipelineName
    (mkPipeline [spanMetricsTracesInConnectorName]
       [spanMetricsCopyScopeSpanMetricsProcessorName; spanMetricsResourceRemoveDimensionsProcessorName]
       [spanMetricsConnectorName])
| np_span_out s : span_on = Some s -> node_pipeline spanMetricsExportingPipelineName
    (mkPipeline [spanMetricsConnectorName] [] [clusterCollectorMetricsExporterName])
| np_metrics m : has_signal i MetricsObservabilitySignal = true -> cs_Metrics spec = Some m ->
    (metricsReceivers m).2 <> [] -> node_pipeline "metrics"
    (mkPipeline (metricsReceivers m).2 (batched (MetricsProcessors r)) [clusterCollectorMetricsExporterName])
| np_odiglet own : own_settings spec = Some own -> node_pipeline "metrics/odiglet-metrics"
    (mkPipeline ["prometheus/odiglet-metrics"] ["resource/odiglet-pod-name"] [odigletMetricsExporterName])
| np_kubelet own k : own_settings spec = Some own -> has_signal i MetricsObservabilitySignal = true ->
    cs_Metrics spec ≫= mcs_KubeletStats = Some k -> node_pipeline "metrics/own-kubelet"
    (mkPipeline ["kubeletstats"] ["filter/own-kubelet"] [odigletMetricsExporterName])
| np_traces : traces_on = true -> node_pipeline "traces"
    (mkPipeline (tracesPipelineReceivers (ni_Tier i)) (batched (TracesProcessors r)) main_exporters)
| np_exporting : traces_on = true -> post_processors <> [] -> node_pipeline odigosTracesExportingPipelineName
    (mkPipeline [odigosTracesExportingForwardConnectorName] post_processors exporting_exporters)
| np_logs : has_signal i LogsObservabilitySignal = true -> node_pipeline "logs"
    (mkPipeline (getReceivers (ni_Sources i) ns (ni_Tier i)).2 log_processors [clusterCollectorLogsExporterName])
| np_profiles : IsEnterprise (ni_Tier i) = true -> ProfilingActive (ni_Profiling i) = true -> node_pipeline "profiles"
    (mkPipeline ["profiling"] profile_processors ["otlp_grpc/profiles-to-gateway"]).

(** *** The list of the domains *)

Definition traces_domain : Config :=
  TracesConfig (cs_OtlpExporterConfiguration spec) (signal_opts (TracesProcessors r)) post_processors forward_spans
    (has_signal i TracesObservabilitySignal) (ni_LoadBalancingNeeded i).

Inductive node_domain : string -> Config -> Prop :=
| nd_common : node_domain "common" (CommonConfig (ni_Tier i))
| nd_ui : node_domain "own_metrics_ui" (OwnMetricsConfigUi ns OdigosNodeCollectorOwnTelemetryPortDefault)
| nd_processors : node_domain "processors" (with_components ∅ ∅ (ProcessorsConfig r) ∅ ∅ [] ∅)
| nd_extension : NodeNeedsOdigosConfigK8sExtension (ni_Processors i) (ni_Profiling i) = true ->
    node_domain "odigos_config_extension" NodeOdigosExtDomain
| nd_telemetry : node_domain "common_application_telemetry"
    (CommonApplicationTelemetryConfig spec ns node_detectors (ni_Tier i))
| nd_span s : span_on = Some s -> node_domain "span_metrics" (GetSpanMetricsConfig s).1.1
| nd_metrics m : has_signal i MetricsObservabilitySignal = true -> cs_Metrics spec = Some m ->
    node_domain "metrics" (MetricsConfig (signal_opts (MetricsProcessors r)) m)
| nd_own own : own_settings spec = Some own -> node_domain "own_metrics" (ownMetricsTelemetryConfig own ns)
| nd_odiglet own : own_settings spec = Some own -> node_domain "odiglet_metrics" (odiglet_domain i spec)
| nd_traces : traces_on = true -> node_domain "traces" traces_domain
| nd_logs : has_signal i LogsObservabilitySignal = true ->
    node_domain "logs" (LogsConfig (signal_opts (LogsProcessors r)) (ni_Sources i))
| nd_profiling : IsEnterprise (ni_Tier i) = true -> ProfilingActive (ni_Profiling i) = true ->
    node_domain "profiling" (ProfilingPipelineConfig ns (ni_Profiling i) (ProfilesProcessors r)).

Definition node_domains : list (string * Config) := base_domains i ++ group_domains i spec r.

Lemma span_parts :
  from_option (fun s => s.1.2) [] (GetSpanMetricsConfig <$> span_on) = forward_spans
  ∧ TracesProcessorsPostSpanMetrics r ++ from_option snd [] (GetSpanMetricsConfig <$> span_on) = post_processors
  ∧ nonempty forward_spans = bool_decide (is_Some span_on).
Proof. unfold forward_spans, post_processors. destruct span_on as [s|]; [|done]. split_and!; [done..|]. by rewrite bool_decide_true. Qed.

Lemma domain_if_elem b (n m : string) (c d : Config) : (n, d) ∈ domain_if b m c <-> b = true ∧ n = m ∧ d = c.
Proof. unfold domain_if. destruct b; rewrite ?list_elem_of_singleton, ?elem_of_nil; naive_solver. Qed.

Lemma node_domains_elem n d : (n, d) ∈ node_domains <-> node_domain n d.
Proof.
  unfold node_domains, base_domains, group_domains. cbv zeta. fold node_detectors span_on.
  destruct span_parts as (-> & -> & ->). fold traces_on traces_domain.
  repeat setoid_rewrite elem_of_app. rewrite !domain_if_elem, !andb_true_iff. split.
  - intros Hin. destruct_or!; destruct_and?; subst; try (by constructor).
    + set_unfold in Hin. destruct_or!; simplify_eq; constructor.
    + apply list_elem_of_singleton in Hin. simplify_eq. constructor.
    + apply list_elem_of_singleton in Hin. simplify_eq. constructor.
    + destruct span_on eqn:E; [|by apply elem_of_nil in Hin]. apply list_elem_of_singleton in Hin. simplify_eq. by constructor.
    + destruct (has_signal i MetricsObservabilitySignal) eqn:E; [|by apply elem_of_nil in Hin].
      destruct (cs_Metrics spec) eqn:E'; [|by apply elem_of_nil in Hin]. apply list_elem_of_singleton in Hin. simplify_eq. by constructor.
    + destruct (own_settings spec) eqn:E; [|by apply elem_of_nil in Hin]. set_unfold in Hin. destruct_or!; simplify_eq; by econstructor.
  - destruct 1 as [| | | | |s E|m E E'|own E|own E| | |]; try rewrite E; try rewrite E'; cbn [from_option fmap option_fmap option_map]; set_solver.
Qed.

Lemma domain_if_names b n c : (domain_if b n c).*1 `sublist_of` [n].
Proof. destruct b; simpl; [done|apply sublist_nil_l]. Qed.

Lemma node_domains_names : NoDup node_domains.*1.
Proof.
  assert (Hs : node_domains.*1 `sublist_of`
    ["common"; "own_metrics_ui"] ++ ["processors"] ++ ["odigos_config_extension"] ++ ["common_application_telemetry"]
    ++ ["span_metrics"] ++ ["metrics"] ++ ["own_metrics"; "odiglet_metrics"] ++ ["traces"] ++ ["logs"] ++ ["profiling"]).
  { unfold node_domains, base_domains, group_domains. cbv zeta. rewrite !fmap_app.
    repeat apply sublist_app; try apply domain_if_names; try done.
    - destruct (span_settings i spec); simpl; [done|apply sublist_nil_l].
    - destruct (has_signal i _), (cs_Metrics spec); simpl; try done; apply sublist_nil_l.
    - destruct (own_settings spec); simpl; [done|apply sublist_nil_l]. }
  eapply sublist_NoDup; [|exact Hs]. apply (bool_decide_unpack _). by vm_compute.
Qed.

(** Every domain keeps to its names. *)
Lemma node_domain_within n d : node_domain n d -> n <> "processors" -> n ∈ owned_names.*1 ∧ within d (owned n).
Proof.
  destruct 1; intros Hn; try (by destruct Hn); (split; [by apply (bool_decide_unpack _); vm_compute|]);
    auto using common_within, ui_within, extension_within, telemetry_within, span_within, metrics_within,
      own_metrics_within, odiglet_within, logs_within, profiling_within.
  unfold traces_domain. apply traces_within.
Qed.

(** Only one domain sets the level of the metrics. *)
Lemma node_domain_level n d : node_domain n d -> n = "own_metrics_ui" ∨ metrics_Level (telemetry d) = "".
Proof.
  destruct 1; auto; right; try reflexivity.
  - unfold MetricsConfig, metricsReceivers. by destruct (mcs_AgentsTelemetry m), (mcs_KubeletStats m), (mcs_HostMetrics m).
  - unfold odiglet_domain. by destruct (_ && _).
  - unfold traces_domain, TracesConfig, tracesExporters.
    by destruct (has_signal i _), (ni_LoadBalancingNeeded i), post_processors.
  - unfold LogsConfig, getReceivers. by destruct (_ && _).
  - unfold ProfilingPipelineConfig. by destruct (negb _).
Qed.

Lemma pipelines_with rs es ps xs cs se pl : pipelines (with_components rs es ps xs cs se pl) = pl.
Proof. done. Qed.

(** The pipelines of the domains are those of the table. *)
Lemma node_domain_pipelines n d x p : node_domain n d -> pipelines d !! x = Some p -> node_pipeline x p.
Proof.
  destruct 1 as [| | | | |s E|m E E'|own E|own E|E|E|E E'].
  all: try (intros Hp; simpl in Hp; by rewrite lookup_empty in Hp).
  - unfold OwnMetricsConfigUi, ownMetricsPipelinesUi. simpl. intros [<- <-]%lookup_singleton_Some. constructor.
  - unfold GetSpanMetricsConfig, getSpanMetricsPipelineProcessors. simpl.
    intros [[<- <-]|[_ [<- <-]%lookup_singleton_Some]]%lookup_insert_Some; by econstructor.
  - unfold MetricsConfig. destruct (metricsReceivers m) as [rs names] eqn:Em. destruct names as [|y names].
    + intros Hp. simpl in Hp. by rewrite lookup_empty in Hp.
    + rewrite pipelines_with. intros [<- <-]%lookup_singleton_Some. rewrite <-(f_equal snd Em : _ = y :: names).
      apply (np_metrics m); [done..|by rewrite Em].
  - unfold odiglet_domain, AddKubeletStatsToOwnMetrics, ownKubeletPipeline, OdigletMetricsConfig, odigletMetricsPipeline.
    destruct (has_signal i _) eqn:Em, (cs_Metrics spec ≫= mcs_KubeletStats) as [k|] eqn:Ek;
      rewrite ?bool_decide_true, ?bool_decide_false by (by eexists || by intros [? ?]); simpl.
    + intros [[<- <-]%lookup_singleton_Some|[_ [<- <-]%lookup_singleton_Some]]%lookup_union_Some_raw; by econstructor.
    + intros [<- <-]%lookup_singleton_Some. by econstructor.
    + intros [<- <-]%lookup_singleton_Some. by econstructor.
    + intros [<- <-]%lookup_singleton_Some. by econstructor.
  - unfold traces_domain, TracesConfig.
    pose proof np_traces as Ht. pose proof np_exporting as Hx. specialize (Ht E). specialize (Hx E).
    unfold main_exporters, exporting_exporters in *. unfold trace_exporters, tracesExporters in *. destruct post_processors as [|y post] eqn:Ep.
    + destruct (has_signal i _), (ni_LoadBalancingNeeded i); rewrite pipelines_with;
        intros [<- <-]%lookup_singleton_Some; exact Ht.
    + destruct (has_signal i _), (ni_LoadBalancingNeeded i); rewrite pipelines_with;
        intros [[<- <-]|[_ [<- <-]%lookup_singleton_Some]]%lookup_insert_Some; first [exact Ht|by apply Hx].
  - unfold LogsConfig. cbn [sc_OdigosNamespace sc_Tier signal_opts].
    destruct (getReceivers _ _ _) as [rs names] eqn:Er. rewrite pipelines_with. intros [<- <-]%lookup_singleton_Some.
    rewrite <-(f_equal snd Er : _ = names). by apply np_logs.
  - unfold ProfilingPipelineConfig. rewrite E'. cbv zeta. cbn [negb]. rewrite pipelines_with.
    intros [<- <-]%lookup_singleton_Some. by apply np_profiles.
Qed.
End Domains.
