(* ===== verification/NodeCollectorProperties.v ===== *)
(** * The merged configuration of the node collector

    What follows for the result of a merge of the domains that succeeds: every
    pipeline has components that are defined, and every connector links two
    pipelines.  The second part has the theorems on the whole configuration. *)

From Stdlib Require Import Ascii.
From S2P Require Import Prelude.
From S2P Require Import GoStrings.
From S2P Require Import GoSort.
From S2P Require Import K8s.
From S2P Require Import Api.
From S2P Require Import GoLib.
From S2P Require Import Samples.
From S2P Require Import CollectorConfig.
From S2P Require Import Destinations.
From S2P Require Import DataStreams.
From S2P Require Import GatewayConfig.
From S2P Require Import GatewayTelemetry.
From S2P Require Import GatewayValid.
From S2P Require Import GatewayProcessors.
From S2P Require Import OdigosConfig.
From S2P Require Import Sizing.
From S2P Require Import CollectorsGroups.
From S2P Require Import NodeCollector.
From S2P Require Import NodeDomains.

Definition node_connectors : list string :=
  [spanMetricsConnectorName; spanMetricsTracesInConnectorName; odigosTracesExportingForwardConnectorName].

(** The receivers of the metrics, if there are any. *)
Lemma metrics_config_receivers opts m :
  (metricsReceivers m).2 <> [] -> receivers (MetricsConfig opts m) = (metricsReceivers m).1.
Proof. unfold MetricsConfig. by destruct (metricsReceivers m) as [rs []]. Qed.
Lemma gm_defined l x : x ∈ l.*1 -> is_Some (gm l !! x).
Proof. intros Hx. apply not_eq_None_Some. by intros ?%not_elem_of_list_to_map_2. Qed.

Lemma gm_keys l x : is_Some (gm l !! x) -> x ∈ l.*1.
Proof. intros [v Hv%elem_of_list_to_map_2]. by apply (list_elem_of_fmap_2 fst _ (x, v)). Qed.
Lemma metrics_names_defined m x :
  x ∈ (metricsReceivers m).2 -> x = OTLPInReceiverName ∨ is_Some ((metricsReceivers m).1 !! x).
Proof.
  unfold metricsReceivers. cbn [fst snd]. rewrite !elem_of_app. intros [Hx|[Hx|Hx]].
  - left. destruct (mcs_AgentsTelemetry m); [by apply list_elem_of_singleton in Hx|by apply elem_of_nil in Hx].
  - right. destruct (mcs_KubeletStats m); [|by apply elem_of_nil in Hx]. apply list_elem_of_singleton in Hx as ->.
    apply gm_defined. by left.
  - right. destruct (mcs_HostMetrics m); [|by apply elem_of_nil in Hx]. apply list_elem_of_singleton in Hx as ->.
    apply gm_defined. rewrite fmap_app, elem_of_app. right. by left.
Qed.

Lemma owned_plain n : n ∈ owned_names.*1 ->
  forallb (fun y => negb (bool_decide (y ∈ node_connectors))) (ow_receivers (owned n)) = true
  ∧ forallb (fun y => negb (bool_decide (y ∈ node_connectors))) (ow_exporters (owned n)) = true.
Proof.
  intros Hn%list_elem_of_In. revert n Hn. rewrite <-List.Forall_forall. repeat (constructor; [by vm_compute|]). constructor.
Qed.

Section Merged.
Context `{GoLibrary} `{GoSortLaws} `{GoMapOrderLaws} (i : NodeInput) (spec : CollectorsGroupSpec).
Context (Hkeys : NoDup (processor_key <$> (to_processor <$> ni_Processors i))).
Context (c : Config) (Hc : MergeConfigs (list_to_map (node_domains i spec)) = inr c).
Abbreviation r := (CrdProcessorToConfig (to_processor <$> ni_Processors i)) (only parsing).
Abbreviation domain := (node_domain i spec).
Abbreviation pipeline := (node_pipeline i spec).

Lemma merged : merges (node_domains i spec).*2 c.
Proof. apply merge_configs_merges; [apply node_domains_names|done]. Qed.

Lemma domain_elem d : d ∈ (node_domains i spec).*2 <-> exists n, domain n d.
Proof.
  rewrite list_elem_of_fmap. split.
  - intros ([n d'] & -> & Hin). exists n. by apply node_domains_elem.
  - intros (n & Hn). exists (n, d). split; [done|]. by apply node_domains_elem.
Qed.

(** What a domain defines is defined. *)
Lemma gathered {A} (f : Config -> gmap string A) n d x :
  gathers f (node_domains i spec).*2 c -> domain n d -> is_Some (f d !! x) -> is_Some (f c !! x).
Proof. intros Hf Hd [v Hv]. exists v. apply Hf. exists d. split; [apply domain_elem; by exists n|done]. Qed.
Lemma gathered_from {A} (f : Config -> gmap string A) x :
  gathers f (node_domains i spec).*2 c -> is_Some (f c !! x) -> exists n d, domain n d ∧ is_Some (f d !! x).
Proof. intros Hf [v (d & (n & Hn)%domain_elem & Hv)%Hf]. exists n, d. split; [done|by exists v]. Qed.

Lemma domain_receiver n d x : domain n d -> is_Some (receivers d !! x) -> is_receiver c x.
Proof. apply gathered, merged. Qed.
Lemma domain_exporter n d x : domain n d -> is_Some (exporters d !! x) -> is_exporter c x.
Proof. apply gathered, merged. Qed.
Lemma domain_connector n d x : domain n d -> is_Some (connectors d !! x) -> is_connector c x.
Proof. apply gathered, merged. Qed.
Lemma domain_processor n d x : domain n d -> is_Some (processors d !! x) -> is_Some (processors c !! x).
Proof. apply gathered, merged. Qed.

Lemma merged_pipeline x p : pipelines c !! x = Some p -> pipeline x p.
Proof.
  intros (d & (n & Hn)%domain_elem & Hp)%(mg_pipelines _ _ merged). by eapply node_domain_pipelines.
Qed.

(** *** Processors *)

Lemma processors_domain x : x ∈ all_processors r -> is_Some (processors c !! x).
Proof. intros Hx. apply (domain_processor _ _ _ (nd_processors i spec)). by apply (ci_defined _ _ (crd_inv_all _ Hkeys)). Qed.

(** The custom resources' processors have no name of the other domains. *)
Lemma manifest_fresh x n d : x ∈ all_processors r -> domain n d -> n <> "processors" -> is_Some (processors d !! x) -> False.
Proof.
  intros Hx Hd Hn [v Hv]. apply (ci_defined _ _ (crd_inv_all _ Hkeys)) in Hx as [w Hw].
  assert (Hdis := merge_configs_processors _ _ _ _ _ _ (node_domains_names i spec) Hc
    (proj2 (node_domains_elem i spec _ _) Hd) (proj2 (node_domains_elem i spec _ _) (nd_processors i spec)) Hn).
  rewrite map_disjoint_spec in Hdis. by eapply Hdis.
Qed.

Definition own_processor (x : string) : Prop := exists n d, domain n d ∧ n <> "processors" ∧ is_Some (processors d !! x).

Lemma mixed_processors l1 names l2 :
  Forall own_processor (l1 ++ l2) -> NoDup (l1 ++ l2) -> (forall x, x ∈ names -> x ∈ all_processors r) -> NoDup names ->
  Forall (fun x => is_Some (processors c !! x)) (l1 ++ names ++ l2) ∧ NoDup (l1 ++ names ++ l2).
Proof.
  intros Ho Hnd Hsub Hn. rewrite Forall_forall in Ho. split.
  - apply Forall_forall. intros x Hx. destruct (decide (x ∈ names)) as [|Hx']; [by apply processors_domain, Hsub|].
    destruct (Ho x) as (n & d & Hd & _ & Hs); [set_solver|]. by eapply domain_processor.
  - assert (Hdis : forall x, x ∈ names -> x ∉ l1 ++ l2).
    { intros x Hx%Hsub (n & d & Hd & Hne & Hs)%Ho. by eapply manifest_fresh. }
    assert (Hp : l1 ++ names ++ l2 ≡ₚ names ++ l1 ++ l2) by by rewrite Permutation_app_swap_app.
    rewrite Hp. apply NoDup_app. split_and!; [done|done|done].
Qed.

(** The processors of each signal. *)
Lemma signal_processors l : l ∈ [TracesProcessors r; TracesProcessorsPostSpanMetrics r; MetricsProcessors r; LogsProcessors r; ProfilesProcessors r] ->
  (forall x, x ∈ l -> x ∈ all_processors r) ∧ NoDup l.
Proof.
  destruct (crd_inv_all _ Hkeys) as [_ _ Ht Hm Hl Hp]. apply NoDup_app in Ht as (Ht1 & _ & Ht2). unfold all_processors.
  intros Hin. repeat (apply elem_of_cons in Hin as [->|Hin]; [split; [set_solver|done]|]). by apply elem_of_nil in Hin.
Qed.

Lemma own_at n d x : domain n d -> n <> "processors" -> is_Some (processors d !! x) -> own_processor x.
Proof. intros ???. by exists n, d. Qed.

(** The map of a domain has a name, whatever the values are. *)
Ltac among := cbn [fmap list_fmap fst app]; 
  lazymatch goal with
  | |- ?x ∈ ?y :: _ => first [constr_eq x y; apply list_elem_of_here|unify x y; apply list_elem_of_here|apply list_elem_of_further; among]
  end.
Ltac defined_in :=
  lazymatch goal with
  | |- is_Some (gm _ !! _) => apply gm_defined; among
  | |- is_Some (<[_ := _]> _ !! _) => apply lookup_insert_is_Some'; first [left; reflexivity|right; defined_in]
  | |- is_Some (union _ _ !! _) => apply lookup_union_is_Some; first [left; defined_in|right; defined_in]
  end.
Ltac defined :=
  unfold CommonApplicationTelemetryConfig, OwnMetricsConfigUi, receiversConfigForOwnMetricsUi, ownMetricsExportersUi, staticOwnMetricsUiProcessors,
    staticProcessors, getCommonExporters, getSpanMetricsConnectors, getSpanMetricsPipelineProcessors,
    AddKubeletStatsToOwnMetrics, OdigletMetricsConfig, odigletMetricsReceiverConfig, odigletMetricsExporterConfig,
    odigletMetricsProcessorConfig, ownMetricsKubeletProcessorConfig;
  cbv zeta; cbn [fst snd negb andb with_components receivers exporters processors connectors set_pipelines set_processors]; defined_in.

Lemma telemetry_own x : x ∈ [batchProcessorName; memoryLimiterProcessorName; nodeNameProcessorName; odigosLogsResourceAttrsProcessorName] ->
  own_processor x.
Proof.
  intros Hx. apply (own_at _ _ x (nd_telemetry i spec)); [done|]. unfold CommonApplicationTelemetryConfig, commonProcessors.
  repeat (apply elem_of_cons in Hx as [->|Hx]; [destruct (ResourceDetectionEnabled _); defined|]). by apply elem_of_nil in Hx.
Qed.
Lemma detection_own x : x ∈ detection_if (ResourceDetectionEnabled (node_detectors i spec)) -> own_processor x.
Proof.
  destruct (ResourceDetectionEnabled (node_detectors i spec)) eqn:E; simpl; [|by intros ?%elem_of_nil].
  intros ->%list_elem_of_singleton. apply (own_at _ _ _ (nd_telemetry i spec)); [done|].
  unfold CommonApplicationTelemetryConfig, commonProcessors. rewrite E. defined.
Qed.
Lemma traffic_own : own_processor odigosTrafficMetricsProcessorName.
Proof. apply (own_at _ _ _ (nd_ui i spec)); [done|defined]. Qed.


Definition runs (ps : list string) : Prop := Forall (fun x => is_Some (processors c !! x)) ps ∧ NoDup ps.

Lemma batched_runs l : l ∈ [TracesProcessors r; MetricsProcessors r] -> runs (batched i spec l).
Proof.
  intros Hl. destruct (signal_processors l) as [Hsub Hnd]; [set_solver|]. unfold runs, batched.
  rewrite (app_assoc _ (detection_if _)). apply mixed_processors; [| |done|done].
  - apply Forall_forall. intros x Hx. rewrite !elem_of_app, list_elem_of_singleton in Hx.
    destruct Hx as [[Hx|Hx]| ->]; [apply telemetry_own; set_solver|by apply detection_own|apply traffic_own].
  - destruct (ResourceDetectionEnabled _); apply (bool_decide_unpack _); by vm_compute.
Qed.

Lemma logs_run : runs (log_processors i spec).
Proof.
  destruct (signal_processors (LogsProcessors r)) as [Hsub Hnd]; [set_solver|]. unfold runs, log_processors.
  rewrite (app_assoc _ (detection_if _)), (app_assoc (_ ++ detection_if _)). apply mixed_processors; [| |done|done].
  - apply Forall_forall. intros x Hx. rewrite !elem_of_app, !list_elem_of_singleton in Hx.
    destruct Hx as [[[Hx|Hx]| ->]| ->]; [apply telemetry_own; set_solver|by apply detection_own| |apply traffic_own].
    apply telemetry_own. set_solver.
  - destruct (ResourceDetectionEnabled _); apply (bool_decide_unpack _); by vm_compute.
Qed.

Lemma profiles_run :
  IsEnterprise (ni_Tier i) = true -> ProfilingActive (ni_Profiling i) = true -> runs (profile_processors i).
Proof.
  intros He Ha. destruct (signal_processors (ProfilesProcessors r)) as [Hsub Hnd]; [set_solver|].
  unfold runs, profile_processors. set (sym := if NativeSymbolizationEnabled _ then _ else _).
  rewrite (app_assoc _ sym), (app_assoc (_ ++ sym)). apply mixed_processors; [| |done|done].
  - apply Forall_forall. intros x Hx. rewrite !elem_of_app in Hx.
    assert (Hp : forall x, is_Some (processors (ProfilingPipelineConfig (ni_OdigosNamespace i) (ni_Profiling i) (ProfilesProcessors r)) !! x) ->
              own_processor x) by (intros y Hy; by apply (own_at _ _ y (nd_profiling i spec He Ha))).
    destruct Hx as [[[Hx|Hx]| ->%list_elem_of_singleton]| ->%list_elem_of_singleton]; [| | |apply traffic_own].
    + apply elem_of_cons in Hx as [->|Hx]; [apply telemetry_own; set_solver|].
      repeat (apply elem_of_cons in Hx as [->|Hx]; [apply Hp; unfold ProfilingPipelineConfig; rewrite Ha;
        destruct (NativeSymbolizationEnabled _); defined|]). by apply elem_of_nil in Hx.
    + unfold sym in Hx. destruct (NativeSymbolizationEnabled (ni_Profiling i)) eqn:E; [|by apply elem_of_nil in Hx].
      apply list_elem_of_singleton in Hx as ->. apply Hp. unfold ProfilingPipelineConfig. rewrite Ha, E. defined.
    + apply Hp. unfold ProfilingPipelineConfig. rewrite Ha. destruct (NativeSymbolizationEnabled _); defined.
  - unfold sym. destruct (NativeSymbolizationEnabled _); apply (bool_decide_unpack _); by vm_compute.
Qed.

Lemma post_runs : runs (post_processors i spec).
Proof.
  destruct (signal_processors (TracesProcessorsPostSpanMetrics r)) as [Hsub Hnd]; [set_solver|].
  unfold runs, post_processors. apply (mixed_processors []); [| |done|done].
  - apply Forall_forall. intros x Hx. destruct (span_on i spec) as [s|] eqn:E; [|by apply elem_of_nil in Hx].
    destruct (all_spans_mode s) eqn:Em; [|by apply elem_of_nil in Hx]. apply list_elem_of_singleton in Hx as ->.
    apply (own_at _ _ _ (nd_span i spec s E)); [done|]. unfold GetSpanMetricsConfig. rewrite Em. defined.
  - destruct (span_on i spec) as [s|]; [destruct (all_spans_mode s)|]; apply (bool_decide_unpack _); by vm_compute.
Qed.

(** *** Receivers and exporters *)

Definition receives (x : string) : Prop := is_receiver c x ∨ is_connector c x.
Definition exports (x : string) : Prop := is_exporter c x ∨ is_connector c x.

Lemma otlp_receives : receives OTLPInReceiverName.
Proof.
  left. apply (domain_receiver _ _ _ (nd_telemetry i spec)). unfold CommonApplicationTelemetryConfig, commonReceivers.
  destruct (IsEnterprise _); defined.
Qed.
Lemma ebpf_receives : IsEnterprise (ni_Tier i) = true -> receives odigosEbpfReceiverName.
Proof.
  intros He. left. apply (domain_receiver _ _ _ (nd_telemetry i spec)). unfold CommonApplicationTelemetryConfig, commonReceivers.
  rewrite He. defined.
Qed.
Lemma cluster_exports x : x ∈ [clusterCollectorTracesExporterName; clusterCollectorMetricsExporterName; clusterCollectorLogsExporterName] ->
  exports x.
Proof.
  intros Hx. left. apply (domain_exporter _ _ _ (nd_telemetry i spec)).
  repeat (apply elem_of_cons in Hx as [->|Hx]; [defined|]). by apply elem_of_nil in Hx.
Qed.
Lemma metrics_receiver m x :
  has_signal i MetricsObservabilitySignal = true -> cs_Metrics spec = Some m -> (metricsReceivers m).2 <> [] ->
  is_Some ((metricsReceivers m).1 !! x) -> receives x.
Proof.
  intros Hm Es Hne Hx. left. apply (domain_receiver _ _ _ (nd_metrics i spec m Hm Es)). by rewrite metrics_config_receivers.
Qed.
Lemma metrics_receive m : has_signal i MetricsObservabilitySignal = true -> cs_Metrics spec = Some m ->
  Forall receives (metricsReceivers m).2.
Proof.
  intros Hm Es. apply Forall_forall. intros x Hx. destruct (metrics_names_defined m x Hx) as [->|Hs]; [apply otlp_receives|].
  apply (metrics_receiver m); [done|done| |done]. intros E. rewrite E in Hx. by apply elem_of_nil in Hx.
Qed.
Lemma kubelet_receives m k :
  has_signal i MetricsObservabilitySignal = true -> cs_Metrics spec = Some m -> mcs_KubeletStats m = Some k -> receives "kubeletstats".
Proof.
  intros Hm Es Ek. pose proof (metrics_receive m Hm Es) as Hr. rewrite Forall_forall in Hr. apply Hr.
  unfold metricsReceivers. rewrite Ek. cbn [snd]. rewrite !elem_of_app. right. left. by left.
Qed.

Lemma spans_connector s x : span_on i spec = Some s -> x ∈ [spanMetricsConnectorName; spanMetricsTracesInConnectorName] -> is_connector c x.
Proof.
  intros E Hx. apply (domain_connector _ _ _ (nd_span i spec s E)). unfold GetSpanMetricsConfig.
  repeat (apply elem_of_cons in Hx as [->|Hx]; [destruct (all_spans_mode s); defined|]). by apply elem_of_nil in Hx.
Qed.
Lemma exporting_connector : traces_on i spec = true -> post_processors i spec <> [] ->
  is_connector c odigosTracesExportingForwardConnectorName.
Proof.
  intros Ht Hp. apply (domain_connector _ _ _ (nd_traces i spec Ht)). unfold traces_domain, TracesConfig, tracesExporters.
  destruct (post_processors i spec); [done|]. destruct (has_signal i _), (ni_LoadBalancingNeeded i); defined.
Qed.

Lemma traces_export : traces_on i spec = true -> Forall exports (trace_exporters i).
Proof.
  intros Ht. unfold trace_exporters. destruct (has_signal i TracesObservabilitySignal) eqn:Es; [|constructor].
  constructor; [|constructor]. destruct (ni_LoadBalancingNeeded i) eqn:El; [|apply cluster_exports; by left].
  left. apply (domain_exporter _ _ _ (nd_traces i spec Ht)). unfold traces_domain, TracesConfig, tracesExporters.
  rewrite Es, El. destruct (post_processors i spec); defined.
Qed.
Lemma spans_export : Forall exports (forward_spans i spec).
Proof.
  unfold forward_spans. destruct (span_on i spec) as [s|] eqn:E; constructor; [|constructor].
  right. apply (spans_connector s); [done|]. set_solver.
Qed.
Lemma main_export : traces_on i spec = true -> main_exporters i spec <> [] ∧ Forall exports (main_exporters i spec).
Proof.
  intros Ht. unfold main_exporters. destruct (post_processors i spec) eqn:Ep; split.
  - unfold traces_on, trace_exporters, forward_spans in *. destruct (has_signal i _); [done|]. cbn [orb] in Ht.
    apply bool_decide_eq_true in Ht as [s ->]. done.
  - apply Forall_app. split; [by apply traces_export|apply spans_export].
  - by destruct (forward_spans i spec).
  - apply Forall_app. split; [apply spans_export|]. constructor; [|constructor]. right. apply exporting_connector; [done|by rewrite Ep].
Qed.
Lemma exporting_export : traces_on i spec = true -> post_processors i spec <> [] ->
  exporting_exporters i <> [] ∧ Forall exports (exporting_exporters i).
Proof.
  intros Ht Hp. pose proof (traces_export Ht) as Hx. unfold exporting_exporters.
  destruct (trace_exporters i) as [|x l] eqn:E; [|by split]. split; [done|]. constructor; [|constructor]. left.
  apply (domain_exporter _ _ _ (nd_traces i spec Ht)). unfold traces_domain, TracesConfig, tracesExporters.
  unfold trace_exporters in E. destruct (has_signal i _); [done|]. destruct (post_processors i spec); [done|defined].
Qed.

Lemma logs_receive : has_signal i LogsObservabilitySignal = true ->
  (getReceivers (ni_Sources i) (ni_OdigosNamespace i) (ni_Tier i)).2 <> []
  ∧ Forall receives (getReceivers (ni_Sources i) (ni_OdigosNamespace i) (ni_Tier i)).2.
Proof.
  intros Hl. unfold getReceivers. destruct (IsEnterprise (ni_Tier i) && _) eqn:E; (split; [done|]); simpl.
  - apply andb_true_iff in E as [He _]. constructor; [by apply ebpf_receives|constructor].
  - constructor; [|constructor]. left. apply (domain_receiver _ _ _ (nd_logs i spec Hl)). unfold LogsConfig, getReceivers.
    simpl. rewrite E. defined.
Qed.

(** *** Every pipeline is accepted *)

Lemma pipelines_accepted n p : pipelines c !! n = Some p -> pipeline_accepted c p.
Proof.
  intros Hp%merged_pipeline. destruct Hp as [|s E|s E|m Hm Es Hne|own Eo|own k Eo Hm Ek|Ht|Ht Hpost|Hl|He Ha]; split; simpl.
  all: try (split; [done|]; constructor; [|constructor]); try (by apply cluster_exports; set_solver).
  - left. by apply (domain_receiver _ _ _ (nd_ui i spec)); defined.
  - left. by apply (domain_exporter _ _ _ (nd_ui i spec)); defined.
  - split; [|apply (bool_decide_unpack _); by vm_compute].
    repeat (constructor; [apply (domain_processor _ _ _ (nd_ui i spec)); defined|]). constructor.
  - right. apply (spans_connector s); [done|set_solver].
  - right. apply (spans_connector s); [done|set_solver].
  - split; [|apply (bool_decide_unpack _); by vm_compute].
    repeat (constructor; [apply (domain_processor _ _ _ (nd_span i spec s E)); unfold GetSpanMetricsConfig; destruct (all_spans_mode s); defined|]). constructor.
  - right. apply (spans_connector s); [done|set_solver].
  - split; constructor.
  - split; [done|]. by apply metrics_receive.
  - apply batched_runs. set_solver.
  - left. apply (domain_receiver _ _ _ (nd_odiglet i spec own Eo)). unfold odiglet_domain. destruct (_ && _); defined.
  - left. apply (domain_exporter _ _ _ (nd_odiglet i spec own Eo)). unfold odiglet_domain. destruct (_ && _); defined.
  - split; [|apply NoDup_singleton]. constructor; [|constructor].
    apply (domain_processor _ _ _ (nd_odiglet i spec own Eo)). unfold odiglet_domain. destruct (_ && _); defined.
  - apply bind_Some in Ek as (m & Es & Ek). by eapply kubelet_receives.
  - left. apply (domain_exporter _ _ _ (nd_odiglet i spec own Eo)). unfold odiglet_domain. destruct (_ && _); defined.
  - split; [|apply NoDup_singleton]. constructor; [|constructor].
    apply (domain_processor _ _ _ (nd_odiglet i spec own Eo)). unfold odiglet_domain. rewrite Hm, bool_decide_true by by eexists. cbn [andb]. defined.
  - split; [done|]. unfold tracesPipelineReceivers. constructor; [apply otlp_receives|].
    destruct (IsEnterprise (ni_Tier i)) eqn:E; constructor; [by apply ebpf_receives|constructor].
  - by apply main_export.
  - apply batched_runs. by left.
  - right. by apply exporting_connector.
  - by apply exporting_export.
  - apply post_runs.
  - by apply logs_receive.
  - apply logs_run.
  - left. apply (domain_receiver _ _ _ (nd_profiling i spec He Ha)). unfold ProfilingPipelineConfig. rewrite Ha. defined.
  - left. apply (domain_exporter _ _ _ (nd_profiling i spec He Ha)). unfold ProfilingPipelineConfig. rewrite Ha. defined.
  - by apply profiles_run.
Qed.

(** *** The connectors *)

(** A pipeline of the domains is in the result. *)
Lemma pipeline_merged n d x p : domain n d -> pipelines d !! x = Some p -> pipelines c !! x = Some p.
Proof. intros Hd Hp. apply (mg_pipelines _ _ merged). exists d. split; [apply domain_elem; by exists n|done]. Qed.

Lemma span_pipelines s : span_on i spec = Some s ->
  pipelines c !! spanMetricsPipelineName
    = Some (mkPipeline [spanMetricsTracesInConnectorName]
              [spanMetricsCopyScopeSpanMetricsProcessorName; spanMetricsResourceRemoveDimensionsProcessorName]
              [spanMetricsConnectorName])
  ∧ pipelines c !! spanMetricsExportingPipelineName
    = Some (mkPipeline [spanMetricsConnectorName] [] [clusterCollectorMetricsExporterName]).
Proof. intros E. split; by apply (pipeline_merged _ _ _ _ (nd_span i spec s E)). Qed.
Lemma traces_pipeline : traces_on i spec = true ->
  pipelines c !! "traces" = Some (mkPipeline (tracesPipelineReceivers (ni_Tier i)) (batched i spec (TracesProcessors r)) (main_exporters i spec)).
Proof.
  intros Ht. apply (pipeline_merged _ _ _ _ (nd_traces i spec Ht)).
  unfold traces_domain, TracesConfig, tracesExporters, main_exporters, trace_exporters.
  by destruct (post_processors i spec), (has_signal i _), (ni_LoadBalancingNeeded i).
Qed.
Lemma exporting_pipeline : traces_on i spec = true -> post_processors i spec <> [] ->
  pipelines c !! odigosTracesExportingPipelineName
    = Some (mkPipeline [odigosTracesExportingForwardConnectorName] (post_processors i spec) (exporting_exporters i)).
Proof.
  intros Ht Hp. apply (pipeline_merged _ _ _ _ (nd_traces i spec Ht)).
  unfold traces_domain, TracesConfig, tracesExporters, exporting_exporters, trace_exporters.
  by destruct (post_processors i spec), (has_signal i _), (ni_LoadBalancingNeeded i).
Qed.

Lemma metrics_pipeline m : has_signal i MetricsObservabilitySignal = true -> cs_Metrics spec = Some m -> (metricsReceivers m).2 <> [] ->
  pipelines c !! "metrics"
    = Some (mkPipeline (metricsReceivers m).2 (batched i spec (MetricsProcessors r)) [clusterCollectorMetricsExporterName]).
Proof.
  intros Hm Es Hne. apply (pipeline_merged _ _ _ _ (nd_metrics i spec m Hm Es)). unfold MetricsConfig.
  destruct (metricsReceivers m) as [rs [|y names]]; [done|]. by apply lookup_singleton_Some.
Qed.

(** Which pipelines a connector links, and when it is there. *)
Inductive linked : string -> string -> string -> Prop :=
| linked_spans s : span_on i spec = Some s -> linked spanMetricsTracesInConnectorName "traces" spanMetricsPipelineName
| linked_metrics s : span_on i spec = Some s -> linked spanMetricsConnectorName spanMetricsPipelineName spanMetricsExportingPipelineName
| linked_exporting : traces_on i spec = true -> post_processors i spec <> [] ->
    linked odigosTracesExportingForwardConnectorName "traces" odigosTracesExportingPipelineName.

Lemma connector_linked x : is_connector c x -> exists n m, linked x n m.
Proof.
  intros (n & d & Hd & Hx)%(gathered_from connectors); [|apply merged].
  destruct Hd as [| | | | |s E|m E E'|own E|own E|E|E|E E'].
  all: try (exfalso; revert Hx; apply eq_None_not_Some, lookup_empty).
  - apply gm_keys in Hx. cbn in Hx.
    apply elem_of_cons in Hx as [->|[->|[]%elem_of_nil]%elem_of_cons]; eauto using linked.
  - destruct Hx as [v Hv]. unfold MetricsConfig in Hv. by destruct (metricsReceivers m) as [rs []].
  - destruct Hx as [v Hv]. unfold odiglet_domain in Hv. by destruct (_ && _) in Hv.
  - unfold traces_domain, TracesConfig, tracesExporters in Hx.
    destruct (post_processors i spec) eqn:Ep, (has_signal i _), (ni_LoadBalancingNeeded i);
      try (exfalso; revert Hx; apply eq_None_not_Some, lookup_empty);
      apply gm_keys, list_elem_of_singleton in Hx as ->; exists "traces", odigosTracesExportingPipelineName;
      apply linked_exporting; by rewrite ?Ep.
  - destruct Hx as [v Hv]. unfold LogsConfig, getReceivers in Hv. by destruct (_ && _) in Hv.
  - destruct Hx as [v Hv]. unfold ProfilingPipelineConfig in Hv. by rewrite E' in Hv.
Qed.

(** No pipeline uses a connector otherwise. *)
Lemma no_connector l x n m : forallb (fun y => negb (bool_decide (y ∈ node_connectors))) l = true -> linked x n m -> x ∉ l.
Proof.
  rewrite forallb_forall. intros Hl Hx Hin%list_elem_of_In. specialize (Hl x Hin). apply negb_true_iff, bool_decide_eq_false in Hl.
  apply Hl. destruct Hx; apply (bool_decide_unpack _); by vm_compute.
Qed.

Lemma main_exporters_spec x : x ∈ main_exporters i spec ->
  x ∈ [spanMetricsTracesInConnectorName; odigosTracesExportingForwardConnectorName; odigosTracesLoadbalancingExporterName; clusterCollectorTracesExporterName].
Proof.
  unfold main_exporters, trace_exporters, forward_spans.
  destruct (post_processors i spec), (has_signal i TracesObservabilitySignal), (ni_LoadBalancingNeeded i), (span_on i spec);
    cbn [app]; rewrite ?elem_of_cons, ?elem_of_nil; tauto.
Qed.

(** A connector is exported to by one pipeline and received from by one. *)
Lemma connector_exported x n m k : linked x n m -> exported_from c x k -> k = n.
Proof.
  intros Hx (p & Hp%merged_pipeline & Hin).
  destruct Hp as [|s E|s E|m' Hm Es Hne|own Eo|own k Eo Hm Ek|Ht|Ht Hpost|Hl|He Ha]; cbn [Exporters] in Hin;
    try (exfalso; revert Hin; eapply no_connector; [|exact Hx]; reflexivity).
  - destruct Hx; [|done|]; by apply list_elem_of_singleton in Hin.
  - destruct Hx; [done| |done]. exfalso. apply main_exporters_spec in Hin.
    rewrite !elem_of_cons, elem_of_nil in Hin. by destruct_or!.
  - exfalso. revert Hin. eapply no_connector; [|exact Hx]. unfold exporting_exporters, trace_exporters.
    by destruct (has_signal i _), (ni_LoadBalancingNeeded i).
Qed.
Lemma connector_received x n m k : linked x n m -> received_in c x k -> k = m.
Proof.
  intros Hx (p & Hp%merged_pipeline & Hin).
  destruct Hp as [|s E|s E|m' Hm Es Hne|own Eo|own k Eo Hm Ek|Ht|Ht Hpost|Hl|He Ha]; cbn [Receivers] in Hin;
    try (exfalso; revert Hin; eapply no_connector; [|exact Hx]; reflexivity).
  - destruct Hx; [done| |]; by apply list_elem_of_singleton in Hin.
  - destruct Hx; [|done|]; by apply list_elem_of_singleton in Hin.
  - exfalso. revert Hin. eapply no_connector; [|exact Hx]. unfold metricsReceivers.
    by destruct (mcs_AgentsTelemetry m'), (mcs_KubeletStats m'), (mcs_HostMetrics m').
  - exfalso. revert Hin. eapply no_connector; [|exact Hx]. unfold tracesPipelineReceivers. by destruct (IsEnterprise _).
  - destruct Hx; [| |done]; by apply list_elem_of_singleton in Hin.
  - exfalso. revert Hin. eapply no_connector; [|exact Hx]. unfold getReceivers. by destruct (_ && _).
Qed.

Lemma spans_main s : span_on i spec = Some s -> spanMetricsTracesInConnectorName ∈ main_exporters i spec.
Proof. intros E. unfold main_exporters, forward_spans. rewrite E. destruct (post_processors i spec); rewrite elem_of_app; [right|left]; by left. Qed.
Lemma spans_traces s : span_on i spec = Some s -> traces_on i spec = true.
Proof. intros E. unfold traces_on. rewrite E. by rewrite bool_decide_true, orb_true_r. Qed.

Lemma linked_both x n m : linked x n m -> exported_from c x n ∧ received_in c x m ∧ connector_supports x (signal_of n) (signal_of m).
Proof.
  destruct 1 as [s E|s E|Ht Hp].
  - destruct (span_pipelines s E) as [Hs _]. split_and!; [eexists; split; [apply traces_pipeline; by eapply spans_traces|by eapply spans_main]
      |eexists; split; [exact Hs|by left]|reflexivity].
  - destruct (span_pipelines s E) as [Hs Hm]. split_and!; [eexists; split; [exact Hs|by left]
      |eexists; split; [exact Hm|by left]|done].
  - split_and!; [eexists; split; [by apply traces_pipeline|]|eexists; split; [by apply exporting_pipeline|by left]|reflexivity].
    unfold main_exporters. cbn [Exporters]. destruct (post_processors i spec); [done|]. rewrite elem_of_app. right. by left.
Qed.

(** A connector takes its name from nothing else. *)
Lemma linked_unambiguous x n m : linked x n m -> ~ is_receiver c x ∧ ~ is_exporter c x.
Proof.
  intros Hx. split; intros (k & d & Hd & Hs)%gathered_from; try apply merged.
  - destruct (decide (k = "processors")) as [->|Hk]; [by inversion Hd; subst; revert Hs; apply eq_None_not_Some, lookup_empty|].
    destruct (node_domain_within _ _ _ _ Hd Hk) as [Hin Hw]. apply (keys_in_spec _ _ _ (wi_receivers _ _ Hw)) in Hs.
    revert Hs. eapply no_connector; [|exact Hx]. by apply owned_plain.
  - destruct (decide (k = "processors")) as [->|Hk]; [by inversion Hd; subst; revert Hs; apply eq_None_not_Some, lookup_empty|].
    destruct (node_domain_within _ _ _ _ Hd Hk) as [Hin Hw]. apply (keys_in_spec _ _ _ (wi_exporters _ _ Hw)) in Hs.
    revert Hs. eapply no_connector; [|exact Hx]. by apply owned_plain.
Qed.
End Merged.

(** * What the node collector's configuration guarantees

    The merge of the domains only fails for a custom resource whose processor
    cannot be converted or takes a name of the collector's own; otherwise the
    result is one that the collector accepts ([node_config_accepted]), and the
    signals read back from it are those that the group asks for
    ([node_signals_exact]). *)

Section Node.
Context `{GoLibrary} `{GoSortLaws} `{GoMapOrderLaws} (i : NodeInput) (spec : CollectorsGroupSpec).
Abbreviation keys := (processor_key <$> (to_processor <$> ni_Processors i)) (only parsing).

(** ** When the merge succeeds *)

Lemma owned_processors n x : n ∈ owned_names.*1 -> x ∈ ow_processors (owned n) -> x ∈ node_processors.
Proof.
  intros Hn Hx. assert (Hall : Forall (fun n => Forall (fun x => x ∈ node_processors) (ow_processors (owned n))) owned_names.*1).
  { apply (bool_decide_unpack _). by vm_compute. }
  rewrite Forall_forall in Hall. specialize (Hall n Hn). rewrite Forall_forall in Hall. by apply Hall.
Qed.

Lemma within_apart n n' d d' :
  node_domain i spec n d -> node_domain i spec n' d' -> n <> n' -> n <> "processors" -> n' <> "processors" -> apart d d'.
Proof.
  intros Hd Hd' Hne Hn Hn'. destruct (node_domain_within _ _ _ _ Hd Hn) as [Hi Hw].
  destruct (node_domain_within _ _ _ _ Hd' Hn') as [Hi' Hw'].
  destruct (owned_names_apart n n' Hi Hi' Hne) as (D1 & D2 & D3 & D4 & D5 & D6).
  split; [eapply keys_in_disjoint; [apply Hw|apply Hw'|assumption]..|].
  destruct (node_domain_level _ _ _ _ Hd) as [->|]; [|by left].
  destruct (node_domain_level _ _ _ _ Hd') as [->|]; [done|by right; left].
Qed.

Lemma processors_apart n d :
  (forall x, is_Some (ProcessorsConfig (CrdProcessorToConfig (to_processor <$> ni_Processors i)) !! x) -> x ∉ node_processors) ->
  node_domain i spec n d -> n <> "processors" ->
  apart d (with_components ∅ ∅ (ProcessorsConfig (CrdProcessorToConfig (to_processor <$> ni_Processors i))) ∅ ∅ [] ∅).
Proof.
  intros Hfree Hd Hn. destruct (node_domain_within _ _ _ _ Hd Hn) as [Hi Hw]. split; try apply map_disjoint_empty_r; [|by right; left].
  apply map_disjoint_spec. intros x v w Hv Hx. apply (Hfree x); [by exists w|]. apply (owned_processors n); [done|].
  apply (keys_in_spec _ _ _ (wi_processors _ _ Hw)). by exists v.
Qed.

Lemma apart_sym d d' : apart d d' -> apart d' d.
Proof. intros [? ? ? ? ? ? Hl]. split; try by apply map_disjoint_sym. destruct Hl as [|[|]]; auto. Qed.

Lemma node_merge :
  NoDup keys -> (forall x, x ∈ keys -> x ∉ node_processors) -> exists c, MergeConfigs (list_to_map (node_domains i spec)) = inr c.
Proof.
  intros Hnd Hfree. assert (Hf := fun x Hx => Hfree x (ci_keys _ _ (crd_inv_all _ Hnd) x Hx)).
  apply merge_configs_apart; [apply node_domains_names|].
  intros n d n' d' Hd%node_domains_elem Hd'%node_domains_elem Hne.
  destruct (decide (n = "processors")) as [->|Hn]; [|destruct (decide (n' = "processors")) as [->|Hn']].
  - apply apart_sym. inversion Hd; subst. apply (processors_apart n'); auto.
  - inversion Hd'; subst. apply (processors_apart n); auto.
  - by apply (within_apart n n').
Qed.

(** ** The result is accepted *)

Lemma common_service tier x : x ∈ commonService tier -> is_Some (commonExtensions tier !! x).
Proof.
  revert x. apply Forall_forall. unfold commonService, commonExtensions.
  destruct (IsEnterprise tier); repeat (constructor; [by eexists|]); constructor.
Qed.

Lemma domain_service n d x : node_domain i spec n d -> x ∈ service_extensions d -> is_Some (extensions d !! x).
Proof.
  destruct 1 as [| | | | |s E|m E E'|own E|own E|E|E|E E']; try by intros ?%elem_of_nil.
  - apply common_service.
  - by intros ->%list_elem_of_singleton.
  - unfold MetricsConfig. destruct (metricsReceivers m) as [rs []]; by intros ?%elem_of_nil.
  - unfold odiglet_domain. destruct (_ && _); by intros ?%elem_of_nil.
  - unfold traces_domain, TracesConfig, tracesExporters.
    destruct (has_signal i _), (ni_LoadBalancingNeeded i), (post_processors i spec); by intros ?%elem_of_nil.
  - unfold LogsConfig, getReceivers. destruct (_ && _); by intros ?%elem_of_nil.
  - unfold ProfilingPipelineConfig. rewrite E'. by intros ?%elem_of_nil.
Qed.

(** The spans go from the agents' pipeline to the exporting ones. *)
Definition node_rank (n : string) : nat :=
  if decide (n = "traces") then 0 else if decide (n = spanMetricsExportingPipelineName) then 2 else 1.

Lemma node_accepts c : NoDup keys -> MergeConfigs (list_to_map (node_domains i spec)) = inr c -> collector_accepts c.
Proof.
  intros Hk Hc. pose proof (merged i spec c Hc) as Hm. split.
  - intros n p. by apply (pipelines_accepted i spec Hk c Hc).
  - apply Forall_forall. intros x (d & [n Hn]%(domain_elem i spec) & Hx)%(mg_service _ _ Hm).
    eapply gathered; [apply Hm|exact Hn|by eapply domain_service].
  - intros x (n & m & Hl)%(connector_linked i spec c Hc). by eapply linked_unambiguous.
  - intros x k (n & m & Hl)%(connector_linked i spec c Hc) Hx.
    apply (connector_exported i spec c Hc x n m k Hl) in Hx as ->. exists m.
    apply (linked_both i spec c Hc _ _ _ Hl).
  - intros x k (n & m & Hl)%(connector_linked i spec c Hc) Hx.
    apply (connector_received i spec c Hc x n m k Hl) in Hx as ->. exists n.
    destruct (linked_both i spec c Hc _ _ _ Hl) as (? & _ & ?). done.
  - exists node_rank. intros x k k' (n & m & Hl)%(connector_linked i spec c Hc) Hx Hy.
    apply (connector_exported i spec c Hc x n m k Hl) in Hx as ->.
    apply (connector_received i spec c Hc x n m k' Hl) in Hy as ->. destruct Hl; vm_compute; lia.
Qed.
End Node.

Section Result.
Context `{GoLibrary} `{GoSortLaws} `{GoMapOrderLaws}.

(** ** Without a group *)

Lemma base_elem i d : d ∈ (base_domains i).*2 <->
  d = CommonConfig (ni_Tier i) ∨ d = OwnMetricsConfigUi (ni_OdigosNamespace i) OdigosNodeCollectorOwnTelemetryPortDefault.
Proof. unfold base_domains. cbn [fmap list_fmap snd]. rewrite !elem_of_cons, elem_of_nil. tauto. Qed.

Lemma base_names i : NoDup (base_domains i).*1.
Proof. apply (bool_decide_unpack _). by vm_compute. Qed.

Lemma base_merge i : exists c, MergeConfigs (list_to_map (base_domains i)) = inr c.
Proof.
  apply merge_configs_apart; [apply base_names|].
  assert (Ha : apart (CommonConfig (ni_Tier i)) (OwnMetricsConfigUi (ni_OdigosNamespace i) OdigosNodeCollectorOwnTelemetryPortDefault)).
  { split; try apply map_disjoint_empty_l; try apply map_disjoint_empty_r. by left. }
  intros n d n' d' Hd Hd' Hne. unfold base_domains in *. rewrite !elem_of_cons, elem_of_nil in *.
  destruct Hd as [[= -> ->]|[[= -> ->]|[]]], Hd' as [[= -> ->]|[[= -> ->]|[]]]; try done. by apply apart_sym.
Qed.

Lemma base_pipeline i c n p : MergeConfigs (list_to_map (base_domains i)) = inr c ->
  pipelines c !! n = Some p -> ownMetricsPipelinesUi !! n = Some p.
Proof.
  intros Hc%merge_configs_merges; [|apply base_names].
  intros (d & [->| ->]%base_elem & Hp)%(mg_pipelines _ _ Hc); [simpl in Hp; by rewrite lookup_empty in Hp|done].
Qed.

Lemma base_accepts i c : MergeConfigs (list_to_map (base_domains i)) = inr c -> collector_accepts c.
Proof.
  intros Hc. pose proof (merge_configs_merges _ _ (base_names i) Hc) as Hm.
  assert (Hui : forall A (f : Config -> gmap string A) x, gathers f (base_domains i).*2 c ->
    is_Some (f (OwnMetricsConfigUi (ni_OdigosNamespace i) OdigosNodeCollectorOwnTelemetryPortDefault) !! x) -> is_Some (f c !! x)).
  { intros A f x Hf [v Hv]. exists v. apply Hf. eexists. split; [|exact Hv]. apply base_elem. by right. }
  assert (Hno : forall x, ~ is_connector c x).
  { intros x [v (d & [->| ->]%base_elem & Hv)%(mg_connectors _ _ Hm)]; simpl in Hv; by rewrite lookup_empty in Hv. }
  split; try (intros ? ? Hx; by apply Hno in Hx); try (intros ? Hx; by apply Hno in Hx).
  - intros n p Hp%(base_pipeline i c n p Hc). unfold ownMetricsPipelinesUi in Hp.
    apply lookup_singleton_Some in Hp as [<- <-]. split; simpl.
    + split; [done|]. constructor; [|constructor]. left. apply (Hui _ receivers); [apply Hm|by eexists].
    + split; [done|]. constructor; [|constructor]. left. apply (Hui _ exporters); [apply Hm|by eexists].
    + split; [|apply (bool_decide_unpack _); by vm_compute].
      repeat (constructor; [apply (Hui _ processors); [apply Hm|by eexists]|]). constructor.
  - apply Forall_forall. intros x (d & [->| ->]%base_elem & Hx)%(mg_service _ _ Hm); [|by apply elem_of_nil in Hx].
    destruct (common_service _ _ Hx) as [v Hv]. exists v. apply (mg_extensions _ _ Hm). exists (CommonConfig (ni_Tier i)). split; [|exact Hv].
    apply base_elem. by left.
  - exists (fun _ => 0). intros x n m Hx. by apply Hno in Hx.
Qed.

(** ** The errors of the processors *)

Lemma errs_step r p x : is_Some (Errs (crd_step r p) !! x) -> is_Some (Errs r !! x) ∨ exists e, proc_GetConfig p = inl e.
Proof. unfold crd_step. destruct (proc_GetConfig p) as [e|[cfg|]]; [|by left..]. right. by exists e. Qed.

Lemma crd_errs ps x :
  is_Some (Errs (CrdProcessorToConfig ps) !! x) -> exists p e, p ∈ ps ∧ proc_GetConfig p = inl e.
Proof.
  unfold CrdProcessorToConfig. induction ps as [|p ps IH] using rev_ind; cbn [foldl].
  - simpl. by intros [v Hv%lookup_empty_Some].
  - rewrite foldl_snoc. intros [(q & e & Hq & He)%IH|[e He]]%errs_step.
    + exists q, e. split; [set_solver|done].
    + exists p, e. split; [set_solver|done].
Qed.

Lemma first_error_errs errs e : first_error errs = Some e -> exists x, is_Some (errs !! x).
Proof.
  unfold first_error. intros ([x e'] & Hh & _)%fmap_Some. exists x, e'. apply elem_of_map_to_list.
  rewrite <-(map_order_perm (map_to_list errs)). destruct (map_order _) as [|kv l]; [done|]. injection Hh as ->. by left.
Qed.

(** ** The signals *)

Definition is_found (signal : string) (np : string * Pipeline) : bool :=
  bool_decide (OTLPInReceiverName ∈ Receivers np.2) && has_prefix signal np.1.

Lemma signals_found l t m g :
  Forall (fun np => bool_decide (OTLPInReceiverName ∈ Receivers np.2) = true -> np.1 = "traces" ∨ np.1 = "metrics") l ->
  foldl signals_step (t, m, g) l = (t || existsb (is_found "traces") l, m || existsb (is_found "metrics") l, g).
Proof.
  revert t m. induction l as [|[n p] l IH]; intros t m Hl; [by rewrite !orb_false_r|]. apply Forall_cons in Hl as [Hn Hl].
  cbn [foldl existsb].
  assert (Hstep : signals_step (t, m, g) (n, p) = (t || is_found "traces" (n, p), m || is_found "metrics" (n, p), g)).
  { unfold signals_step, is_found. cbn [fst snd] in *. destruct (bool_decide _); cbn [negb andb]; [|by rewrite !orb_false_r].
    destruct Hn as [->| ->]; [done|..]; simpl; by rewrite ?orb_true_r, ?orb_false_r. }
  by rewrite Hstep, IH, !orb_assoc.
Qed.

Definition agents_metrics (i : NodeInput) (spec : CollectorsGroupSpec) : bool :=
  has_signal i MetricsObservabilitySignal && bool_decide (is_Some (cs_Metrics spec ≫= mcs_AgentsTelemetry)).

(** The agents send to two pipelines. *)
Lemma otlp_pipeline i spec n p : node_pipeline i spec n p -> OTLPInReceiverName ∈ Receivers p ->
  n = "traces" ∧ traces_on i spec = true ∨ n = "metrics" ∧ agents_metrics i spec = true.
Proof.
  destruct 1 as [|s E|s E|m Hm Es Hne|own Eo|own k Eo Hm Ek|Ht|Ht Hpost|Hl|He Ha]; cbn [Receivers].
  all: try (by intros ?%list_elem_of_singleton); try by left.
  - unfold agents_metrics, metricsReceivers. rewrite Hm, Es. cbn [mbind option_bind snd]. rewrite !elem_of_app. intros Hin. right.
    split; [done|]. apply bool_decide_eq_true. destruct (mcs_AgentsTelemetry m); [by eexists|]. exfalso.
    destruct (mcs_KubeletStats m), (mcs_HostMetrics m); rewrite ?list_elem_of_singleton, ?elem_of_nil in Hin; by destruct_or!.
  - unfold getReceivers. destruct (_ && _); by intros ?%list_elem_of_singleton.
Qed.

Lemma found_spec c signal : existsb (is_found signal) (map_order (map_to_list (pipelines c))) = true <->
  exists n p, pipelines c !! n = Some p ∧ OTLPInReceiverName ∈ Receivers p ∧ has_prefix signal n = true.
Proof.
  rewrite (existsb_permuted _ _ (map_to_list (pipelines c))) by apply map_order_perm. rewrite existsb_exists. unfold is_found. split.
  - intros ([n p] & Hin%list_elem_of_In%elem_of_map_to_list & [Hb%bool_decide_eq_true Hp]%andb_true_iff). by exists n, p.
  - intros (n & p & Hc & Hr & Hp). exists (n, p). split; [by apply list_elem_of_In, elem_of_map_to_list|].
    apply andb_true_iff. split; [by apply bool_decide_eq_true|done].
Qed.

Lemma node_signals i spec c :
  MergeConfigs (list_to_map (node_domains i spec)) = inr c ->
  getSignalsFromOtelcolConfig c
  = (if traces_on i spec then [TracesObservabilitySignal] else [])
    ++ (if agents_metrics i spec then [MetricsObservabilitySignal] else []).
Proof.
  intros Hc. unfold getSignalsFromOtelcolConfig. rewrite signals_found.
  2:{ apply Forall_forall. intros [n p] Hin Hr%bool_decide_eq_true. rewrite map_order_perm in Hin.
      apply elem_of_map_to_list, (merged_pipeline i spec c Hc) in Hin. destruct (otlp_pipeline _ _ _ _ Hin Hr) as [[? _]|[? _]]; auto. }
  cbn [orb]. rewrite app_nil_r. f_equal.
  - enough (existsb (is_found "traces") (map_order (map_to_list (pipelines c))) = traces_on i spec) as -> by done.
    apply eq_true_iff_eq. rewrite found_spec. split.
    + intros (n & p & Hp%(merged_pipeline i spec c Hc) & Hr & Hn).
      destruct (otlp_pipeline _ _ _ _ Hp Hr) as [[_ ?]|[-> _]]; done.
    + intros Ht. do 2 eexists. split; [by apply (traces_pipeline i spec c Hc)|]. split; [by left|done].
  - enough (existsb (is_found "metrics") (map_order (map_to_list (pipelines c))) = agents_metrics i spec) as -> by done.
    apply eq_true_iff_eq. rewrite found_spec. split.
    + intros (n & p & Hp%(merged_pipeline i spec c Hc) & Hr & Hn).
      destruct (otlp_pipeline _ _ _ _ Hp Hr) as [[-> _]|[_ ?]]; done.
    + unfold agents_metrics. rewrite andb_true_iff, bool_decide_eq_true. intros [Hm (a & (m & Es & Ea)%bind_Some)].
      assert (Hin : OTLPInReceiverName ∈ (metricsReceivers m).2) by (unfold metricsReceivers; rewrite Ea; by left).
      exists "metrics". eexists. split; [apply (metrics_pipeline i spec c Hc m Hm Es)|by split].
      intros E. rewrite E in Hin. by apply elem_of_nil in Hin.
Qed.

Lemma base_signals i c : MergeConfigs (list_to_map (base_domains i)) = inr c -> getSignalsFromOtelcolConfig c = [].
Proof.
  intros Hc. assert (Hno : Forall (fun np : string * Pipeline => bool_decide (OTLPInReceiverName ∈ Receivers np.2) = false)
                             (map_order (map_to_list (pipelines c)))).
  { apply Forall_forall. intros [n p] Hin. rewrite map_order_perm in Hin. apply elem_of_map_to_list, (base_pipeline i c n p Hc) in Hin.
    unfold ownMetricsPipelinesUi in Hin. by apply lookup_singleton_Some in Hin as [<- <-]. }
  unfold getSignalsFromOtelcolConfig. rewrite signals_found by (eapply Forall_impl; [exact Hno|]; intros np E; by rewrite E).
  assert (Hf : forall signal, existsb (is_found signal) (map_order (map_to_list (pipelines c))) = false).
  { intros signal. apply not_true_iff_false. rewrite existsb_exists. intros (np & Hin%list_elem_of_In & Hb).
    rewrite Forall_forall in Hno. unfold is_found in Hb. by rewrite (Hno np Hin) in Hb. }
  by rewrite !Hf.
Qed.

(** ** The theorems *)

Lemma domains_accepted i :
  NoDup (processor_key <$> (to_processor <$> ni_Processors i)) ->
  match calculateCollectorConfigDomains i with
  | inr (_, c) => collector_accepts c
  | inl _ => is_Some (ni_Group i) ∧ exists p, p ∈ to_processor <$> ni_Processors i
      ∧ ((exists e, proc_GetConfig p = inl e) ∨ processor_key p ∈ node_processors)
  end.
Proof.
  intros Hk. unfold calculateCollectorConfigDomains, merge_domains. destruct (ni_Group i) as [spec|].
  - destruct (first_error _) as [err|] eqn:Ef.
    + apply first_error_errs in Ef as [x (p & e & Hp & He)%crd_errs]. split; [by eexists|]. exists p. split; [done|]. left. by exists e.
    + fold (node_domains i spec). destruct (MergeConfigs _) as [err|c] eqn:Em; [|by apply (node_accepts i spec)].
      split; [by eexists|]. destruct (decide (Exists (fun p => processor_key p ∈ node_processors) (to_processor <$> ni_Processors i))) as [(p & Hp & Hin)%Exists_exists|Hno].
      * exists p. split; [done|by right].
      * exfalso. destruct (node_merge i spec Hk) as [c Hc]; [|by rewrite Hc in Em].
        intros x (p & -> & Hp)%list_elem_of_fmap Hin. apply Hno, Exists_exists. by exists p.
  - destruct (base_merge i) as [c Hc]. rewrite Hc. by apply (base_accepts i).
Qed.

(** A processor that lists its roles once runs once. *)
Lemma role_matches_once role p :
  NoDup (pr_CollectorRoles p) ->
  role_matches role p = if negb (pr_Disabled p) && bool_decide (role ∈ pr_CollectorRoles p) then [p] else [].
Proof.
  unfold role_matches. destruct (pr_Disabled p); [done|]. cbn [negb andb]. intros Hnd.
  induction Hnd as [|r l Hr _ IH]; [done|]. rewrite filter_cons. destruct (decide (r = role)) as [->|Hne].
  - rewrite bool_decide_eq_true_2 by left.
    assert (filter (fun r => r = role) l = []) as ->; [|done].
    destruct (filter _ l) as [|x k] eqn:E; [done|]. exfalso. apply Hr.
    assert (x ∈ filter (fun r => r = role) l) as [Hx Hin]%list_elem_of_filter by (rewrite E; left). by rewrite <-Hx.
  - rewrite IH. assert (bool_decide (role ∈ l) = bool_decide (role ∈ r :: l)) as ->; [|done].
    apply bool_decide_ext. set_solver.
Qed.

Lemma role_matches_elem role ps p :
  p ∈ ps ≫= role_matches role -> p ∈ ps ∧ pr_Disabled p = false ∧ role ∈ pr_CollectorRoles p.
Proof.
  intros (q & Hp & Hq)%list_elem_of_bind. unfold role_matches in Hp. destruct (pr_Disabled q) eqn:Hd; [by apply not_elem_of_nil in Hp|].
  apply list_elem_of_fmap in Hp as (r & -> & [-> Hr]%list_elem_of_filter). done.
Qed.

Lemma roles_once role ps :
  (forall p, p ∈ ps -> NoDup (pr_CollectorRoles p)) -> NoDup (processor_key <$> (to_processor <$> ps)) ->
  NoDup (processor_key <$> (to_processor <$> (ps ≫= role_matches role))).
Proof.
  induction ps as [|p ps IH]; intros Hr Hk; [constructor|]. rewrite !fmap_cons in Hk. apply NoDup_cons in Hk as [Hp Hk].
  rewrite bind_cons, role_matches_once by (apply Hr; left).
  assert (Hps : NoDup (processor_key <$> (to_processor <$> (ps ≫= role_matches role)))) by (apply IH; [intros q Hq; apply Hr; by right|done]).
  destruct (_ && _); [|done]. simpl. constructor; [|done]. intros Hin. apply Hp.
  apply list_elem_of_fmap in Hin as (y & Ey & (q & -> & Hq)%list_elem_of_fmap). apply role_matches_elem in Hq as [Hq _].
  rewrite Ey. by do 2 apply list_elem_of_fmap_2.
Qed.

(** C12: For processors of distinct names that list no role twice (one that
    does would run twice) the configuration that is written for the node
    collectors is one that the collector accepts (every receiver, processor
    and exporter of a pipeline is defined, no processor runs twice, the
    connectors link pipelines of signals that they connect, without a cycle).
    Without a group it can always be built; with one it fails only when an
    enabled processor of the node collectors has no configuration or takes
    the name of one of the collector's own. *)
Theorem node_config_accepted odigosNamespace tier onGKE sources clusterCollectorGroup receiverSignals
    (allProcessors : list Processor) datacollection conf :
  NoDup (processor_key <$> (to_processor <$> allProcessors)) ->
  (forall p, p ∈ allProcessors -> NoDup (pr_CollectorRoles p)) ->
  match SyncConfigMap odigosNamespace tier onGKE sources clusterCollectorGroup receiverSignals allProcessors
          datacollection conf with
  | inr (_, c) => collector_accepts c
  | inl _ => is_Some datacollection ∧ exists p, p ∈ allProcessors
      ∧ pr_Disabled p = false ∧ CollectorsGroupRoleNodeCollector ∈ pr_CollectorRoles p
      ∧ ((exists e, pr_GetConfig p = inl e) ∨ processor_key (to_processor p) ∈ node_processors)
  end.
Proof.
  intros Hk Hr. unfold SyncConfigMap.
  match goal with |- context [calculateCollectorConfigDomains ?i] => pose proof (domains_accepted i) as Ha end.
  cbn [ni_Processors ni_Group] in Ha. unfold FilterAndSortProcessorsByOrderHint in *.
  assert (Hnd : NoDup (processor_key <$> (to_processor <$>
    SortFunc order_hint_compare (allProcessors ≫= role_matches CollectorsGroupRoleNodeCollector)))).
  { rewrite SortFunc_perm. by apply roles_once. }
  specialize (Ha Hnd).
  destruct (calculateCollectorConfigDomains _) as [e|[domains c]]; [|done].
  destruct Ha as (Hg & p & (q & -> & Hq)%list_elem_of_fmap & Hw). split; [done|]. rewrite SortFunc_perm in Hq.
  apply role_matches_elem in Hq as (Hq & Hd & Hrole). by exists q.
Qed.

(** C13: The signals that are read back from the node collectors'
    configuration are those that the agents can send: traces when the gateway
    receives them or span metrics are computed from them, metrics when the
    gateway receives them and the agents' are collected, and never logs. *)
Theorem node_signals_exact i domains c :
  calculateCollectorConfigDomains i = inr (domains, c) ->
  getSignalsFromOtelcolConfig c
  = match ni_Group i with
    | Some spec =>
        (if has_signal i TracesObservabilitySignal || bool_decide (is_Some (span_settings i spec))
         then [TracesObservabilitySignal] else [])
        ++ (if has_signal i MetricsObservabilitySignal && bool_decide (is_Some (cs_Metrics spec ≫= mcs_AgentsTelemetry))
            then [MetricsObservabilitySignal] else [])
    | None => []
    end.
Proof.
  unfold calculateCollectorConfigDomains, merge_domains. destruct (ni_Group i) as [spec|].
  - destruct (first_error _); [done|]. fold (node_domains i spec).
    destruct (MergeConfigs _) as [err|c'] eqn:Em; [done|]. intros [= _ <-]. by apply node_signals.
  - destruct (MergeConfigs _) as [err|c'] eqn:Em; [done|]. intros [= _ <-]. by apply (base_signals i).
Qed.
End Result.

(** ** Witnesses *)

#[local] Existing Instances sample_library order_forward order_forward_laws.

(** Every domain is there: the agent is of the enterprise tier, spans are
    counted for all spans, and a processor runs in every pipeline. *)
Definition sample_node_spec : CollectorsGroupSpec :=
  mkGroupSpec CollectorsGroupRoleNodeCollector 55682 (mkResources None None 256 512 250 500 462 96 400) None [] [] None
    (Some (mkDetectors (Some (Some true)) None None None None)) None None
    (Some (mkMetricsCollection
       (Some (mkSpanMetricsSource None "60s" "5m" [] false [] None [] [] (Some SpanMetricsModeAllSpans)))
       (Some (mkHostMetrics None "10s")) (Some (mkKubeletStats None "10s")) (Some (mkOwnMetrics true true "10s")) (Some tt)))
    None None "" None None None.
Definition sample_node : NodeInput :=
  mkNodeInput "odigos-system" (Some sample_node_spec) []
    [TracesObservabilitySignal; MetricsObservabilitySignal; LogsObservabilitySignal]
    [mkProcessor "early" "odigosurltemplate" false [TracesObservabilitySignal; LogsObservabilitySignal]
       [CollectorsGroupRoleNodeCollector] 1 (inr (Some ∅));
     mkProcessor "late" "odigossampling" false [TracesObservabilitySignal; ProfilesObservabilitySignal]
       [CollectorsGroupRoleNodeCollector] 20 (inr (Some ∅))]
    false true (Some (mkProfilingSettings (Some true) None None None)) "onprem".

Lemma sample_node_keys : NoDup (processor_key <$> (to_processor <$> ni_Processors sample_node)).
Proof. apply (bool_decide_unpack _). by vm_compute. Qed.

Lemma sample_node_built : match calculateCollectorConfigDomains sample_node with inr _ => true | inl _ => false end = true.
Proof. by vm_compute. Qed.

(** What is written for the processors of [sample_node]. *)
Definition sample_written : error + (gmap string Config * Config) :=
  SyncConfigMap "odigos-system" "onprem" false [] sample_node_spec (ni_ClusterCollectorSignals sample_node)
    (ni_Processors sample_node) (Some sample_node_spec) None.

Lemma sample_written_built : match sample_written with inr _ => true | inl _ => false end = true.
Proof. by vm_compute. Qed.

Lemma node_config_accepted_witness :
  exists domains c, sample_written = inr (domains, c) ∧ collector_accepts c.
Proof.
  assert (Hroles : forall p, p ∈ ni_Processors sample_node -> NoDup (pr_CollectorRoles p)).
  { apply Forall_forall. by apply (bool_decide_unpack _). }
  pose proof (node_config_accepted "odigos-system" "onprem" false [] sample_node_spec
    (ni_ClusterCollectorSignals sample_node) (ni_Processors sample_node) (Some sample_node_spec) None
    sample_node_keys Hroles) as Ha. revert Ha. fold sample_written. generalize sample_written_built.
  destruct sample_written as [|[domains c]]; [done|]. intros _ Ha. by exists domains, c.
Defined.

Lemma node_signals_exact_witness :
  exists domains c, calculateCollectorConfigDomains sample_node = inr (domains, c)
    ∧ getSignalsFromOtelcolConfig c = [TracesObservabilitySignal; MetricsObservabilitySignal].
Proof.
  pose proof (node_signals_exact sample_node) as Hs. revert Hs. generalize sample_node_built.
  destruct (calculateCollectorConfigDomains sample_node) as [|[domains c]]; [done|]. intros _ Hs. exists domains, c.
  split; [done|]. rewrite (Hs domains c eq_refl). by vm_compute.
Defined.
