(* ===== verification/UrlTemplate.v ===== *)
(** * Path rules (src/common/urltemplate)

    A rule such as "/users/{id}/*" is parsed into segments and matched against
    paths, exactly or as a prefix.  Rules without a template or a wildcard are
    matched as strings instead; [path_match_segmentwise] shows that this is the
    same.  [ParseUserInputRuleString] never returns an error: it is a function
    of the text here. *)

From Stdlib Require Import Ascii.
From S2P Require Import Prelude.
From S2P Require Import GoStrings.

(** ** Paths (path.go) *)

(** A path without its leading slash, and whether there was one. *)
Definition strip_slash (path : string) : string :=
  match path with String c rest => if decide (c = "/"%char) then rest else path | EmptyString => path end.
Definition leading_slash (path : string) : bool := has_prefix "/" path.

Definition path_segments (path : string) : list string :=
  if decide (path = "") then [""] else split "/" path.

Definition SplitPath (path : string) : list string * bool :=
  (path_segments (strip_slash path), leading_slash path).

(** ** Rules (rule.go) *)

Record RulePathSegment := mkSegment { Wildcard : bool; StaticString : string; TemplateName : string }.
Definition wildcard_segment : RulePathSegment := mkSegment true "" "".
Definition static_segment (s : string) : RulePathSegment := mkSegment false s "".
Definition template_segment (name : string) : RulePathSegment := mkSegment false "" name.

Record PathRule := mkPathRule
  { Segments : list RulePathSegment;
    Prefix : bool;
    AllStatic : bool;
    StaticPath : string }.
Definition no_rule : PathRule := mkPathRule [] false false "".

Definition Empty (r : PathRule) : bool := negb (nonempty (Segments r)).

Definition parseRuleTemplateString (ruleTemplateString : string) : string :=
  let templateName := trim_space ruleTemplateString in
  if decide (templateName = "") then "id" else templateName.

(** The text between "{" and "}", of a segment that has both. *)
Definition braced (segment : string) : option string :=
  match segment with
  | String c rest =>
      if decide (c = "{"%char) then
        match split_last "}" rest with
        | Some (inner, "") => Some inner
        | _ => None
        end
      else None
  | EmptyString => None
  end.

Definition parse_segment (segment : string) : RulePathSegment :=
  if decide (segment = "*") then wildcard_segment
  else match braced segment with
       | Some inner => template_segment (parseRuleTemplateString inner)
       | None => static_segment segment
       end.

Definition is_static (segment : string) : bool :=
  negb (bool_decide (segment = "*")) && negb (bool_decide (is_Some (braced segment))).

Definition ParseUserInputRuleString (userInputRule : string) (prefix : bool) : PathRule :=
  let segments := split "/" userInputRule in
  let segments := if has_prefix "/" userInputRule then drop 1 segments else segments in
  let allStatic := forallb is_static segments in
  mkPathRule (parse_segment <$> segments) prefix allStatic (if allStatic then join "/" segments else "").

(** ** Matching (match.go) *)

Definition matchStaticPath (r : PathRule) (path : string) : bool :=
  if negb (Prefix r) then bool_decide (path = StaticPath r)
  else if decide (StaticPath r = "") then true
  else if negb (has_prefix (StaticPath r) path) then false
  else bool_decide (String.length path = String.length (StaticPath r))
       || bool_decide (String.get (String.length (StaticPath r)) path = Some "/"%char).

(** Called with at least as many path segments as the rule has. *)
Fixpoint match_segments (segments : list RulePathSegment) (pathSegments : list string) : bool :=
  match segments, pathSegments with
  | s :: segments, p :: pathSegments =>
      if Wildcard s || negb (bool_decide (TemplateName s = "")) then match_segments segments pathSegments
      else if decide (StaticString s = p) then match_segments segments pathSegments else false
  | [], _ => true
  | _ :: _, [] => false
  end.

Definition isPathSegmentsMatching (r : PathRule) (pathSegments : list string) : bool :=
  if Prefix r
  then if decide (length pathSegments < length (Segments r)) then false else match_segments (Segments r) pathSegments
  else if decide (length (Segments r) <> length pathSegments) then false else match_segments (Segments r) pathSegments.

Definition IsPathSegmentsMatching (r : PathRule) (pathSegments : list string) : bool :=
  if AllStatic r then matchStaticPath r (join "/" pathSegments) else isPathSegmentsMatching r pathSegments.

Definition IsPathMatching (r : PathRule) (path : string) : bool :=
  let path := strip_slash path in
  if AllStatic r then matchStaticPath r path else isPathSegmentsMatching r (path_segments path).

(** ** Lemmas *)

(** A segment of a path is one that a segment of a rule stands for. *)
Definition segment_matches (s : RulePathSegment) (p : string) : Prop :=
  Wildcard s = true ∨ TemplateName s <> "" ∨ StaticString s = p.

Definition segments_match (prefix : bool) (segments : list RulePathSegment) (path : list string) : Prop :=
  exists matched rest, path = matched ++ rest ∧ Forall2 segment_matches segments matched ∧ (prefix = true ∨ rest = []).

Lemma match_segments_spec segments path :
  match_segments segments path = true <-> exists matched rest, path = matched ++ rest ∧ Forall2 segment_matches segments matched.
Proof.
  revert path. induction segments as [|s segments IH]; intros path; simpl.
  - split; [|done]. intros _. exists [], path. split; [done|constructor].
  - destruct path as [|p path]; [split; [done|]|].
    + intros (matched & rest & E & H). inversion H; subst. done.
    + assert (Hs : (exists matched rest, p :: path = matched ++ rest ∧ Forall2 segment_matches (s :: segments) matched)
                   <-> segment_matches s p ∧ match_segments segments path = true).
      { rewrite IH. split.
        - intros (matched & rest & E & H). inversion H as [|? q ? matched']; subst. injection E as -> ->. eauto.
        - intros [Hs (matched & rest & -> & H)]. exists (p :: matched), rest. split; [done|by constructor]. }
      rewrite Hs. unfold segment_matches. clear Hs IH.
      destruct (Wildcard s); simpl; [naive_solver|]. case_bool_decide; simpl; [|naive_solver]. case_decide; naive_solver.
Qed.

Lemma isPathSegmentsMatching_spec r path :
  isPathSegmentsMatching r path = true <-> segments_match (Prefix r) (Segments r) path.
Proof.
  unfold isPathSegmentsMatching, segments_match. destruct (Prefix r).
  - case_decide as Hl.
    + split; [done|]. intros (matched & rest & -> & H & _). apply Forall2_length in H. rewrite length_app in Hl. lia.
    + rewrite match_segments_spec. naive_solver.
  - case_decide as Hl.
    + split; [done|]. intros (matched & rest & -> & H & [?| ->]); [done|]. apply Forall2_length in H. rewrite app_nil_r in Hl. done.
    + rewrite match_segments_spec. split.
      * intros (matched & rest & E & H). exists matched, rest. split_and!; [done|done|]. right.
        apply Forall2_length in H. assert (Hn : length (Segments r) = length path) by lia. rewrite E, length_app in Hn.
        destruct rest; [done|simpl in Hn; lia].
      * naive_solver.
Qed.

Lemma path_segments_split path : path_segments path = split "/" path.
Proof. unfold path_segments. by case_decide as E; [subst|]. Qed.

Lemma rule_segments s : (if has_prefix "/" s then drop 1 (split "/" s) else split "/" s) = split "/" (strip_slash s).
Proof.
  destruct s as [|c s]; [done|]. cbn [has_prefix strip_slash]. rewrite andb_true_r.
  destruct (decide (c = "/"%char)) as [->|Hc]; [by rewrite bool_decide_eq_true_2|by rewrite bool_decide_eq_false_2].
Qed.

Lemma parsed_segments s prefix : Segments (ParseUserInputRuleString s prefix) = parse_segment <$> path_segments (strip_slash s).
Proof. rewrite path_segments_split, <-rule_segments. done. Qed.

Lemma static_match segs matched : Forall2 segment_matches (static_segment <$> segs) matched <-> matched = segs.
Proof.
  revert matched. induction segs as [|x segs IH]; intros matched; (split; [intros H; inversion H as [|? ? ? ? Hx Hrest]; subst|intros ->]).
  - done.
  - constructor.
  - apply IH in Hrest as ->. unfold segment_matches in Hx. simpl in Hx. f_equal. naive_solver.
  - constructor; [right; by right|]. by apply IH.
Qed.

Lemma parse_static segs : forallb is_static segs = true -> parse_segment <$> segs = static_segment <$> segs.
Proof.
  intros Hs. apply list_fmap_ext. intros i x Hx. rewrite forallb_forall in Hs.
  specialize (Hs x (proj1 (list_elem_of_In _ _) (list_elem_of_lookup_2 _ _ _ Hx))). unfold is_static in Hs.
  apply andb_true_iff in Hs as [H1 H2]. apply negb_true_iff, bool_decide_eq_false in H1. apply negb_true_iff, bool_decide_eq_false in H2.
  unfold parse_segment. rewrite decide_False by done. destruct (braced x); [by destruct H2|done].
Qed.

Lemma str_get_app s t n : String.get (String.length s + n) (s +:+ t) = String.get n t.
Proof. induction s as [|c s IH]; simpl; done. Qed.
Lemma str_length_0 s : String.length s = 0 -> s = "".
Proof. by destruct s. Qed.

Lemma has_prefix_at p s :
  has_prefix p s = true ∧ (String.length s = String.length p ∨ String.get (String.length p) s = Some "/"%char)
  <-> s = p ∨ exists t, s = p +:+ String "/" t.
Proof.
  rewrite has_prefix_spec. split.
  - intros [[t ->] [Hl|Hg]].
    + left. rewrite str_length_app in Hl. assert (t = "") as -> by (apply str_length_0; lia). by rewrite str_app_nil_r.
    + right. rewrite <-(Nat.add_0_r (String.length p)), str_get_app in Hg. destruct t as [|c t]; [done|]. injection Hg as ->. by exists t.
  - intros [->|[t ->]].
    + split; [exists ""; by rewrite str_app_nil_r|by left].
    + split; [by eexists|right]. by rewrite <-(Nat.add_0_r (String.length p)), str_get_app.
Qed.

Lemma join_app sep l l' : l <> [] -> l' <> [] -> join sep (l ++ l') = join sep l +:+ sep +:+ join sep l'.
Proof.
  induction l as [|x l IH]; [done|]. intros _ Hl'. destruct l as [|y l].
  - destruct l'; [done|]. simpl. done.
  - cbn [app]. change (join sep (x :: y :: l ++ l')) with (x +:+ sep +:+ join sep ((y :: l) ++ l')).
    rewrite IH by done. change (join sep (x :: y :: l)) with (x +:+ sep +:+ join sep (y :: l)). by rewrite !str_app_assoc.
Qed.

Lemma split_app_slash a t : split "/" (a +:+ String "/" t) = split "/" a ++ split "/" t.
Proof.
  induction a as [|c a IH]; [by apply (split_cons "/" "")|]. rewrite str_app_cons. cbn [split].
  destruct (decide (c = "/"%char)) as [->|Hc]; [by rewrite IH|]. rewrite IH. pose proof (split_nonempty "/" a) as Hn.
  by destruct (split "/" a).
Qed.

(** A path that starts with some segments. *)
Lemma path_prefix segs path : segs <> [] -> (forall x, x ∈ segs -> has_byte "/" x = false) ->
  (exists rest, split "/" path = segs ++ rest) <-> path = join "/" segs ∨ exists t, path = join "/" segs +:+ String "/" t.
Proof.
  intros Hne Hs. split.
  - intros [rest E]. rewrite <-(join_split "/" path), E. destruct rest as [|x rest]; [left; by rewrite app_nil_r|right].
    rewrite join_app by done. by exists (join "/" (x :: rest)).
  - intros [->|[t ->]]; [exists []; rewrite app_nil_r; by apply (split_join "/")|]. exists (split "/" t). rewrite split_app_slash.
    f_equal. by apply (split_join "/").
Qed.

Lemma match_static r path segs :
  segs <> [] -> (forall x, x ∈ segs -> has_byte "/" x = false) -> StaticPath r = join "/" segs ->
  matchStaticPath r path = true
  <-> Prefix r = true ∧ StaticPath r = "" ∨ segments_match (Prefix r) (static_segment <$> segs) (split "/" path).
Proof.
  intros Hne Hs Es. unfold matchStaticPath, segments_match. setoid_rewrite static_match. rewrite Es.
  destruct (Prefix r); cbn [negb].
  - case_decide as E0; [naive_solver|]. pose proof (has_prefix_at (join "/" segs) path) as Hp. pose proof (path_prefix segs path Hne Hs) as Hq.
    destruct (has_prefix (join "/" segs) path); cbn [negb]; rewrite ?orb_true_iff, ?bool_decide_eq_true in *; naive_solver.
  - rewrite bool_decide_eq_true. split.
    + intros ->. right. exists segs, []. rewrite app_nil_r. split_and!; [|done|by right]. by apply (split_join "/").
    + intros [[? ?]|(matched & rest & E & -> & [?| ->])]; [done..|]. rewrite app_nil_r in E. by rewrite <-(join_split "/" path), E.
Qed.

(** The two ways to call it agree. *)
Lemma matching_segments r path : IsPathMatching r path = IsPathSegmentsMatching r (SplitPath path).1.
Proof. unfold IsPathSegmentsMatching, IsPathMatching, SplitPath. cbn [fst]. by rewrite path_segments_split, (join_split "/"). Qed.

Lemma rule_matches_segments rule prefix ps :
  ps <> [] -> (forall x, x ∈ ps -> has_byte "/" x = false) ->
  IsPathSegmentsMatching (ParseUserInputRuleString rule prefix) ps = true
  <-> (prefix = true ∧ strip_slash rule = "")
      ∨ segments_match prefix (parse_segment <$> path_segments (strip_slash rule)) ps.
Proof.
  intros Hne Hps. unfold ParseUserInputRuleString. rewrite rule_segments. unfold IsPathSegmentsMatching. rewrite path_segments_split.
  set (segs := split "/" (strip_slash rule)). assert (Hj : join "/" segs = strip_slash rule) by apply join_split.
  assert (Hs : forall x, x ∈ segs -> has_byte "/" x = false) by (intros x; apply split_part).
  cbn [AllStatic fst]. destruct (forallb is_static segs) eqn:Ea.
  - rewrite (match_static _ _ segs); [|apply split_nonempty|done|done]. cbn [Prefix StaticPath].
    rewrite (split_join "/" ps) by done. rewrite parse_static by done. by rewrite Hj.
  - rewrite isPathSegmentsMatching_spec. cbn [Prefix Segments]. split; [naive_solver|].
    intros [[_ E]|H]; [|done]. exfalso. unfold segs in Ea. by rewrite E in Ea.
Qed.

Lemma split_path_parts path : (SplitPath path).1 <> [] ∧ forall x, x ∈ (SplitPath path).1 -> has_byte "/" x = false.
Proof. unfold SplitPath. cbn [fst]. rewrite path_segments_split. split; [apply split_nonempty|apply split_part]. Qed.

(** C24: A rule matches a path exactly when its segments match the path's, one
    by one (a wildcard and a template match any segment; the whole path, or its
    first segments for a prefix): the comparison of whole strings, used for
    rules without wildcards and templates, is only a faster way.  The prefix
    "/" is the exception: it matches every path. *)
Theorem path_match_segmentwise rule prefix path :
  IsPathMatching (ParseUserInputRuleString rule prefix) path = true
  <-> (prefix = true ∧ strip_slash rule = "")
      ∨ segments_match prefix (parse_segment <$> path_segments (strip_slash rule)) (SplitPath path).1.
Proof. rewrite matching_segments. apply rule_matches_segments; apply split_path_parts. Qed.

Example match_ex :
  IsPathMatching (ParseUserInputRuleString "/users/{id}/*" false) "/users/7/posts" = true
  ∧ IsPathMatching (ParseUserInputRuleString "/users/{id}/*" false) "/users/7" = false
  ∧ IsPathMatching (ParseUserInputRuleString "users" true) "/users/7" = true
  ∧ IsPathMatching (ParseUserInputRuleString "users" true) "/users7" = false.
Proof. by vm_compute. Qed.
