(* ===== verification/Regexp.v ===== *)
(** * Regular expressions

    The fixed patterns of the code are terms of [regex], matched by
    derivatives ([accepts]); [accepts_spec] shows that this decides the
    language of the pattern ([matches]).  Patterns that a user supplies are
    texts, for [regexp_match] of GoLib. *)

From Stdlib Require Import Ascii.
From S2P Require Import Prelude.
From S2P Require Import GoStrings.
From S2P Require Import UrlTemplate.

Inductive regex :=
| RNone
| REps
| RChar (p : ascii -> bool)
| RAlt (r1 r2 : regex)
| RSeq (r1 r2 : regex)
| RStar (r : regex).

(** ** The language *)

Inductive matches : regex -> string -> Prop :=
| m_eps : matches REps ""
| m_char p c : p c = true -> matches (RChar p) (String c "")
| m_alt_l r1 r2 s : matches r1 s -> matches (RAlt r1 r2) s
| m_alt_r r1 r2 s : matches r2 s -> matches (RAlt r1 r2) s
| m_seq r1 r2 s1 s2 : matches r1 s1 -> matches r2 s2 -> matches (RSeq r1 r2) (s1 +:+ s2)
| m_star_nil r : matches (RStar r) ""
| m_star r s1 s2 : matches r s1 -> matches (RStar r) s2 -> matches (RStar r) (s1 +:+ s2).

(** ** Matching *)

(** Sums and products that are trivial are not built. *)
Definition alt (r1 r2 : regex) : regex :=
  match r1, r2 with RNone, r => r | r, RNone => r | _, _ => RAlt r1 r2 end.
Definition seq (r1 r2 : regex) : regex :=
  match r1, r2 with RNone, _ => RNone | _, RNone => RNone | REps, r => r | _, _ => RSeq r1 r2 end.

Fixpoint nullable (r : regex) : bool :=
  match r with
  | RNone | RChar _ => false
  | REps | RStar _ => true
  | RAlt r1 r2 => nullable r1 || nullable r2
  | RSeq r1 r2 => nullable r1 && nullable r2
  end.

Fixpoint der (c : ascii) (r : regex) : regex :=
  match r with
  | RNone | REps => RNone
  | RChar p => if p c then REps else RNone
  | RAlt r1 r2 => alt (der c r1) (der c r2)
  | RSeq r1 r2 => if nullable r1 then alt (seq (der c r1) r2) (der c r2) else seq (der c r1) r2
  | RStar r1 => seq (der c r1) (RStar r1)
  end.

Fixpoint accepts (r : regex) (s : string) : bool :=
  match s with EmptyString => nullable r | String c s => accepts (der c r) s end.

(** *** Correctness *)

Lemma matches_none s : ~ matches RNone s.
Proof. inversion 1. Qed.
Lemma matches_alt r1 r2 s : matches (RAlt r1 r2) s <-> matches r1 s ∨ matches r2 s.
Proof. split; [inversion 1; auto|intros [?|?]; by constructor]. Qed.
Lemma matches_seq r1 r2 s : matches (RSeq r1 r2) s <-> exists s1 s2, s = s1 +:+ s2 ∧ matches r1 s1 ∧ matches r2 s2.
Proof. split; [inversion 1; subst; eauto|intros (s1 & s2 & -> & ? & ?); by constructor]. Qed.
Lemma matches_eps s : matches REps s <-> s = "".
Proof. split; [by inversion 1|intros ->; constructor]. Qed.
Lemma matches_char p s : matches (RChar p) s <-> exists c, s = String c "" ∧ p c = true.
Proof. split; [inversion 1; eauto|intros (c & -> & ?); by constructor]. Qed.

Lemma alt_spec r1 r2 s : matches (alt r1 r2) s <-> matches r1 s ∨ matches r2 s.
Proof.
  pose proof (matches_none s). destruct r1, r2; cbn [alt]; rewrite ?matches_alt; tauto.
Qed.
Lemma seq_spec r1 r2 s : matches (seq r1 r2) s <-> matches (RSeq r1 r2) s.
Proof.
  assert (Hl : forall r, matches (RSeq RNone r) s <-> matches RNone s).
  { intros r. rewrite matches_seq. split; [intros (? & ? & _ & H & _)|intros H]; by apply matches_none in H. }
  assert (Hr : forall r, matches (RSeq r RNone) s <-> matches RNone s).
  { intros r. rewrite matches_seq. split; [intros (? & ? & _ & _ & H)|intros H]; by apply matches_none in H. }
  assert (He : forall r, matches (RSeq REps r) s <-> matches r s).
  { intros r. rewrite matches_seq. split.
    - intros (? & ? & -> & ->%matches_eps & H). done.
    - intros H. exists "", s. split_and!; [done|constructor|done]. }
  destruct r1, r2; cbn [seq]; rewrite ?Hl, ?Hr, ?He; done.
Qed.

Lemma nullable_spec r : nullable r = true <-> matches r "".
Proof.
  induction r as [| |p|r1 IH1 r2 IH2|r1 IH1 r2 IH2|r IH]; cbn [nullable].
  - split; [done|]. by intros ?%matches_none.
  - split; [constructor|done].
  - split; [done|]. by intros (c & ? & _)%matches_char.
  - by rewrite orb_true_iff, matches_alt, IH1, IH2.
  - rewrite andb_true_iff, IH1, IH2, matches_seq. split.
    + intros [? ?]. by exists "", "".
    + intros ([|c s1] & s2 & E & ? & ?); [|by rewrite str_app_cons in E]. change ("" = s2) in E. by subst.
  - split; [constructor|done].
Qed.

Lemma star_cons r c s :
  matches (RStar r) (String c s) <-> exists s1 s2, s = s1 +:+ s2 ∧ matches r (String c s1) ∧ matches (RStar r) s2.
Proof.
  split.
  - intros H. remember (RStar r) as r' eqn:Er. remember (String c s) as t eqn:Et. revert s Et.
    induction H as [| | | | |r0|r0 s1 s2 H1 _ H2 IH2]; intros t Et; try done. injection Er as ->.
    destruct s1 as [|c' s1]; [by apply IH2|]. rewrite str_app_cons in Et. injection Et as -> <-. by exists s1, s2.
  - intros (s1 & s2 & -> & H1 & H2). rewrite <-str_app_cons. by constructor.
Qed.

Lemma der_spec c r s : matches (der c r) s <-> matches r (String c s).
Proof.
  revert s. induction r as [| |p|r1 IH1 r2 IH2|r1 IH1 r2 IH2|r IH]; intros s; cbn [der].
  - split; by intros ?%matches_none.
  - split; [by intros ?%matches_none|by intros ?%matches_eps].
  - rewrite matches_char. destruct (p c) eqn:Ep.
    + rewrite matches_eps. split; [intros ->; by exists c|]. by intros (? & [= <- ->] & _).
    + split; [by intros ?%matches_none|]. intros (? & [= <- ->] & ?). congruence.
  - by rewrite alt_spec, matches_alt, IH1, IH2.
  - assert (Hs : matches (seq (der c r1) r2) s <-> exists s1 s2, s = s1 +:+ s2 ∧ matches r1 (String c s1) ∧ matches r2 s2).
    { rewrite seq_spec, matches_seq. by setoid_rewrite IH1. }
    rewrite matches_seq. pose proof (nullable_spec r1) as Hn. destruct (nullable r1); rewrite ?alt_spec, Hs, ?IH2; split.
    + intros [(s1 & s2 & -> & ? & ?)|?]; [by exists (String c s1), s2|]. exists "", (String c s). tauto.
    + intros ([|c' s1] & s2 & E & H1 & H2); [right; change (String c s = s2) in E; by subst|]. rewrite str_app_cons in E. injection E as <- ->. left. by exists s1, s2.
    + intros (s1 & s2 & -> & ? & ?). by exists (String c s1), s2.
    + intros ([|c' s1] & s2 & E & H1 & H2); [by apply Hn in H1|]. rewrite str_app_cons in E. injection E as <- ->. by exists s1, s2.
  - rewrite seq_spec, matches_seq, star_cons. by setoid_rewrite IH.
Qed.

Lemma accepts_spec r s : accepts r s = true <-> matches r s.
Proof. revert r. induction s as [|c s IH]; intros r; cbn [accepts]; [apply nullable_spec|by rewrite IH, der_spec]. Qed.

(** ** Derived forms *)

Definition any_char : regex := RChar (fun _ => true).
Definition anything : regex := RStar any_char.
Definition lit (c : ascii) : regex := RChar (fun d => bool_decide (d = c)).
Definition opt (r : regex) : regex := RAlt REps r.
Fixpoint times (n : nat) (r : regex) : regex := match n with 0 => REps | S n => RSeq r (times n r) end.
Definition at_least (n : nat) (r : regex) : regex := RSeq (times n r) (RStar r).
Fixpoint sequence (l : list regex) : regex := match l with [] => REps | r :: l => RSeq r (sequence l) end.

Lemma anything_spec s : matches anything s.
Proof. induction s as [|c s IH]; [constructor|]. apply (m_star _ (String c "") s); [by constructor|done]. Qed.

Fixpoint str_forall (p : ascii -> bool) (s : string) : bool :=
  match s with EmptyString => true | String c s => p c && str_forall p s end.

Lemma str_forall_app p s t : str_forall p (s +:+ t) = str_forall p s && str_forall p t.
Proof. induction s as [|c s IH]; [done|]. rewrite str_app_cons. simpl. by rewrite IH, andb_assoc. Qed.

Lemma times_char n p s : matches (times n (RChar p)) s <-> str_forall p s = true ∧ String.length s = n.
Proof.
  revert s. induction n as [|n IH]; intros s; cbn [times].
  - rewrite matches_eps. split; [by intros ->|]. intros [_ ?]. by apply str_length_0.
  - rewrite matches_seq. setoid_rewrite matches_char. setoid_rewrite IH. split.
    + intros (s1 & s2 & -> & (c & -> & Hc) & Hs & <-). simpl. by rewrite Hc.
    + destruct s as [|c s]; intros [Hs Hl]; [done|]. simpl in Hs. apply andb_true_iff in Hs as [Hc Hs].
      exists (String c ""), s. split_and!; [done|by exists c|done|]. simpl in Hl. congruence.
Qed.

Lemma star_char p s : matches (RStar (RChar p)) s <-> str_forall p s = true.
Proof.
  induction s as [|c s IH]; [split; [done|constructor]|]. rewrite star_cons. setoid_rewrite matches_char. simpl. split.
  - intros (s1 & s2 & -> & (d & E & Hc) & Hx). injection E as <- ->. rewrite Hc. simpl. by apply IH.
  - intros [Hc Hs]%andb_true_iff. exists "", s. split_and!; [done|by exists c|by apply IH].
Qed.

Lemma at_least_char n p s : matches (at_least n (RChar p)) s <-> str_forall p s = true ∧ n <= String.length s.
Proof.
  unfold at_least. rewrite matches_seq. setoid_rewrite times_char. setoid_rewrite star_char. split.
  - intros (s1 & s2 & -> & [H1 <-] & H2). rewrite str_forall_app, H1, H2, str_length_app. split; [done|lia].
  - revert s. induction n as [|n IH]; intros s [Hs Hl]; [by exists "", s|]. destruct s as [|c s]; [simpl in Hl; lia|].
    simpl in Hs, Hl. apply andb_true_iff in Hs as [Hc Hs]. destruct (IH s) as (s1 & s2 & -> & [H1 Hn] & H2); [split; [done|lia]|].
    exists (String c s1), s2. simpl. rewrite Hc, H1, Hn. done.
Qed.

(** The pattern occurs somewhere. *)
Definition somewhere (r : regex) : regex := RSeq anything (RSeq r anything).
Lemma somewhere_spec r s : matches (somewhere r) s <-> exists a b c, s = a +:+ b +:+ c ∧ matches r b.
Proof.
  unfold somewhere. rewrite matches_seq. setoid_rewrite matches_seq. split.
  - intros (a & bc & -> & _ & b & c & -> & Hb & _). by exists a, b, c.
  - intros (a & b & c & -> & Hb). exists a, (b +:+ c). split_and!; [done|apply anything_spec|]. exists b, c. by split_and!; [| |apply anything_spec].
Qed.

(** ** Text that is not UTF-8

    Decoding a string yields U+FFFD for the character itself and for each
    byte that starts no valid encoding ([utf8.DecodeRuneInString]). *)
Definition byte_in (lo hi : nat) (c : ascii) : bool := bool_decide (lo ≤ nat_of_ascii c ∧ nat_of_ascii c ≤ hi).
Definition continuation (c : ascii) : bool := byte_in 128 191 c.

Fixpoint has_rune_error (s : string) : bool :=
  match s with
  | EmptyString => false
  | String a s1 =>
      if byte_in 0 127 a then has_rune_error s1
      else if byte_in 194 223 a then
        match s1 with String b s2 => if continuation b then has_rune_error s2 else true | _ => true end
      else if byte_in 224 239 a then
        match s1 with
        | String b (String c s3) =>
            let lo := if byte_in 224 224 a then 160 else 128 in
            let hi := if byte_in 237 237 a then 159 else 191 in
            if byte_in lo hi b && continuation c then
              if byte_in 239 239 a && byte_in 191 191 b && byte_in 189 189 c then true else has_rune_error s3
            else true
        | _ => true
        end
      else if byte_in 240 244 a then
        match s1 with
        | String b (String c (String d s4)) =>
            let lo := if byte_in 240 240 a then 144 else 128 in
            let hi := if byte_in 244 244 a then 143 else 191 in
            if byte_in lo hi b && continuation c && continuation d then has_rune_error s4 else true
        | _ => true
        end
      else true
  end.

Lemma ascii_no_rune_error s : str_forall (byte_in 0 127) s = true -> has_rune_error s = false.
Proof. induction s as [|c s IH]; [done|]. cbn [str_forall has_rune_error]. intros [Hc Hs]%andb_true_iff. rewrite Hc. by apply IH. Qed.

(** *** Blocks of characters *)

Lemma str_take n s : n <= String.length s -> exists a b, s = a +:+ b ∧ String.length a = n.
Proof.
  revert s. induction n as [|n IH]; intros s Hl; [by exists "", s|]. destruct s as [|c s]; simpl in Hl; [lia|].
  destruct (IH s) as (a & b & -> & Ha); [lia|]. exists (String c a), b. simpl. by rewrite Ha.
Qed.

Lemma times_block n k p s :
  matches (times n (times k (RChar p))) s <-> str_forall p s = true ∧ String.length s = n * k.
Proof.
  revert s. induction n as [|n IH]; intros s; cbn [times].
  - rewrite matches_eps. split; [by intros ->|]. intros [_ ?]. by apply str_length_0.
  - rewrite matches_seq. setoid_rewrite times_char. setoid_rewrite IH. split.
    + intros (a & b & -> & [Ha Hk] & Hb & Hn). rewrite str_forall_app, str_length_app, Ha, Hb. split; [done|lia].
    + intros [Hs Hl]. destruct (str_take k s) as (a & b & -> & Ha); [lia|]. exists a, b.
      rewrite str_forall_app in Hs. apply andb_true_iff in Hs as [? ?]. rewrite str_length_app in Hl. split_and!; [done..|lia].
Qed.

Lemma star_times r s : matches (RStar r) s <-> exists n, matches (times n r) s.
Proof.
  split.
  - intros H. remember (RStar r) as r' eqn:E. induction H as [| | | | |r0|r0 s1 s2 H1 _ H2 IH2]; try done.
    + exists 0. constructor.
    + injection E as ->. destruct IH2 as [n Hn]; [done|]. exists (S n). by constructor.
  - intros [n Hn]. revert s Hn. induction n as [|n IH]; intros s; cbn [times].
    + rewrite matches_eps. intros ->. constructor.
    + rewrite matches_seq. intros (a & b & -> & Ha & Hb). constructor; [done|by apply IH].
Qed.

Lemma at_least_block n k p s :
  matches (at_least n (times k (RChar p))) s
  <-> str_forall p s = true ∧ exists m, n <= m ∧ String.length s = m * k.
Proof.
  unfold at_least. rewrite matches_seq. setoid_rewrite star_times. setoid_rewrite times_block. split.
  - intros (a & b & -> & [Ha Hn] & m & Hb & Hm). rewrite str_forall_app, str_length_app, Ha, Hb. split; [done|].
    exists (n + m). lia.
  - intros [Hs (m & Hn & Hm)]. destruct (str_take (n * k) s) as (a & b & -> & Ha); [nia|]. exists a, b.
    rewrite str_forall_app in Hs. apply andb_true_iff in Hs as [? ?]. rewrite str_length_app in Hm.
    split_and!; [done|done|done|]. exists (m - n). split; [done|]. nia.
Qed.
