(* ===== verification/Pdata.v ===== *)
(** * Traces as the collector's processors see them

    The part of the collector's data model that the processors of
    src/collector use: spans with attributes, under scopes and resources.  An
    attribute map has one value per key; its order is not observed.  The text
    of a value that is not a string ([AsString]) is the collector library's. *)

From S2P Require Import Prelude.
From S2P Require Import GoStrings.
From S2P Require Import Api.

Inductive Value :=
| VStr (s : string)
| VInt (z : Z)
| VDouble (f : float64)
| VBool (b : bool)
| VOther (id : string).

(** [Str()]: a value of another type reads as the empty string. *)
Definition Str (v : Value) : string := match v with VStr s => s | _ => "" end.

Class Pdata := { AsString : Value -> string }.
Class PdataLaws `{Pdata} : Prop := { as_string_str s : AsString (VStr s) = s }.

Abbreviation Attributes := (gmap string Value).

Inductive SpanKind :=
| SpanKindUnspecified | SpanKindInternal | SpanKindServer | SpanKindClient | SpanKindProducer | SpanKindConsumer.
#[export] Instance span_kind_eq : EqDecision SpanKind.
Proof. solve_decision. Defined.
Inductive StatusCode := StatusCodeUnset | StatusCodeOk | StatusCodeError.
#[export] Instance status_code_eq : EqDecision StatusCode.
Proof. solve_decision. Defined.

(** Ids are numbers: 128 bits of a trace, 64 bits of a parent span, 0 for
    none; time stamps are unsigned 64 bit numbers of nanoseconds. *)
Record Span := mkSpan
  { sp_Name : string;
    sp_Kind : SpanKind;
    sp_TraceID : Z;
    sp_ParentSpanID : Z;
    sp_TraceState : string;
    sp_Status : StatusCode;
    sp_StartTimestamp : Z;
    sp_EndTimestamp : Z;
    sp_Attributes : Attributes }.
Definition set_sp_Name (n : string) (s : Span) : Span :=
  mkSpan n (sp_Kind s) (sp_TraceID s) (sp_ParentSpanID s) (sp_TraceState s) (sp_Status s) (sp_StartTimestamp s)
    (sp_EndTimestamp s) (sp_Attributes s).
Definition set_sp_Attributes (f : Attributes -> Attributes) (s : Span) : Span :=
  mkSpan (sp_Name s) (sp_Kind s) (sp_TraceID s) (sp_ParentSpanID s) (sp_TraceState s) (sp_Status s) (sp_StartTimestamp s)
    (sp_EndTimestamp s) (f (sp_Attributes s)).

Lemma set_attributes_twice f g s : set_sp_Attributes f (set_sp_Attributes g s) = set_sp_Attributes (fun a => f (g a)) s.
Proof. done. Qed.
Lemma set_attributes_ext f g s : (forall a, f a = g a) -> set_sp_Attributes f s = set_sp_Attributes g s.
Proof. intros Hf. unfold set_sp_Attributes. by rewrite Hf. Qed.

Record ResourceSpans := mkResourceSpans { rs_Resource : Attributes; rs_ScopeSpans : list (list Span) }.
Abbreviation Traces := (list ResourceSpans).

(** The spans of a batch with their resources, in order. *)
Definition resource_spans (rs : ResourceSpans) : list (Attributes * Span) := pair (rs_Resource rs) <$> concat (rs_ScopeSpans rs).
Definition all_spans (td : Traces) : list (Attributes * Span) := td ≫= resource_spans.

(** An update of every span in place. *)
Definition map_spans (f : Attributes -> Span -> Span) (td : Traces) : Traces :=
  fmap (M:=list) (fun rs => mkResourceSpans (rs_Resource rs) (fmap (M:=list) (fmap (M:=list) (f (rs_Resource rs))) (rs_ScopeSpans rs))) td.

Lemma concat_fmap {A B} (f : A -> B) (l : list (list A)) : concat (fmap (M:=list) (fmap (M:=list) f) l) = fmap (M:=list) f (concat l).
Proof. induction l as [|x l IH]; [done|]. cbn. by rewrite IH, fmap_app. Qed.

Lemma all_spans_map f td : all_spans (map_spans f td) = (fun rs => (rs.1, f rs.1 rs.2)) <$> all_spans td.
Proof.
  unfold all_spans, map_spans. induction td as [|[res scopes] td IH]; [done|]. cbn [fmap list_fmap mbind list_bind].
  rewrite fmap_app, IH. f_equal. unfold resource_spans. cbn [rs_Resource rs_ScopeSpans]. rewrite concat_fmap.
  by rewrite <-!list_fmap_compose.
Qed.

Lemma map_spans_compose f g td : map_spans f (map_spans g td) = map_spans (fun res s => f res (g res s)) td.
Proof.
  unfold map_spans. rewrite <-list_fmap_compose. apply list_fmap_ext. intros i [res scopes] _. cbn. f_equal.
  rewrite <-list_fmap_compose. apply list_fmap_ext. intros j spans _. cbn. by rewrite <-list_fmap_compose.
Qed.
Lemma map_spans_ext f g td : (forall res s, f res s = g res s) -> map_spans f td = map_spans g td.
Proof.
  intros Hf. unfold map_spans. apply list_fmap_ext. intros i [res scopes] _. f_equal. apply list_fmap_ext. intros j spans _.
  apply list_fmap_ext. intros k s _. apply Hf.
Qed.

(** A map that carries a state from left to right. *)
Fixpoint map_accum {S A B} (f : S -> A -> S * B) (s : S) (l : list A) : S * list B :=
  match l with
  | [] => (s, [])
  | x :: l => let '(s, y) := f s x in let '(s, l) := map_accum f s l in (s, y :: l)
  end.

Lemma map_accum_state {S A B} (f : S -> A -> S * B) s l : (map_accum f s l).1 = foldl (fun s x => (f s x).1) s l.
Proof.
  revert s. induction l as [|x l IH]; intros s; [done|]. cbn [map_accum foldl]. specialize (IH (f s x).1).
  destruct (f s x) as [s' y]. cbn [fst] in IH. by destruct (map_accum f s' l).
Qed.
Lemma map_accum_list {S A B C} (f : S -> A -> S * B) (g : B -> C) (h : A -> C) s l :
  (forall s x, g (f s x).2 = h x) -> fmap (M:=list) g (map_accum f s l).2 = fmap (M:=list) h l.
Proof.
  intros Hf. revert s. induction l as [|x l IH]; intros s; [done|]. cbn [map_accum].
  specialize (Hf s x). specialize (IH (f s x).1). destruct (f s x) as [s' y]. cbn [fst] in IH.
  destruct (map_accum f s' l) as [s'' l']. cbn in *. by rewrite Hf, IH.
Qed.
