(* ===== verification/UrlTemplatization.v ===== *)
(** * The URL templating processor (src/collector/processors/odigosurltemplateprocessor)

    An HTTP span gets the template of its path, "/users/{id}" for "/users/17",
    from the rules of its workload or from heuristics on the segments.  The
    processor's state is the configuration of each workload, kept up to date
    by the configuration extension. *)

From Stdlib Require Import Ascii.
From S2P Require Import Prelude.
From S2P Require Import GoStrings.
From S2P Require Import Api.
From S2P Require Import GoLib.
From S2P Require Import UrlTemplate.
From S2P Require Import Regexp.
From S2P Require Import Pdata.

(** ** Patterns (templatize.go) *)

Fixpoint in_string (s : string) (c : ascii) : bool :=
  match s with EmptyString => false | String d s => bool_decide (c = d) || in_string s c end.
Definition is_digit : ascii -> bool := byte_in 48 57.
Definition is_letter (c : ascii) : bool := byte_in 65 90 c || byte_in 97 122 c.
Definition is_hex (c : ascii) : bool := is_digit c || byte_in 65 70 c || byte_in 97 102 c.
(** A digit, or one of the special characters; 34 is the double quote. *)
Definition is_no_letter (c : ascii) : bool :=
  is_digit c || in_string "_-!@#$%^&*()=+{}[]:;'<>,.?/\|`~" c || byte_in 34 34 c.
Definition is_email_char (c : ascii) : bool :=
  is_letter c || is_digit c || in_string ".!#$%&'*+/=?^_`{|}~-" c.
Definition is_domain_char (c : ascii) : bool := is_letter c || is_digit c || in_string ".-" c.

Definition digits (n : nat) : regex := times n (RChar is_digit).
Definition hexes (n : nat) : regex := times n (RChar is_hex).
Definition dash : regex := lit "-".

Definition noLettersRegex : regex := at_least 1 (RChar is_no_letter).
Definition uuid : regex := sequence [hexes 8; dash; hexes 4; dash; hexes 4; dash; hexes 4; dash; hexes 12].
Definition uuidRegex : regex := RAlt (RSeq uuid anything) (RSeq anything uuid).
Definition hexEncodedRegex : regex := at_least 8 (hexes 2).
Definition longNumberAnywhereRegex : regex := somewhere (at_least 7 (RChar is_digit)).
Definition datesRegex : regex :=
  sequence [digits 4; dash; digits 2; dash; digits 2;
            opt (sequence [lit "T"; digits 2; lit ":"; digits 2; opt (sequence [lit ":"; digits 2])]);
            opt (RAlt (lit "Z") (sequence [RChar (in_string "+-"); digits 4]))].
Definition emailRegex : regex :=
  sequence [at_least 1 (RChar is_email_char); lit "@"; at_least 1 (RChar is_domain_char); lit ".";
            at_least 2 (RChar is_letter)].

(** ** Templates *)

Record internalCustomIdConfig := mkCustomId { ci_Regexp : string; ci_Name : string }.

Definition braces (name : string) : string := "{" +:+ name +:+ "}".

(** The segments of a rule, with those of the path for the wildcards. *)
Fixpoint template_segments (segments : list RulePathSegment) (pathSegments : list string) : list string :=
  match segments with
  | [] => []
  | s :: segments =>
      (if negb (bool_decide (TemplateName s = "")) then braces (TemplateName s)
       else if Wildcard s then default "" (head pathSegments) else StaticString s)
      :: template_segments segments (tail pathSegments)
  end.

Definition attemptTemplateWithRule (pathSegments : list string) (rule : PathRule) : option string :=
  if IsPathSegmentsMatching rule pathSegments then Some (join "/" (template_segments (Segments rule) pathSegments)) else None.

Definition with_slash (hadLeadingSlash : bool) (path : string) : string := if hadLeadingSlash then "/" +:+ path else path.

Abbreviation RulesByLength := (gmap nat (list PathRule)).

Fixpoint first_template (pathSegments : list string) (rules : list PathRule) : option string :=
  match rules with
  | [] => None
  | rule :: rules =>
      match attemptTemplateWithRule pathSegments rule with Some t => Some t | None => first_template pathSegments rules end
  end.
Definition applyCustomRulesForTemplatization (pathSegments : list string) (rules : RulesByLength) (hadLeadingSlash : bool) :
    option string :=
  match rules !! length pathSegments with
  | None => None
  | Some ruleList => with_slash hadLeadingSlash <$> first_template pathSegments ruleList
  end.

Section Processor.
Context `{GoLibrary} `{Pdata}.

(** The name for a segment, or the empty string. *)
Definition getSegmentTemplatizationString (segment : string) (customIds : list internalCustomIdConfig) : string :=
  match first_match (fun c => bool_decide (regexp_match (ci_Regexp c) segment = Some true)) customIds with
  | Some c => ci_Name c
  | None =>
      if accepts datesRegex segment then "date"
      else if accepts emailRegex segment then "email"
      else if accepts noLettersRegex segment || accepts longNumberAnywhereRegex segment || accepts uuidRegex segment
              || accepts hexEncodedRegex segment || has_rune_error segment then "id"
      else ""
  end.

Definition templated_segment (customIds : list internalCustomIdConfig) (segment : string) : string :=
  let templateName := getSegmentTemplatizationString segment customIds in
  if decide (templateName = "") then segment else braces templateName.

Definition defaultTemplatizeURLPath (pathSegments : list string) (customIds : list internalCustomIdConfig) : option string :=
  if existsb (fun s => negb (bool_decide (getSegmentTemplatizationString s customIds = ""))) pathSegments
  then Some (join "/" (templated_segment customIds <$> pathSegments)) else None.

(** ** Attributes (processor.go) *)

Definition first_attribute (keys : list string) (attr : Attributes) : option Value :=
  match first_match (fun k => bool_decide (is_Some (attr !! k))) keys with Some k => attr !! k | None => None end.

Definition getHttpMethod (attr : Attributes) : option string := AsString <$> first_attribute ["http.request.method"; "http.method"] attr.
Definition before_query (target : string) : string := match split2 "?" target with Some (path, _) => path | None => target end.
Definition getUrlPath (attr : Attributes) : option string :=
  match attr !! "url.path" with
  | Some v => Some (AsString v)
  | None => (fun v => before_query (AsString v)) <$> attr !! "http.target"
  end.
Definition getFullUrl (attr : Attributes) : option string := AsString <$> first_attribute ["url.full"; "http.url"] attr.
Definition resolveUrlPath (attr : Attributes) : option string :=
  match getUrlPath attr with
  | Some path => Some path
  | None => match getFullUrl attr with Some u => url_path <$> url_Parse u | None => None end
  end.
Definition getHttpResponseStatusCode (attr : Attributes) : option Z :=
  match first_attribute ["http.response.status_code"; "http.status_code"] attr with Some (VInt z) => Some z | _ => None end.

Inductive UrlTemplatizationResult := CustomRule | DefaultHeuristic | PathNormalization | StaticPathResult.
Definition result_string (r : UrlTemplatizationResult) : string :=
  match r with
  | CustomRule => "custom_rule"
  | DefaultHeuristic => "default_heuristic"
  | PathNormalization => "path_normalization"
  | StaticPathResult => "static_path"
  end.
Definition UrlTemplatizationResultAttribute : string := "odigos.url_templatization.result".

(** ** Processing *)

Record workloadUrlTemplatizationConfig := mkWorkloadUrl
  { parsedRules : RulesByLength; defaultTemplatizationConfig : option DefaultTemplatizationConfig }.

(** [strings.Trim(s, "/") == ""]. *)
Definition all_slashes (s : string) : bool := str_forall (fun c => bool_decide (c = "/"%char)) s.

(** The response's status keeps the heuristics away. *)
Definition skip_by_status (p : SkipPolicyConfig) (attr : Attributes) : bool :=
  match getHttpResponseStatusCode attr with
  | Some statusCode =>
      sp_non_success p && (bool_decide (statusCode < 200)%Z || bool_decide (statusCode >= 300)%Z)
      || bool_decide (statusCode ∈ sp_status_codes p)
  | None => false
  end.

Definition calculateTemplatedUrlFromAttrWithRules (customIds : list internalCustomIdConfig) (attr : Attributes)
    (config : workloadUrlTemplatizationConfig) (spanKind : SpanKind) : option (string * UrlTemplatizationResult) :=
  match resolveUrlPath attr with
  | None => None
  | Some urlPath =>
      if all_slashes urlPath then Some ("/", PathNormalization)
      else
        let '(inputPathSegments, hadLeadingSlash) := SplitPath urlPath in
        if decide (inputPathSegments = [""]) then Some ("/", PathNormalization)
        else
          match applyCustomRulesForTemplatization inputPathSegments (parsedRules config) hadLeadingSlash with
          | Some templatedUrl => Some (templatedUrl, CustomRule)
          | None =>
              match defaultTemplatizationConfig config with
              | None => None
              | Some c =>
                  if dt_disabled c then None
                  else if match dt_skip_policy c with
                          | Some p => negb (bool_decide (spanKind = SpanKindClient)) && skip_by_status p attr
                          | None => false
                          end then None
                  else
                    match defaultTemplatizeURLPath inputPathSegments customIds with
                    | Some templatedPath => Some (with_slash hadLeadingSlash templatedPath, DefaultHeuristic)
                    | None => Some (urlPath, StaticPathResult)
                    end
              end
          end
  end.

(** The text around the first occurrence of [sub]. *)
Fixpoint cut (sub s : string) : option (string * string) :=
  if has_prefix sub s then Some ("", String.substring (String.length sub) (String.length s) s)
  else match s with
       | EmptyString => None
       | String c s => match cut sub s with Some (before, after) => Some (String c before, after) | None => None end
       end.

(** The path ends where the rest begins. *)
Definition path_ends (after : string) : bool :=
  match after with EmptyString => true | String c _ => in_string " ?#" c end.

Definition updateHttpSpanName (httpMethod originalPath templatedUrl : string) (span : Span) : Span :=
  if decide (templatedUrl = "") then span
  else if decide (sp_Name span = httpMethod) then set_sp_Name (httpMethod +:+ " " +:+ templatedUrl) span
  else if decide (originalPath = "" ∨ originalPath = "/" ∨ originalPath = templatedUrl) then span
  else match cut originalPath (sp_Name span) with
       | Some (before, after) => if path_ends after then set_sp_Name (before +:+ templatedUrl +:+ after) span else span
       | None => span
       end.

Definition enhanceSpanWithRules (customIds : list internalCustomIdConfig) (httpMethod targetAttribute : string)
    (config : workloadUrlTemplatizationConfig) (span : Span) : Span :=
  let attr := sp_Attributes span in
  match attr !! targetAttribute with
  | Some (VStr value) => if decide (value = "") then updateHttpSpanName httpMethod "" "/" span else span
  | Some _ => span
  | None =>
      match calculateTemplatedUrlFromAttrWithRules customIds attr config (sp_Kind span) with
      | None => span
      | Some (templatedUrl, result) =>
          let originalPath := default "" (resolveUrlPath attr) in
          updateHttpSpanName httpMethod originalPath templatedUrl
            (set_sp_Attributes (fun a => <[UrlTemplatizationResultAttribute := VStr (result_string result)]>
                                           (<[targetAttribute := VStr templatedUrl]> a)) span)
      end
  end.

Definition target_attribute (k : SpanKind) : option string :=
  match k with SpanKindClient => Some "url.template" | SpanKindServer => Some "http.route" | _ => None end.

Definition processSpanWithRules (customIds : list internalCustomIdConfig) (config : workloadUrlTemplatizationConfig)
    (span : Span) : Span :=
  match getHttpMethod (sp_Attributes span), target_attribute (sp_Kind span) with
  | Some httpMethod, Some targetAttribute => enhanceSpanWithRules customIds httpMethod targetAttribute config span
  | _, _ => span
  end.

(** ** The processor *)

(** Rules grouped by their number of segments. *)
Definition add_rule (m : RulesByLength) (r : PathRule) : RulesByLength :=
  <[length (Segments r) := default [] (m !! length (Segments r)) ++ [r]]> m.
Definition parseRuleStrings (ruleStrings : list string) : RulesByLength :=
  foldl add_rule ∅ ((fun s => ParseUserInputRuleString s false) <$> ruleStrings).

Record urlTemplateProcessor := mkUrlProcessor
  { templatizationRules : RulesByLength;
    customIds : list internalCustomIdConfig;
    (** the extension is attached *)
    up_provider : bool;
    parsedRulesCache : gmap string workloadUrlTemplatizationConfig }.
Definition set_parsedRulesCache (f : gmap string workloadUrlTemplatizationConfig -> gmap string workloadUrlTemplatizationConfig)
    (p : urlTemplateProcessor) : urlTemplateProcessor :=
  mkUrlProcessor (templatizationRules p) (customIds p) (up_provider p) (f (parsedRulesCache p)).

(** A configured id: its expression and the name, [None] for an expression
    that does not compile. *)
Definition compile_custom_id (c : string * string) : option internalCustomIdConfig :=
  match regexp_match c.1 "" with
  | None => None
  | Some _ => Some (mkCustomId c.1 (if decide (c.2 = "") then "id" else c.2))
  end.
Definition newUrlTemplateProcessor (rules : list string) (ids : list (string * string)) : option urlTemplateProcessor :=
  ids ← mapM compile_custom_id ids;
  Some (mkUrlProcessor (parseRuleStrings rules) ids false ∅).

(** [OnSet] reads the configuration without asking whether there is one. *)
Definition url_OnSet (key : string) (cfg : option ContainerCollectorConfig) (p : urlTemplateProcessor) : go urlTemplateProcessor :=
  match cfg with
  | None => Panic
  | Some cfg =>
      Done (match cc_url_templatization cfg with
            | None => set_parsedRulesCache (delete key) p
            | Some u => set_parsedRulesCache
                (<[key := mkWorkloadUrl (parseRuleStrings (ut_templates u)) (ut_default u)]>) p
            end)
  end.
Definition url_OnDeleteKey (key : string) (p : urlTemplateProcessor) : urlTemplateProcessor := set_parsedRulesCache (delete key) p.
Definition url_Shutdown (p : urlTemplateProcessor) : urlTemplateProcessor :=
  mkUrlProcessor (templatizationRules p) (customIds p) false ∅.

Definition processSpanWithStaticRules (p : urlTemplateProcessor) : Span -> Span :=
  processSpanWithRules (customIds p) (mkWorkloadUrl (templatizationRules p) (Some (mkDefaultTemplatization false None))).

(** [processTraces]; [GetWorkloadCacheKey] is the extension's. *)
Definition url_processTraces (GetWorkloadCacheKey : Attributes -> option string) (p : urlTemplateProcessor) (td : Traces) : Traces :=
  map_spans (fun resource span =>
    if up_provider p then
      match GetWorkloadCacheKey resource ≫= fun key => parsedRulesCache p !! key with
      | Some config => processSpanWithRules (customIds p) config span
      | None => span
      end
    else processSpanWithStaticRules p span) td.
End Processor.

(** ** Lemmas *)

Lemma has_byte_rev_app c s t : has_byte c (str_rev_app s t) = has_byte c s || has_byte c t.
Proof.
  revert t. induction s as [|d s IH]; intros t; [done|]. cbn [str_rev_app has_byte]. rewrite IH. cbn [has_byte].
  destruct (bool_decide (d = c)), (has_byte c s); done.
Qed.
Lemma has_byte_drop_space c s : has_byte c s = false -> has_byte c (drop_space s) = false.
Proof. induction s as [|d s IH]; [done|]. cbn [drop_space]. case_decide; [|done]. intros [_ ?]%orb_false_iff. by apply IH. Qed.
Lemma has_byte_trim c s : has_byte c s = false -> has_byte c (trim_space s) = false.
Proof.
  intros Hs. unfold trim_space, str_rev. rewrite has_byte_rev_app, orb_false_r. apply has_byte_drop_space.
  rewrite has_byte_rev_app, orb_false_r. by apply has_byte_drop_space.
Qed.

(** *** Templates of segments *)

Lemma braced_braces n : braced (braces n) = Some n.
Proof.
  unfold braces. change ("{" +:+ n +:+ "}") with (String "{" (n +:+ String "}" "")). unfold braced. rewrite decide_True by done.
  by rewrite split_last_app.
Qed.
Lemma parse_braces n p : segment_matches (parse_segment (braces n)) p.
Proof.
  unfold parse_segment. rewrite decide_False by done. rewrite braced_braces. right. left. cbn. unfold parseRuleTemplateString.
  by case_decide.
Qed.
Lemma parse_self p : segment_matches (parse_segment p) p.
Proof.
  unfold parse_segment. case_decide; [by left|]. destruct (braced p); [|right; by right]. right. left. cbn.
  unfold parseRuleTemplateString. by case_decide.
Qed.

(** A segment of a template: the path's own or a name. *)
Definition covers (t p : string) : Prop := t = p ∨ exists n, t = braces n ∧ has_byte "/" n = false.

Lemma covers_matches ts ps : Forall2 covers ts ps -> Forall2 segment_matches (parse_segment <$> ts) ps.
Proof.
  induction 1 as [|t p ts ps [->|(n & -> & _)] _ IH]; constructor; try done; [apply parse_self|apply parse_braces].
Qed.
Lemma covers_no_slash ts ps :
  Forall2 covers ts ps -> (forall x, x ∈ ps -> has_byte "/" x = false) -> forall x, x ∈ ts -> has_byte "/" x = false.
Proof.
  induction 1 as [|t p ts ps Hc _ IH]; intros Hps x Hx; [by apply elem_of_nil in Hx|]. apply elem_of_cons in Hx as [->|Hx].
  - destruct Hc as [->|(n & -> & Hn)]; [apply Hps; left|]. unfold braces. by rewrite !has_byte_app, Hn.
  - apply IH; [|done]. intros y Hy. apply Hps. by right.
Qed.

Lemma strip_leading path : leading_slash path = true -> path = "/" +:+ strip_slash path.
Proof. destruct path as [|c path]; [done|]. unfold leading_slash. cbn. rewrite andb_true_r. intros <-%bool_decide_eq_true. reflexivity. Qed.
Lemma strip_no_leading path : leading_slash path = false -> strip_slash path = path.
Proof.
  destruct path as [|c path]; [done|]. unfold leading_slash. cbn. rewrite andb_true_r. intros Hc%bool_decide_eq_false.
  rewrite decide_False by congruence. done.
Qed.
Lemma strip_with_slash b s : leading_slash s = false -> strip_slash (with_slash b s) = s.
Proof. destruct b; [done|]. apply strip_no_leading. Qed.

Lemma leading_cons c s : leading_slash (String c s) = bool_decide ("/"%char = c).
Proof. unfold leading_slash. cbn. by rewrite andb_true_r. Qed.
Lemma leading_join l : head l <> Some "" -> (forall x, x ∈ l -> has_byte "/" x = false) -> leading_slash (join "/" l) = false.
Proof.
  destruct l as [|[|c x] l]; [done|done|]. intros _ Hl. specialize (Hl (String c x) (list_elem_of_here _ _)).
  cbn in Hl. apply orb_false_iff in Hl as [Hc _]. apply bool_decide_eq_false in Hc.
  assert (Hj : exists rest, join "/" (String c x :: l) = String c rest) by (destruct l; by eexists).
  destruct Hj as [rest ->]. rewrite leading_cons. apply bool_decide_eq_false_2. congruence.
Qed.
Lemma join_nonempty l : l <> [] -> l <> [""] -> join "/" l <> "".
Proof. destruct l as [|x [|y l]]; [done| |]; intros _ Hne; [cbn; intros ->; by apply Hne|]. cbn. destruct x; done. Qed.

Lemma covers_nonempty ts ps : Forall2 covers ts ps -> ps <> [] -> ps <> [""] -> ts <> [] ∧ ts <> [""].
Proof.
  intros Hc Hn Hne. split.
  - intros ->. by apply Forall2_nil_inv_l in Hc.
  - intros ->. apply Forall2_cons_inv_l in Hc as (p & ps' & Hcp & ->%Forall2_nil_inv_l & ->).
    destruct Hcp as [<-|(m & Hm & _)]; [done|]. by unfold braces in Hm.
Qed.

(** The template of a path stands for the path. *)
Lemma template_covers path ts :
  Forall2 covers ts (SplitPath path).1 -> (SplitPath path).1 <> [""] ->
  let t := with_slash (SplitPath path).2 (join "/" ts) in
  IsPathMatching (ParseUserInputRuleString t false) path = true ∧ leading_slash t = leading_slash path
  ∧ length (SplitPath t).1 = length (SplitPath path).1 ∧ t <> "".
Proof.
  intros Hc Hne t. destruct (split_path_parts path) as [Hn Hps].
  assert (Hts : forall x, x ∈ ts -> has_byte "/" x = false) by by eapply covers_no_slash.
  destruct (covers_nonempty _ _ Hc Hn Hne) as [Htn Ht1].
  assert (Hstrip : strip_slash t = join "/" ts ∧ leading_slash t = leading_slash path).
  { unfold t, SplitPath. cbn [snd]. destruct (leading_slash path) eqn:El; [done|].
    assert (Hh : leading_slash (join "/" ts) = false); [|split; [by apply strip_no_leading|done]].
    apply leading_join; [|done]. destruct ts as [|tt ts]; [done|]. apply Forall2_cons_inv_l in Hc as (p & ps' & Hcp & _ & Eps).
    cbn. intros [= ->]. destruct Hcp as [<-|(m & Hm & _)]; [|by unfold braces in Hm].
    revert Eps. unfold SplitPath. cbn [fst]. rewrite (strip_no_leading _ El), path_segments_split. destruct path as [|c path]; [done|].
    cbn [split]. unfold leading_slash in El. cbn in El. rewrite andb_true_r in El. apply bool_decide_eq_false in El.
    rewrite decide_False by congruence. by destruct (split "/" path). }
  destruct Hstrip as [Hs Hl].
  assert (Hsplit : (SplitPath t).1 = ts).
  { unfold SplitPath. cbn [fst]. rewrite Hs, path_segments_split. by apply (split_join "/"). }
  split_and!; [|done|rewrite Hsplit; by eapply Forall2_length|].
  - rewrite matching_segments. apply rule_matches_segments; [done|done|]. right. rewrite Hs, path_segments_split, (split_join "/") by done.
    exists (SplitPath path).1, []. split_and!; [by rewrite app_nil_r|by apply covers_matches|by right].
  - unfold t. destruct (SplitPath path).2; [done|]. cbn. by apply join_nonempty.
Qed.

(** *** Rules *)

(** A rule that was parsed and is matched segment by segment to the end. *)
Definition parsed_rule (r : PathRule) : Prop := exists s, r = ParseUserInputRuleString s false.

Lemma parse_names s : has_byte "/" s = false -> has_byte "/" (TemplateName (parse_segment s)) = false.
Proof.
  intros Hs. unfold parse_segment. case_decide; [done|]. destruct (braced s) as [inner|] eqn:E; [|done]. cbn.
  unfold parseRuleTemplateString. case_decide; [done|]. apply has_byte_trim. destruct s as [|c s]; [done|]. unfold braced in E.
  case_decide; [|done]. destruct (split_last "}" s) as [[i [|]]|] eqn:El; [|done|done]. injection E as ->.
  apply split_last_Some in El as [-> _]. cbn in Hs. apply orb_false_iff in Hs as [_ Hs]. rewrite has_byte_app in Hs.
  by apply orb_false_iff in Hs as [? _].
Qed.

Lemma segments_covered segs ps :
  Forall2 segment_matches segs ps -> (forall s, s ∈ segs -> has_byte "/" (TemplateName s) = false) ->
  Forall2 covers (template_segments segs ps) ps.
Proof.
  induction 1 as [|s p segs ps Hm _ IH]; intros Hn; cbn [template_segments tail head default]; constructor.
  - case_bool_decide as Et; cbn [negb].
    + destruct (Wildcard s) eqn:Ew; [by left|]. left. destruct Hm as [?|[?|?]]; congruence.
    + right. exists (TemplateName s). split; [done|]. apply Hn. left.
  - apply IH. intros s' Hs'. apply Hn. by right.
Qed.

Lemma rule_template path rule t :
  parsed_rule rule -> attemptTemplateWithRule (SplitPath path).1 rule = Some t ->
  exists ts, t = join "/" ts ∧ Forall2 covers ts (SplitPath path).1.
Proof.
  intros [s ->]. unfold attemptTemplateWithRule. destruct (IsPathSegmentsMatching _ _) eqn:Em; [|done]. intros Et. apply (inj Some) in Et as <-.
  eexists. split; [done|]. destruct (split_path_parts path) as [Hn Hps].
  apply (rule_matches_segments _ _ _ Hn Hps) in Em as [[? _]|(matched & rest & E & Hm & [?| ->])]; [done| |]; [done|].
  rewrite app_nil_r in E. subst matched. rewrite parsed_segments. rewrite path_segments_split in *. apply segments_covered; [done|].
  intros seg (x & -> & Hx)%list_elem_of_fmap. apply parse_names. by eapply split_part.
Qed.

Definition rules_parsed (rules : RulesByLength) : Prop := forall n l r, rules !! n = Some l -> r ∈ l -> parsed_rule r.

Lemma parse_rule_strings_parsed ss : rules_parsed (parseRuleStrings ss).
Proof.
  unfold parseRuleStrings.
  assert (Hf : forall l m, rules_parsed m -> Forall parsed_rule l -> rules_parsed (foldl add_rule m l)).
  { induction l as [|r l IH]; intros m Hm Hl; [done|]. apply Forall_cons in Hl as [Hr Hl]. cbn [foldl]. apply IH; [|done].
    intros n l' r'. unfold add_rule. destruct (decide (length (Segments r) = n)) as [<-|Hne].
    - rewrite lookup_insert_eq. intros [= <-] [Hin| ->%list_elem_of_singleton]%elem_of_app; [|done].
      destruct (m !! length (Segments r)) as [l0|] eqn:E; [by eapply Hm|by apply elem_of_nil in Hin].
    - rewrite lookup_insert_ne by done. apply Hm. }
  apply Hf; [intros n l r; by rewrite lookup_empty|]. apply Forall_fmap, Forall_forall. intros s _. by exists s.
Qed.

Lemma first_template_covers path rules t :
  (forall r, r ∈ rules -> parsed_rule r) -> first_template (SplitPath path).1 rules = Some t ->
  exists ts, t = join "/" ts ∧ Forall2 covers ts (SplitPath path).1.
Proof.
  induction rules as [|r rules IH]; [done|]. intros Hr. cbn [first_template].
  destruct (attemptTemplateWithRule _ r) as [t'|] eqn:E.
  - intros [= <-]. apply (rule_template path r); [apply Hr; left|done].
  - apply IH. intros r' Hr'. apply Hr. by right.
Qed.

Section Templates.
Context `{GoLibrary} `{Pdata}.

(** The names of the configured ids are names of segments. *)
Definition ids_ok (ids : list internalCustomIdConfig) : Prop := Forall (fun c => has_byte "/" (ci_Name c) = false) ids.

Lemma segment_name_ok ids s : ids_ok ids -> has_byte "/" (getSegmentTemplatizationString s ids) = false.
Proof.
  intros Hids. unfold getSegmentTemplatizationString. destruct (first_match _ ids) as [c|] eqn:E.
  - apply first_match_Some in E as [Hin _]. unfold ids_ok in Hids. rewrite Forall_forall in Hids. by apply Hids.
  - repeat case_match; done.
Qed.

Lemma templated_covers ids ps : ids_ok ids -> Forall2 covers (templated_segment ids <$> ps) ps.
Proof.
  intros Hids. induction ps as [|p ps IH]; constructor; [|done]. unfold templated_segment. cbv zeta.
  destruct (decide (getSegmentTemplatizationString p ids = "")); [by left|right]. eexists. split; [done|]. by apply segment_name_ok.
Qed.

(** Without a rule that matches. *)
Definition default_result (ids : list internalCustomIdConfig) (attr : Attributes) (config : workloadUrlTemplatizationConfig) (kind : SpanKind)
    (path : string) (segs : list string) (slash : bool) : option (string * UrlTemplatizationResult) :=
  match defaultTemplatizationConfig config with
  | None => None
  | Some c =>
      if dt_disabled c then None
      else if match dt_skip_policy c with
              | Some p => negb (bool_decide (kind = SpanKindClient)) && skip_by_status p attr
              | None => false
              end then None
      else match defaultTemplatizeURLPath segs ids with
           | Some templatedPath => Some (with_slash slash templatedPath, DefaultHeuristic)
           | None => Some (path, StaticPathResult)
           end
  end.

Lemma rebuild_path path : path = with_slash (SplitPath path).2 (join "/" (SplitPath path).1).
Proof.
  unfold SplitPath. cbn [fst snd]. rewrite path_segments_split, join_split. destruct (leading_slash path) eqn:E.
  - by apply strip_leading.
  - symmetry. by apply strip_no_leading.
Qed.

Lemma templated_default ids attr config kind path t r :
  ids_ok ids -> default_result ids attr config kind path (SplitPath path).1 (SplitPath path).2 = Some (t, r) ->
  (SplitPath path).1 <> [""] ->
  exists ts, Forall2 covers ts (SplitPath path).1 ∧ (SplitPath path).1 <> [""] ∧ t = with_slash (SplitPath path).2 (join "/" ts).
Proof.
  intros Hids Hd Hne. unfold default_result in Hd. destruct (defaultTemplatizationConfig config) as [c|]; [|done].
  destruct (dt_disabled c); [done|]. destruct (match dt_skip_policy c with Some _ => _ | None => _ end); [done|].
  unfold defaultTemplatizeURLPath in Hd. destruct (existsb _ _); injection Hd as <- <-.
  - eexists. split_and!; [by apply templated_covers|done|done].
  - exists (SplitPath path).1. split_and!; [|done|apply rebuild_path]. apply Forall2_same_length_lookup. split; [done|].
    intros i x y Hx Hy. left. congruence.
Qed.

(** The template stands for the path. *)
Lemma calculated_covers ids attr config kind path t r :
  rules_parsed (parsedRules config) -> ids_ok ids -> resolveUrlPath attr = Some path ->
  calculateTemplatedUrlFromAttrWithRules ids attr config kind = Some (t, r) -> r <> PathNormalization ->
  exists ts, Forall2 covers ts (SplitPath path).1 ∧ (SplitPath path).1 <> [""] ∧ t = with_slash (SplitPath path).2 (join "/" ts).
Proof.
  intros Hr Hids Hp. unfold calculateTemplatedUrlFromAttrWithRules. rewrite Hp. destruct (all_slashes path); [by intros [= <- <-]|].
  destruct (SplitPath path) as [segs slash] eqn:Es. assert (Es1 : segs = (SplitPath path).1) by by rewrite Es.
  case_decide as Hne; [by intros [= <- <-]|]. unfold applyCustomRulesForTemplatization. cbn [fst snd].
  destruct (parsedRules config !! length segs) as [rules|] eqn:El.
  - destruct (first_template segs rules) as [t0|] eqn:Ef; cbn [fmap option_fmap option_map].
    + intros [= <- <-] _. rewrite Es1 in Ef. apply first_template_covers in Ef as (ts & -> & Hts); [|intros r0 Hin; by apply (Hr _ _ _ El Hin)].
      exists ts. by rewrite <-Es1 in Hts.
    + intros Hd _. pose proof (templated_default ids attr config kind path t r Hids) as Ht. rewrite Es in Ht. by apply Ht.
  - cbn [fmap option_fmap option_map]. intros Hd _. pose proof (templated_default ids attr config kind path t r Hids) as Ht. rewrite Es in Ht. by apply Ht.
Qed.

(** *** Once is enough *)

Lemma found_untouched ids m target config s v :
  sp_Attributes s !! target = Some (VStr v) -> v <> "" -> enhanceSpanWithRules ids m target config s = s.
Proof. intros E Hv. unfold enhanceSpanWithRules. rewrite E. by rewrite decide_False. Qed.

Lemma name_attributes m p t s : sp_Attributes (updateHttpSpanName m p t s) = sp_Attributes s ∧ sp_Kind (updateHttpSpanName m p t s) = sp_Kind s.
Proof. unfold updateHttpSpanName. repeat (case_match || case_decide); done. Qed.

Lemma name_empty_path m t s : t <> "" -> let s' := updateHttpSpanName m "" t s in updateHttpSpanName m "" t s' = s'.
Proof.
  intros Ht. cbv zeta.
  assert (Hs : forall s, updateHttpSpanName m "" t s = if decide (sp_Name s = m) then set_sp_Name (m +:+ " " +:+ t) s else s).
  { intros s0. unfold updateHttpSpanName. rewrite decide_False by done. case_decide; [done|]. by rewrite decide_True by auto. }
  rewrite !Hs. destruct (decide (sp_Name s = m)) as [E|E]; [|by rewrite decide_False]. cbn [sp_Name set_sp_Name].
  rewrite decide_False; [done|]. intros Em. apply (f_equal String.length) in Em. rewrite !str_length_app in Em. cbn in Em. lia.
Qed.

Lemma method_kept attr k v : k <> "http.request.method" -> k <> "http.method" -> getHttpMethod (<[k := v]> attr) = getHttpMethod attr.
Proof.
  intros H1 H2. unfold getHttpMethod, first_attribute. cbn [first_match]. rewrite !lookup_insert_ne by done.
  repeat case_bool_decide; cbn; rewrite ?lookup_insert_ne by done; done.
Qed.

Lemma with_slash_nonempty b t : t <> "" -> with_slash b t <> "".
Proof. by destruct b. Qed.
Lemma default_nonempty ids segs t : defaultTemplatizeURLPath segs ids = Some t -> t <> "".
Proof.
  unfold defaultTemplatizeURLPath. destruct (existsb _ segs) eqn:E; [|done]. intros [= <-].
  apply existsb_exists in E as (x & Hx & Hn). apply join_nonempty; [by destruct segs|]. intros Hs.
  destruct segs as [|y [|]]; [done| |done]. destruct Hx as [<-|[]]. apply negb_true_iff, bool_decide_eq_false in Hn.
  revert Hs. cbn. unfold templated_segment. cbv zeta. by rewrite decide_False.
Qed.

Lemma calculated_nonempty ids attr config kind t r :
  rules_parsed (parsedRules config) -> calculateTemplatedUrlFromAttrWithRules ids attr config kind = Some (t, r) -> t <> "".
Proof.
  intros Hr. unfold calculateTemplatedUrlFromAttrWithRules. destruct (resolveUrlPath attr) as [path|]; [|done].
  destruct (all_slashes path) eqn:Ea; [by intros [= <- _]|]. destruct (SplitPath path) as [segs slash] eqn:Es.
  assert (Es1 : segs = (SplitPath path).1) by by rewrite Es. case_decide as Hne; [by intros [= <- _]|].
  destruct (split_path_parts path) as [Hn _]. rewrite <-Es1 in Hn. unfold applyCustomRulesForTemplatization.
  assert (Hd : default_result ids attr config kind path segs slash = Some (t, r) -> t <> "").
  { unfold default_result. destruct (defaultTemplatizationConfig config) as [c|]; [|done]. destruct (dt_disabled c); [done|].
    destruct (match dt_skip_policy c with Some _ => _ | None => _ end); [done|].
    destruct (defaultTemplatizeURLPath segs ids) eqn:Ed; intros [= <- _]; [|by intros ->].
    apply with_slash_nonempty. by eapply default_nonempty. }
  destruct (parsedRules config !! length segs) as [rules|] eqn:El; [|done].
  destruct (first_template segs rules) as [t0|] eqn:Ef; [|done]. intros [= <- <-].
  rewrite Es1 in Ef. apply first_template_covers in Ef as (ts & -> & Hts); [|intros r0 Hin; by apply (Hr _ _ _ El Hin)].
  rewrite <-Es1 in Hts. destruct (covers_nonempty _ _ Hts Hn Hne). apply with_slash_nonempty. by apply join_nonempty.
Qed.

Lemma process_once ids config s :
  rules_parsed (parsedRules config) ->
  processSpanWithRules ids config (processSpanWithRules ids config s) = processSpanWithRules ids config s.
Proof.
  intros Hr. unfold processSpanWithRules at 2 3. destruct (getHttpMethod (sp_Attributes s)) as [m|] eqn:Em.
  2: { unfold processSpanWithRules. by rewrite Em. }
  destruct (target_attribute (sp_Kind s)) as [target|] eqn:Et.
  2: { unfold processSpanWithRules. by rewrite Em, Et. }
  assert (Hs : forall s', sp_Kind s' = sp_Kind s -> getHttpMethod (sp_Attributes s') = Some m ->
                          processSpanWithRules ids config s' = enhanceSpanWithRules ids m target config s').
  { intros s' Hk Hm. unfold processSpanWithRules. by rewrite Hm, Hk, Et. }
  unfold enhanceSpanWithRules. cbv zeta. destruct (sp_Attributes s !! target) as [v|] eqn:Ev.
  - assert (Hsame : processSpanWithRules ids config s = enhanceSpanWithRules ids m target config s) by by apply Hs.
    destruct v as [v| | | |]; try (rewrite Hsame; unfold enhanceSpanWithRules; by rewrite Ev). case_decide as Hv.
    + destruct (name_attributes m "" "/" s) as [Ha Hk]. rewrite Hs by congruence. unfold enhanceSpanWithRules. rewrite Ha, Ev.
      rewrite decide_True by done. by apply name_empty_path.
    + rewrite Hsame. by eapply found_untouched.
  - destruct (calculateTemplatedUrlFromAttrWithRules ids _ config _) as [[t r]|] eqn:Ec.
    2: { rewrite Hs by done. unfold enhanceSpanWithRules. by rewrite Ev, Ec. }
    assert (Htn : t <> "") by by eapply calculated_nonempty.
    set (s1 := set_sp_Attributes _ s). destruct (name_attributes m (default "" (resolveUrlPath (sp_Attributes s))) t s1) as [Ha Hk].
    assert (Htk : target <> "http.request.method" ∧ target <> "http.method" ∧ target <> UrlTemplatizationResultAttribute)
      by (destruct (sp_Kind s); cbn in Et; try done; by injection Et as <-).
    destruct Htk as (H1 & H2 & H3). rewrite Hs; [|by rewrite Hk|].
    + apply (found_untouched _ _ _ _ _ t); [|done]. rewrite Ha. cbn. rewrite lookup_insert_ne by done. by rewrite lookup_insert_eq.
    + rewrite Ha. cbn. by rewrite !method_kept by done.
Qed.

(** *** The processor's states *)

(** What happens to a processor between batches. *)
Inductive url_event :=
| UrlStart
| UrlOnSet (key : string) (cfg : option ContainerCollectorConfig)
| UrlOnDeleteKey (key : string)
| UrlShutdown.
Definition url_step (e : url_event) (p : urlTemplateProcessor) : go urlTemplateProcessor :=
  match e with
  | UrlStart => Done (mkUrlProcessor (templatizationRules p) (customIds p) true (parsedRulesCache p))
  | UrlOnSet key cfg => url_OnSet key cfg p
  | UrlOnDeleteKey key => Done (url_OnDeleteKey key p)
  | UrlShutdown => Done (url_Shutdown p)
  end.

Inductive url_reachable : urlTemplateProcessor -> Prop :=
| url_new rules ids p : newUrlTemplateProcessor rules ids = Some p -> url_reachable p
| url_next e p p' : url_reachable p -> url_step e p = Done p' -> url_reachable p'.

Definition url_wf (p : urlTemplateProcessor) : Prop :=
  rules_parsed (templatizationRules p)
  ∧ forall key c, parsedRulesCache p !! key = Some c -> rules_parsed (parsedRules c).

Lemma url_reachable_wf p : url_reachable p -> url_wf p.
Proof.
  induction 1 as [rules ids p E|e p p' _ [Hr Hc] E].
  - unfold newUrlTemplateProcessor in E. destruct (mapM _ ids); [|done]. injection E as <-.
    split; [apply parse_rule_strings_parsed|]. intros key c. cbn [parsedRulesCache]. by rewrite lookup_empty.
  - destruct e as [|key cfg|key|]; cbn in E; [by injection E as <-| |injection E as <-|injection E as <-].
    + destruct cfg as [cfg|]; [|done]. injection E as <-. destruct (cc_url_templatization cfg) as [u|]; (split; [done|]); intros k c; cbn.
      * intros [[<- <-]|[_ Hk]]%lookup_insert_Some; [apply parse_rule_strings_parsed|by eapply Hc].
      * intros [_ Hk]%lookup_delete_Some. by eapply Hc.
    + split; [done|]. intros k c. cbn. intros [_ Hk]%lookup_delete_Some. by eapply Hc.
    + split; [done|]. intros k c. unfold url_Shutdown, parsedRulesCache. by rewrite lookup_empty.
Qed.

Lemma map_spans_twice f td :
  (forall res s, f res (f res s) = f res s) -> map_spans f (map_spans f td) = map_spans f td.
Proof. intros Hf. rewrite map_spans_compose. by apply map_spans_ext. Qed.

(** C23: A processor, whatever its configuration and the callbacks it got,
    templatizes a batch only once: a second pass (a second processor of the
    pipeline, or a gateway after a node collector) changes nothing. *)
Theorem templatization_idempotent keys p td :
  url_reachable p -> url_processTraces keys p (url_processTraces keys p td) = url_processTraces keys p td.
Proof.
  intros [Hr Hc]%url_reachable_wf. unfold url_processTraces. apply map_spans_twice. intros res s. destruct (up_provider p).
  - destruct (keys res) as [key|]; [|done]. cbn. destruct (parsedRulesCache p !! key) as [c|] eqn:E; [|done].
    apply process_once. by eapply Hc.
  - by apply process_once.
Qed.

(** The configurations a processor templatizes with. *)
Definition uses_config (p : urlTemplateProcessor) (config : workloadUrlTemplatizationConfig) : Prop :=
  parsedRules config = templatizationRules p ∨ exists key, parsedRulesCache p !! key = Some config.
Lemma uses_parsed p config : url_wf p -> uses_config p config -> rules_parsed (parsedRules config).
Proof. intros [Hr Hc] [->|[key E]]; [done|by eapply Hc]. Qed.

(** C22: The template of a span, from a rule or from the heuristics, is a rule
    that matches the path of the span, with the same leading slash and number
    of segments: templatization never mixes up paths of different shape. *)
Theorem templated_path_matches p config attr kind path t r :
  url_reachable p -> uses_config p config -> ids_ok (customIds p) -> resolveUrlPath attr = Some path ->
  calculateTemplatedUrlFromAttrWithRules (customIds p) attr config kind = Some (t, r) -> r <> PathNormalization ->
  IsPathMatching (ParseUserInputRuleString t false) path = true ∧ leading_slash t = leading_slash path
  ∧ length (SplitPath t).1 = length (SplitPath path).1.
Proof.
  intros Hwf%url_reachable_wf Hu Hids Hp Hc Hn.
  destruct (calculated_covers _ _ _ _ _ _ _ (uses_parsed _ _ Hwf Hu) Hids Hp Hc Hn) as (ts & Hts & Hne & ->).
  by destruct (template_covers path ts Hts Hne) as (? & ? & ? & _).
Qed.

End Templates.

(** *** The heuristics *)

(** What the heuristics take for an identifier. *)
Inductive identifier : string -> Prop :=
| id_no_letters s : s <> "" -> str_forall is_no_letter s = true -> identifier s
| id_long_number a n b :
    String.length n = 7 -> str_forall is_digit n = true -> identifier (a +:+ n +:+ b)
| id_uuid_first u s : matches uuid u -> identifier (u +:+ s)
| id_uuid_last u s : matches uuid u -> identifier (s +:+ u)
| id_hex s n : 16 <= String.length s -> String.length s = 2 * n -> str_forall is_hex s = true -> identifier s
| id_broken s : has_rune_error s = true -> identifier s.

Lemma no_letters_spec s : accepts noLettersRegex s = true <-> s <> "" ∧ str_forall is_no_letter s = true.
Proof. rewrite accepts_spec. unfold noLettersRegex. rewrite at_least_char. destruct s; naive_solver lia. Qed.
Lemma long_number_spec s :
  accepts longNumberAnywhereRegex s = true
  <-> exists a n b, s = a +:+ n +:+ b ∧ String.length n = 7 ∧ str_forall is_digit n = true.
Proof.
  rewrite accepts_spec. unfold longNumberAnywhereRegex. rewrite somewhere_spec. setoid_rewrite at_least_char. split.
  - intros (a & b & c & -> & Hd & Hl). destruct (str_take 7 b) as (n & r & -> & Hn); [done|].
    rewrite str_forall_app in Hd. apply andb_true_iff in Hd as [Hd _]. exists a, n, (r +:+ c). by rewrite str_app_assoc.
  - intros (a & n & b & -> & Hl & Hd). exists a, n, b. by rewrite Hl.
Qed.
Lemma uuid_spec s :
  accepts uuidRegex s = true <-> exists u r, matches uuid u ∧ (s = u +:+ r ∨ s = r +:+ u).
Proof.
  rewrite accepts_spec. unfold uuidRegex. rewrite matches_alt, !matches_seq. split.
  - intros [(u & r & -> & Hu & _)|(r & u & -> & _ & Hu)]; exists u, r; auto.
  - intros (u & r & Hu & [->| ->]); [left; exists u, r|right; exists r, u]; split_and!; auto using anything_spec.
Qed.
Lemma hex_spec s :
  accepts hexEncodedRegex s = true <-> str_forall is_hex s = true ∧ exists n, 8 <= n ∧ String.length s = n * 2.
Proof. rewrite accepts_spec. apply (at_least_block 8 2). Qed.

Lemma identifier_spec s :
  identifier s
  <-> accepts noLettersRegex s || accepts longNumberAnywhereRegex s || accepts uuidRegex s || accepts hexEncodedRegex s
      || has_rune_error s = true.
Proof.
  rewrite !orb_true_iff, no_letters_spec, long_number_spec, uuid_spec, hex_spec. split.
  - intros [s' H1 H2|a n b H1 H2|u s' Hu|u s' Hu|s' n H1 H2 H3|s' H1].
    + by left; left; left; left.
    + left; left; left; right. by exists a, n, b.
    + left; left; right. exists u, s'. auto.
    + left; left; right. exists u, s'. auto.
    + left; right. split; [done|]. exists n. lia.
    + by right.
  - intros [[[[[H1 H2]|(a & n & b & -> & H1 & H2)]|(u & r & Hu & [->| ->])]|(H1 & n & H2 & H3)]|H1].
    + by apply id_no_letters.
    + by apply id_long_number.
    + by apply id_uuid_first.
    + by apply id_uuid_last.
    + apply (id_hex s n); [lia|lia|done].
    + by apply id_broken.
Qed.

(** Without configured ids the heuristics name a segment "date" for the
    language of dates, else "email" for the language of addresses, else "id"
    for an identifier (only digits and punctuation, seven digits in a row, a
    UUID at either end, at least sixteen hexadecimal digits of even number,
    bytes that are not UTF-8), and keep every other segment. *)
Theorem heuristics_exact `{GoLibrary} s :
  let name := getSegmentTemplatizationString s [] in
  (name = "date" <-> matches datesRegex s)
  ∧ (name = "email" <-> ~ matches datesRegex s ∧ matches emailRegex s)
  ∧ (name = "id" <-> ~ matches datesRegex s ∧ ~ matches emailRegex s ∧ identifier s)
  ∧ (name = "" <-> ~ matches datesRegex s ∧ ~ matches emailRegex s ∧ ~ identifier s).
Proof.
  cbv zeta. unfold getSegmentTemplatizationString. cbn [first_match].
  rewrite identifier_spec, <-!accepts_spec. destruct (accepts datesRegex s), (accepts emailRegex s); [naive_solver..|].
  destruct (_ || has_rune_error s); naive_solver.
Qed.

(** Its own names are no identifiers. *)
Example heuristics_ex `{GoLibrary} :
  (fun s => getSegmentTemplatizationString s []) <$>
    ["users"; "17"; "INC0012686"; "2025-12-04T14:55Z"; "a@b.io"; "deadbeefdeadbeef"; "deadbeefdeadbee"; "{id}"]
  = [""; "id"; "id"; "date"; "email"; "id"; ""; ""].
Proof. by vm_compute. Qed.

(** *** Concrete inputs *)

Definition sample_pdata : Pdata := {| AsString := Str |}.
Definition sample_url_processor : option urlTemplateProcessor :=
  @newUrlTemplateProcessor sample_library ["/users/{user}/posts/*"; "/items/{ id }"] [].
Definition sample_span (path : string) : Span :=
  mkSpan "GET" SpanKindServer 0 0 "" StatusCodeUnset 0 0
    (<["http.request.method" := VStr "GET"]> {["url.path" := VStr path]}).
Definition sample_batch : Traces := [mkResourceSpans ∅ [[sample_span "/users/7/posts/last"; sample_span "/orders/1234/x"]]].

Lemma templatization_idempotent_witness :
  exists p, sample_url_processor = Some p
  ∧ let keys := fun _ => None in
    let run := @url_processTraces sample_library sample_pdata keys p in
    run (run sample_batch) = run sample_batch
    ∧ ((fun rs => sp_Name rs.2) <$> all_spans (run sample_batch)) = ["GET /users/{user}/posts/last"; "GET /orders/{id}/x"].
Proof.
  destruct sample_url_processor as [p|] eqn:E; [|by vm_compute in E]. exists p. split; [done|]. cbv zeta. split.
  - apply (@templatization_idempotent sample_library sample_pdata (fun _ => None) p sample_batch). by eapply url_new.
  - revert E. vm_compute. by intros [= <-].
Defined.

Lemma templated_path_matches_witness :
  exists p config, sample_url_processor = Some p
  ∧ let attr := sp_Attributes (sample_span "/users/7/posts/last") in
    @calculateTemplatedUrlFromAttrWithRules sample_library sample_pdata (customIds p) attr config SpanKindServer
      = Some ("/users/{user}/posts/last", CustomRule)
    ∧ IsPathMatching (ParseUserInputRuleString "/users/{user}/posts/last" false) "/users/7/posts/last" = true.
Proof.
  destruct sample_url_processor as [p|] eqn:E; [|by vm_compute in E].
  exists p, (mkWorkloadUrl (templatizationRules p) None). split; [done|]. cbv zeta.
  assert (Hc : @calculateTemplatedUrlFromAttrWithRules sample_library sample_pdata (customIds p)
                 (sp_Attributes (sample_span "/users/7/posts/last")) (mkWorkloadUrl (templatizationRules p) None) SpanKindServer
               = Some ("/users/{user}/posts/last", CustomRule)) by (revert E; vm_compute; by intros [= <-]).
  split; [done|].
  eapply (@templated_path_matches sample_library sample_pdata p (mkWorkloadUrl (templatizationRules p) None)); [by eapply url_new|by left| | |exact Hc|done].
  - revert E. vm_compute. by intros [= <-].
  - by vm_compute.
Defined.
