(* ===== verification/TailSampling.v ===== *)
(** * The tail sampling processor (src/collector/processors/odigostailsamplingprocessor)

    A batch is one trace.  Each container's configuration, received from the
    configuration extension, is turned into computed rules with a matcher
    each; the trace is judged by the noisy operations of its root span, else
    by the highly relevant operations, else by the cost reductions, of all its
    spans.  The decision compares the percentage of the deciding rule with a
    number in [0, 100] computed from the trace id.

    The randomness of a trace id ([TraceIDToRandomness], a number below 2^56)
    is the sampling library's. *)

From Stdlib Require Import Ascii.
From Stdlib Require Import SpecFloat.
From S2P Require Import Prelude.
From S2P Require Import GoStrings.
From S2P Require Import Api.
From S2P Require Import GoLib.
From S2P Require Import GatewayConfig.
From S2P Require Import UrlTemplate.
From S2P Require Import Pdata.

(** ** float64 arithmetic *)
Definition float_leb : float64 -> float64 -> bool := SFleb.
Definition float_ltb : float64 -> float64 -> bool := SFltb.
Definition float_mul : float64 -> float64 -> float64 := SFmul 53 1024.
Definition float_div : float64 -> float64 -> float64 := SFdiv 53 1024.
Definition float_hundred : float64 := float_of 100 0.

(** [strings.EqualFold] of texts in ASCII. *)
Definition EqualFold (s t : string) : bool := bool_decide (to_lower s = to_lower t).
(** [strings.Cut] at a byte. *)
Definition Cut (s : string) (sep : ascii) : string * string * bool :=
  match split2 sep s with Some (before, after) => (before, after, true) | None => (s, "", false) end.
Definition uint64 (z : Z) : Z := (z mod 2 ^ 64)%Z.

(** ** Matchers (matchers/) *)

Inductive Matcher :=
| anyMatcher
| headSamplingHttpServerMatcher (method : string) (route : PathRule)
| headSamplingHttpClientMatcher (method serverAddress : string) (templatedPath : PathRule)
| headSamplingGrpcServerMatcher (method service : string)
| headSamplingGrpcClientMatcher (method service serverAddress : string)
| tailSamplingHttpServerMatcher (method : string) (route : PathRule)
| tailSamplingKafkaConsumerMatcher
| tailSamplingKafkaProducerMatcher
| spanErrorMatcher (requireError : bool)
| spanDurationMatcher (durationMs : option Z)
| compositeMatcher (matchers : list Matcher).

(** *** Attributes of a span (attrgetter.go) *)

Definition span_attribute (key : string) (s : Span) : option string := Str <$> sp_Attributes s !! key.
Definition or_else {A} (a b : option A) : option A := match a with Some _ => a | None => b end.

Definition getSpanHttpMethod (s : Span) : option string :=
  or_else (span_attribute "http.request.method" s) (span_attribute "http.method" s).
Definition getHttpTemplatedPath : Span -> option string := span_attribute "url.template".
Definition getHttpRoute : Span -> option string := span_attribute "http.route".
Definition getHttpServerPath (s : Span) : option string :=
  or_else (span_attribute "url.path" s) (span_attribute "http.target" s).
Definition getServerAddress : Span -> option string := span_attribute "server.address".
Definition getRpcSystem (s : Span) : option string :=
  or_else (span_attribute "rpc.system.name" s) (span_attribute "rpc.system" s).

(** "service/method", with both parts. *)
Definition service_method (value : string) : option (string * string) :=
  match Cut value "/" with
  | (service, method, true) => if decide (service <> "" ∧ method <> "") then Some (service, method) else None
  | _ => None
  end.
Definition getRpcMethod (s : Span) : option string :=
  match span_attribute "rpc.method" s with
  | None => None
  | Some value => Some (match service_method value with Some (_, method) => method | None => value end)
  end.
Definition getRpcService (s : Span) : option string :=
  match span_attribute "rpc.service" s with
  | Some service => Some service
  | None => match span_attribute "rpc.method" s with None => None | Some value => fst <$> service_method value end
  end.

(** *** Comparing (attrcompare.go, match.go) *)

Definition compareHttpMethod (spanMethod ruleMethod : string) : bool := EqualFold ruleMethod spanMethod.
Definition compareHttpRoute (spanRoute : string) (rule : PathRule) : bool :=
  if Empty rule then true else IsPathMatching rule spanRoute.
Definition matchHttpRoute (s : Span) (rule : PathRule) : bool :=
  if Empty rule then true
  else match getHttpRoute s with
       | Some route => compareHttpRoute route rule
       | None => match getHttpServerPath s with Some path => compareHttpRoute path rule | None => false end
       end.
Definition matchTemplatedPath (s : Span) (rule : PathRule) : bool :=
  if Empty rule then true
  else match getHttpTemplatedPath s with Some t => compareHttpRoute t rule | None => false end.
Definition matchServerAddress (s : Span) (address : string) : bool :=
  match getServerAddress s with Some a => bool_decide (a = address) | None => false end.
Definition matchGrpcMethodAndService (s : Span) (ruleMethod ruleService : string) : bool :=
  if match getRpcSystem s with Some system => negb (EqualFold system "grpc") | None => false end then false
  else
    let spanMethod := getRpcMethod s in
    let spanService := getRpcService s in
    if decide (spanMethod = None ∧ spanService = None) then false
    else if decide (ruleMethod <> "" ∧ default "" spanMethod <> ruleMethod) then false
    else if decide (ruleService <> "" ∧ default "" spanService <> ruleService) then false else true.

(** The method is optional in a rule, but the span has one. *)
Definition match_method (s : Span) (method : string) : bool :=
  match getSpanHttpMethod s with
  | None => false
  | Some m => bool_decide (method = "") || compareHttpMethod m method
  end.

Fixpoint Match (m : Matcher) (s : Span) : bool :=
  match m with
  | anyMatcher => true
  | headSamplingHttpServerMatcher method route =>
      bool_decide (sp_Kind s = SpanKindServer) && match_method s method && (Empty route || matchHttpRoute s route)
  | headSamplingHttpClientMatcher method serverAddress templatedPath =>
      bool_decide (sp_Kind s = SpanKindClient) && match_method s method
      && (bool_decide (serverAddress = "") || matchServerAddress s serverAddress)
      && (Empty templatedPath || matchTemplatedPath s templatedPath)
  | headSamplingGrpcServerMatcher method service =>
      bool_decide (sp_Kind s = SpanKindServer) && matchGrpcMethodAndService s method service
  | headSamplingGrpcClientMatcher method service serverAddress =>
      bool_decide (sp_Kind s = SpanKindClient) && matchGrpcMethodAndService s method service
      && (bool_decide (serverAddress = "") || matchServerAddress s serverAddress)
  | tailSamplingHttpServerMatcher method route =>
      bool_decide (sp_Kind s = SpanKindServer) && match_method s method && matchHttpRoute s route
  | tailSamplingKafkaConsumerMatcher | tailSamplingKafkaProducerMatcher => false
  | spanErrorMatcher requireError => negb requireError || bool_decide (sp_Status s = StatusCodeError)
  | spanDurationMatcher None => true
  | spanDurationMatcher (Some durationMs) =>
      let spanDurationNano := uint64 (sp_EndTimestamp s - sp_StartTimestamp s) in
      let thresholdNano := uint64 (uint64 durationMs * 1000000) in
      bool_decide (thresholdNano <= spanDurationNano)%Z
  | compositeMatcher matchers => forallb (fun m => Match m s) matchers
  end.

(** *** Building them (headsampling.go, tailsampling.go, highlyrelevance.go) *)

Definition parseRoutePathSegments (exact prefix : string) : PathRule :=
  let path := if decide (exact = "") then prefix else exact in
  if decide (path = "") then no_rule else ParseUserInputRuleString path (bool_decide (exact = "")).

Definition NewHeadSamplingOperationMatcher (operation : option HeadSamplingOperationMatcher) : Matcher :=
  match operation with
  | None => anyMatcher
  | Some o =>
      match hm_http_server o, hm_http_client o, hm_grpc_server o, hm_grpc_client o with
      | Some h, _, _, _ => headSamplingHttpServerMatcher (hs_method h) (parseRoutePathSegments (hs_route h) (hs_route_prefix h))
      | None, Some h, _, _ =>
          headSamplingHttpClientMatcher (hc_method h) (hc_server_address h)
            (parseRoutePathSegments (hc_templated_path h) (hc_templated_path_prefix h))
      | None, None, Some g, _ => headSamplingGrpcServerMatcher (gs_method g) (gs_service g)
      | None, None, None, Some g => headSamplingGrpcClientMatcher (gc_method g) (gc_service g) (gc_server_address g)
      | None, None, None, None => anyMatcher
      end
  end.

Definition NewTailSamplingOperationMatcher (operation : option TailSamplingOperationMatcher) : Matcher :=
  match operation with
  | None => anyMatcher
  | Some o =>
      match tm_http_server o, tm_kafka_consumer o, tm_kafka_producer o with
      | Some h, _, _ => tailSamplingHttpServerMatcher (ts_method h) (parseRoutePathSegments (ts_route h) (ts_route_prefix h))
      | None, Some _, _ => tailSamplingKafkaConsumerMatcher
      | None, None, Some _ => tailSamplingKafkaProducerMatcher
      | None, None, None => anyMatcher
      end
  end.

Definition NewHighlyRelevantOperationMatcher (operation : option TailSamplingOperationMatcher) (requireError : bool)
    (durationMs : option Z) : Matcher :=
  let matchers :=
    match operation with Some _ => [NewTailSamplingOperationMatcher operation] | None => [] end
    ++ (if requireError then [spanErrorMatcher requireError] else [])
    ++ match durationMs with Some _ => [spanDurationMatcher durationMs] | None => [] end in
  match matchers with [] => anyMatcher | _ => compositeMatcher matchers end.

(** ** Computed rules (category/config) *)

Definition SamplingCategoryNoise := "noise".
Definition SamplingCategoryHighlyRelevant := "highly relevant".
Definition SamplingCategoryCostReduction := "cost reduction".

Record ComputedRule := mkComputedRule
  { RuleId : string;
    RuleName : string;
    Percentage : float64;
    RuleDisabled : bool;
    MetricsAttributes : Attributes;
    RuleMatcher : Matcher }.
Record ComputedWorkloadConfig := mkComputedConfig
  { NoisyOperations : list ComputedRule;
    HighlyRelevantOperations : list ComputedRule;
    CostReductionRules : list ComputedRule }.

Definition compteRuleMetricsAttributes (category ruleId ruleName : string) (ruleDisabled dryRun : bool) : Attributes :=
  let attrs := <["odigos.sampling.category" := VStr category]>
    (<["odigos.sampling.rule.id" := VStr ruleId]> {["odigos.sampling.rule.name" := VStr ruleName]}) in
  let attrs := if ruleDisabled then <["odigos.sampling.rule.disabled" := VBool true]> attrs else attrs in
  if dryRun then <["odigos.sampling.dry_run" := VBool true]> attrs else attrs.

Definition GetPercentageOrDefault0 (p : option float64) : float64 := default float_zero p.
Definition GetPercentageOrDefault100 (p : option float64) : float64 := default float_hundred p.

Definition precomputeNoisyOperations (cfg : TailSamplingSourceConfig) (dryRun : bool) : list ComputedRule :=
  (fun r => mkComputedRule (no_id r) (no_name r) (GetPercentageOrDefault0 (no_percentage r)) (no_disabled r)
     (compteRuleMetricsAttributes SamplingCategoryNoise (no_id r) (no_name r) (no_disabled r) dryRun)
     (NewHeadSamplingOperationMatcher (no_operation r))) <$> tsc_noisy cfg.
Definition precomputeHighlyRelevantOperations (cfg : TailSamplingSourceConfig) (dryRun : bool) : list ComputedRule :=
  (fun r => mkComputedRule (ho_id r) (ho_name r) (GetPercentageOrDefault100 (ho_percentage r)) (ho_disabled r)
     (compteRuleMetricsAttributes SamplingCategoryHighlyRelevant (ho_id r) (ho_name r) (ho_disabled r) dryRun)
     (NewHighlyRelevantOperationMatcher (ho_operation r) (ho_error r) (ho_duration r))) <$> tsc_relevant cfg.
Definition precomputeCostReductionRules (cfg : TailSamplingSourceConfig) (dryRun : bool) : list ComputedRule :=
  (fun r => mkComputedRule (co_id r) (co_name r) (co_percentage r) (co_disabled r)
     (compteRuleMetricsAttributes SamplingCategoryCostReduction (co_id r) (co_name r) (co_disabled r) dryRun)
     (NewTailSamplingOperationMatcher (co_operation r))) <$> tsc_cost cfg.
Definition precomputeWorkloadConfig (cfg : TailSamplingSourceConfig) (dryRun : bool) : ComputedWorkloadConfig :=
  mkComputedConfig (precomputeNoisyOperations cfg dryRun) (precomputeHighlyRelevantOperations cfg dryRun)
    (precomputeCostReductionRules cfg dryRun).

(** *** The cache of a processor (cache.go) *)

Record ConfigCache := mkConfigCache
  { cch_data : gmap string ComputedWorkloadConfig;
    (** the extension is attached *)
    cch_provider : bool;
    cch_dryRun : bool }.
Definition NewConfigCache (dryRun : bool) : ConfigCache := mkConfigCache ∅ false dryRun.
Definition ts_attach (c : ConfigCache) : ConfigCache := mkConfigCache (cch_data c) true (cch_dryRun c).
Definition ts_Shutdown (c : ConfigCache) : ConfigCache := mkConfigCache ∅ false (cch_dryRun c).
Definition ts_OnDeleteKey (key : string) (c : ConfigCache) : ConfigCache :=
  mkConfigCache (delete key (cch_data c)) (cch_provider c) (cch_dryRun c).
Definition ts_OnSet (key : string) (cfg : option ContainerCollectorConfig) (c : ConfigCache) : ConfigCache :=
  match cfg ≫= cc_tail_sampling with
  | None => ts_OnDeleteKey key c
  | Some t => mkConfigCache (<[key := precomputeWorkloadConfig t (cch_dryRun c)]> (cch_data c)) (cch_provider c) (cch_dryRun c)
  end.
Definition GetTailSamplingConfig (GetWorkloadCacheKey : Attributes -> option string) (c : ConfigCache) (resource : Attributes) :
    option ComputedWorkloadConfig :=
  if cch_provider c then GetWorkloadCacheKey resource ≫= fun key => cch_data c !! key else None.

(** ** Evaluating a category (category/) *)

Record RuleEvaluationResult := mkRuleEvaluation
  { ev_ComputedRule : ComputedRule; SpanCheckedCount : Z; SpanMatchedCount : Z }.
Abbreviation CategoryRulesEvaluationResults := (gmap string RuleEvaluationResult).
Abbreviation MatchingRules := (gmap string ComputedRule).

Definition RecordEvalResultForSingleSpan (aggregatedResults : CategoryRulesEvaluationResults) (rule : ComputedRule) (matched : bool) :
    CategoryRulesEvaluationResults :=
  let currResult := default (mkRuleEvaluation rule 0 0) (aggregatedResults !! RuleId rule) in
  <[RuleId rule := mkRuleEvaluation (ev_ComputedRule currResult) (SpanCheckedCount currResult + 1)
                     (if matched then SpanMatchedCount currResult + 1 else SpanMatchedCount currResult)]> aggregatedResults.

Record EvaluationResult := mkEvaluation
  { DecidingRule : option ComputedRule; RulesEvalResults : CategoryRulesEvaluationResults }.

(** *** Noisy operations: the rules of the root span, in order *)

Definition noisy_step (span : Span) (acc : option ComputedRule * CategoryRulesEvaluationResults) (noisyOperation : ComputedRule) :
    option ComputedRule * CategoryRulesEvaluationResults :=
  let '(leastPercentageRule, rulesEvalResults) := acc in
  if RuleDisabled noisyOperation then acc
  else if match leastPercentageRule with
          | Some least => float_eqb (Percentage least) float_zero || float_leb (Percentage least) (Percentage noisyOperation)
          | None => false
          end then acc
  else
    let matched := Match (RuleMatcher noisyOperation) span in
    (if matched then Some noisyOperation else leastPercentageRule,
     RecordEvalResultForSingleSpan rulesEvalResults noisyOperation matched).
Definition noisy_Evaluate (span : Span) (noisyOperations : list ComputedRule) : EvaluationResult :=
  let '(leastPercentageRule, rulesEvalResults) := foldl (noisy_step span) (None, ∅) noisyOperations in
  mkEvaluation leastPercentageRule rulesEvalResults.

(** *** All spans: highly relevant operations and cost reductions *)

Definition SetSpanMatchingRuleAttributesOnSpan (rule : ComputedRule) (s : Span) : Span :=
  set_sp_Attributes (fun a =>
    <["odigos.sampling.span.matching_rule.keep_percentage" := VDouble (Percentage rule)]>
      (<["odigos.sampling.span.matching_rule.name" := VStr (RuleName rule)]>
        (<["odigos.sampling.span.matching_rule.id" := VStr (RuleId rule)]> a))) s.

Definition EvalState : Type := CategoryRulesEvaluationResults * MatchingRules.
(** One rule on one span; the first rule of an id is kept. *)
Definition match_rule (span : Span) (acc : EvalState * list ComputedRule) (rule : ComputedRule) : EvalState * list ComputedRule :=
  let '(rulesEvalResults, matchingRules, matchedRules) := acc in
  let matched := Match (RuleMatcher rule) span in
  let rulesEvalResults := RecordEvalResultForSingleSpan rulesEvalResults rule matched in
  if matched
  then (rulesEvalResults,
        match matchingRules !! RuleId rule with Some _ => matchingRules | None => <[RuleId rule := rule]> matchingRules end,
        matchedRules ++ [rule])
  else (rulesEvalResults, matchingRules, matchedRules).
Definition matchHighlyRelevantRulesForSingleSpan (st : EvalState) (span : Span) (rules : list ComputedRule) :
    EvalState * list ComputedRule := foldl (match_rule span) (st, []) rules.
Definition matchCostReductionRulesForSingleSpan := matchHighlyRelevantRulesForSingleSpan.

(** The loops over the matching rules, with the map's entries in any order. *)
Fixpoint select_rule (extreme : float64) (better : float64 -> float64 -> bool) (selectedRule : option ComputedRule)
    (rules : list ComputedRule) : option ComputedRule :=
  match rules with
  | [] => selectedRule
  | r :: rules =>
      if RuleDisabled r then select_rule extreme better selectedRule rules
      else if float_eqb (Percentage r) extreme then Some r
      else select_rule extreme better
             (match selectedRule with
              | Some s => if better (Percentage r) (Percentage s) then Some r else selectedRule
              | None => Some r
              end) rules
  end.

Section Evaluate.
Context `{GoMapOrder}.

Definition map_values {A} (m : gmap string A) : list A := snd <$> map_order (map_to_list m).
Definition calculateDecidingRule (matchingRules : MatchingRules) : option ComputedRule :=
  select_rule float_hundred (fun p q => float_ltb q p) None (map_values matchingRules).
Definition calculateCostReductionDecidingRule (matchingRules : MatchingRules) : option ComputedRule :=
  select_rule float_zero float_ltb None (map_values matchingRules).

(** Of rules with the same id, the last. *)
Definition by_id (matchedRules : list ComputedRule) : MatchingRules := foldl (fun m r => <[RuleId r := r]> m) ∅ matchedRules.
Definition selectHighlyRelevantRuleFromMatches (l : list ComputedRule) : option ComputedRule := calculateDecidingRule (by_id l).
Definition selectCostReductionRuleFromMatches (l : list ComputedRule) : option ComputedRule :=
  calculateCostReductionDecidingRule (by_id l).

Section Category.
Context (rules_of : ComputedWorkloadConfig -> list ComputedRule) (select : list ComputedRule -> option ComputedRule)
        (config : Attributes -> option ComputedWorkloadConfig).

(** The rules of a resource; none is no list. *)
Definition getRulesConfig (resource : Attributes) : list ComputedRule :=
  match config resource with Some c => rules_of c | None => [] end.
Definition evaluate_span (rules : list ComputedRule) (st : EvalState) (span : Span) : EvalState * Span :=
  let '(st, matchedRules) := matchHighlyRelevantRulesForSingleSpan st span rules in
  (st, match select matchedRules with Some rule => SetSpanMatchingRuleAttributesOnSpan rule span | None => span end).
Definition evaluate_resource (st : EvalState) (rs : ResourceSpans) : EvalState * ResourceSpans :=
  match getRulesConfig (rs_Resource rs) with
  | [] => (st, rs)
  | rules =>
      let '(st, scopes) := map_accum (map_accum (evaluate_span rules)) st (rs_ScopeSpans rs) in
      (st, mkResourceSpans (rs_Resource rs) scopes)
  end.
Definition evaluate_trace (td : Traces) : EvalState * Traces := map_accum evaluate_resource (∅, ∅) td.
End Category.

Definition highlyrelevant_Evaluate (config : Attributes -> option ComputedWorkloadConfig) (td : Traces) : EvaluationResult * Traces :=
  let '(rulesEvalResults, matchingRules, td) :=
    evaluate_trace HighlyRelevantOperations selectHighlyRelevantRuleFromMatches config td in
  (mkEvaluation (calculateDecidingRule matchingRules) rulesEvalResults, td).
Definition costreduction_Evaluate (config : Attributes -> option ComputedWorkloadConfig) (td : Traces) : EvaluationResult * Traces :=
  let '(rulesEvalResults, matchingRules, td) :=
    evaluate_trace CostReductionRules selectCostReductionRuleFromMatches config td in
  (mkEvaluation (calculateCostReductionDecidingRule matchingRules) rulesEvalResults, td).
End Evaluate.

(** ** The processor (processor.go, utils.go) *)

Definition odigosTraceStateKey := "odigos".

Definition extractOdigosTraceStateValue (traceState : string) : string :=
  let entry_value entry :=
    let '(k, v, found) := Cut (trim_space entry) "=" in
    if found && bool_decide (trim_space k = odigosTraceStateKey) then Some (trim_space v) else None in
  default "" (head (omap entry_value (split "," traceState))).

Definition getRootSpan (td : Traces) : option (Span * Attributes) :=
  match first_match (fun rs => bool_decide (sp_ParentSpanID rs.2 = 0%Z)) (all_spans td) with
  | Some (resource, span) => Some (span, resource)
  | None => None
  end.

Inductive Prerequisites := NotOneTrace | SkipTrace | ProcessTrace (traceID : Z) (spanCount : Z).
(** The first span gives the trace id, and is the only one counted. *)
Fixpoint check_spans (traceId : option Z) (spans : list Span) : Prerequisites :=
  match spans with
  | [] => match traceId with Some id => ProcessTrace id 1 | None => SkipTrace end
  | s :: spans =>
      if match traceId with Some id => negb (bool_decide (sp_TraceID s = id)) | None => false end then NotOneTrace
      else if negb (bool_decide (extractOdigosTraceStateValue (sp_TraceState s) = "")) then SkipTrace
      else check_spans (Some (default (sp_TraceID s) traceId)) spans
  end.
Definition checkPrerequists (td : Traces) : Prerequisites := check_spans None (snd <$> all_spans td).

(** An addition to a counter of the processor's telemetry. *)
Record Measurement := mkMeasurement { ms_counter : string; ms_add : Z; ms_attributes : Attributes }.
Definition CategoryMetricsAttributeSet (category : string) (dryRun : bool) : Attributes :=
  let attrs := {["odigos.sampling.category" := VStr category]} in
  if dryRun then <["odigos.sampling.dry_run" := VBool true]> attrs else attrs.

Definition TraceCheckCount := "TraceCheckCount".
Definition SpanCheckCount := "SpanCheckCount".
Definition TraceMatchCount := "TraceMatchCount".
Definition SpanMatchCount := "SpanMatchCount".
Definition TraceKeepCount := "TraceKeepCount".
Definition SpanKeepCount := "SpanKeepCount".
Definition TraceDropCount := "TraceDropCount".
Definition SpanDropCount := "SpanDropCount".

Record Config := mkConfig
  { ts_DryRun : bool; ts_SpanSamplingAttributes : option SpanSamplingAttributesConfiguration }.

(** A switch of the configuration that is not set to true. *)
Definition not_disabled (get : SpanSamplingAttributesConfiguration -> option bool) (c : option SpanSamplingAttributesConfiguration) : bool :=
  negb (bool_decide (c ≫= get = Some true)).
Definition SetTraceSamplingAttributesOnSpans (category : string) (decidingRule : ComputedRule) (dryRun kept : bool)
    (spanSamplingAttributes : option SpanSamplingAttributesConfiguration) : Traces -> Traces :=
  map_spans (fun _ => set_sp_Attributes (fun a =>
    let a := if not_disabled ssa_SamplingCategoryDisabled spanSamplingAttributes
             then <["odigos.sampling.category" := VStr category]> a else a in
    let a := if not_disabled ssa_TraceDecidingRuleDisabled spanSamplingAttributes
             then
               let a := <["odigos.sampling.trace.deciding_rule.keep_percentage" := VDouble (Percentage decidingRule)]>
                          (<["odigos.sampling.trace.deciding_rule.id" := VStr (RuleId decidingRule)]> a) in
               if decide (RuleName decidingRule = "") then a
               else <["odigos.sampling.trace.deciding_rule.name" := VStr (RuleName decidingRule)]> a
             else a in
    if dryRun then <["odigos.sampling.trace.kept" := VBool kept]> (<["odigos.sampling.dry_run" := VBool true]> a) else a)).

Section Process.
Context `{GoMapOrder} (TraceIDToRandomness : Z -> Z) (GetWorkloadCacheKey : Attributes -> option string).

(** [float64(rnd) / float64(MaxAdjustedCount) * 100.0]. *)
Definition trace_percentage (traceID : Z) : float64 :=
  float_mul (float_div (float_of (TraceIDToRandomness traceID) 0) (float_of 1 56)) float_hundred.

Definition rule_measurements (tracePercentage : float64) (result : RuleEvaluationResult) : list Measurement :=
  let opts := MetricsAttributes (ev_ComputedRule result) in
  [mkMeasurement SpanCheckCount (SpanCheckedCount result) opts; mkMeasurement TraceCheckCount 1 opts]
  ++ (if decide (0 < SpanMatchedCount result)%Z then
        [mkMeasurement SpanMatchCount (SpanMatchedCount result) opts; mkMeasurement TraceMatchCount 1 opts;
         mkMeasurement (if float_ltb (Percentage (ev_ComputedRule result)) tracePercentage then TraceDropCount else TraceKeepCount) 1 opts]
      else []).
Definition recordMetrics (evalResult : CategoryRulesEvaluationResults) (tracePercentage : float64) (categoryOptions : Attributes) :
    list Measurement :=
  (map_values evalResult ≫= rule_measurements tracePercentage) ++ [mkMeasurement TraceCheckCount 1 categoryOptions].
Definition recordCategoryMatchMetrics (opts : Attributes) (kept : bool) (spansCount : Z) : list Measurement :=
  [mkMeasurement TraceMatchCount 1 opts; mkMeasurement SpanMatchCount spansCount opts]
  ++ (if kept then [mkMeasurement TraceKeepCount 1 opts; mkMeasurement SpanKeepCount spansCount opts]
      else [mkMeasurement TraceDropCount 1 opts; mkMeasurement SpanDropCount spansCount opts]).
Definition recordTraceCheckMetrics (spansCount : Z) : list Measurement :=
  [mkMeasurement TraceCheckCount 1 ∅; mkMeasurement SpanCheckCount spansCount ∅].

Definition evaluateNoisyOperations (c : ConfigCache) (td : Traces) : EvaluationResult :=
  match getRootSpan td with
  | None => mkEvaluation None ∅
  | Some (rootSpan, resource) =>
      match GetTailSamplingConfig GetWorkloadCacheKey c resource with
      | None => mkEvaluation None ∅
      | Some config => noisy_Evaluate rootSpan (NoisyOperations config)
      end
  end.

(** What a category with a deciding rule does with the trace. *)
Definition decide_trace (cfg : Config) (category : string) (rule : ComputedRule) (tracePercentage : float64) (spanCount : Z) (td : Traces) :
    Traces * list Measurement :=
  let keepTrace := float_leb tracePercentage (Percentage rule) in
  (if keepTrace || ts_DryRun cfg
   then SetTraceSamplingAttributesOnSpans category rule (ts_DryRun cfg) keepTrace (ts_SpanSamplingAttributes cfg) td
   else [],
   recordCategoryMatchMetrics (CategoryMetricsAttributeSet category (ts_DryRun cfg)) keepTrace spanCount).

Definition ts_processTraces (cfg : Config) (c : ConfigCache) (td : Traces) : Traces * list Measurement :=
  if negb (cch_provider c) then (td, [])
  else
    match checkPrerequists td with
    | NotOneTrace | SkipTrace => (td, [])
    | ProcessTrace traceID spanCount =>
        let tracePercentage := trace_percentage traceID in
        let recorded category res :=
          recordMetrics (RulesEvalResults res) tracePercentage (CategoryMetricsAttributeSet category (ts_DryRun cfg)) in
        let config := GetTailSamplingConfig GetWorkloadCacheKey c in
        let noisyOperationRes := evaluateNoisyOperations c td in
        let m := recordTraceCheckMetrics spanCount ++ recorded SamplingCategoryNoise noisyOperationRes in
        match DecidingRule noisyOperationRes with
        | Some rule =>
            let '(td, m') := decide_trace cfg SamplingCategoryNoise rule tracePercentage spanCount td in (td, m ++ m')
        | None =>
            let '(highlyRelevantRes, td) := highlyrelevant_Evaluate config td in
            let m := m ++ recorded SamplingCategoryHighlyRelevant highlyRelevantRes in
            match DecidingRule highlyRelevantRes with
            | Some rule =>
                let '(td, m') := decide_trace cfg SamplingCategoryHighlyRelevant rule tracePercentage spanCount td in (td, m ++ m')
            | None =>
                let '(costReductionRes, td) := costreduction_Evaluate config td in
                let m := m ++ recorded SamplingCategoryCostReduction costReductionRes in
                match DecidingRule costReductionRes with
                | Some rule =>
                    let '(td, m') := decide_trace cfg SamplingCategoryCostReduction rule tracePercentage spanCount td in (td, m ++ m')
                | None => (td, m)
                end
            end
        end
    end.
End Process.
