(* ===== verification/TailSamplingProperties.v ===== *)
(** * Tail sampling: the decision is the one the categories describe

    The order of float64 numbers, the rule each loop selects, what the
    evaluation of a category collects, and that sampling attributes change no
    later decision. *)

From Stdlib Require Import SpecFloat.
From S2P Require Import Prelude.
From S2P Require Import GoStrings.
From S2P Require Import Api.
From S2P Require Import GoLib.
From S2P Require Import GatewayConfig.
From S2P Require Import UrlTemplate.
From S2P Require Import Pdata.
From S2P Require Import TailSampling.

(** ** The order of numbers *)

Definition number (x : float64) : bool := match x with S754_nan => false | _ => true end.

(** Numbers compare as their sign, exponent and mantissa do. *)
Definition key (x : float64) : Z * Z * Z :=
  match x with
  | S754_nan | S754_zero _ => (0, 0, 0)%Z
  | S754_infinity s => (if s then -2 else 2, 0, 0)%Z
  | S754_finite s m e => if s then (-1, - e, - Zpos m)%Z else (1, e, Zpos m)%Z
  end.
Definition key_compare (a b : Z * Z * Z) : comparison :=
  match (a.1.1 ?= b.1.1)%Z with
  | Eq => match (a.1.2 ?= b.1.2)%Z with Eq => (a.2 ?= b.2)%Z | c => c end
  | c => c
  end.

Lemma compare_key x y : SFcompare x y = if number x && number y then Some (key_compare (key x) (key y)) else None.
Proof.
  destruct x as [[]|[]| |[] m e], y as [[]|[]| |[] m' e']; try done; cbn.
  - unfold key_compare. cbn [key fst snd]. rewrite !Z.compare_opp, (Z.compare_antisym e e').
    destruct (e ?= e')%Z; try done. cbn [CompOpp]. by rewrite (Z.compare_antisym (Z.pos m) (Z.pos m')).
Qed.

(** The order on keys, as a proposition for [lia]. *)
Definition key_le (a b : Z * Z * Z) : Prop :=
  (a.1.1 < b.1.1 ∨ a.1.1 = b.1.1 ∧ (a.1.2 < b.1.2 ∨ a.1.2 = b.1.2 ∧ a.2 <= b.2))%Z.
Lemma key_compare_le a b : match key_compare a b with Gt => ~ key_le a b | _ => key_le a b end.
Proof.
  unfold key_compare, key_le.
  destruct (Z.compare_spec a.1.1 b.1.1); [|lia..]. destruct (Z.compare_spec a.1.2 b.1.2); [|lia..]. destruct (Z.compare_spec a.2 b.2); lia.
Qed.

Lemma float_leb_key x y : float_leb x y = true <-> number x = true ∧ number y = true ∧ key_le (key x) (key y).
Proof.
  unfold float_leb, SFleb. rewrite compare_key. pose proof (key_compare_le (key x) (key y)).
  destruct (number x), (number y); cbn [andb]; try naive_solver. destruct (key_compare _ _); naive_solver.
Qed.
Lemma key_compare_lt a b : match key_compare a b with Lt => ~ key_le b a | Eq => key_le a b ∧ key_le b a | Gt => key_le b a end.
Proof.
  unfold key_compare, key_le.
  destruct (Z.compare_spec a.1.1 b.1.1); [|lia..]. destruct (Z.compare_spec a.1.2 b.1.2); [|lia..]. destruct (Z.compare_spec a.2 b.2); lia.
Qed.
Lemma float_ltb_leb x y : number x = true -> number y = true -> float_ltb x y = negb (float_leb y x).
Proof.
  intros Hx Hy. apply eq_true_iff_eq. rewrite negb_true_iff, <-not_true_iff_false, float_leb_key. unfold float_ltb, SFltb.
  rewrite compare_key, Hx, Hy. cbn [andb]. pose proof (key_compare_lt (key x) (key y)). destruct (key_compare _ _); naive_solver.
Qed.
Lemma float_eqb_leb x y : number x = true -> number y = true -> float_eqb x y = true -> float_leb x y = true ∧ float_leb y x = true.
Proof.
  intros Hx Hy. rewrite !float_leb_key. unfold float_eqb, SFeqb. rewrite compare_key, Hx, Hy. cbn [andb].
  pose proof (key_compare_lt (key x) (key y)). destruct (key_compare _ _); naive_solver.
Qed.

Lemma float_leb_trans x y z : float_leb x y = true -> float_leb y z = true -> float_leb x z = true.
Proof. rewrite !float_leb_key. unfold key_le. intros (? & ? & ?) (? & ? & ?). split_and!; [done..|]. lia. Qed.
Lemma float_leb_total x y : number x = true -> number y = true -> float_leb x y = true ∨ float_leb y x = true.
Proof. rewrite !float_leb_key. unfold key_le. intros -> ->. lia. Qed.
Lemma float_leb_number x y : float_leb x y = true -> number x = true ∧ number y = true.
Proof. rewrite float_leb_key. naive_solver. Qed.
Lemma float_leb_refl x : number x = true -> float_leb x x = true.
Proof. rewrite float_leb_key. unfold key_le. intros ->. lia. Qed.

(** A percentage. *)
Definition percentage_valid (p : float64) : Prop := float_leb float_zero p = true ∧ float_leb p float_hundred = true.
Lemma valid_number p : percentage_valid p -> number p = true.
Proof. by intros [[_ ?]%float_leb_number _]. Qed.

(** ** The selected rule *)

Definition enabled (rules : list ComputedRule) : list ComputedRule := filter (fun r => RuleDisabled r = false) rules.
Definition rules_valid (rules : list ComputedRule) : Prop := forall r, r ∈ rules -> percentage_valid (Percentage r).

(** The rule with the best percentage, for an order on percentages. *)
Definition best (le : float64 -> float64 -> bool) (rules : list ComputedRule) (r : option ComputedRule) : Prop :=
  match r with
  | None => rules = []
  | Some r => r ∈ rules ∧ forall r', r' ∈ rules -> le (Percentage r) (Percentage r') = true
  end.

Section Select.
Context (le : float64 -> float64 -> bool) (extreme : float64) (better : float64 -> float64 -> bool).
Context (le_trans : forall x y z, le x y = true -> le y z = true -> le x z = true)
        (le_refl : forall x, number x = true -> le x x = true)
        (better_spec : forall x y, number x = true -> number y = true -> better x y = negb (le y x))
        (le_total : forall x y, number x = true -> number y = true -> le x y = true ∨ le y x = true)
        (extreme_least : forall x y, percentage_valid x -> percentage_valid y -> float_eqb x extreme = true -> le x y = true).

Lemma best_step seen sel r :
  rules_valid (seen ++ [r]) -> best le seen sel ->
  best le (seen ++ [r]) (match sel with Some s => if better (Percentage r) (Percentage s) then Some r else sel | None => Some r end).
Proof.
  intros Hv Hb. assert (Hr : number (Percentage r) = true) by (apply valid_number, Hv; set_solver).
  destruct sel as [s|]; cbn in Hb.
  - destruct Hb as [Hin Hs]. assert (Hn : number (Percentage s) = true) by (apply valid_number, Hv; set_solver).
    rewrite better_spec by done. destruct (le (Percentage s) (Percentage r)) eqn:E; cbn [negb best].
    + split; [set_solver|]. intros r' [?| ->%list_elem_of_singleton]%elem_of_app; auto.
    + destruct (le_total _ _ Hr Hn) as [Hle|]; [|congruence]. split; [set_solver|].
      intros r' [?| ->%list_elem_of_singleton]%elem_of_app; [|auto]. apply (le_trans _ (Percentage s)); auto.
  - subst seen. cbn. split; [set_solver|]. intros r' ->%list_elem_of_singleton. auto.
Qed.

Lemma select_best seen sel rules :
  rules_valid (seen ++ enabled rules) -> best le seen sel -> best le (seen ++ enabled rules) (select_rule extreme better sel rules).
Proof.
  revert seen sel. induction rules as [|r rules IH]; intros seen sel Hv Hb; [by rewrite app_nil_r|]. cbn [select_rule].
  unfold enabled in *. destruct (RuleDisabled r) eqn:Ed.
  - rewrite filter_cons_False in * by congruence. by apply IH.
  - rewrite filter_cons_True in * by done. rewrite cons_middle, (assoc_L (++)) in *.
    destruct (float_eqb (Percentage r) extreme) eqn:Ee.
    + cbn [best]. split; [set_solver|]. intros r' Hr'. apply extreme_least; [apply Hv; set_solver|by apply Hv|done].
    + apply IH; [done|]. apply best_step; [|done]. intros r' Hr'. apply Hv. set_solver.
Qed.
End Select.

Lemma least_rule rules : rules_valid (enabled rules) -> best float_leb (enabled rules) (select_rule float_zero float_ltb None rules).
Proof.
  intros Hv. apply (select_best float_leb float_zero float_ltb) with (seen := []) (sel := None); try done.
  - apply float_leb_trans.
  - apply float_leb_refl.
  - apply float_ltb_leb.
  - apply float_leb_total.
  - intros x y Hx Hy E. apply (float_leb_trans _ float_zero); [|apply Hy].
    by destruct (float_eqb_leb x float_zero (valid_number _ Hx) eq_refl E).
Qed.
Lemma most_rule rules :
  rules_valid (enabled rules) ->
  best (fun p q => float_leb q p) (enabled rules) (select_rule float_hundred (fun p q => float_ltb q p) None rules).
Proof.
  intros Hv. apply (select_best (fun p q => float_leb q p) float_hundred (fun p q => float_ltb q p)) with (seen := []) (sel := None); try done.
  - intros x y z ? ?. by apply (float_leb_trans _ y).
  - apply float_leb_refl.
  - intros x y ? ?. by apply float_ltb_leb.
  - intros x y ? ?. by apply float_leb_total.
  - intros x y Hx Hy E. apply (float_leb_trans _ float_hundred); [apply Hy|].
    by destruct (float_eqb_leb x float_hundred (valid_number _ Hx) eq_refl E).
Qed.

(** The decision with the best rule is the decision with all of them. *)
Lemma keep_least tp rules r :
  best float_leb rules (Some r) -> float_leb tp (Percentage r) = forallb (fun r => float_leb tp (Percentage r)) rules.
Proof.
  intros [Hin Hr]. apply eq_true_iff_eq. rewrite forallb_forall. split.
  - intros Ht r' Hr'%list_elem_of_In. apply (float_leb_trans _ (Percentage r)); auto.
  - intros Ha. by apply Ha, list_elem_of_In.
Qed.
Lemma keep_most tp rules r :
  best (fun p q => float_leb q p) rules (Some r) -> float_leb tp (Percentage r) = existsb (fun r => float_leb tp (Percentage r)) rules.
Proof.
  intros [Hin Hr]. apply eq_true_iff_eq. rewrite existsb_exists. split.
  - intros Ht. exists r. split; [by apply list_elem_of_In|done].
  - intros (r' & Hr'%list_elem_of_In & Ht). apply (float_leb_trans _ (Percentage r')); auto.
Qed.

(** ** Sampling attributes *)

(** A span without the attributes the processor sets. *)
Definition foreign (kv : string * Value) : Prop := has_prefix "odigos.sampling." kv.1 = false.
#[export] Instance foreign_dec kv : Decision (foreign kv).
Proof. unfold foreign. apply _. Defined.
Definition erase_span (s : Span) : Span := set_sp_Attributes (filter foreign) s.
Definition erase (td : Traces) : Traces := map_spans (fun _ => erase_span) td.

Lemma filter_set (k : string) (v : Value) (a : Attributes) :
  has_prefix "odigos.sampling." k = true -> filter foreign (<[k := v]> a) = filter foreign a.
Proof. intros Hk. apply map_filter_insert_not. intros y. unfold foreign. cbn [fst]. congruence. Qed.

Lemma erase_matching_rule rule s : erase_span (SetSpanMatchingRuleAttributesOnSpan rule s) = erase_span s.
Proof.
  unfold erase_span, SetSpanMatchingRuleAttributesOnSpan. rewrite set_attributes_twice. apply set_attributes_ext. intros a.
  by rewrite !filter_set by done.
Qed.

Lemma erase_trace_attributes category rule dryRun kept c td :
  erase (SetTraceSamplingAttributesOnSpans category rule dryRun kept c td) = erase td.
Proof.
  unfold erase, SetTraceSamplingAttributesOnSpans. rewrite map_spans_compose. apply map_spans_ext. intros _ s.
  unfold erase_span. rewrite set_attributes_twice. apply set_attributes_ext. intros a. cbv zeta.
  destruct (not_disabled _ _), (not_disabled _ _), dryRun; try case_decide; by rewrite ?filter_set by done.
Qed.

(** *** Matchers do not see them *)

Lemma erased_attribute k s : has_prefix "odigos.sampling." k = false -> span_attribute k (erase_span s) = span_attribute k s.
Proof.
  intros Hk. unfold span_attribute, erase_span. cbn [sp_Attributes set_sp_Attributes]. f_equal. apply option_eq. intros v.
  rewrite map_lookup_filter_Some. unfold foreign. cbn. tauto.
Qed.

Lemma erased_method s m : match_method (erase_span s) m = match_method s m.
Proof. unfold match_method, getSpanHttpMethod. by rewrite !erased_attribute by done. Qed.
Lemma erased_route s r : matchHttpRoute (erase_span s) r = matchHttpRoute s r.
Proof. unfold matchHttpRoute, getHttpRoute, getHttpServerPath. by rewrite !erased_attribute by done. Qed.
Lemma erased_template s r : matchTemplatedPath (erase_span s) r = matchTemplatedPath s r.
Proof. unfold matchTemplatedPath, getHttpTemplatedPath. by rewrite !erased_attribute by done. Qed.
Lemma erased_address s a : matchServerAddress (erase_span s) a = matchServerAddress s a.
Proof. unfold matchServerAddress, getServerAddress. by rewrite !erased_attribute by done. Qed.
Lemma erased_grpc s m v : matchGrpcMethodAndService (erase_span s) m v = matchGrpcMethodAndService s m v.
Proof. unfold matchGrpcMethodAndService, getRpcSystem, getRpcMethod, getRpcService. by rewrite !erased_attribute by done. Qed.

Fixpoint erased_match (m : Matcher) (s : Span) : Match m (erase_span s) = Match m s.
Proof.
  destruct m as [|method route|method a t|method v|method v a|method route| | |e|d|ms]; cbn [Match];
    rewrite ?erased_method, ?erased_route, ?erased_template, ?erased_address, ?erased_grpc; try done.
  induction ms as [|m ms IH]; cbn [forallb]; [done|]. by rewrite erased_match, IH.
Qed.

(** ** The evaluation of a category *)

Definition matched_rules (rules : list ComputedRule) (s : Span) : list ComputedRule :=
  filter (fun r => Match (RuleMatcher r) s = true) rules.
Definition add_first (m : MatchingRules) (r : ComputedRule) : MatchingRules :=
  match m !! RuleId r with Some _ => m | None => <[RuleId r := r]> m end.

Section Category.
Context `{GoMapOrder} (rules_of : ComputedWorkloadConfig -> list ComputedRule) (select : list ComputedRule -> option ComputedRule)
        (config : Attributes -> option ComputedWorkloadConfig).

Lemma match_rules_state st s rules :
  (matchHighlyRelevantRulesForSingleSpan st s rules).1.2 = foldl add_first st.2 (matched_rules rules s).
Proof.
  unfold matchHighlyRelevantRulesForSingleSpan, matched_rules. generalize ([] : list ComputedRule). revert st.
  induction rules as [|r rules IH]; intros [ev m] l; [done|]. cbn [foldl match_rule]. rewrite filter_cons.
  destruct (Match (RuleMatcher r) s) eqn:E.
  - rewrite IH, decide_True by done. done.
  - rewrite IH, decide_False by done. done.
Qed.

Lemma evaluate_span_state rules st s : (evaluate_span select rules st s).1.2 = foldl add_first st.2 (matched_rules rules s).
Proof. unfold evaluate_span. rewrite <-match_rules_state. by destruct (matchHighlyRelevantRulesForSingleSpan st s rules). Qed.
Lemma evaluate_span_erase rules st s : erase_span (evaluate_span select rules st s).2 = erase_span s.
Proof.
  unfold evaluate_span. destruct (matchHighlyRelevantRulesForSingleSpan st s rules) as [st' l]. cbn [snd].
  destruct (select l); [apply erase_matching_rule|done].
Qed.

(** The rules of the trace's resources that its spans match. *)
Definition trace_matches (td : Traces) : list ComputedRule :=
  all_spans td ≫= fun rs => matched_rules (getRulesConfig rules_of config rs.1) rs.2.

Lemma foldl_bind {S A B} (f : S -> B -> S) (g : A -> list B) s l :
  foldl (fun s x => foldl f s (g x)) s l = foldl f s (l ≫= g).
Proof. revert s. induction l as [|x l IH]; intros s; [done|]. cbn. by rewrite foldl_app, IH. Qed.

Lemma fold_snd {S1 S2 A} (f : S1 * S2 -> A -> S1 * S2) (g : S2 -> A -> S2) st l :
  (forall st x, (f st x).2 = g st.2 x) -> (foldl f st l).2 = foldl g st.2 l.
Proof. intros Hf. revert st. induction l as [|x l IH]; intros st; [done|]. cbn. by rewrite IH, Hf. Qed.

Lemma bind_concat {A B} (f : A -> list B) (l : list (list A)) : concat l ≫= f = l ≫= fun x => x ≫= f.
Proof. induction l as [|x l IH]; [done|]. cbn. by rewrite bind_app, IH. Qed.

Lemma bind_assoc {A B C} (f : A -> list B) (g : B -> list C) l : (l ≫= f) ≫= g = l ≫= fun x => f x ≫= g.
Proof. induction l as [|x l IH]; [done|]. cbn. by rewrite bind_app, IH. Qed.

Lemma evaluate_resource_state st rs :
  (evaluate_resource rules_of select config st rs).1.2
  = foldl add_first st.2 (resource_spans rs ≫= fun rs => matched_rules (getRulesConfig rules_of config rs.1) rs.2).
Proof.
  unfold evaluate_resource, resource_spans.
  assert (Hs : forall rules, (map_accum (map_accum (evaluate_span select rules)) st (rs_ScopeSpans rs)).1.2
                             = foldl add_first st.2 (concat (rs_ScopeSpans rs) ≫= matched_rules rules)).
  { intros rules. rewrite map_accum_state, bind_concat, <-(foldl_bind add_first).
    apply (fold_snd _ (fun m spans => foldl add_first m (spans ≫= matched_rules rules))). intros st' spans.
    rewrite map_accum_state, <-(foldl_bind add_first). apply (fold_snd _ (fun m s => foldl add_first m (matched_rules rules s))).
    intros st'' s. apply evaluate_span_state. }
  rewrite list_fmap_bind. cbn [fst snd]. destruct (getRulesConfig rules_of config (rs_Resource rs)) as [|r rules] eqn:E.
  - clear Hs. cbn. induction (concat (rs_ScopeSpans rs)) as [|s l IH]; [done|]. cbn. by rewrite E.
  - specialize (Hs (r :: rules)). destruct (map_accum _ st (rs_ScopeSpans rs)) as [st' scopes]. cbn [fst snd] in *. rewrite Hs.
    f_equal. apply list_bind_ext; [|done]. intros s. cbn. by rewrite E.
Qed.

Lemma evaluate_trace_matching td : (evaluate_trace rules_of select config td).1.2 = foldl add_first ∅ (trace_matches td).
Proof.
  unfold evaluate_trace, trace_matches, all_spans. rewrite map_accum_state, bind_assoc, <-(foldl_bind add_first).
  apply (fold_snd _ (fun m rs => foldl add_first m (resource_spans rs ≫= fun rs => matched_rules (getRulesConfig rules_of config rs.1) rs.2))
          (∅, ∅)). intros st rs. apply evaluate_resource_state.
Qed.

Lemma evaluate_trace_erase td : erase (evaluate_trace rules_of select config td).2 = erase td.
Proof.
  unfold evaluate_trace, erase, map_spans. apply map_accum_list. intros st rs. unfold evaluate_resource.
  destruct (getRulesConfig rules_of config (rs_Resource rs)) as [|r rules]; [done|].
  pose proof (map_accum_list (map_accum (evaluate_span select (r :: rules))) (fmap (M:=list) erase_span) (fmap (M:=list) erase_span)
    st (rs_ScopeSpans rs)) as Hs.
  destruct (map_accum _ st (rs_ScopeSpans rs)) as [st' scopes]. cbn [snd rs_Resource rs_ScopeSpans] in *. f_equal. apply Hs.
  intros st'' spans. apply map_accum_list. intros ? s. apply evaluate_span_erase.
Qed.

Lemma trace_matches_erase td : trace_matches (erase td) = trace_matches td.
Proof.
  unfold trace_matches, erase. rewrite all_spans_map, list_fmap_bind. apply list_bind_ext; [|done]. intros [res s]. cbn.
  unfold matched_rules. apply list_filter_iff. intros r. by rewrite erased_match.
Qed.
End Category.

(** *** The deciding rule *)

Lemma add_first_entries l m :
  (forall k r, foldl add_first m l !! k = Some r -> m !! k = Some r ∨ r ∈ l ∧ RuleId r = k)
  ∧ (forall k, (is_Some (m !! k) ∨ exists r, r ∈ l ∧ RuleId r = k) -> is_Some (foldl add_first m l !! k)).
Proof.
  revert m. induction l as [|r l IH]; intros m; cbn [foldl].
  - split; [auto|]. intros k [?|(r & Hr & _)]; [done|]. by apply elem_of_nil in Hr.
  - destruct (IH (add_first m r)) as [H1 H2].
    assert (Ha : forall k, add_first m r !! k = m !! k ∨ k = RuleId r ∧ add_first m r !! k = Some r).
    { intros k. unfold add_first. destruct (m !! RuleId r) eqn:E; [by left|]. destruct (decide (RuleId r = k)) as [<-|Hk].
      - right. by rewrite lookup_insert_eq.
      - left. by rewrite lookup_insert_ne. }
    assert (Hb : is_Some (add_first m r !! RuleId r)).
    { unfold add_first. destruct (m !! RuleId r) eqn:E; [by rewrite E|]. rewrite lookup_insert_eq. by eexists. }
    split.
    + intros k r' Hk. apply H1 in Hk as [Hk|[Hin <-]]; [|right; split; [by right|done]].
      destruct (Ha k) as [Ea|[-> Ea]]; rewrite Ea in Hk; [by left|]. injection Hk as <-. right. split; [left|done].
    + intros k [Hk|(r' & Hr' & <-)].
      * apply H2. left. destruct (Ha k) as [Ea|[_ Ea]]; rewrite Ea; [done|by eexists].
      * apply elem_of_cons in Hr' as [->|Hr']; apply H2; [by left|]. right. by exists r'.
Qed.

(** Rules with the same id agree. *)
Definition consistent (rules : list ComputedRule) : Prop :=
  forall r r', r ∈ rules -> r' ∈ rules -> RuleId r = RuleId r' -> Percentage r = Percentage r' ∧ RuleDisabled r = RuleDisabled r'.

Lemma best_transfer le rules rules' r :
  (forall x, x ∈ rules -> x ∈ rules') -> (forall x, x ∈ rules' -> exists y, y ∈ rules ∧ Percentage y = Percentage x) ->
  best le rules r -> best le rules' r.
Proof.
  intros H1 H2. destruct r as [r|]; cbn.
  - intros [Hin Hr]. split; [by apply H1|]. intros x (y & Hy & <-)%H2. by apply Hr.
  - intros ->. destruct rules' as [|x l]; [done|]. destruct (H2 x) as (y & Hy & _); [left|by apply elem_of_nil in Hy].
Qed.

Section Deciding.
Context `{GoMapOrder} `{!GoMapOrderLaws}.

Lemma map_values_elem {A} (m : gmap string A) x : x ∈ map_values m <-> exists k, m !! k = Some x.
Proof.
  unfold map_values. rewrite list_elem_of_fmap. setoid_rewrite map_order_perm. split.
  - intros ([k y] & -> & Hy%elem_of_map_to_list). by exists k.
  - intros [k Hk]. exists (k, x). split; [done|]. by apply elem_of_map_to_list.
Qed.

Lemma matching_values l :
  consistent l ->
  (forall x, x ∈ enabled (map_values (foldl add_first ∅ l)) -> x ∈ enabled l)
  ∧ (forall x, x ∈ enabled l -> exists y, y ∈ enabled (map_values (foldl add_first ∅ l)) ∧ Percentage y = Percentage x).
Proof.
  intros Hc. destruct (add_first_entries l ∅) as [H1 H2]. unfold enabled. split.
  - intros x [Hd (k & Hk)%map_values_elem]%list_elem_of_filter. apply list_elem_of_filter. split; [done|].
    apply H1 in Hk as [Hk|[? _]]; [|done]. by rewrite lookup_empty in Hk.
  - intros x [Hd Hx]%list_elem_of_filter. destruct (H2 (RuleId x)) as [y Hy]; [right; by exists x|].
    pose proof Hy as [Hk|[Hin Hid]]%H1; [by rewrite lookup_empty in Hk|]. destruct (Hc y x Hin Hx Hid) as [Hp Hd'].
    exists y. split; [|done]. apply list_elem_of_filter. split; [congruence|]. apply map_values_elem. by exists (RuleId x).
Qed.

Lemma least_matching l :
  consistent l -> rules_valid l -> best float_leb (enabled l) (calculateCostReductionDecidingRule (foldl add_first ∅ l)).
Proof.
  intros Hc Hv. destruct (matching_values l Hc) as [H1 H2]. eapply best_transfer; [exact H1|exact H2|]. apply least_rule.
  intros x Hx. apply Hv. by apply H1, list_elem_of_filter in Hx as [_ ?].
Qed.
Lemma most_matching l :
  consistent l -> rules_valid l -> best (fun p q => float_leb q p) (enabled l) (calculateDecidingRule (foldl add_first ∅ l)).
Proof.
  intros Hc Hv. destruct (matching_values l Hc) as [H1 H2]. eapply best_transfer; [exact H1|exact H2|]. apply most_rule.
  intros x Hx. apply Hv. by apply H1, list_elem_of_filter in Hx as [_ ?].
Qed.
End Deciding.

(** *** Noisy operations *)

Lemma noisy_least_fold s seen acc rules :
  rules_valid (seen ++ enabled rules) -> best float_leb (matched_rules seen s) acc.1 ->
  best float_leb (matched_rules (seen ++ enabled rules) s) (foldl (noisy_step s) acc rules).1.
Proof.
  revert seen acc. induction rules as [|r rules IH]; intros seen acc Hv Hb; [by rewrite app_nil_r|]. cbn [foldl]. unfold enabled in *.
  destruct (RuleDisabled r) eqn:Ed.
  - rewrite filter_cons_False in * by congruence. apply IH; [done|]. destruct acc. unfold noisy_step. by rewrite Ed.
  - rewrite filter_cons_True in * by done. rewrite cons_middle, (assoc_L (++)) in *. apply IH; [done|]. clear IH.
    assert (Hr : percentage_valid (Percentage r)) by (apply Hv; set_solver).
    unfold matched_rules in *. rewrite filter_app. destruct acc as [[least|] ev]; unfold noisy_step; rewrite Ed; cbn [fst] in *.
    + destruct Hb as [Hin Hl]. assert (Hlv : percentage_valid (Percentage least)).
      { apply Hv. apply list_elem_of_filter in Hin as [_ ?]. set_solver. }
      destruct (float_eqb (Percentage least) float_zero || float_leb (Percentage least) (Percentage r)) eqn:Es; cbn [fst].
      * assert (Hle : float_leb (Percentage least) (Percentage r) = true).
        { apply orb_true_iff in Es as [Es|]; [|done]. apply (float_leb_trans _ float_zero); [|apply Hr].
          by destruct (float_eqb_leb _ float_zero (valid_number _ Hlv) eq_refl Es). }
        split; [set_solver|]. intros r' [?|[_ ->%list_elem_of_singleton]%list_elem_of_filter]%elem_of_app; auto.
      * apply orb_false_iff in Es as [_ Es]. destruct (Match (RuleMatcher r) s) eqn:Em; cbn [fst].
        -- rewrite filter_cons_True, filter_nil by done. split; [set_solver|].
           assert (Hle : float_leb (Percentage r) (Percentage least) = true)
             by (destruct (float_leb_total (Percentage r) (Percentage least)); auto using valid_number; congruence).
           intros r' [?| ->%list_elem_of_singleton]%elem_of_app; [|by apply float_leb_refl, valid_number].
           apply (float_leb_trans _ (Percentage least)); auto.
        -- rewrite filter_cons_False, filter_nil, app_nil_r by congruence. done.
    + cbn in Hb. rewrite Hb. cbn [app]. destruct (Match (RuleMatcher r) s) eqn:Em; cbn [fst].
      * rewrite filter_cons_True, filter_nil by done. split; [set_solver|]. intros r' ->%list_elem_of_singleton.
        by apply float_leb_refl, valid_number.
      * rewrite filter_cons_False, filter_nil by congruence. done.
Qed.

Lemma noisy_best s rules :
  rules_valid rules -> best float_leb (matched_rules (enabled rules) s) (DecidingRule (noisy_Evaluate s rules)).
Proof.
  intros Hv. unfold noisy_Evaluate. pose proof (noisy_least_fold s [] (None, ∅) rules) as Hn. destruct (foldl _ (None, ∅) rules) as [least ev].
  apply Hn; [|done]. intros r [_ ?]%list_elem_of_filter. by apply Hv.
Qed.

(** ** The decision *)

(** The enabled rules a trace matches, per category. *)
Section Reference.
Context (config : Attributes -> option ComputedWorkloadConfig).
Definition noisy_matches (td : Traces) : list ComputedRule :=
  match getRootSpan td with
  | Some (root, resource) => matched_rules (enabled (getRulesConfig NoisyOperations config resource)) root
  | None => []
  end.
Definition relevant_matches (td : Traces) : list ComputedRule := enabled (trace_matches HighlyRelevantOperations config td).
Definition cost_matches (td : Traces) : list ComputedRule := enabled (trace_matches CostReductionRules config td).

Definition all_rules (rules_of : ComputedWorkloadConfig -> list ComputedRule) (td : Traces) : list ComputedRule :=
  td ≫= fun rs => getRulesConfig rules_of config (rs_Resource rs).
(** Percentages are between 0 and 100, and rules with the same id agree. *)
Definition rules_ok (td : Traces) : Prop :=
  rules_valid (all_rules NoisyOperations td)
  ∧ (rules_valid (all_rules HighlyRelevantOperations td) ∧ consistent (all_rules HighlyRelevantOperations td))
  ∧ (rules_valid (all_rules CostReductionRules td) ∧ consistent (all_rules CostReductionRules td)).

(** A trace is kept at a percentage, and some rule says so. *)
Definition reference_keeps (tracePercentage : float64) (td : Traces) : bool :=
  let allows r := float_leb tracePercentage (Percentage r) in
  if nonempty (noisy_matches td) then forallb allows (noisy_matches td)
  else if nonempty (relevant_matches td) then existsb allows (relevant_matches td)
  else forallb allows (cost_matches td).
Definition reference_decides (td : Traces) : bool :=
  nonempty (noisy_matches td) || nonempty (relevant_matches td) || nonempty (cost_matches td).
End Reference.

Lemma trace_rules rules_of config td r : r ∈ trace_matches rules_of config td -> r ∈ all_rules config rules_of td.
Proof.
  unfold trace_matches, all_rules, all_spans. intros ([res s] & Hr & (rs & Hs & Hin)%list_elem_of_bind)%list_elem_of_bind.
  apply list_elem_of_bind. exists rs. split; [|done]. unfold resource_spans in Hs.
  apply list_elem_of_fmap in Hs as (s' & [= -> ->] & _). cbn in Hr. by apply list_elem_of_filter in Hr as [_ ?].
Qed.
Lemma consistent_subset l l' : (forall x, x ∈ l -> x ∈ l') -> consistent l' -> consistent l.
Proof. intros Hs Hc r r' Hr Hr'. apply Hc; by apply Hs. Qed.

Lemma erased_root td : getRootSpan (erase td) = (fun '(s, res) => (erase_span s, res)) <$> getRootSpan td.
Proof.
  unfold getRootSpan, erase. rewrite all_spans_map. induction (all_spans td) as [|[res s] l IH]; [done|]. cbn.
  destruct (bool_decide (sp_ParentSpanID s = 0%Z)); [done|]. apply IH.
Qed.

Section Decision.
Context `{GoMapOrder} `{!GoMapOrderLaws} (TraceIDToRandomness : Z -> Z) (GetWorkloadCacheKey : Attributes -> option string).

Lemma decide_trace_spec cfg category rule tp n td :
  let keep := float_leb tp (Percentage rule) in
  let out := (decide_trace cfg category rule tp n td).1 in
  erase out = (if keep || ts_DryRun cfg then erase td else [])
  ∧ (ts_DryRun cfg = true -> forall rs, rs ∈ all_spans out -> sp_Attributes rs.2 !! "odigos.sampling.trace.kept" = Some (VBool keep)).
Proof.
  intros keep out. subst out. unfold decide_trace. cbn [fst]. fold keep. split.
  - destruct (keep || ts_DryRun cfg); [apply erase_trace_attributes|done].
  - intros Hd rs. rewrite Hd, orb_true_r. unfold SetTraceSamplingAttributesOnSpans. rewrite all_spans_map.
    intros ([res s] & -> & _)%list_elem_of_fmap. cbn [fst snd sp_Attributes set_sp_Attributes]. cbv zeta. by rewrite lookup_insert_eq.
Qed.

(** A category decides with its best rule, and otherwise has no match. *)
Lemma noisy_decides c td :
  let config := GetTailSamplingConfig GetWorkloadCacheKey c in
  rules_valid (all_rules config NoisyOperations td) ->
  best float_leb (noisy_matches config td) (DecidingRule (evaluateNoisyOperations GetWorkloadCacheKey c td)).
Proof.
  intros config Hv. unfold noisy_matches, evaluateNoisyOperations. destruct (getRootSpan td) as [[root res]|] eqn:Er; [|done].
  unfold getRulesConfig. fold config. destruct (config res) as [cc|] eqn:Ec; [|done]. apply noisy_best. intros r Hr. apply Hv.
  unfold getRootSpan in Er. destruct (first_match _ (all_spans td)) as [[res' s]|] eqn:Em; [|done]. injection Er as -> ->.
  apply first_match_Some in Em as [(rs & Hs & Hin)%list_elem_of_bind _]. apply list_elem_of_bind. exists rs. split; [|done].
  apply list_elem_of_fmap in Hs as (s' & [= -> ->] & _). unfold getRulesConfig. by rewrite Ec.
Qed.
Lemma relevant_decides config td :
  rules_valid (all_rules config HighlyRelevantOperations td) -> consistent (all_rules config HighlyRelevantOperations td) ->
  best (fun p q => float_leb q p) (relevant_matches config td) (DecidingRule (highlyrelevant_Evaluate config td).1)
  ∧ erase (highlyrelevant_Evaluate config td).2 = erase td.
Proof.
  intros Hv Hc. unfold highlyrelevant_Evaluate.
  pose proof (evaluate_trace_matching HighlyRelevantOperations selectHighlyRelevantRuleFromMatches config td) as Hm.
  pose proof (evaluate_trace_erase HighlyRelevantOperations selectHighlyRelevantRuleFromMatches config td) as He.
  destruct (evaluate_trace _ _ _ td) as [[ev m] td']. cbn in *. subst m. split; [|done]. apply most_matching.
  - eapply consistent_subset; [|done]. apply trace_rules.
  - intros r Hr. by apply Hv, trace_rules.
Qed.
Lemma cost_decides config td :
  rules_valid (all_rules config CostReductionRules td) -> consistent (all_rules config CostReductionRules td) ->
  best float_leb (cost_matches config td) (DecidingRule (costreduction_Evaluate config td).1)
  ∧ erase (costreduction_Evaluate config td).2 = erase td.
Proof.
  intros Hv Hc. unfold costreduction_Evaluate.
  pose proof (evaluate_trace_matching CostReductionRules selectCostReductionRuleFromMatches config td) as Hm.
  pose proof (evaluate_trace_erase CostReductionRules selectCostReductionRuleFromMatches config td) as He.
  destruct (evaluate_trace _ _ _ td) as [[ev m] td']. cbn in *. subst m. split; [|done]. apply least_matching.
  - eapply consistent_subset; [|done]. apply trace_rules.
  - intros r Hr. by apply Hv, trace_rules.
Qed.

Lemma erased_rules config rules_of td : all_rules config rules_of (erase td) = all_rules config rules_of td.
Proof. unfold all_rules, erase, map_spans. by rewrite list_fmap_bind. Qed.
Lemma same_erased {A} (f : Traces -> A) td td' :
  (forall td, f (erase td) = f td) -> erase td' = erase td -> f td' = f td.
Proof. intros Hf E. by rewrite <-(Hf td'), E. Qed.

Lemma decided cfg category rule tp n td (m : list Measurement) :
  (let '(td, m') := decide_trace cfg category rule tp n td in (td, m ++ m')).1 = (decide_trace cfg category rule tp n td).1.
Proof. done. Qed.
Lemma best_nonempty le l r : best le l (Some r) -> nonempty l = true.
Proof. intros [Hin _]. by apply nonempty_true, elem_of_not_nil with r. Qed.

Lemma decision_made cfg c td id n :
  let config := GetTailSamplingConfig GetWorkloadCacheKey c in
  cch_provider c = true -> checkPrerequists td = ProcessTrace id n -> rules_ok config td ->
  let keep := reference_keeps config (trace_percentage TraceIDToRandomness id) td in
  let out := (ts_processTraces TraceIDToRandomness GetWorkloadCacheKey cfg c td).1 in
  erase out = (if keep || ts_DryRun cfg then erase td else [])
  ∧ (ts_DryRun cfg = true -> reference_decides config td = true ->
     forall rs, rs ∈ all_spans out -> sp_Attributes rs.2 !! "odigos.sampling.trace.kept" = Some (VBool keep)).
Proof.
  intros config Hp Hpre (Hn & (Hhv & Hhc) & Hcv & Hcc) keep out. subst out keep. unfold ts_processTraces, reference_keeps, reference_decides.
  rewrite Hp, Hpre. cbn [negb]. cbv zeta. fold config. set (tp := trace_percentage TraceIDToRandomness id).
  pose proof (noisy_decides c td Hn) as Hnb. fold config in Hnb.
  destruct (DecidingRule (evaluateNoisyOperations GetWorkloadCacheKey c td)) as [rule|].
  { rewrite decided, (best_nonempty _ _ _ Hnb), <-(keep_least tp _ _ Hnb). destruct (decide_trace_spec cfg SamplingCategoryNoise rule tp n td) as [He Hk]. by split; [|intros ? _; auto]. }
  cbn [best] in Hnb. rewrite !Hnb. cbn [nonempty orb]. destruct (relevant_decides config td Hhv Hhc) as [Hhb Hhe].
  destruct (highlyrelevant_Evaluate config td) as [res td1]. cbn [fst snd] in *. destruct (DecidingRule res) as [rule|].
  { rewrite decided, (best_nonempty _ _ _ Hhb), <-(keep_most tp _ _ Hhb), <-Hhe.
    destruct (decide_trace_spec cfg SamplingCategoryHighlyRelevant rule tp n td1) as [He Hk]. by split; [|intros ? _; auto]. }
  cbn [best] in Hhb. rewrite !Hhb. cbn [nonempty orb].
  rewrite <-(same_erased (all_rules config CostReductionRules) td td1 (erased_rules _ _) Hhe) in Hcv, Hcc.
  destruct (cost_decides config td1 Hcv Hcc) as [Hcb Hce]. unfold cost_matches in *.
  rewrite (same_erased (trace_matches CostReductionRules config) td td1 (trace_matches_erase _ _) Hhe) in Hcb.
  destruct (costreduction_Evaluate config td1) as [res2 td2]. cbn [fst snd] in *. rewrite Hhe in Hce. destruct (DecidingRule res2) as [rule|].
  - rewrite decided, (best_nonempty _ _ _ Hcb), <-(keep_least tp _ _ Hcb), <-Hce.
    destruct (decide_trace_spec cfg SamplingCategoryCostReduction rule tp n td2) as [He Hk]. by split; [|intros ? _; auto].
  - cbn [best] in Hcb. rewrite !Hcb. cbn [nonempty forallb orb fst]. by split.
Qed.

End Decision.

(** *** A concrete trace *)

Definition sample_relevant : HighlyRelevantOperation :=
  mkRelevant "errors" "errors" false true None None (Some (float_of 50 0)).
Definition sample_cost (id : string) (p : Z) (route : string) : CostReductionRule :=
  mkCost id "" false (Some (mkTailMatcher (Some (mkTailHttpServer route "" "")) None None)) (float_of p 0).
Definition sample_noise : NoisyOperation :=
  mkNoisy "health" "health" false (Some (mkHeadMatcher (Some (mkHeadHttpServer "/health" "" "" [])) None None None)) None.
Definition sample_sampling : TailSamplingSourceConfig :=
  mkTailSampling [sample_noise] [sample_relevant] [sample_cost "a" 10 "/users/{id}"; sample_cost "b" 20 "/users/*"].
Definition sample_cache : ConfigCache :=
  ts_OnSet "app" (Some (mkCollectorConfig "app" (Some sample_sampling) None None None None)) (ts_attach (NewConfigCache false)).
Definition sample_sampled (parent : Z) (status : StatusCode) (path : string) : Span :=
  mkSpan "GET" SpanKindServer 7 parent "" status 0 0 (<["http.request.method" := VStr "GET"]> {["http.route" := VStr path]}).
Definition sample_trace (status : StatusCode) (path : string) : Traces :=
  [mkResourceSpans ∅ [[sample_sampled 1 status "/users/7"; sample_sampled 0 StatusCodeUnset path]]].

(** The randomness of the trace is 15% of its range. *)
Definition sample_randomness (_ : Z) : Z := (2 ^ 56 * 15 / 100)%Z.
Definition sample_run := @ts_processTraces order_backward sample_randomness (fun _ => Some "app") (mkConfig false None) sample_cache.

Example tail_sampling_ex :
  nonempty (sample_run (sample_trace StatusCodeUnset "/users/{id}")).1 = false
  ∧ nonempty (sample_run (sample_trace StatusCodeError "/users/{id}")).1 = true
  ∧ nonempty (sample_run (sample_trace StatusCodeError "/health")).1 = false.
Proof. by vm_compute. Qed.

Definition percentage_ok (p : float64) : bool := float_leb float_zero p && float_leb p float_hundred.
Lemma percentages_ok rules : forallb (fun r => percentage_ok (Percentage r)) rules = true -> rules_valid rules.
Proof. rewrite forallb_forall. intros Ha r Hr%list_elem_of_In. by apply andb_true_iff, Ha. Qed.
Lemma distinct_consistent rules : NoDup (RuleId <$> rules) -> consistent rules.
Proof.
  intros Hn r r' [i Hi]%list_elem_of_lookup [j Hj]%list_elem_of_lookup E. assert (i = j) as <-; [|by simplify_eq].
  eapply NoDup_lookup; [exact Hn|..]; rewrite list_lookup_fmap, ?Hi, ?Hj; cbn; [done|by rewrite E].
Qed.

