(* ===== verification/ConfigExtension.v ===== *)
(** * The configuration extension of the collectors (src/collector/extension/odigosconfigk8sextension)

    An informer turns the InstrumentationConfigs of the cluster into a cache of
    container configurations, keyed "namespace/kind/name/container", and the
    cache notifies the processors that registered.  The informer's handler is a
    sequence of writes ([write]), each an atomic change of the cache after
    which the notifications are delivered one by one; registrations interleave
    with them ([step]).  What a processor does with a notification is the
    interface [ConfigCallback], which the URL templating processor and the tail
    sampling cache implement.

    [extension_refines_store] compares the cache with the plain map of
    workloads to their last config, [processors_follow] the processors' caches
    with the extension's, [extension_key_roundtrip] the key of a resource with
    that of the container it describes. *)

From Stdlib Require Import Ascii.
From S2P Require Import Prelude.
From S2P Require Import GoStrings.
From S2P Require Import K8s.
From S2P Require Import Api.
From S2P Require Import GoLib.
From S2P Require Import Workload.
From S2P Require Import Objects.
From S2P Require Import Source.
From S2P Require Import PodEnv.
From S2P Require Import Pdata.
From S2P Require Import UrlTemplatization.
From S2P Require Import TailSampling.

(** ** Keys (sourcekey.go, resourceattrs.go) *)

Abbreviation workloadKey := PodWorkload.

Definition k8sSourceKey (namespace kind name containerName : string) : string :=
  namespace +:+ "/" +:+ kind +:+ "/" +:+ name +:+ "/" +:+ containerName.
Definition WorkloadKeyString (namespace kind name : string) : string := namespace +:+ "/" +:+ kind +:+ "/" +:+ name.
Definition index_key (w : workloadKey) : string := WorkloadKeyString (pw_namespace w) (pw_kind w) (pw_name w) +:+ "/".
Definition keyPrefixFromKey (key : string) : string :=
  match split_last "/" key with Some (prefix, _) => prefix +:+ "/" | None => "" end.

Definition attrKindPairs : list (string * string) :=
  [("k8s.deployment.name", "Deployment"); ("k8s.statefulset.name", "StatefulSet"); ("k8s.daemonset.name", "DaemonSet");
   ("k8s.cronjob.name", "CronJob"); ("k8s.argoproj.rollout.name", "Rollout")].

Definition is_str (v : Value) : bool := match v with VStr _ => true | _ => false end.
(** The first attribute of the table that is there, as a string. *)
Definition first_pair (attrs : Attributes) : option (string * string) :=
  first_match (fun p => match attrs !! p.1 with Some v => is_str v | None => false end) attrKindPairs.

Definition get_str (key : string) (attrs : Attributes) : string := match attrs !! key with Some v => Str v | None => "" end.
Definition getNamespace : Attributes -> string := get_str "k8s.namespace.name".
Definition getContainerName : Attributes -> string := get_str "k8s.container.name".
Definition getKindAndName (attrs : Attributes) : string * string :=
  match attrs !! "odigos.workload.kind", attrs !! "odigos.workload.name" with
  | Some kind, Some name => (Str kind, Str name)
  | _, _ => match first_pair attrs with Some p => (p.2, get_str p.1 attrs) | None => ("", "") end
  end.

Definition workloadKeyFromResourceAttributes (attrs : Attributes) : option string :=
  let ns := getNamespace attrs in
  let '(kind, name) := getKindAndName attrs in
  let containerName := getContainerName attrs in
  if decide (ns = "" ∨ kind = "" ∨ name = "" ∨ containerName = "") then None
  else Some (k8sSourceKey ns kind name containerName).
Definition workloadContainerKeyFromResourceAttributes (attrs : Attributes) : option string :=
  let ns := getNamespace attrs in
  let '(kind, name) := getKindAndName attrs in
  if decide (ns = "" ∨ kind = "" ∨ name = "") then None else Some (WorkloadKeyString ns kind name +:+ "/").

Definition put_nonempty (key value : string) (m : Attributes) : Attributes :=
  if decide (value = "") then m else <[key := VStr value]> m.
Definition copy_attribute (key : string) (from to : Attributes) : Attributes :=
  match from !! key with Some v => <[key := v]> to | None => to end.
Definition identifyingResourceAttributes (attrs : Attributes) : Attributes :=
  let identity := put_nonempty "k8s.container.name" (getContainerName attrs)
                    (put_nonempty "k8s.namespace.name" (getNamespace attrs) ∅) in
  match attrs !! "odigos.workload.kind", attrs !! "odigos.workload.name" with
  | Some _, Some _ => copy_attribute "odigos.workload.name" attrs (copy_attribute "odigos.workload.kind" attrs identity)
  | _, _ => match first_pair attrs with Some p => copy_attribute p.1 attrs identity | None => identity end
  end.
Definition workloadIdentityFromResourceAttributes (attrs : Attributes) : option (string * Attributes) :=
  match workloadKeyFromResourceAttributes attrs with
  | Some cacheKey => Some (cacheKey, identifyingResourceAttributes attrs)
  | None => None
  end.
(** The extension's key of a resource; the identity is dropped. *)
Definition GetWorkloadCacheKey (attrs : Attributes) : option string := fst <$> workloadIdentityFromResourceAttributes attrs.

(** ** The cache (cache.go) *)

Record workloadEntry := mkWorkloadEntry { containerKeys : gset string; we_dataStreams : list string }.
Definition empty_entry : workloadEntry := mkWorkloadEntry ∅ [].

(** Callbacks are numbered in the order in which the processors are created. *)
Record cache := mkCache
  { cx_data : gmap string ContainerCollectorConfig;
    cx_callbacks : list nat;
    cx_index : gmap string workloadEntry }.
Definition newCache : cache := mkCache ∅ [] ∅.

Definition addCallback (cb : nat) (c : cache) : cache := mkCache (cx_data c) (cx_callbacks c ++ [cb]) (cx_index c).
Fixpoint remove_first (cb : nat) (l : list nat) : list nat :=
  match l with [] => [] | x :: l => if decide (x = cb) then l else x :: remove_first cb l end.
Definition removeCallback (cb : nat) (c : cache) : cache :=
  mkCache (cx_data c) (remove_first cb (cx_callbacks c)) (cx_index c).
Definition cx_clear (c : cache) : cache := newCache.
Definition cx_Get (key : string) (c : cache) : option ContainerCollectorConfig := cx_data c !! key.
Definition isSourceWorkloadPrefix (prefix : string) (c : cache) : bool := bool_decide (is_Some (cx_index c !! prefix)).
Definition GetDataStreams (prefix : string) (c : cache) : option (list string) := we_dataStreams <$> cx_index c !! prefix.

(** The changes of the cache, without their notifications. *)
Definition cx_Set (key : string) (cfg : ContainerCollectorConfig) (c : cache) : cache :=
  let workloadKey := keyPrefixFromKey key in
  mkCache (<[key := cfg]> (cx_data c)) (cx_callbacks c)
    (if decide (workloadKey = "") then cx_index c
     else let entry := default empty_entry (cx_index c !! workloadKey) in
          <[workloadKey := mkWorkloadEntry ({[key]} ∪ containerKeys entry) (we_dataStreams entry)]> (cx_index c)).
Definition cx_Delete (key : string) (c : cache) : cache :=
  let workloadKey := keyPrefixFromKey key in
  mkCache (delete key (cx_data c)) (cx_callbacks c)
    (if decide (workloadKey = "") then cx_index c
     else match cx_index c !! workloadKey with
          | None => cx_index c
          | Some entry =>
              let keys := containerKeys entry ∖ {[key]} in
              if decide (keys = ∅ ∧ we_dataStreams entry = []) then delete workloadKey (cx_index c)
              else <[workloadKey := mkWorkloadEntry keys (we_dataStreams entry)]> (cx_index c)
          end).
Definition SetDataStreams (workloadKey : string) (streams : list string) (c : cache) : cache :=
  let entry := default empty_entry (cx_index c !! workloadKey) in
  mkCache (cx_data c) (cx_callbacks c) (<[workloadKey := mkWorkloadEntry (containerKeys entry) streams]> (cx_index c)).
Definition removeWorkloadEntry (workloadKey : string) (c : cache) : cache :=
  mkCache (cx_data c) (cx_callbacks c) (delete workloadKey (cx_index c)).

Inductive notification := NSet (key : string) (cfg : ContainerCollectorConfig) | NDelete (key : string).
Inductive write :=
| WSet (key : string) (cfg : ContainerCollectorConfig)
| WDelete (key : string)
| WStreams (workloadKey : string) (streams : list string)
| WRemoveEntry (workloadKey : string).
Definition apply_write (c : cache) (w : write) : cache :=
  match w with
  | WSet key cfg => cx_Set key cfg c
  | WDelete key => cx_Delete key c
  | WStreams k streams => SetDataStreams k streams c
  | WRemoveEntry k => removeWorkloadEntry k c
  end.
Definition notifies (w : write) : option notification :=
  match w with WSet key cfg => Some (NSet key cfg) | WDelete key => Some (NDelete key) | _ => None end.

(** ** The informer (informer.go) *)

Definition kindFromInstrumentationConfigName (lowercase : string) : string :=
  switch (to_lower lowercase)
    [("deployment", "Deployment"); ("daemonset", "DaemonSet"); ("statefulset", "StatefulSet"); ("namespace", "Namespace");
     ("staticpod", "StaticPod"); ("cronjob", "CronJob"); ("job", "Job"); ("deploymentconfig", "DeploymentConfig");
     ("rollout", "Rollout")] "".

(** What the informer reads of an object; an item of the slice that is no
    container configuration is [None]. *)
Record IcObject := mkIcObject
  { ico_namespace : string;
    ico_name : string;
    ico_labels : gmap string string;
    ico_collectorConfig : list (option ContainerCollectorConfig) }.

Definition workloadKeyFromObject (u : IcObject) : option workloadKey :=
  if decide (ico_namespace u = "" ∨ ico_name u = "") then None
  else match split2 "-" (ico_name u) with
       | None => None
       | Some (kindPart, name) =>
           let kind := kindFromInstrumentationConfigName kindPart in
           if decide (kind = "") then None else Some (mkPodWorkload name (ico_namespace u) kind)
       end.

Definition parse_item (w : workloadKey) (item : option ContainerCollectorConfig) : option (string * ContainerCollectorConfig) :=
  match item with
  | None => None
  | Some c =>
      if decide (cc_container_name c = "") then None
      else Some (k8sSourceKey (pw_namespace w) (pw_kind w) (pw_name w) (cc_container_name c), c)
  end.
Definition parseWorkloadCollectorConfig (w : workloadKey) (slice : list (option ContainerCollectorConfig)) :
    list (string * ContainerCollectorConfig) := omap (parse_item w) slice.

Section Informer.
Context `{GoMapOrder}.

Definition extractDataStreamLabels (labels : gmap string string) : list string :=
  omap (fun kv => if has_prefix SourceDataStreamLabelPrefix kv.1 && bool_decide (kv.2 = "true")
                  then Some (String.substring (String.length SourceDataStreamLabelPrefix) (String.length kv.1) kv.1) else None)
    (map_order (map_to_list labels)).

Definition getContainerKeysForWorkload (workloadKey : string) (c : cache) : list string :=
  match cx_index c !! workloadKey with Some entry => map_order (elements (containerKeys entry)) | None => [] end.

(** First the entries that are there, then the deletion of the others. *)
Definition syncWorkloadToDesiredState (w : workloadKey) (desired : list (string * ContainerCollectorConfig)) (dataStreams : list string)
    (c : cache) : list write :=
  let oldContainerKeys := getContainerKeysForWorkload (index_key w) c in
  ((fun e => WSet e.1 e.2) <$> desired)
  ++ (WDelete <$> filter (fun k => k ∉ fmap (M:=list) fst desired) oldContainerKeys)
  ++ [WStreams (index_key w) dataStreams].

Definition handleInstrumentationConfig (u : IcObject) (c : cache) : list write :=
  match workloadKeyFromObject u with
  | None => []
  | Some w => syncWorkloadToDesiredState w (parseWorkloadCollectorConfig w (ico_collectorConfig u))
                (extractDataStreamLabels (ico_labels u)) c
  end.
Definition handleInstrumentationConfigDelete (u : IcObject) (c : cache) : list write :=
  match workloadKeyFromObject u with
  | None => []
  | Some w => syncWorkloadToDesiredState w [] [] c ++ [WRemoveEntry (index_key w)]
  end.

(** The informer's events, and the cache after their writes. *)
Inductive informer_event := IcSet (u : IcObject) | IcDelete (u : IcObject).
Definition event_writes (e : informer_event) (c : cache) : list write :=
  match e with IcSet u => handleInstrumentationConfig u c | IcDelete u => handleInstrumentationConfigDelete u c end.
Definition handle_event (c : cache) (e : informer_event) : cache := foldl apply_write c (event_writes e c).
End Informer.

(** ** What the extension answers (odigosconfig.go) *)

Definition GetFromResource (attrs : Attributes) (c : cache) : option ContainerCollectorConfig :=
  workloadKeyFromResourceAttributes attrs ≫= fun key => cx_Get key c.
Definition IsActiveSource (attrs : Attributes) (c : cache) : bool :=
  match workloadContainerKeyFromResourceAttributes attrs with
  | None => false
  | Some prefix => isSourceWorkloadPrefix prefix c
  end.
Definition GetDataStreamsForWorkload (attrs : Attributes) (c : cache) : option (list string) :=
  workloadContainerKeyFromResourceAttributes attrs ≫= fun key => GetDataStreams key c.

(** ** Keys *)

Definition no_slash (s : string) : Prop := has_byte "/" s = false.
(** A workload whose parts are names. *)
Definition names_ok (w : workloadKey) : Prop := no_slash (pw_namespace w) ∧ no_slash (pw_kind w) ∧ no_slash (pw_name w).

Lemma source_key_prefix w c : k8sSourceKey (pw_namespace w) (pw_kind w) (pw_name w) c = index_key w +:+ c.
Proof. unfold k8sSourceKey, index_key, WorkloadKeyString. by rewrite !str_app_assoc. Qed.
Lemma prefix_of_key w c : no_slash c -> keyPrefixFromKey (index_key w +:+ c) = index_key w.
Proof.
  intros Hc. unfold keyPrefixFromKey, index_key. rewrite str_app_assoc. change ("/" +:+ c) with (String "/" c).
  by rewrite split_last_app.
Qed.
Lemma index_key_nonempty w : index_key w <> "".
Proof. unfold index_key, WorkloadKeyString. by destruct (pw_namespace w). Qed.
Lemma index_key_inj w w' : names_ok w -> names_ok w' -> index_key w = index_key w' -> w = w'.
Proof.
  destruct w as [n ns k], w' as [n' ns' k']. unfold names_ok, no_slash, index_key, WorkloadKeyString. cbn.
  intros (? & ? & ?) (? & ? & ?). rewrite !str_app_assoc. intros E.
  apply (str_app_inj_sep "/" ns (k +:+ "/" +:+ n +:+ "/") ns') in E as [-> E]; [|done..].
  apply (str_app_inj_sep "/" k (n +:+ "/") k') in E as [-> E]; [|done..]. by apply (str_app_inj_sep "/" n "" n') in E as [-> _].
Qed.

(** ** Writes keep the index *)

(** The index lists the keys of the data by prefix. *)
Definition keys_of (c : cache) (prefix : string) : gset string := match cx_index c !! prefix with Some e => containerKeys e | None => ∅ end.
Definition index_ok (c : cache) : Prop :=
  forall k p, p <> "" -> k ∈ keys_of c p <-> is_Some (cx_data c !! k) ∧ keyPrefixFromKey k = p.

Lemma new_index_ok : index_ok newCache.
Proof.
  intros k p Hp. unfold keys_of, newCache. cbn [cx_index cx_data]. rewrite !lookup_empty. cbn. split; [by intros ?%elem_of_empty|].
  intros [[? ?] _]. done.
Qed.

Lemma set_index_ok key cfg c : index_ok c -> index_ok (cx_Set key cfg c).
Proof.
  intros Hc k p Hp. specialize (Hc k p Hp). unfold keys_of in *. cbn [cx_Set cx_data cx_index]. rewrite lookup_insert_is_Some.
  case_decide as E0.
  - rewrite Hc. assert (key = k -> keyPrefixFromKey k <> p) by (intros ->; congruence). naive_solver.
  - destruct (decide (keyPrefixFromKey key = p)) as [Ep|Ep].
    + subst p. rewrite lookup_insert_eq. cbn [containerKeys].
      assert (Hk : k ∈ containerKeys (default empty_entry (cx_index c !! keyPrefixFromKey key)) <-> is_Some (cx_data c !! k) ∧ keyPrefixFromKey k = keyPrefixFromKey key).
      { rewrite <-Hc. by destruct (cx_index c !! keyPrefixFromKey key). }
      rewrite elem_of_union, elem_of_singleton, Hk. destruct (decide (key = k)) as [->|]; naive_solver.
    + rewrite lookup_insert_ne by done. rewrite Hc. assert (key = k -> keyPrefixFromKey k <> p) by (intros ->; congruence). naive_solver.
Qed.

Lemma delete_index_ok key c : index_ok c -> index_ok (cx_Delete key c).
Proof.
  intros Hc k p Hp. pose proof (Hc k p Hp) as Hk. unfold keys_of in *. cbn [cx_Delete cx_data cx_index]. rewrite lookup_delete_is_Some.
  assert (Hne : keyPrefixFromKey key <> p ∨ keyPrefixFromKey key = "" -> keyPrefixFromKey k = p -> key <> k) by (intros [?|?] ? ->; congruence).
  case_decide as E0; [rewrite Hk; naive_solver|]. destruct (cx_index c !! keyPrefixFromKey key) as [entry|] eqn:Ee.
  - destruct (decide (keyPrefixFromKey key = p)) as [Ep|Ep].
    + subst p. rewrite Ee in Hk. cbn in Hk. case_decide as Ed.
      * destruct Ed as [Ed _]. rewrite lookup_delete_eq. cbn. split; [by intros ?%elem_of_empty|]. intros [[Hkk Hs] Hpk].
        assert (Hin : k ∈ containerKeys entry ∖ {[key]}) by (apply elem_of_difference; rewrite elem_of_singleton, Hk; auto).
        by rewrite Ed in Hin.
      * rewrite lookup_insert_eq. cbn. rewrite elem_of_difference, elem_of_singleton, Hk. naive_solver.
    + case_decide; [rewrite lookup_delete_ne by done|rewrite lookup_insert_ne by done]; rewrite Hk; naive_solver.
  - rewrite Hk. split; [|naive_solver]. intros [Hs Hpk]. split; [|done]. split; [|done]. intros ->.
    assert (Hin : k ∈ keys_of c (keyPrefixFromKey k)) by (apply Hc; [done|]; split; [done|congruence]).
    unfold keys_of in Hin. rewrite Ee in Hin. by apply elem_of_empty in Hin.
Qed.

Lemma streams_index_ok p s c : index_ok c -> index_ok (SetDataStreams p s c).
Proof.
  intros Hc k q Hq. rewrite <-(Hc k q Hq). unfold keys_of. cbn [SetDataStreams cx_index]. destruct (decide (p = q)) as [->|].
  - rewrite lookup_insert_eq. by destruct (cx_index c !! q).
  - by rewrite lookup_insert_ne.
Qed.
Lemma remove_index_ok p c : keys_of c p = ∅ -> index_ok c -> index_ok (removeWorkloadEntry p c).
Proof.
  intros Hp Hc k q Hq. rewrite <-(Hc k q Hq). unfold keys_of in *. cbn [removeWorkloadEntry cx_index]. destruct (decide (p = q)) as [->|].
  - by rewrite Hp, lookup_delete_eq.
  - by rewrite lookup_delete_ne.
Qed.

(** ** What a sync does *)

(** Of several entries for a container, the last. *)
Definition desired_map (desired : list (string * ContainerCollectorConfig)) : gmap string ContainerCollectorConfig :=
  foldl (fun m e => <[e.1 := e.2]> m) ∅ desired.

Lemma sets_data desired c :
  let c' := foldl apply_write c ((fun e => WSet e.1 e.2) <$> desired) in
  cx_data c' = foldl (fun m e => <[e.1 := e.2]> m) (cx_data c) desired ∧ (index_ok c -> index_ok c').
Proof.
  revert c. induction desired as [|[k cfg] desired IH]; intros c; cbn; [done|]. destruct (IH (cx_Set k cfg c)) as [-> Hi].
  split; [done|]. intros Hc. by apply Hi, set_index_ok.
Qed.
Lemma inserts_lookup desired (m : gmap string ContainerCollectorConfig) k :
  foldl (fun m e => <[e.1 := e.2]> m) m desired !! k
  = match desired_map desired !! k with Some cfg => Some cfg | None => m !! k end.
Proof.
  unfold desired_map. induction desired as [|[k' cfg] desired IH] using rev_ind; [cbn [foldl]; by rewrite lookup_empty|]. rewrite !foldl_app. cbn.
  destruct (decide (k' = k)) as [->|]; [by rewrite !lookup_insert_eq|]. by rewrite !lookup_insert_ne.
Qed.
Lemma desired_keys desired k : is_Some (desired_map desired !! k) <-> k ∈ fmap (M:=list) fst desired.
Proof.
  unfold desired_map. induction desired as [|[k' cfg] desired IH] using rev_ind; cbn.
  - rewrite lookup_empty. split; [by intros [? ?]|by intros ?%elem_of_nil].
  - rewrite foldl_app. cbn. rewrite lookup_insert_is_Some, IH, fmap_app, elem_of_app. cbn. rewrite list_elem_of_singleton.
    destruct (decide (k' = k)); naive_solver.
Qed.

Lemma deletes_data ks c :
  let c' := foldl apply_write c (WDelete <$> ks) in
  (forall k, cx_data c' !! k = if decide (k ∈ ks) then None else cx_data c !! k) ∧ (index_ok c -> index_ok c').
Proof.
  revert c. induction ks as [|k ks IH]; intros c; cbn.
  - split; [|done]. intros k. rewrite decide_False; [done|]. by intros ?%elem_of_nil.
  - destruct (IH (cx_Delete k c)) as [Hd Hi]. split; [|intros Hc; by apply Hi, delete_index_ok]. intros k'. rewrite Hd. cbn [cx_Delete cx_data].
    destruct (decide (k' ∈ ks)) as [|Hn]; [by rewrite decide_True by (right; done)|]. destruct (decide (k = k')) as [->|Hk].
    + by rewrite lookup_delete_eq, decide_True by left.
    + rewrite lookup_delete_ne by done. rewrite decide_False; [done|]. intros [?|?]%elem_of_cons; congruence.
Qed.

(** Writes touch the entries of the index under their own prefix only. *)
Definition write_prefix (w : write) : string :=
  match w with WSet k _ | WDelete k => keyPrefixFromKey k | WStreams p _ | WRemoveEntry p => p end.
Lemma write_other w c p : write_prefix w <> p -> cx_index (apply_write c w) !! p = cx_index c !! p.
Proof.
  intros Hp. destruct w as [k cfg|k|q s|q]; cbn in *; try case_decide; rewrite ?lookup_insert_ne, ?lookup_delete_ne by done; try done.
  destruct (cx_index c !! keyPrefixFromKey k); [|done]. case_decide; by rewrite ?lookup_insert_ne, ?lookup_delete_ne by done.
Qed.
Lemma writes_other ws c p : Forall (fun w => write_prefix w <> p) ws -> cx_index (foldl apply_write c ws) !! p = cx_index c !! p.
Proof. revert c. induction ws as [|w ws IH]; intros c; cbn; [done|]. intros [Hw Hws]%Forall_cons. by rewrite IH, write_other. Qed.
Lemma writes_callbacks ws c : cx_callbacks (foldl apply_write c ws) = cx_callbacks c.
Proof. revert c. induction ws as [|w ws IH]; intros c; cbn; [done|]. rewrite IH. by destruct w. Qed.

Section Sync.
Context `{GoMapOrder} `{!GoMapOrderLaws}.

Lemma old_keys w c k : index_ok c -> k ∈ getContainerKeysForWorkload (index_key w) c <-> is_Some (cx_data c !! k) ∧ keyPrefixFromKey k = index_key w.
Proof.
  intros Hc. rewrite <-(Hc k _ (index_key_nonempty w)). unfold getContainerKeysForWorkload, keys_of.
  destruct (cx_index c !! index_key w) as [e|]; [by rewrite map_order_perm, elem_of_elements|].
  split; [by intros ?%elem_of_nil|by intros ?%elem_of_empty].
Qed.

(** The entries of a workload, as they are parsed. *)
Definition entries_ok (w : workloadKey) (desired : list (string * ContainerCollectorConfig)) : Prop :=
  forall k, k ∈ fmap (M:=list) fst desired -> keyPrefixFromKey k = index_key w.

Lemma sync_prefixes w desired streams c :
  index_ok c -> entries_ok w desired -> Forall (fun x => write_prefix x = index_key w) (syncWorkloadToDesiredState w desired streams c).
Proof.
  intros Hc Hd. unfold syncWorkloadToDesiredState. rewrite !Forall_app. split_and!.
  - apply Forall_fmap, Forall_forall. intros e He. apply Hd. by apply list_elem_of_fmap_2.
  - apply Forall_fmap, Forall_forall. intros k [_ Hk]%list_elem_of_filter. by apply old_keys in Hk as [_ ?].
  - by apply Forall_singleton.
Qed.

Lemma sync_data w desired streams c :
  index_ok c -> entries_ok w desired ->
  let c' := foldl apply_write c (syncWorkloadToDesiredState w desired streams c) in
  index_ok c'
  ∧ (forall k, cx_data c' !! k = if decide (keyPrefixFromKey k = index_key w) then desired_map desired !! k else cx_data c !! k)
  ∧ we_dataStreams <$> cx_index c' !! index_key w = Some streams.
Proof.
  intros Hc Hd. cbv zeta. unfold syncWorkloadToDesiredState. rewrite !foldl_app.
  destruct (sets_data desired c) as [Hs1 Hi1]. cbv zeta in *. set (c1 := foldl apply_write c _) in *.
  destruct (deletes_data (filter (fun k => k ∉ fmap (M:=list) fst desired) (getContainerKeysForWorkload (index_key w) c)) c1) as [Hs2 Hi2].
  cbv zeta in *. set (c2 := foldl apply_write c1 _) in *. cbn [foldl apply_write]. split_and!.
  - by apply streams_index_ok, Hi2, Hi1.
  - intros k. cbn [SetDataStreams cx_data]. rewrite Hs2, Hs1, inserts_lookup.
    pose proof (desired_keys desired k) as Hk. pose proof (old_keys w c k Hc) as Ho.
    destruct (desired_map desired !! k) as [cfg|].
    + assert (Hin : k ∈ fmap (M:=list) fst desired) by by apply Hk. rewrite decide_False.
      * by rewrite decide_True by by apply Hd.
      * by intros [? _]%list_elem_of_filter.
    + assert (Hin : k ∉ fmap (M:=list) fst desired) by (intros [? ?]%Hk; done). case_decide as Hf.
      * apply list_elem_of_filter in Hf as [_ [_ Hf]%Ho]. by rewrite decide_True.
      * case_decide as Hp; [|done]. destruct (cx_data c !! k) eqn:Ek; [|done]. destruct Hf. apply list_elem_of_filter.
        split; [done|]. apply Ho. split; [by eexists|done].
  - cbn [SetDataStreams cx_index]. by rewrite lookup_insert_eq.
Qed.

(** *** The specification: the last configuration of each workload *)

Definition store_event (store : gmap workloadKey IcObject) (e : informer_event) : gmap workloadKey IcObject :=
  match e with
  | IcSet u => match workloadKeyFromObject u with Some w => <[w := u]> store | None => store end
  | IcDelete u => match workloadKeyFromObject u with Some w => delete w store | None => store end
  end.
(** What the store says of a key, a workload's streams. *)
Definition store_config (store : gmap workloadKey IcObject) (w : workloadKey) (key : string) : option ContainerCollectorConfig :=
  store !! w ≫= fun u => desired_map (parseWorkloadCollectorConfig w (ico_collectorConfig u)) !! key.
Definition store_streams (store : gmap workloadKey IcObject) (w : workloadKey) : option (list string) :=
  (fun u => extractDataStreamLabels (ico_labels u)) <$> store !! w.

(** Names of the cluster contain no slash. *)
Definition object_ok (u : IcObject) : Prop :=
  no_slash (ico_namespace u) ∧ no_slash (ico_name u)
  ∧ Forall (fun i => match i with Some c => no_slash (cc_container_name c) | None => True end) (ico_collectorConfig u).
Definition event_object (e : informer_event) : IcObject := match e with IcSet u | IcDelete u => u end.

Definition agrees (c : cache) (store : gmap workloadKey IcObject) : Prop :=
  index_ok c
  ∧ (forall w k, names_ok w -> keyPrefixFromKey k = index_key w -> cx_data c !! k = store_config store w k)
  ∧ (forall w, names_ok w -> GetDataStreams (index_key w) c = store_streams store w).

Lemma kind_no_slash s : no_slash (kindFromInstrumentationConfigName s).
Proof. unfold kindFromInstrumentationConfigName. cbn [switch]. repeat (case_decide; [done|]). done. Qed.
Lemma object_names u w : object_ok u -> workloadKeyFromObject u = Some w -> names_ok w.
Proof.
  intros (Hns & Hn & _). unfold workloadKeyFromObject. case_decide; [done|]. destruct (split2 "-" (ico_name u)) as [[a b]|] eqn:E; [|done].
  case_decide; [done|]. intros [= <-]. apply split2_Some in E as [E _]. unfold no_slash in Hn. rewrite E, has_byte_app in Hn. cbn in Hn.
  split_and!; [done|apply kind_no_slash|]. apply orb_false_iff in Hn as [_ Hn]. by apply orb_false_iff in Hn as [_ ?].
Qed.
Lemma object_entries u w : object_ok u -> entries_ok w (parseWorkloadCollectorConfig w (ico_collectorConfig u)).
Proof.
  intros (_ & _ & Hc) k (e & -> & (i & Hi & He)%list_elem_of_omap)%list_elem_of_fmap. rewrite Forall_forall in Hc. specialize (Hc _ Hi).
  unfold parse_item in He. destruct i as [cfg|]; [|done]. case_decide; [done|]. injection He as <-. cbn [fst].
  rewrite source_key_prefix. by apply prefix_of_key.
Qed.

Lemma agrees_sync c store w desired streams store' :
  agrees c store -> names_ok w -> entries_ok w desired ->
  (forall w', w' <> w -> store' !! w' = store !! w') ->
  (forall k, desired_map desired !! k = store_config store' w k) ->
  let c' := foldl apply_write c (syncWorkloadToDesiredState w desired streams c) in
  index_ok c'
  ∧ (forall w k, names_ok w -> keyPrefixFromKey k = index_key w -> cx_data c' !! k = store_config store' w k)
  ∧ (forall w', names_ok w' -> w' <> w -> GetDataStreams (index_key w') c' = store_streams store' w')
  ∧ GetDataStreams (index_key w) c' = Some streams.
Proof.
  intros (Hi & Hd & Hs) Hw He Hstore Hdes. cbv zeta. destruct (sync_data w desired streams c Hi He) as (Hi' & Hd' & Hs').
  assert (Hne : forall w', names_ok w' -> w' <> w -> index_key w <> index_key w') by (intros w' Hw' Hn E; by apply Hn, index_key_inj).
  split_and!; [done| | |done].
  - intros w' k Hw' Hk. rewrite Hd'. destruct (decide (w' = w)) as [->|Hn].
    + by rewrite decide_True.
    + rewrite decide_False by (rewrite Hk; intros E; by apply (Hne w')). rewrite (Hd w') by done. unfold store_config. by rewrite Hstore.
  - intros w' Hw' Hn. unfold GetDataStreams. rewrite writes_other.
    + unfold GetDataStreams in Hs. rewrite Hs by done. unfold store_streams. by rewrite Hstore.
    + eapply Forall_impl; [by apply sync_prefixes|]. cbn. intros x ->. by apply Hne.
Qed.
End Sync.

Section Refinement.
Context `{GoMapOrder} `{!GoMapOrderLaws}.

Lemma agrees_event c store e : object_ok (event_object e) -> agrees c store -> agrees (handle_event c e) (store_event store e).
Proof.
  intros Hu Ha. unfold handle_event. destruct e as [u|u]; cbn [event_writes store_event event_object] in *;
    unfold handleInstrumentationConfig, handleInstrumentationConfigDelete;
    (destruct (workloadKeyFromObject u) as [w|] eqn:Ew; [|done]); pose proof (object_names _ _ Hu Ew) as Hw.
  - destruct (agrees_sync c store w (parseWorkloadCollectorConfig w (ico_collectorConfig u)) (extractDataStreamLabels (ico_labels u))
                (<[w := u]> store) Ha Hw) as (Hi & Hd & Ho & Hs).
    + by apply object_entries.
    + intros w' Hn. by rewrite lookup_insert_ne.
    + intros k. unfold store_config. by rewrite lookup_insert_eq.
    + split_and!; [done|done|]. intros w' Hw'. destruct (decide (w' = w)) as [->|Hn]; [|by apply Ho]. rewrite Hs.
      unfold store_streams. by rewrite lookup_insert_eq.
  - destruct (agrees_sync c store w [] [] (delete w store) Ha Hw) as (Hi & Hd & Ho & Hs).
    + by intros k ?%elem_of_nil.
    + intros w' Hn. by rewrite lookup_delete_ne.
    + intros k. unfold store_config, desired_map. cbn. by rewrite lookup_delete_eq, lookup_empty.
    + rewrite foldl_app. cbn [foldl apply_write]. set (c' := foldl apply_write c _) in *.
      assert (Hk : keys_of c' (index_key w) = ∅).
      { apply set_eq. intros k. rewrite (Hi k _ (index_key_nonempty w)). split; [|by intros ?%elem_of_empty]. intros [[cfg Hc] Hp].
        rewrite (Hd w) in Hc by done. unfold store_config in Hc. by rewrite lookup_delete_eq in Hc. }
      split_and!; [by apply remove_index_ok|done|]. intros w' Hw'. unfold GetDataStreams. cbn [removeWorkloadEntry cx_index].
      destruct (decide (w' = w)) as [->|Hn].
      * unfold store_streams. by rewrite !lookup_delete_eq.
      * rewrite lookup_delete_ne by (intros E; by apply Hn, index_key_inj). by apply Ho.
Qed.

Lemma agrees_new : agrees newCache ∅.
Proof.
  split_and!; [apply new_index_ok|..]; intros w; intros; unfold store_config, store_streams, GetDataStreams, newCache;
    cbn [cx_data cx_index]; by rewrite !lookup_empty.
Qed.

(** The last configuration of a container in an object. *)
Definition last_config (container : string) (items : list (option ContainerCollectorConfig)) : option ContainerCollectorConfig :=
  last (filter (fun c => cc_container_name c = container) (omap id items)).

Lemma desired_last w container items :
  container <> "" ->
  desired_map (parseWorkloadCollectorConfig w items) !! k8sSourceKey (pw_namespace w) (pw_kind w) (pw_name w) container
  = last_config container items.
Proof.
  intros Hc. unfold desired_map, last_config, parseWorkloadCollectorConfig. induction items as [|i items IH] using rev_ind.
  { cbn [omap list_omap foldl]. by rewrite lookup_empty. }
  rewrite !omap_app, foldl_app, filter_app. cbn [omap list_omap id]. destruct i as [cfg|]; cbn [parse_item]; [|by rewrite filter_nil, app_nil_r].
  destruct (decide (cc_container_name cfg = container)) as [E|E].
  - rewrite decide_False by congruence. cbn [foldl fst snd]. rewrite filter_cons_True, filter_nil, last_snoc by done. subst container.
    by rewrite lookup_insert_eq.
  - rewrite filter_cons_False, filter_nil, app_nil_r by done. case_decide; [done|]. cbn [foldl fst snd]. rewrite lookup_insert_ne; [done|].
    rewrite !source_key_prefix. intros Ek. by apply (inj (String.append _)) in Ek.
Qed.

(** C14: after any events of the informer the extension holds exactly the last
    configuration of each container in the last version of the object of each
    workload, with its data streams, and answers that a workload is a source
    exactly while it has an object; iteration orders of maps do not matter. *)
Theorem extension_refines_store events w container :
  Forall (fun e => object_ok (event_object e)) events -> names_ok w -> no_slash container -> container <> "" ->
  let c := foldl handle_event newCache events in
  let store := foldl store_event ∅ events in
  cx_Get (k8sSourceKey (pw_namespace w) (pw_kind w) (pw_name w) container) c
    = (store !! w ≫= fun u => last_config container (ico_collectorConfig u))
  ∧ isSourceWorkloadPrefix (index_key w) c = bool_decide (is_Some (store !! w))
  ∧ GetDataStreams (index_key w) c = store_streams store w.
Proof.
  intros Hev Hw Hc Hne c store.
  assert (Ha : agrees c store).
  { subst c store. generalize agrees_new. generalize newCache, (∅ : gmap workloadKey IcObject).
    induction Hev as [|e events He _ IH]; intros c store Ha; cbn; [done|]. by apply IH, agrees_event. }
  destruct Ha as (_ & Hd & Hs). split_and!; [| |by apply Hs].
  - unfold cx_Get. rewrite (Hd w); [|done|by rewrite source_key_prefix; apply prefix_of_key]. unfold store_config.
    destruct (store !! w); [|done]. cbn. by rewrite desired_last.
  - unfold isSourceWorkloadPrefix. specialize (Hs w Hw). unfold GetDataStreams, store_streams in Hs. apply bool_decide_ext.
    rewrite <-(fmap_is_Some we_dataStreams), Hs. apply fmap_is_Some.
Qed.
End Refinement.

(** ** Processors that follow the extension *)

(** What the extension promises to call, and what a processor makes of it: an
    entry per key, computed from the configuration alone. *)
Class ConfigCallback (P : Type) := {
  cb_OnSet : string -> ContainerCollectorConfig -> P -> P;
  cb_OnDeleteKey : string -> P -> P;
  cb_entry : Type;
  cb_view : P -> gmap string cb_entry;
  cb_compute : P -> ContainerCollectorConfig -> option cb_entry
}.
Class ConfigCallbackLaws (P : Type) `{ConfigCallback P} : Prop := {
  cb_set_view key cfg p k :
    cb_view (cb_OnSet key cfg p) !! k = if decide (k = key) then cb_compute p cfg else cb_view p !! k;
  cb_delete_view key p k : cb_view (cb_OnDeleteKey key p) !! k = if decide (k = key) then None else cb_view p !! k;
  cb_set_compute key cfg p : cb_compute (cb_OnSet key cfg p) = cb_compute p;
  cb_delete_compute key p : cb_compute (cb_OnDeleteKey key p) = cb_compute p
}.

(** The URL templating processor; the extension never passes nil. *)
#[export] Instance url_callback : ConfigCallback urlTemplateProcessor := {|
  cb_OnSet key cfg p := match url_OnSet key (Some cfg) p with Done p' => p' | _ => p end;
  cb_OnDeleteKey := url_OnDeleteKey;
  cb_entry := workloadUrlTemplatizationConfig;
  cb_view := parsedRulesCache;
  cb_compute _ cfg := (fun u => mkWorkloadUrl (parseRuleStrings (ut_templates u)) (ut_default u)) <$> cc_url_templatization cfg
|}.
#[export] Instance url_callback_laws : ConfigCallbackLaws urlTemplateProcessor.
Proof.
  split; intros key; try done.
  - intros cfg p k. cbn. destruct (cc_url_templatization cfg); cbn; case_decide; subst;
      by rewrite ?lookup_insert_eq, ?lookup_delete_eq, ?lookup_insert_ne, ?lookup_delete_ne by done.
  - intros p k. cbn. case_decide; subst; by rewrite ?lookup_delete_eq, ?lookup_delete_ne by done.
Qed.

(** The tail sampling processor's cache. *)
#[export] Instance tail_callback : ConfigCallback ConfigCache := {|
  cb_OnSet key cfg := ts_OnSet key (Some cfg);
  cb_OnDeleteKey := ts_OnDeleteKey;
  cb_entry := ComputedWorkloadConfig;
  cb_view := cch_data;
  cb_compute c cfg := (fun t => precomputeWorkloadConfig t (cch_dryRun c)) <$> cc_tail_sampling cfg
|}.
#[export] Instance tail_callback_laws : ConfigCallbackLaws ConfigCache.
Proof.
  split; intros key.
  - intros cfg p k. cbn. unfold ts_OnSet. cbn. destruct (cc_tail_sampling cfg); cbn; case_decide; subst;
      by rewrite ?lookup_insert_eq, ?lookup_delete_eq, ?lookup_insert_ne, ?lookup_delete_ne by done.
  - intros p k. cbn. case_decide; subst; by rewrite ?lookup_delete_eq, ?lookup_delete_ne by done.
  - intros cfg p. cbn. unfold ts_OnSet. cbn. by destruct (cc_tail_sampling cfg).
  - done.
Qed.

Section Follow.
Context `{GoMapOrder} `{!GoMapOrderLaws} {P : Type} `{ConfigCallback P} `{!ConfigCallbackLaws P}.

Definition deliver (n : notification) (p : P) : P :=
  match n with NSet key cfg => cb_OnSet key cfg p | NDelete key => cb_OnDeleteKey key p end.
(** [Range] with the registering processor's [OnSet]. *)
Definition backfill (c : cache) (p : P) : P := foldl (fun p kc => cb_OnSet kc.1 kc.2 p) p (map_order (map_to_list (cx_data c))).

(** The extension and its processors.  [sy_pending]: calls of the write in
    progress that are still to be made. *)
Record system := mkSystem
  { sy_cache : cache;
    sy_procs : gmap nat P;
    sy_synced : gset nat;
    sy_pending : list (nat * notification) }.

(** One atomic step: a write of the informer, which first makes the calls of
    the one before; a call; and the two halves of
    [RegisterWorkloadConfigCacheCallback], or its inverse, by a processor. *)
Inductive step : system -> system -> Prop :=
| step_write w c ps sy :
    step (mkSystem c ps sy [])
         (mkSystem (apply_write c w) ps sy (match notifies w with Some n => (fun id => (id, n)) <$> cx_callbacks c | None => [] end))
| step_call id n p c ps sy pending :
    ps !! id = Some p ->
    step (mkSystem c ps sy ((id, n) :: pending)) (mkSystem c (<[id := deliver n p]> ps) sy pending)
| step_register id p c ps sy pending :
    ps !! id = None -> cb_view p = ∅ ->
    step (mkSystem c ps sy pending) (mkSystem (addCallback id c) (<[id := p]> ps) sy pending)
| step_backfill id p c ps sy pending :
    ps !! id = Some p -> id ∉ sy ->
    step (mkSystem c ps sy pending) (mkSystem c (<[id := backfill c p]> ps) ({[id]} ∪ sy) pending)
| step_unregister id c ps sy pending :
    step (mkSystem c ps sy pending) (mkSystem (removeCallback id c) ps sy pending).

Inductive reachable : system -> Prop :=
| reachable_start : reachable (mkSystem newCache ∅ ∅ [])
| reachable_step s s' : reachable s -> step s s' -> reachable s'.

Definition expected (c : cache) (p : P) (k : string) : option cb_entry := cx_data c !! k ≫= cb_compute p.
Definition note_key (n : notification) : string := match n with NSet k _ | NDelete k => k end.
Definition note_current (c : cache) (n : notification) : Prop :=
  match n with NSet k cfg => cx_data c !! k = Some cfg | NDelete k => cx_data c !! k = None end.

(** An entry is up to date, or a call about its key is pending, or the
    processor has not been filled yet. *)
Definition follows (s : system) (id : nat) (p : P) : Prop :=
  forall k, cb_view p !! k = expected (sy_cache s) p k
            ∨ (exists n, (id, n) ∈ sy_pending s ∧ note_key n = k)
            ∨ (~ (id ∈ sy_synced s) ∧ cb_view p !! k = None).
Definition system_ok (s : system) : Prop :=
  (forall id n, (id, n) ∈ sy_pending s -> is_Some (sy_procs s !! id) ∧ note_current (sy_cache s) n)
  ∧ (forall id, id ∈ cx_callbacks (sy_cache s) -> exists p, sy_procs s !! id = Some p ∧ follows s id p)
  ∧ (forall id, id ∈ sy_synced s -> is_Some (sy_procs s !! id)).

Lemma deliver_view c n p k :
  note_current c n -> cb_view (deliver n p) !! k = if decide (k = note_key n) then expected c p k else cb_view p !! k.
Proof.
  destruct n as [key cfg|key]; cbn; intros Hc; [rewrite cb_set_view|rewrite cb_delete_view]; case_decide; subst; try done;
    unfold expected; by rewrite Hc.
Qed.
Lemma deliver_compute n p : cb_compute (deliver n p) = cb_compute p.
Proof. destruct n; [apply cb_set_compute|apply cb_delete_compute]. Qed.
Lemma expected_deliver c n p k : expected c (deliver n p) k = expected c p k.
Proof. unfold expected. by rewrite deliver_compute. Qed.

Lemma backfill_view c p k :
  cb_view (backfill c p) !! k = (if decide (is_Some (cx_data c !! k)) then expected c p k else cb_view p !! k)
  ∧ cb_compute (backfill c p) = cb_compute p.
Proof.
  unfold backfill.
  assert (Hf : forall l p, (forall kc, kc ∈ l -> cx_data c !! kc.1 = Some kc.2) ->
    cb_view (foldl (fun p kc => cb_OnSet kc.1 kc.2 p) p l) !! k = (if decide (k ∈ fmap (M:=list) fst l) then expected c p k else cb_view p !! k)
    ∧ cb_compute (foldl (fun p kc => cb_OnSet kc.1 kc.2 p) p l) = cb_compute p).
  { induction l as [|[k' cfg] l IH] using rev_ind; intros q Hl; [done|]. rewrite foldl_app. cbn [foldl fst snd].
    destruct (IH q) as [Hv Hcm]; [intros kc Hkc; apply Hl; set_solver|]. rewrite cb_set_view, cb_set_compute. split; [|done].
    rewrite fmap_app. cbn. pose proof (Hl (k', cfg)) as Hk. destruct (decide (k = k')) as [->|Hn].
    - rewrite decide_True by set_solver. cbn [fst snd] in Hk. unfold expected. rewrite Hk by set_solver. cbn. by rewrite Hcm.
    - rewrite Hv. apply decide_ext. set_solver. }
  destruct (Hf (map_order (map_to_list (cx_data c))) p) as [Hv Hc].
  { intros [k' cfg]. rewrite map_order_perm. apply elem_of_map_to_list. }
  split; [|done]. rewrite Hv. apply decide_ext. rewrite list_elem_of_fmap. setoid_rewrite map_order_perm. split.
  - intros ([k' cfg] & -> & Hk%elem_of_map_to_list). by eexists.
  - intros [cfg Hk]. exists (k, cfg). split; [done|]. by apply elem_of_map_to_list.
Qed.

Lemma write_data_other c w k : (forall n, notifies w = Some n -> note_key n <> k) -> cx_data (apply_write c w) !! k = cx_data c !! k.
Proof.
  destruct w as [key cfg|key|p s|p]; cbn; intros Hn; try done.
  - rewrite lookup_insert_ne; [done|]. by apply (Hn (NSet key cfg)).
  - rewrite lookup_delete_ne; [done|]. by apply (Hn (NDelete key)).
Qed.
Lemma write_current c w n : notifies w = Some n -> note_current (apply_write c w) n.
Proof. destruct w; cbn; intros [= <-]; cbn; [by rewrite lookup_insert_eq|by rewrite lookup_delete_eq]. Qed.
Lemma apply_callbacks c w : cx_callbacks (apply_write c w) = cx_callbacks c.
Proof. by destruct w. Qed.
Lemma remove_first_elem id l x : x ∈ remove_first id l -> x ∈ l.
Proof. induction l as [|y l IH]; cbn; [done|]. case_decide; [by right|]. intros [->|?]%elem_of_cons; [left|right; auto]. Qed.

Lemma still_there (ps : gmap nat P) id id' p : is_Some (ps !! id') -> is_Some (<[id := p]> ps !! id').
Proof. rewrite lookup_insert_is_Some. destruct (decide (id = id')); auto. Qed.

Lemma write_ok w c ps sy :
  system_ok (mkSystem c ps sy []) ->
  system_ok (mkSystem (apply_write c w) ps sy (match notifies w with Some n => (fun id => (id, n)) <$> cx_callbacks c | None => [] end)).
Proof.
  intros (_ & Hf & Hs). unfold system_ok, follows in *. cbn [sy_cache sy_procs sy_synced sy_pending] in *. split_and!; [| |done].
  - intros id n. destruct (notifies w) as [n0|] eqn:En; [|by intros ?%elem_of_nil].
    intros (i & [= -> ->] & Hi)%list_elem_of_fmap. destruct (Hf i Hi) as (p & -> & _). split; [done|by apply write_current].
  - intros id. rewrite apply_callbacks. intros Hi. destruct (Hf id Hi) as (p & Hid & Hk). exists p. split; [done|]. intros k.
    destruct (decide (note_key <$> notifies w = Some k)) as [Hn|Hn].
    + right; left. destruct (notifies w) as [n|]; [|done]. injection Hn as Hn. exists n. split; [|done]. apply list_elem_of_fmap. by exists id.
    + destruct (Hk k) as [E|[(n & Hn' & _)|E]]; [left|by apply elem_of_nil in Hn'|by right; right]. rewrite E. unfold expected.
      rewrite write_data_other; [done|]. intros n En En'. apply Hn. by rewrite En, <-En'.
Qed.

(** A step that changes the processor [id] only. *)
Lemma change_ok id p p' c ps sy sy' pending pending' :
  system_ok (mkSystem c ps sy pending) -> ps !! id = Some p ->
  (forall x, x ∈ pending' -> x ∈ pending) -> (forall x, x ∈ pending -> x.1 <> id -> x ∈ pending') ->
  (forall i, i ∈ sy' -> i ∈ sy ∨ i = id) -> (forall i, i ∈ sy -> i ∈ sy') ->
  (id ∈ cx_callbacks c -> follows (mkSystem c ps sy pending) id p -> follows (mkSystem c (<[id := p']> ps) sy' pending') id p') ->
  system_ok (mkSystem c (<[id := p']> ps) sy' pending').
Proof.
  intros (Hp & Hf & Hs) Hid Hsub Hother Hsy Hsy' Hfol. unfold system_ok. cbn [sy_cache sy_procs sy_synced sy_pending] in *. split_and!.
  - intros i n Hin. destruct (Hp i n) as [Hi Hc]; [by apply Hsub|]. split; [by apply still_there|done].
  - intros i Hi. destruct (Hf i Hi) as (q & Hq & Hk). destruct (decide (id = i)) as [<-|Hn].
    + rewrite Hid in Hq. injection Hq as <-. exists p'. rewrite lookup_insert_eq. split; [done|by apply Hfol].
    + exists q. rewrite lookup_insert_ne by done. split; [done|]. intros k. unfold follows in *. cbn [sy_cache sy_synced sy_pending] in *.
      destruct (Hk k) as [E|[(n & Hin & En)|[Hns E]]]; [by left|right; left|right; right].
      * exists n. split; [|done]. apply Hother; [done|]. cbn. congruence.
      * split; [|done]. intros [?|?]%Hsy; congruence.
  - intros i [Hi|Hi]%Hsy; [by apply still_there, Hs|]. subst i. rewrite lookup_insert_eq. by eexists.
Qed.

Lemma call_ok id n p c ps sy pending :
  ps !! id = Some p -> system_ok (mkSystem c ps sy ((id, n) :: pending)) ->
  system_ok (mkSystem c (<[id := deliver n p]> ps) sy pending).
Proof.
  intros Hid Hok. assert (Hcur : note_current c n) by (destruct Hok as (Hp & _); destruct (Hp id n) as [_ ?]; [left|done]).
  eapply change_ok; [exact Hok|exact Hid|by right| |by left|done|].
  - intros x [->|?]%elem_of_cons Hx; [done|done].
  - intros _ Hk k. unfold follows in *. cbn [sy_cache sy_synced sy_pending] in *. rewrite (deliver_view c n p k Hcur), expected_deliver.
    case_decide as Ek; [by left|]. destruct (Hk k) as [E|[(n' & Hin & Hk')|E]]; [by left| |by right; right]. right; left. exists n'.
    split; [|done]. apply elem_of_cons in Hin as [[= ->]|?]; [congruence|done].
Qed.
Lemma backfill_ok id p c ps sy pending :
  ps !! id = Some p -> system_ok (mkSystem c ps sy pending) ->
  system_ok (mkSystem c (<[id := backfill c p]> ps) ({[id]} ∪ sy) pending).
Proof.
  intros Hid Hok. eapply change_ok; [exact Hok|exact Hid|done|done|set_solver|set_solver|].
  intros _ Hk k. unfold follows in *. cbn [sy_cache sy_synced sy_pending] in *. destruct (backfill_view c p k) as [Hb Hcm]. rewrite Hb.
  unfold expected in *. rewrite Hcm. case_decide as Es; [by left|].
  destruct (Hk k) as [E|[E|[_ E]]]; [by left|by right; left|left]. rewrite E. destruct (cx_data c !! k); [by destruct Es|done].
Qed.
Lemma register_ok id p c ps sy pending :
  ps !! id = None -> cb_view p = ∅ -> system_ok (mkSystem c ps sy pending) ->
  system_ok (mkSystem (addCallback id c) (<[id := p]> ps) sy pending).
Proof.
  intros Hid Hv (Hp & Hf & Hs). unfold system_ok, follows in *. cbn [sy_cache sy_procs sy_synced sy_pending] in *. split_and!.
  - intros i n Hin. destruct (Hp i n Hin) as [Hi Hc]. split; [by apply still_there|done].
  - intros i. cbn [addCallback cx_callbacks]. intros [Hi|Hi%list_elem_of_singleton]%elem_of_app.
    + destruct (Hf i Hi) as (q & Hq & Hk). exists q. by rewrite lookup_insert_ne by congruence.
    + subst i. exists p. rewrite lookup_insert_eq. split; [done|]. intros k. right; right. rewrite Hv, lookup_empty. split; [|done].
      intros Hsy. destruct (Hs _ Hsy). congruence.
  - intros i Hi. by apply still_there, Hs.
Qed.

Lemma reachable_ok s : reachable s -> system_ok s.
Proof.
  induction 1 as [|s s' _ Hok Hst].
  - unfold system_ok. cbn. split_and!; [by intros ? ? ?%elem_of_nil|by intros ? ?%elem_of_nil|by intros ? ?%elem_of_empty].
  - destruct Hst; [by apply write_ok|by eapply call_ok|by apply register_ok|by apply backfill_ok|].
    destruct Hok as (Hp & Hf & Hs). split_and!; [done| |done]. intros i Hi. apply (Hf i). exact (remove_first_elem _ _ _ Hi).
Qed.

(** C15: in every interleaving of the informer's writes, the calls they make
    and the registrations of processors, a processor that is registered and
    filled holds, whenever no call is pending, exactly the entries of the
    extension's configurations; while calls are pending, all entries but those
    about to be delivered are up to date. *)
Theorem processors_follow s id p :
  reachable s -> id ∈ cx_callbacks (sy_cache s) -> id ∈ sy_synced s -> sy_procs s !! id = Some p ->
  (forall k, (forall n, (id, n) ∈ sy_pending s -> note_key n <> k) -> cb_view p !! k = expected (sy_cache s) p k)
  ∧ (sy_pending s = [] -> cb_view p = omap (cb_compute p) (cx_data (sy_cache s))).
Proof.
  intros Hr Hc Hs Hid. destruct (reachable_ok s Hr) as (_ & Hf & _). destruct (Hf id Hc) as (q & Hq & Hk). rewrite Hid in Hq. injection Hq as <-.
  assert (Hv : forall k, (forall n, (id, n) ∈ sy_pending s -> note_key n <> k) -> cb_view p !! k = expected (sy_cache s) p k).
  { intros k Hn. destruct (Hk k) as [E|[(n & Hin & En)|[Hns _]]]; [done|by destruct (Hn n)|done]. }
  split; [done|]. intros Hp. apply map_eq. intros k. rewrite lookup_omap. apply Hv. intros n. rewrite Hp. by intros ?%elem_of_nil.
Qed.
End Follow.

(** ** The keys of both sides *)

(** C16: the key under which the extension caches the configuration of a
    container, made from the name of its workload's InstrumentationConfig, is
    the key of a resource with the attributes that the webhook gives the
    container's agent. *)
Theorem extension_key_roundtrip (pw : PodWorkload) container owners u :
  pw_kind pw ∈ all_kinds -> is_lower (pw_name pw) -> pw_namespace pw <> "" -> pw_name pw <> "" -> container <> "" ->
  ico_namespace u = pw_namespace pw -> ico_name u = CalculateWorkloadRuntimeObjectName (pw_name pw) (pw_kind pw) ->
  workloadKeyFromObject u = Some pw
  ∧ GetWorkloadCacheKey (VStr <$> list_to_map (getResourceAttributes pw container owners))
    = Some (k8sSourceKey (pw_namespace pw) (pw_kind pw) (pw_name pw) container).
Proof.
  destruct pw as [name ns kind]. cbn. intros Hk Hn Hns Hname Hc Ens En. destruct (kind_lower kind Hk) as (_ & _ & Hb & Hne). split.
  - unfold workloadKeyFromObject. rewrite Ens, En. unfold CalculateWorkloadRuntimeObjectName. rewrite !to_lower_app, Hn.
    rewrite decide_False; [|intros [?|E]; [done|]; destruct (to_lower kind) eqn:El; [|done]; by destruct kind].
    change (to_lower "-" +:+ name) with (String "-"%char name). rewrite split2_app by done.
    assert (Hkind : kindFromInstrumentationConfigName (to_lower kind) = kind) by (revert Hk; clear; revert kind; apply kind_cases; repeat constructor; by vm_compute).
    rewrite Hkind. by rewrite decide_False.
  - set (attrs := VStr <$> _).
    assert (Ha : attrs !! "k8s.namespace.name" = Some (VStr ns) ∧ attrs !! "k8s.container.name" = Some (VStr container)
                 ∧ attrs !! "odigos.workload.kind" = Some (VStr kind) ∧ attrs !! "odigos.workload.name" = Some (VStr name)).
    { assert (Hkk : getWorkloadKindAttributeKey kind ∉ ["k8s.namespace.name"; "k8s.container.name"; "odigos.workload.kind"; "odigos.workload.name"])
        by (revert Hk; clear; revert kind; apply kind_cases; repeat constructor; vm_compute; set_solver).
      rewrite !not_elem_of_cons in Hkk. destruct Hkk as (? & ? & ? & ? & _).
      unfold attrs, getResourceAttributes. cbn [app list_to_map foldr fst snd pw_name pw_namespace pw_kind].
      rewrite !lookup_fmap. split_and!; repeat (rewrite lookup_insert_ne by done); by rewrite lookup_insert_eq. }
    destruct Ha as (Ha1 & Ha2 & Ha3 & Ha4). unfold GetWorkloadCacheKey, workloadIdentityFromResourceAttributes, workloadKeyFromResourceAttributes,
      getNamespace, getContainerName, getKindAndName, get_str. rewrite Ha1, Ha2, Ha3, Ha4. cbn [Str]. rewrite decide_False; [done|]. naive_solver.
Qed.

(** ** Concrete inputs *)

Definition sample_config (container : string) : ContainerCollectorConfig := mkCollectorConfig container (Some (mkTailSampling [] [] [])) None None None None.
Definition sample_object (containers : list string) : IcObject :=
  mkIcObject "shop" "deployment-cart" {["odigos.io/data-stream-blue" := "true"]} ((fun c => Some (sample_config c)) <$> containers).
Definition sample_events : list informer_event := [IcSet (sample_object ["app"; "side"]); IcSet (sample_object ["app"])].
Definition sample_workload : workloadKey := mkPodWorkload "cart" "shop" "Deployment".

Lemma extension_refines_store_witness :
  let c := foldl (@handle_event order_forward) newCache sample_events in
  cx_Get "shop/Deployment/cart/app" c = Some (sample_config "app") ∧ cx_Get "shop/Deployment/cart/side" c = None
  ∧ isSourceWorkloadPrefix "shop/Deployment/cart/" c = true ∧ GetDataStreams "shop/Deployment/cart/" c = Some ["blue"].
Proof.
  assert (Hev : Forall (fun e => object_ok (event_object e)) sample_events)
    by (repeat constructor; by vm_compute).
  assert (Hw : names_ok sample_workload) by by vm_compute.
  destruct (@extension_refines_store order_forward order_forward_laws sample_events sample_workload "app" Hev Hw) as (Ha & Hs & Hd); [done|done|].
  destruct (@extension_refines_store order_forward order_forward_laws sample_events sample_workload "side" Hev Hw) as (Hb & _); [done|done|].
  split_and!; [etransitivity; [exact Ha|]|etransitivity; [exact Hb|]|etransitivity; [exact Hs|]|etransitivity; [exact Hd|]]; by vm_compute.
Defined.

Definition sample_write : write := WSet "shop/Deployment/cart/app" (sample_config "app").
(** A processor registers while a write is in progress and is filled. *)
Definition sample_system : system (P := ConfigCache) :=
  let c := addCallback 0 (apply_write newCache sample_write) in
  mkSystem c (<[0 := backfill (H := order_forward) c (ts_attach (NewConfigCache false))]> (<[0 := ts_attach (NewConfigCache false)]> ∅)) {[0]} [].

Lemma sample_reachable : reachable (H := order_forward) sample_system.
Proof.
  eapply reachable_step; [eapply reachable_step; [eapply reachable_step; [constructor|]|]|].
  - apply (step_write sample_write).
  - apply (step_register 0 (ts_attach (NewConfigCache false))); done.
  - cbn [notifies sample_write newCache cx_callbacks fmap list_fmap].
    replace {[0]} with ({[0]} ∪ ∅ : gset nat) at 1 by set_solver. unfold sample_system. rewrite <-(right_id_L ∅ (∪) ({[0]} : gset nat)) at 1.
    apply step_backfill; [by rewrite lookup_insert_eq|set_solver].
Qed.

Lemma processors_follow_witness :
  exists p, sy_procs sample_system !! 0 = Some p ∧ cb_view p = omap (cb_compute p) (cx_data (sy_cache sample_system)).
Proof.
  eexists. split; [unfold sample_system; cbn [sy_procs]; by rewrite lookup_insert_eq|].
  eapply (@processors_follow order_forward order_forward_laws ConfigCache _ _ sample_system 0); [apply sample_reachable|by apply list_elem_of_singleton|by apply elem_of_singleton| |done].
  unfold sample_system. cbn [sy_procs]. by rewrite lookup_insert_eq.
Defined.

Lemma extension_key_roundtrip_witness :
  workloadKeyFromObject (sample_object []) = Some sample_workload
  ∧ GetWorkloadCacheKey (VStr <$> list_to_map (getResourceAttributes sample_workload "app" []))
    = Some "shop/Deployment/cart/app".
Proof. apply (extension_key_roundtrip sample_workload "app" [] (sample_object [])); try done. unfold all_kinds. cbn. set_solver. Defined.
