(* ===== verification/Router.v ===== *)
(** * The router connector (src/collector/connectors/odigosrouterconnector)

    Between the root pipeline of a signal and the pipelines of the data
    streams: each resource of a batch goes to the pipelines of its workload's
    data streams, which the configuration extension knows, or to the default
    one.  The four signals have the same code but for the error of a missing
    pipeline, which only metrics report, and the dictionary that profiles copy
    into each batch.

    [telemetry_reaches_destinations] puts the connector, the extension and the
    gateway's pipelines together: a resource is exported to exactly the
    destinations that select one of its streams. *)

From S2P Require Import Prelude.
From S2P Require Import GoStrings.
From S2P Require Import GoSort.
From S2P Require Import Api.
From S2P Require Import GoLib.
From S2P Require Import CollectorConfig.
From S2P Require Import DataStreams.
From S2P Require Import GatewayProperties.
From S2P Require Import Pdata.
From S2P Require Import ConfigExtension.

(** [C]: the consumers of pipelines; [R]: the resources of a batch with their
    data; [D]: what a batch has besides (the dictionary of profiles). *)
Section Router.
Context `{GoMapOrder} {C R D : Type} `{Countable C} (resource_attributes : R -> Attributes).

Record Batch := mkBatch { b_dictionary : D; b_resources : list R }.
Record routerConfig := mkRouterConfig
  { rc_Consumer : string -> option C;
    (** the error of [Consumer] for a pipeline that is not there *)
    rc_missing : string -> string;
    rc_defaultCons : option C;
    (** whether a pipeline that is not there is an error (metrics) *)
    rc_reports : bool }.
(** The consumer of the default stream is looked up once. *)
Definition create_connector (Consumer : string -> option C) (missing : string -> string) (reports : bool) : routerConfig :=
  mkRouterConfig Consumer missing (Consumer DefaultDataStream) reports.

Definition resolveDataStreams (ext : cache) (attrs : Attributes) : list string := default [] (GetDataStreamsForWorkload attrs ext).

Definition append_resource (r : R) (b : Batch) : Batch := mkBatch (b_dictionary b) (b_resources b ++ [r]).

Record RouteState := mkRouteState { byConsumer : gmap C Batch; defaultBatch : Batch; routeErrs : list string }.

Definition route_pipeline (cfg : routerConfig) (dict : D) (r : R) (st : RouteState) (pipeline : string) : RouteState :=
  match rc_Consumer cfg pipeline with
  | None =>
      mkRouteState (byConsumer st) (defaultBatch st)
        (if rc_reports cfg then routeErrs st ++ ["failed to get metrics consumer for pipeline " +:+ pipeline +:+ ": " +:+ rc_missing cfg pipeline] else routeErrs st)
  | Some consumer =>
      let batch := default (mkBatch dict []) (byConsumer st !! consumer) in
      mkRouteState (<[consumer := append_resource r batch]> (byConsumer st)) (defaultBatch st) (routeErrs st)
  end.
Definition route_resource (ext : cache) (cfg : routerConfig) (dict : D) (st : RouteState) (r : R) : RouteState :=
  match resolveDataStreams ext (resource_attributes r) with
  | [] => mkRouteState (byConsumer st) (append_resource r (defaultBatch st)) (routeErrs st)
  | pipelines => foldl (route_pipeline cfg dict r) st pipelines
  end.

(** What is sent, in order, and the errors; [reply] is a consumer's error.
    That of the default consumer is only logged. *)
Definition Consume (ext : cache) (cfg : routerConfig) (reply : C -> Batch -> option string) (dict : D) (rs : list R) :
    list (C * Batch) * list string :=
  let st := foldl (route_resource ext cfg dict) (mkRouteState ∅ (mkBatch dict []) []) rs in
  let sent := filter (fun cb => b_resources cb.2 <> []) (map_order (map_to_list (byConsumer st))) in
  let fallback := match b_resources (defaultBatch st), rc_defaultCons cfg with
                  | _ :: _, Some c => [(c, defaultBatch st)]
                  | _, _ => []
                  end in
  (sent ++ fallback, routeErrs st ++ omap (fun cb => reply cb.1 cb.2) sent).

(** ** What each consumer receives *)

(** The streams of a resource; none is the default one. *)
Definition copies (ext : cache) (cfg : routerConfig) (c : C) (r : R) : list R :=
  omap (fun s => if decide (rc_Consumer cfg s = Some c) then Some r else None) (resolveDataStreams ext (resource_attributes r)).
Definition unrouted (ext : cache) (rs : list R) : list R := filter (fun r => resolveDataStreams ext (resource_attributes r) = []) rs.

Definition batch_of (m : gmap C Batch) (c : C) : list R := match m !! c with Some b => b_resources b | None => [] end.

Lemma route_pipelines cfg dict r c pipelines st :
  let st' := foldl (route_pipeline cfg dict r) st pipelines in
  batch_of (byConsumer st') c = batch_of (byConsumer st) c ++ omap (fun s => if decide (rc_Consumer cfg s = Some c) then Some r else None) pipelines
  ∧ defaultBatch st' = defaultBatch st.
Proof.
  revert st. induction pipelines as [|p pipelines IH]; intros st; cbn [foldl omap list_omap]; [by rewrite app_nil_r|].
  destruct (IH (route_pipeline cfg dict r st p)) as [Hb Hd]. cbv zeta in *. rewrite Hb, Hd. unfold route_pipeline.
  destruct (rc_Consumer cfg p) as [c'|]; cbn [byConsumer defaultBatch]; [|by rewrite decide_False]. split; [|done].
  unfold batch_of. destruct (decide (c' = c)) as [->|Hn].
  - rewrite lookup_insert_eq, decide_True by done. cbn [append_resource b_resources]. destruct (byConsumer st !! c); cbn; by rewrite <-?app_assoc.
  - rewrite lookup_insert_ne by done. by rewrite decide_False by congruence.
Qed.

Lemma route_resources ext cfg dict c rs st :
  let st' := foldl (route_resource ext cfg dict) st rs in
  batch_of (byConsumer st') c = batch_of (byConsumer st) c ++ (rs ≫= copies ext cfg c)
  ∧ b_resources (defaultBatch st') = b_resources (defaultBatch st) ++ unrouted ext rs.
Proof.
  revert st. induction rs as [|r rs IH]; intros st; cbn [foldl]; [by rewrite !app_nil_r|].
  destruct (IH (route_resource ext cfg dict st r)) as [Hb Hd]. cbv zeta in *. rewrite Hb, Hd.
  unfold unrouted. rewrite filter_cons. unfold route_resource. cbn [mbind list_bind]. unfold copies at 2.
  destruct (resolveDataStreams ext (resource_attributes r)) as [|s ss] eqn:E.
  - rewrite decide_True by done. cbn [byConsumer defaultBatch append_resource b_resources]. by rewrite <-app_assoc.
  - rewrite decide_False by done. destruct (route_pipelines cfg dict r c (s :: ss) st) as [Hp Hpd]. cbv zeta in *.
    rewrite Hp, Hpd. by rewrite <-app_assoc.
Qed.

(** The resources that a consumer gets from a list of batches. *)
Definition received (c : C) (sent : list (C * Batch)) : list R := filter (fun cb => cb.1 = c) sent ≫= fun cb => b_resources cb.2.

Lemma batches_none (l : list (C * Batch)) c : (forall b, (c, b) ∉ l) -> filter (fun cb => cb.1 = c) l = [].
Proof.
  intros Hl. induction l as [|[c' b'] l IH]; [done|]. rewrite filter_cons_False.
  - apply IH. intros b Hb. apply (Hl b). by right.
  - cbn. intros ->. apply (Hl b'). left.
Qed.
Lemma batches_key (l : list (C * Batch)) c b : NoDup (fmap (M:=list) fst l) -> (c, b) ∈ l -> filter (fun cb => cb.1 = c) l = [(c, b)].
Proof.
  induction l as [|[c' b'] l IH]; [by intros _ ?%elem_of_nil|]. cbn. intros [Hn Hnd]%NoDup_cons [[= <- <-]|Hin]%elem_of_cons.
  - rewrite decide_True by done. f_equal. apply batches_none. intros b' Hin. apply Hn.
    by apply (list_elem_of_fmap_2 fst) in Hin.
  - rewrite decide_False; [by apply IH|]. intros ->. apply Hn. by apply (list_elem_of_fmap_2 fst) in Hin.
Qed.

Context `{!GoMapOrderLaws}.

Lemma received_sent (m : gmap C Batch) c :
  received c (filter (fun cb => b_resources cb.2 <> []) (map_order (map_to_list m))) = batch_of m c.
Proof.
  unfold received. set (l := filter _ (map_order (map_to_list m))).
  assert (Hl : forall b, (c, b) ∈ l <-> m !! c = Some b ∧ b_resources b <> []).
  { intros b. unfold l. rewrite list_elem_of_filter, map_order_perm, elem_of_map_to_list. cbn. tauto. }
  assert (Hnd : NoDup (fmap (M:=list) fst l)).
  { eapply sublist_NoDup; [|apply (fmap_sublist fst), sublist_filter]. rewrite map_order_perm. apply NoDup_fst_map_to_list. }
  unfold batch_of. destruct (m !! c) as [b|] eqn:E; [destruct (decide (b_resources b = [])) as [Eb|Eb]|].
  - rewrite batches_none; [by rewrite Eb|]. by intros b' [[= <-] ?]%Hl.
  - rewrite (batches_key l c b); [cbn; by rewrite app_nil_r|done|by apply Hl].
  - rewrite batches_none; [done|]. by intros b' [? _]%Hl.
Qed.

(** Each resource once per stream that leads to the consumer, in order. *)
Theorem router_received ext cfg reply dict rs c :
  received c (Consume ext cfg reply dict rs).1
  = (rs ≫= copies ext cfg c) ++ (if decide (rc_defaultCons cfg = Some c) then unrouted ext rs else []).
Proof.
  unfold Consume. set (st := foldl _ _ rs). destruct (route_resources ext cfg dict c rs (mkRouteState ∅ (mkBatch dict []) [])) as [Hb Hd].
  cbv zeta in Hb, Hd. fold st in Hb, Hd. unfold batch_of in Hb at 2. cbn [byConsumer defaultBatch b_resources] in Hb, Hd.
  rewrite lookup_empty in Hb. cbn [app] in Hb, Hd. cbn [fst]. rewrite <-Hb, <-Hd, <-received_sent.
  unfold received. rewrite filter_app, bind_app. f_equal. destruct (rc_defaultCons cfg) as [d|].
  - destruct (b_resources (defaultBatch st)) as [|r l] eqn:E; [by case_decide|]. case_decide as Ec.
    + injection Ec as ->. rewrite filter_cons_True by done. cbn. by rewrite E, app_nil_r.
    + rewrite filter_cons_False by (cbn; congruence). done.
  - by destruct (b_resources (defaultBatch st)).
Qed.
End Router.

(** ** From a resource to its destinations *)

Section Delivery.
Context `{GoSortLaws} `{GoMapOrderLaws} {R D : Type} (resource_attributes : R -> Attributes).

(** The connector of a signal, in a gateway with these pipelines: a consumer
    is the pipeline of that name, if there is one. *)
Definition gateway_consumer (sig : string) (pipelines : gmap string Pipeline) (stream : string) : option string :=
  if decide (is_Some (pipelines !! (sig +:+ "/" +:+ stream))) then Some (sig +:+ "/" +:+ stream) else None.
(** The streams of a resource, the default one included. *)
Definition streams_or_default (ext : cache) (r : R) : list string :=
  match resolveDataStreams ext (resource_attributes r) with [] => [DefaultDataStream] | l => l end.

Lemma delivered_streams ext consumer missing reports (id : string) rs r :
  let cfg := create_connector consumer missing reports in
  r ∈ (rs ≫= copies resource_attributes ext cfg id)
      ++ (if decide (rc_defaultCons cfg = Some id) then unrouted resource_attributes ext rs else [])
  <-> r ∈ rs ∧ exists s, s ∈ streams_or_default ext r ∧ consumer s = Some id.
Proof.
  intros cfg. rewrite elem_of_app, list_elem_of_bind. unfold streams_or_default.
  assert (Hc : forall y, r ∈ copies resource_attributes ext cfg id y
                         <-> y = r ∧ exists s, s ∈ resolveDataStreams ext (resource_attributes y) ∧ consumer s = Some id).
  { intros y. unfold copies. rewrite list_elem_of_omap. cbn [cfg create_connector rc_Consumer]. split.
    - intros (s & Hs & Ey). case_decide; [|done]. injection Ey as ->. split; [done|by exists s].
    - intros (-> & s & Hs & Es). exists s. split; [done|by rewrite decide_True]. }
  setoid_rewrite Hc.
  assert (Hd : r ∈ (if decide (rc_defaultCons cfg = Some id) then unrouted resource_attributes ext rs else [])
               <-> r ∈ rs ∧ resolveDataStreams ext (resource_attributes r) = [] ∧ consumer DefaultDataStream = Some id).
  { cbn [cfg create_connector rc_defaultCons]. case_decide; [|split; [by intros ?%elem_of_nil|naive_solver]].
    unfold unrouted. rewrite list_elem_of_filter. naive_solver. }
  rewrite Hd. split.
  - intros [(y & (-> & s & Hs & Es) & Hin)|(Hin & -> & Es)]; (split; [done|]).
    + exists s. split; [|done]. revert Hs. destruct (resolveDataStreams ext (resource_attributes r)); [by intros ?%elem_of_nil|done].
    + exists DefaultDataStream. split; [by left|done].
  - intros (Hin & s & Hs & Es). destruct (resolveDataStreams ext (resource_attributes r)) as [|s0 ss] eqn:E.
    + right. apply list_elem_of_singleton in Hs as ->. done.
    + left. exists r. split; [|done]. split; [done|]. rewrite E. by exists s.
Qed.

(** C11: a resource of a batch is passed to the pipelines of exactly the
    destinations that select one of its workload's data streams (the default
    one if it has none) and have a pipeline for the signal. *)
Theorem telemetry_reaches_destinations (ext : cache) (dests : list Destination) (fwd : gmap string (list string)) (sig x : string)
    (missing : string -> string) (reports : bool) reply (dict : D) (rs : list R) (r : R) :
  NoDup (dest_Name <$> dests) -> sig ∈ stream_signals ->
  let pipelines := buildDataStreamPipelines (calculateDataStreams dests) fwd in
  let sent := (Consume resource_attributes ext (create_connector (gateway_consumer sig pipelines) missing reports) reply dict rs).1 in
  (exists id p, pipelines !! id = Some p ∧ x ∈ Exporters p ∧ r ∈ received id sent)
  <-> r ∈ rs ∧ exists st d l, st ∈ streams_or_default ext r ∧ d ∈ dests ∧ st ∈ selected_streams d
        ∧ fwd !! dest_Name d = Some l ∧ x ∈ l ∧ has_prefix ("forward/" +:+ sig +:+ "/") x = true.
Proof.
  intros Hnd Hsig pipelines sent. set (cfg := create_connector (gateway_consumer sig pipelines) missing reports).
  assert (Hc : forall s id, gateway_consumer sig pipelines s = Some id <-> id = sig +:+ "/" +:+ s ∧ is_Some (pipelines !! id)).
  { intros s id. unfold gateway_consumer. case_decide; naive_solver. }
  assert (Hr : forall id, r ∈ received id sent <-> r ∈ rs ∧ exists s, s ∈ streams_or_default ext r ∧ gateway_consumer sig pipelines s = Some id).
  { intros id. unfold sent. rewrite (router_received resource_attributes ext cfg reply dict rs id).
    exact (delivered_streams ext (gateway_consumer sig pipelines) missing reports id rs r). }
  setoid_rewrite Hr. setoid_rewrite Hc. split.
  - intros (id & p & Hp & Hx & Hin & st & Hst & -> & _). split; [done|].
    destruct (proj1 (stream_routes dests fwd sig st x Hnd Hsig)) as (d & l & ? & ? & ? & ? & ?); [by exists p|]. by exists st, d, l.
  - intros (Hin & st & d & l & Hst & Hrest).
    destruct (proj2 (stream_routes dests fwd sig st x Hnd Hsig)) as (p & Hp & Hx); [by exists d, l|].
    exists (sig +:+ "/" +:+ st), p. split_and!; [done|done|done|]. exists st. split_and!; [done|done|by exists p].
Qed.
End Delivery.

(** *** A concrete batch *)

Definition sample_ext : cache := foldl apply_write newCache [WStreams "shop/Deployment/cart/" ["blue"; "green"]].
Definition sample_resource : Attributes :=
  <["k8s.namespace.name" := VStr "shop"]> {["k8s.deployment.name" := VStr "cart"]}.
Definition sample_stream_dests : list Destination :=
  [mkDestination "d1" "nop" ∅ ["TRACES"] None (Some (mkSourceSelector [] ["blue"]));
   mkDestination "d2" "nop" ∅ ["TRACES"] None None].
Definition sample_forwards : gmap string (list string) :=
  <["d1" := ["forward/traces/nop-d1"]]> {["d2" := ["forward/traces/nop-d2"]]}.

#[local] Instance sample_order : GoMapOrder := order_forward.
#[local] Instance sample_order_laws : GoMapOrderLaws := order_forward_laws.

Lemma telemetry_reaches_destinations_witness :
  let pipelines := buildDataStreamPipelines (calculateDataStreams sample_stream_dests) sample_forwards in
  let sent := (Consume (D := unit) (fun r : Attributes => r) sample_ext
                 (create_connector (gateway_consumer "traces" pipelines) (fun _ => "no such pipeline") false) (fun _ _ => None) tt [sample_resource]).1 in
  exists id p, pipelines !! id = Some p ∧ "forward/traces/nop-d1" ∈ Exporters p ∧ sample_resource ∈ received id sent.
Proof.
  apply (telemetry_reaches_destinations (D := unit) (fun r => r) sample_ext sample_stream_dests sample_forwards "traces"
    "forward/traces/nop-d1" (fun _ => "no such pipeline") false (fun _ _ => None) tt [sample_resource] sample_resource);
    [by apply (bool_decide_unpack _)..|].
  split; [by left|]. exists "blue", (mkDestination "d1" "nop" ∅ ["TRACES"] None (Some (mkSourceSelector [] ["blue"]))), ["forward/traces/nop-d1"].
  split_and!; [|by left|by left|by vm_compute|by left|done]. by apply (bool_decide_unpack _).
Defined.
