(* ===== verification/Actions.v ===== *)
(** * Actions (src/autoscaler/controllers/actions, api/{actions,odigos}/v1alpha1)

    An action is a request of a user that the collectors change telemetry: it
    has the configuration of one kind of change.  Some kinds become a
    [Processor] object of their own, the kind that reads metadata from
    Kubernetes is merged into one processor for all its actions, URL
    templatization shares a processor too, and the rest is read by the
    collectors' configuration extension.

    This file models the data, the webhook's validation and the conversion to
    processors; ActionsReconcile models the controllers.  The configuration of
    a processor is kept as the structure that the code marshals to JSON, which
    cannot fail for structures of strings, booleans, lists and maps. *)

From stdpp Require Import pretty.
From Stdlib Require Import Ascii.
From S2P Require Import Prelude.
From S2P Require Import GoStrings.
From S2P Require Import GoSort.
From S2P Require Import K8s.
From S2P Require Import Api.
From S2P Require Import GoLib.
From S2P Require Import CollectorConfig.
From S2P Require Import GatewayTelemetry.
From S2P Require Import Pdata.

(** ** The kinds of actions *)

(** A value is a pointer: nil is written as null. *)
Record OtelAttributeWithValue := mkOtelAttribute { oa_AttributeName : string; oa_AttributeStringValue : option string }.
Record AddClusterInfoConfig := mkAddClusterInfo
  { ci_ClusterAttributes : list OtelAttributeWithValue; ci_OverwriteExistingValues : bool }.
Record DeleteAttributeConfig := mkDeleteAttribute { da_AttributeNamesToDelete : list string }.
Record RenameAttributeConfig := mkRenameAttribute { ra_Renames : gmap string string }.

(** The deprecated settings on replica sets and workload uids are not read. *)
Definition K8sAttributeSource := string.
Definition PodAttributeSource : K8sAttributeSource := "pod".
Definition NamespaceAttributeSource : K8sAttributeSource := "namespace".
Definition NodeAttributeSource : K8sAttributeSource := "node".
Definition K8sAttributeSourcePrecedence : list K8sAttributeSource :=
  [NodeAttributeSource; NamespaceAttributeSource; PodAttributeSource].
(** A label, or an annotation: the two types have the same fields. *)
Record K8sMetadataAttribute := mkK8sMetadata
  { km_Key : string; km_AttributeKey : string; km_From : option string; km_FromSources : list K8sAttributeSource }.
Record K8sAttributesConfig := mkK8sAttributes
  { ka_CollectContainerAttributes : bool;
    ka_CollectClusterUID : bool;
    ka_LabelsAttributes : list K8sMetadataAttribute;
    ka_AnnotationsAttributes : list K8sMetadataAttribute }.

Record Extraction := mkExtraction
  { ex_TargetAttributeName : string; ex_LookupKey : string; ex_DataFormat : string; ex_Regex : string }.
Record ExtractAttributeConfig := mkExtractAttribute { ea_Extractions : list Extraction }.

(** [Signals] may be a nil slice.  The shared kinds are those of Api. *)
Record ActionSpec := mkActionSpec
  { as_ActionName : string;
    as_Notes : string;
    as_Disabled : bool;
    as_Signals : option (list string);
    as_AddClusterInfo : option AddClusterInfoConfig;
    as_DeleteAttribute : option DeleteAttributeConfig;
    as_RenameAttribute : option RenameAttributeConfig;
    as_PiiMasking : option PiiMaskingAction;
    as_K8sAttributes : option K8sAttributesConfig;
    as_URLTemplatization : option UrlTemplatizationAction;
    as_SpanRenamer : option SpanRenamerAction;
    as_ExtractAttribute : option ExtractAttributeConfig;
    as_DbQueryTemplatization : option DbQueryTemplatizationAction;
    as_InferDbAttributes : option (option SourcesScopes) }.

(** A condition with the generation it was observed at. *)
Record ObservedCondition := mkObserved { oc_Condition : Condition; oc_ObservedGeneration : Z }.

Record OwnerRef := mkOwnerRef { ow_APIVersion : string; ow_Kind : string; ow_Name : string; ow_UID : string }.

Record ActionObject := mkActionObject
  { ao_APIVersion : string;
    ao_Kind : string;
    ao_Name : string;
    ao_Namespace : string;
    ao_UID : string;
    ao_Generation : Z;
    ao_Spec : ActionSpec;
    ao_Conditions : list ObservedCondition }.

(** What [ActionConfig] tells of a kind: type, order hint, collector roles. *)
Record ActionConfig := mkActionConfig
  { ProcessorType : string; OrderHint : Z; CollectorRoles : list string }.
Definition AddClusterInfo_config := mkActionConfig "resource" 1 [CollectorsGroupRoleClusterGateway].
Definition DeleteAttribute_config := mkActionConfig "transform" (-100) [CollectorsGroupRoleClusterGateway].
Definition RenameAttribute_config := mkActionConfig "transform" (-50) [CollectorsGroupRoleClusterGateway].
Definition ExtractAttribute_config := mkActionConfig "odigosextractattribute" 2 [CollectorsGroupRoleClusterGateway].
Definition K8sAttributes_config := mkActionConfig "k8sattributes" 0 [CollectorsGroupRoleNodeCollector].
Definition URLTemplatization_config := mkActionConfig "odigosurltemplate" 1 [CollectorsGroupRoleClusterGateway].

(** ** Configurations of the processors *)

Record addClusterInfoAttributeConfig := mkInfoAttribute
  { ia_Key : string; ia_Value : option string; ia_Action : string }.

Record OttlStatementConfig := mkOttl { ottl_Context : string; ottl_Statements : list string }.
Record TransformProcessorConfig := mkTransform
  { tp_ErrorMode : string;
    tp_TraceStatements : list OttlStatementConfig;
    tp_MetricStatements : list OttlStatementConfig;
    tp_LogStatements : list OttlStatementConfig;
    tp_ProfileStatements : list OttlStatementConfig }.

Record k8sTagAttribute := mkTag { tag_Tag : string; tag_Key : string; tag_From : string }.
Record k8sAttributesConfig := mkK8sConfig
  { kc_AuthType : string;
    kc_Passthrough : bool;
    kc_NodeFromEnvVar : string;
    kc_MetadataAttributes : list string;
    kc_LabelAttributes : list k8sTagAttribute;
    kc_AnnotationAttributes : list k8sTagAttribute;
    (** the sources of each association: where from, and the name *)
    kc_PodAssociation : list (list (string * string)) }.

Inductive ProcessorConfig :=
| PCResource (attributes : list addClusterInfoAttributeConfig)
| PCTransform (c : TransformProcessorConfig)
| PCExtract (extractions : list Extraction)
| PCK8sAttributes (c : k8sAttributesConfig)
| PCOdigosExtension (ext : string).

(** *** addclusterinfo_controller.go *)

Definition addClusterInfoConfig (cfg : list OtelAttributeWithValue) (overwriteExistingValues : bool) :
    list addClusterInfoAttributeConfig :=
  let action := if overwriteExistingValues then "upsert" else "insert" in
  (fun attr => mkInfoAttribute (oa_AttributeName attr) (oa_AttributeStringValue attr) action) <$> cfg.

(** *** deleteattribute_controller.go and renameattribute_controller.go *)

Definition dquote : ascii := "034"%char.
(** [s] between double quotes; the verb %s does not escape it. *)
Definition in_quotes (s : string) : string := String dquote (s +:+ String dquote "").
Definition delete_statement (attr : string) : string := "delete_key(attributes, " +:+ in_quotes attr +:+ ")".
Definition set_statement (to from : string) : string :=
  "set(attributes[" +:+ in_quotes to +:+ "], attributes[" +:+ in_quotes from +:+ "])".

(** The blocks of a signal: the same statements in each context. *)
Definition blocks (contexts statements : list string) : list OttlStatementConfig :=
  (fun c => mkOttl c statements) <$> contexts.
Definition log_contexts := ["resource"; "scope"; "log"].
Definition metric_contexts := ["resource"; "scope"; "datapoint"].
Definition trace_contexts := ["resource"; "scope"; "span"; "spanevent"].
Definition profile_contexts := ["resource"; "scope"; "profile"].

Definition add_signal_statements (statements : list string) (config : TransformProcessorConfig) (signal : string) :
    TransformProcessorConfig :=
  if decide (signal = LogsObservabilitySignal) then
    mkTransform (tp_ErrorMode config) (tp_TraceStatements config) (tp_MetricStatements config)
      (blocks log_contexts statements) (tp_ProfileStatements config)
  else if decide (signal = MetricsObservabilitySignal) then
    mkTransform (tp_ErrorMode config) (tp_TraceStatements config) (blocks metric_contexts statements)
      (tp_LogStatements config) (tp_ProfileStatements config)
  else if decide (signal = TracesObservabilitySignal) then
    mkTransform (tp_ErrorMode config) (blocks trace_contexts statements) (tp_MetricStatements config)
      (tp_LogStatements config) (tp_ProfileStatements config)
  else if decide (signal = ProfilesObservabilitySignal) then
    mkTransform (tp_ErrorMode config) (tp_TraceStatements config) (tp_MetricStatements config)
      (tp_LogStatements config) (blocks profile_contexts statements)
  else config.

Definition deleteAttributeConfig (cfg : list string) (signals : option (list string)) : error + TransformProcessorConfig :=
  match signals with
  | None => inl (ENew "Signals must be set")
  | Some signals =>
      inr (foldl (add_signal_statements (delete_statement <$> cfg)) (mkTransform "propagate" [] [] [] []) signals)
  end.

Section MapOrder.
Context `{GoMapOrder}.

Definition rename_statements (cfg : gmap string string) : list string :=
  map_order (map_to_list cfg) ≫= fun '(from, to) => [set_statement to from; delete_statement from].
Definition renameAttributeConfig (cfg : gmap string string) (signals : option (list string)) :
    error + TransformProcessorConfig :=
  match signals with
  | None => inl (ENew "Signals must be set")
  | Some signals => inr (foldl (add_signal_statements (rename_statements cfg)) (mkTransform "ignore" [] [] [] []) signals)
  end.
End MapOrder.

(** *** extractattribute_controller.go *)

Section Library.
Context `{GoLibrary}.

Definition at_extraction (i : nat) (msg : string) : error := ENew ("extractions[" +:+ pretty (Z.of_nat i) +:+ "]: " +:+ msg).

(** One rule, the [i]-th; [seenNames] has the index of each name so far.  The
    last check of the code repeats the second. *)
Definition check_extraction (seenNames : gmap string nat) (i : nat) (e : Extraction) : option error :=
  let hasLookupKey := bool_decide (ex_LookupKey e <> "") in
  let hasRegex := bool_decide (ex_Regex e <> "") in
  if decide (ex_TargetAttributeName e = "") then Some (at_extraction i "targetAttributeName is required")
  else match seenNames !! ex_TargetAttributeName e with
  | Some prev =>
      Some (at_extraction i ("duplicate targetAttributeName " +:+ strconv_Quote (ex_TargetAttributeName e)
              +:+ " (also used by extractions[" +:+ pretty (Z.of_nat prev) +:+ "])"))
  | None =>
      if eqb hasLookupKey hasRegex then Some (at_extraction i "exactly one of lookupKey or regex must be set")
      else if hasLookupKey && bool_decide (ex_DataFormat e = "") then
        Some (at_extraction i "dataFormat is required when lookupKey is set")
      else if hasRegex && bool_decide (ex_DataFormat e <> "") then
        Some (at_extraction i "dataFormat must be empty when regex is set")
      else if hasRegex && bool_decide (ex_LookupKey e <> "") then
        Some (at_extraction i "lookupKey must be empty when regex is set")
      else None
  end.
Fixpoint check_extractions (seenNames : gmap string nat) (i : nat) (l : list Extraction) : option error :=
  match l with
  | [] => None
  | e :: l =>
      match check_extraction seenNames i e with
      | Some err => Some err
      | None => check_extractions (<[ex_TargetAttributeName e := i]> seenNames) (S i) l
      end
  end.

Definition extractAttributeConfig (cfg : option ExtractAttributeConfig) : error + list Extraction :=
  match cfg with
  | None => inl (ENew "extractAttribute config is nil")
  | Some cfg =>
      match ea_Extractions cfg with
      | [] => inl (ENew "extractions must not be empty")
      | l => match check_extractions ∅ 0 l with Some err => inl err | None => inr l end
      end
  end.
End Library.

(** *** k8sattributesresolver_controller.go *)

Definition getEffectiveSources (from : option string) (fromSources : list K8sAttributeSource) : list K8sAttributeSource :=
  match fromSources, from with
  | [], Some from => [from]
  | [], None => [PodAttributeSource]
  | l, _ => l
  end.

Fixpoint index_from (i : Z) (source : string) (l : list string) : Z :=
  match l with
  | [] => -1
  | s :: l => if decide (s = source) then i else index_from (i + 1) source l
  end.
Definition sourcePrecedence (source : K8sAttributeSource) : Z := index_from 0 source K8sAttributeSourcePrecedence.

Definition tag_compare : comparer k8sTagAttribute :=
  compare_lex (compare_on (fun t => sourcePrecedence (tag_From t)) int_compare) (compare_on tag_Key string_compare).

(** The rules of an attribute, one for each of its sources, by the key
    "key:source". *)
Definition add_source (a : K8sMetadataAttribute) (attrs : gmap string k8sTagAttribute) (source : string) :
    gmap string k8sTagAttribute :=
  <[km_Key a +:+ ":" +:+ source := mkTag (km_AttributeKey a) (km_Key a) source]> attrs.
Definition add_metadata (attrs : gmap string k8sTagAttribute) (a : K8sMetadataAttribute) : gmap string k8sTagAttribute :=
  foldl (add_source a) attrs (getEffectiveSources (km_From a) (km_FromSources a)).

(** The actions that are merged. *)
Definition k8s_configs (l : list ActionObject) : list (ActionSpec * K8sAttributesConfig) :=
  omap (fun a => if as_Disabled (ao_Spec a) then None else (fun c => (ao_Spec a, c)) <$> as_K8sAttributes (ao_Spec a)) l.

Definition containerAttributes : list string :=
  ["k8s.container.name"; "container.id"; "container.image.name"; "container.image.tag"].
Definition metadata_attributes (configs : list K8sAttributesConfig) : list string :=
  let l := (if existsb ka_CollectContainerAttributes configs then containerAttributes else [])
           ++ (if existsb ka_CollectClusterUID configs then ["k8s.cluster.uid"] else []) in
  match l with [] => ["k8s.pod.name"] | _ => l end.

Definition owner_of (a : ActionObject) : OwnerRef := mkOwnerRef (ao_APIVersion a) (ao_Kind a) (ao_Name a) (ao_UID a).

Section Conversion.
Context `{GoMapOrder} `{GoSort} `{GoLibrary}.

(** [sort.Slice] with the comparison of the code. *)
Definition sortByPrecedence (attrs : gmap string k8sTagAttribute) : list k8sTagAttribute :=
  SortFunc tag_compare (map_order (map_to_list attrs).*2).

(** For the actions of the namespace, as they are listed. *)
Definition k8sAttributeConfig (actionList : list ActionObject) : k8sAttributesConfig * gset string * list OwnerRef :=
  let configs := (k8s_configs actionList).*2 in
  (mkK8sConfig "serviceAccount" false "NODE_NAME" (metadata_attributes configs)
     (sortByPrecedence (foldl add_metadata ∅ (configs ≫= ka_LabelsAttributes)))
     (sortByPrecedence (foldl add_metadata ∅ (configs ≫= ka_AnnotationsAttributes)))
     [[("resource_attribute", "k8s.pod.name"); ("resource_attribute", "k8s.namespace.name")]],
   list_to_set ((k8s_configs actionList).*1 ≫= fun s => default [] (as_Signals s)),
   owner_of <$> actionList).

(** ** Processors (processor_types.go) *)

Record ProcessorSpec := mkProcessorSpec
  { ps_Type : string;
    ps_ProcessorName : string;
    ps_Notes : string;
    ps_Disabled : bool;
    ps_Signals : option (list string);
    ps_CollectorRoles : list string;
    ps_OrderHint : Z;
    ps_ProcessorConfig : ProcessorConfig }.
Record ProcessorObject := mkProcessorObject
  { po_Name : string;
    po_Namespace : string;
    po_OwnerReferences : list OwnerRef;
    po_Spec : ProcessorSpec;
    po_Conditions : list ObservedCondition }.

Definition convertToDefaultProcessor (action : ActionObject) (actionConfig : ActionConfig) (config : ProcessorConfig) :
    ProcessorObject :=
  mkProcessorObject (ao_Name action) (ao_Namespace action) [owner_of action]
    (mkProcessorSpec (ProcessorType actionConfig) (as_ActionName (ao_Spec action)) (as_Notes (ao_Spec action))
       (as_Disabled (ao_Spec action)) (as_Signals (ao_Spec action)) (CollectorRoles actionConfig)
       (OrderHint actionConfig) config) [].

(** The processor of all the K8sAttributes actions. *)
Definition k8s_processor (action : ActionObject) (actionList : list ActionObject) : ProcessorObject :=
  let '(config, signals, ownerReferences) := k8sAttributeConfig actionList in
  mkProcessorObject "odigos-k8sattributes" (ao_Namespace action) ownerReferences
    (mkProcessorSpec (ProcessorType K8sAttributes_config) "Unified Kubernetes Attributes" (as_Notes (ao_Spec action))
       false (match map_order (elements signals) with [] => None | l => Some l end)
       [CollectorsGroupRoleNodeCollector] (OrderHint K8sAttributes_config) (PCK8sAttributes config)) [].

(** [listed] is the reply to the list of the namespace's actions, which only
    a K8sAttributes action asks for. *)
Definition convertActionToProcessor (listed : error + list ActionObject) (action : ActionObject) : error + ProcessorObject :=
  let s := ao_Spec action in
  match as_AddClusterInfo s, as_DeleteAttribute s, as_RenameAttribute s, as_ExtractAttribute s, as_K8sAttributes s with
  | Some c, _, _, _, _ =>
      inr (convertToDefaultProcessor action AddClusterInfo_config
             (PCResource (addClusterInfoConfig (ci_ClusterAttributes c) (ci_OverwriteExistingValues c))))
  | None, Some c, _, _, _ =>
      err_bind (deleteAttributeConfig (da_AttributeNamesToDelete c) (as_Signals s)) (fun config =>
      inr (convertToDefaultProcessor action DeleteAttribute_config (PCTransform config)))
  | None, None, Some c, _, _ =>
      err_bind (renameAttributeConfig (ra_Renames c) (as_Signals s)) (fun config =>
      inr (convertToDefaultProcessor action RenameAttribute_config (PCTransform config)))
  | None, None, None, Some c, _ =>
      err_bind (extractAttributeConfig (Some c)) (fun config =>
      inr (convertToDefaultProcessor action ExtractAttribute_config (PCExtract config)))
  | None, None, None, None, Some _ => err_bind listed (fun l => inr (k8s_processor action l))
  | None, None, None, None, None => inl (ENew "no supported action found in resource")
  end.

(** ** URL templatization's shared processor (url_templatization_sync.go) *)

Definition URLTemplatizationProcessorName : string := "odigos-url-templatization".
Definition SharedProcessorCollectorRoles (spanMetricsEnabled : bool) : list string :=
  if spanMetricsEnabled then [CollectorsGroupRoleNodeCollector] else [CollectorsGroupRoleClusterGateway].
Definition wants_templatization (a : ActionObject) : bool :=
  bool_decide (is_Some (as_URLTemplatization (ao_Spec a))) && negb (as_Disabled (ao_Spec a)).
Definition buildUrlTemplatizationProcessor (namespace : string) (spanMetricsEnabled : bool) : ProcessorObject :=
  mkProcessorObject URLTemplatizationProcessorName namespace []
    (mkProcessorSpec (ProcessorType URLTemplatization_config) "URL Templatization" "" false
       (Some [TracesObservabilitySignal]) (SharedProcessorCollectorRoles spanMetricsEnabled)
       (OrderHint URLTemplatization_config) (PCOdigosExtension "odigos_config_k8s")) [].

(** ** The catalog (src/actions/data, k8sutils/pkg/action) *)

(** The first kind that is set. *)
Definition CatalogType (a : ActionObject) : string :=
  let s := ao_Spec a in
  if bool_decide (is_Some (as_AddClusterInfo s)) then "AddClusterInfo"
  else if bool_decide (is_Some (as_DeleteAttribute s)) then "DeleteAttribute"
  else if bool_decide (is_Some (as_RenameAttribute s)) then "RenameAttribute"
  else if bool_decide (is_Some (as_PiiMasking s)) then "PiiMasking"
  else if bool_decide (is_Some (as_K8sAttributes s)) then "K8sAttributesResolver"
  else if bool_decide (is_Some (as_URLTemplatization s)) then "URLTemplatization"
  else if bool_decide (is_Some (as_SpanRenamer s)) then "SpanRenamer"
  else if bool_decide (is_Some (as_ExtractAttribute s)) then "ExtractAttribute"
  else if bool_decide (is_Some (as_DbQueryTemplatization s)) then "DbQueryTemplatization"
  else if bool_decide (is_Some (as_InferDbAttributes s)) then "InferDbAttributes"
  else "".

(** The processors of the catalog's entries that have any: their types and
    configuration mechanisms. *)
Definition catalog_processors : list (string * list (string * string)) :=
  [("DbQueryTemplatization", [("odigossqlquery", "odigosConfigExtension")]);
   ("InferDbAttributes", [("odigossqlquery", "odigosConfigExtension")]);
   ("PiiMasking", [("odigospiimasking", "odigosConfigExtension")])].

Definition ConfigExtensionProcessorTypes (a : ActionObject) : list string :=
  (filter (fun p => p.2 = "odigosConfigExtension") (switch (CatalogType a) catalog_processors [])).*1.
Definition IsConfigExtension (a : ActionObject) : bool := nonempty (ConfigExtensionProcessorTypes a).

(** ** The webhook (actions_webhook.go) *)

Definition when_set {A B} (o : option A) (l : list B) : list B := match o with Some _ => l | None => [] end.
(** The kinds that are set, with their paths under spec. *)
Definition set_kinds (s : ActionSpec) : list string :=
  when_set (as_AddClusterInfo s) ["addClusterInfo"] ++
  when_set (as_DeleteAttribute s) ["deleteAttribute"] ++
  when_set (as_RenameAttribute s) ["renameAttribute"] ++
  when_set (as_PiiMasking s) ["piiMasking"] ++
  when_set (as_K8sAttributes s) ["k8sAttributes"] ++
  when_set (as_URLTemplatization s) ["urlTemplatization"] ++
  when_set (as_SpanRenamer s) ["spanRenamer"] ++
  when_set (as_ExtractAttribute s) ["extractAttribute"] ++
  when_set (as_DbQueryTemplatization s) ["dbQueryTemplatization"] ++
  when_set (as_InferDbAttributes s) ["inferDbAttributes"].

Definition validActionConfigNames : list string :=
  ["AddClusterInfo"; "DeleteAttribute"; "RenameAttribute"; "PiiMasking"; "K8sAttributes"; "URLTemplatization";
   "SpanRenamer"; "ExtractAttribute"; "DbQueryTemplatization"; "InferDbAttributes"].

(** An entry of [field.ErrorList]: the path and the detail. *)
Definition validateAction (odigosNamespace : string) (action : ActionObject) : list (string * string) :=
  if decide (ao_Namespace action <> odigosNamespace) then
    [("namespace", "actions are only allowed in the odigos namespace '" +:+ odigosNamespace +:+ "'")]
  else
    match set_kinds (ao_Spec action) with
    | [] => [("spec", "At least one of (" +:+ join ", " validActionConfigNames +:+ ") must be set")]
    | [_] => []
    | fields =>
        (fun path => ("spec." +:+ path, "Only one of (" +:+ join ", " validActionConfigNames +:+ ") may be set"))
          <$> map_order fields
    end.
End Conversion.

(** ** What a transform processor does *)

(** OTTL belongs to the collector: [ottl_run] is the effect of a statement on
    the attributes of an element.  Its laws are the documentation of [set],
    which does nothing when the value is nil, and of [delete_key], for names
    that need no escape in a string literal. *)
Class Ottl := { ottl_run : string -> Attributes -> Attributes }.
Definition plain (s : string) : Prop := has_byte dquote s = false ∧ has_byte "092"%char s = false.
Class OttlLaws `{Ottl} : Prop := {
  run_set to from a :
    plain to -> plain from ->
    ottl_run (set_statement to from) a = match a !! from with Some v => <[to := v]> a | None => a end;
  run_delete k a : plain k -> ottl_run (delete_statement k) a = delete k a
}.

Definition all_signals : list string :=
  [LogsObservabilitySignal; MetricsObservabilitySignal; TracesObservabilitySignal; ProfilesObservabilitySignal].
Definition signal_blocks (signal : string) (c : TransformProcessorConfig) : list OttlStatementConfig :=
  switch signal
    [(LogsObservabilitySignal, tp_LogStatements c); (MetricsObservabilitySignal, tp_MetricStatements c);
     (TracesObservabilitySignal, tp_TraceStatements c); (ProfilesObservabilitySignal, tp_ProfileStatements c)] [].
(** The contexts of a signal that have attributes. *)
Definition signal_contexts (signal : string) : list string :=
  switch signal
    [(LogsObservabilitySignal, log_contexts); (MetricsObservabilitySignal, metric_contexts);
     (TracesObservabilitySignal, trace_contexts); (ProfilesObservabilitySignal, profile_contexts)] [].

Lemma signal_blocks_step statements c signal signal' :
  signal ∈ all_signals ->
  signal_blocks signal (add_signal_statements statements c signal')
  = if decide (signal' = signal) then blocks (signal_contexts signal) statements else signal_blocks signal c.
Proof.
  intros Hs. unfold all_signals in Hs. rewrite !elem_of_cons, elem_of_nil in Hs. unfold add_signal_statements.
  destruct Hs as [->|[->|[->|[->|[]]]]]; repeat case_decide; subst; done.
Qed.

Lemma signal_blocks_all statements c signals signal :
  signal ∈ all_signals ->
  signal_blocks signal (foldl (add_signal_statements statements) c signals)
  = if decide (signal ∈ signals) then blocks (signal_contexts signal) statements else signal_blocks signal c.
Proof.
  intros Hs. revert c. induction signals as [|s signals IH]; intros c; cbn [foldl].
  - by rewrite decide_False by apply not_elem_of_nil.
  - rewrite IH, signal_blocks_step by done.
    destruct (decide (s = signal)) as [->|Hn]; [rewrite (decide_True (P:=signal ∈ signal :: signals)) by left; by case_decide|].
    repeat case_decide; set_solver.
Qed.

(** The processor's configuration has the same statements in every context of
    every signal that is asked for, and none for the other signals. *)
Definition runs_everywhere (statements signals : list string) (c : TransformProcessorConfig) : Prop :=
  forall signal, signal ∈ all_signals ->
    signal_blocks signal c = if decide (signal ∈ signals) then blocks (signal_contexts signal) statements else [].

Lemma statements_everywhere statements mode signals :
  runs_everywhere statements signals (foldl (add_signal_statements statements) (mkTransform mode [] [] [] []) signals).
Proof.
  intros signal Hs. rewrite signal_blocks_all by done. case_decide; [done|].
  unfold all_signals in Hs. rewrite !elem_of_cons, elem_of_nil in Hs. by destruct Hs as [->|[->|[->|[->|[]]]]].
Qed.

Section Transform.
Context `{OttlLaws}.

Definition run_statements (l : list string) (a : Attributes) : Attributes := foldl (fun a s => ottl_run s a) a l.

Lemma run_deletes l a k :
  Forall plain l -> run_statements (delete_statement <$> l) a !! k = if decide (k ∈ l) then None else a !! k.
Proof.
  intros Hl. revert a. induction Hl as [|x l Hx Hl IH]; intros a; [done|].
  cbn [fmap list_fmap]. unfold run_statements in *. cbn [foldl]. rewrite run_delete, IH by done.
  destruct (decide (k = x)) as [->|Hn]; [rewrite lookup_delete_eq|rewrite lookup_delete_ne by done]; repeat case_decide; set_solver.
Qed.

(** Deleting attributes removes the named ones and nothing else. *)
Theorem delete_attribute_removes names signals config a :
  Forall plain names -> deleteAttributeConfig names (Some signals) = inr config ->
  exists statements, runs_everywhere statements signals config
  ∧ forall k, run_statements statements a !! k = if decide (k ∈ names) then None else a !! k.
Proof.
  intros Hp [= <-]. exists (delete_statement <$> names). split; [apply statements_everywhere|].
  intros k. by apply run_deletes.
Qed.

(** The attributes after renames: each source is gone, and its value, if it
    had one, is that of its target. *)
Definition renamed (l : list (string * string)) (a b : Attributes) : Prop :=
  (forall from to, (from, to) ∈ l -> b !! from = None ∧ b !! to = match a !! from with Some v => Some v | None => a !! to end)
  ∧ (forall k, k ∉ l.*1 -> k ∉ l.*2 -> b !! k = a !! k).

Lemma run_renames l a :
  Forall (fun x => plain x.1 ∧ plain x.2) l -> NoDup l.*1 -> NoDup l.*2 -> (forall k, k ∈ l.*2 -> k ∉ l.*1) ->
  renamed l a (run_statements (l ≫= fun '(from, to) => [set_statement to from; delete_statement from]) a).
Proof.
  revert a. induction l as [|[from to] l IH]; intros a Hp H1 H2 Hd.
  { split; [by intros ? ? ?%elem_of_nil|done]. }
  apply Forall_cons in Hp as [[Hf Ht] Hp]. csimpl in H1; csimpl in H2; csimpl in Hd. apply NoDup_cons in H1 as [Hf1 H1].
  apply NoDup_cons in H2 as [Ht2 H2]. cbn [fst snd] in Hf, Ht.
  set (a1 := delete from (match a !! from with Some v => <[to := v]> a | None => a end)).
  replace (run_statements _ a) with (run_statements (l ≫= fun '(from, to) => [set_statement to from; delete_statement from]) a1);
    [|unfold run_statements; cbn; by rewrite run_set, run_delete].
  destruct (IH a1 Hp H1 H2) as [Hin Hout].
  { intros k Hk Hk'. apply (Hd k); by right. }
  assert (Hft : from <> to) by (intros ->; apply (Hd to); by left).
  assert (Hf2 : from ∉ l.*2) by (intros Hx; apply (Hd from); [by right|by left]).
  assert (Ht1 : to ∉ l.*1) by (intros Hx; apply (Hd to); [by left|by right]).
  assert (Ha1 : forall k, k <> from -> k <> to -> a1 !! k = a !! k).
  { intros k Hk1 Hk2. unfold a1. rewrite lookup_delete_ne by done. destruct (a !! from); [by rewrite lookup_insert_ne|done]. }
  split.
  - intros f t [[= -> ->]|Hft']%elem_of_cons.
    + split.
      * rewrite Hout by done. apply lookup_delete_eq.
      * rewrite Hout by done. unfold a1. rewrite lookup_delete_ne by done.
        destruct (a !! from); [by rewrite lookup_insert_eq|done].
    + assert (f ∈ l.*1 ∧ t ∈ l.*2) as [Hf' Ht'].
      { split; [by apply (list_elem_of_fmap_2 fst) in Hft'|by apply (list_elem_of_fmap_2 snd) in Hft']. }
      destruct (Hin f t Hft') as [E0 E]. split; [done|]. rewrite E.
      by rewrite !Ha1 by (intros ->; done).
  - intros k Hk1 Hk2. csimpl in Hk1; csimpl in Hk2. apply not_elem_of_cons in Hk1 as [? ?], Hk2 as [? ?].
    rewrite Hout by done. by apply Ha1.
Qed.

(** C21: renaming attributes, in every context of every signal that is asked
    for: each old name is gone, the new name has its value if it had one, and
    nothing else changes, in whatever order the map is visited, provided that
    the new names differ from each other and from the old ones
    ([rename_chain_by_order] otherwise), and that no name has a quote or a
    backslash: names are put into the statements without an escape
    ([set_statement_breaks]). *)
Theorem rename_attribute_moves `{GoMapOrderLaws} (renames : gmap string string) (signals : list string)
    (config : TransformProcessorConfig) (a : Attributes) :
  map_Forall (fun from to => plain from ∧ plain to ∧ renames !! to = None) renames ->
  (forall f1 f2 to, renames !! f1 = Some to -> renames !! f2 = Some to -> f1 = f2) ->
  renameAttributeConfig renames (Some signals) = inr config ->
  exists statements, runs_everywhere statements signals config
  ∧ (forall from to, renames !! from = Some to ->
       run_statements statements a !! from = None
       ∧ run_statements statements a !! to = match a !! from with Some v => Some v | None => a !! to end)
  ∧ (forall k, renames !! k = None -> (forall from, renames !! from <> Some k) -> run_statements statements a !! k = a !! k).
Proof.
  intros Hm Hinj [= <-]. exists (rename_statements renames). split; [apply statements_everywhere|].
  set (l := map_order (map_to_list renames)).
  assert (Hl : forall f t, (f, t) ∈ l <-> renames !! f = Some t) by (intros; unfold l; by rewrite map_order_perm, elem_of_map_to_list).
  assert (Hl1 : forall k, k ∈ l.*1 <-> is_Some (renames !! k)).
  { intros k. rewrite list_elem_of_fmap. split; [intros ([f t] & -> & ?%Hl); by exists t|intros [t ?%Hl]; by exists (k, t)]. }
  assert (Hl2 : forall k, k ∈ l.*2 <-> exists f, renames !! f = Some k).
  { intros k. rewrite list_elem_of_fmap. split; [intros ([f t] & -> & ?%Hl); by exists f|intros [f ?%Hl]; by exists (f, k)]. }
  destruct (run_renames l a) as [Hin Hout].
  - apply Forall_forall. intros [f t] Hft%Hl. apply Hm in Hft as (? & ? & ?). done.
  - unfold l. rewrite map_order_perm. apply NoDup_fst_map_to_list.
  - unfold l. rewrite map_order_perm. apply NoDup_fmap_2_strong; [|apply NoDup_map_to_list].
    intros [f1 t1] [f2 t2] E1%elem_of_map_to_list E2%elem_of_map_to_list. cbn. intros ->. f_equal. by eapply Hinj.
  - intros k [f Hf]%Hl2 [t Ht]%Hl1. apply Hm in Hf as (_ & _ & Hn). congruence.
  - split; [intros f t Hft; apply Hin; by apply Hl|].
    intros k Hk1 Hk2. apply Hout; [rewrite Hl1, Hk1; by intros [? [=]]|]. intros [f Hf]%Hl2. by apply (Hk2 f).
Qed.
End Transform.

(** An interpreter of the two statements, for concrete runs. *)
Definition sample_ottl : Ottl := {| ottl_run s a :=
  match split dquote s with
  | [p; k; q] => if decide (p = "delete_key(attributes, " ∧ q = ")") then delete k a else a
  | [p; to; q; from; r] =>
      if decide (p = "set(attributes[" ∧ q = "], attributes[" ∧ r = "])") then
        match a !! from with Some v => <[to := v]> a | None => a end
      else a
  | _ => a
  end |}.
Lemma sample_ottl_laws : @OttlLaws sample_ottl.
Proof.
  assert (Hq : forall p k t, has_byte dquote p = false -> has_byte dquote k = false ->
    split dquote (p +:+ in_quotes k +:+ t) = p :: k :: split dquote t).
  { intros p k t Hp Hk. unfold in_quotes. rewrite str_app_cons, split_cons by done. f_equal.
    rewrite str_app_assoc, str_app_cons. by rewrite split_cons. }
  split.
  - intros to from a [Ht _] [Hf _]. cbn [ottl_run sample_ottl]. unfold set_statement. rewrite !Hq by done.
    rewrite split_single by done. by rewrite decide_True.
  - intros k a [Hk _]. cbn [ottl_run sample_ottl]. unfold delete_statement. rewrite Hq, split_single by done. by rewrite decide_True.
Qed.

Definition sample_renames : gmap string string := <["http.url" := "url.full"]> {["user" := "enduser.id"]}.
Definition sample_config : TransformProcessorConfig :=
  match @renameAttributeConfig order_forward sample_renames (Some [TracesObservabilitySignal]) with
  | inr c => c | inl _ => mkTransform "" [] [] [] [] end.
Lemma sample_renames_Some from to :
  sample_renames !! from = Some to -> (from, to) = ("http.url", "url.full") ∨ (from, to) = ("user", "enduser.id").
Proof. unfold sample_renames. intros [(<- & <-)|(_ & [<- <-]%lookup_singleton_Some)]%lookup_insert_Some; auto. Qed.

Lemma rename_attribute_moves_witness :
  let a : Attributes := <["user" := VStr "u1"]> {["http.method" := VStr "GET"]} in
  exists statements, runs_everywhere statements [TracesObservabilitySignal] sample_config
  ∧ (forall from to, sample_renames !! from = Some to ->
       @run_statements sample_ottl statements a !! from = None
       ∧ @run_statements sample_ottl statements a !! to = match a !! from with Some v => Some v | None => a !! to end)
  ∧ (forall k, sample_renames !! k = None -> (forall from, sample_renames !! from <> Some k) ->
       @run_statements sample_ottl statements a !! k = a !! k).
Proof.
  intros a. apply (@rename_attribute_moves sample_ottl sample_ottl_laws order_forward order_forward_laws).
  - intros f t [[= -> ->]|[= -> ->]]%sample_renames_Some; by vm_compute.
  - intros f1 f2 to [[= -> ->]|[= -> ->]]%sample_renames_Some [[= ->]|[= ->]]%sample_renames_Some; done.
  - by vm_compute.
Defined.

(** Renames in a chain depend on the order in which the map is visited: the
    configuration of one action differs from one reconciliation to the next. *)
Example rename_chain_by_order :
  let renames : gmap string string := <["a" := "b"]> {["b" := "c"]} in
  let a : Attributes := {["a" := VStr "1"]} in
  let run o := @run_statements sample_ottl (@rename_statements o renames) a in
  run order_forward <> run order_backward.
Proof. by vm_compute. Qed.

(** A name with a quote is put into the statement as it is. *)
Example delete_statement_breaks :
  delete_statement (String "a" (String dquote "")) = "delete_key(attributes, " +:+ String dquote (String "a" (String dquote (String dquote ")"))).
Proof. done. Qed.

Example set_statement_breaks :
  set_statement "b" (String dquote "") = "set(attributes[" +:+ String dquote "b" +:+ String dquote "], attributes["
                                          +:+ String dquote (String dquote (String dquote "])")).
Proof. done. Qed.

(** ** Extraction rules *)

Definition valid_extraction (e : Extraction) : Prop :=
  ex_TargetAttributeName e <> ""
  ∧ ((ex_LookupKey e <> "" ∧ ex_DataFormat e <> "" ∧ ex_Regex e = "")
     ∨ (ex_Regex e <> "" ∧ ex_LookupKey e = "" ∧ ex_DataFormat e = "")).

Section Extractions.
Context `{GoLibrary}.

Lemma check_extraction_None seen i e :
  check_extraction seen i e = None <-> valid_extraction e ∧ seen !! ex_TargetAttributeName e = None.
Proof.
  unfold check_extraction, valid_extraction. destruct e as [n k f r]. cbn.
  destruct (decide (n = "")); [naive_solver|]. destruct (seen !! n); [naive_solver|].
  repeat case_bool_decide; cbn; naive_solver.
Qed.

Lemma check_extractions_None l seen i :
  check_extractions seen i l = None
  <-> Forall valid_extraction l ∧ NoDup (ex_TargetAttributeName <$> l)
      ∧ forall n, n ∈ ex_TargetAttributeName <$> l -> seen !! n = None.
Proof.
  revert seen i. induction l as [|e l IH]; intros seen i; cbn [check_extractions].
  { split; [|done]. intros _. split_and!; [done|constructor|by intros ? ?%elem_of_nil]. }
  rewrite Forall_cons, fmap_cons, NoDup_cons. setoid_rewrite elem_of_cons.
  destruct (check_extraction seen i e) eqn:E.
  - split; [done|]. intros ([Hv _] & _ & Hs).
    assert (check_extraction seen i e = None) by (apply check_extraction_None; auto). congruence.
  - apply check_extraction_None in E as [Hv Hs]. rewrite IH. split.
    + intros (Hl & Hnd & Hn). split_and!; [done|done| |done|].
      * intros Hin. specialize (Hn _ Hin). by rewrite lookup_insert_eq in Hn.
      * intros n [->|Hin]; [done|]. specialize (Hn _ Hin). apply lookup_insert_None in Hn. tauto.
    + intros ([_ Hl] & [Hx Hnd] & Hn). split_and!; [done|done|]. intros n Hin. apply lookup_insert_None. split; [auto|].
      by intros <-.
Qed.

(** The rules of an extraction are taken over as they are exactly when they
    can be: at least one, each with a name of its own and either a key with a
    format or a regular expression. *)
Theorem extract_attribute_exact (c : ExtractAttributeConfig) (l : list Extraction) :
  extractAttributeConfig (Some c) = inr l
  <-> l = ea_Extractions c ∧ l <> [] ∧ Forall valid_extraction l ∧ NoDup (ex_TargetAttributeName <$> l).
Proof.
  unfold extractAttributeConfig. destruct (ea_Extractions c) as [|e l'] eqn:El; [naive_solver|].
  destruct (check_extractions ∅ 0 (e :: l')) eqn:E.
  - split; [done|]. intros (-> & _ & Hv & Hnd).
    assert (check_extractions ∅ 0 (e :: l') = None) by (apply check_extractions_None; split_and!; [done|done|intros; apply lookup_empty]).
    congruence.
  - apply check_extractions_None in E as (Hv & Hnd & _). naive_solver.
Qed.
End Extractions.

(** ** The unified Kubernetes attributes *)

Definition known_source (s : string) : Prop := s ∈ K8sAttributeSourcePrecedence.
Definition sources_of (a : K8sMetadataAttribute) : list K8sAttributeSource := getEffectiveSources (km_From a) (km_FromSources a).

Lemma known_precedence s s' :
  known_source s -> known_source s' -> sourcePrecedence s = sourcePrecedence s' -> s = s'.
Proof.
  unfold known_source, K8sAttributeSourcePrecedence. rewrite !elem_of_cons, !elem_of_nil.
  intros [->|[->|[->|[]]]] [->|[->|[->|[]]]]; done.
Qed.

(** The rule that a key of the map stands for. *)
Definition rule_key (t : k8sTagAttribute) : string := tag_Key t +:+ ":" +:+ tag_From t.

(** The rule [a] asks for the tag [t]. *)
Definition asks (a : K8sMetadataAttribute) (t : k8sTagAttribute) : Prop :=
  km_Key a = tag_Key t ∧ km_AttributeKey a = tag_Tag t ∧ tag_From t ∈ sources_of a.
(** The rule [a] says what becomes of the key and the source of [t]. *)
Definition concerns (a : K8sMetadataAttribute) (t : k8sTagAttribute) : Prop :=
  km_Key a = tag_Key t ∧ tag_From t ∈ sources_of a.
(** The last rule for the key and the source of [t] asks for it. *)
Definition wins (rules : list K8sMetadataAttribute) (t : k8sTagAttribute) : Prop :=
  exists before a after, rules = before ++ a :: after ∧ asks a t ∧ Forall (fun a' => ~ concerns a' t) after.

Lemma wins_snoc rules a t :
  wins (rules ++ [a]) t <-> asks a t ∨ (~ concerns a t ∧ wins rules t).
Proof.
  split.
  - intros (before & a' & after & E & Ha & Hf). destruct after as [|x after _] using rev_ind.
    + apply app_inj_tail in E as [_ <-]. by left.
    + rewrite app_comm_cons, app_assoc in E. apply app_inj_tail in E as [-> <-]. apply Forall_app in Hf as [Hf [Hx _]%Forall_cons].
      right. split; [done|]. by exists before, a', after.
  - intros [Ha|(Hn & before & a' & after & -> & Ha & Hf)].
    + exists rules, a, []. by split_and!.
    + exists before, a', (after ++ [a]). rewrite <-app_assoc. split_and!; [done..|]. apply Forall_app. split; [done|by constructor].
Qed.

(** A key names its source when the source is a known one. *)
Lemma known_no_colon s : known_source s -> has_byte ":"%char s = false.
Proof. unfold known_source, K8sAttributeSourcePrecedence. rewrite !elem_of_cons, !elem_of_nil. by intros [->|[->|[->|[]]]]. Qed.
Lemma rule_key_inj k s k' s' :
  known_source s -> known_source s' -> k +:+ ":" +:+ s = k' +:+ ":" +:+ s' -> k = k' ∧ s = s'.
Proof.
  intros Hs%known_no_colon Hs'%known_no_colon E. apply (f_equal (split_last ":"%char)) in E.
  change (":" +:+ s) with (String ":"%char s) in E. change (":" +:+ s') with (String ":"%char s') in E.
  rewrite !split_last_app in E by done. by injection E.
Qed.

Lemma add_sources (a : K8sMetadataAttribute) sources m t :
  Forall known_source sources -> known_source (tag_From t) ->
  foldl (add_source a) m sources !! rule_key t = Some t
  <-> (km_Key a = tag_Key t ∧ tag_From t ∈ sources) ∧ km_AttributeKey a = tag_Tag t
      ∨ ~ (km_Key a = tag_Key t ∧ tag_From t ∈ sources) ∧ m !! rule_key t = Some t.
Proof.
  intros Hs Ht. induction sources as [|s sources IH] using rev_ind.
  { cbn [foldl]. rewrite elem_of_nil. tauto. }
  apply Forall_app in Hs as [Hss [Hs _]%Forall_cons]. specialize (IH Hss). rewrite foldl_snoc, elem_of_app, list_elem_of_singleton.
  unfold add_source at 1. destruct (decide (km_Key a = tag_Key t ∧ tag_From t = s)) as [[Ek Es]|Hn].
  - unfold rule_key at 1. rewrite Ek, Es, lookup_insert_eq. destruct t as [tag key from]. cbn in *. subst.
    split; [intros [= ->]; tauto|]. intros [[_ ->]|[[] _]]; tauto.
  - rewrite lookup_insert_ne, IH by (by intros [??]%rule_key_inj; naive_solver). tauto.
Qed.

(** What the processor is told to extract, for the rules [l]. *)
Definition sources_known (l : list K8sMetadataAttribute) : Prop := forall a s, a ∈ l -> s ∈ sources_of a -> known_source s.

Lemma metadata_wins l t :
  sources_known l -> known_source (tag_From t) -> foldl add_metadata ∅ l !! rule_key t = Some t <-> wins l t.
Proof.
  intros Hl Ht. induction l as [|a l IH] using rev_ind.
  { cbn [foldl]. rewrite lookup_empty. split; [done|]. intros (before & a & after & E & _). by destruct before. }
  rewrite foldl_snoc, wins_snoc. unfold add_metadata at 1. fold (sources_of a). rewrite add_sources; [|apply Forall_forall; intros s; apply Hl; set_solver|done].
  rewrite IH by (intros a' s' Ha'; apply Hl; set_solver). unfold asks, concerns. tauto.
Qed.

Lemma foldl_inv {A B} (P : B -> Prop) (f : B -> A -> B) b l :
  P b -> (forall b x, x ∈ l -> P b -> P (f b x)) -> P (foldl f b l).
Proof.
  revert b. induction l as [|x l IH]; intros b Hb Hf; [done|]. apply IH; [apply Hf; [by left|done]|].
  intros b' y Hy. apply Hf. by right.
Qed.

(** Every tag of the map is under its own key. *)
Lemma metadata_keyed l k t :
  sources_known l -> foldl add_metadata ∅ l !! k = Some t -> k = rule_key t ∧ known_source (tag_From t).
Proof.
  intros Hl. revert k t. apply (foldl_inv (fun m : gmap string k8sTagAttribute => forall k t, m !! k = Some t -> k = rule_key t ∧ known_source (tag_From t))).
  { by intros k t ?%lookup_empty_Some. }
  intros m a Ha Hm. unfold add_metadata. fold (sources_of a). apply foldl_inv; [done|].
  intros m' s Hs Hm' k t. unfold add_source. intros [[<- <-]|[_ ?]]%lookup_insert_Some; [|by apply Hm']. split; [done|]. by apply (Hl a).
Qed.

(** The enabled configurations, in the order of the list. *)
Definition enabled_configs (l : list ActionObject) : list (ActionSpec * K8sAttributesConfig) :=
  omap (fun a => match as_Disabled (ao_Spec a), as_K8sAttributes (ao_Spec a) with
                 | false, Some c => Some (ao_Spec a, c)
                 | _, _ => None
                 end) l.
Lemma k8s_configs_enabled l : k8s_configs l = enabled_configs l.
Proof.
  unfold k8s_configs, enabled_configs. induction l as [|a l IH]; [done|]. cbn [omap list_omap]. rewrite IH.
  by destruct (as_Disabled (ao_Spec a)), (as_K8sAttributes (ao_Spec a)).
Qed.

Section Precedence.
Context `{GoSortLaws}.

Lemma sorted_tags `{GoMapOrderLaws} l (i j : nat) x y :
  let tags := sortByPrecedence (foldl add_metadata ∅ l) in
  tags !! i = Some x -> tags !! j = Some y -> i < j -> (sourcePrecedence (tag_From x) <= sourcePrecedence (tag_From y))%Z.
Proof.
  intros tags Hi Hj Hij. assert (Hs : StronglySorted (not_less tag_compare) tags) by apply SortFunc_sorted, _.
  assert (Hxy : not_less tag_compare x y).
  { revert i j Hi Hj Hij. induction Hs as [|z tags' Hs IH Hz]; intros i j Hi Hj Hij; [done|].
    destruct j as [|j]; [lia|]. destruct i as [|i]; [|apply (IH i j Hi Hj); lia].
    injection Hi as ->. rewrite Forall_forall in Hz. apply Hz. by eapply list_elem_of_lookup_2. }
  revert Hxy. unfold not_less, tag_compare, compare_lex, compare_on, compare_then, int_compare.
  repeat case_decide; lia.
Qed.

Lemma tags_elem `{GoMapOrderLaws} l t :
  sources_known l -> t ∈ sortByPrecedence (foldl add_metadata ∅ l) <-> wins l t.
Proof.
  intros Hl. unfold sortByPrecedence. rewrite SortFunc_perm, map_order_perm, list_elem_of_fmap. split.
  - intros ([k t'] & -> & Hk%elem_of_map_to_list). pose proof Hk as [-> Hs]%metadata_keyed; [|done]. by apply metadata_wins.
  - intros Hw. assert (Hs : known_source (tag_From t)).
    { destruct Hw as (before & a & after & -> & (_ & _ & Ha) & _). apply (Hl a); [|done]. apply elem_of_app. right. by left. }
    exists (rule_key t, t). split; [done|]. apply elem_of_map_to_list. by apply metadata_wins.
Qed.

Lemma tags_once `{GoMapOrderLaws} l : sources_known l -> NoDup (sortByPrecedence (foldl add_metadata ∅ l)).
Proof.
  intros Hl. unfold sortByPrecedence. rewrite SortFunc_perm, map_order_perm. apply NoDup_fmap_2_strong; [|apply NoDup_map_to_list].
  intros [k1 t1] [k2 t2] E1%elem_of_map_to_list E2%elem_of_map_to_list. cbn. intros ->.
  apply metadata_keyed in E1 as [-> _]; [|done]. by apply metadata_keyed in E2 as [-> _].
Qed.

Lemma tags_canonical (o1 o2 : GoMapOrder) `{!@GoMapOrderLaws o1, !@GoMapOrderLaws o2} l :
  sources_known l ->
  @sortByPrecedence o1 _ (foldl add_metadata ∅ l) = @sortByPrecedence o2 _ (foldl add_metadata ∅ l).
Proof.
  intros Hk. unfold sortByPrecedence. set (m := foldl add_metadata ∅ l).
  assert (Hm : forall (o : GoMapOrder) `{!@GoMapOrderLaws o} t, t ∈ (@map_order o _ (map_to_list m).*2) -> m !! rule_key t = Some t ∧ known_source (tag_From t)).
  { intros o ? t Ht. rewrite map_order_perm in Ht. apply list_elem_of_fmap in Ht as ([k t'] & -> & Ht). apply elem_of_map_to_list in Ht.
    by pose proof Ht as [-> ?]%metadata_keyed. }
  apply SortFunc_canonical; [apply _| |by rewrite !map_order_perm].
  intros x y [Hx Hkx]%(Hm o1 _) [Hy Hky]%(Hm o1 _) Hxy Hyx.
  assert (Hp : sourcePrecedence (tag_From x) = sourcePrecedence (tag_From y) ∧ string_compare (tag_Key x) (tag_Key y) = 0%Z).
  { revert Hxy Hyx. unfold not_less, tag_compare, compare_lex, compare_on, compare_then, int_compare.
    pose proof (total_opp (cmp:=string_compare) (tag_Key x) (tag_Key y)). pose proof (total_opp (cmp:=string_compare) (tag_Key y) (tag_Key x)).
    repeat case_decide; lia. }
  destruct Hp as [Hp%known_precedence Hc%string_compare_eq]; [|done..].
  unfold rule_key in Hx, Hy. rewrite Hp, Hc in Hx. congruence.
Qed.

(** The label and annotation rules of the enabled actions. *)
Definition label_rules (l : list ActionObject) : list K8sMetadataAttribute := (enabled_configs l).*2 ≫= ka_LabelsAttributes.
Definition annotation_rules (l : list ActionObject) : list K8sMetadataAttribute := (enabled_configs l).*2 ≫= ka_AnnotationsAttributes.

(** The tags are exactly those that the rules ask for, the last rule for a
    key and a source being the one that counts; none is listed twice; and a
    tag whose source takes precedence comes later. *)
Definition extracts (rules : list K8sMetadataAttribute) (tags : list k8sTagAttribute) : Prop :=
  (forall t, t ∈ tags <-> wins rules t) ∧ NoDup tags
  ∧ (forall (i j : nat) x y, tags !! i = Some x -> tags !! j = Some y -> i < j ->
       (sourcePrecedence (tag_From x) <= sourcePrecedence (tag_From y))%Z).
Lemma tags_extract `{GoMapOrderLaws} rules :
  sources_known rules -> extracts rules (sortByPrecedence (foldl add_metadata ∅ rules)).
Proof. intros Hr. split_and!; [intros t; by apply tags_elem|by apply tags_once|intros i j x y; apply sorted_tags]. Qed.

(** Some enabled action has the option [f] on. *)
Definition some_action (f : K8sAttributesConfig -> bool) (l : list ActionObject) : Prop :=
  exists a c, a ∈ l ∧ as_Disabled (ao_Spec a) = false ∧ as_K8sAttributes (ao_Spec a) = Some c ∧ f c = true.
(** The metadata to extract: the pod's name when nothing is asked for, so that
    the collector does not fall back on its expensive defaults. *)
Definition metadata_asked (l : list ActionObject) (attribute : string) : Prop :=
  (some_action ka_CollectContainerAttributes l ∧ attribute ∈ containerAttributes)
  ∨ (some_action ka_CollectClusterUID l ∧ attribute = "k8s.cluster.uid")
  ∨ (~ some_action ka_CollectContainerAttributes l ∧ ~ some_action ka_CollectClusterUID l ∧ attribute = "k8s.pod.name").

Lemma enabled_configs_elem l s c :
  (s, c) ∈ enabled_configs l <-> exists a, a ∈ l ∧ s = ao_Spec a ∧ as_Disabled (ao_Spec a) = false ∧ as_K8sAttributes (ao_Spec a) = Some c.
Proof.
  unfold enabled_configs. rewrite list_elem_of_omap. split.
  - intros (a & Ha & E). exists a. destruct (as_Disabled (ao_Spec a)), (as_K8sAttributes (ao_Spec a)); naive_solver.
  - intros (a & Ha & -> & Ed & Ec). exists a. by rewrite Ed, Ec.
Qed.
Lemma some_action_spec f l : existsb f (enabled_configs l).*2 = true <-> some_action f l.
Proof.
  rewrite existsb_exists. unfold some_action. setoid_rewrite <-list_elem_of_In. split.
  - intros (c & ([s c'] & -> & (a & Ha & _ & Ed & Ec)%enabled_configs_elem)%list_elem_of_fmap & Hf). by exists a, c'.
  - intros (a & c & Ha & Ed & Ec & Hf). exists c. split; [|done]. apply list_elem_of_fmap. exists (ao_Spec a, c).
    split; [done|]. apply enabled_configs_elem. by exists a.
Qed.
Lemma metadata_exact l attribute : attribute ∈ metadata_attributes (enabled_configs l).*2 <-> metadata_asked l attribute.
Proof.
  unfold metadata_asked. rewrite <-!some_action_spec. unfold metadata_attributes.
  destruct (existsb ka_CollectContainerAttributes _), (existsb ka_CollectClusterUID _).
  - change (attribute ∈ containerAttributes ++ ["k8s.cluster.uid"] <-> (true = true ∧ attribute ∈ containerAttributes)
      ∨ (true = true ∧ attribute = "k8s.cluster.uid") ∨ (~ true = true ∧ ~ true = true ∧ attribute = "k8s.pod.name")).
    rewrite elem_of_app, list_elem_of_singleton. intuition.
  - change (attribute ∈ containerAttributes <-> (true = true ∧ attribute ∈ containerAttributes)
      ∨ (false = true ∧ attribute = "k8s.cluster.uid") ∨ (~ true = true ∧ ~ false = true ∧ attribute = "k8s.pod.name")).
    intuition discriminate.
  - cbn [app]. rewrite list_elem_of_singleton. intuition discriminate.
  - cbn [app]. rewrite list_elem_of_singleton. intuition discriminate.
Qed.

(** The signals that some enabled action asks for. *)
Definition signal_asked (l : list ActionObject) (sig : string) : Prop :=
  exists a c sigs, a ∈ l ∧ as_Disabled (ao_Spec a) = false ∧ as_K8sAttributes (ao_Spec a) = Some c
    ∧ as_Signals (ao_Spec a) = Some sigs ∧ sig ∈ sigs.

(** The processor, with other signals. *)
Definition with_signals (signals : option (list string)) (p : ProcessorObject) : ProcessorObject :=
  let s := po_Spec p in
  mkProcessorObject (po_Name p) (po_Namespace p) (po_OwnerReferences p)
    (mkProcessorSpec (ps_Type s) (ps_ProcessorName s) (ps_Notes s) (ps_Disabled s) signals (ps_CollectorRoles s) (ps_OrderHint s)
       (ps_ProcessorConfig s)) (po_Conditions p).

Lemma listed_signals `{GoMapOrderLaws} (sigs : gset string) :
  default [] (match map_order (elements sigs) with [] => None | l => Some l end) ≡ₚ elements sigs.
Proof. pose proof (map_order_perm (elements sigs)) as Hp. by destruct (map_order (elements sigs)). Qed.

(** C20: the processor that the K8sAttributes actions share does not depend on
    the order in which maps are visited, the order in which it lists its
    signals apart: that is the map's.  Its signals are those that some enabled
    action asks for, none twice.  It extracts the labels and the annotations
    that the enabled actions ask for, from every source they name - when two
    rules put the same key of the same source into different attributes, only
    the later one counts - and lets the source with the higher precedence come
    later, so that its value is the one that stays; and exactly the metadata
    that is asked for.  The sources are the three that there are. *)
Theorem k8s_attributes_unified (o1 o2 : GoMapOrder) `{!@GoMapOrderLaws o1, !@GoMapOrderLaws o2} (action : ActionObject)
    (l : list ActionObject) :
  sources_known (label_rules l) -> sources_known (annotation_rules l) ->
  let p1 := @k8s_processor o1 _ action l in let p2 := @k8s_processor o2 _ action l in
  p2 = with_signals (ps_Signals (po_Spec p2)) p1
  ∧ default [] (ps_Signals (po_Spec p1)) ≡ₚ default [] (ps_Signals (po_Spec p2))
  ∧ NoDup (default [] (ps_Signals (po_Spec p1)))
  ∧ (forall sig, sig ∈ default [] (ps_Signals (po_Spec p1)) <-> signal_asked l sig)
  ∧ exists config, ps_ProcessorConfig (po_Spec p1) = PCK8sAttributes config
      ∧ extracts (label_rules l) (kc_LabelAttributes config)
      ∧ extracts (annotation_rules l) (kc_AnnotationAttributes config)
      ∧ forall attribute, attribute ∈ kc_MetadataAttributes config <-> metadata_asked l attribute.
Proof.
  intros Hl Ha. cbv zeta. unfold k8s_processor, k8sAttributeConfig. rewrite k8s_configs_enabled. cbn [po_Spec ps_Signals ps_ProcessorConfig].
  split_and!.
  - unfold with_signals. cbn. fold (label_rules l) (annotation_rules l). by rewrite !(tags_canonical o1 o2).
  - by rewrite !listed_signals.
  - rewrite listed_signals. apply NoDup_elements.
  - intros sig. rewrite listed_signals, elem_of_elements, elem_of_list_to_set, list_elem_of_bind. unfold signal_asked. split.
    + intros (s & Hsig & ([s' c] & -> & (a & Hin & -> & Ed & Ec)%enabled_configs_elem)%list_elem_of_fmap). cbn in Hsig.
      destruct (as_Signals (ao_Spec a)) as [sigs|] eqn:Es; [|by apply elem_of_nil in Hsig]. by exists a, c, sigs.
    + intros (a & c & sigs & Hin & Ed & Ec & Es & Hsig). exists (ao_Spec a). rewrite Es. split; [done|].
      apply list_elem_of_fmap. exists (ao_Spec a, c). split; [done|]. apply enabled_configs_elem. by exists a.
  - eexists. split; [done|]. split_and!; [by apply tags_extract|by apply tags_extract|]. intros attribute. apply metadata_exact.
Qed.
End Precedence.

Definition no_kind : ActionSpec := mkActionSpec "" "" false (Some [TracesObservabilitySignal]) None None None None None None None None None None.
Definition k8s_action (name : string) (c : K8sAttributesConfig) : ActionObject :=
  mkActionObject "odigos.io/v1alpha1" "Action" name "odigos-system" name 1
    (mkActionSpec "" "" false (Some [TracesObservabilitySignal]) None None None None (Some c) None None None None None) [].
Definition sample_k8s_actions : list ActionObject :=
  [k8s_action "a" (mkK8sAttributes true false [mkK8sMetadata "app" "app.name" None ["pod"; "namespace"]] []);
   k8s_action "b" (mkK8sAttributes false false [mkK8sMetadata "team" "team.name" None []] [])].

Lemma k8s_attributes_unified_witness :
  let action := k8s_action "b" (mkK8sAttributes false false [] []) in
  let p1 := @k8s_processor order_forward _ action sample_k8s_actions in
  let p2 := @k8s_processor order_backward _ action sample_k8s_actions in
  p2 = with_signals (ps_Signals (po_Spec p2)) p1
  ∧ default [] (ps_Signals (po_Spec p1)) ≡ₚ default [] (ps_Signals (po_Spec p2))
  ∧ NoDup (default [] (ps_Signals (po_Spec p1)))
  ∧ (forall sig, sig ∈ default [] (ps_Signals (po_Spec p1)) <-> signal_asked sample_k8s_actions sig)
  ∧ exists config, ps_ProcessorConfig (po_Spec p1) = PCK8sAttributes config
      ∧ extracts (label_rules sample_k8s_actions) (kc_LabelAttributes config)
      ∧ extracts (annotation_rules sample_k8s_actions) (kc_AnnotationAttributes config)
      ∧ forall attribute, attribute ∈ kc_MetadataAttributes config <-> metadata_asked sample_k8s_actions attribute.
Proof.
  apply (@k8s_attributes_unified _ _ order_forward order_backward order_forward_laws order_backward_laws).
  - intros a s. cbn. rewrite !elem_of_cons, elem_of_nil.
    intros [->|[->|[]]]; cbn; rewrite ?elem_of_cons, elem_of_nil; unfold known_source, K8sAttributeSourcePrecedence;
      rewrite !elem_of_cons; tauto.
  - by intros a s ?%elem_of_nil.
Defined.

(** Two actions that put one label into different attributes: only the
    attribute of the action that is listed last is extracted. *)
Example label_attribute_lost :
  let l := [k8s_action "a" (mkK8sAttributes false false [mkK8sMetadata "app" "app.name" None []] []);
            k8s_action "b" (mkK8sAttributes false false [mkK8sMetadata "app" "service.name" None []] [])] in
  kc_LabelAttributes (@k8sAttributeConfig order_forward _ l).1.1 = [mkTag "service.name" "app" "pod"].
Proof. by vm_compute. Qed.

(** The shared processor is owned by every action of the namespace, whatever
    its kind: it outlives the last K8sAttributes action. *)
Example unrelated_owner :
  let other := mkActionObject "odigos.io/v1alpha1" "Action" "pii" "odigos-system" "pii" 1 no_kind [] in
  owner_of other ∈ (@k8sAttributeConfig order_forward _ (other :: sample_k8s_actions)).2.
Proof. left. Qed.

(** ** What the webhook admits *)

(** How the controllers handle an action. *)
Inductive Handling := ByTemplatization | ByExtension | ByProcessor | Unsupported.
Definition handling (a : ActionObject) : Handling :=
  let s := ao_Spec a in
  match as_URLTemplatization s with
  | Some _ => ByTemplatization
  | None =>
      if IsConfigExtension a then ByExtension
      else match as_AddClusterInfo s, as_DeleteAttribute s, as_RenameAttribute s, as_ExtractAttribute s, as_K8sAttributes s with
           | None, None, None, None, None => Unsupported
           | _, _, _, _, _ => ByProcessor
           end
  end.

(** An admitted action has exactly one kind, and the only kind that the
    controllers do not handle is the span renamer. *)
Theorem admitted_action `{GoMapOrderLaws} (ns : string) (a : ActionObject) :
  validateAction ns a = [] ->
  ao_Namespace a = ns
  ∧ exists kind, set_kinds (ao_Spec a) = [kind]
    ∧ (handling a = Unsupported <-> kind = "spanRenamer")
    ∧ (handling a = ByTemplatization <-> kind = "urlTemplatization")
    ∧ (handling a = ByExtension <-> kind ∈ ["piiMasking"; "dbQueryTemplatization"; "inferDbAttributes"]).
Proof.
  unfold validateAction. case_decide as Hns; [done|]. intros Hv. split; [done|].
  destruct (set_kinds (ao_Spec a)) as [|kind [|k2 kinds]] eqn:Ek; [done| |].
  - exists kind. split; [done|]. remember (handling a) as h eqn:Eh.
    destruct a as [? ? ? ? ? ? [? ? ? ? k1 k2 k3 k4 k5 k6 k7 k8 k9 k10] ?]. unfold set_kinds in Ek. cbn in Ek.
    destruct k1, k2; try discriminate Ek; destruct k3; try discriminate Ek; destruct k4; try discriminate Ek;
      destruct k5; try discriminate Ek; destruct k6; try discriminate Ek; destruct k7; try discriminate Ek;
      destruct k8; try discriminate Ek; destruct k9; try discriminate Ek; destruct k10; try discriminate Ek;
      cbn in Ek; injection Ek as <-; vm_compute in Eh; subst h; rewrite !elem_of_cons, elem_of_nil; split_and!; split;
      intuition discriminate.
  - apply (f_equal (fmap (M:=list) fst)) in Hv. assert (Hl : length (map_order (kind :: k2 :: kinds)) = 0).
    { apply (f_equal length) in Hv. by rewrite !length_fmap in Hv. }
    by rewrite map_order_perm in Hl.
Qed.

Lemma span_renamer_unsupported `{GoMapOrder} `{GoSort} `{GoLibrary} listed (a : ActionObject) :
  handling a = Unsupported -> convertActionToProcessor listed a = inl (ENew "no supported action found in resource").
Proof.
  unfold handling, convertActionToProcessor. cbv zeta. repeat case_match; done.
Qed.
