(* ===== verification/ActionsReconcile.v ===== *)
(** * The controllers of actions (src/autoscaler/controllers/actions)

    The reconcilers of [Action], of the shared URL templatization processor
    and of the node collectors group, the migration of the deprecated kinds,
    and the condition of a processor (controllers/common).

    The API server is a [World] with the objects that these controllers read
    and write.  Each call may fail, as the next of [w_faults] says, before or
    after it had its effect; the theorems hold for every sequence of faults.
    The merge of a server-side apply is the class [ServerSideApply], and the
    helpers for conditions that carry a generation are [ObservedConditions]. *)

From stdpp Require Import pretty.
From S2P Require Import Prelude.
From S2P Require Import GoStrings.
From S2P Require Import GoSort.
From S2P Require Import K8s.
From S2P Require Import Status.
From S2P Require Import Api.
From S2P Require Import GoLib.
From S2P Require Import GoState.
From S2P Require Import CollectorConfig.
From S2P Require Import GatewayTelemetry.
From S2P Require Import Actions.

(** ** Conditions *)

(** [meta.SetStatusCondition], [FindStatusCondition] and
    [RemoveStatusCondition] on conditions with the observed generation. *)
Class ObservedConditions := {
  SetObserved : list ObservedCondition -> ObservedCondition -> list ObservedCondition * bool;
  FindObserved : list ObservedCondition -> string -> option ObservedCondition;
  RemoveObserved : list ObservedCondition -> string -> list ObservedCondition * bool
}.
Definition observed_type (c : ObservedCondition) : string := cond_type (oc_Condition c).
Class ObservedConditionsLaws `{ObservedConditions} : Prop := {
  find_set_observed l c t :
    FindObserved (SetObserved l c).1 t = if decide (t = observed_type c) then Some c else FindObserved l t;
  set_observed_unchanged l c : (SetObserved l c).2 = false -> FindObserved l (observed_type c) = Some c;
  set_observed_unchanged_eq l c : (SetObserved l c).2 = false -> (SetObserved l c).1 = l;
  find_remove_observed l t t' :
    FindObserved (RemoveObserved l t).1 t' = if decide (t' = t) then None else FindObserved l t';
  remove_observed_unchanged l t : (RemoveObserved l t).2 = false -> FindObserved l t = None
}.

Module SampleConditions.
Definition find (l : list ObservedCondition) (t : string) : option ObservedCondition :=
  first_match (fun c => bool_decide (observed_type c = t)) l.
Definition without (l : list ObservedCondition) (t : string) : list ObservedCondition :=
  filter (fun c => observed_type c <> t) l.
Definition set (l : list ObservedCondition) (c : ObservedCondition) : list ObservedCondition * bool :=
  (c :: without l (observed_type c), true).
Definition remove (l : list ObservedCondition) (t : string) : list ObservedCondition * bool :=
  (without l t, bool_decide (is_Some (find l t))).
Lemma find_without l t t' : find (without l t) t' = if decide (t' = t) then None else find l t'.
Proof.
  induction l as [|c l IH]; [by case_decide|]. unfold find, without in *. rewrite filter_cons.
  destruct (decide (observed_type c <> t)) as [Hc|Hc%dec_stable]; cbn [first_match]; rewrite IH;
    repeat case_bool_decide; repeat case_decide; congruence.
Qed.
End SampleConditions.
#[export] Instance sample_observed : ObservedConditions | 10 := {|
  SetObserved := SampleConditions.set;
  FindObserved := SampleConditions.find;
  RemoveObserved := SampleConditions.remove |}.
#[export] Instance sample_observed_laws : @ObservedConditionsLaws sample_observed | 10.
Proof.
  split; cbn.
  - intros l c t. unfold SampleConditions.find at 1. cbn [first_match]. case_bool_decide as E; [by rewrite decide_True|].
    rewrite decide_False by done. change (SampleConditions.find (SampleConditions.without l (observed_type c)) t = SampleConditions.find l t).
    rewrite SampleConditions.find_without. by case_decide.
  - done.
  - done.
  - intros l t t'. apply SampleConditions.find_without.
  - intros l t. case_bool_decide as E; [done|]. intros _. by apply eq_None_not_Some.
Qed.

(** ** Reasons (status/action/generated, status/processor/generated) *)

Definition TransformedToProcessorType : string := "TransformedToProcessor".
Definition AddedToCollectorConfigType : string := "AddedToCollectorConfig".
(** The message of a failure is the error's text. *)
Definition TransformedToProcessorProcessorCreated :=
  mkReason "ProcessorCreated" "Action accepted; next it will be added to the collector pipeline." ConditionTrue.
Definition TransformedToProcessorActionDisabled :=
  mkReason "ActionDisabled" "Action is disabled and will not be included in the collector pipeline." ConditionFalse.
Definition TransformedToProcessorFailedToCreateProcessor (err : string) :=
  mkReason "FailedToCreateProcessor" err ConditionFalse.
Definition TransformedToProcessorFailedToTransformToProcessor (err : string) :=
  mkReason "FailedToTransformToProcessor" err ConditionFalse.

(** The reasons of the actions' AddedToCollectorConfig. *)
Definition AddedToCollectorConfigByReason : list Reason :=
  [mkReason "WaitingForReconcile" "Waiting for the latest configuration to be applied" ConditionUnknown;
   mkReason "ConfigUpdated_ClusterGateway" "Action was added to the cluster collector configuration." ConditionTrue;
   mkReason "ConfigUpdated_NodeCollector" "Action was added to the node collector configuration." ConditionTrue;
   mkReason "ConfigRemovedDisabled_ClusterGateway"
     "Action is disabled; removed from the cluster collector configuration." ConditionFalse;
   mkReason "ConfigRemovedDisabled_NodeCollector"
     "Action is disabled; removed from the node collector configuration." ConditionFalse].
Definition AddedToCollectorConfigReasonByName (name : string) : option Reason :=
  first_match (fun r => bool_decide (r_name r = name)) AddedToCollectorConfigByReason.

(** Those of a processor, whose messages differ: added, removed. *)
Definition addedToCollectorConfigReasonsForRole `{GoLibrary} (role : string) : error + Reason * Reason :=
  if decide (role = CollectorsGroupRoleClusterGateway) then
    inr (mkReason "ConfigUpdated_ClusterGateway" "Processor was added to the cluster gateway collector ConfigMap." ConditionTrue,
         mkReason "ConfigRemovedDisabled_ClusterGateway"
           "Processor is disabled; removed from the cluster gateway collector ConfigMap." ConditionFalse)
  else if decide (role = CollectorsGroupRoleNodeCollector) then
    inr (mkReason "ConfigUpdated_NodeCollector" "Processor was added to the node collector ConfigMap." ConditionTrue,
         mkReason "ConfigRemovedDisabled_NodeCollector"
           "Processor is disabled; removed from the node collector ConfigMap." ConditionFalse)
  else inl (ENew ("unsupported collector role " +:+ strconv_Quote role +:+ " for AddedToCollectorConfig")).

Definition observed (t : string) (r : Reason) (generation : Z) : ObservedCondition :=
  mkObserved (mkCondition t (r_status r) (r_name r) (r_message r)) generation.

(** ** The API server *)

(** Server-side apply of a processor by a field manager.  The fields that the
    applied object leaves out (the optional ones at their zero value) keep a
    value that another manager owns. *)
Class ServerSideApply := { apply_processor : option ProcessorObject -> string -> ProcessorObject -> ProcessorObject }.
Definition kept {A} (zero applied result : A) (old : option A) : Prop :=
  (applied <> zero -> result = applied) ∧ (applied = zero -> result = zero ∨ old = Some result).
Class ServerSideApplyLaws `{ServerSideApply} : Prop := {
  apply_key old m p : po_Name (apply_processor old m p) = po_Name p ∧ po_Namespace (apply_processor old m p) = po_Namespace p;
  apply_required old m p :
    let s := po_Spec (apply_processor old m p) in
    ps_Type s = ps_Type (po_Spec p) ∧ (is_Some (ps_Signals (po_Spec p)) -> ps_Signals s = ps_Signals (po_Spec p))
    ∧ ps_CollectorRoles s = ps_CollectorRoles (po_Spec p) ∧ ps_ProcessorConfig s = ps_ProcessorConfig (po_Spec p);
  apply_optional old m p :
    let s := po_Spec (apply_processor old m p) in let o := po_Spec <$> old in
    kept "" (ps_ProcessorName (po_Spec p)) (ps_ProcessorName s) (ps_ProcessorName <$> o)
    ∧ kept "" (ps_Notes (po_Spec p)) (ps_Notes s) (ps_Notes <$> o)
    ∧ kept false (ps_Disabled (po_Spec p)) (ps_Disabled s) (ps_Disabled <$> o)
    ∧ kept 0%Z (ps_OrderHint (po_Spec p)) (ps_OrderHint s) (ps_OrderHint <$> o);
  apply_owners old m p o : o ∈ po_OwnerReferences p -> o ∈ po_OwnerReferences (apply_processor old m p);
  apply_status old m p : po_Conditions (apply_processor old m p) = from_option po_Conditions [] old
}.

(** A deprecated custom resource, of the kind that its configuration has;
    [lo_Owners] are the actions that it was migrated to. *)
Inductive LegacyConfig :=
| LegacyAddClusterInfo (c : AddClusterInfoConfig)
| LegacyDeleteAttribute (c : DeleteAttributeConfig)
| LegacyRenameAttribute (c : RenameAttributeConfig)
| LegacyK8sAttributes (c : K8sAttributesConfig).
Record LegacyAction := mkLegacyAction
  { lo_Name : string;
    lo_Namespace : string;
    lo_ActionName : string;
    lo_Notes : string;
    lo_Disabled : bool;
    lo_Signals : option (list string);
    lo_Config : LegacyConfig;
    lo_Owners : list OwnerRef }.
Definition legacy_kind (c : LegacyConfig) : string :=
  match c with
  | LegacyAddClusterInfo _ => "AddClusterInfo" | LegacyDeleteAttribute _ => "DeleteAttribute"
  | LegacyRenameAttribute _ => "RenameAttribute" | LegacyK8sAttributes _ => "K8sAttributesResolver"
  end.

(** Objects by namespace and name, legacy ones by kind too; the node
    collectors group, if there is one, with whether it has span metrics. *)
Record Objects := mkObjects
  { w_actions : gmap (string * string) ActionObject;
    w_processors : gmap (string * string) ProcessorObject;
    w_legacy : gmap (string * string * string) LegacyAction;
    w_span_metrics : option bool }.
(** A failed call: its error, and whether it had its effect. *)
Record Fault := mkFault { f_error : error; f_made : bool }.
Record World := mkWorld { w_objects : Objects; w_faults : list (option Fault) }.

Definition set_actions (f : gmap (string * string) ActionObject -> gmap (string * string) ActionObject) (o : Objects) : Objects :=
  mkObjects (f (w_actions o)) (w_processors o) (w_legacy o) (w_span_metrics o).
Definition set_processors (f : gmap (string * string) ProcessorObject -> gmap (string * string) ProcessorObject)
    (o : Objects) : Objects :=
  mkObjects (w_actions o) (f (w_processors o)) (w_legacy o) (w_span_metrics o).
Definition set_legacy (f : gmap (string * string * string) LegacyAction -> gmap (string * string * string) LegacyAction)
    (o : Objects) : Objects :=
  mkObjects (w_actions o) (w_processors o) (f (w_legacy o)) (w_span_metrics o).

Definition missing : error := EStatus ReasonNotFound "not found".
Definition found {A} (x : option A) : error + A := match x with Some a => inr a | None => inl missing end.

Definition call {A} (f : Objects -> (error + A) * Objects) : gost World (error + A) := fun w =>
  match w_faults w with
  | Some fault :: faults =>
      Done (inl (f_error fault), mkWorld (if f_made fault then (f (w_objects w)).2 else w_objects w) faults)
  | None :: faults => Done ((f (w_objects w)).1, mkWorld (f (w_objects w)).2 faults)
  | [] => Done ((f (w_objects w)).1, mkWorld (f (w_objects w)).2 [])
  end.
Definition query {A} (f : Objects -> error + A) : gost World (error + A) := call (fun o => (f o, o)).

Definition get_action (ns n : string) : gost World (error + ActionObject) := query (fun o => found (w_actions o !! (ns, n))).
Definition list_actions (ns : string) : gost World (error + list ActionObject) :=
  query (fun o => inr (filter (fun a => ao_Namespace a = ns) (map_to_list (w_actions o)).*2)).
Definition get_processor (ns n : string) : gost World (error + ProcessorObject) :=
  query (fun o => found (w_processors o !! (ns, n))).
Definition get_node_group : gost World (error + bool) := query (fun o => found (w_span_metrics o)).
Definition get_legacy (kind ns n : string) : gost World (error + LegacyAction) :=
  query (fun o => found (w_legacy o !! (kind, ns, n))).

Definition delete_processor (ns n : string) : gost World (error + unit) := call (fun o =>
  match w_processors o !! (ns, n) with
  | Some _ => (inr tt, set_processors (delete (ns, n)) o)
  | None => (inl missing, o)
  end).
Definition patch_processor `{ServerSideApply} (manager : string) (p : ProcessorObject) : gost World (error + unit) := call (fun o =>
  let key := (po_Namespace p, po_Name p) in
  (inr tt, set_processors (insert key (apply_processor (w_processors o !! key) manager p)) o)).

Definition with_conditions (a : ActionObject) (l : list ObservedCondition) : ActionObject :=
  mkActionObject (ao_APIVersion a) (ao_Kind a) (ao_Name a) (ao_Namespace a) (ao_UID a) (ao_Generation a) (ao_Spec a) l.
Definition with_processor_conditions (p : ProcessorObject) (l : list ObservedCondition) : ProcessorObject :=
  mkProcessorObject (po_Name p) (po_Namespace p) (po_OwnerReferences p) (po_Spec p) l.
(** The status is a subresource: the rest of the object stays. *)
Definition update_action_status (a : ActionObject) : gost World (error + ActionObject) := call (fun o =>
  let key := (ao_Namespace a, ao_Name a) in
  match w_actions o !! key with
  | Some old => let new := with_conditions old (ao_Conditions a) in (inr new, set_actions (insert key new) o)
  | None => (inl missing, o)
  end).
Definition update_processor_status (p : ProcessorObject) : gost World (error + ProcessorObject) := call (fun o =>
  let key := (po_Namespace p, po_Name p) in
  match w_processors o !! key with
  | Some old => let new := with_processor_conditions old (po_Conditions p) in (inr new, set_processors (insert key new) o)
  | None => (inl missing, o)
  end).
(** A new object gets an identity from the server, and its status is empty. *)
Definition create_action (uid : string) (a : ActionObject) : gost World (error + ActionObject) := call (fun o =>
  let key := (ao_Namespace a, ao_Name a) in
  match w_actions o !! key with
  | Some _ => (inl (EStatus ReasonAlreadyExists "already exists"), o)
  | None =>
      let new := mkActionObject (ao_APIVersion a) (ao_Kind a) (ao_Name a) (ao_Namespace a) uid 1 (ao_Spec a) [] in
      (inr new, set_actions (insert key new) o)
  end).
Definition update_legacy (a : LegacyAction) : gost World (error + unit) := call (fun o =>
  let key := (legacy_kind (lo_Config a), lo_Namespace a, lo_Name a) in
  match w_legacy o !! key with
  | Some _ => (inr tt, set_legacy (insert key a) o)
  | None => (inl missing, o)
  end).

Definition err_of {A} (r : error + A) : option error := match r with inl e => Some e | inr _ => None end.
(** [K8SUpdateErrorHandler] of an error that may be nil. *)
Definition handled (e : option error) : Result * option error :=
  match e with Some e => K8SUpdateErrorHandler e | None => (no_result, None) end.

(** ** The shared processor (url_templatization_sync.go) *)

Inductive URLTemplatizationSyncMode := URLTemplatizationSyncCreateIfMissing | URLTemplatizationSyncApplyFull.

Section Controllers.
Context `{ObservedConditions} `{ServerSideApply} `{GoMapOrder} `{GoSort} `{GoLibrary} (ns : string).

Definition hasAnyUrlTemplatizationAction : gost World (error + bool) :=
  listed ← list_actions ns;
  mret (match listed with inl e => inl e | inr l => inr (existsb wants_templatization l) end).

Definition apply_templatization : gost World (option error) :=
  nodeCG ← get_node_group;
  match nodeCG with
  | inl err =>
      if IsNotFound err then
        r ← patch_processor "action-controller" (buildUrlTemplatizationProcessor ns false); mret (err_of r)
      else mret (Some (EWrap "get node CollectorsGroup" err))
  | inr spanMetricsEnabled =>
      r ← patch_processor "action-controller" (buildUrlTemplatizationProcessor ns spanMetricsEnabled); mret (err_of r)
  end.

Definition SyncUrlTemplatizationProcessor (mode : URLTemplatizationSyncMode) : gost World (option error) :=
  need ← hasAnyUrlTemplatizationAction;
  match need with
  | inl err => mret (Some err)
  | inr false =>
      r ← delete_processor ns URLTemplatizationProcessorName;
      mret (match r with inl err => IgnoreNotFound err | inr _ => None end)
  | inr true =>
      match mode with
      | URLTemplatizationSyncCreateIfMissing =>
          existing ← get_processor ns URLTemplatizationProcessorName;
          match existing with inr _ => mret None | inl _ => apply_templatization end
      | URLTemplatizationSyncApplyFull => apply_templatization
      end
  end.

(** The reconcilers of the shared processor and of the node collectors group. *)
Definition shared_Reconcile : gost World (Result * option error) :=
  err ← SyncUrlTemplatizationProcessor URLTemplatizationSyncApplyFull; mret (no_result, err).

(** An update event of the group is only looked at when this holds. *)
Definition span_metrics_toggled (oldOn newOn : bool) : bool := negb (eqb oldOn newOn).

(** ** The reconciler of actions (action_controller.go) *)

(** Sets a condition, and writes the status when that changed it; the action
    in memory gets the reply. *)
Definition set_condition (action : ActionObject) (t : string) (reason : Reason) : gost World (option error * ActionObject) :=
  let '(l, changed) := SetObserved (ao_Conditions action) (observed t reason (ao_Generation action)) in
  if changed then
    r ← update_action_status (with_conditions action l);
    mret (match r with inl err => (Some err, with_conditions action l) | inr a => (None, a) end)
  else mret (None, with_conditions action l).
Definition clear_condition (action : ActionObject) (t : string) : gost World (option error) :=
  match FindObserved (ao_Conditions action) t with
  | None => mret None
  | Some _ =>
      let '(l, changed) := RemoveObserved (ao_Conditions action) t in
      if changed then r ← update_action_status (with_conditions action l); mret (err_of r) else mret None
  end.

Definition reportReconciledToProcessorFailed (action : ActionObject) (reason : Reason) : gost World (option error) :=
  r ← set_condition action TransformedToProcessorType reason; mret r.1.
Definition reconciled_reason (action : ActionObject) : Reason :=
  if as_Disabled (ao_Spec action) then TransformedToProcessorActionDisabled else TransformedToProcessorProcessorCreated.
Definition reportReconciledToProcessor (action : ActionObject) : gost World (option error * ActionObject) :=
  set_condition action TransformedToProcessorType (reconciled_reason action).
Definition clearTransformedToProcessor (action : ActionObject) : gost World (option error) :=
  clear_condition action TransformedToProcessorType.
Definition clearAddedToCollectorConfig (action : ActionObject) : gost World (option error) :=
  clear_condition action AddedToCollectorConfigType.

(** The condition of the processor, with its own message unless it is empty;
    none if the reason is not one of an action's. *)
Definition mirrored (p : ProcessorObject) : option Reason :=
  c ← FindObserved (po_Conditions p) AddedToCollectorConfigType;
  r ← AddedToCollectorConfigReasonByName (cond_reason (oc_Condition c));
  let message := cond_message (oc_Condition c) in
  Some (mkReason (r_name r) (if decide (message = "") then r_message r else message) (r_status r)).
Definition syncAddedToCollectorConfigFromOwnedProcessor (action : ActionObject) : gost World (option error) :=
  processor ← get_processor (ao_Namespace action) (ao_Name action);
  match processor with
  | inl err => if IsNotFound err then clearAddedToCollectorConfig action else mret (Some err)
  | inr p =>
      match mirrored p with
      | None => clearAddedToCollectorConfig action
      | Some reason => r ← set_condition action AddedToCollectorConfigType reason; mret r.1
      end
  end.

(** Only the conversion of a K8sAttributes action lists the actions. *)
Definition needs_list (s : ActionSpec) : bool :=
  match as_AddClusterInfo s, as_DeleteAttribute s, as_RenameAttribute s, as_ExtractAttribute s, as_K8sAttributes s with
  | None, None, None, None, Some _ => true
  | _, _, _, _, _ => false
  end.
Definition convert (action : ActionObject) : gost World (error + ProcessorObject) :=
  if needs_list (ao_Spec action) then
    listed ← list_actions (ao_Namespace action); mret (convertActionToProcessor listed action)
  else mret (convertActionToProcessor (inr []) action).

(** The tail of [Reconcile], for an action that becomes a processor. *)
Definition reconcile_processor (action : ActionObject) : gost World (Result * option error) :=
  converted ← convert action;
  match converted with
  | inl err =>
      statusErr ← reportReconciledToProcessorFailed action (TransformedToProcessorFailedToTransformToProcessor (Error err));
      mret (handled statusErr)
  | inr processor =>
      patched ← patch_processor (ao_Name action) processor;
      match patched with
      | inl err =>
          _ ← reportReconciledToProcessorFailed action (TransformedToProcessorFailedToCreateProcessor (Error err));
          mret (handled (Some err))
      | inr _ =>
          r ← reportReconciledToProcessor action;
          match r.1 with
          | Some err => mret (handled (Some err))
          | None =>
              if decide (po_Name processor <> ao_Name action) then mret (no_result, None)
              else err ← syncAddedToCollectorConfigFromOwnedProcessor r.2; mret (handled err)
          end
      end
  end.

Definition Reconcile (namespace name : string) : gost World (Result * option error) :=
  r ← get_action namespace name;
  match r with
  | inl err =>
      if IsNotFound err then syncErr ← SyncUrlTemplatizationProcessor URLTemplatizationSyncApplyFull; mret (no_result, syncErr)
      else mret (no_result, Some err)
  | inr action =>
      syncErr ← SyncUrlTemplatizationProcessor URLTemplatizationSyncCreateIfMissing;
      match syncErr with
      | Some err => mret (no_result, Some err)
      | None =>
          match as_URLTemplatization (ao_Spec action) with
          | Some _ => r ← reportReconciledToProcessor action; mret (handled r.1)
          | None =>
              if IsConfigExtension action then err ← clearTransformedToProcessor action; mret (handled err)
              else reconcile_processor action
          end
      end
  end.

(** ** The condition of a processor (controllers/common/processor_addedtocollectorconfig.go) *)

(** A processor has no generation that its status follows: the condition gets
    [generation], that of the object. *)
Definition set_processor_condition (generation : Z) (p : ProcessorObject) (reason : Reason) : gost World (option error) :=
  let '(l, changed) := SetObserved (po_Conditions p) (observed AddedToCollectorConfigType reason generation) in
  if changed then r ← update_processor_status (with_processor_conditions p l); mret (err_of r) else mret None.

Definition SyncProcessorAddedToCollectorConfig (generation : Z) (name role : string) : gost World (option error) :=
  match addedToCollectorConfigReasonsForRole role with
  | inl err => mret (Some err)
  | inr (updatedReason, removedReason) =>
      processor ← get_processor ns name;
      match processor with
      | inl err => mret (Some err)
      | inr p =>
          if decide (role ∈ ps_CollectorRoles (po_Spec p)) then
            set_processor_condition generation p (if ps_Disabled (po_Spec p) then removedReason else updatedReason)
          else
            match FindObserved (po_Conditions p) AddedToCollectorConfigType with
            | None => mret None
            | Some cond =>
                let reason := cond_reason (oc_Condition cond) in
                if decide (reason <> r_name updatedReason ∧ reason <> r_name removedReason) then mret None
                else
                  let '(l, changed) := RemoveObserved (po_Conditions p) AddedToCollectorConfigType in
                  if changed then r ← update_processor_status (with_processor_conditions p l); mret (err_of r) else mret None
            end
      end
  end.

(** ** Migration of the deprecated kinds *)

Definition ActionMigratedLegacyPrefix : string := "migrated-legacy-".

Definition createMigratedAction (action : LegacyAction) (migratedActionName : string) : ActionObject :=
  let spec aci del ren k8s :=
    mkActionSpec (lo_ActionName action) (lo_Notes action) (lo_Disabled action) (lo_Signals action)
      aci del ren None k8s None None None None None in
  mkActionObject "odigos.io/v1alpha1" "Action" migratedActionName (lo_Namespace action) "" 0
    (match lo_Config action with
     | LegacyAddClusterInfo c => spec (Some c) None None None
     | LegacyDeleteAttribute c => spec None (Some c) None None
     | LegacyRenameAttribute c => spec None None (Some c) None
     | LegacyK8sAttributes c => spec None None None (Some c)
     end) [].

Definition add_legacy_owner (a : LegacyAction) (o : OwnerRef) : LegacyAction :=
  mkLegacyAction (lo_Name a) (lo_Namespace a) (lo_ActionName a) (lo_Notes a) (lo_Disabled a) (lo_Signals a) (lo_Config a)
    (lo_Owners a ++ [o]).

(** [uid]: the identity that the server gives to the new action. *)
Definition legacy_Reconcile (uid kind namespace name : string) : gost World (Result * option error) :=
  r ← get_legacy kind namespace name;
  match r with
  | inl err => mret (no_result, IgnoreNotFound err)
  | inr action =>
      let migratedActionName := ActionMigratedLegacyPrefix +:+ lo_Name action in
      existing ← get_action (lo_Namespace action) migratedActionName;
      match existing with
      | inr _ => mret (no_result, None)
      | inl err =>
          if negb (IsNotFound err) then mret (no_result, Some err)
          else
            created ← create_action uid (createMigratedAction action migratedActionName);
            match created with
            | inl err => mret (no_result, Some err)
            | inr odigosAction =>
                updated ← update_legacy (add_legacy_owner action
                            (mkOwnerRef "odigos.io/v1alpha1" "Action" (ao_Name odigosAction) (ao_UID odigosAction)));
                mret (no_result, err_of updated)
            end
      end
  end.

(** The reconcilers of the four kinds. *)
Definition AddClusterInfo_Reconcile (uid : string) := legacy_Reconcile uid "AddClusterInfo".
Definition DeleteAttribute_Reconcile (uid : string) := legacy_Reconcile uid "DeleteAttribute".
Definition RenameAttribute_Reconcile (uid : string) := legacy_Reconcile uid "RenameAttribute".
Definition K8sAttributesResolver_Reconcile (uid : string) := legacy_Reconcile uid "K8sAttributesResolver".

(** ** What the controllers establish *)

(** A fault is a real one: it does not claim that an object is missing. *)
Definition honest_fault (f : option Fault) : Prop :=
  match f with Some f => IsNotFound (f_error f) = false ∧ is_other_agent_run (f_error f) = false | None => True end.
Definition honest (w : World) : Prop := Forall honest_fault (w_faults w).

(** Every call either replies as the server does, or fails with or without
    its effect. *)
Lemma returns_call {A} (f : Objects -> (error + A) * Objects) (Q : error + A -> World -> Prop) w :
  honest w ->
  (forall w', honest w' -> w_objects w' = (f (w_objects w)).2 -> Q (f (w_objects w)).1 w') ->
  (forall e w', honest w' -> (w_objects w' = w_objects w ∨ w_objects w' = (f (w_objects w)).2) ->
     IsNotFound e = false -> is_other_agent_run e = false -> Q (inl e) w') ->
  returns (call f) Q w.
Proof.
  destruct w as [o faults]. unfold honest. cbn. intros Hh Hok Hbad. unfold returns, call. cbn.
  destruct faults as [|[fault|] faults]; [|apply Forall_cons in Hh as [[Hn Ha] Hh]|apply Forall_cons in Hh as [_ Hh]].
  - eexists _, _. split; [done|]. by apply Hok.
  - eexists _, _. split; [done|]. apply Hbad; [done| |done|done]. cbn. destruct (f_made fault); auto.
  - eexists _, _. split; [done|]. by apply Hok.
Qed.
Lemma returns_query {A} (f : Objects -> error + A) (Q : error + A -> World -> Prop) w :
  honest w ->
  (forall w', honest w' -> w_objects w' = w_objects w -> Q (f (w_objects w)) w') ->
  (forall e w', honest w' -> w_objects w' = w_objects w -> IsNotFound e = false -> is_other_agent_run e = false -> Q (inl e) w') ->
  returns (query f) Q w.
Proof. intros Hh Hok Hbad. apply returns_call; [done|done|]. intros e w' ? [?|?] ? ?; by apply Hbad. Qed.

(** The shared processor is what the actions ask for. *)
Definition templatization_wanted (o : Objects) : Prop :=
  exists key a, w_actions o !! key = Some a ∧ ao_Namespace a = ns ∧ wants_templatization a = true.
Definition templatization_processor (o : Objects) : option ProcessorObject := w_processors o !! (ns, URLTemplatizationProcessorName).
(** The roles follow the span metrics; nothing else varies. *)
Definition templatization_applied (o : Objects) (p : ProcessorObject) : Prop :=
  ps_Type (po_Spec p) = "odigosurltemplate" ∧ ps_Signals (po_Spec p) = Some [TracesObservabilitySignal]
  ∧ ps_CollectorRoles (po_Spec p) = SharedProcessorCollectorRoles (default false (w_span_metrics o))
  ∧ ps_OrderHint (po_Spec p) = 1%Z.

Lemma wanted_exists o :
  existsb wants_templatization (filter (fun a => ao_Namespace a = ns) (map_to_list (w_actions o)).*2) = true
  <-> templatization_wanted o.
Proof.
  rewrite existsb_exists. unfold templatization_wanted. split.
  - intros (a & Ha%list_elem_of_In & Hw). apply list_elem_of_filter in Ha as [Hns ([k a'] & -> & Hk)%list_elem_of_fmap].
    apply elem_of_map_to_list in Hk. by exists k, a'.
  - intros (k & a & Hk & Hns & Hw). exists a. split; [|done]. apply list_elem_of_In, list_elem_of_filter. split; [done|].
    apply list_elem_of_fmap. exists (k, a). split; [done|]. by apply elem_of_map_to_list.
Qed.

(** All that may change is the shared processor. *)
Definition only_shared (o o' : Objects) : Prop :=
  w_actions o' = w_actions o ∧ w_legacy o' = w_legacy o ∧ w_span_metrics o' = w_span_metrics o
  ∧ forall key, key <> (ns, URLTemplatizationProcessorName) -> w_processors o' !! key = w_processors o !! key.
Lemma only_shared_refl o : only_shared o o.
Proof. done. Qed.
Lemma only_shared_set f o :
  (forall m key, key <> (ns, URLTemplatizationProcessorName) -> f m !! key = m !! key) -> only_shared o (set_processors f o).
Proof. intros Hf. split_and!; [done..|]. intros key Hk. by apply Hf. Qed.

Context `{!ObservedConditionsLaws} `{!ServerSideApplyLaws}.

Lemma templatization_applied_patch o old enabled :
  default false (w_span_metrics o) = enabled ->
  templatization_applied o (apply_processor old "action-controller" (buildUrlTemplatizationProcessor ns enabled)).
Proof.
  intros He. unfold templatization_applied.
  destruct (apply_required old "action-controller" (buildUrlTemplatizationProcessor ns enabled)) as (-> & Hs & -> & _).
  destruct (apply_optional old "action-controller" (buildUrlTemplatizationProcessor ns enabled)) as (_ & _ & _ & Ho & _).
  cbn in *. rewrite Hs, Ho, He by eauto. done.
Qed.

Lemma patch_templatization_spec enabled w :
  honest w -> default false (w_span_metrics (w_objects w)) = enabled ->
  returns (patch_processor "action-controller" (buildUrlTemplatizationProcessor ns enabled) ≫= fun r => mret (err_of r))
    (fun err w' => honest w' ∧ only_shared (w_objects w) (w_objects w')
       ∧ (err = None -> exists p, templatization_processor (w_objects w') = Some p ∧ templatization_applied (w_objects w') p)) w.
Proof.
  intros Hw He. apply returns_bind. apply returns_call; [done|..].
  - intros w' Hw' Eo. apply returns_ret. rewrite Eo. split_and!; [done| |].
    + apply only_shared_set. intros m key Hk. by rewrite lookup_insert_ne by (intros <-; done).
    + intros _. unfold templatization_processor. cbn. rewrite lookup_insert_eq. eexists. split; [done|].
      by apply templatization_applied_patch.
  - intros e w' Hw' Eo _ _. apply returns_ret. split_and!; [done| |done].
    destruct Eo as [->| ->]; [done|]. apply only_shared_set. intros m key Hk. by rewrite lookup_insert_ne by (intros <-; done).
Qed.

Lemma apply_templatization_spec w :
  honest w ->
  returns apply_templatization
    (fun err w' => honest w' ∧ only_shared (w_objects w) (w_objects w')
       ∧ (err = None -> exists p, templatization_processor (w_objects w') = Some p ∧ templatization_applied (w_objects w') p)) w.
Proof.
  intros Hw. unfold apply_templatization. apply returns_bind. apply returns_query; [done|..].
  - intros w' Hw' Eo. rewrite <-Eo. destruct (w_span_metrics (w_objects w')) as [b|] eqn:Eb; cbn [found].
    + apply patch_templatization_spec; [done|by rewrite Eb].
    + change (IsNotFound missing) with true. cbv iota. apply patch_templatization_spec; [done|by rewrite Eb].
  - intros e w' Hw' Eo Hn _. rewrite Hn. apply returns_ret. rewrite Eo. split_and!; [done..|discriminate].
Qed.

(** C19: a synchronisation of the shared URL templatization processor returns,
    changes no other object, and when it reports no error the processor is
    there exactly when an enabled action asks for it; the full one also gives
    it the roles that follow from the node collectors' span metrics. *)
Theorem templatization_synced (mode : URLTemplatizationSyncMode) (w : World) :
  honest w ->
  returns (SyncUrlTemplatizationProcessor mode)
    (fun err w' => honest w' ∧ only_shared (w_objects w) (w_objects w')
       ∧ (err = None ->
          (is_Some (templatization_processor (w_objects w')) <-> templatization_wanted (w_objects w))
          ∧ (mode = URLTemplatizationSyncApplyFull ->
             forall p, templatization_processor (w_objects w') = Some p -> templatization_applied (w_objects w') p))) w.
Proof.
  intros Hw. unfold SyncUrlTemplatizationProcessor, hasAnyUrlTemplatizationAction. do 2 apply returns_bind.
  apply returns_query; [done|..].
  2:{ intros e w1 Hw1 Eo _ _. apply returns_ret, returns_ret. rewrite Eo. split_and!; [done..|discriminate]. }
  intros w1 Hw1 Eo. apply returns_ret. destruct (existsb _ _) eqn:Ex.
  - apply wanted_exists in Ex.
    assert (Hfull : forall w2, honest w2 -> w_objects w2 = w_objects w -> returns apply_templatization
       (fun err w' => honest w' ∧ only_shared (w_objects w) (w_objects w')
       ∧ (err = None -> (is_Some (templatization_processor (w_objects w')) <-> templatization_wanted (w_objects w))
          ∧ (mode = URLTemplatizationSyncApplyFull ->
             forall p, templatization_processor (w_objects w') = Some p -> templatization_applied (w_objects w') p))) w2).
    { intros w2 Hw2 E2. eapply returns_mono; [by apply apply_templatization_spec|]. cbv beta. rewrite E2. intros err w' (? & ? & Hd).
      split_and!; [done..|]. intros He. destruct (Hd He) as (p & Hp & Ha). rewrite Hp. split; [split; [done|by eexists]|].
      by intros _ ? [= <-]. }
    destruct mode; [|by apply Hfull]. apply returns_bind. apply returns_query; [done|..].
    + intros w2 Hw2 E2. destruct (w_processors (w_objects w1) !! _) as [p|] eqn:Ep; cbn [found].
      * apply returns_ret. rewrite E2, Eo. split_and!; [done..|]. intros _. split; [|done].
        unfold templatization_processor. rewrite <-Eo, Ep. split; [intros _; by rewrite Eo|by eexists].
      * apply Hfull; [done|congruence].
    + intros e w2 Hw2 E2 _ _. apply Hfull; [done|congruence].
  - assert (Hno : ~ templatization_wanted (w_objects w)) by (rewrite <-wanted_exists, Ex; done).
    apply returns_bind. apply returns_call; [done|..]; rewrite Eo.
    + intros w2 Hw2 E2. apply returns_ret. unfold templatization_processor. revert E2.
      destruct (w_processors (w_objects w) !! (ns, _)) as [p|] eqn:Ep; cbn [fst snd]; intros ->.
      * split_and!; [done| |].
        { apply only_shared_set. intros m key Hk. by rewrite lookup_delete_ne by (intros <-; done). }
        intros _. cbn. rewrite lookup_delete_eq. split; [split; [by intros [? [=]]|done]|done].
      * split_and!; [done..|]. intros _. rewrite Ep. split; [split; [by intros [? [=]]|done]|done].
    + intros e w2 Hw2 E2 Hn _. apply returns_ret. unfold IgnoreNotFound. rewrite Hn. split_and!; [done| |discriminate].
      destruct E2 as [->|E2]; [done|]. revert E2. destruct (w_processors (w_objects w) !! (ns, _)); cbn [snd]; intros ->; [|done].
      apply only_shared_set. intros m key Hk. by rewrite lookup_delete_ne by (intros <-; done).
Qed.

(** *** Writes of an action's conditions *)

Definition cond_of (a : ActionObject) (t : string) : option ObservedCondition := FindObserved (ao_Conditions a) t.
Definition stored_action (a : ActionObject) (o : Objects) : Prop := w_actions o !! (ao_Namespace a, ao_Name a) = Some a.
(** The condition of type [t] is [v], and nothing else of the action changed. *)
Definition updated_action (t : string) (v : option ObservedCondition) (a a' : ActionObject) : Prop :=
  a' = with_conditions a (ao_Conditions a') ∧ forall t', cond_of a' t' = if decide (t' = t) then v else cond_of a t'.
Definition only_action (a : ActionObject) (o o' : Objects) : Prop :=
  w_processors o' = w_processors o ∧ w_legacy o' = w_legacy o ∧ w_span_metrics o' = w_span_metrics o
  ∧ forall key, key <> (ao_Namespace a, ao_Name a) -> w_actions o' !! key = w_actions o !! key.
Definition real_error (e : error) : Prop := IsNotFound e = false ∧ is_other_agent_run e = false.

Lemma handled_quiet e : (forall err, e = Some err -> real_error err) -> handled e = (no_result, None) -> e = None.
Proof.
  intros He. destruct e as [err|]; [|done]. destruct (He err) as [Hn Ha]; [done|]. cbn. unfold K8SUpdateErrorHandler.
  rewrite Hn, Ha. by destruct (IsConflict err).
Qed.

Lemma action_conditions_id a : with_conditions a (ao_Conditions a) = a.
Proof. by destruct a. Qed.

Lemma update_action_status_spec a l w :
  honest w -> stored_action a (w_objects w) ->
  returns (update_action_status (with_conditions a l))
    (fun r w' => honest w' ∧ only_action a (w_objects w) (w_objects w')
       ∧ match r with inl e => real_error e | inr a' => a' = with_conditions a l ∧ stored_action a' (w_objects w') end) w.
Proof.
  intros Hw Ha. assert (Hf : forall o', o' = set_actions (insert (ao_Namespace a, ao_Name a) (with_conditions a l)) (w_objects w) ->
    only_action a (w_objects w) o' ∧ w_actions o' !! (ao_Namespace a, ao_Name a) = Some (with_conditions a l)).
  { intros o' ->. split; [|by cbn; rewrite lookup_insert_eq]. split_and!; [done..|]. intros key Hk. cbn. by rewrite lookup_insert_ne by done. }
  unfold stored_action in Ha. apply returns_call; [done|..]; cbv beta zeta; cbn [ao_Namespace ao_Name with_conditions];
    rewrite Ha; cbn [fst snd].
  - intros w' Hw' Eo. destruct (Hf _ Eo) as [Ho Hl]. split_and!; [done|done|done|]. exact Hl.
  - intros e w' Hw' [Eo|Eo] Hn Hx; [rewrite Eo|]; (split_and!; [done| |done]); [done|]. by apply Hf.
Qed.

Lemma set_condition_spec a t reason w :
  honest w -> stored_action a (w_objects w) ->
  returns (set_condition a t reason)
    (fun r w' => honest w' ∧ only_action a (w_objects w) (w_objects w')
       ∧ match r.1 with
         | Some e => real_error e
         | None => stored_action r.2 (w_objects w') ∧ updated_action t (Some (observed t reason (ao_Generation a))) a r.2
         end) w.
Proof.
  intros Hw Ha. unfold set_condition. set (c := observed t reason (ao_Generation a)).
  assert (Hu : updated_action t (Some c) a (with_conditions a (SetObserved (ao_Conditions a) c).1)).
  { split; [done|]. intros t'. unfold cond_of. cbn [ao_Conditions with_conditions]. by rewrite find_set_observed. }
  destruct (SetObserved (ao_Conditions a) c) as [l changed] eqn:El. cbn [fst] in Hu. destruct changed.
  - apply returns_bind. eapply returns_mono; [by apply update_action_status_spec|]. intros r w' (Hw' & Ho & Hr).
    apply returns_ret. destruct r as [e|a']; cbn [fst snd]; [done|]. destruct Hr as [-> Hr]. done.
  - apply returns_ret. cbn [fst snd]. split_and!; [done..| |done].
    pose proof (set_observed_unchanged_eq (ao_Conditions a) c) as Hl. rewrite El in Hl. cbn in Hl. rewrite Hl by done.
    by rewrite action_conditions_id.
Qed.

Lemma clear_condition_spec a t w :
  honest w -> stored_action a (w_objects w) ->
  returns (clear_condition a t)
    (fun r w' => honest w' ∧ only_action a (w_objects w) (w_objects w')
       ∧ match r with
         | Some e => real_error e
         | None => exists a', stored_action a' (w_objects w') ∧ updated_action t None a a'
         end) w.
Proof.
  intros Hw Ha. unfold clear_condition.
  assert (Hsame : FindObserved (ao_Conditions a) t = None -> updated_action t None a a).
  { intros Hn. split; [by rewrite action_conditions_id|]. intros t'. case_decide as E; [|done]. by rewrite E. }
  destruct (FindObserved (ao_Conditions a) t) as [c|] eqn:Ef.
  2:{ apply returns_ret. split_and!; [done..|]. exists a. auto. }
  destruct (RemoveObserved (ao_Conditions a) t) as [l changed] eqn:El. destruct changed.
  - apply returns_bind. eapply returns_mono; [by apply update_action_status_spec|]. intros r w' (Hw' & Ho & Hr).
    apply returns_ret. destruct r as [e|a']; cbn [err_of]; [done|]. destruct Hr as [-> Hr]. split_and!; [done..|].
    eexists. split; [done|]. split; [done|]. intros t'. unfold cond_of. cbn [ao_Conditions with_conditions].
    pose proof (find_remove_observed (ao_Conditions a) t t') as Hl. by rewrite El in Hl.
  - exfalso. pose proof (remove_observed_unchanged (ao_Conditions a) t) as Hl. rewrite El in Hl. cbn in Hl.
    rewrite Hl in Ef; done.
Qed.

(** *** What a quiet reconciliation has done *)

Definition actions_of (o : Objects) (ns' : string) : list ActionObject :=
  filter (fun a => ao_Namespace a = ns') (map_to_list (w_actions o)).*2.

(** The action as a processor: [listed] is what the conversion was given. *)
Definition converted_outcome (listed : error + list ActionObject) (a : ActionObject) (o' : Objects) (a' : ActionObject) : Prop :=
  match convertActionToProcessor listed a with
  | inl err =>
      cond_of a' TransformedToProcessorType
      = Some (observed TransformedToProcessorType (TransformedToProcessorFailedToTransformToProcessor (Error err)) (ao_Generation a))
  | inr p =>
      exists old, let p' := apply_processor old (ao_Name a) p in
      w_processors o' !! (po_Namespace p, po_Name p) = Some p'
      ∧ cond_of a' TransformedToProcessorType
        = Some (observed TransformedToProcessorType (reconciled_reason a) (ao_Generation a))
      ∧ (po_Name p = ao_Name a ->
         cond_of a' AddedToCollectorConfigType
         = (fun r => observed AddedToCollectorConfigType r (ao_Generation a)) <$> mirrored p')
  end.

Lemma convert_spec a w :
  honest w ->
  returns (convert a)
    (fun r w' => honest w' ∧ w_objects w' = w_objects w
       ∧ exists listed, r = convertActionToProcessor listed a
         ∧ (needs_list (ao_Spec a) = true -> forall l, listed = inr l -> l = actions_of (w_objects w) (ao_Namespace a))) w.
Proof.
  intros Hw. unfold convert. destruct (needs_list (ao_Spec a)).
  - apply returns_bind. apply returns_query; [done|..].
    + intros w' Hw' Eo. apply returns_ret. split_and!; [done..|]. eexists. split; [done|]. intros _ l [= <-]. done.
    + intros e w' Hw' Eo _ _. apply returns_ret. split_and!; [done..|]. by exists (inl e).
  - apply returns_ret. split_and!; [done..|]. by exists (inr []).
Qed.

Lemma convert_namespace listed a p : convertActionToProcessor listed a = inr p -> po_Namespace p = ao_Namespace a.
Proof.
  unfold convertActionToProcessor, err_bind, k8s_processor, convertToDefaultProcessor. repeat case_match; intros; by simplify_eq/=.
Qed.

Lemma sync_added_spec a p w :
  honest w -> stored_action a (w_objects w) -> w_processors (w_objects w) !! (ao_Namespace a, ao_Name a) = Some p ->
  returns (syncAddedToCollectorConfigFromOwnedProcessor a)
    (fun r w' => honest w' ∧ only_action a (w_objects w) (w_objects w')
       ∧ match r with
         | Some e => real_error e
         | None => exists a', stored_action a' (w_objects w')
             ∧ updated_action AddedToCollectorConfigType ((fun r => observed AddedToCollectorConfigType r (ao_Generation a)) <$> mirrored p) a a'
         end) w.
Proof.
  intros Hw Ha Hp. unfold syncAddedToCollectorConfigFromOwnedProcessor. apply returns_bind. apply returns_query; [done|..].
  - intros w1 Hw1 E1. rewrite Hp. cbn [found]. destruct (mirrored p) as [reason|] eqn:Em; cbn [fmap option_fmap option_map].
    + apply returns_bind. eapply returns_mono; [apply set_condition_spec; [done|by rewrite E1]|]. cbv beta. rewrite E1.
      intros [e a'] w' (Hw' & Ho & Hr). apply returns_ret. cbn [fst snd] in *. split_and!; [done..|]. destruct e; [done|]. by exists a'.
    + unfold clearAddedToCollectorConfig. eapply returns_mono; [apply clear_condition_spec; [done|by rewrite E1]|]. cbv beta. by rewrite E1.
  - intros e w1 Hw1 E1 Hn Hx. rewrite Hn. apply returns_ret. rewrite E1. done.
Qed.

Lemma reconcile_processor_spec a w :
  honest w -> stored_action a (w_objects w) ->
  returns (reconcile_processor a)
    (fun res w' => res = (no_result, None) ->
       exists a' listed, stored_action a' (w_objects w') ∧ a' = with_conditions a (ao_Conditions a')
       ∧ (needs_list (ao_Spec a) = true -> forall l, listed = inr l -> l = actions_of (w_objects w) (ao_Namespace a))
       ∧ converted_outcome listed a (w_objects w') a') w.
Proof.
  intros Hw Ha. unfold reconcile_processor. apply returns_bind. eapply returns_mono; [by apply convert_spec|].
  intros r w1 (Hw1 & E1 & listed & -> & Hl). destruct (convertActionToProcessor listed a) as [err|p] eqn:Ec.
  - unfold reportReconciledToProcessorFailed. do 2 apply returns_bind.
    eapply returns_mono; [apply set_condition_spec; [done|by rewrite E1]|]. intros [e a'] w2 (_ & _ & Hr). cbn [fst snd] in *.
    apply returns_ret, returns_ret. intros He%handled_quiet; [|by intros ? ->]. subst e. destruct Hr as [Hs [Hid Hc]].
    exists a', listed. split_and!; [done..|]. unfold converted_outcome. rewrite Ec, Hc. by case_decide.
  - pose proof (convert_namespace _ _ _ Ec) as Hns. apply returns_bind. apply returns_call; [done|..].
    2:{ intros e w2 Hw2 E2 Hn Hx. cbv beta. apply returns_bind. unfold reportReconciledToProcessorFailed. apply returns_bind.
        assert (Ha2 : stored_action a (w_objects w2)) by (destruct E2 as [->| ->]; by rewrite E1).
        eapply returns_mono; [by apply set_condition_spec|]. intros r w3 _. apply returns_ret, returns_ret.
        intros Hq%handled_quiet; [done|]. by intros ? [= <-]. }
    intros w2 Hw2 E2. cbv beta zeta in E2 |- *. cbn [fst snd] in E2 |- *. rewrite E1 in E2.
    assert (Ha2 : stored_action a (w_objects w2)) by (by rewrite E2).
    assert (Hp2 : exists old, w_processors (w_objects w2) !! (po_Namespace p, po_Name p) = Some (apply_processor old (ao_Name a) p)).
    { rewrite E2. cbn. rewrite lookup_insert_eq. by eexists. }
    destruct Hp2 as [old Hp2]. unfold reportReconciledToProcessor. apply returns_bind.
    eapply returns_mono; [by apply set_condition_spec|]. intros [e a1] w3 (Hw3 & Ho3 & Hr). cbn [fst snd] in *.
    destruct e as [err|].
    { apply returns_ret. intros Hq%handled_quiet; [done|]. by intros ? [= <-]. }
    destruct Hr as [Hs1 [Hid1 Hc1]].
    assert (Hp3 : w_processors (w_objects w3) !! (po_Namespace p, po_Name p) = Some (apply_processor old (ao_Name a) p)).
    { destruct Ho3 as [-> _]. done. }
    case_decide as Hname.
    + apply returns_ret. intros _. exists a1, listed. split_and!; [done..|]. unfold converted_outcome. rewrite Ec. exists old.
      split_and!; [done|rewrite Hc1; by case_decide|done].
    + assert (Hk1 : ao_Namespace a1 = ao_Namespace a ∧ ao_Name a1 = ao_Name a ∧ ao_Generation a1 = ao_Generation a) by (by rewrite Hid1).
      destruct Hk1 as (Hk1 & Hk2 & Hk3). apply returns_bind. eapply returns_mono.
      { apply (sync_added_spec a1); [done|done|]. by rewrite Hk1, Hk2, <-Hname, <-Hns. }
      intros e w4 (Hw4 & Ho4 & Hr4). apply returns_ret. intros He%handled_quiet; [|by intros ? ->]. subst e.
      destruct Hr4 as (a2 & Hs2 & Hid2 & Hc2). exists a2, listed. split_and!; [done| |done|].
      { by rewrite Hid2, Hid1. }
      unfold converted_outcome. rewrite Ec. exists old. destruct Ho4 as (-> & _). split_and!; [done| |].
      * rewrite Hc2. case_decide; [done|]. rewrite Hc1. by case_decide.
      * intros _. rewrite Hc2, Hk3. by case_decide.
Qed.

(** C18: a reconciliation of an action returns for every sequence of faults,
    and when it asks for nothing more (no error, no requeue) the stored
    action's conditions say what was done: an action of the extension has no
    TransformedToProcessor, one that cannot be converted carries the error,
    and for any other the processor was applied and its own condition is
    mirrored. *)
Theorem quiet_reconcile (namespace name : string) (a : ActionObject) (w : World) :
  honest w -> stored_action a (w_objects w) -> ao_Namespace a = namespace -> ao_Name a = name ->
  returns (Reconcile namespace name)
    (fun res w' => res = (no_result, None) ->
       exists a', stored_action a' (w_objects w') ∧ a' = with_conditions a (ao_Conditions a')
       ∧ match handling a with
         | ByTemplatization =>
             cond_of a' TransformedToProcessorType
             = Some (observed TransformedToProcessorType (reconciled_reason a) (ao_Generation a))
         | ByExtension => cond_of a' TransformedToProcessorType = None
         | ByProcessor | Unsupported =>
             exists listed, (needs_list (ao_Spec a) = true -> forall l, listed = inr l -> l = actions_of (w_objects w) namespace)
             ∧ converted_outcome listed a (w_objects w') a'
         end) w.
Proof.
  intros Hw Ha <- <-. unfold Reconcile. apply returns_bind. apply returns_query; [done|..].
  2:{ intros e w1 _ _ Hn _. rewrite Hn. by apply returns_ret. }
  intros w1 Hw1 E1. unfold stored_action in Ha. rewrite Ha. cbn [found]. apply returns_bind.
  eapply returns_mono; [by apply templatization_synced|]. cbv beta. rewrite E1. intros [err|] w2 (Hw2 & Ho & _).
  { by apply returns_ret. }
  assert (Ha2 : stored_action a (w_objects w2)) by (unfold stored_action; destruct Ho as [-> _]; done).
  unfold handling. destruct (as_URLTemplatization (ao_Spec a)) as [u|].
  { unfold reportReconciledToProcessor. apply returns_bind. eapply returns_mono; [by apply set_condition_spec|].
    intros [e a'] w3 (_ & _ & Hr). cbn [fst snd] in *. apply returns_ret. intros He%handled_quiet; [|by intros ? ->]. subst e.
    destruct Hr as [Hs [Hid Hc]]. exists a'. split_and!; [done..|]. rewrite Hc. by case_decide. }
  destruct (IsConfigExtension a).
  { unfold clearTransformedToProcessor. apply returns_bind. eapply returns_mono; [by apply clear_condition_spec|].
    intros e w3 (_ & _ & Hr). apply returns_ret. intros He%handled_quiet; [|by intros ? ->]. subst e.
    destruct Hr as (a' & Hs & Hid & Hc). exists a'. split_and!; [done..|]. rewrite Hc. by case_decide. }
  eapply returns_mono; [by apply reconcile_processor_spec|]. intros res w3 Hq Hres. destruct (Hq Hres) as (a' & listed & ? & ? & Hl & ?).
  assert (El : actions_of (w_objects w2) (ao_Namespace a) = actions_of (w_objects w) (ao_Namespace a)) by (unfold actions_of; by destruct Ho as [-> _]).
  rewrite El in Hl. exists a'. split_and!; [done..|].
  destruct (as_AddClusterInfo (ao_Spec a)), (as_DeleteAttribute (ao_Spec a)), (as_RenameAttribute (ao_Spec a)),
    (as_ExtractAttribute (ao_Spec a)), (as_K8sAttributes (ao_Spec a)); by exists listed.
Qed.

(** *** Migration *)

(** A migration never touches an action that is there, and when it reports
    nothing the migrated action is there: with the configuration of the
    deprecated object, if it was not there before. *)
Theorem legacy_migrated (uid : string) (l : LegacyAction) (w : World) :
  honest w -> w_legacy (w_objects w) !! (legacy_kind (lo_Config l), lo_Namespace l, lo_Name l) = Some l ->
  let name := ActionMigratedLegacyPrefix +:+ lo_Name l in
  returns (legacy_Reconcile uid (legacy_kind (lo_Config l)) (lo_Namespace l) (lo_Name l))
    (fun res w' =>
       (forall key, key <> (lo_Namespace l, name) \/ is_Some (w_actions (w_objects w) !! key) ->
          w_actions (w_objects w') !! key = w_actions (w_objects w) !! key)
       ∧ (res.2 = None -> exists a, w_actions (w_objects w') !! (lo_Namespace l, name) = Some a
            ∧ (w_actions (w_objects w) !! (lo_Namespace l, name) = None -> ao_Spec a = ao_Spec (createMigratedAction l name)))) w.
Proof.
  intros Hw Hl name. unfold legacy_Reconcile. apply returns_bind. apply returns_query; [done|..].
  2:{ intros e w1 Hw1 E1 Hn _. apply returns_ret. rewrite E1. unfold IgnoreNotFound. rewrite Hn. done. }
  intros w1 Hw1 E1. rewrite Hl. cbn [found]. fold name. apply returns_bind. apply returns_query; [done|..].
  2:{ intros e w2 Hw2 E2 Hn _. rewrite Hn. apply returns_ret. by rewrite E2, E1. }
  intros w2 Hw2 E2. rewrite E1. destruct (w_actions (w_objects w) !! (lo_Namespace l, name)) as [a|] eqn:Ea; cbn [found].
  { apply returns_ret. rewrite E2, E1. split; [done|]. intros _. by exists a. }
  change (IsNotFound missing) with true. cbn [negb]. cbv iota. apply returns_bind. apply returns_call; [done|..];
    cbv beta zeta; cbn [ao_Namespace ao_Name createMigratedAction]; rewrite E2, E1, Ea; cbn [fst snd].
  - intros w3 Hw3 E3.
    assert (Hkeep : forall o', w_actions o' = w_actions (w_objects w3) ->
      (forall key, key <> (lo_Namespace l, name) \/ is_Some (w_actions (w_objects w) !! key) -> w_actions o' !! key = w_actions (w_objects w) !! key)
      ∧ exists a, w_actions o' !! (lo_Namespace l, name) = Some a ∧ ao_Spec a = ao_Spec (createMigratedAction l name)).
    { intros o' ->. rewrite E3. cbn. rewrite lookup_insert_eq. split; [|by eexists]. intros key Hk. rewrite lookup_insert_ne; [done|].
      intros <-. destruct Hk as [Hk|[? Hk]]; congruence. }
    apply returns_bind. apply returns_call; [done|..].
    + intros w4 Hw4 E4. apply returns_ret. destruct (Hkeep (w_objects w4)) as [Hk (a & Ha & Hs)].
      { rewrite E4. cbv beta zeta. by case_match. }
      split; [done|]. intros _. by exists a.
    + intros e w4 Hw4 E4 _ _. apply returns_ret. split; [|done]. apply Hkeep. destruct E4 as [->| ->]; [done|]. cbv beta zeta. by case_match.
  - intros e w3 Hw3 E3 _ _. apply returns_ret. split; [|done]. intros key Hk. destruct E3 as [->| ->]; [done|]. cbn.
    rewrite lookup_insert_ne; [done|]. intros <-. destruct Hk as [Hk|[? Hk]]; congruence.
Qed.
(** *** The condition of a processor *)

Lemma update_processor_status_spec p l w :
  honest w -> w_processors (w_objects w) !! (po_Namespace p, po_Name p) = Some p ->
  returns (update_processor_status (with_processor_conditions p l))
    (fun r w' => forall p', r = inr p' ->
       w_processors (w_objects w') !! (po_Namespace p, po_Name p) = Some (with_processor_conditions p l)) w.
Proof.
  intros Hw Hp. apply returns_call; [done|..]; cbv beta zeta; cbn [po_Namespace po_Name with_processor_conditions]; rewrite Hp; cbn [fst snd].
  - intros w' _ -> p' _. cbn. by rewrite lookup_insert_eq.
  - done.
Qed.

(** When the synchronisation for a role reports nothing, the processor's
    condition says what became of it in that collector, or does not speak of
    that collector if the processor is not for it. *)
Theorem processor_condition_synced (generation : Z) (name role : string) (p : ProcessorObject) (w : World) :
  honest w -> w_processors (w_objects w) !! (ns, name) = Some p -> po_Namespace p = ns -> po_Name p = name ->
  returns (SyncProcessorAddedToCollectorConfig generation name role)
    (fun err w' => err = None ->
       exists updated removed p', addedToCollectorConfigReasonsForRole role = inr (updated, removed)
       ∧ w_processors (w_objects w') !! (ns, name) = Some p' ∧ po_Spec p' = po_Spec p
       ∧ let c := FindObserved (po_Conditions p') AddedToCollectorConfigType in
         if decide (role ∈ ps_CollectorRoles (po_Spec p)) then
           c = Some (observed AddedToCollectorConfigType (if ps_Disabled (po_Spec p) then removed else updated) generation)
         else forall x, c = Some x -> cond_reason (oc_Condition x) <> r_name updated ∧ cond_reason (oc_Condition x) <> r_name removed) w.
Proof.
  intros Hw Hp Hns Hname. assert (Hkey : (ns, name) = (po_Namespace p, po_Name p)) by congruence. unfold SyncProcessorAddedToCollectorConfig.
  destruct (addedToCollectorConfigReasonsForRole role) as [err|[updated removed]]; [by apply returns_ret|].
  apply returns_bind. apply returns_query; [done|..]; [|intros e w1 _ _ _ _; by apply returns_ret].
  intros w1 Hw1 E1. rewrite Hp. cbn [found]. rewrite <-E1, Hkey in Hp. rewrite Hkey. case_decide as Hrole.
  - unfold set_processor_condition. set (reason := if ps_Disabled (po_Spec p) then removed else updated).
    set (c := observed AddedToCollectorConfigType reason generation).
    pose proof (find_set_observed (po_Conditions p) c AddedToCollectorConfigType) as Hf.
    rewrite decide_True in Hf by done. pose proof (set_observed_unchanged_eq (po_Conditions p) c) as Hu.
    destruct (SetObserved (po_Conditions p) c) as [l changed]. cbn [fst snd] in Hf, Hu. destruct changed.
    + apply returns_bind. eapply returns_mono; [by apply update_processor_status_spec|]. intros r w2 Hr. apply returns_ret.
      intros He. destruct r as [e|p']; [done|]. exists updated, removed, (with_processor_conditions p l). split_and!; [done| |done|done].
      by eapply Hr.
    + apply returns_ret. intros _. exists updated, removed, p. rewrite Hu in Hf by done. by split_and!.
  - destruct (FindObserved (po_Conditions p) AddedToCollectorConfigType) as [cond|] eqn:Ef.
    2:{ apply returns_ret. intros _. exists updated, removed, p. rewrite Ef. by split_and!. }
    case_decide as Hre.
    { apply returns_ret. intros _. exists updated, removed, p. rewrite Ef. split_and!; [done..|]. by intros x [= <-]. }
    pose proof (find_remove_observed (po_Conditions p) AddedToCollectorConfigType AddedToCollectorConfigType) as Hf.
    rewrite decide_True in Hf by done. pose proof (remove_observed_unchanged (po_Conditions p) AddedToCollectorConfigType) as Hu.
    destruct (RemoveObserved (po_Conditions p) AddedToCollectorConfigType) as [l changed]. cbn [fst snd] in Hf, Hu. destruct changed.
    + apply returns_bind. eapply returns_mono; [by apply update_processor_status_spec|]. intros r w2 Hr. apply returns_ret.
      intros He. destruct r as [e|p']; [done|]. exists updated, removed, (with_processor_conditions p l). split_and!; [done|by eapply Hr|done|].
      cbn. by rewrite Hf.
    + rewrite Hu in Ef by done. done.
Qed.
End Controllers.

(** ** Concrete runs *)

Definition sample_apply : ServerSideApply := {| apply_processor old m p := with_processor_conditions p (from_option po_Conditions [] old) |}.
Lemma sample_apply_laws : @ServerSideApplyLaws sample_apply.
Proof. split; cbn; try done. intros old m p. unfold kept. split_and!; auto. Qed.

Definition sample_action (name : string) (s : ActionSpec) : ActionObject :=
  mkActionObject "odigos.io/v1alpha1" "Action" name "odigos-system" name 1 s [].
Definition sample_delete : ActionObject :=
  sample_action "drop" (mkActionSpec "" "" false (Some [TracesObservabilitySignal]) None (Some (mkDeleteAttribute ["db.statement"]))
    None None None None None None None None).
Definition sample_template : ActionObject :=
  sample_action "urls" (mkActionSpec "" "" false (Some [TracesObservabilitySignal]) None None None None None
    (Some (mkUrlAction [] [])) None None None None).
Definition sample_world (l : list ActionObject) (faults : list (option Fault)) : World :=
  mkWorld (mkObjects (list_to_map ((fun a => ((ao_Namespace a, ao_Name a), a)) <$> l)) ∅ ∅ (Some true)) faults.

Lemma quiet_reconcile_witness :
  @returns World _ (@Reconcile sample_observed sample_apply order_forward _ sample_library "odigos-system" "odigos-system" "drop")
    (fun res w' => res = (no_result, None) ->
       exists a', stored_action a' (w_objects w') ∧ a' = with_conditions sample_delete (ao_Conditions a')
       ∧ match handling sample_delete with
         | ByTemplatization =>
             cond_of a' TransformedToProcessorType
             = Some (observed TransformedToProcessorType (reconciled_reason sample_delete) 1)
         | ByExtension => cond_of a' TransformedToProcessorType = None
         | ByProcessor | Unsupported =>
             exists listed, (needs_list (ao_Spec sample_delete) = true -> forall l, listed = inr l ->
               l = actions_of (w_objects (sample_world [sample_delete] [])) "odigos-system")
             ∧ @converted_outcome sample_observed sample_apply order_forward _ sample_library listed sample_delete (w_objects w') a'
         end) (sample_world [sample_delete] []).
Proof.
  apply (@quiet_reconcile sample_observed sample_apply order_forward _ sample_library "odigos-system" sample_observed_laws sample_apply_laws).
  - constructor.
  - by vm_compute.
  - done.
  - done.
Defined.

(** The run is quiet. *)
Example sample_run_quiet :
  match @Reconcile sample_observed sample_apply order_forward _ sample_library "odigos-system" "odigos-system" "drop"
          (sample_world [sample_delete] []) with
  | Done (res, w') => res = (no_result, None)
      ∧ (fun p => ps_Type (po_Spec p)) <$> w_processors (w_objects w') !! ("odigos-system", "drop") = Some "transform"
  | _ => False end.
Proof. by vm_compute. Qed.

Lemma templatization_synced_witness :
  @returns World _ (@SyncUrlTemplatizationProcessor sample_apply "odigos-system" URLTemplatizationSyncApplyFull)
    (fun err w' => honest w' ∧ only_shared "odigos-system" (w_objects (sample_world [sample_template] [])) (w_objects w')
       ∧ (err = None ->
          (is_Some (templatization_processor "odigos-system" (w_objects w'))
             <-> templatization_wanted "odigos-system" (w_objects (sample_world [sample_template] [])))
          ∧ (URLTemplatizationSyncApplyFull = URLTemplatizationSyncApplyFull ->
             forall p, templatization_processor "odigos-system" (w_objects w') = Some p -> templatization_applied (w_objects w') p)))
    (sample_world [sample_template] []).
Proof. apply (@templatization_synced sample_apply "odigos-system" sample_apply_laws). constructor. Defined.

(** A list call that fails once ends the reconciliation of a K8sAttributes
    action without an error and without a requeue. *)
Example list_failure_forgotten :
  let w := sample_world sample_k8s_actions [None; None; None; Some (mkFault (ENew "timeout") false)] in
  match @Reconcile sample_observed sample_apply order_forward _ sample_library "odigos-system" "odigos-system" "a" w with
  | Done (res, w') => res = (no_result, None) ∧ w_processors (w_objects w') = ∅
  | _ => False end.
Proof. by vm_compute. Qed.

(** When the write of the owner fails after the migrated action was created,
    the next reconciliation finds the action and never adds the owner. *)
Example migration_owner_lost :
  let l := mkLegacyAction "old" "odigos-system" "" "" false (Some []) (LegacyDeleteAttribute (mkDeleteAttribute ["a"])) [] in
  let w := mkWorld (mkObjects ∅ ∅ {[("DeleteAttribute", "odigos-system", "old") := l]} None)
             [None; None; None; Some (mkFault (ENew "timeout") false)] in
  let run := legacy_Reconcile "u1" "DeleteAttribute" "odigos-system" "old" in
  match run w with
  | Done ((_, Some _), w1) =>
      match run w1 with
      | Done (res, w2) => res = (no_result, None)
          ∧ lo_Owners <$> w_legacy (w_objects w2) !! ("DeleteAttribute", "odigos-system", "old") = Some []
      | _ => False end
  | _ => False end.
Proof. by vm_compute. Qed.
